(* ===== verification/_CoqProject ===== *)
-Q . S2P
Prelude.v
Bytes.v
Regex.v
Patterns.v
Float64.v
Canonical.v
CanonicalFacts.v
Json.v
JsonFacts.v
Contracts.v
ContractsFacts.v
Policy.v
PolicyFacts.v
State.v
StateFacts.v
Authorization.v
Postgres.v
PostgresFacts.v
PostgresPolicyFacts.v
Tools.v
ToolsFacts.v
EntropyFacts.v
Decisions.v
Mandates.v
MandatesFacts.v
Adapters.v
AdaptersFacts.v
Eip1559.v
Eip1559Facts.v
Signing.v
SigningFacts.v
Journal.v
JournalFacts.v
Retention.v
RetentionFacts.v
RateLimit.v
Artifacts.v
Attestations.v
AttestationsFacts.v
Settlements.v
SettlementsFacts.v
Service.v
ServiceFacts.v
Scenario.v
Ledger.v
LedgerFacts.v
LocalBackend.v
SpendPolicy.v
Guard.v
Monitor.v
MonitorFacts.v
GuardScenario.v
Agents.v
AgentsFacts.v
Testbed.v
Attacks.v
AttacksFacts.v
Tasks.v
TasksFacts.v
Experiments.v
ExperimentsFacts.v
ExperimentsLive.v
Access.v
AccessFacts.v
Startup.v
StartupFacts.v
Evaluation.v
EvaluationFacts.v
PostgresStores.v
PostgresStoresFacts.v
PostgresSettlementsFacts.v
Api.v
ApiFacts.v
ApiScenario.v
ReleaseEvidence.v
ReleaseEvidenceFacts.v
ReleaseGates.v
ReleaseGatesFacts.v
