(* ===== verification/Prelude.v ===== *)
(** A verification of AegisLedger (src/agentguard-testbed): an authorization service for
    agent payments, and the agentwallet testbed it grew out of.

    * The program

    An agent submits a proposal over the HTTP API ([api.py]).  The state store evaluates it
    against the active policy and reserves budget; the decision issuer signs the verdict.
    To execute, the service builds an EIP-1559 transaction, asks the isolated signer, whose
    gate re-checks everything, stores the execution, submits the transaction to a chain and
    registers it with the settlement reconciler, which moves the proposal to its final
    state; a complete attestation then binds all artifacts.  Every step appends to a
    hash-chained audit journal.  In the testbed, an agent guard with a policy engine stands
    between agents and a local chain with tokens and a constant-product pool.

    * Files (models first, then the facts about them)

    - Prelude, Bytes: exceptions and results, methods on a mutable state ([M S A], the
      mutations before an exception are kept), automation, sums over dicts, strings, bytes.
    - Regex, Patterns, Float64: Python's regular expressions, as a derivative matcher for
      whole-string tests and as a backtracking matcher with groups for searches; the
      binary64 operations, each the exact result rounded once, with roots and formatting.
    - Canonical, CanonicalFacts: [canonical.py], the canonical JSON writer and UUIDs.
    - Json, JsonFacts: [json.loads], as the stored documents are read.
    - Contracts, ContractsFacts: [crypto.py], [contracts.py], the versioned schemas.
    - Policy, PolicyFacts: [policy.py], [policies.py], documents and two-person registry.
    - State, StateFacts: [state.py], evaluation, reservation, lifecycle, nonces.
    - Authorization: the authorization protocol of formal/ as a step relation, and the
      refinement of it by the memory store.
    - Postgres, PostgresFacts, PostgresPolicyFacts: [postgres.py] and the schema of
      migrations/, each statement as its effect on tables with constraints.
    - PostgresStores, PostgresStoresFacts, PostgresSettlementsFacts: the PostgreSQL halves
      of the artifact, attestation, settlement, credential, experiment and rate-limit stores.
    - Tools, ToolsFacts, EntropyFacts: [tools.py], tool definitions and the sandbox.
    - Adapters, AdaptersFacts: [agents.py], [protocols.py].
    - Decisions, Mandates, MandatesFacts: [decisions.py], [mandates.py].
    - Eip1559, Eip1559Facts: [eip1559.py], RLP and the constrained transaction.
    - Signing, SigningFacts: [signing.py], the fail-closed signer gate.
    - Journal, JournalFacts: [audit.py], hash chain and Merkle checkpoints.
    - Retention, RetentionFacts: [audit.py], the retention protocol with its laws, the memory,
      file system and object-lock stores behind it, and anchoring over any of them.
    - RateLimit: [rate_limit.py].
    - Artifacts: [signer_client.py], [chain.py], [artifact_store.py].
    - Attestations, AttestationsFacts: [attestations.py], [attestation_store.py].
    - Settlements, SettlementsFacts: [reconciler.py].
    - Service, ServiceFacts, Scenario: [ServiceContainer] of [api.py] over all of the above,
      with the signer and chain calls logged in order.
    - Access, AccessFacts: [auth.py], [service_accounts.py].
    - Experiments, ExperimentsFacts, ExperimentsLive: [experiment_store.py], the experiment
      operations and the recovery after a restart.
    - Startup, StartupFacts: [settings.py], [main.py], [cli.py]: the checks of
      the settings, the wiring of the services and the operator commands, over a protocol of
      policy stores with its laws.
    - Evaluation, EvaluationFacts: [evaluation.py], statistics, rows, summaries and the
      publication of a result directory, with failing writes and crashes.
    - Api, ApiFacts, ApiScenario: the endpoints of [api.py], health and the body limit.
    - Ledger, LedgerFacts: agentwallet/chain/ledger.py, wallet/, mev/relay.py.
    - LocalBackend: [LocalChainBackend] of [chain.py] over Ledger.
    - SpendPolicy, Guard, Monitor, MonitorFacts, GuardScenario: agentwallet/guard/,
      payments/, agents/executor_agent.py and the block loop of testbed.py.
    - Agents, AgentsFacts: agents/base.py, agents/language_agent.py and the encoders of
      tools/adversarial.py.
    - Testbed, Attacks, AttacksFacts: testbed.py, attacks/, mev/searcher.py and the servers
      of tools/adversarial.py.
    - Tasks, TasksFacts: tools/benign.py, tasks/suite.py and the matrices of eval/harness.py.
    - ReleaseEvidence, ReleaseEvidenceFacts: scripts/release_evidence.py.
    - ReleaseGates, ReleaseGatesFacts: scripts/check_mutation_score.py,
      check_assurance_scorecard.py, check_provenance_inventory.py.

    A class is a record, its methods are definitions in the monad [M] in the order of the
    source's statements, its constructor [<Class>_init], a schema's validation
    [<Schema>_validate].  Clock readings, random draws and fresh identifiers are arguments.
    Integers are unbounded as in Python; fields with a width (RLP, UUIDs, hashes) carry it
    in their checks.

    * What the theorems show

    - Authorization: within one cap window the store implements the protocol call by call,
      each call an action with its guard, no step, or a refusal for another reason than the
      cap, which formal/Authorization.tla does not have; caps hold in every window; the
      verdict is exactly the policy's rules; a transition moves one record along an allowed
      edge.
    - Signing: the gate accepts only bound, live, unused authorizations; nothing is accepted
      twice; of what the service builds for a reserved proposal the gate accepts exactly what
      its own state (allowed policies and chains, used decisions, nonces, time) admits.
    - Codec: the decoder gives back what the encoder wrote, up to letter case, unless the
      text of the target has white space, which only the encoder accepts; byte strings are
      canonical, the decoder is total.
    - Service: one transaction per proposal, retries change nothing, settlement follows
      receipts that may change from poll to poll, attestations pin what was authorized, the
      journal is tamper-evident; an anchored checkpoint stays readable in every store that
      keeps the retention laws (object lock does while its client gets answers).
    - Documents: what the canonical writer wrote is read back, and the reader is total.
    - Startup: what starts in production is durable, signs over mutual TLS and leaves the
      policies alone; the development bootstrap ends with a policy two administrators approved,
      or raises where a version of it is stored but not active.
    - Mandates and policies: budgets per registration of a mandate, attenuation of delegation,
      two-person rule.
    - Access: credentials, roles and ownership decide every request; policies and signer
      calls go back to authenticated people and owners; experiments run once, within quota.
    - Testbed: tokens are conserved, the pool is solvent, transactions execute once and in
      order, the guard lets through exactly what its policy permits and records it; nobody who
      cannot forge signatures moves the wallet's money otherwise, except with a digest a
      caller had signed in place of that of an x402 payment.
    - Databases: each PostgreSQL store answers like its memory counterpart, for every
      sequence of operations that fits the schema and off the boundaries of a window; where
      the two differ (reason codes under an emergency stop, reorganisation counts,
      re-creating a policy, finishing a job that is not running) the theorems say how.
    - Tools and adapters: a tool runs exactly when the sandbox's checks pass; what adapters
      submit lies within their request.
    - Agents: the sanitizer removes every plaintext instruction, and exactly the encoded
      ones survive; Morse, base64 and whole amounts are read back as they were written.
    - Attacks and tasks: nothing an agent of a guarded wallet reads pays the attacker; the
      scenarios fail against every guard mode; the legitimate tasks all complete.
    - Experiments and releases: a result directory is complete or absent, whatever fails; a
      release manifest validates exactly while its files are unchanged; a ready track and a
      cleared inventory have passed all of their checks.
    - Some theorems state defects (a reused proposal identifier, a settlement race, unbound
      swap selectors, uncounted pending spending, an interrupted bootstrap).

    * Bounds and fuel

    [_decode_rlp] takes fuel, [decode_fuel]: twice the length of the input plus two, since
    every call reads a byte or opens a list; [eip1559_decode_total] shows it never runs out.  The Merkle
    loop takes the number of nodes, which halves in each round.  [_active] follows a mandate
    chain to the interpreter's recursion limit and raises [RecursionError] there, as the
    source does.  [remove_all] and [replace_all] take
    the length of the string.  A regular expression is searched with the length of the
    text as fuel, and a starred group stops when it matched nothing, as Python's does;
    [attempts] is shown sound and complete against the declarative semantics.  [json_loads]
    takes twice the length of the text plus two, since a value and a list element each read a
    character; [json_loads_total] shows it is enough.  All other recursion is structural.

    * Parameters

    [Externals]: SHA-256, Keccak, Ed25519, the optional rfc8785 package and ISO timestamps;
    [EvidenceExternals]: secp256k1 and the ISO parser; the signer's RPC, the chain's RPC,
    PyJWT, the YAML parser, the HTTP client of the model adapter, the boto3 client, URL
    parsing, git, shell patterns and pydantic's typing of a document are arguments, as is the
    runner where the experiment jobs are scheduled.  What a theorem needs of
    them is a hypothesis ([Ed25519Law], [Rfc8785Law], [Sha256Length], [S3Law], [S3Reachable],
    [YamlLaw] for the policy texts, unforgeability of the wallet's signatures by others, non-collision on the inputs at hand); the scenarios instantiate all of
    them.  Transactions of the database are taken as serializable, which the code asks for,
    and a jsonb column as keeping a document up to the order of keys.

    * Not modelled

    FastAPI's routing and pydantic's parsing of raw JSON, the reading of environment
    variables and argument lists, logging, metrics and tracing, the gRPC channel and the HTTP
    clients, the shutdown of the application, the tables the testbed prints, the DDL of the
    migrations beyond the constraints the stores rely on, the scripts that drive containers,
    subprocesses and the network (development set-up, smoke and chain tests, release
    metadata), the Rust signer, the contracts and the web client: they call libraries and
    other processes and keep no state of their own.  Text is ASCII where case or character
    classes matter; there are no symbolic links below a root.  Interleaving is modelled where
    the code interleaves shared state (reconciler against requests, experiment workers,
    experiment results); the endpoints are atomic, as the event loop and the execution lock
    make them. *)
From Stdlib Require Import ZArith Lia Ascii String.
From Stdlib Require Strings.Byte.
From stdpp Require Import base gmap sets list strings pretty.

Open Scope Z_scope.
#[export] Set Warnings "-clear-no-such-hyp".

(** * Python exceptions *)

(** The exception classes the modelled code raises, each with the message it
    is raised with.  [Eip1559DecodeError], [CanonicalizationError] and pydantic's
    [ValidationError] (the model that was rejected) are subclasses of [ValueError],
    [MandateError], [SignerAuthorizationError], [AuthenticationError] and [ToolCallDenied]
    of [PermissionError], [SignerClientError] of [RuntimeError], [KeyError] and [IndexError]
    of [LookupError]; [catches_*] below are the corresponding [except] clauses. *)
Inductive exn :=
  | ValueError (msg : string)
  | TypeError (msg : string)
  | AttributeError (msg : string)
  | LookupError (msg : string)
  | KeyError (msg : string)
  | IndexError (msg : string)
  | PermissionError (msg : string)
  | RuntimeError (msg : string)
  | AssertionError
  | RecursionError
  | FileExistsError (msg : string)
  | OSError (msg : string)
  | ZeroDivisionError
  | OverflowError (msg : string)
  | Eip1559DecodeError (msg : string)
  | MandateError (msg : string)
  | SignerAuthorizationError (msg : string)
  | SignerClientError (msg : string)
  | AuthenticationError (msg : string)
  | CanonicalizationError (msg : string)
  | ValidationError (model : string)
  | RuleViolation (msg : string)
  | InsufficientFunds (msg : string)
  | PolicyError (msg : string)
  | MalformedProposal (msg : string)
  | ApiError (status : Z) (code msg : string)
  | ToolCallDenied (msg : string)
  | UniqueViolation (constraint : string)
  | DatabaseError (msg : string)
  | SerializationFailure
  | OutOfFuel.

#[export] Instance exn_eq_dec : EqDecision exn.
Proof. solve_decision. Defined.

Definition catches_ValueError (e : exn) : bool :=
  match e with
  | ValueError _ | Eip1559DecodeError _ | CanonicalizationError _ | ValidationError _
  | PolicyError _ => true
  | _ => false
  end.
Definition catches_PermissionError (e : exn) : bool :=
  match e with
  | PermissionError _ | MandateError _ | SignerAuthorizationError _
  | AuthenticationError _ | ToolCallDenied _ => true
  | _ => false
  end.
Definition catches_RuntimeError (e : exn) : bool :=
  match e with RuntimeError _ | SignerClientError _ | RecursionError => true | _ => false end.
Definition catches_LookupError (e : exn) : bool :=
  match e with LookupError _ | KeyError _ | IndexError _ => true | _ => false end.
Definition catches_KeyError (e : exn) : bool :=
  match e with KeyError _ => true | _ => false end.

Definition is_eip1559_error (e : exn) : bool :=
  match e with Eip1559DecodeError _ => true | _ => false end.

(** [str(error)] of the exceptions that are formatted into others. *)
Definition exn_text (e : exn) : string :=
  match e with
  | ValueError msg | TypeError msg | AttributeError msg | LookupError msg | IndexError msg | PermissionError msg | RuntimeError msg
  | Eip1559DecodeError msg | MandateError msg | SignerAuthorizationError msg
  | SignerClientError msg | AuthenticationError msg | CanonicalizationError msg
  | RuleViolation msg | InsufficientFunds msg | PolicyError msg | MalformedProposal msg
  | ToolCallDenied msg | DatabaseError msg | OverflowError msg => msg
  | _ => ""
  end.

(** [type(exc).__name__] *)
Definition exn_class (e : exn) : string :=
  match e with
  | ValueError _ => "ValueError"
  | TypeError _ => "TypeError"
  | AttributeError _ => "AttributeError"
  | LookupError _ => "LookupError"
  | KeyError _ => "KeyError"
  | IndexError _ => "IndexError"
  | PermissionError _ => "PermissionError"
  | RuntimeError _ => "RuntimeError"
  | AssertionError => "AssertionError"
  | RecursionError => "RecursionError"
  | FileExistsError _ => "FileExistsError"
  | OSError _ => "OSError"
  | ZeroDivisionError => "ZeroDivisionError"
  | OverflowError _ => "OverflowError"
  | Eip1559DecodeError _ => "Eip1559DecodeError"
  | MandateError _ => "MandateError"
  | SignerAuthorizationError _ => "SignerAuthorizationError"
  | SignerClientError _ => "SignerClientError"
  | AuthenticationError _ => "AuthenticationError"
  | CanonicalizationError _ => "CanonicalizationError"
  | ValidationError _ => "ValidationError"
  | RuleViolation _ => "RuleViolation"
  | InsufficientFunds _ => "InsufficientFunds"
  | PolicyError _ => "PolicyError"
  | MalformedProposal _ => "MalformedProposal"
  | ApiError _ _ _ => "ApiError"
  | ToolCallDenied _ => "ToolCallDenied"
  | UniqueViolation _ => "UniqueViolation"
  | DatabaseError _ => "DatabaseError"
  | SerializationFailure => "SerializationFailure"
  | OutOfFuel => ""
  end.

(** * Results: a Python expression either returns or raises *)

Inductive result (A : Type) := Ok (a : A) | Err (e : exn).
Arguments Ok {A} a.
Arguments Err {A} e.

#[export] Instance result_ret : MRet result := @Ok.
#[export] Instance result_bind : MBind result := λ A B f m,
  match m with Ok a => f a | Err e => Err e end.
#[export] Instance result_fmap : FMap result := λ A B f m,
  match m with Ok a => Ok (f a) | Err e => Err e end.

(** [if cond: raise e] *)
Definition raise_if (cond : bool) (e : exn) : result unit :=
  if cond then Err e else Ok tt.

(** [x is None -> raise] for a value looked up. *)
Definition or_raise {A} (o : option A) (e : exn) : result A :=
  match o with Some a => Ok a | None => Err e end.

Definition is_ok {A} (r : result A) : bool :=
  match r with Ok _ => true | Err _ => false end.

(** [try: m except (classes): h] *)
Definition try_except {A} (catches : exn → bool) (m : result A) (h : exn → result A) : result A :=
  match m with
  | Ok a => Ok a
  | Err e => if catches e then h e else Err e
  end.

(** * Methods of a mutable object

    A method run on a state keeps the mutations made before an exception. *)
Definition M (S A : Type) : Type := S → S * result A.

#[export] Instance M_ret S : MRet (M S) := λ A a s, (s, Ok a).
#[export] Instance M_bind S : MBind (M S) := λ A B f m s,
  match m s with
  | (s', Ok a) => f a s'
  | (s', Err e) => (s', Err e)
  end.

Definition lift {S A} (r : result A) : M S A := λ s, (s, r).
Definition raise {S A} (e : exn) : M S A := λ s, (s, Err e).
Definition read {S A} (f : S → A) : M S A := λ s, (s, Ok (f s)).
Definition self {S} : M S S := λ s, (s, Ok s).
Definition update {S} (f : S → S) : M S unit := λ s, (f s, Ok tt).
(** [try: m except (classes): h]: the handler runs on the state the body left. *)
Definition try_m {S A} (catches : exn → bool) (m : M S A) (h : exn → M S A) : M S A := λ s,
  match m s with
  | (s', Ok a) => (s', Ok a)
  | (s', Err e) => if catches e then h e s' else (s', Err e)
  end.
(** Run a method of a component held in a field of the state. *)
Definition zoom {S T A} (get : S → T) (set : T → S → S) (m : M T A) : M S A := λ s,
  match m (get s) with (t, r) => (set t s, r) end.

(** * Reasoning about results *)

Section results.
Context {A B : Type}.

Lemma bind_Ok (m : result A) (f : A → result B) b :
  m ≫= f = Ok b ↔ ∃ a, m = Ok a ∧ f a = Ok b.
Proof.
  destruct m; cbn; split; [by eauto| |discriminate|].
  - by intros (? & [= ->] & ?).
  - by intros (? & ? & ?).
Qed.

Lemma fmap_Ok (f : A → B) (m : result A) b :
  f <$> m = Ok b ↔ ∃ a, m = Ok a ∧ b = f a.
Proof.
  destruct m; cbn; split; [by intros [= <-]; eauto| |discriminate|].
  - by intros (? & [= ->] & ->).
  - by intros (? & ? & ?).
Qed.

Lemma or_raise_Ok (o : option A) e a : or_raise o e = Ok a ↔ o = Some a.
Proof. destruct o; cbn; split; congruence. Qed.
End results.

Lemma raise_if_Ok b e u : raise_if b e = Ok u ↔ b = false.
Proof. destruct b, u; cbn; split; congruence. Qed.

Lemma raise_if_bind {A} b e (k : unit → result A) :
  raise_if b e ≫= k = if b then Err e else k tt.
Proof. by destruct b. Qed.

(** [r] returns, or raises one of the exceptions [P] selects. *)
Definition raises {A} (P : exn → bool) (r : result A) : Prop :=
  match r with Ok _ => True | Err e => P e = true end.

Lemma raises_bind {A B} P (m : result A) (f : A → result B) :
  raises P m → (∀ a, m = Ok a → raises P (f a)) → raises P (m ≫= f).
Proof. destruct m; cbn; auto. Qed.

Lemma raises_guard {B} P b e (f : unit → result B) :
  P e = true → (b = false → raises P (f tt)) → raises P (raise_if b e ≫= f).
Proof. destruct b; cbn; auto. Qed.

Create HintDb aegis discriminated.
Create Rewrite HintDb aegis_ok.
Create Rewrite HintDb aegis_bool.
#[export] Hint Rewrite @bind_Ok @fmap_Ok @or_raise_Ok raise_if_Ok : aegis_ok.
#[export] Hint Rewrite bool_decide_eq_true bool_decide_eq_false negb_true_iff negb_false_iff
  orb_true_iff orb_false_iff andb_true_iff andb_false_iff
  Z.ltb_lt Z.ltb_ge Z.leb_le Z.leb_gt Z.eqb_eq Z.eqb_neq : aegis_bool.

(** Take a successful monadic computation apart, one bind at a time: every
    guard that did not raise becomes a hypothesis. *)
Ltac ok_inv H :=
  lazymatch type of H with
  | (_ ≫= _) = Ok _ =>
      apply bind_Ok in H; destruct H as (? & ?H & H); simpl in H; ok_inv H
  | raise_if _ _ = Ok _ => apply raise_if_Ok in H
  | Err _ = Ok _ => discriminate H
  | _ => idtac
  end.
Ltac ok_invs :=
  repeat match goal with
  | H : (_ ≫= _) = Ok _ |- _ => ok_inv H
  | H : raise_if _ _ = Ok _ |- _ => apply raise_if_Ok in H
  | H : or_raise _ _ = Ok _ |- _ => apply or_raise_Ok in H
  | H : Err _ = Ok _ |- _ => discriminate H
  | x : unit |- _ => destruct x
  end; simplify_eq.

(** Turn the boolean tests of the code into propositions, everywhere. *)
Ltac prop_of_bool := autorewrite with aegis_bool in *.

(** Case on the tests of the code, in the goal or a hypothesis. *)
Ltac case_tests :=
  repeat match goal with
  | |- context [if ?b then _ else _] => destruct b eqn:?
  | H : context [if ?b then _ else _] |- _ => destruct b eqn:?
  end.

(** ** Reasoning about methods *)

Section methods.
Context {S A B : Type}.

Lemma M_bind_Ok (m : M S A) (f : A → M S B) s s'' b :
  (m ≫= f) s = (s'', Ok b) → ∃ s' a, m s = (s', Ok a) ∧ f a s' = (s'', Ok b).
Proof. unfold mbind, M_bind. destruct (m s) as [s' [a|e]]; [eauto|done]. Qed.

Lemma lift_Ok (r : result A) (s s' : S) a : lift r s = (s', Ok a) → s' = s ∧ r = Ok a.
Proof. unfold lift. by intros [= -> ->]. Qed.

Lemma read_Ok (f : S → A) s s' a : read f s = (s', Ok a) → s' = s ∧ a = f s.
Proof. unfold read. by intros [= -> ->]. Qed.

Lemma mret_Ok (x : A) (s s' : S) a : (mret x : M S A) s = (s', Ok a) → s' = s ∧ a = x.
Proof. by intros [= -> ->]. Qed.

Lemma update_Ok (f : S → S) s s' u : update f s = (s', Ok u) → s' = f s.
Proof. by intros [= ->]. Qed.

Lemma zoom_Ok {T} (get : S → T) (set : T → S → S) (m : M T A) s s' a :
  zoom get set m s = (s', Ok a) → ∃ t, m (get s) = (t, Ok a) ∧ s' = set t s.
Proof. unfold zoom. destruct (m (get s)) as [t r]. intros [= <- ->]. eauto. Qed.
End methods.

(** Take a successful method run apart, one statement at a time. *)
Ltac m_inv H :=
  lazymatch type of H with
  | (_ ≫= _) _ = (_, Ok _) =>
      apply M_bind_Ok in H; destruct H as (? & ? & ?H & H); simpl in H; m_inv H
  | _ => idtac
  end.
Ltac m_invs :=
  repeat match goal with
  | H : (_ ≫= _) _ = (_, Ok _) |- _ => m_inv H
  | H : lift _ _ = (_, Ok _) |- _ => apply lift_Ok in H as [-> H]
  | H : read _ _ = (_, Ok _) |- _ => apply read_Ok in H as [-> ->]
  | H : mret _ _ = (_, Ok _) |- _ => apply mret_Ok in H as [-> ->]
  | H : update _ _ = (_, Ok _) |- _ => apply update_Ok in H as ->
  | H : zoom _ _ _ _ = (_, Ok _) |- _ => apply zoom_Ok in H as (? & H & ->)
  | H : raise_if _ _ = Ok _ |- _ => apply raise_if_Ok in H
  | H : or_raise _ _ = Ok _ |- _ => apply or_raise_Ok in H
  | x : unit |- _ => destruct x
  end.

(** ** Postconditions

    [ensures I P m Q]: from a state with [I] and [P], the method [m] keeps [I] whether
    it returns or raises, and gives [Q] when it returns. *)
Definition ensures {S A} (I P : S → Prop) (m : M S A) (Q : A → S → Prop) : Prop :=
  ∀ s, I s → P s → I (fst (m s)) ∧ ∀ a, snd (m s) = Ok a → Q a (fst (m s)).

Section ensures.
Context {S : Type} (I : S → Prop).

Lemma ensures_bind {A B} P (m : M S A) Q (f : A → M S B) R :
  ensures I P m Q → (∀ a, ensures I (Q a) (f a) R) → ensures I P (m ≫= f) R.
Proof.
  intros Hm Hf s Hi Hp. destruct (Hm s Hi Hp) as [Hi' Hq]. unfold mbind, M_bind.
  destruct (m s) as [s' [a|e]]; cbn in *; [|done]. by apply (Hf a s'); auto.
Qed.

Lemma ensures_ret {A} P (a : A) Q : (∀ s, I s → P s → Q a s) → ensures I P (mret a) Q.
Proof. intros Hq s Hi Hp. split; [done|]. intros b [= <-]. auto. Qed.

Lemma ensures_lift {A} P (r : result A) Q :
  (∀ s a, I s → P s → r = Ok a → Q a s) → ensures I P (lift r) Q.
Proof. intros Hq s Hi Hp. split; [done|]. intros a Ha. cbn in *. auto. Qed.

Lemma ensures_pre {A} (P P' : S → Prop) (m : M S A) Q :
  (∀ s, I s → P s → P' s) → ensures I P' m Q → ensures I P m Q.
Proof. intros Hp Hm s Hi Hs. apply Hm; auto. Qed.

Lemma ensures_post {A} (P : S → Prop) (m : M S A) (Q Q' : A → S → Prop) :
  (∀ a s, Q a s → Q' a s) → ensures I P m Q → ensures I P m Q'.
Proof. intros Hq Hm s Hi Hs. destruct (Hm s Hi Hs). auto. Qed.

(** A fact that does not mention the state can be taken out of the precondition. *)
Lemma ensures_pure {A} (φ : Prop) (P : S → Prop) (m : M S A) Q :
  (φ → ensures I P m Q) → ensures I (λ s, φ ∧ P s) m Q.
Proof. intros Hm s Hi [Hφ Hs]. by apply Hm. Qed.
End ensures.

(** [if b: errors.append(msg)] *)
Definition error_if (b : bool) (msg : string) : list string := if b then [msg] else [].

Lemma error_if_nil b m : error_if b m = [] ↔ b = false.
Proof. by destruct b. Qed.

(** * Strings *)

Definition ascii_lower (c : ascii) : ascii :=
  let n := nat_of_ascii c in
  if (Nat.leb 65 n && Nat.leb n 90)%bool then ascii_of_nat (n + 32) else c.

(** [str.lower] on ASCII text. *)
Fixpoint str_lower (s : string) : string :=
  match s with
  | EmptyString => EmptyString
  | String c s => String (ascii_lower c) (str_lower s)
  end.

(** [s.startswith(p)] *)
Definition startswith (p s : string) : bool := String.prefix p s.

(** Python truthiness of a string. *)
Definition str_truthy (s : string) : bool := bool_decide (s ≠ ""%string).

(** [x in xs] *)
Definition is_in {A} `{EqDecision A} (x : A) (xs : list A) : bool := bool_decide (x ∈ xs).

Lemma ascii_lower_idem c : ascii_lower (ascii_lower c) = ascii_lower c.
Proof. destruct c as [[] [] [] [] [] [] [] []]; reflexivity. Qed.

Lemma str_lower_idem s : str_lower (str_lower s) = str_lower s.
Proof. induction s; cbn; [done|]. by rewrite ascii_lower_idem, IHs. Qed.

Lemma str_lower_length s : String.length (str_lower s) = String.length s.
Proof. induction s; cbn; congruence. Qed.

Lemma str_lower_app s t : str_lower (s ++ t) = (str_lower s ++ str_lower t)%string.
Proof.
  induction s as [|c s IH]; [done|].
  change (str_lower (String c s ++ t)) with (String (ascii_lower c) (str_lower (s ++ t))).
  by rewrite IH.
Qed.

Lemma startswith_app p s : startswith p (p ++ s) = true.
Proof.
  unfold startswith. induction p as [|c p IH]; [by destruct s|].
  change (String.prefix (String c p) (String c (p ++ s)) = true). simpl.
  by destruct (ascii_dec c c).
Qed.

Lemma startswith_inv p s : startswith p s = true → ∃ t, s = (p ++ t)%string.
Proof.
  unfold startswith. revert s. induction p as [|c p IH]; intros s Hs; [by exists s|].
  destruct s as [|d s]; [done|]. simpl in Hs. destruct (ascii_dec c d) as [<-|]; [|done].
  destruct (IH s Hs) as [t ->]. by exists t.
Qed.

#[export] Hint Rewrite str_lower_idem str_lower_length str_lower_app : aegis_ok.

(** * Lists *)

Lemma app_nil_iff {A} (l k : list A) : l ++ k = [] ↔ l = [] ∧ k = [].
Proof. split; [apply app_eq_nil|by intros [-> ->]]. Qed.

Lemma is_in_true {A} `{EqDecision A} (x : A) l : is_in x l = true ↔ x ∈ l.
Proof. apply bool_decide_eq_true. Qed.

Lemma str_length_app (a b : string) :
  String.length (a +:+ b) = (String.length a + String.length b)%nat.
Proof.
  induction a as [|x a IH]; [done|].
  change (S (String.length (a +:+ b)) = S (String.length a + String.length b)). by rewrite IH.
Qed.

(** * Sums over the values of a dict *)

(** [sum(f(v) for v in m.values() if p(v))] *)
Definition sum_values {K V} `{Countable K} (p : V → bool) (f : V → Z) (m : gmap K V) : Z :=
  map_fold (λ _ v acc, (if p v then f v else 0) + acc) 0 m.

(** [sum(1 for v in m.values() if p(v))] *)
Definition count_values {K V} `{Countable K} (p : V → bool) (m : gmap K V) : Z :=
  sum_values p (λ _, 1) m.

Section sums.
Context {K V : Type} `{Countable K}.
Implicit Types (m : gmap K V) (p : V → bool) (f : V → Z).

Definition term p f (v : V) : Z := if p v then f v else 0.

Lemma sum_values_empty p f : sum_values p f (∅ : gmap K V) = 0.
Proof. apply map_fold_empty. Qed.

Lemma sum_values_insert p f m k v :
  m !! k = None → sum_values p f (<[k:=v]> m) = term p f v + sum_values p f m.
Proof.
  intros Hk. unfold sum_values. rewrite map_fold_insert_L; [done| |done].
  intros. lia.
Qed.

Lemma sum_values_delete p f m k v :
  m !! k = Some v → sum_values p f m = term p f v + sum_values p f (delete k m).
Proof.
  intros Hk. rewrite <- (insert_delete_id m k v Hk) at 1.
  apply sum_values_insert. by rewrite lookup_delete_eq.
Qed.

Lemma sum_values_update p f m k v v' :
  m !! k = Some v →
  sum_values p f (<[k:=v']> m) = sum_values p f m - term p f v + term p f v'.
Proof.
  intros Hk. rewrite (sum_values_delete p f m k v Hk).
  rewrite <- insert_delete_eq, sum_values_insert by (by rewrite lookup_delete_eq). lia.
Qed.

Lemma sum_values_nonneg p f m :
  (∀ k v, m !! k = Some v → 0 ≤ term p f v) → 0 ≤ sum_values p f m.
Proof.
  induction m as [|k v m Hk IH] using map_ind; intros Hpos.
  - by rewrite sum_values_empty.
  - rewrite sum_values_insert by done.
    pose proof (Hpos k v (lookup_insert_eq _ _ _)).
    enough (0 ≤ sum_values p f m) by lia. apply IH. intros k' v' Hk'.
    apply (Hpos k'). rewrite lookup_insert_ne; [done|congruence].
Qed.

(** Pointwise comparison of two selections over the same dict. *)
Lemma sum_values_mono p q f g m :
  (∀ k v, m !! k = Some v → term p f v ≤ term q g v) →
  sum_values p f m ≤ sum_values q g m.
Proof.
  induction m as [|k v m Hk IH] using map_ind; intros Hle.
  - by rewrite !sum_values_empty.
  - rewrite !sum_values_insert by done.
    pose proof (Hle k v (lookup_insert_eq _ _ _)).
    enough (sum_values p f m ≤ sum_values q g m) by lia. apply IH. intros k' v' Hk'.
    apply (Hle k'). rewrite lookup_insert_ne; [done|congruence].
Qed.

Lemma sum_values_ext p q f g m :
  (∀ k v, m !! k = Some v → term p f v = term q g v) →
  sum_values p f m = sum_values q g m.
Proof.
  intros Heq. apply Z.le_antisymm; apply sum_values_mono; intros k v Hv;
    rewrite (Heq k v Hv); lia.
Qed.

Lemma sum_values_zero p f m :
  (∀ k v, m !! k = Some v → p v = false) → sum_values p f m = 0.
Proof.
  intros Hz. rewrite (sum_values_ext p (λ _, false) f (λ _, 0)).
  - induction m using map_ind; [apply sum_values_empty|].
    rewrite sum_values_insert by done. rewrite IHm; [done|].
    intros k v Hv. apply (Hz k). rewrite lookup_insert_ne; [done|congruence].
  - intros k v Hv. unfold term. by rewrite (Hz k v Hv).
Qed.

Lemma sum_values_split p q f m :
  (∀ k v, m !! k = Some v → p v = true → q v = true → False) →
  sum_values (λ v, p v || q v) f m = sum_values p f m + sum_values q f m.
Proof.
  induction m as [|k v m Hk IH] using map_ind; intros Hd.
  - by rewrite !sum_values_empty.
  - rewrite !sum_values_insert by done. rewrite IH.
    + unfold term. pose proof (Hd k v (lookup_insert_eq _ _ _)).
      destruct (p v), (q v); simpl; try lia; exfalso; auto.
    + intros k' v' Hv. apply (Hd k'). rewrite lookup_insert_ne; [done|congruence].
Qed.
End sums.

(** Mutating the object a dict holds is storing the mutated object. *)
Lemma alter_lookup {K V} `{Countable K} (f : V → V) (m : gmap K V) k v :
  m !! k = Some v → alter f k m = <[k := f v]> m.
Proof.
  intros Hk. apply map_eq. intros j. destruct (decide (j = k)) as [->|].
  - by rewrite lookup_alter_eq, lookup_insert_eq, Hk.
  - by rewrite lookup_alter_ne, lookup_insert_ne.
Qed.

(** * More on strings *)

Lemma str_app_assoc (a b c : string) : (a +:+ b) +:+ c = a +:+ (b +:+ c).
Proof.
  induction a as [|x a IH]; [done|].
  change (String x ((a +:+ b) +:+ c) = String x (a +:+ (b +:+ c))). by rewrite IH.
Qed.

Lemma str_app_nil (a : string) : a +:+ "" = a.
Proof.
  induction a as [|x a IH]; [done|]. change (String x (a +:+ "") = String x a). by rewrite IH.
Qed.

(** Every character satisfies [p]. *)
Fixpoint str_forallb (p : ascii → bool) (s : string) : bool :=
  match s with
  | EmptyString => true
  | String c s => p c && str_forallb p s
  end.

(** The first character, if any, does not satisfy [p]. *)
Definition stops (p : ascii → bool) (s : string) : bool :=
  match s with EmptyString => true | String c _ => negb (p c) end.

(** A maximal run of [p]-characters is determined by the text. *)
Lemma run_split p s t r r' :
  str_forallb p s = true → str_forallb p t = true → stops p r = true → stops p r' = true →
  s +:+ r = t +:+ r' → s = t ∧ r = r'.
Proof.
  revert t. induction s as [|c s IH]; intros [|d t] Hs Ht Hr Hr' Heq;
    cbn -[String.append] in *; cbv delta [String.append] in Heq; cbn -[String.append] in Heq.
  - done.
  - rewrite Heq in Hr. cbn in Hr. prop_of_bool. destruct_and!. congruence.
  - rewrite <- Heq in Hr'. cbn in Hr'. prop_of_bool. destruct_and!. congruence.
  - prop_of_bool. destruct_and!. injection Heq as -> Heq.
    destruct (IH t) as [-> ->]; auto.
Qed.

Lemma str_forallb_app p s t : str_forallb p (s +:+ t) = str_forallb p s && str_forallb p t.
Proof.
  induction s as [|c s IH]; [done|].
  change (p c && str_forallb p (s +:+ t) = (p c && str_forallb p s) && str_forallb p t).
  by rewrite IH, andb_assoc.
Qed.

(** * Decimal integers *)

Definition is_digit (c : ascii) : bool :=
  let n := nat_of_ascii c in Nat.leb 48 n && Nat.leb n 57.
Definition is_numeric (c : ascii) : bool := is_digit c || bool_decide (c = "-"%char).

Lemma pretty_N_go_digits x s :
  str_forallb is_digit s = true → str_forallb is_digit (pretty_N_go x s) = true.
Proof.
  revert s. induction (N.lt_wf_0 x) as [x _ IH]; intros s Hs.
  destruct (decide (0 < x)%N) as [Hx|Hx].
  - rewrite pretty_N_go_step by done. apply IH; [by apply N.div_lt|]. cbn. rewrite Hs.
    unfold pretty_N_char. by repeat case_match.
  - replace x with 0%N by lia. by rewrite pretty_N_go_0.
Qed.

Lemma pretty_N_digits (x : N) : str_forallb is_digit (pretty x) = true.
Proof. unfold pretty, pretty_N. case_decide; [done|]. by apply pretty_N_go_digits. Qed.

Lemma str_forallb_impl (p q : ascii → bool) s :
  (∀ c, p c = true → q c = true) → str_forallb p s = true → str_forallb q s = true.
Proof.
  intros Hpq. induction s as [|c s IH]; cbn; [done|]. intros Hs. prop_of_bool.
  destruct Hs. auto.
Qed.

Lemma pretty_Z_numeric (z : Z) : str_forallb is_numeric (pretty z) = true.
Proof.
  assert (∀ x : N, str_forallb is_numeric (pretty x) = true) as Hx.
  { intros x. apply (str_forallb_impl is_digit); [|apply pretty_N_digits].
    intros c Hc. unfold is_numeric. by rewrite Hc. }
  destruct z as [|p|p]; [done|apply (Hx (N.pos p))|].
  change (str_forallb is_numeric ("-" +:+ pretty (N.pos p)) = true).
  rewrite str_forallb_app. by rewrite Hx.
Qed.

Lemma pretty_N_go_length x s : (String.length s ≤ String.length (pretty_N_go x s))%nat.
Proof.
  revert s. induction (N.lt_wf_0 x) as [x _ IH]. intros s. destruct (decide (0 < x)%N).
  - rewrite pretty_N_go_step by done. etrans; [|by eapply IH, N.div_lt]. cbn. lia.
  - replace x with 0%N by lia. by rewrite pretty_N_go_0.
Qed.

Lemma pretty_N_nonempty (x : N) : pretty x ≠ ""%string.
Proof.
  unfold pretty, pretty_N. case_decide; [done|]. intros Hp. rewrite pretty_N_go_step in Hp by lia.
  pose proof (pretty_N_go_length (x `div` 10)%N (String (pretty_N_char (x `mod` 10)) "")) as Hl.
  rewrite Hp in Hl. cbn in Hl. lia.
Qed.

Lemma pretty_Z_nonempty (z : Z) : pretty z ≠ ""%string.
Proof. destruct z as [|p|p]; [done|apply (pretty_N_nonempty (N.pos p))|done]. Qed.

(** Evaluate the tests of the code that are closed terms. *)
Ltac eval_tests :=
  repeat match goal with
  | |- context [is_in ?x ?l] =>
      let v := eval vm_compute in (is_in x l) in
      lazymatch v with true => idtac | false => idtac end; change (is_in x l) with v
  | |- context [bool_decide (?x = ?y)] =>
      let v := eval vm_compute in (bool_decide (x = y)) in
      lazymatch v with true => idtac | false => idtac end; change (bool_decide (x = y)) with v
  end; cbn beta iota.
