(* ===== verification/Bytes.v ===== *)
(** Byte strings as the modelled code uses them: [bytes([n])],
    [int.from_bytes(_, "big")], [int.to_bytes(_, "big")], [bytes.hex] and
    [bytes.fromhex], with the round trips and bounds the codec relies on. *)
From Stdlib Require Import ZArith Lia Ascii String.
From Stdlib Require Strings.Byte.
From stdpp Require Import base list strings.
From S2P Require Import Prelude.

Open Scope Z_scope.

Abbreviation byte := Byte.byte.
Abbreviation bytes := (list Byte.byte).

#[export] Instance byte_eq_dec : EqDecision byte := Byte.byte_eq_dec.

(** * Single bytes *)

Definition bz (b : byte) : Z := Z.of_N (Byte.to_N b).
Definition zb (z : Z) : option byte := if z <? 0 then None else Byte.of_N (Z.to_N z).
Definition byte_of (z : Z) : byte := default Byte.x00 (zb z).

(** [bytes([n])]: raises outside 0..255. *)
Definition bytes1 (n : Z) : result bytes :=
  b ← or_raise (zb n) (ValueError "bytes must be in range(0, 256)"); Ok [b].

Lemma bz_range b : 0 ≤ bz b < 256.
Proof. unfold bz. pose proof (Byte.to_N_bounded b). lia. Qed.

Lemma zb_bz b : zb (bz b) = Some b.
Proof.
  unfold zb, bz. destruct (Z.ltb_spec (Z.of_N (Byte.to_N b)) 0); [lia|].
  rewrite N2Z.id. apply Byte.of_to_N.
Qed.

Lemma bz_inj b c : bz b = bz c → b = c.
Proof. intros Heq. apply (f_equal zb) in Heq. rewrite !zb_bz in Heq. congruence. Qed.

Lemma zb_Some z b : zb z = Some b → bz b = z.
Proof.
  unfold zb, bz. destruct (Z.ltb_spec z 0); [done|]. intros Hb.
  apply Byte.to_of_N in Hb. rewrite Hb. lia.
Qed.

Lemma zb_in_range z : 0 ≤ z < 256 → zb z = Some (byte_of z).
Proof.
  intros Hz. unfold byte_of. destruct (zb z) as [b|] eqn:Hb; [done|].
  unfold zb in Hb. destruct (Z.ltb_spec z 0); [lia|].
  apply Byte.of_N_None_iff in Hb. lia.
Qed.

Lemma bz_byte_of z : 0 ≤ z < 256 → bz (byte_of z) = z.
Proof. intros Hz. by apply zb_Some, zb_in_range. Qed.

Lemma byte_of_bz b : byte_of (bz b) = b.
Proof. unfold byte_of. by rewrite zb_bz. Qed.

Lemma bytes1_in_range n : 0 ≤ n < 256 → bytes1 n = Ok [byte_of n].
Proof. intros Hn. unfold bytes1. by rewrite zb_in_range. Qed.

Lemma bytes1_Ok n l : bytes1 n = Ok l → ∃ b, l = [b] ∧ bz b = n.
Proof. unfold bytes1. intros Hl. ok_invs. eauto using zb_Some. Qed.

(** * Big-endian integers *)

Definition from_bytes_be (l : bytes) : Z := foldl (λ acc b, acc * 256 + bz b) 0 l.

Fixpoint to_bytes_be (n : nat) (v : Z) : bytes :=
  match n with
  | O => []
  | S n => to_bytes_be n (v / 256) ++ [byte_of (v mod 256)]
  end.

(** [int.bit_length] on a non-negative integer. *)
Definition bit_length (v : Z) : Z := if v =? 0 then 0 else Z.log2 v + 1.

(** [v.to_bytes((v.bit_length() + 7) // 8, "big")] *)
Definition min_bytes (v : Z) : bytes := to_bytes_be (Z.to_nat ((bit_length v + 7) / 8)) v.

Lemma from_bytes_be_snoc l b : from_bytes_be (l ++ [b]) = from_bytes_be l * 256 + bz b.
Proof. unfold from_bytes_be. by rewrite foldl_app. Qed.

Lemma from_bytes_be_bound l : 0 ≤ from_bytes_be l < 256 ^ Z.of_nat (length l).
Proof.
  induction l as [|b l IH] using rev_ind; [by cbn|].
  rewrite from_bytes_be_snoc, length_app, Nat2Z.inj_add. cbn [length].
  rewrite Z.pow_add_r by lia. pose proof (bz_range b).
  change (256 ^ Z.of_nat 1) with 256. nia.
Qed.

Lemma from_bytes_be_cons b l :
  from_bytes_be (b :: l) = bz b * 256 ^ Z.of_nat (length l) + from_bytes_be l.
Proof.
  induction l as [|c l IH] using rev_ind; [cbn; lia|].
  rewrite app_comm_cons, !from_bytes_be_snoc, IH, length_app, Nat2Z.inj_add. cbn [length].
  rewrite Z.pow_add_r by lia. change (256 ^ Z.of_nat 1) with 256. lia.
Qed.

Lemma length_to_bytes_be n v : length (to_bytes_be n v) = n.
Proof.
  revert v. induction n as [|n IH]; intros v; cbn; [done|].
  rewrite length_app, IH. cbn. lia.
Qed.

Lemma from_to_bytes_be n v : 0 ≤ v < 256 ^ Z.of_nat n → from_bytes_be (to_bytes_be n v) = v.
Proof.
  revert v. induction n as [|n IH]; intros v Hv; cbn [to_bytes_be].
  - cbn in *. lia.
  - rewrite from_bytes_be_snoc, IH, bz_byte_of.
    + pose proof (Z.div_mod v 256). lia.
    + apply Z.mod_pos_bound. lia.
    + rewrite Nat2Z.inj_succ, Z.pow_succ_r in Hv by lia. split.
      * apply Z.div_pos; lia.
      * apply Z.div_lt_upper_bound; lia.
Qed.

Lemma to_from_bytes_be l : to_bytes_be (length l) (from_bytes_be l) = l.
Proof.
  induction l as [|b l IH] using rev_ind; [done|].
  rewrite length_app, Nat.add_comm, from_bytes_be_snoc. cbn [length Nat.add to_bytes_be].
  pose proof (bz_range b).
  rewrite Z.div_add_l, Z.div_small, Z.add_0_r by lia.
  rewrite Z.add_comm, Z.mod_add, Z.mod_small, byte_of_bz by lia. by rewrite IH.
Qed.

(** The number of bytes of [min_bytes v], pinned by the powers around [v]. *)
Lemma min_bytes_length v n :
  0 < n → 256 ^ (n - 1) ≤ v < 256 ^ n → (bit_length v + 7) / 8 = n.
Proof.
  intros Hn [Hlo Hhi]. assert (0 < v) by (pose proof (Z.pow_pos_nonneg 256 (n - 1)); lia).
  unfold bit_length. destruct (Z.eqb_spec v 0); [lia|].
  change 256 with (2 ^ 8) in *. rewrite <- Z.pow_mul_r in * by lia.
  apply Z.log2_le_pow2 in Hlo; [|lia]. apply Z.log2_lt_pow2 in Hhi; [|lia].
  symmetry. apply (Z.div_unique _ _ _ (Z.log2 v + 8 - 8 * n)); lia.
Qed.

Lemma min_bytes_bounds v :
  0 < v → let n := Z.of_nat (length (min_bytes v)) in 0 < n ∧ 256 ^ (n - 1) ≤ v < 256 ^ n.
Proof.
  intros Hv n. assert (n = Z.log2 v / 8 + 1) as ->.
  { unfold n, min_bytes. rewrite length_to_bytes_be. unfold bit_length.
    destruct (Z.eqb_spec v 0); [lia|]. pose proof (Z.log2_nonneg v).
    replace (Z.log2 v + 1 + 7) with (Z.log2 v + 1 * 8) by lia.
    rewrite Z.div_add by lia. rewrite Z2Nat.id; [done|].
    pose proof (Z.div_pos (Z.log2 v) 8 ltac:(lia) ltac:(lia)). lia. }
  pose proof (Z.log2_spec v Hv) as [Hlo Hhi]. pose proof (Z.log2_nonneg v).
  pose proof (Z.div_mod (Z.log2 v) 8 ltac:(lia)). pose proof (Z.mod_pos_bound (Z.log2 v) 8 ltac:(lia)).
  pose proof (Z.div_pos (Z.log2 v) 8 ltac:(lia) ltac:(lia)).
  change 256 with (2 ^ 8). rewrite <- !Z.pow_mul_r by lia. split; [lia|split].
  - etrans; [|exact Hlo]. apply Z.pow_le_mono_r; lia.
  - eapply Z.lt_le_trans; [exact Hhi|]. apply Z.pow_le_mono_r; lia.
Qed.

Lemma from_min_bytes v : 0 ≤ v → from_bytes_be (min_bytes v) = v.
Proof.
  intros Hv. destruct (decide (v = 0)) as [->|]; [done|].
  pose proof (min_bytes_bounds v ltac:(lia)) as [? ?].
  unfold min_bytes in *. rewrite length_to_bytes_be in *. apply from_to_bytes_be. lia.
Qed.

Lemma min_bytes_small v n : 0 ≤ v < 256 ^ n → 0 ≤ n → Z.of_nat (length (min_bytes v)) ≤ n.
Proof.
  intros Hv Hn. destruct (decide (v = 0)) as [->|]; [exact Hn|].
  pose proof (min_bytes_bounds v ltac:(lia)) as (? & Hlo & ?).
  apply Z.lt_pred_le, (Z.pow_lt_mono_r_iff 256); [lia|lia|].
  rewrite <- Z.sub_1_r. lia.
Qed.

(** No leading zero byte: what [from_bytes_be] cannot see. *)
Definition no_leading_zero (l : bytes) : bool :=
  match l with b :: _ => negb (bz b =? 0) | [] => true end.

Lemma min_bytes_no_leading_zero v : 0 ≤ v → no_leading_zero (min_bytes v) = true.
Proof.
  intros Hv. destruct (min_bytes v) as [|b l] eqn:Hm; [done|]. cbn.
  destruct (Z.eqb_spec (bz b) 0) as [Hb|]; [|done].
  pose proof (from_min_bytes v Hv) as Hf. rewrite Hm, from_bytes_be_cons, Hb in Hf.
  destruct (decide (v = 0)) as [->|]; [by cbn in Hm|].
  pose proof (min_bytes_bounds v ltac:(lia)) as (_ & Hlo & _). rewrite Hm in Hlo.
  pose proof (from_bytes_be_bound l). cbn [length] in Hlo.
  replace (Z.of_nat (S (length l)) - 1) with (Z.of_nat (length l)) in Hlo by lia. lia.
Qed.

Lemma min_from_bytes l : no_leading_zero l = true → min_bytes (from_bytes_be l) = l.
Proof.
  intros Hz. destruct l as [|b l]; [done|]. cbn in Hz.
  destruct (Z.eqb_spec (bz b) 0) as [|Hb]; [done|].
  unfold min_bytes. rewrite (min_bytes_length _ (Z.of_nat (length (b :: l)))).
  - rewrite Nat2Z.id. apply to_from_bytes_be.
  - cbn. lia.
  - pose proof (from_bytes_be_bound (b :: l)). split; [|lia].
    rewrite from_bytes_be_cons. pose proof (from_bytes_be_bound l). pose proof (bz_range b).
    cbn [length]. replace (Z.of_nat (S (length l)) - 1) with (Z.of_nat (length l)) by lia.
    pose proof (Z.pow_pos_nonneg 256 (Z.of_nat (length l))). nia.
Qed.

(** * Hexadecimal text *)

Definition hex_digit (n : Z) : ascii :=
  if n <? 10 then ascii_of_nat (Z.to_nat (48 + n)) else ascii_of_nat (Z.to_nat (87 + n)).

Definition hex_value (c : ascii) : option Z :=
  let n := Z.of_nat (nat_of_ascii c) in
  if (48 <=? n) && (n <=? 57) then Some (n - 48)
  else if (97 <=? n) && (n <=? 102) then Some (n - 87)
  else if (65 <=? n) && (n <=? 70) then Some (n - 55)
  else None.

Definition is_space (c : ascii) : bool :=
  let n := Z.of_nat (nat_of_ascii c) in ((9 <=? n) && (n <=? 13)) || (n =? 32).

(** [b.hex()] *)
Fixpoint hex (l : bytes) : string :=
  match l with
  | [] => ""
  | b :: l => String (hex_digit (bz b / 16)) (String (hex_digit (bz b mod 16)) (hex l))
  end.

(** [bytes.fromhex(s)]: pairs of digits of either case, ASCII white space
    skipped between pairs; [None] for the [ValueError]. *)
Fixpoint fromhex (s : string) : option bytes :=
  match s with
  | EmptyString => Some []
  | String c s1 =>
      if is_space c then fromhex s1 else
      match s1 with
      | EmptyString => None
      | String d s2 =>
          h ← hex_value c; l ← hex_value d; rest ← fromhex s2;
          Some (byte_of (h * 16 + l) :: rest)
      end
  end.

(** Text with no white space, over which [fromhex] is injective up to case. *)
Fixpoint no_space (s : string) : bool :=
  match s with EmptyString => true | String c s => negb (is_space c) && no_space s end.

Lemma hex_value_digit n : 0 ≤ n < 16 → hex_value (hex_digit n) = Some n.
Proof.
  intros Hn. assert (n ∈ seqZ 0 16) as Hin by (apply elem_of_seqZ; lia).
  repeat (apply elem_of_cons in Hin as [->|Hin]; [reflexivity|]). by apply elem_of_nil in Hin.
Qed.

Lemma hex_digit_not_space n : 0 ≤ n < 16 → is_space (hex_digit n) = false.
Proof.
  intros Hn. assert (n ∈ seqZ 0 16) as Hin by (apply elem_of_seqZ; lia).
  repeat (apply elem_of_cons in Hin as [->|Hin]; [reflexivity|]). by apply elem_of_nil in Hin.
Qed.

Lemma hex_digit_lower n : 0 ≤ n < 16 → ascii_lower (hex_digit n) = hex_digit n.
Proof.
  intros Hn. assert (n ∈ seqZ 0 16) as Hin by (apply elem_of_seqZ; lia).
  repeat (apply elem_of_cons in Hin as [->|Hin]; [reflexivity|]). by apply elem_of_nil in Hin.
Qed.

Lemma hex_value_lower c : hex_value (ascii_lower c) = hex_value c.
Proof. destruct c as [[] [] [] [] [] [] [] []]; reflexivity. Qed.

Lemma is_space_lower c : is_space (ascii_lower c) = is_space c.
Proof. destruct c as [[] [] [] [] [] [] [] []]; reflexivity. Qed.

Lemma hex_value_inv c n : hex_value c = Some n → 0 ≤ n < 16 ∧ hex_digit n = ascii_lower c.
Proof.
  destruct c as [[] [] [] [] [] [] [] []]; intros Hn; vm_compute in Hn; try discriminate;
    injection Hn as <-; (split; [lia|reflexivity]).
Qed.

Lemma nibbles b : 0 ≤ bz b / 16 < 16 ∧ 0 ≤ bz b mod 16 < 16.
Proof.
  pose proof (bz_range b). pose proof (Z.mod_pos_bound (bz b) 16 ltac:(lia)).
  split; [|lia]. split; [apply Z.div_pos; lia|apply Z.div_lt_upper_bound; lia].
Qed.

Lemma fromhex_hex l : fromhex (hex l) = Some l.
Proof.
  induction l as [|b l IH]; [done|]. cbn [hex fromhex].
  pose proof (nibbles b) as [? ?].
  rewrite hex_digit_not_space, !hex_value_digit by done. cbn. rewrite IH. cbn.
  rewrite <- (byte_of_bz b) at 3. do 3 f_equal.
  pose proof (Z.div_mod (bz b) 16 ltac:(lia)). lia.
Qed.

Lemma hex_lower l : str_lower (hex l) = hex l.
Proof.
  induction l as [|b l IH]; [done|]. cbn. pose proof (nibbles b) as [? ?].
  by rewrite !hex_digit_lower, IH by done.
Qed.

Lemma hex_no_space l : no_space (hex l) = true.
Proof.
  induction l as [|b l IH]; [done|]. cbn. pose proof (nibbles b) as [? ?].
  by rewrite !hex_digit_not_space, IH by done.
Qed.

Lemma hex_length l : String.length (hex l) = (2 * length l)%nat.
Proof. induction l; cbn; lia. Qed.

Lemma hex_inj l k : hex l = hex k → l = k.
Proof. intros Heq. apply (f_equal fromhex) in Heq. rewrite !fromhex_hex in Heq. congruence. Qed.

(** Strong induction on text, two characters at a time. *)
Lemma string_ind2 (P : string → Prop) :
  P "" → (∀ c, P (String c "")) → (∀ c d s, P s → P (String d s) → P (String c (String d s))) →
  ∀ s, P s.
Proof.
  intros H0 H1 H2 s. enough (P s ∧ ∀ c, P (String c s)) as [Hs _] by exact Hs.
  induction s as [|c s [IH1 IH2]]; auto.
Qed.

Lemma fromhex_lower s : fromhex (str_lower s) = fromhex s.
Proof.
  induction s as [|c|c d s IH1 IH2] using string_ind2; [done| |].
  - cbn. by rewrite is_space_lower.
  - cbn [fromhex str_lower] in *. rewrite (is_space_lower c).
    destruct (is_space c); [exact IH2|]. by rewrite !hex_value_lower, IH1.
Qed.

Lemma fromhex_no_space s l : fromhex s = Some l → no_space s = true → hex l = str_lower s.
Proof.
  revert l. induction s as [|c|c d s IH1 IH2] using string_ind2; intros l Hl Hns.
  - by injection Hl as <-.
  - cbn in Hl, Hns. by destruct (is_space c).
  - cbn [fromhex no_space] in Hl, Hns. destruct (is_space c); [done|]. cbn in Hns.
    destruct (is_space d); [done|]. cbn in Hns.
    destruct (hex_value c) as [h|] eqn:Hc; [|done].
    destruct (hex_value d) as [k|] eqn:Hd; [|done]. cbn in Hl.
    destruct (fromhex s) as [rest|] eqn:Hr; [|done]. injection Hl as <-.
    apply hex_value_inv in Hc as [Hh Hc]. apply hex_value_inv in Hd as [Hk Hd].
    cbn [hex str_lower]. rewrite bz_byte_of, <- Hc, <- Hd, (IH1 rest) by (done || lia).
    rewrite Z.add_comm, Z.div_add, Z.mod_add, Z.div_small, Z.mod_small by lia. done.
Qed.
