(* ===== verification/Regex.v ===== *)
(** Regular expressions as data: the subset of Python's [re] syntax the sources use where
    only the existence of a match matters, an executable matcher by derivatives, and its
    correctness against the declarative meaning.  Text is ASCII. *)
From Stdlib Require Import ZArith Lia Ascii String.
From stdpp Require Import base list strings.
From S2P Require Import Prelude.

(** * Syntax *)

Inductive regex :=
  | Never
  | Empty
  | Char (p : ascii → bool)
  | Cat (r s : regex)
  | Alt (r s : regex)
  | Star (r : regex).

(** [r?], [r+], [r{m,n}] *)
Definition opt (r : regex) : regex := Alt r Empty.
Definition many (r : regex) : regex := Cat r (Star r).
Fixpoint times (n : nat) (r : regex) : regex :=
  match n with O => Empty | S n => Cat r (times n r) end.
Fixpoint up_to (n : nat) (r : regex) : regex :=
  match n with O => Empty | S n => opt (Cat r (up_to n r)) end.

Definition alts (l : list regex) : regex := foldr Alt Never l.

(** A character, a character class, [.] and [\s]. *)
Definition chr (c : ascii) : regex := Char (λ d, bool_decide (d = c)).
Definition one_of (s : string) : regex := Char (λ d, bool_decide (d ∈ list_ascii_of_string s)).
Definition dot : regex := Char (λ d, negb (bool_decide (d = ascii_of_nat 10))).
Definition code_between (lo hi : nat) (c : ascii) : bool :=
  Nat.leb lo (nat_of_ascii c) && Nat.leb (nat_of_ascii c) hi.
Definition re_space (c : ascii) : bool := code_between 9 13 c || code_between 28 32 c.
Definition space : regex := Char re_space.

(** A character and a literal under [re.IGNORECASE]. *)
Definition ichr (c : ascii) : regex := Char (λ d, bool_decide (ascii_lower d = ascii_lower c)).
Fixpoint ilit (s : string) : regex :=
  match s with EmptyString => Empty | String c s => Cat (ichr c) (ilit s) end.

(** * Meaning *)

Inductive matches : regex → string → Prop :=
  | m_empty : matches Empty ""
  | m_char p c : p c = true → matches (Char p) (String c "")
  | m_cat r s x y : matches r x → matches s y → matches (Cat r s) (x +:+ y)
  | m_left r s x : matches r x → matches (Alt r s) x
  | m_right r s x : matches s x → matches (Alt r s) x
  | m_done r : matches (Star r) ""
  | m_more r x y : matches r x → matches (Star r) y → matches (Star r) (x +:+ y).

(** * Matching *)

Fixpoint nullable (r : regex) : bool :=
  match r with
  | Never | Char _ => false
  | Empty | Star _ => true
  | Cat r s => nullable r && nullable s
  | Alt r s => nullable r || nullable s
  end.

(** Constructors that drop [Never]. *)
Definition cat (r s : regex) : regex := match r with Never => Never | Empty => s | _ => Cat r s end.
Definition alt (r s : regex) : regex :=
  match r, s with Never, s => s | r, Never => r | r, s => Alt r s end.

Fixpoint deriv (c : ascii) (r : regex) : regex :=
  match r with
  | Never | Empty => Never
  | Char p => if p c then Empty else Never
  | Cat r s => if nullable r then alt (cat (deriv c r) s) (deriv c s) else cat (deriv c r) s
  | Alt r s => alt (deriv c r) (deriv c s)
  | Star r => cat (deriv c r) (Star r)
  end.

(** [fullmatch]: the whole text. *)
Fixpoint full_match (r : regex) (s : string) : bool :=
  match s with EmptyString => nullable r | String c s => full_match (deriv c r) s end.

(** [match]: a beginning of the text. *)
Fixpoint prefix_match (r : regex) (s : string) : bool :=
  nullable r || match s with EmptyString => false | String c s => prefix_match (deriv c r) s end.

(** [search]: some part of the text. *)
Fixpoint search (r : regex) (s : string) : bool :=
  prefix_match r s || match s with EmptyString => false | String _ s => search r s end.

(** * Correctness *)

Lemma matches_never s : ~ matches Never s.
Proof. by inversion 1. Qed.

Lemma matches_empty s : matches Empty s ↔ s = "".
Proof. split; [by inversion 1|intros ->; constructor]. Qed.

Lemma matches_cat r s x : matches (Cat r s) x ↔ ∃ y z, x = y +:+ z ∧ matches r y ∧ matches s z.
Proof. split; [inversion 1; eauto|]. intros (y & z & -> & ? & ?). by constructor. Qed.

Lemma matches_alt r s x : matches (Alt r s) x ↔ matches r x ∨ matches s x.
Proof. split; [inversion 1; auto|]. intros [?|?]; by constructor. Qed.

Lemma matches_cat' r s x : matches (cat r s) x ↔ matches (Cat r s) x.
Proof.
  destruct r; cbn [cat]; try done; rewrite matches_cat.
  - split; [by intros ?%matches_never|]. by intros (? & ? & _ & ?%matches_never & _).
  - split; [by exists "", x; split_and!; try constructor|]. by intros (? & ? & -> & ->%matches_empty & ?).
Qed.

Lemma matches_alt' r s x : matches (alt r s) x ↔ matches (Alt r s) x.
Proof.
  rewrite matches_alt. pose proof (matches_never x). destruct r, s; cbn [alt]; rewrite ?matches_alt; tauto.
Qed.

Lemma nullable_spec r : nullable r = true ↔ matches r "".
Proof.
  induction r as [| |p|r IHr s IHs|r IHr s IHs|r IHr]; cbn [nullable].
  - split; [done|by intros ?%matches_never].
  - split; [constructor|done].
  - split; [done|by inversion 1].
  - rewrite andb_true_iff, IHr, IHs, matches_cat. split; [by intros []; exists "", ""|].
    intros ([|] & [|] & Heq & ? & ?); done.
  - by rewrite orb_true_iff, IHr, IHs, matches_alt.
  - split; [constructor|done].
Qed.

(** A non-empty iteration has a non-empty first round. *)
Lemma matches_star r c s :
  matches (Star r) (String c s) ↔ ∃ y z, s = y +:+ z ∧ matches r (String c y) ∧ matches (Star r) z.
Proof.
  split.
  - intros Hm. remember (Star r) as q eqn:Hq. remember (String c s) as u eqn:Hx. revert c s Hx.
    induction Hm as [| | | | | |r' x y Hr _ Hs IH]; intros a t Hx; try done. injection Hq as ->.
    destruct x as [|d x]; [by apply IH|]. injection Hx as -> <-. eauto.
  - intros (y & z & -> & ? & ?). by apply (m_more r (String c y)).
Qed.

Lemma deriv_spec c r s : matches (deriv c r) s ↔ matches r (String c s).
Proof.
  revert s. induction r as [| |p|r IHr t IHt|r IHr t IHt|r IHr]; intros s; cbn [deriv].
  - split; by intros ?%matches_never.
  - split; [by intros ?%matches_never|by intros ?%matches_empty].
  - destruct (p c) eqn:Hp.
    + rewrite matches_empty. split; [intros ->; by constructor|by inversion 1].
    + split; [by intros ?%matches_never|inversion 1; congruence].
  - assert (matches (Cat r t) (String c s) ↔
      (∃ y z, s = y +:+ z ∧ matches r (String c y) ∧ matches t z) ∨ (matches r "" ∧ matches t (String c s)))
      as ->.
    { rewrite matches_cat. split.
      - intros ([|d y] & z & Heq & Hr & Ht); [change ("" +:+ z) with z in Heq; subst; by right|].
        injection Heq as <- ->. left. eauto.
      - intros [(y & z & -> & Hr & Ht)|[Hr Ht]]; [by exists (String c y), z|by exists "", (String c s)]. }
    destruct (nullable r) eqn:Hn.
    + rewrite matches_alt', matches_alt, matches_cat', matches_cat, IHt. apply nullable_spec in Hn.
      setoid_rewrite IHr. tauto.
    + rewrite matches_cat', matches_cat. setoid_rewrite IHr. split; [auto|].
      intros [?|[Hr _]]; [done|]. apply nullable_spec in Hr. congruence.
  - by rewrite matches_alt', !matches_alt, IHr, IHt.
  - rewrite matches_cat', matches_cat, matches_star. by setoid_rewrite IHr.
Qed.

Lemma full_match_spec r s : full_match r s = true ↔ matches r s.
Proof.
  revert r. induction s as [|c s IH]; intros r; cbn; [apply nullable_spec|]. by rewrite IH, deriv_spec.
Qed.

Lemma prefix_match_spec r s : prefix_match r s = true ↔ ∃ x y, s = x +:+ y ∧ matches r x.
Proof.
  revert r. induction s as [|c s IH]; intros r; cbn; rewrite orb_true_iff, nullable_spec.
  - split; [intros [?|?]; [by exists "", ""|done]|]. intros ([|] & y & Heq & Hm); [by left|done].
  - rewrite IH. split.
    + intros [?|(x & y & -> & Hm%deriv_spec)]; [by exists "", (String c s)|by exists (String c x), y].
    + intros ([|d x] & y & Heq & Hm); [by left|]. injection Heq as <- ->. right.
      exists x, y. by rewrite deriv_spec.
Qed.

(** A search succeeds exactly when some part of the text matches. *)
Lemma search_spec r s : search r s = true ↔ ∃ x y z, s = x +:+ y +:+ z ∧ matches r y.
Proof.
  induction s as [|c s IH]; cbn [search]; rewrite orb_true_iff, prefix_match_spec.
  - split; [intros [(y & z & Heq & Hm)|?]; [|done]|].
    + exists "", y, z. by rewrite <- Heq.
    + intros ([|] & y & z & Heq & Hm); [left; by exists y, z|done].
  - rewrite IH. split.
    + intros [(y & z & Heq & Hm)|(x & y & z & -> & Hm)]; [by exists "", y, z|by exists (String c x), y, z].
    + intros ([|d x] & y & z & Heq & Hm); [left; by exists y, z|]. injection Heq as <- ->. right. eauto.
Qed.
