(* ===== verification/Patterns.v ===== *)
(** Regular expressions with groups: what Python's [re] returns, not only whether there is a
    match.  The matcher lists the ways a pattern can go on from a position in the order in
    which [re] tries them (greedy repetition, alternatives from the left), so the first one is
    the match [re] reports.  [find_match], [finditer] and [sub_all] are the functions of the
    module; the patterns of the sources never match the empty text.

    Text is ASCII, or the UTF-8 bytes of a text whose other characters no class of the pattern
    contains. *)
From Stdlib Require Import ZArith Lia Ascii String.
From stdpp Require Import base list strings.
From S2P Require Import Prelude Regex.

(** * Syntax *)

Inductive pattern :=
  | PEmpty
  | PChar (p : ascii → bool)
  | PCat (r s : pattern)
  | PAlt (r s : pattern)
  | PStar (r : pattern)
  | PGroup (n : nat) (r : pattern)
  | PAssert (a : option ascii → string → bool).

Definition popt (r : pattern) : pattern := PAlt r PEmpty.
Definition pmany (r : pattern) : pattern := PCat r (PStar r).
Fixpoint ptimes (n : nat) (r : pattern) : pattern :=
  match n with O => PEmpty | S n => PCat r (ptimes n r) end.
Fixpoint pup_to (n : nat) (r : pattern) : pattern :=
  match n with O => PEmpty | S n => popt (PCat r (pup_to n r)) end.

(** A literal under [re.IGNORECASE]. *)
Definition pichr (c : ascii) : pattern := PChar (λ d, bool_decide (ascii_lower d = ascii_lower c)).
Fixpoint pilit (s : string) : pattern :=
  match s with EmptyString => PEmpty | String c s => PCat (pichr c) (pilit s) end.
Definition pchr (c : ascii) : pattern := PChar (λ d, bool_decide (d = c)).
Definition pspace : pattern := PChar re_space.
Definition digit_char (c : ascii) : bool := code_between 48 57 c.
Definition pdigit : pattern := PChar digit_char.

(** [$]: the end, or before a final newline. *)
Definition pend : pattern := PAssert (λ _ rest,
  match rest with
  | EmptyString => true
  | String c EmptyString => bool_decide (c = ascii_of_nat 10)
  | _ => false
  end).

(** [\b] *)
Definition word_char (c : ascii) : bool :=
  code_between 48 57 c || code_between 65 90 c || code_between 97 122 c || bool_decide (c = "_"%char).
Definition pboundary : pattern := PAssert (λ prev rest,
  xorb (from_option word_char false prev)
       (match rest with EmptyString => false | String c _ => word_char c end)).

(** [(?!p)] for a single character. *)
Definition pnot_next (p : ascii → bool) : pattern := PAssert (λ _ rest,
  match rest with EmptyString => true | String c _ => negb (p c) end).

(** * Matching *)

Record cursor := { cu_prev : option ascii; cu_rest : string; cu_groups : list (nat * string) }.

(** The text between two cursors. *)
Fixpoint taken (n : nat) (s : string) : string :=
  match n, s with S n, String c s => String c (taken n s) | _, _ => EmptyString end.
Definition between (k k' : cursor) : string :=
  taken (String.length (cu_rest k) - String.length (cu_rest k')) (cu_rest k).

(** Greedy repetition of a step that takes some text each time. *)
Fixpoint iterate_step (step : cursor → list cursor) (fuel : nat) (k : cursor) : list cursor :=
  match fuel with
  | O => [k]
  | S n =>
      concat (map (iterate_step step n)
        (filter (λ k', (String.length (cu_rest k') < String.length (cu_rest k))%nat) (step k))) ++ [k]
  end.

Fixpoint attempts (r : pattern) (k : cursor) : list cursor :=
  match r with
  | PEmpty => [k]
  | PChar p =>
      match cu_rest k with
      | String c s => if p c then [{| cu_prev := Some c; cu_rest := s; cu_groups := cu_groups k |}] else []
      | EmptyString => []
      end
  | PCat r s => concat (map (attempts s) (attempts r k))
  | PAlt r s => attempts r k ++ attempts s k
  | PStar r => iterate_step (attempts r) (String.length (cu_rest k)) k
  | PGroup n r =>
      map (λ k', {| cu_prev := cu_prev k'; cu_rest := cu_rest k';
                    cu_groups := (n, between k k') :: cu_groups k' |}) (attempts r k)
  | PAssert a => if a (cu_prev k) (cu_rest k) then [k] else []
  end.

(** A match: the text before it, its own text, its groups and where it ended. *)
Record re_match := { rm_before : string; rm_text : string; rm_end : cursor }.

(** [m.group(n)] *)
Definition rm_group (n : nat) (m : re_match) : option string :=
  snd <$> find (λ e, Nat.eqb e.1 n) (cu_groups (rm_end m)).

Definition skip (c : ascii) (m : re_match) : re_match :=
  {| rm_before := String c (rm_before m); rm_text := rm_text m; rm_end := rm_end m |}.

(** [r.search], from a position. *)
Fixpoint find_match (r : pattern) (prev : option ascii) (s : string) : option re_match :=
  let k := {| cu_prev := prev; cu_rest := s; cu_groups := [] |} in
  match attempts r k with
  | k' :: _ => Some {| rm_before := ""; rm_text := between k k'; rm_end := k' |}
  | [] => match s with EmptyString => None | String c s => skip c <$> find_match r (Some c) s end
  end.

(** [r.finditer]; every match takes some text, so the length is enough fuel. *)
Fixpoint finditer_from (fuel : nat) (r : pattern) (prev : option ascii) (s : string) : list re_match :=
  match fuel with
  | O => []
  | S n =>
      match find_match r prev s with
      | None => []
      | Some m => m :: finditer_from n r (cu_prev (rm_end m)) (cu_rest (rm_end m))
      end
  end.
Definition finditer (r : pattern) (s : string) : list re_match :=
  finditer_from (S (String.length s)) r None s.

(** [r.sub(repl, s)] *)
Fixpoint sub_from (fuel : nat) (r : pattern) (repl : string) (prev : option ascii) (s : string) : string :=
  match fuel with
  | O => s
  | S n =>
      match find_match r prev s with
      | None => s
      | Some m => rm_before m +:+ repl +:+ sub_from n r repl (cu_prev (rm_end m)) (cu_rest (rm_end m))
      end
  end.
Definition sub_all (r : pattern) (repl : string) (s : string) : string :=
  sub_from (S (String.length s)) r repl None s.

(** * The matcher and the meaning of patterns *)

(** A pattern without assertions, and the expression it stands for. *)
Fixpoint plain (r : pattern) : bool :=
  match r with
  | PEmpty | PChar _ => true
  | PCat r s | PAlt r s => plain r && plain s
  | PStar r | PGroup _ r => plain r
  | PAssert _ => false
  end.

Fixpoint erase (r : pattern) : regex :=
  match r with
  | PEmpty => Empty
  | PChar p => Char p
  | PCat r s => Cat (erase r) (erase s)
  | PAlt r s => Alt (erase r) (erase s)
  | PStar r => Star (erase r)
  | PGroup _ r => erase r
  | PAssert _ => Never
  end.

Lemma taken_app (x y : string) : taken (String.length (x +:+ y) - String.length y) (x +:+ y) = x.
Proof.
  rewrite str_length_app. replace (String.length x + String.length y - String.length y)%nat
    with (String.length x) by lia.
  induction x as [|c x IH]; [by destruct y|].
  change (String c (taken (String.length x) (x +:+ y)) = String c x). by rewrite IH.
Qed.

Lemma in_concat_map {A B} (f : A → list B) l b : b ∈ concat (map f l) ↔ ∃ a, a ∈ l ∧ b ∈ f a.
Proof.
  rewrite list_elem_of_In, in_concat. split.
  - intros (l' & (a & <- & Ha)%in_map_iff & Hb). exists a. by rewrite !list_elem_of_In.
  - intros (a & Ha & Hb). exists (f a). rewrite <- !list_elem_of_In. split; [|done].
    apply list_elem_of_fmap. by exists a.
Qed.

Section iterate.
Variables (step : cursor → list cursor) (r : regex).

Lemma iterate_sound n k k' :
  (∀ k k', k' ∈ step k → ∃ x, cu_rest k = x +:+ cu_rest k' ∧ matches r x) →
  k' ∈ iterate_step step n k → ∃ x, cu_rest k = x +:+ cu_rest k' ∧ matches (Star r) x.
Proof.
  intros Hstep. revert k. induction n as [|n IH]; intros k; cbn [iterate_step].
  - intros ->%list_elem_of_singleton. exists "". split; [done|constructor].
  - intros [(k1 & Hk1 & Hk')%in_concat_map| ->%list_elem_of_singleton]%elem_of_app.
    + apply list_elem_of_filter in Hk1 as [_ Hk1]. destruct (Hstep _ _ Hk1) as (x & Hx & Hm).
      destruct (IH _ Hk') as (y & Hy & Hm'). exists (x +:+ y). rewrite Hx, Hy, str_app_assoc.
      split; [done|by constructor].
    + exists "". split; [done|constructor].
Qed.

Lemma iterate_complete n k x y :
  (∀ k x y, cu_rest k = x +:+ y → matches r x → ∃ k', k' ∈ step k ∧ cu_rest k' = y) →
  (String.length (cu_rest k) ≤ n)%nat → cu_rest k = x +:+ y → matches (Star r) x →
  ∃ k', k' ∈ iterate_step step n k ∧ cu_rest k' = y.
Proof.
  intros Hstep. revert k x. induction n as [|n IH]; intros k x Hn Hk Hm.
  - exists k. split; [left|]. rewrite Hk in Hn |- *. rewrite str_length_app in Hn.
    by destruct x; [|cbn in Hn; lia].
  - cbn [iterate_step]. destruct x as [|c x].
    + exists k. split; [|done]. apply elem_of_app. right. left.
    + apply matches_star in Hm as (u & v & -> & Hu & Hv).
      change (String c (u +:+ v) +:+ y) with ((String c u +:+ v) +:+ y) in Hk. rewrite str_app_assoc in Hk.
      destruct (Hstep _ _ _ Hk Hu) as (k1 & Hk1 & Hr1).
      assert (String.length (cu_rest k1) < String.length (cu_rest k))%nat as Hlt.
      { rewrite Hr1, Hk, (str_length_app (String c u)). cbn. lia. }
      destruct (IH k1 v ltac:(lia) Hr1 Hv) as (k' & Hk' & Hy). exists k'. split; [|done].
      apply elem_of_app. left. apply in_concat_map. exists k1. split; [|done].
      by apply list_elem_of_filter.
Qed.
End iterate.

(** Every attempt takes a text of the language. *)
Lemma attempts_sound r k k' :
  plain r = true → k' ∈ attempts r k → ∃ x, cu_rest k = x +:+ cu_rest k' ∧ matches (erase r) x.
Proof.
  revert k k'. induction r as [|p|r IHr s IHs|r IHr s IHs|r IHr|n r IHr|a]; intros k k' Hp; cbn in Hp |- *.
  - intros ->%list_elem_of_singleton. exists "". split; [done|constructor].
  - destruct (cu_rest k) as [|c s]; [by intros ?%elem_of_nil|]. destruct (p c) eqn:Hc; [|by intros ?%elem_of_nil].
    intros ->%list_elem_of_singleton. exists (String c ""). split; [done|by constructor].
  - apply andb_true_iff in Hp as [Hp1 Hp2]. intros (k1 & H1 & H2)%in_concat_map.
    destruct (IHr _ _ Hp1 H1) as (x & Hx & Hm), (IHs _ _ Hp2 H2) as (y & Hy & Hm').
    exists (x +:+ y). rewrite Hx, Hy, str_app_assoc. split; [done|by constructor].
  - apply andb_true_iff in Hp as [Hp1 Hp2]. intros [H1|H1]%elem_of_app.
    + destruct (IHr _ _ Hp1 H1) as (x & Hx & Hm). exists x. split; [done|by constructor].
    + destruct (IHs _ _ Hp2 H1) as (x & Hx & Hm). exists x. split; [done|by apply m_right].
  - apply iterate_sound. auto.
  - intros (k1 & -> & H1)%list_elem_of_fmap. cbn [cu_rest]. by apply (IHr k k1 Hp).
  - done.
Qed.

(** Every text of the language at the cursor is an attempt. *)
Lemma attempts_complete r k x y :
  plain r = true → cu_rest k = x +:+ y → matches (erase r) x → ∃ k', k' ∈ attempts r k ∧ cu_rest k' = y.
Proof.
  revert k x y. induction r as [|p|r IHr s IHs|r IHr s IHs|r IHr|n r IHr|a]; intros k x y Hp Hk Hm;
    cbn in Hp, Hm |- *.
  - apply matches_empty in Hm as ->. exists k. split; [left|done].
  - inversion Hm as [|q c Hc| | | | |]; subst.
    change (String c "" +:+ y) with (String c y) in Hk. rewrite Hk, Hc. eexists. split; [left|done].
  - apply andb_true_iff in Hp as [Hp1 Hp2]. apply matches_cat in Hm as (u & v & -> & Hu & Hv).
    rewrite str_app_assoc in Hk. destruct (IHr _ _ _ Hp1 Hk Hu) as (k1 & H1 & Hr1).
    destruct (IHs _ _ _ Hp2 Hr1 Hv) as (k2 & H2 & Hr2). exists k2. split; [|done].
    apply in_concat_map. by exists k1.
  - apply andb_true_iff in Hp as [Hp1 Hp2].
    apply matches_alt in Hm as [Hm|Hm].
    + destruct (IHr _ _ _ Hp1 Hk Hm) as (k1 & H1 & Hr1). exists k1. split; [|done]. apply elem_of_app. by left.
    + destruct (IHs _ _ _ Hp2 Hk Hm) as (k1 & H1 & Hr1). exists k1. split; [|done]. apply elem_of_app. by right.
  - apply (iterate_complete _ (erase r) _ _ x); [|lia|done|done]. intros. by eapply IHr.
  - destruct (IHr _ _ _ Hp Hk Hm) as (k1 & H1 & Hr1). eexists.
    split; [apply list_elem_of_fmap; exists k1; split; [reflexivity|done]|exact Hr1].
  - done.
Qed.

(** ** Searching *)

Lemma attempts_none r prev s :
  plain r = true → attempts r {| cu_prev := prev; cu_rest := s; cu_groups := [] |} = [] →
  ∀ y z, s = y +:+ z → ~ matches (erase r) y.
Proof.
  intros Hp Hn y z Hs Hm.
  destruct (attempts_complete r {| cu_prev := prev; cu_rest := s; cu_groups := [] |} y z Hp Hs Hm)
    as (k & Hk & _). rewrite Hn in Hk. by apply elem_of_nil in Hk.
Qed.

(** The match that is reported is one of the leftmost. *)
Lemma find_match_Some r prev s m :
  plain r = true → find_match r prev s = Some m →
  s = rm_before m +:+ rm_text m +:+ cu_rest (rm_end m) ∧ matches (erase r) (rm_text m)
  ∧ ∀ x y z, s = x +:+ y +:+ z → matches (erase r) y → (String.length (rm_before m) ≤ String.length x)%nat.
Proof.
  intros Hp. revert prev m. induction s as [|c s IH]; intros prev m; cbn [find_match];
    destruct (attempts r _) as [|k l] eqn:Ha.
  - done.
  - intros [= <-]. cbn. destruct (attempts_sound r {| cu_prev := prev; cu_rest := ""; cu_groups := [] |} k Hp)
      as (x & Hx & Hm); [rewrite Ha; left|]. cbn in Hx. unfold between. cbn [cu_rest].
    destruct x, (cu_rest k); try done. split_and!; [done|done|intros; lia].
  - destruct (find_match r (Some c) s) as [m'|] eqn:Hf; [|done]. intros [= <-]. cbn.
    destruct (IH _ _ Hf) as (Hs & Hm & Hleft). split_and!.
    + change (String c s = String c (rm_before m' +:+ rm_text m' +:+ cu_rest (rm_end m'))). by f_equal.
    + done.
    + intros [|d x] y z Hx Hy; [by destruct (attempts_none _ _ _ Hp Ha y z Hx)|]. injection Hx as <- Hx.
      cbn. specialize (Hleft x y z Hx Hy). lia.
  - intros [= <-]. cbn [rm_before rm_text rm_end].
    destruct (attempts_sound r {| cu_prev := prev; cu_rest := String c s; cu_groups := [] |} k Hp)
      as (x & Hx & Hm); [rewrite Ha; left|]. cbn [cu_rest] in Hx. unfold between. cbn [cu_rest].
    rewrite Hx, taken_app. split_and!; [done|done|intros; cbn; lia].
Qed.

Lemma find_match_None r prev s :
  plain r = true → find_match r prev s = None ↔ ∀ x y z, s = x +:+ y +:+ z → ~ matches (erase r) y.
Proof.
  intros Hp. split.
  - revert prev. induction s as [|c s IH]; intros prev; cbn [find_match]; destruct (attempts r _) as [|k l] eqn:Ha;
      try done.
    + intros _ x y z Hs. destruct x; [|done]. by eapply attempts_none.
    + destruct (find_match r (Some c) s) eqn:Hf; [done|]. intros _ [|d x] y z Hs; [by eapply attempts_none|].
      injection Hs as <- Hs. by eapply IH.
  - intros Hno. destruct (find_match r prev s) as [m|] eqn:Hf; [|done]. exfalso.
    destruct (find_match_Some _ _ _ _ Hp Hf) as (Hs & Hm & _). by eapply Hno.
Qed.

(** [search] answers as the derivative matcher does. *)
Lemma find_match_search r prev s :
  plain r = true → bool_decide (is_Some (find_match r prev s)) = search (erase r) s.
Proof.
  intros Hp. destruct (find_match r prev s) as [m|] eqn:Hf.
  - rewrite bool_decide_true by done. symmetry. apply search_spec.
    destruct (find_match_Some _ _ _ _ Hp Hf) as (Hs & Hm & _). eauto.
  - rewrite bool_decide_false by (by intros []). symmetry. apply not_true_is_false.
    rewrite search_spec. intros (x & y & z & Hs & Hm). rewrite (find_match_None r prev s Hp) in Hf. by eapply Hf.
Qed.

(** * Substitution leaves no match *)

(** No text of the expression contains the character. *)
Fixpoint rejects (c : ascii) (r : regex) : bool :=
  match r with
  | Never | Empty => true
  | Char p => negb (p c)
  | Cat r s | Alt r s => rejects c r && rejects c s
  | Star r => rejects c r
  end.

Fixpoint has_char (c : ascii) (s : string) : bool :=
  match s with EmptyString => false | String d s => bool_decide (d = c) || has_char c s end.

Lemma has_char_app c x y : has_char c (x +:+ y) = has_char c x || has_char c y.
Proof.
  induction x as [|d x IH]; [done|].
  change (bool_decide (d = c) || has_char c (x +:+ y) = bool_decide (d = c) || has_char c x || has_char c y).
  by rewrite IH, orb_assoc.
Qed.

Lemma rejects_spec c r x : rejects c r = true → matches r x → has_char c x = false.
Proof.
  intros Hr Hm. induction Hm as [|p d Hd|r s x y _ IHx _ IHy|r s x _ IH|r s x _ IH| |r x y _ IHx _ IHy];
    cbn in Hr |- *; rewrite ?andb_true_iff in Hr; try done.
  - rewrite orb_false_r. apply bool_decide_eq_false. intros ->. by rewrite Hd in Hr.
  - rewrite has_char_app, IHx, IHy; naive_solver.
  - naive_solver.
  - naive_solver.
  - rewrite has_char_app, IHx, IHy; naive_solver.
Qed.

Lemma prefix_before_char c y z b w :
  y +:+ z = b +:+ String c w → has_char c y = false → ∃ z', b = y +:+ z'.
Proof.
  revert b. induction y as [|d y IH]; intros b Heq Hc; [by exists b|].
  cbn in Hc. apply orb_false_iff in Hc as [Hd Hc]. apply bool_decide_eq_false in Hd.
  destruct b as [|e b]; [by injection Heq|]. injection Heq as <- Heq.
  destruct (IH b Heq Hc) as [z' ->]. by exists z'.
Qed.

(** A part that does not contain a separator lies on one side of it. *)
Lemma part_beside_char c x y z b w :
  x +:+ y +:+ z = b +:+ String c w → has_char c y = false → y ≠ "" →
  (∃ z', b = x +:+ y +:+ z') ∨ (∃ x', w = x' +:+ y +:+ z).
Proof.
  revert b. induction x as [|d x IH]; intros b Heq Hc Hy.
  - left. by apply (prefix_before_char c y z b w).
  - destruct b as [|e b]; [injection Heq as _ Heq; right; by exists x|]. injection Heq as <- Heq.
    destruct (IH b Heq Hc Hy) as [[z' ->]|?]; [left; by exists z'|by right].
Qed.

Section sub.
Variables (r : pattern) (o cl : ascii) (mid : string).
Hypothesis Hplain : plain r = true.
Hypothesis Hsome : nullable (erase r) = false.
Hypothesis Ho : rejects o (erase r) = true.
Hypothesis Hcl : rejects cl (erase r) = true.
Hypothesis Hmid : search (erase r) mid = false.

Lemma matched_nonempty y : matches (erase r) y → y ≠ "".
Proof. intros Hm ->. apply nullable_spec in Hm. congruence. Qed.

(** Replacing every match by a text in brackets that no match contains. *)
Lemma sub_from_clean fuel prev s :
  (String.length s < fuel)%nat →
  search (erase r) (sub_from fuel r (String o (mid +:+ String cl "")) prev s) = false.
Proof.
  revert prev s. induction fuel as [|n IH]; intros prev s Hf; [lia|]. cbn [sub_from].
  destruct (find_match r prev s) as [m|] eqn:Hm.
  2: { rewrite <- (find_match_search r prev s Hplain), Hm. by apply bool_decide_false; intros []. }
  destruct (find_match_Some _ _ _ _ Hplain Hm) as (Hs & Ht & Hleft).
  pose proof (matched_nonempty _ Ht) as Hne.
  assert (String.length (cu_rest (rm_end m)) < n)%nat as Hlt.
  { rewrite Hs, !str_length_app in Hf. destruct (rm_text m); [done|]. cbn in Hf. lia. }
  specialize (IH (cu_prev (rm_end m)) _ Hlt). apply not_true_is_false. rewrite search_spec.
  intros (x & y & z & Heq & Hy). symmetry in Heq.
  change (String o (mid +:+ String cl "") +:+ ?l) with (String o ((mid +:+ String cl "") +:+ l)) in Heq.
  rewrite str_app_assoc in Heq.
  apply part_beside_char in Heq as [[z' Hb]|[x' Hw]]; [| |by eapply rejects_spec|by apply matched_nonempty].
  - assert (String.length (rm_before m) ≤ String.length x)%nat as Hl.
    { apply (Hleft x y (z' +:+ rm_text m +:+ cu_rest (rm_end m))); [|done].
      by rewrite Hs at 1; rewrite Hb, !str_app_assoc. }
    rewrite Hb, !str_length_app in Hl. pose proof (matched_nonempty _ Hy). destruct y; [done|]. cbn in Hl. lia.
  - change (String cl "" +:+ ?l) with (String cl l) in Hw. symmetry in Hw.
    apply part_beside_char in Hw as [[z' Hb]|[x2 Hw]]; [| |by eapply rejects_spec|by apply matched_nonempty].
    + assert (search (erase r) mid = true) by (apply search_spec; eauto). congruence.
    + assert (search (erase r) (sub_from n r (String o (mid +:+ String cl "")) (cu_prev (rm_end m))
        (cu_rest (rm_end m))) = true) by (apply search_spec; eauto). congruence.
Qed.
End sub.
