(* ===== verification/Float64.v ===== *)
(** Python's [float] (IEEE 754 binary64, round to nearest even) on exact integers: a finite
    float is a mantissa and an exponent, and every operation rounds the exact ratio.  The sign
    of zero is not kept.  Used where the sources compute with floats whose result decides
    something: amounts read from text, price moves, rates. *)
From Stdlib Require Import ZArith Lia Ascii String.
From stdpp Require Import base list strings pretty.
From S2P Require Import Prelude.

Open Scope Z_scope.

Inductive float :=
  | Nan
  | Inf (neg : bool)
  | Fin (m e : Z).

(** The integer nearest to [n / d], of two the even one. *)
Definition half_even (n d : Z) : Z :=
  let q := n / d in
  let r := n mod d in
  if 2 * r <? d then q else if d <? 2 * r then q + 1 else if Z.even q then q else q + 1.

(** [floor(log2(a / d))] *)
Definition ratio_log2 (a d : Z) : Z :=
  let k := Z.log2 a - Z.log2 d in
  if a * 2 ^ Z.max 0 (- k) <? d * 2 ^ Z.max 0 k then k - 1 else k.

(** The float nearest to [n / d], for a positive [d]. *)
Definition round_ratio (n d : Z) : float :=
  if n =? 0 then Fin 0 0
  else
    let a := Z.abs n in
    let e := Z.max (ratio_log2 a d - 52) (-1074) in
    let m := half_even (a * 2 ^ Z.max 0 (- e)) (d * 2 ^ Z.max 0 e) in
    if (0 <=? e) && (2 ^ 1024 <=? m * 2 ^ Z.max 0 e) then Inf (n <? 0) else Fin (Z.sgn n * m) e.

(** A finite float as a ratio. *)
Definition f_num (m e : Z) : Z := m * 2 ^ Z.max 0 e.
Definition f_den (e : Z) : Z := 2 ^ Z.max 0 (- e).

Definition fmul (x y : float) : float :=
  match x, y with
  | Nan, _ | _, Nan => Nan
  | Fin m e, Fin m' e' => round_ratio (f_num m e * f_num m' e') (f_den e * f_den e')
  | Inf s, Inf s' => Inf (xorb s s')
  | Inf s, Fin m _ | Fin m _, Inf s => if m =? 0 then Nan else Inf (xorb s (m <? 0))
  end.

Definition fopp (x : float) : float :=
  match x with Nan => Nan | Inf s => Inf (negb s) | Fin m e => Fin (- m) e end.

Definition fadd (x y : float) : float :=
  match x, y with
  | Nan, _ | _, Nan => Nan
  | Fin m e, Fin m' e' => round_ratio (f_num m e * f_den e' + f_num m' e' * f_den e) (f_den e * f_den e')
  | Inf s, Inf s' => if eqb s s' then Inf s else Nan
  | Inf s, Fin _ _ | Fin _ _, Inf s => Inf s
  end.
Definition fsub (x y : float) : float := fadd x (fopp y).

(** [x / y] *)
Definition fdiv (x y : float) : result float :=
  match x, y with
  | _, Fin 0 _ => Err ZeroDivisionError
  | Nan, _ | _, Nan | Inf _, Inf _ => Ok Nan
  | Fin m e, Fin m' e' =>
      Ok (round_ratio (Z.sgn m' * f_num m e * f_den e') (Z.abs (f_num m' e') * f_den e))
  | Inf s, Fin m _ => Ok (Inf (xorb s (m <? 0)))
  | Fin _ _, Inf _ => Ok (Fin 0 0)
  end.

(** [float(n)] of an integer, as in mixed arithmetic. *)
Definition float_of_int (n : Z) : result float :=
  match round_ratio n 1 with
  | Inf _ => Err (OverflowError "int too large to convert to float")
  | f => Ok f
  end.

(** [n / m] of two integers. *)
Definition int_div (n m : Z) : result float :=
  if m =? 0 then Err ZeroDivisionError
  else
    match round_ratio (Z.sgn m * n) (Z.abs m) with
    | Inf _ => Err (OverflowError "integer division result too large for a float")
    | f => Ok f
    end.

(** [int(x)] *)
Definition int_of_float (x : float) : result Z :=
  match x with
  | Nan => Err (ValueError "cannot convert float NaN to integer")
  | Inf _ => Err (OverflowError "cannot convert float infinity to integer")
  | Fin m e => Ok (Z.quot (f_num m e) (f_den e))
  end.

(** [x < y] *)
Definition flt (x y : float) : bool :=
  match x, y with
  | Nan, _ | _, Nan => false
  | Fin m e, Fin m' e' => f_num m e * f_den e' <? f_num m' e' * f_den e
  | Inf s, Inf s' => s && negb s'
  | Inf s, Fin _ _ => s
  | Fin _ _, Inf s => negb s
  end.

(** [x <= y] *)
Definition fle (x y : float) : bool :=
  match x, y with Nan, _ | _, Nan => false | _, _ => negb (flt y x) end.

(** [math.sqrt(x)]: the root of the mantissa, scaled to an even exponent, to sixty bits or more
    and one that says whether it is exact. *)
Definition fsqrt (x : float) : result float :=
  match x with
  | Nan => Ok Nan
  | Inf true => Err (ValueError "math domain error")
  | Inf false => Ok (Inf false)
  | Fin m e =>
      if m <? 0 then Err (ValueError "math domain error")
      else
        let scale := if Z.even e then 120 else 121 in
        let r := Z.sqrt (m * 2 ^ scale) in
        let q := 2 * r + (if r * r =? m * 2 ^ scale then 0 else 1) in
        let h := (e - scale) / 2 - 1 in
        Ok (round_ratio (q * 2 ^ Z.max 0 h) (2 ^ Z.max 0 (- h)))
  end.

(** The decimal nearest to [|x|] with [digits] digits after the point, as an integer. *)
Definition scaled (digits m e : Z) : Z := half_even (Z.abs (f_num m e) * 10 ^ digits) (f_den e).

(** [round(x, digits)] *)
Definition fround (digits : Z) (x : float) : float :=
  match x with
  | Fin m e => round_ratio (Z.sgn m * scaled digits m e) (10 ^ digits)
  | _ => x
  end.

(** [f"{x:.<digits>f}"] *)
Definition format_fixed (digits : nat) (x : float) : string :=
  match x with
  | Nan => "nan"
  | Inf neg => if neg then "-inf" else "inf"
  | Fin m e =>
      let n := scaled (Z.of_nat digits) m e in
      let text := pretty n in
      let text := string_of_list_ascii (replicate (S digits - String.length text) "0"%char) +:+ text in
      let whole := (String.length text - digits)%nat in
      (if m <? 0 then "-" else "") +:+ String.substring 0 whole text
      +:+ (if Nat.eqb digits 0 then "" else "." +:+ String.substring whole digits text)
  end.

(** * Rounding *)

Lemma half_even_near n d : 0 < d → 2 * Z.abs (n - half_even n d * d) ≤ d.
Proof.
  intros Hd. unfold half_even. pose proof (Z.div_mod n d ltac:(lia)). pose proof (Z.mod_pos_bound n d Hd).
  destruct (2 * (n mod d) <? d) eqn:H1; [prop_of_bool; nia|].
  destruct (d <? 2 * (n mod d)) eqn:H2; [prop_of_bool; nia|].
  prop_of_bool. destruct (Z.even (n / d)); nia.
Qed.

Lemma half_even_exact n d : 0 < d → half_even (n * d) d = n.
Proof.
  intros Hd. unfold half_even. rewrite Z.div_mul, Z.mod_mul, Z.mul_0_r by lia.
  by rewrite (proj2 (Z.ltb_lt 0 d) Hd).
Qed.

Lemma half_even_nonneg n d : 0 ≤ n → 0 < d → 0 ≤ half_even n d.
Proof.
  intros Hn Hd. unfold half_even. pose proof (Z.div_pos n d Hn Hd).
  repeat match goal with |- context [if ?b then _ else _] => destruct b end; lia.
Qed.

Lemma pow2_pos k : 0 < 2 ^ Z.max 0 k.
Proof. apply Z.pow_pos_nonneg; lia. Qed.

(** [2^j <= a / d] *)
Definition at_least (a d j : Z) : Prop := d * 2 ^ Z.max 0 j ≤ a * 2 ^ Z.max 0 (- j).

Lemma at_least_below a d x y j :
  0 < a → 0 < d → 2 ^ x ≤ a → d ≤ 2 ^ y → 0 ≤ x → 0 ≤ y → j = x - y → at_least a d j.
Proof.
  intros Ha Hd Hx Hy Hx0 Hy0 ->. unfold at_least. destruct (Z.le_ge_cases 0 (x - y)).
  - rewrite (Z.max_r 0 (x - y)), Z.max_l by lia. rewrite Z.mul_1_r.
    assert (2 ^ x = 2 ^ y * 2 ^ (x - y)) as Hp by (rewrite <- Z.pow_add_r by lia; f_equal; lia).
    pose proof (Z.pow_pos_nonneg 2 (x - y)). nia.
  - rewrite (Z.max_l 0 (x - y)), Z.max_r by lia. rewrite Z.mul_1_r.
    assert (2 ^ y = 2 ^ x * 2 ^ (- (x - y))) as Hp by (rewrite <- Z.pow_add_r by lia; f_equal; lia).
    pose proof (Z.pow_pos_nonneg 2 (- (x - y))). nia.
Qed.

Lemma at_least_above a d x y j :
  0 < a → 0 < d → a < 2 ^ x → 2 ^ y ≤ d → 0 ≤ x → 0 ≤ y → j = x - y → ~ at_least a d j.
Proof.
  intros Ha Hd Hx Hy Hx0 Hy0 ->. unfold at_least. destruct (Z.le_ge_cases 0 (x - y)).
  - rewrite (Z.max_r 0 (x - y)), Z.max_l by lia. rewrite Z.mul_1_r.
    assert (2 ^ x = 2 ^ y * 2 ^ (x - y)) as Hp by (rewrite <- Z.pow_add_r by lia; f_equal; lia).
    pose proof (Z.pow_pos_nonneg 2 (x - y)). nia.
  - rewrite (Z.max_l 0 (x - y)), Z.max_r by lia. rewrite Z.mul_1_r.
    assert (2 ^ y = 2 ^ x * 2 ^ (- (x - y))) as Hp by (rewrite <- Z.pow_add_r by lia; f_equal; lia).
    pose proof (Z.pow_pos_nonneg 2 (- (x - y))). nia.
Qed.

Lemma ratio_log2_spec a d :
  0 < a → 0 < d → at_least a d (ratio_log2 a d) ∧ ~ at_least a d (ratio_log2 a d + 1).
Proof.
  intros Ha Hd. destruct (Z.log2_spec a Ha) as [Ha1 Ha2], (Z.log2_spec d Hd) as [Hd1 Hd2].
  pose proof (Z.log2_nonneg a). pose proof (Z.log2_nonneg d). unfold ratio_log2.
  destruct (a * _ <? d * _) eqn:Hk; prop_of_bool.
  - split.
    + apply (at_least_below a d (Z.log2 a) (Z.succ (Z.log2 d))); lia.
    + replace (Z.log2 a - Z.log2 d - 1 + 1) with (Z.log2 a - Z.log2 d) by lia. unfold at_least. lia.
  - split; [exact Hk|].
    apply (at_least_above a d (Z.succ (Z.log2 a)) (Z.log2 d)); lia.
Qed.

Lemma at_least_shift a d j N :
  0 ≤ N → 0 ≤ j + N → at_least a d j ↔ d * 2 ^ (j + N) ≤ a * 2 ^ N.
Proof.
  intros HN Hj. unfold at_least. set (t := N - Z.max 0 (- j)).
  assert (2 ^ (j + N) = 2 ^ Z.max 0 j * 2 ^ t) as -> by (unfold t; rewrite <- Z.pow_add_r by lia; f_equal; lia).
  assert (2 ^ N = 2 ^ Z.max 0 (- j) * 2 ^ t) as -> by (unfold t; rewrite <- Z.pow_add_r by lia; f_equal; lia).
  rewrite !Z.mul_assoc. apply Z.mul_le_mono_pos_r. apply Z.pow_pos_nonneg; unfold t; lia.
Qed.

(** The scaled ratio has at most 53 bits. *)
Lemma scaled_below a d e :
  0 < a → 0 < d → ~ at_least a d (e + 53) → a * 2 ^ Z.max 0 (- e) < 2 ^ 53 * (d * 2 ^ Z.max 0 e).
Proof.
  intros Ha Hd He. rewrite (at_least_shift a d (e + 53) (Z.max 0 (- e))) in He by lia.
  replace (e + 53 + Z.max 0 (- e)) with (53 + Z.max 0 e) in He by lia.
  rewrite Z.pow_add_r in He by lia. lia.
Qed.

Lemma at_least_mono a d j j' : 0 < d → j ≤ j' → at_least a d j' → at_least a d j.
Proof.
  intros Hd Hj. rewrite (at_least_shift a d j' (Z.max 0 (- j))), (at_least_shift a d j (Z.max 0 (- j))) by lia.
  pose proof (Z.pow_le_mono_r 2 (j + Z.max 0 (- j)) (j' + Z.max 0 (- j))). nia.
Qed.

(** A finite result has 53 bits and differs from the exact ratio by at most half a unit in
    the last place. *)
Lemma round_ratio_near n d m e :
  0 < d → round_ratio n d = Fin m e →
  Z.abs m ≤ 2 ^ 53 ∧ -1074 ≤ e ∧ 2 * Z.abs (n * f_den e - f_num m e * d) ≤ d * 2 ^ Z.max 0 e.
Proof.
  intros Hd. unfold round_ratio. destruct (n =? 0) eqn:Hn; prop_of_bool.
  { intros [= <- <-]. subst. unfold f_den, f_num. change (Z.max 0 0) with 0. change (Z.max 0 (- 0)) with 0.
    change (2 ^ 0) with 1. split_and!; [by vm_compute|lia|lia]. }
  set (a := Z.abs n). set (e0 := Z.max (ratio_log2 a d - 52) (-1074)).
  set (x := a * 2 ^ Z.max 0 (- e0)). set (y := d * 2 ^ Z.max 0 e0).
  destruct (_ && _); [done|]. intros [= <- <-].
  assert (0 < y) as Hy by (unfold y; pose proof (pow2_pos e0); nia).
  assert (0 ≤ x) as Hx by (unfold x, a; pose proof (pow2_pos (- e0)); nia).
  pose proof (half_even_near x y Hy) as Hnear. pose proof (half_even_nonneg x y Hx Hy) as Hpos.
  split_and!; [|unfold e0; lia|].
  - assert (x < 2 ^ 53 * y) as Hb.
    { apply scaled_below; [unfold a; lia|done|]. intros Hal.
      destruct (ratio_log2_spec a d ltac:(unfold a; lia) Hd) as [_ Hno]. apply Hno.
      eapply at_least_mono; [done| |exact Hal]. unfold e0. lia. }
    rewrite Z.abs_mul. assert (Z.abs (Z.sgn n) = 1) as -> by lia. rewrite Z.mul_1_l, Z.abs_eq by done. nia.
  - unfold f_num, f_den. fold y.
    assert (n * 2 ^ Z.max 0 (- e0) = Z.sgn n * x) as -> by (unfold x, a; rewrite <- (Z.sgn_abs n) at 1; lia).
    replace (Z.sgn n * x - Z.sgn n * half_even x y * 2 ^ Z.max 0 e0 * d)
      with (Z.sgn n * (x - half_even x y * y)) by (unfold y; lia).
    rewrite Z.abs_mul. assert (Z.abs (Z.sgn n) = 1) as -> by lia. lia.
Qed.

(** An integer of 53 bits is its own float. *)
Lemma round_integer n j :
  0 ≤ j → Z.abs n < 2 ^ 53 →
  ∃ m e, round_ratio (n * 2 ^ j) (2 ^ j) = Fin m e ∧ f_num m e = n * f_den e.
Proof.
  intros Hj Hn. assert (0 < 2 ^ j) as Hp by (apply Z.pow_pos_nonneg; lia).
  unfold round_ratio. destruct (n * 2 ^ j =? 0) eqn:Hz; prop_of_bool.
  { exists 0, 0. split; [done|]. assert (n = 0) as -> by nia. done. }
  set (a := Z.abs (n * 2 ^ j)). set (k := ratio_log2 a (2 ^ j)).
  assert (a = Z.abs n * 2 ^ j) as Ha by (unfold a; rewrite Z.abs_mul, (Z.abs_eq (2 ^ j)) by lia; done).
  assert (k ≤ 52) as Hk.
  { destruct (ratio_log2_spec a (2 ^ j) ltac:(unfold a; lia) Hp) as [Hal _]. fold k in Hal.
    apply Z.le_ngt. intros Hgt. apply (at_least_mono _ _ 53) in Hal; [|done|lia].
    unfold at_least in Hal. cbn [Z.max] in Hal. rewrite Z.mul_1_r in Hal. change (Z.max 0 53) with 53 in Hal. nia. }
  set (e := Z.max (k - 52) (-1074)). assert (Z.max 0 e = 0) as He by (unfold e; lia).
  rewrite He, Ha. change (2 ^ 0) with 1. rewrite !Z.mul_1_r.
  replace (Z.abs n * 2 ^ j * 2 ^ Z.max 0 (- e)) with (Z.abs n * 2 ^ Z.max 0 (- e) * 2 ^ j) by lia.
  rewrite half_even_exact by done.
  destruct ((0 <=? e) && _) eqn:Hinf.
  { exfalso. apply andb_true_iff in Hinf as [H0 H1]. prop_of_bool.
    assert (Z.max 0 (- e) = 0) as Hm by lia. rewrite Hm in H1. change (2 ^ 0) with 1 in H1.
    rewrite Z.mul_1_r in H1. assert (2 ^ 53 < 2 ^ 1024) as Hlt by (by vm_compute).
    apply (Z.lt_irrefl (Z.abs n)). eapply Z.lt_trans; [exact Hn|]. eapply Z.lt_le_trans; [exact Hlt|exact H1]. }
  eexists _, e. split; [done|]. unfold f_num, f_den. rewrite He. change (2 ^ 0) with 1.
  rewrite Z.sgn_mul, (Z.sgn_pos (2 ^ j)), !Z.mul_1_r by done.
  rewrite Z.mul_assoc. f_equal. rewrite Z.mul_comm. apply Z.abs_sgn.
Qed.
