(* ===== verification/CanonicalFacts.v ===== *)
(** Facts of Canonical: the layout of [uuid7], and that the canonical text of
    a supported value determines the value up to the order of dict keys. *)
From Stdlib Require Import ZArith Lia Ascii String.
From Stdlib Require Strings.Byte.
From stdpp Require Import base list strings pretty.
From S2P Require Import Prelude Bytes Canonical.

Open Scope Z_scope.

(** * UUIDs *)

(** Disjoint bit fields add up. *)
Lemma lor_disjoint q b n : 0 ≤ n → 0 ≤ b < 2 ^ n → Z.lor (q * 2 ^ n) b = q * 2 ^ n + b.
Proof.
  intros Hn Hb. rewrite <- Z.add_lor_land.
  enough (Z.land (q * 2 ^ n) b = 0) by lia.
  apply Z.bits_inj'. intros i Hi. rewrite Z.land_spec, Z.bits_0.
  destruct (Z.ltb_spec i n).
  - by rewrite Z.mul_pow2_bits_low.
  - rewrite <- (Z.mod_small b (2 ^ n)) by lia. rewrite Z.mod_pow2_bits_high by lia.
    apply andb_false_r.
Qed.

(** The fields of [uuid7] as an arithmetic expression. *)
Lemma uuid7_fields ts r u :
  uuid7 ts r = Ok u →
  0 ≤ ts < 2 ^ 48 ∧
  u = ts * 2 ^ 80 + 7 * 2 ^ 76 + (r / 2 ^ 62) mod 2 ^ 12 * 2 ^ 64 + 2 * 2 ^ 62 + r mod 2 ^ 62.
Proof.
  unfold uuid7. intros Hu. ok_invs. prop_of_bool. change (Z.shiftl 1 48) with (2 ^ 48) in *.
  split; [lia|].
  change (Z.shiftl 1 62 - 1) with (Z.ones 62). change 0xFFF with (Z.ones 12).
  rewrite !Z.land_ones, !Z.shiftl_mul_pow2, Z.shiftr_div_pow2 by lia.
  pose proof (Z.mod_pos_bound (r / 2 ^ 62) (2 ^ 12) ltac:(lia)).
  pose proof (Z.mod_pos_bound r (2 ^ 62) ltac:(lia)).
  set (h := (r / 2 ^ 62) mod 2 ^ 12) in *. set (l := r mod 2 ^ 62) in *.
  rewrite lor_disjoint by lia.
  replace (ts * 2 ^ 80 + 7 * 2 ^ 76) with ((ts * 2 ^ 4 + 7) * 2 ^ 76) by lia.
  rewrite lor_disjoint by lia.
  replace ((ts * 2 ^ 4 + 7) * 2 ^ 76 + h * 2 ^ 64)
    with (((ts * 2 ^ 4 + 7) * 2 ^ 12 + h) * 2 ^ 64) by lia.
  rewrite lor_disjoint by lia.
  replace (((ts * 2 ^ 4 + 7) * 2 ^ 12 + h) * 2 ^ 64 + 2 * 2 ^ 62)
    with ((((ts * 2 ^ 4 + 7) * 2 ^ 12 + h) * 2 ^ 2 + 2) * 2 ^ 62) by lia.
  rewrite lor_disjoint by lia. lia.
Qed.

Lemma uuid_version_7 u a b c :
  0 ≤ b < 2 ^ 12 → 0 ≤ c < 2 ^ 62 →
  u = a * 2 ^ 80 + 7 * 2 ^ 76 + b * 2 ^ 64 + 2 * 2 ^ 62 + c → uuid_version u = Some 7.
Proof.
  intros Hb Hc ->. unfold uuid_version.
  set (u := _ + c).
  assert (u / 2 ^ 62 = (a * 2 ^ 16 + 7 * 2 ^ 12 + b) * 4 + 2) as Hd.
  { symmetry. apply (Z.div_unique _ _ _ c); unfold u; lia. }
  assert (u / 2 ^ 76 = a * 16 + 7) as Hv.
  { symmetry. apply (Z.div_unique _ _ _ (b * 2 ^ 64 + 2 * 2 ^ 62 + c)); unfold u; lia. }
  replace (Z.testbit u 63) with (Z.testbit (Z.shiftr u 62) 1)
    by (rewrite Z.shiftr_spec by lia; done).
  replace (Z.testbit u 62) with (Z.testbit (Z.shiftr u 62) 0)
    by (rewrite Z.shiftr_spec by lia; done).
  change 0xF with (Z.ones 4). rewrite Z.land_ones by lia.
  rewrite !Z.shiftr_div_pow2, Hd, Hv by lia.
  replace ((a * 16 + 7) mod 2 ^ 4) with 7
    by (apply (Z.mod_unique _ _ a); lia).
  rewrite !Z.testbit_odd, !Z.shiftr_div_pow2 by lia.
  set (k := a * 2 ^ 16 + 7 * 2 ^ 12 + b).
  replace ((k * 4 + 2) / 2 ^ 1) with (1 + 2 * k) by (apply (Z.div_unique _ _ _ 0); lia).
  replace ((k * 4 + 2) / 2 ^ 0) with (0 + 2 * (2 * k + 1))
    by (rewrite Z.pow_0_r, Z.div_1_r; lia).
  by rewrite !Z.odd_add_mul_2.
Qed.

(** The identifiers [uuid7] draws.  Whenever it returns, the
    result is a 128-bit RFC 4122 UUID of version 7 whose upper 48 bits are the
    millisecond timestamp; distinct draws give distinct identifiers, and a later
    timestamp gives a larger identifier, so that sorting by identifier sorts by time. *)
Theorem uuid7_layout ts r u :
  0 ≤ r < 2 ^ 74 → uuid7 ts r = Ok u →
  uuid_version u = Some 7 ∧ 0 ≤ u < 2 ^ 128 ∧ Z.shiftr u 80 = ts
  ∧ (∀ ts' r' u', 0 ≤ r' < 2 ^ 74 → uuid7 ts' r' = Ok u' →
       (u' = u → ts' = ts ∧ r' = r) ∧ (ts < ts' → u < u')).
Proof.
  intros Hr Hu. apply uuid7_fields in Hu as [Hts Hu].
  pose proof (Z.mod_pos_bound (r / 2 ^ 62) (2 ^ 12) ltac:(lia)).
  pose proof (Z.mod_pos_bound r (2 ^ 62) ltac:(lia)).
  assert (Z.shiftr u 80 = ts) as Htop.
  { rewrite Z.shiftr_div_pow2 by lia. symmetry.
    apply (Z.div_unique _ _ _ (u - ts * 2 ^ 80)); lia. }
  split_and!; [by eapply uuid_version_7|lia|lia|done|].
  intros ts' r' u' Hr' Hu'. apply uuid7_fields in Hu' as [Hts' Hu'].
  pose proof (Z.mod_pos_bound (r' / 2 ^ 62) (2 ^ 12) ltac:(lia)).
  pose proof (Z.mod_pos_bound r' (2 ^ 62) ltac:(lia)).
  split; [|lia].
  rewrite !(Z.mod_small (_ / 2 ^ 62)) in *
    by (split; [apply Z.div_pos|apply Z.div_lt_upper_bound]; lia).
  pose proof (Z.div_mod r (2 ^ 62) ltac:(lia)).
  pose proof (Z.div_mod r' (2 ^ 62) ltac:(lia)). lia.
Qed.

Lemma uuid7_layout_witness :
  ∃ u, uuid7 1700000000000 12345678901234567890 = Ok u ∧ uuid_version u = Some 7.
Proof.
  eexists. split; [vm_compute; reflexivity|].
  refine (proj1 (uuid7_layout 1700000000000 12345678901234567890 _ _ _)).
  - lia.
  - vm_compute. reflexivity.
Defined.

(** * String literals *)

(** Reading one escaped character back. *)
Definition json_unescape (s : string) : option (ascii * string) :=
  match s with
  | EmptyString => None
  | String c r =>
      if Nat.eqb (nat_of_ascii c) 34 then None
      else if Nat.eqb (nat_of_ascii c) 92 then
        match r with
        | EmptyString => None
        | String d r =>
            if Nat.eqb (nat_of_ascii d) 34 || Nat.eqb (nat_of_ascii d) 92 then Some (d, r)
            else if bool_decide (d = "n"%char) then Some (ascii_of_nat 10, r)
            else if bool_decide (d = "r"%char) then Some (ascii_of_nat 13, r)
            else if bool_decide (d = "t"%char) then Some (ascii_of_nat 9, r)
            else if bool_decide (d = "f"%char) then Some (ascii_of_nat 12, r)
            else if bool_decide (d = "b"%char) then Some (ascii_of_nat 8, r)
            else match r with
                 | String _ (String _ (String h (String l r))) =>
                     match hex_value h, hex_value l with
                     | Some a, Some b => Some (ascii_of_nat (Z.to_nat (a * 16 + b)), r)
                     | _, _ => None
                     end
                 | _ => None
                 end
        end
      else Some (c, r)
  end.

Lemma json_unescape_escape c r : json_unescape (json_escape c +:+ r) = Some (c, r).
Proof. destruct c as [[] [] [] [] [] [] [] []]; reflexivity. Qed.

Lemma json_unescape_quote r : json_unescape (dquote +:+ r) = None.
Proof. reflexivity. Qed.

Lemma json_escape_all_split s t r r' :
  json_escape_all s +:+ dquote +:+ r = json_escape_all t +:+ dquote +:+ r' → s = t ∧ r = r'.
Proof.
  revert t. induction s as [|c s IH]; intros [|d t] Heq; cbn [json_escape_all] in Heq.
  - by injection Heq.
  - rewrite !str_app_assoc in Heq. apply (f_equal json_unescape) in Heq.
    by rewrite json_unescape_escape in Heq.
  - rewrite !str_app_assoc in Heq. apply (f_equal json_unescape) in Heq.
    by rewrite json_unescape_escape in Heq.
  - rewrite !str_app_assoc in Heq. apply (f_equal json_unescape) in Heq.
    rewrite !json_unescape_escape in Heq. injection Heq as -> Heq.
    by destruct (IH t Heq) as [-> ->].
Qed.

Lemma json_string_split s t r r' :
  json_string s +:+ r = json_string t +:+ r' → s = t ∧ r = r'.
Proof.
  unfold json_string. rewrite !str_app_assoc. intros Heq.
  apply (inj (String.append dquote)) in Heq. by apply json_escape_all_split.
Qed.

(** * Values *)

Section pyval_induction.
Variable P : pyval → Prop.
Hypothesis Hnone : P PNone.
Hypothesis Hbool : ∀ b, P (PBool b).
Hypothesis Hint : ∀ z, P (PInt z).
Hypothesis Hstr : ∀ s, P (PStr s).
Hypothesis Hfloat : ∀ x, P (PFloat x).
Hypothesis Hlist : ∀ l, Forall P l → P (PList l).
Hypothesis Hdict : ∀ l, Forall (λ e, P e.2) l → P (PDict l).
Hypothesis Hother : ∀ t, P (POther t).

(** Induction that goes under the lists. *)
Fixpoint pyval_ind' (v : pyval) : P v :=
  match v with
  | PNone => Hnone
  | PBool b => Hbool b
  | PInt z => Hint z
  | PStr s => Hstr s
  | PFloat x => Hfloat x
  | PList l => Hlist l ((fix go l : Forall P l :=
      match l with
      | [] => Forall_nil_2 _
      | v :: l => Forall_cons_2 _ _ _ (pyval_ind' v) (go l)
      end) l)
  | PDict l => Hdict l ((fix go l : Forall (λ e, P e.2) l :=
      match l with
      | [] => Forall_nil_2 _
      | e :: l => Forall_cons_2 _ _ _ (pyval_ind' (e.2)) (go l)
      end) l)
  | POther t => Hother t
  end.
End pyval_induction.

(** What [_assert_supported] accepts. *)
Fixpoint supported (v : pyval) : bool :=
  match v with
  | PNone | PBool _ | PInt _ | PStr _ => true
  | PFloat _ | POther _ => false
  | PList l => forallb supported l
  | PDict l => forallb (λ e, is_str_key e.1 && supported e.2) l
  end.

Lemma assert_supported_spec v path :
  _assert_supported v path = Ok tt ↔ supported v = true.
Proof.
  revert path. induction v as [| | | | |l IH|l IH|] using pyval_ind'; intros path;
    cbn [_assert_supported supported]; try (split; congruence).
  - generalize 0. induction IH as [|v l Hv Hl IH']; intros i; cbn [forallb]; [done|].
    rewrite andb_true_iff, bind_Ok, <- (Hv (path +:+ "[" +:+ pretty i +:+ "]")), <- (IH' (i + 1)).
    split; [intros ([] & ? & ?); auto|intros [? ?]; eauto].
  - rewrite raise_if_bind. destruct (forallb (λ e, is_str_key e.1) l) eqn:Hk; cbn [negb].
    + induction IH as [|[k v] l Hv Hl IH']; cbn [forallb] in *; [done|].
      prop_of_bool. destruct Hk as [Hk1 Hk2]. cbn in Hk1, Hv.
      cbn [fst snd]. rewrite bind_Ok, <- (IH' Hk2), <- (Hv (path +:+ "." +:+ key_text k)).
      split; [intros ([] & ? & ?); auto|intros [[? ?] ?]; eauto].
    + split; [done|]. intros Hs. rewrite forallb_forall in Hs.
      enough (forallb (λ e, is_str_key e.1) l = true) by congruence.
      rewrite forallb_forall. intros e He. specialize (Hs e He). prop_of_bool. tauto.
Qed.

(** ** Unfolding the loops of the writer *)

Fixpoint write_items (first : bool) (l : list pyval) : string :=
  match l with
  | [] => "]"
  | v :: l => (if first then "" else ",") +:+ json_write v +:+ write_items false l
  end.

Fixpoint write_entries (first : bool) (l : list (pykey * pyval)) : string :=
  match l with
  | [] => "}"
  | (k, v) :: l =>
      (if first then "" else ",") +:+ json_string (key_text k) +:+ ":" +:+ json_write v
      +:+ write_entries false l
  end.

Lemma json_write_list l : json_write (PList l) = "[" +:+ write_items true l.
Proof.
  cbn [json_write]. apply (f_equal (String.append "[")).
  lazymatch goal with |- ?f true _ = _ => enough (∀ b, f b l = write_items b l) as H by apply H end.
  induction l as [|v l IH]; intros b; [done|]. cbn [write_items]. by rewrite IH.
Qed.

Lemma json_write_dict l : json_write (PDict l) = "{" +:+ write_entries true l.
Proof.
  cbn [json_write]. apply (f_equal (String.append "{")).
  lazymatch goal with |- ?f true _ = _ =>
    enough (∀ b, f b l = write_entries b l) as H by apply H end.
  induction l as [|[k v] l IH]; intros b; [done|]. cbn [write_entries]. by rewrite IH.
Qed.

(** The kind of a value, and of a text by its first character. *)
Definition kind (v : pyval) : nat :=
  match v with
  | PNone => 1 | PBool true => 2 | PBool false => 3 | PInt _ => 4 | PStr _ => 5
  | PList _ => 6 | PDict _ => 7 | _ => 0
  end.
Definition head_kind (s : string) : nat :=
  match s with
  | EmptyString => 0
  | String c _ =>
      if is_numeric c then 4
      else if bool_decide (c = "n"%char) then 1
      else if bool_decide (c = "t"%char) then 2
      else if bool_decide (c = "f"%char) then 3
      else if Nat.eqb (nat_of_ascii c) 34 then 5
      else if bool_decide (c = "["%char) then 6
      else if bool_decide (c = "{"%char) then 7
      else 0
  end.

Lemma json_write_head v r : supported v = true → head_kind (json_write v +:+ r) = kind v.
Proof.
  destruct v as [|[]|z| | |l|l|]; try done; intros _.
  cbn [json_write kind]. pose proof (pretty_Z_numeric z) as Hz. pose proof (pretty_Z_nonempty z).
  destruct (pretty z) as [|c t]; [done|]. cbn in Hz. prop_of_bool. destruct Hz as [Hz _].
  change (head_kind (String c (t +:+ r)) = 4%nat). cbn. by rewrite Hz.
Qed.

(** What may follow a value: nothing, or a separator or closing bracket. *)
Definition delimited (r : string) : bool := stops is_numeric r.

Definition write_inj (v : pyval) : Prop := ∀ w r r',
  supported v = true → supported w = true → delimited r = true → delimited r' = true →
  json_write v +:+ r = json_write w +:+ r' → v = w ∧ r = r'.

Lemma write_items_delimited l r : delimited (write_items false l +:+ r) = true.
Proof. by destruct l. Qed.
Lemma write_entries_delimited l r : delimited (write_entries false l +:+ r) = true.
Proof. by destruct l as [|[]]. Qed.

Lemma write_items_inj l : Forall write_inj l → ∀ first l' r r',
  forallb supported l = true → forallb supported l' = true →
  write_items first l +:+ r = write_items first l' +:+ r' → l = l' ∧ r = r'.
Proof.
  induction 1 as [|v l Hv _ IH]; intros first [|w l'] r r' Hl Hl' Heq;
    cbn [write_items forallb] in *; prop_of_bool.
  - by injection Heq.
  - destruct first; [|done]. rewrite !str_app_assoc in Heq.
    apply (f_equal head_kind) in Heq. change ("" +:+ ?x) with x in Heq.
    destruct Hl' as [Hw _]. rewrite json_write_head in Heq by done.
    by destruct w as [|[]| | | | | |].
  - destruct first; [|done]. rewrite !str_app_assoc in Heq.
    apply (f_equal head_kind) in Heq. change ("" +:+ ?x) with x in Heq.
    destruct Hl as [Hw _]. rewrite json_write_head in Heq by done.
    by destruct v as [|[]| | | | | |].
  - rewrite !str_app_assoc in Heq. apply (inj (String.append _)) in Heq.
    destruct Hl, Hl'. apply Hv in Heq as [-> Heq]; auto using write_items_delimited.
    apply IH in Heq as [-> ->]; auto.
Qed.

Lemma write_entries_inj l : Forall (λ e, write_inj e.2) l → ∀ first l' r r',
  forallb (λ e, is_str_key e.1 && supported e.2) l = true →
  forallb (λ e, is_str_key e.1 && supported e.2) l' = true →
  write_entries first l +:+ r = write_entries first l' +:+ r' → l = l' ∧ r = r'.
Proof.
  induction 1 as [|[k v] l Hv _ IH]; intros first [|[k' w] l'] r r' Hl Hl' Heq;
    cbn [write_entries forallb fst snd] in *; prop_of_bool.
  - by injection Heq.
  - by destruct first.
  - by destruct first.
  - rewrite !str_app_assoc in Heq. apply (inj (String.append _)) in Heq.
    apply json_string_split in Heq as [Hk Heq]. apply (inj (String.append _)) in Heq.
    destruct Hl as [[Hk1 ?] ?], Hl' as [[Hk1' ?] ?].
    apply Hv in Heq as [-> Heq]; auto using write_entries_delimited.
    apply IH in Heq as [-> ->]; auto. destruct k, k'; try done. cbn in Hk. by subst.
Qed.

Lemma json_write_inj v : write_inj v.
Proof.
  induction v as [|b|z|s| |l IH|l IH|t] using pyval_ind'; intros w r r' Hs Hw Hr Hr' Heq;
    pose proof (f_equal head_kind Heq) as Hk; rewrite !json_write_head in Hk by done;
    try done.
  - destruct w as [|[]| | | | | |]; try done. by injection Heq.
  - destruct b, w as [|[]| | | | | |]; try done; by injection Heq.
  - destruct w as [|[]| | | | | |]; try done. cbn [json_write] in Heq.
    apply (run_split is_numeric) in Heq as [Heq ->]; auto using pretty_Z_numeric.
    by apply (inj pretty) in Heq as ->.
  - destruct w as [|[]| | | | | |]; try done. by apply json_string_split in Heq as [-> ->].
  - destruct w as [|[]| | | | | |]; try done. rewrite !json_write_list, !str_app_assoc in Heq.
    apply (inj (String.append _)) in Heq. by eapply write_items_inj in Heq as [-> ->].
  - destruct w as [|[]| | | | | |]; try done. rewrite !json_write_dict, !str_app_assoc in Heq.
    apply (inj (String.append _)) in Heq. by eapply write_entries_inj in Heq as [-> ->].
Qed.

(** ** The canonical text determines the value *)

Lemma insert_entry_forallb p e l :
  forallb p (insert_entry e l) = p e && forallb p l.
Proof.
  induction l as [|f l IH]; [done|]. cbn [insert_entry]. destruct (String.leb _ _); [done|].
  cbn [forallb]. rewrite IH, !andb_assoc. f_equal. apply andb_comm.
Qed.

Lemma sort_keys_supported v : supported (sort_keys v) = supported v.
Proof.
  induction v as [| | | | |l IH|l IH|] using pyval_ind'; cbn [sort_keys supported]; try done.
  - induction IH as [|v l Hv _ IH]; [done|]. cbn [map forallb]. by rewrite Hv, IH.
  - induction IH as [|[k v] l Hv _ IH]; [done|].
    rewrite insert_entry_forallb, IH. cbn in *. by rewrite Hv.
Qed.

Lemma encode_inj s t : encode s = encode t → s = t.
Proof.
  revert t. induction s as [|c s IH]; intros [|d t] Heq; try done.
  injection Heq as Hc Heq. apply (f_equal Ascii.ascii_of_byte) in Hc.
  rewrite !Ascii.ascii_of_byte_of_ascii in Hc. by rewrite Hc, (IH t Heq).
Qed.

Lemma json_dumps_inj v w :
  supported v = true → supported w = true → json_dumps v = json_dumps w →
  sort_keys v = sort_keys w.
Proof.
  intros Hv Hw Heq. unfold json_dumps in Heq.
  apply (f_equal (λ s, s +:+ "")) in Heq.
  by apply json_write_inj in Heq as [? _]; rewrite ?sort_keys_supported.
Qed.

(** The documented behaviour of the [rfc8785] package on the values the program
    gives it: the text is the one of the sorted, compact JSON writer (ASCII keys
    sort the same in UTF-8 and in UTF-16); integers outside the I-JSON range are
    refused. *)
Class Rfc8785Law `{Externals} : Prop :=
  rfc8785_text : ∀ dumps v b, rfc8785 = Some dumps → dumps v = Ok b → b = encode (json_dumps v).

Section canonical.
Context `{!Externals} `{!Rfc8785Law}.

Lemma canonical_json_Ok v b :
  canonical_json v = Ok b → supported v = true ∧ b = encode (json_dumps v).
Proof.
  unfold canonical_json. intros Hb. apply bind_Ok in Hb as ([] & Hs & Hb).
  apply assert_supported_spec in Hs. split; [done|].
  destruct rfc8785 eqn:Hr; [by eapply rfc8785_text|congruence].
Qed.

Lemma canonical_json_inj v w b :
  canonical_json v = Ok b → canonical_json w = Ok b → sort_keys v = sort_keys w.
Proof.
  intros [Hv ->]%canonical_json_Ok [Hw Heq]%canonical_json_Ok.
  by apply json_dumps_inj, encode_inj.
Qed.

End canonical.

(** An instance to evaluate the program with: no [rfc8785] package, digests
    that keep their input, and a signature that is the key followed by the message. *)
Definition plain_externals : Externals := {|
  rfc8785 := None;
  sha256 := λ b, b;
  keccak := λ b, b;
  ed_public := λ k, k;
  ed_sign := λ k m, k ++ m;
  ed_verify := λ k m s, bool_decide (s = k ++ m);
  iso := λ t, pretty t;
|}.

(** Another, with digests of 32 bytes and signatures of 64. *)
Definition mix (b : bytes) : Z :=
  foldl (λ acc x, Z.land (acc * 257 + bz x + 1) 0xFFFFFFFFFFFF) 0 b.
Definition sized_externals : Externals := {|
  rfc8785 := None;
  sha256 := λ b, to_bytes_be 32 (mix b);
  keccak := λ b, to_bytes_be 32 (mix (b ++ [Byte.x01]));
  ed_public := λ k, k;
  ed_sign := λ k m, to_bytes_be 64 (mix (k ++ m));
  ed_verify := λ k m s, bool_decide (s = to_bytes_be 64 (mix (k ++ m)));
  iso := λ t, pretty t;
|}.

Lemma sized_rfc8785 : @Rfc8785Law sized_externals.
Proof. by intros ? ? ? ?. Qed.

Lemma plain_rfc8785 : @Rfc8785Law plain_externals.
Proof. by intros ? ? ? ?. Qed.

(** * Looking a key up is insensitive to the sorting *)

Fixpoint entry_of (k : string) (l : list (pykey * pyval)) : option pyval :=
  match l with
  | [] => None
  | (k', v) :: l => if bool_decide (key_text k' = k) then Some v else entry_of k l
  end.

(** [value[k]] *)
Definition field_of (k : string) (v : pyval) : option pyval :=
  match v with PDict l => entry_of k l | _ => None end.

Lemma entry_of_insert k e l :
  entry_of k (insert_entry e l) = if bool_decide (key_text e.1 = k) then Some e.2 else entry_of k l.
Proof.
  destruct e as [ke ve]. cbn [fst snd]. induction l as [|[kf vf] l IH]; [done|].
  cbn [insert_entry fst]. destruct (String.leb (key_text ke) (key_text kf)) eqn:Hle; [done|].
  cbn [entry_of]. rewrite IH. repeat case_bool_decide; try done. exfalso. subst.
  pose proof (reflexivity (R := String.le) (key_text ke)) as Hr. unfold String.le in Hr.
  replace (key_text kf) with (key_text ke) in Hle by done. by rewrite Hle in Hr.
Qed.

Lemma field_of_sort k l :
  field_of k (sort_keys (PDict l)) = sort_keys <$> entry_of k l.
Proof.
  cbn [sort_keys field_of]. induction l as [|[k' v] l IH]; [done|].
  rewrite entry_of_insert, IH. cbn [entry_of fst snd]. by case_bool_decide.
Qed.

(** Equal canonical dicts have equal entries. *)
Lemma sort_keys_entry k l l' :
  sort_keys (PDict l) = sort_keys (PDict l') →
  sort_keys <$> entry_of k l = sort_keys <$> entry_of k l'.
Proof. intros Heq. by rewrite <- !field_of_sort, Heq. Qed.

Lemma some_str a b : Some (PStr a) = Some (PStr b) → a = b.
Proof. congruence. Qed.
Lemma some_int a b : Some (PInt a) = Some (PInt b) → a = b.
Proof. congruence. Qed.

(** The entry [k] of two equal canonical dicts, as an equation between fields. *)
Ltac same_entry H k :=
  let Hk := fresh "Hk" in
  pose proof (sort_keys_entry k _ _ H) as Hk;
  cbn -[uuid_str String.append] in Hk; first [apply some_str in Hk|apply some_int in Hk].
