(* ===== verification/JsonFacts.v ===== *)
(** Facts of Json: the reader returns on every text, and reads what the writer wrote. *)
From Stdlib Require Import ZArith Lia Ascii String Sorted.
From stdpp Require Import base list strings pretty.
From S2P Require Import Prelude Bytes Float64 Canonical CanonicalFacts Json.

Open Scope Z_scope.

(** * Integers *)

Fixpoint digits_value (acc : Z) (s : string) : Z :=
  match s with EmptyString => acc | String c s => digits_value (acc * 10 + digit_value c) s end.

Lemma take_digits_run s acc count r :
  str_forallb is_digit s = true → stops is_digit r = true →
  take_digits acc count (s +:+ r) = (digits_value acc s, count + Z.of_nat (String.length s), r).
Proof.
  revert acc count. induction s as [|c s IH]; intros acc count Hs Hr.
  - change ("" +:+ r) with r. cbn. rewrite Z.add_0_r. destruct r as [|d r]; [done|].
    cbn in Hr |- *. by destruct (is_digit d).
  - cbn in Hs. prop_of_bool. destruct Hs as [Hc Hs]. change (String c s +:+ r) with (String c (s +:+ r)).
    cbn [take_digits String.length digits_value]. rewrite Hc, IH by done. f_equal. f_equal. lia.
Qed.

Lemma pretty_N_char_value x : (x < 10)%N → digit_value (pretty_N_char x) = Z.of_N x.
Proof.
  intros Hx.
  assert (x = 0 ∨ x = 1 ∨ x = 2 ∨ x = 3 ∨ x = 4 ∨ x = 5 ∨ x = 6 ∨ x = 7 ∨ x = 8 ∨ x = 9)%N as Hd by lia.
  by repeat destruct Hd as [->|Hd]; [..|rewrite Hd].
Qed.

Lemma pretty_N_go_value x s : digits_value 0 (pretty_N_go x s) = digits_value (Z.of_N x) s.
Proof.
  revert s. induction (N.lt_wf_0 x) as [x _ IH]; intros s. destruct (decide (0 < x)%N) as [Hx|Hx].
  - rewrite pretty_N_go_step by done. rewrite IH by (by apply N.div_lt). cbn [digits_value].
    rewrite pretty_N_char_value by (by apply N.mod_lt). f_equal.
    rewrite (N.div_mod x 10) at 3 by done. lia.
  - replace x with 0%N by lia. by rewrite pretty_N_go_0.
Qed.

Lemma pretty_N_value (x : N) : digits_value 0 (pretty x) = Z.of_N x.
Proof. unfold pretty, pretty_N. case_decide as H; [by rewrite H|]. apply pretty_N_go_value. Qed.

(** No number but zero is written with a leading zero. *)
Lemma pretty_N_go_head x s :
  (0 < x)%N → ∃ c t, pretty_N_go x s = String c t ∧ c ≠ "0"%char.
Proof.
  revert s. induction (N.lt_wf_0 x) as [x _ IH]; intros s Hx. rewrite pretty_N_go_step by done.
  destruct (decide (0 < x `div` 10)%N) as [Hd|Hd]; [by apply IH; [apply N.div_lt|]|].
  assert (x `div` 10 = 0)%N as Hz by (by apply N.le_0_r, N.nlt_ge).
  assert (x < 10)%N as Hlt by (by apply N.div_small_iff).
  rewrite Hz, pretty_N_go_0, N.mod_small by done. eexists _, _. split; [done|].
  intros Hc. apply (f_equal digit_value) in Hc. rewrite pretty_N_char_value in Hc by done.
  change (digit_value "0") with 0 in Hc. lia.
Qed.

(** What ends a number: nothing, a separator or a closing bracket. *)
Definition closed (r : string) : bool :=
  match r with EmptyString => true | String c _ => is_in c [","; "]"; "}"]%char end.

Lemma closed_stops r : closed r = true → stops is_digit r = true.
Proof.
  destruct r as [|c r]; [done|]. unfold closed. intros Hc%is_in_true. cbn.
  by repeat (apply elem_of_cons in Hc as [->|Hc]; [done|]); apply elem_of_nil in Hc.
Qed.

Lemma read_tail_closed neg n r : closed r = true → read_tail neg n r = (PInt (signed neg n), r).
Proof.
  destruct r as [|c r]; [done|]. unfold closed. intros Hc%is_in_true.
  by repeat (apply elem_of_cons in Hc as [->|Hc]; [done|]); apply elem_of_nil in Hc.
Qed.

Lemma read_number_pretty z r : closed r = true → read_number (pretty z +:+ r) = Some (PInt z, r).
Proof.
  intros Hr. pose proof (closed_stops r Hr) as Hst.
  assert (∀ neg p, match pretty (N.pos p) +:+ r with
      | String c t => if bool_decide (c = "0"%char) then Some (read_tail neg 0 t)
          else if is_digit c then let '(n, _, r) := take_digits 0 0 (pretty (N.pos p) +:+ r) in Some (read_tail neg n r)
          else None
      | EmptyString => None
      end = Some (PInt (signed neg (Z.pos p)), r)) as Hpos.
  { intros neg p. rewrite take_digits_run by (done || apply pretty_N_digits). rewrite pretty_N_value.
    rewrite read_tail_closed by done. pose proof (pretty_N_digits (N.pos p)) as Hd.
    assert (∃ c t, pretty (N.pos p) = String c t ∧ c ≠ "0"%char) as (c & t & Hc & Hne).
    { unfold pretty, pretty_N. rewrite decide_False by done. by apply pretty_N_go_head. }
    rewrite Hc in Hd |- *. cbn in Hd. prop_of_bool. destruct Hd as [Hd _].
    change (String c t +:+ r) with (String c (t +:+ r)). cbv beta iota. rewrite bool_decide_false by done.
    by rewrite Hd. }
  destruct z as [|p|p].
  - change (pretty 0 +:+ r) with (String "0" r). unfold read_number. cbn [bool_decide].
    by rewrite bool_decide_true, read_tail_closed by done.
  - specialize (Hpos false p). change (pretty (Z.pos p)) with (pretty (N.pos p)).
    unfold read_number. destruct (pretty (N.pos p) +:+ r) as [|c t] eqn:Hc; [done|].
    destruct (decide (c = "-"%char)) as [->|Hne]; [by cbn in Hpos|].
    change (PInt (Z.pos p)) with (PInt (signed false (Z.pos p))). rewrite <- Hpos. destruct c as [[] [] [] [] [] [] [] []]; done || reflexivity.
  - exact (Hpos true p).
Qed.

(** * Strings *)

Lemma read_escape c r : read_string (json_escape c +:+ r) = cons_read c (read_string r).
Proof. destruct c as [[] [] [] [] [] [] [] []]; reflexivity. Qed.

Lemma read_escape_all s r : read_string (json_escape_all s +:+ dquote +:+ r) = Ok (s, r).
Proof.
  induction s as [|c s IH]; [done|]. cbn [json_escape_all]. rewrite str_app_assoc, read_escape, IH. done.
Qed.

(** * Values *)

(** The fuel a value needs. *)
Fixpoint value_fuel (v : pyval) : nat :=
  match v with
  | PList l => S (foldr (λ v n, S (value_fuel v + n)) 0 l)
  | PDict l => S (foldr (λ e n, S (value_fuel e.2 + n)) 0 l)
  | _ => 1
  end%nat.

(** The keys of every dict are distinct. *)
Fixpoint distinct_keys (v : pyval) : Prop :=
  match v with
  | PList l => foldr (λ v P, distinct_keys v ∧ P) True l
  | PDict l => NoDup (map (λ e, key_text e.1) l) ∧ foldr (λ e P, distinct_keys e.2 ∧ P) True l
  | _ => True
  end.

Definition reads_back (v : pyval) : Prop := ∀ fuel r,
  supported v = true → distinct_keys v → closed r = true → (value_fuel v ≤ fuel)%nat →
  read_value fuel (json_write v +:+ r) = Ok (v, r).

Lemma skip_space_value v r : supported v = true → skip_space (json_write v +:+ r) = json_write v +:+ r.
Proof.
  destruct v as [|[]|z| | |l|l|]; try done; intros _. cbn [json_write].
  pose proof (pretty_Z_numeric z) as Hz. pose proof (pretty_Z_nonempty z) as Hn.
  destruct (pretty z) as [|c t]; [done|]. change (String c t +:+ r) with (String c (t +:+ r)). cbn in Hz.
  prop_of_bool. destruct Hz as [Hz _]. destruct c as [[] [] [] [] [] [] [] []]; try done; reflexivity.
Qed.

Definition items_fuel (l : list pyval) : nat := foldr (λ v n, S (value_fuel v + n)) 0%nat l.
Definition entries_fuel (l : list (pykey * pyval)) : nat := foldr (λ e n, S (value_fuel e.2 + n)) 0%nat l.

Lemma read_items_back l : Forall reads_back l → ∀ v fuel r,
  reads_back v → supported v = true → forallb supported l = true →
  distinct_keys v → foldr (λ v P, distinct_keys v ∧ P) True l → (S (value_fuel v + items_fuel l) ≤ fuel)%nat →
  read_items fuel (json_write v +:+ write_items false l +:+ r) = Ok (v :: l, r).
Proof.
  induction 1 as [|w l Hw Hl IH]; intros v fuel r Hv Hs Hsl Hd Hdl Hf; (destruct fuel as [|fuel]; [lia|]);
    cbn [read_items].
  - rewrite Hv by (done || cbn in Hf; lia). reflexivity.
  - cbn [forallb foldr items_fuel] in *. prop_of_bool. destruct Hsl as [Hsw Hsl], Hdl as [Hdw Hdl].
    rewrite Hv by (done || cbn in Hf; lia). cbn [mbind result_bind]. cbv zeta. cbn [write_items].
    rewrite !str_app_assoc. change (skip_space ("," +:+ ?x)) with ("," +:+ x).
    change (opens "]" ("," +:+ ?x)) with (@None string). change (opens "," ("," +:+ ?x)) with (Some x).
    cbv beta iota. rewrite skip_space_value by done. rewrite IH by (done || unfold items_fuel in *; lia). done.
Qed.

Lemma read_pairs_back l : Forall (λ e, reads_back e.2) l → ∀ k v fuel r,
  reads_back v → supported v = true → forallb (λ e, is_str_key e.1 && supported e.2) l = true →
  distinct_keys v → foldr (λ e P, distinct_keys e.2 ∧ P) True l → (S (value_fuel v + entries_fuel l) ≤ fuel)%nat →
  read_pairs fuel (json_string k +:+ ":" +:+ json_write v +:+ write_entries false l +:+ r) = Ok ((KStr k, v) :: l, r).
Proof.
  induction 1 as [|[k' w] l Hw Hl IH]; intros k v fuel r Hv Hs Hsl Hd Hdl Hf; (destruct fuel as [|fuel]; [lia|]);
    cbn [read_pairs]; unfold json_string; rewrite !str_app_assoc;
    change (opens (ascii_of_nat 34) (dquote +:+ ?x)) with (Some x); cbn [or_raise mbind result_bind];
    rewrite read_escape_all; cbn [mbind result_bind]; change (skip_space (":" +:+ ?x)) with (":" +:+ x);
    change (opens ":" (":" +:+ ?x)) with (Some x); cbn [or_raise mbind result_bind]; rewrite skip_space_value by done.
  - rewrite Hv by (done || cbn in Hf; lia). reflexivity.
  - cbn [forallb foldr entries_fuel fst snd] in *. prop_of_bool. destruct Hsl as [[Hk Hsw] Hsl], Hdl as [Hdw Hdl].
    rewrite Hv by (done || cbn in Hf; lia). cbn [mbind result_bind]. cbv zeta. cbn [write_entries].
    rewrite !str_app_assoc. change (skip_space ("," +:+ ?x)) with ("," +:+ x).
    change (opens "}" ("," +:+ ?x)) with (@None string). change (opens "," ("," +:+ ?x)) with (Some x).
    cbv beta iota. change (skip_space (json_string ?k +:+ ?x)) with (json_string k +:+ x).
    rewrite IH by (done || unfold entries_fuel in *; lia). by destruct k'.
Qed.

Lemma dict_put_new k v d : key_text k ∉ map (λ e, key_text e.1) d → dict_put k v d = d ++ [(k, v)].
Proof.
  induction d as [|e d IH]; cbn [map dict_put]; [done|]. rewrite not_elem_of_cons. intros [Hne Hd].
  rewrite bool_decide_false by auto. by rewrite IH.
Qed.

Lemma dict_of_distinct l : NoDup (map (λ e, key_text e.1) l) → dict_of l = l.
Proof.
  unfold dict_of. change l with ([] ++ l) at 1 3. generalize (@nil (pykey * pyval)) as d.
  induction l as [|[k v] l IH]; intros d Hn; cbn [foldl fst snd]; [by rewrite app_nil_r|].
  rewrite dict_put_new.
  - rewrite IH, <- app_assoc; [done|]. by rewrite <- app_assoc.
  - rewrite map_app in Hn. apply NoDup_app in Hn as (_ & Hdis & _). intros Hin. apply (Hdis _ Hin). cbn. left.
Qed.

(** A text that starts like a number is read as one. *)
Lemma read_value_number fuel c d t :
  (is_digit c = true → read_value (S fuel) (String c t) = or_raise (read_number (String c t)) expecting)
  ∧ (is_digit d = true →
      read_value (S fuel) (String "-" (String d t)) = or_raise (read_number (String "-" (String d t))) expecting).
Proof.
  split; intros Hc; [destruct c as [[] [] [] [] [] [] [] []]|destruct d as [[] [] [] [] [] [] [] []]]; try done; reflexivity.
Qed.

Lemma read_value_pretty fuel z r :
  closed r = true → read_value (S fuel) (pretty z +:+ r) = Ok (PInt z, r).
Proof.
  intros Hr. pose proof (read_number_pretty z r Hr) as Hn.
  assert (∀ p, ∃ c t, pretty (N.pos p) +:+ r = String c t ∧ is_digit c = true) as Hhead.
  { intros p. pose proof (pretty_N_digits (N.pos p)) as Hd. pose proof (pretty_N_nonempty (N.pos p)) as Hne.
    destruct (pretty (N.pos p)) as [|c t]; [done|]. cbn in Hd. prop_of_bool.
    destruct Hd as [Hd _]. by exists c, (t +:+ r). }
  destruct z as [|p|p].
  - destruct (read_value_number fuel "0" "0" r) as [Hv _]. change (pretty 0 +:+ r) with (String "0" r) in Hn |- *.
    rewrite Hv by done. by rewrite Hn.
  - change (pretty (Z.pos p)) with (pretty (N.pos p)) in Hn |- *. destruct (Hhead p) as (c & t & He & Hc).
    rewrite He in Hn |- *. destruct (read_value_number fuel c c t) as [Hv _]. rewrite Hv by done. by rewrite Hn.
  - change (pretty (Z.neg p) +:+ r) with (String "-" (pretty (N.pos p) +:+ r)) in Hn |- *.
    destruct (Hhead p) as (c & t & He & Hc). rewrite He in Hn |- *.
    destruct (read_value_number fuel c c t) as [_ Hv]. rewrite Hv by done. by rewrite Hn.
Qed.

Lemma opens_value v r : supported v = true → opens "]" (json_write v +:+ r) = None.
Proof.
  destruct v as [|[]|z| | |l|l|]; try done; intros _. cbn [json_write].
  pose proof (pretty_Z_numeric z) as Hz. pose proof (pretty_Z_nonempty z) as Hn.
  destruct (pretty z) as [|c t]; [done|]. change (String c t +:+ r) with (String c (t +:+ r)). cbn in Hz.
  prop_of_bool. destruct Hz as [Hz _]. destruct c as [[] [] [] [] [] [] [] []]; try done; reflexivity.
Qed.

Lemma value_reads_back v : reads_back v.
Proof.
  induction v as [|b|z|s|x|l IH|l IH|t] using pyval_ind'; intros fuel r Hs Hd Hr Hf;
    (destruct fuel as [|fuel]; [cbn in Hf; lia|]); try done.
  - by destruct b.
  - by apply read_value_pretty.
  - cbn [read_value json_write]. unfold json_string. rewrite !str_app_assoc.
    change (dquote +:+ ?x) with (String (ascii_of_nat 34) x) at 1. cbn [Nat.eqb].
    by rewrite read_escape_all.
  - rewrite json_write_list, str_app_assoc. destruct l as [|v l]; [done|].
    apply Forall_cons in IH as [Hv IH]. cbn [supported forallb distinct_keys foldr value_fuel] in *. prop_of_bool.
    destruct Hs as [Hsv Hsl], Hd as [Hdv Hdl].
    cbn [write_items]. change ("" +:+ ?x) with x. rewrite !str_app_assoc.
    change ("[" +:+ ?x) with (String "[" x). cbn [read_value].
    rewrite bool_decide_false, bool_decide_true, skip_space_value, opens_value by done.
    rewrite read_items_back by (done || unfold items_fuel; lia). done.
  - rewrite json_write_dict, str_app_assoc. destruct l as [|[k v] l]; [done|].
    apply Forall_cons in IH as [Hv IH]. cbn [supported forallb distinct_keys foldr value_fuel fst snd] in *. prop_of_bool.
    destruct Hs as [[Hk Hsv] Hsl], Hd as [Hn [Hdv Hdl]].
    cbn [write_entries]. change ("" +:+ ?x) with x. rewrite !str_app_assoc.
    change ("{" +:+ ?x) with (String "{" x). cbn [read_value].
    rewrite bool_decide_true by done. change (skip_space (json_string ?k +:+ ?x)) with (json_string k +:+ x).
    change (opens "}" (json_string ?k +:+ ?x)) with (@None string).
    rewrite read_pairs_back by (done || unfold entries_fuel; lia). cbn [mbind result_bind].
    destruct k as [k|]; [|done]. by rewrite dict_of_distinct.
Qed.

(** ** Fuel *)

Lemma fuel_length v : supported v = true → (value_fuel v ≤ 2 * String.length (json_write v))%nat.
Proof.
  induction v as [|b|z|s|x|l IH|l IH|t] using pyval_ind'; intros Hs; try done.
  - cbn. lia.
  - destruct b; cbn; lia.
  - cbn [value_fuel json_write]. pose proof (pretty_Z_nonempty z). destruct (pretty z); [done|]. cbn. lia.
  - cbn [value_fuel json_write]. unfold json_string. rewrite str_length_app. cbn. lia.
  - rewrite json_write_list. cbn [supported value_fuel] in *. change (String.length ("[" +:+ ?x)) with (S (String.length x)).
    enough (∀ first : bool, (foldr (λ v n, S (value_fuel v + n)) 0 l + (if first then 1 else 2)
      ≤ 2 * String.length (write_items first l))%nat) as Hl by (specialize (Hl true); cbv iota in Hl; lia).
    induction IH as [|v l Hv _ IH]; intros first; [destruct first; cbn; lia|].
    cbn [forallb foldr write_items] in *. prop_of_bool. destruct Hs as [Hsv Hsl]. specialize (Hv Hsv).
    specialize (IH Hsl false). rewrite !str_length_app. destruct first; cbv iota in IH |- *; cbn [String.length]; lia.
  - rewrite json_write_dict. cbn [supported value_fuel] in *. change (String.length ("{" +:+ ?x)) with (S (String.length x)).
    enough (∀ first : bool, (foldr (λ e n, S (value_fuel e.2 + n)) 0 l + (if first then 1 else 2)
      ≤ 2 * String.length (write_entries first l))%nat) as Hl by (specialize (Hl true); cbv iota in Hl; lia).
    induction IH as [|[k v] l Hv _ IH]; intros first; [destruct first; cbn; lia|].
    cbn [forallb foldr write_entries fst snd] in *. prop_of_bool. destruct Hs as [[_ Hsv] Hsl]. specialize (Hv Hsv).
    specialize (IH Hsl false). rewrite !str_length_app. destruct first; cbv iota in IH |- *; cbn [String.length]; lia.
Qed.

Lemma json_loads_write v :
  supported v = true → distinct_keys v → json_loads (json_write v) = Ok v.
Proof.
  intros Hs Hd. unfold json_loads. pose proof (skip_space_value v "" Hs) as Hsp. rewrite str_app_nil in Hsp.
  rewrite Hsp. rewrite <- (str_app_nil (json_write v)) at 2. rewrite value_reads_back; try done.
  pose proof (fuel_length v Hs). lia.
Qed.

(** ** Sorted documents *)

Lemma insert_entry_perm e l : insert_entry e l ≡ₚ e :: l.
Proof.
  induction l as [|f l IH]; cbn [insert_entry]; [done|]. destruct (String.leb _ _); [done|].
  rewrite IH. apply Permutation_swap.
Qed.

Definition sorted_entries (l : list (pykey * pyval)) : list (pykey * pyval) :=
  foldr (λ e acc, insert_entry (e.1, sort_keys e.2) acc) [] l.

Lemma sort_keys_dict l : sort_keys (PDict l) = PDict (sorted_entries l).
Proof.
  cbn [sort_keys]. f_equal. induction l as [|[k v] l IH]; [done|]. cbn [sorted_entries foldr fst snd].
  unfold sorted_entries in IH. by rewrite <- IH.
Qed.

Lemma sorted_entries_perm l : sorted_entries l ≡ₚ map (λ e, (e.1, sort_keys e.2)) l.
Proof. induction l as [|e l IH]; cbn; [done|]. by rewrite insert_entry_perm, IH. Qed.

Lemma foldr_and {A} (P : A → Prop) l : foldr (λ x Q, P x ∧ Q) True l ↔ Forall P l.
Proof. induction l as [|x l IH]; cbn; [split; auto|]. by rewrite IH, Forall_cons. Qed.

Lemma sort_keys_distinct v : distinct_keys v → distinct_keys (sort_keys v).
Proof.
  induction v as [| | | | |l IH|l IH|] using pyval_ind'; try done.
  - cbn [sort_keys distinct_keys]. rewrite !(foldr_and distinct_keys). intros Hl. apply Forall_map.
    rewrite Forall_forall in IH, Hl |- *. intros v Hv. cbn. auto.
  - rewrite sort_keys_dict. cbn [distinct_keys]. rewrite !(foldr_and (λ e, distinct_keys e.2)). intros [Hn Hl].
    rewrite sorted_entries_perm, map_map. split; [done|]. apply Forall_map.
    rewrite Forall_forall in IH, Hl |- *. intros v Hv. cbn. auto.
Qed.

Lemma json_loads_dumps v :
  supported v = true → distinct_keys v → json_loads (json_dumps v) = Ok (sort_keys v).
Proof.
  intros Hs Hd. unfold json_dumps. apply json_loads_write; [by rewrite sort_keys_supported|by apply sort_keys_distinct].
Qed.

(** Sorting the keys again changes nothing. *)
Definition entry_le (e f : pykey * pyval) : Prop := String.leb (key_text e.1) (key_text f.1) = true.

Lemma insert_entry_sorted e l : Sorted entry_le l → Sorted entry_le (insert_entry e l).
Proof.
  induction 1 as [|f l Hl IH Hf]; cbn [insert_entry]; [by repeat constructor|].
  destruct (String.leb (key_text e.1) (key_text f.1)) eqn:He; [by repeat constructor|]. constructor; [done|].
  assert (entry_le f e) by (unfold entry_le; destruct (String.leb_total (key_text e.1) (key_text f.1)); congruence).
  destruct l as [|g l]; cbn; [by constructor|]. destruct (String.leb (key_text e.1) (key_text g.1)); constructor; [done|by inversion Hf].
Qed.

Lemma sorted_entries_sorted l : Sorted entry_le (sorted_entries l).
Proof. induction l; cbn; [constructor|by apply insert_entry_sorted]. Qed.

Lemma sorted_entries_id l :
  Sorted entry_le l → Forall (λ e, sort_keys e.2 = e.2) l → sorted_entries l = l.
Proof.
  induction 1 as [|[k v] l Hl IH Hf]; intros Hs; [done|]. apply Forall_cons in Hs as [Hv Hs]. cbn in Hv |- *.
  unfold sorted_entries in IH. rewrite (IH Hs), Hv. destruct l as [|f l]; [done|]. cbn.
  inversion Hf as [|? ? Hle]. unfold entry_le in Hle. cbn in Hle. by rewrite Hle.
Qed.

Lemma sort_keys_idemp v : sort_keys (sort_keys v) = sort_keys v.
Proof.
  induction v as [| | | | |l IH|l IH|] using pyval_ind'; try done.
  - cbn [sort_keys]. rewrite map_map. f_equal. apply map_ext_Forall. done.
  - rewrite !sort_keys_dict. f_equal. apply sorted_entries_id; [apply sorted_entries_sorted|].
    rewrite sorted_entries_perm. by apply Forall_map.
Qed.

(** * The reader always returns *)

(** A result that is not for want of fuel and leaves less than [n] characters. *)
Definition leaves {A} (n : nat) (x : result (A * string)) : Prop :=
  match x with Ok (_, r) => (String.length r < n)%nat | Err e => e ≠ OutOfFuel end.

Lemma leaves_bind {A B} n m (x : result (A * string)) (f : A * string → result (B * string)) :
  leaves n x → (∀ a r, (String.length r < n)%nat → leaves m (f (a, r))) → leaves m (x ≫= f).
Proof. destruct x as [[a r]|e]; cbn; auto. Qed.

Lemma skip_space_length s : (String.length (skip_space s) ≤ String.length s)%nat.
Proof. induction s as [|c s IH]; cbn; [done|]. destruct (json_space c); cbn; lia. Qed.

Lemma take_digits_length acc count s : (String.length (take_digits acc count s).2 ≤ String.length s)%nat.
Proof.
  revert acc count. induction s as [|c s IH]; intros acc count; cbn [take_digits]; [done|].
  destruct (is_digit c); [|done]. etrans; [apply IH|cbn; lia].
Qed.

Lemma read_fraction_length n s : (String.length (read_fraction n s).2 ≤ String.length s)%nat.
Proof.
  destruct s as [|c s]; [done|]. pose proof (take_digits_length n 0 s) as Ht.
  destruct c as [[] [] [] [] [] [] [] []]; try done. unfold read_fraction.
  destruct (take_digits n 0 s) as [[m k] r]. cbn in Ht. destruct (k =? 0); cbn; lia.
Qed.

Lemma read_exponent_length s : (String.length (read_exponent s).2 ≤ String.length s)%nat.
Proof.
  destruct s as [|c s]; [done|]. unfold read_exponent. destruct (_ || _); [|done].
  set (x := match s with String "-" t => _ | _ => _ end).
  assert (String.length x.2 ≤ String.length s)%nat as Hx.
  { unfold x. destruct s as [|d s]; [done|]. destruct d as [[] [] [] [] [] [] [] []]; cbn; lia. }
  destruct x as [neg t]. cbn in Hx. pose proof (take_digits_length 0 0 t) as Ht.
  destruct (take_digits 0 0 t) as [[e k] r]. cbn in Ht. destruct (k =? 0); cbn; lia.
Qed.

Lemma read_tail_length neg n s : (String.length (read_tail neg n s).2 ≤ String.length s)%nat.
Proof.
  unfold read_tail. pose proof (read_fraction_length n s) as H1. destruct (read_fraction n s) as [[m k] r].
  cbn in H1. pose proof (read_exponent_length r) as H2. destruct (read_exponent r) as [[e|] r']; cbn in H2 |- *; [lia|].
  destruct (k =? 0); cbn; lia.
Qed.

Lemma read_number_length s v r : read_number s = Some (v, r) → (String.length r < String.length s)%nat.
Proof.
  unfold read_number. set (x := match s with String "-" t => _ | _ => _ end).
  assert (String.length x.2 ≤ String.length s)%nat as Hx.
  { unfold x. destruct s as [|d s]; [done|]. destruct d as [[] [] [] [] [] [] [] []]; cbn; lia. }
  destruct x as [neg t]. cbn in Hx. destruct t as [|c t]; [done|].
  destruct (bool_decide _).
  - intros [= Ht]. pose proof (read_tail_length neg 0 t) as Hl. rewrite Ht in Hl. cbn in Hl, Hx. lia.
  - cbn [take_digits]. destruct (is_digit c); [|done].
    pose proof (take_digits_length (0 * 10 + digit_value c) (0 + 1) t) as Hd.
    destruct (take_digits _ _ t) as [[n k] u]. cbn in Hd. intros [= Ht].
    pose proof (read_tail_length neg n u) as Hl. rewrite Ht in Hl. cbn in Hl, Hx. lia.
Qed.

Lemma read_string_leaves s : leaves (S (String.length s)) (read_string s).
Proof.
  assert (∀ n s, (String.length s < n)%nat → leaves (S (String.length s)) (read_string s)) as Hn.
  { induction n as [|n IH]; intros t Ht; [lia|]. destruct t as [|c t]; [done|]. cbn [read_string].
    assert (∀ d u, (String.length u < S (String.length t))%nat →
      leaves (S (String.length (String c t))) (cons_read d (read_string u))) as Hc.
    { intros d u Hu. unfold cons_read. eapply leaves_bind; [apply IH; cbn in Ht; lia|]. intros a r Hr. cbn. lia. }
    destruct (Nat.eqb _ 34); [cbn; lia|]. destruct (Nat.eqb _ 92).
    - destruct t as [|e t]; [done|]. destruct (bool_decide _).
      + destruct t as [|x [|y [|z [|w t]]]]; try done. destruct (hex4 x y z w) as [code|]; [|done].
        destruct (code <? 128); [|done]. apply Hc. cbn. lia.
      + destruct (escaped e); [|done]. apply Hc. cbn. lia.
    - destruct (Nat.ltb _ 32); [done|]. apply Hc. lia. }
  apply (Hn (S (String.length s))). lia.
Qed.

Lemma strip_prefix_length p s r : strip_prefix p s = Some r → (String.length s = String.length p + String.length r)%nat.
Proof.
  revert s. induction p as [|c p IH]; intros [|d s]; cbn; try (by intros [= <-]).
  destruct (bool_decide _); [|done]. intros ->%IH. done.
Qed.

Lemma read_literal_length s v r : read_literal literals s = Some (v, r) → (String.length r < String.length s)%nat.
Proof.
  unfold literals. cbn [read_literal].
  repeat (destruct (strip_prefix _ s) eqn:Hp; [apply strip_prefix_length in Hp; intros [= _ <-]; cbn in Hp; lia|clear Hp]).
  done.
Qed.

Lemma opens_length c s r : opens c s = Some r → String.length s = S (String.length r).
Proof. destruct s as [|d s]; cbn; [done|]. destruct (bool_decide _); [|done]. by intros [= ->]. Qed.

(** Two units of fuel per character, and one or two more, are enough. *)
Lemma read_leaves fuel s :
  ((2 * String.length s < fuel)%nat → leaves (String.length s) (read_value fuel s))
  ∧ ((2 * String.length s + 1 < fuel)%nat → leaves (String.length s) (read_items fuel s)
      ∧ leaves (String.length s) (read_pairs fuel s)).
Proof.
  revert s. induction fuel as [|fuel IH]; intros s; [lia|]. split; [|split].
  - intros Hf. destruct s as [|c s]; [done|]. cbn [read_value String.length] in *.
    pose proof (skip_space_length s) as Hsp. destruct (Nat.eqb _ 34).
    { eapply leaves_bind; [apply read_string_leaves|]. intros a r Hr. cbn. lia. }
    destruct (bool_decide _).
    { destruct (opens "}" _) as [r|] eqn:Ho; [apply opens_length in Ho; cbn; lia|].
      eapply leaves_bind; [apply IH; lia|]. intros a r Hr. cbn. lia. }
    destruct (bool_decide _).
    { destruct (opens "]" _) as [r|] eqn:Ho; [apply opens_length in Ho; cbn; lia|].
      eapply leaves_bind; [apply IH; lia|]. intros a r Hr. cbn. lia. }
    destruct (read_literal _ _) as [[v r]|] eqn:Hl; [by apply read_literal_length in Hl|].
    destruct (read_number _) as [[v r]|] eqn:Hn; [by apply read_number_length in Hn|done].
  - cbn [read_items]. eapply leaves_bind; [apply IH; lia|]. intros v r Hr. cbv zeta.
    pose proof (skip_space_length r) as Hsp.
    destruct (opens "]" _) as [u|] eqn:Ho; [apply opens_length in Ho; cbn; lia|].
    destruct (opens "," _) as [u|] eqn:Hc; [|done]. apply opens_length in Hc. pose proof (skip_space_length u).
    eapply leaves_bind; [apply IH; lia|]. intros l u' Hu. cbn. lia.
  - cbn [read_pairs]. destruct (opens _ s) as [t|] eqn:Ho; [|done]. apply opens_length in Ho. cbn [or_raise mbind result_bind].
    change (leaves (String.length s) (read_string t ≫= (λ x, let '(k, r) := x in
      r ← or_raise (opens ":" (skip_space r)) (ValueError "Expecting ':' delimiter");
      '(v, r) ← read_value fuel (skip_space r);
      let r := skip_space r in
      match opens "}" r, opens "," r with
      | Some r, _ => Ok ([(KStr k, v)], r)
      | None, Some r => '(l, r) ← read_pairs fuel (skip_space r); Ok ((KStr k, v) :: l, r)
      | None, None => Err (ValueError "Expecting ',' delimiter")
      end))).
    eapply leaves_bind; [apply read_string_leaves|]. intros k r Hr. pose proof (skip_space_length r).
    destruct (opens ":" _) as [u|] eqn:Hc; [|done]. apply opens_length in Hc. cbn [or_raise mbind result_bind].
    pose proof (skip_space_length u).
    apply (leaves_bind (String.length (skip_space u)) _ (read_value fuel (skip_space u))); [apply IH; lia|].
    intros v u' Hu. cbv zeta. pose proof (skip_space_length u').
    destruct (opens "}" _) as [x|] eqn:Ho'; [apply opens_length in Ho'; cbn; lia|].
    destruct (opens "," _) as [x|] eqn:Hc'; [|done]. apply opens_length in Hc'. pose proof (skip_space_length x).
    eapply leaves_bind; [apply IH; lia|]. intros l x' Hx. cbn. lia.
Qed.

Lemma json_loads_total s : json_loads s ≠ Err OutOfFuel.
Proof.
  unfold json_loads. pose proof (skip_space_length s). destruct (read_leaves (2 + 2 * String.length s) (skip_space s)) as [Hv _].
  specialize (Hv ltac:(lia)). destruct (read_value _ _) as [[v r]|e]; cbn in Hv |- *; [|congruence].
  by destruct (str_truthy _).
Qed.

Lemma decode_encode t : decode (encode t) = t.
Proof.
  unfold decode. induction t as [|c t IH]; [done|]. cbn. by rewrite Ascii.ascii_of_byte_of_ascii, IH.
Qed.

(** C33: canonical bytes are read back.  What [canonical_json] writes for a value whose dicts have
    distinct keys, whichever of the two writers is installed, [json.loads] reads as that value with
    its keys sorted, the value is one the check supports (no float, no other key than a string), and
    what was read is written to the same bytes; the reader returns on every text whatever. *)
Theorem canonical_json_read_back `{!Externals} `{!Rfc8785Law} v b :
  canonical_json v = Ok b → distinct_keys v →
  json_loads (decode b) = Ok (sort_keys v) ∧ supported v = true ∧ encode (json_dumps (sort_keys v)) = b
  ∧ ∀ text, json_loads text ≠ Err OutOfFuel.
Proof.
  intros [Hs ->]%canonical_json_Ok Hd. rewrite decode_encode.
  split_and!; [by apply json_loads_dumps|done|unfold json_dumps; by rewrite sort_keys_idemp|apply json_loads_total].
Qed.

Lemma canonical_json_read_back_witness :
  let v := PDict [(KStr "b", PInt 1); (KStr "a", PList [PNone; PBool true])] in
  ∃ b, json_loads (decode b) = Ok (PDict [(KStr "a", PList [PNone; PBool true]); (KStr "b", PInt 1)])
    ∧ supported v = true.
Proof.
  intros v. exists (encode (json_dumps v)).
  destruct (@canonical_json_read_back plain_externals plain_rfc8785 v (encode (json_dumps v))) as (Hr & Hs & _).
  - vm_compute. reflexivity.
  - split; [|done]. apply (bool_decide_unpack _). vm_compute. exact I.
  - exact (conj Hr Hs).
Defined.
