(* ===== verification/Contracts.v ===== *)
(** Keys and the versioned contracts
    (src/agentguard-testbed/src/agentwallet/chain/crypto.py and
    src/agentguard-testbed/src/aegisledger/contracts.py): Ed25519 identities, the string
    formats, proposals, decision tokens, signed transactions, their validators
    and canonical payloads, and the lifecycle state machine.

    A model class is a record whose fields have the class's Python types (an
    aware [datetime] is its instant in microseconds, a [uuid.UUID] its 128-bit
    integer); [<Model>_validate] is what constructing an instance does: the field
    patterns and ranges, the normalizing validators and the model validator.
    pydantic collects the failures into one [ValidationError]. *)
From Stdlib Require Import ZArith Lia Ascii String.
From Stdlib Require Strings.Byte.
From stdpp Require Import base list strings pretty.
From S2P Require Import Prelude Bytes Canonical.

Open Scope Z_scope.

(** * Keys (agentwallet/chain/crypto.py) *)

(** [s[-n:]] *)
Definition str_last (n : nat) (s : string) : string :=
  String.substring (String.length s - n) n s.

Section crypto.
Context `{!Externals}.

Definition sha256_hex (data : bytes) : string := hex (sha256 data).

Definition _seed_bytes (seed : string) : bytes :=
  sha256 (encode ("agentwallet-seed::" +:+ seed)).

(** A public key is its 32 raw bytes. *)
Definition address_of (pub : bytes) : string := "0x" +:+ str_last 40 (hex (sha256 pub)).

Record KeyPair := { kp_priv : bytes; kp_pub : bytes; kp_address : string }.

Definition KeyPair_from_seed (seed : string) : KeyPair :=
  let priv := _seed_bytes seed in
  let pub := ed_public priv in
  {| kp_priv := priv; kp_pub := pub; kp_address := address_of pub |}.

Definition KeyPair_sign (k : KeyPair) (msg : bytes) : bytes := ed_sign (kp_priv k) msg.

Definition verify (pub msg sig : bytes) : bool := ed_verify pub msg sig.

Definition verify_with_address (address : string) (msg sig pub : bytes) : bool :=
  if bool_decide (address_of pub ≠ str_lower address) && bool_decide (address_of pub ≠ address)
  then false
  else verify pub msg sig.
End crypto.

#[global] Arguments address_of : simpl never.

(** * String formats *)

Definition char_between (lo hi : ascii) (c : ascii) : bool :=
  Nat.leb (nat_of_ascii lo) (nat_of_ascii c) && Nat.leb (nat_of_ascii c) (nat_of_ascii hi).
Definition hex_lower_char (c : ascii) : bool := char_between "0" "9" c || char_between "a" "f" c.
Definition hex_char (c : ascii) : bool := hex_lower_char c || char_between "A" "F" c.
Definition upper_char (c : ascii) : bool := char_between "A" "Z" c.
Definition asset_char (c : ascii) : bool :=
  upper_char c || char_between "0" "9" c || is_in c ["."; "_"; ":"; "-"]%char.
Definition code_char (c : ascii) : bool :=
  upper_char c || char_between "0" "9" c || bool_decide (c = "_"%char).

Definition str_drop (n : nat) (s : string) : string := String.substring n (String.length s - n) s.

(** [^0x<p>{n}$] *)
Definition prefixed_exactly (p : ascii → bool) (n : nat) (s : string) : bool :=
  startswith "0x" s && Nat.eqb (String.length s) (n + 2) && str_forallb p (str_drop 2 s).
(** [^0x(?:<p>{2})*$] *)
Definition prefixed_pairs (p : ascii → bool) (s : string) : bool :=
  startswith "0x" s && Nat.even (String.length s) && str_forallb p (str_drop 2 s).
(** [^[A-Z]<p>{lo,hi}$] *)
Definition upper_then (p : ascii → bool) (lo hi : nat) (s : string) : bool :=
  match s with
  | EmptyString => false
  | String c r =>
      upper_char c && Nat.leb lo (String.length r) && Nat.leb (String.length r) hi
      && str_forallb p r
  end.
Definition length_between (lo hi : nat) (s : string) : bool :=
  Nat.leb lo (String.length s) && Nat.leb (String.length s) hi.

Definition Hex32 (s : string) : bool := prefixed_exactly hex_lower_char 64 s.
Definition Address (s : string) : bool := prefixed_exactly hex_char 40 s.
Definition AssetId (s : string) : bool := upper_then asset_char 1 63 s.
Definition Selector (s : string) : bool := prefixed_exactly hex_char 8 s.
Definition HexData (s : string) : bool :=
  prefixed_pairs hex_char s && Nat.ltb 2 (String.length s).
Definition HexData0 (s : string) : bool := prefixed_pairs hex_char s.
Definition IdempotencyKey (s : string) : bool := length_between 8 128 s.
Definition ReasonCode (s : string) : bool := upper_then code_char 1 63 s.
Definition opt_all {A} (p : A → bool) (o : option A) : bool :=
  match o with Some a => p a | None => true end.

(** * Datetimes *)

(** A Python [datetime]: wall-clock microseconds and its UTC offset, if aware. *)
Record datetime := { dt_wall : Z; dt_offset : option Z }.

(** [require_utc] and the [normalize_expiry] validators: an aware datetime
    becomes its instant, a naive one is refused. *)
Definition require_utc (field : string) (value : datetime) : result Z :=
  match dt_offset value with
  | None => Err (ValueError (field +:+ " must include a UTC offset"))
  | Some offset => Ok (dt_wall value - offset)
  end.

Definition seconds (n : Z) : Z := n * 1000000.

(** [isoformat()] of a UTC datetime, in microseconds since the epoch: the proleptic
    Gregorian date of its day, then the time, with the microseconds if there are any. *)
Definition civil (days : Z) : Z * Z * Z :=
  let z := days + 719468 in
  let era := z / 146097 in
  let doe := z mod 146097 in
  let yoe := (doe - doe / 1460 + doe / 36524 - doe / 146096) / 365 in
  let doy := doe - (365 * yoe + yoe / 4 - yoe / 100) in
  let mp := (5 * doy + 2) / 153 in
  let m := if mp <? 10 then mp + 3 else mp - 9 in
  (yoe + era * 400 + (if m <=? 2 then 1 else 0), m, doy - (153 * mp + 2) / 5 + 1).
Definition padded (width : nat) (n : Z) : string :=
  let digits := pretty n in
  string_of_list_ascii (replicate (width - String.length digits) "0"%char) +:+ digits.
Definition isoformat (t : Z) : string :=
  let '(y, m, d) := civil (t / seconds 86400) in
  let sec := (t / seconds 1) mod 86400 in
  let us := t mod seconds 1 in
  padded 4 y +:+ "-" +:+ padded 2 m +:+ "-" +:+ padded 2 d +:+ "T" +:+ padded 2 (sec / 3600) +:+ ":"
  +:+ padded 2 (sec / 60 mod 60) +:+ ":" +:+ padded 2 (sec mod 60)
  +:+ (if us =? 0 then "" else "." +:+ padded 6 us) +:+ "+00:00".

(** A [ValueError] of a validator is reported as the model's [ValidationError]. *)
Definition invalid {A} (model : string) (_ : exn) : result A := Err (ValidationError model).

(** * Intents and proposals *)

Inductive IntentV1 :=
  | TransferIntentV1 (recipient : string)
  | SwapIntentV1 (contract selector calldata : string) (minimum_output : Z) (output_asset : string).

#[export] Instance IntentV1_eq_dec : EqDecision IntentV1.
Proof. solve_decision. Defined.

Definition intent_kind (i : IntentV1) : string :=
  match i with TransferIntentV1 _ => "transfer" | SwapIntentV1 _ _ _ _ _ => "swap" end.

Definition IntentV1_validate (i : IntentV1) : result IntentV1 :=
  match i with
  | TransferIntentV1 recipient =>
      raise_if (negb (Address recipient)) (ValidationError "TransferIntentV1");;
      Ok (TransferIntentV1 (str_lower recipient))
  | SwapIntentV1 contract selector calldata minimum_output output_asset =>
      raise_if (negb (Address contract && Selector selector && HexData0 calldata
                      && (0 <=? minimum_output) && AssetId output_asset))
        (ValidationError "SwapIntentV1");;
      Ok (SwapIntentV1 (str_lower contract) (str_lower selector) (str_lower calldata)
            minimum_output output_asset)
  end.

Record ProposalV1 := {
  proposal_id : Z;
  principal_id : string;
  wallet : string;
  chain_id : Z;
  asset : string;
  amount : Z;
  intent : IntentV1;
  deadline : Z;
  idempotency_key : string;
  mandate_id : option Z;
  quote_reference : option string;
}.

#[export] Instance ProposalV1_eq_dec : EqDecision ProposalV1.
Proof. solve_decision. Defined.

Definition require_uuid7 (value : Z) : result Z :=
  raise_if (bool_decide (uuid_version value ≠ Some 7))
    (ValueError "proposal_id must be UUIDv7");;
  Ok value.

(** The fields of [p] as given by the caller, its deadline as the raw [dl]. *)
Definition ProposalV1_validate (p : ProposalV1) (dl : datetime) : result ProposalV1 :=
  raise_if (negb (length_between 1 128 (principal_id p) && Address (wallet p)
                  && (0 <? chain_id p) && AssetId (asset p) && (0 <? amount p)
                  && IdempotencyKey (idempotency_key p)
                  && opt_all (length_between 1 256) (quote_reference p)))
    (ValidationError "ProposalV1");;
  pid ← try_except catches_ValueError (require_uuid7 (proposal_id p)) (invalid "ProposalV1");
  int ← try_except catches_ValueError (IntentV1_validate (intent p)) (invalid "ProposalV1");
  utc ← try_except catches_ValueError (require_utc "deadline" dl) (invalid "ProposalV1");
  Ok {| proposal_id := pid; principal_id := principal_id p; wallet := str_lower (wallet p);
        chain_id := chain_id p; asset := asset p; amount := amount p; intent := int;
        deadline := utc; idempotency_key := idempotency_key p; mandate_id := mandate_id p;
        quote_reference := quote_reference p |}.

(** [model_dump(mode="json", exclude_none=True)]: drop the absent fields. *)
Definition present (o : option pyval) (k : string) : list (pykey * pyval) :=
  match o with Some v => [(KStr k, v)] | None => [] end.
(** [model_dump(mode="json")] keeps them as [null]. *)
Definition or_none (o : option pyval) : pyval := default PNone o.

Definition IntentV1_dump (i : IntentV1) : pyval :=
  match i with
  | TransferIntentV1 recipient =>
      PDict [(KStr "kind", PStr "transfer"); (KStr "recipient", PStr recipient)]
  | SwapIntentV1 contract selector calldata minimum_output output_asset =>
      PDict [(KStr "kind", PStr "swap"); (KStr "contract", PStr contract);
             (KStr "selector", PStr selector); (KStr "calldata", PStr calldata);
             (KStr "minimum_output", PInt minimum_output);
             (KStr "output_asset", PStr output_asset)]
  end.

Section payloads.
Context `{!Externals}.

Definition ProposalV1_dump (p : ProposalV1) : pyval :=
  PDict ([(KStr "schema_version", PStr "aegisledger.proposal.v1");
          (KStr "proposal_id", PStr (uuid_str (proposal_id p)));
          (KStr "principal_id", PStr (principal_id p));
          (KStr "wallet", PStr (wallet p));
          (KStr "chain_id", PInt (chain_id p));
          (KStr "asset", PStr (asset p));
          (KStr "amount", PInt (amount p));
          (KStr "intent", IntentV1_dump (intent p));
          (KStr "deadline", PStr (iso (deadline p)));
          (KStr "idempotency_key", PStr (idempotency_key p))]
         ++ present (PStr ∘ uuid_str <$> mandate_id p) "mandate_id"
         ++ present (PStr <$> quote_reference p) "quote_reference").

Definition canonical_payload (p : ProposalV1) : result bytes := canonical_json (ProposalV1_dump p).

Definition proposal_hash (p : ProposalV1) : result string :=
  (λ b, "0x" +:+ sha256_hex b) <$> canonical_payload p.
End payloads.

(** * Decision tokens *)

Inductive DecisionVerdict := ALLOW | DENY.

#[export] Instance DecisionVerdict_eq_dec : EqDecision DecisionVerdict.
Proof. solve_decision. Defined.

Definition verdict_value (v : DecisionVerdict) : string :=
  match v with ALLOW => "ALLOW" | DENY => "DENY" end.

Record DecisionTokenV1 := {
  decision_id : Z;
  d_proposal_hash : string;
  policy_version_id : Z;
  d_policy_hash : string;
  state_version : Z;
  d_reservation_id : option Z;
  verdict : DecisionVerdict;
  reason_codes : list string;
  d_expires_at : Z;
  decision_nonce : Z;
  policy_signer : string;
  d_signature : string;
}.

Definition reservation_matches_verdict (t : DecisionTokenV1) : result unit :=
  raise_if (bool_decide (verdict t = ALLOW) && bool_decide (d_reservation_id t = None))
    (ValueError "ALLOW decisions require a reservation");;
  raise_if (bool_decide (verdict t = DENY) && bool_decide (d_reservation_id t ≠ None))
    (ValueError "DENY decisions cannot carry a reservation").

Definition DecisionTokenV1_validate (t : DecisionTokenV1) : result DecisionTokenV1 :=
  raise_if (negb (Hex32 (d_proposal_hash t) && Hex32 (d_policy_hash t)
                  && (0 <=? state_version t) && forallb ReasonCode (reason_codes t)
                  && length_between 1 256 (policy_signer t)
                  && Nat.eqb (String.length (d_signature t)) 128
                  && str_forallb hex_lower_char (d_signature t)))
    (ValidationError "DecisionTokenV1");;
  try_except catches_ValueError (reservation_matches_verdict t)
    (invalid "DecisionTokenV1");;
  Ok t.

(** * Signed transactions *)

Record SignedTransactionV1 := {
  transaction_id : Z;
  st_eip712_hash : string;
  st_eip1559_hash : string;
  transaction_hash : string;
  raw_transaction : string;
  st_wallet : string;
  st_wallet_nonce : Z;
  st_chain_id : Z;
  st_decision_id : Z;
  signer_identity : string;
  enclave_evidence : list (pykey * pyval);
  st_signature : string;
}.

Definition SignedTransactionV1_validate (t : SignedTransactionV1) : result SignedTransactionV1 :=
  raise_if (negb (Hex32 (st_eip712_hash t) && Hex32 (st_eip1559_hash t)
                  && Hex32 (transaction_hash t) && HexData (raw_transaction t)
                  && Address (st_wallet t) && (0 <=? st_wallet_nonce t) && (0 <? st_chain_id t)
                  && length_between 1 256 (signer_identity t)
                  && prefixed_exactly hex_lower_char 130 (st_signature t)))
    (ValidationError "SignedTransactionV1");;
  Ok t.

(** * The lifecycle *)

Inductive LifecycleState :=
  | PROPOSED | RESERVED | SIGNED | SUBMITTED | SETTLED | DENIED | REVERTED | EXPIRED.

#[export] Instance LifecycleState_eq_dec : EqDecision LifecycleState.
Proof. solve_decision. Defined.

Definition state_value (s : LifecycleState) : string :=
  match s with
  | PROPOSED => "PROPOSED" | RESERVED => "RESERVED" | SIGNED => "SIGNED"
  | SUBMITTED => "SUBMITTED" | SETTLED => "SETTLED" | DENIED => "DENIED"
  | REVERTED => "REVERTED" | EXPIRED => "EXPIRED"
  end.

Definition _ALLOWED_TRANSITIONS (s : LifecycleState) : list LifecycleState :=
  match s with
  | PROPOSED => [RESERVED; DENIED; EXPIRED]
  | RESERVED => [SIGNED; EXPIRED]
  | SIGNED => [SUBMITTED; EXPIRED]
  | SUBMITTED => [SETTLED; REVERTED]
  | _ => []
  end.

Definition require_transition (current target : LifecycleState) : result unit :=
  raise_if (negb (is_in target (_ALLOWED_TRANSITIONS current)))
    (ValueError ("invalid lifecycle transition: " +:+ state_value current +:+ " -> "
                 +:+ state_value target)).
