(* ===== verification/ContractsFacts.v ===== *)
(** Facts of Contracts: hashes bind proposals, validated models are normal,
    and the lifecycle makes progress. *)
From Stdlib Require Import ZArith Lia Ascii String.
From Stdlib Require Strings.Byte.
From stdpp Require Import base list strings pretty.
From S2P Require Import Prelude Bytes Canonical CanonicalFacts Contracts.

Open Scope Z_scope.

(** * Texts *)

Lemma str_app_inj_length (a b r r' : string) :
  String.length a = String.length b → a +:+ r = b +:+ r' → a = b ∧ r = r'.
Proof.
  revert b. induction a as [|c a IH]; intros [|d b] Hl Heq; try done.
  change (String c (a +:+ r) = String d (b +:+ r')) in Heq. injection Heq as -> Heq.
  destruct (IH b) as [-> ->]; [by injection Hl|done|done].
Qed.

Definition uuid_range (u : Z) : Prop := 0 ≤ u < 2 ^ 128.

Lemma uuid_str_inj u v : uuid_range u → uuid_range v → uuid_str u = uuid_str v → u = v.
Proof.
  intros Hu Hv Heq. unfold uuid_str in Heq.
  rewrite <- (from_to_bytes_be 16 u), <- (from_to_bytes_be 16 v)
    by (change (256 ^ Z.of_nat 16) with (2 ^ 128); done).
  f_equal. set (a := to_bytes_be 16 u) in *. set (b := to_bytes_be 16 v) in *.
  assert (length a = 16%nat) as Ha by apply length_to_bytes_be.
  assert (length b = 16%nat) as Hb by apply length_to_bytes_be.
  do 4 (apply str_app_inj_length in Heq as [?%hex_inj Heq];
        [|rewrite !hex_length, !length_take, ?length_drop, Ha, Hb; done];
        apply (inj (String.append "-")) in Heq).
  apply hex_inj in Heq.
  do 16 (destruct a as [|? a]; [done|]). do 16 (destruct b as [|? b]; [done|]).
  destruct a, b; try done. cbn in *. congruence.
Qed.

(** * The canonical payload of a proposal *)

(** Pydantic's rendering of UTC datetimes distinguishes instants. *)
Class IsoLaw `{Externals} : Prop := iso_inj : ∀ t u, iso t = iso u → t = u.

Lemma plain_iso : @IsoLaw plain_externals.
Proof. intros t u Heq. by apply (inj pretty) in Heq. Qed.

Lemma sized_iso : @IsoLaw sized_externals.
Proof. intros t u Heq. by apply (inj pretty) in Heq. Qed.

(** The identifiers of a proposal are UUIDs. *)
Definition proposal_ids (p : ProposalV1) : Prop :=
  uuid_range (proposal_id p) ∧ from_option uuid_range True (mandate_id p).

Section binding.
Context `{!Externals} `{!Rfc8785Law} `{!IsoLaw}.

Lemma IntentV1_dump_inj i j : sort_keys (IntentV1_dump i) = sort_keys (IntentV1_dump j) → i = j.
Proof.
  destruct i, j; intros Heq;
    try (pose proof (sort_keys_entry "kind" _ _ Heq) as Hk; discriminate Hk).
  - same_entry Heq "recipient". by subst.
  - same_entry Heq "contract". same_entry Heq "selector". same_entry Heq "calldata".
    same_entry Heq "minimum_output". same_entry Heq "output_asset". by subst.
Qed.

Lemma ProposalV1_dump_inj p q :
  proposal_ids p → proposal_ids q →
  sort_keys (ProposalV1_dump p) = sort_keys (ProposalV1_dump q) → p = q.
Proof.
  intros [Hp1 Hp2] [Hq1 Hq2].
  destruct p as [p1 p2 p3 p4 p5 p6 i1 p8 p9 m1 r1], q as [q1 q2 q3 q4 q5 q6 i2 q8 q9 m2 r2].
  intros Heq. unfold ProposalV1_dump in Heq. cbn [proposal_id mandate_id] in *.
  same_entry Heq "proposal_id". apply uuid_str_inj in Hk; [|done..].
  same_entry Heq "principal_id". same_entry Heq "wallet". same_entry Heq "chain_id".
  same_entry Heq "asset". same_entry Heq "amount".
  pose proof (sort_keys_entry "intent" _ _ Heq) as Hi. injection Hi as Hi%IntentV1_dump_inj.
  same_entry Heq "deadline". 
  match goal with H : iso _ = iso _ |- _ => apply iso_inj in H end.
  same_entry Heq "idempotency_key".
  assert (m1 = m2) as ->.
  { pose proof (sort_keys_entry "mandate_id" _ _ Heq) as Hm.
    destruct m1, m2, r1, r2; cbn -[uuid_str] in Hm; try done; apply some_str in Hm;
      apply uuid_str_inj in Hm; by subst. }
  assert (r1 = r2) as ->.
  { pose proof (sort_keys_entry "quote_reference" _ _ Heq) as Hm.
    destruct m2, r1, r2; cbn -[uuid_str] in Hm; try done; apply some_str in Hm; by subst. }
  by subst.
Qed.

(** Two proposals with the same digest, the digest not colliding on their
    payloads, are the same proposal. *)
Lemma proposal_hash_inj p q h :
  proposal_ids p → proposal_ids q →
  (∀ a b, canonical_payload p = Ok a → canonical_payload q = Ok b → sha256 a = sha256 b → a = b) →
  proposal_hash p = Ok h → proposal_hash q = Ok h → p = q.
Proof.
  intros Hp Hq Hcf. unfold proposal_hash. rewrite !fmap_Ok.
  intros (a & Ha & ->) (b & Hb & Heq). apply (inj (String.append "0x")) in Heq.
  apply hex_inj in Heq. specialize (Hcf a b Ha Hb Heq). subst b.
  unfold canonical_payload in *. apply ProposalV1_dump_inj; [done..|].
  by eapply canonical_json_inj.
Qed.
End binding.

(** * The lifecycle *)

(** The number of transitions a proposal has left at most. *)
Definition lifecycle_rank (s : LifecycleState) : nat :=
  match s with
  | PROPOSED => 4 | RESERVED => 3 | SIGNED => 2 | SUBMITTED => 1 | _ => 0
  end.

Lemma require_transition_Ok s t :
  require_transition s t = Ok tt ↔ t ∈ _ALLOWED_TRANSITIONS s.
Proof. unfold require_transition. rewrite raise_if_Ok, negb_false_iff. apply bool_decide_eq_true. Qed.

Lemma transition_rank s t :
  require_transition s t = Ok tt → (lifecycle_rank t < lifecycle_rank s)%nat.
Proof. destruct s, t; cbn; try discriminate; lia. Qed.

(** * Validation *)

Lemma hex_char_lower c : hex_char c = true → hex_char (ascii_lower c) = true.
Proof. destruct c as [[] [] [] [] [] [] [] []]; cbv; congruence. Qed.

Lemma str_forallb_lower p s :
  (∀ c, p c = true → p (ascii_lower c) = true) →
  str_forallb p s = true → str_forallb p (str_lower s) = true.
Proof.
  intros Hp. induction s as [|c s IH]; cbn; [done|]. intros Hs. prop_of_bool.
  destruct Hs. auto.
Qed.

Lemma substring_all s : String.substring 0 (String.length s) s = s.
Proof. induction s as [|c s IH]; cbn; [done|]. by rewrite IH. Qed.

Lemma str_drop_0x s : str_drop 2 ("0x" +:+ s) = s.
Proof.
  unfold str_drop. change ("0x" +:+ s) with (String "0" (String "x" s)).
  cbn [String.length String.substring]. rewrite Nat.sub_succ, Nat.sub_succ, Nat.sub_0_r.
  apply substring_all.
Qed.

(** Lower-casing keeps the hexadecimal formats. *)
Lemma prefixed_lower s :
  startswith "0x" s = true → str_forallb hex_char (str_drop 2 s) = true →
  startswith "0x" (str_lower s) = true ∧ str_forallb hex_char (str_drop 2 (str_lower s)) = true.
Proof.
  intros [t ->]%startswith_inv Ht. rewrite str_lower_app.
  change (str_lower "0x") with "0x"%string. rewrite str_drop_0x in *.
  split; [apply startswith_app|]. apply str_forallb_lower; auto using hex_char_lower.
Qed.

Lemma prefixed_exactly_lower n s :
  prefixed_exactly hex_char n s = true → prefixed_exactly hex_char n (str_lower s) = true.
Proof.
  unfold prefixed_exactly. rewrite str_lower_length, !andb_true_iff.
  intros [[H1 H2] H3]. by destruct (prefixed_lower s).
Qed.

Lemma HexData0_lower s : HexData0 s = true → HexData0 (str_lower s) = true.
Proof.
  unfold HexData0, prefixed_pairs. rewrite str_lower_length, !andb_true_iff.
  intros [[H1 H2] H3]. by destruct (prefixed_lower s).
Qed.

Lemma Address_lower s : Address s = true → Address (str_lower s) = true.
Proof. apply prefixed_exactly_lower. Qed.
Lemma Selector_lower s : Selector s = true → Selector (str_lower s) = true.
Proof. apply prefixed_exactly_lower. Qed.

#[export] Hint Resolve Address_lower Selector_lower HexData0_lower : aegis.

(** Discharge the guards that hold and compute past them. *)
Ltac guards_pass :=
  rewrite raise_if_bind;
  match goal with |- context [if ?b then Err _ else _] =>
    replace b with false by
      (symmetry; prop_of_bool; split_and?; auto with aegis)
  end.

Lemma IntentV1_validate_idem i j : IntentV1_validate i = Ok j → IntentV1_validate j = Ok j.
Proof.
  destruct i; cbn [IntentV1_validate]; intros Hj; ok_invs; prop_of_bool; cbn [IntentV1_validate].
  - guards_pass. by rewrite str_lower_idem.
  - destruct_and!. guards_pass. by rewrite !str_lower_idem.
Qed.

Lemma try_except_Ok {A} c (m : result A) h a :
  (∀ e, h e ≠ Ok a) → try_except c m h = Ok a → m = Ok a.
Proof. intros Hh. destruct m; cbn; [done|]. case_match; [by intros ?%Hh|done]. Qed.

(** What validation leaves. *)
Lemma proposal_normal p dl q :
  ProposalV1_validate p dl = Ok q →
  uuid_version (proposal_id q) = Some 7 ∧ 0 < amount q ∧ 0 < chain_id q
  ∧ str_lower (wallet q) = wallet q ∧ IntentV1_validate (intent q) = Ok (intent q)
  ∧ require_utc "deadline" dl = Ok (deadline q)
  ∧ ProposalV1_validate q {| dt_wall := deadline q; dt_offset := Some 0 |} = Ok q.
Proof.
  intros Hq. unfold ProposalV1_validate in Hq. ok_inv Hq.
  repeat match goal with H : try_except _ _ _ = Ok _ |- _ => apply try_except_Ok in H; [|done] end.
  injection Hq as <-.
  cbn [proposal_id principal_id wallet chain_id asset amount intent deadline].
  match goal with H : require_uuid7 _ = _ |- _ => rename H into Hid end.
  match goal with H : IntentV1_validate _ = _ |- _ => rename H into Hint end.
  unfold require_uuid7 in Hid. ok_invs. prop_of_bool. destruct_and!.
  match goal with H : ¬ _ ≠ _ |- _ => apply dec_stable in H; rename H into Hv end.
  apply IntentV1_validate_idem in Hint.
  split_and!; auto using str_lower_idem.
  unfold ProposalV1_validate.
  cbn [proposal_id principal_id wallet chain_id asset amount intent deadline idempotency_key
       mandate_id quote_reference].
  guards_pass. rewrite Hint. unfold require_uuid7. rewrite Hv, bool_decide_false by tauto.
  unfold require_utc. cbn. by rewrite Z.sub_0_r, str_lower_idem.
Qed.

(** C39: a proposal that was accepted is normal.  What
    [ProposalV1]'s validators let through has a version-7 identifier, a positive
    amount and chain, a lower-case wallet and lower-case intent addresses, and
    the UTC instant of the given deadline; validating it again changes nothing, so
    a proposal rebuilt from its own fields is the same proposal. *)
Theorem proposal_validation_normal p dl q :
  ProposalV1_validate p dl = Ok q →
  uuid_version (proposal_id q) = Some 7 ∧ 0 < amount q ∧ 0 < chain_id q
  ∧ str_lower (wallet q) = wallet q ∧ IntentV1_validate (intent q) = Ok (intent q)
  ∧ require_utc "deadline" dl = Ok (deadline q)
  ∧ ProposalV1_validate q {| dt_wall := deadline q; dt_offset := Some 0 |} = Ok q.
Proof. apply proposal_normal. Qed.

(** A native transfer used in the examples. *)
Definition sample_proposal : ProposalV1 := {|
  proposal_id := 0x018bcfe56800700080000000000000ab;
  principal_id := "agent-1";
  wallet := "0x00112233445566778899aabbccddeeff00112233";
  chain_id := 31337;
  asset := "NATIVE:31337";
  amount := 250;
  intent := TransferIntentV1 "0xffeeddccbbaa99887766554433221100ffeeddcc";
  deadline := seconds 2000;
  idempotency_key := "order-0001";
  mandate_id := None;
  quote_reference := None;
|}.

Lemma proposal_validation_normal_witness :
  uuid_version (proposal_id sample_proposal) = Some 7
  ∧ ProposalV1_validate sample_proposal {| dt_wall := seconds 2000; dt_offset := Some 0 |}
    = Ok sample_proposal.
Proof.
  destruct (proposal_validation_normal sample_proposal
    {| dt_wall := seconds 5600; dt_offset := Some (seconds 3600) |} sample_proposal)
    as (H1 & _ & _ & _ & _ & _ & H2).
  - vm_compute. reflexivity.
  - split; assumption.
Defined.

(** A proposal hash names one proposal.  When SHA-256 does not
    collide on the two canonical payloads, two proposals with the same
    [proposal_hash] agree in every field: amount, recipient, calldata, deadline,
    mandate and the rest, so a decision about a hash is a decision about that
    proposal. *)
Theorem proposal_hash_binding `{!Externals} `{!Rfc8785Law} `{!IsoLaw} p q h :
  proposal_ids p → proposal_ids q →
  (∀ a b, canonical_payload p = Ok a → canonical_payload q = Ok b → sha256 a = sha256 b → a = b) →
  proposal_hash p = Ok h → proposal_hash q = Ok h → p = q.
Proof. apply proposal_hash_inj. Qed.

Lemma proposal_hash_binding_witness :
  let e := plain_externals in
  ∃ h, proposal_hash sample_proposal = Ok h ∧ sample_proposal = sample_proposal.
Proof.
  intros e. eexists. split; [vm_compute; reflexivity|].
  refine (@proposal_hash_binding e plain_rfc8785 plain_iso _ _ _ _ _ _ _ _).
  - split; [split; vm_compute; congruence|exact I].
  - split; [split; vm_compute; congruence|exact I].
  - intros a b _ _ Hab. exact Hab.
  - vm_compute; reflexivity.
  - vm_compute; reflexivity.
Defined.
