(* ===== verification/Policy.v ===== *)
(** Policies (src/agentguard-testbed/src/aegisledger/policy.py) and the versioned policy
    workflow (src/agentguard-testbed/src/aegisledger/policies.py): normalization, the
    coherence validator, the policy hash, and the registry in which a policy is
    drafted, approved by two administrators and activated. *)
From Stdlib Require Import ZArith Lia Ascii String.
From stdpp Require Import base gmap sets list strings pretty sorting.
From S2P Require Import Prelude Bytes Canonical Contracts.

Open Scope Z_scope.

(** * [sorted(set(values))] *)

Section sorted_set.
Context {A : Type} `{EqDecision A} (le : A → A → bool).

Fixpoint insert_sorted (x : A) (l : list A) : list A :=
  match l with
  | [] => [x]
  | y :: l' => if bool_decide (x = y) then l
               else if le x y then x :: l else y :: insert_sorted x l'
  end.

Definition sorted_set (l : list A) : list A := foldr insert_sorted [] l.

Lemma elem_of_insert_sorted x y l : x ∈ insert_sorted y l ↔ x = y ∨ x ∈ l.
Proof.
  induction l as [|z l IH]; cbn [insert_sorted]; [by rewrite elem_of_cons|].
  case_bool_decide as Hyz; [subst; rewrite !elem_of_cons; tauto|].
  destruct (le y z); rewrite !elem_of_cons; [tauto|]. rewrite IH. tauto.
Qed.

Lemma elem_of_sorted_set x l : x ∈ sorted_set l ↔ x ∈ l.
Proof.
  unfold sorted_set. induction l as [|y l IH]; cbn [foldr]; [done|].
  by rewrite elem_of_insert_sorted, elem_of_cons, IH.
Qed.
End sorted_set.

(** * Policy contracts *)

Record RollingCapV1 := { window_seconds : Z; cap_amount : Z }.

Record RiskConstraintsV1 := {
  maximum_slippage_bps : Z;
  maximum_quote_age_seconds : Z;
  deny_on_missing_quote : bool;
}.

Record ContractRuleV1 := { rule_contract : string; rule_selectors : list string }.

Record PolicyV1 := {
  policy_name : string;
  enabled_wallets : list string;
  enabled_principals : list string;
  enabled_chains : list Z;
  enabled_assets : list string;
  allowed_recipients : list string;
  contract_rules : list ContractRuleV1;
  per_transaction_cap : Z;
  rolling_caps : list RollingCapV1;
  maximum_transactions_per_hour : Z;
  mandate_required_above : Z;
  risk : RiskConstraintsV1;
  emergency_stop : bool;
}.

Definition RollingCapV1_validate (c : RollingCapV1) : result RollingCapV1 :=
  raise_if (negb ((0 <? window_seconds c) && (0 <=? cap_amount c)))
    (ValidationError "RollingCapV1");;
  Ok c.

Definition RiskConstraintsV1_validate (r : RiskConstraintsV1) : result RiskConstraintsV1 :=
  raise_if (negb ((0 <=? maximum_slippage_bps r) && (maximum_slippage_bps r <=? 10000)
                  && (0 <? maximum_quote_age_seconds r)))
    (ValidationError "RiskConstraintsV1");;
  Ok r.

Definition ContractRuleV1_validate (r : ContractRuleV1) : result ContractRuleV1 :=
  raise_if (negb (Address (rule_contract r) && forallb Selector (rule_selectors r)))
    (ValidationError "ContractRuleV1");;
  Ok {| rule_contract := str_lower (rule_contract r); rule_selectors := rule_selectors r |}.

Definition normalize_addresses (values : list string) : list string :=
  sorted_set String.leb (map str_lower values).

Definition explicit_constraints_are_coherent (p : PolicyV1) : result unit :=
  let windows := map window_seconds (rolling_caps p) in
  raise_if (negb (bool_decide (length windows = length (sorted_set Z.leb windows))))
    (ValueError "rolling cap windows must be unique");;
  raise_if ((per_transaction_cap p =? 0) && negb (emergency_stop p))
    (ValueError "a zero per-transaction cap requires emergency_stop").

(** Validate every element, in order. *)
Fixpoint validate_all {A B} (f : A → result B) (l : list A) : result (list B) :=
  match l with
  | [] => Ok []
  | x :: l => y ← f x; ys ← validate_all f l; Ok (y :: ys)
  end.

Definition PolicyV1_validate (p : PolicyV1) : result PolicyV1 :=
  raise_if (negb (length_between 3 96 (policy_name p) && forallb Address (enabled_wallets p)
                  && forallb (length_between 1 128) (enabled_principals p)
                  && forallb (Z.ltb 0) (enabled_chains p) && forallb AssetId (enabled_assets p)
                  && forallb Address (allowed_recipients p) && (0 <=? per_transaction_cap p)
                  && (0 <=? maximum_transactions_per_hour p) && (0 <=? mandate_required_above p)))
    (ValidationError "PolicyV1");;
  rules ← validate_all ContractRuleV1_validate (contract_rules p);
  caps ← validate_all RollingCapV1_validate (rolling_caps p);
  r ← RiskConstraintsV1_validate (risk p);
  let p' := {| policy_name := policy_name p;
       enabled_wallets := normalize_addresses (enabled_wallets p);
       enabled_principals := sorted_set String.leb (enabled_principals p);
       enabled_chains := sorted_set Z.leb (enabled_chains p);
       enabled_assets := sorted_set String.leb (enabled_assets p);
       allowed_recipients := normalize_addresses (allowed_recipients p);
       contract_rules := rules; per_transaction_cap := per_transaction_cap p;
       rolling_caps := caps; maximum_transactions_per_hour := maximum_transactions_per_hour p;
       mandate_required_above := mandate_required_above p; risk := r;
       emergency_stop := emergency_stop p |} in
  try_except catches_ValueError (explicit_constraints_are_coherent p') (invalid "PolicyV1");;
  Ok p'.

(** [normalized]: the JSON dump of a policy. *)
Definition strings_dump (l : list string) : pyval := PList (map PStr l).

Definition normalized (p : PolicyV1) : pyval :=
  PDict [(KStr "schema_version", PStr "aegisledger.policy.v1");
    (KStr "name", PStr (policy_name p));
    (KStr "default_action", PStr "deny");
    (KStr "enabled_wallets", strings_dump (enabled_wallets p));
    (KStr "enabled_principals", strings_dump (enabled_principals p));
    (KStr "enabled_chains", PList (map PInt (enabled_chains p)));
    (KStr "enabled_assets", strings_dump (enabled_assets p));
    (KStr "allowed_recipients", strings_dump (allowed_recipients p));
    (KStr "contract_rules", PList (map (λ r,
       PDict [(KStr "contract", PStr (rule_contract r));
              (KStr "selectors", strings_dump (rule_selectors r))]) (contract_rules p)));
    (KStr "per_transaction_cap", PInt (per_transaction_cap p));
    (KStr "rolling_caps", PList (map (λ c,
       PDict [(KStr "window_seconds", PInt (window_seconds c));
              (KStr "amount", PInt (cap_amount c))]) (rolling_caps p)));
    (KStr "maximum_transactions_per_hour", PInt (maximum_transactions_per_hour p));
    (KStr "mandate_required_above", PInt (mandate_required_above p));
    (KStr "risk", PDict [
       (KStr "maximum_slippage_bps", PInt (maximum_slippage_bps (risk p)));
       (KStr "maximum_quote_age_seconds", PInt (maximum_quote_age_seconds (risk p)));
       (KStr "deny_on_missing_quote", PBool (deny_on_missing_quote (risk p)))]);
    (KStr "emergency_stop", PBool (emergency_stop p))].

Definition policy_hash `{Externals} (p : PolicyV1) : result string :=
  (λ b, "0x" +:+ sha256_hex b) <$> canonical_json (normalized p).

(** * Policy versions *)

Inductive PolicyStatus := DRAFT | APPROVED | ACTIVE | RETIRED.

#[export] Instance PolicyStatus_eq_dec : EqDecision PolicyStatus.
Proof. solve_decision. Defined.

Record PolicyVersion := {
  version_id : Z;
  v_policy : PolicyV1;
  v_policy_hash : string;
  v_status : PolicyStatus;
  created_by : string;
  v_created_at : Z;
  approvals : gset string;
  activated_at : option Z;
  activated_by : option string;
}.

Record PolicyRegistry := {
  _versions : gmap Z PolicyVersion;
  _active_id : option Z;
}.

Definition registry_init : PolicyRegistry := {| _versions := ∅; _active_id := None |}.

Definition with_status (st : PolicyStatus) (v : PolicyVersion) : PolicyVersion :=
  {| version_id := version_id v; v_policy := v_policy v; v_policy_hash := v_policy_hash v;
     v_status := st; created_by := created_by v; v_created_at := v_created_at v;
     approvals := approvals v; activated_at := activated_at v; activated_by := activated_by v |}.

Definition with_approvals (a : gset string) (v : PolicyVersion) : PolicyVersion :=
  {| version_id := version_id v; v_policy := v_policy v; v_policy_hash := v_policy_hash v;
     v_status := v_status v; created_by := created_by v; v_created_at := v_created_at v;
     approvals := a; activated_at := activated_at v; activated_by := activated_by v |}.

Definition with_activation (at_ : Z) (by_ : string) (v : PolicyVersion) : PolicyVersion :=
  {| version_id := version_id v; v_policy := v_policy v; v_policy_hash := v_policy_hash v;
     v_status := v_status v; created_by := created_by v; v_created_at := v_created_at v;
     approvals := approvals v; activated_at := Some at_; activated_by := Some by_ |}.

(** A registered version is mutated in place. *)
Definition put_version (id : Z) (v : PolicyVersion) : M PolicyRegistry unit :=
  update (λ r, {| _versions := <[id := v]> (_versions r); _active_id := _active_id r |}).

Definition registry_get (id : Z) : M PolicyRegistry PolicyVersion :=
  versions ← read _versions;
  lift (or_raise (versions !! id) (KeyError ("unknown policy version " +:+ uuid_str id))).

(** [create], with the identifier and the time it draws. *)
Definition registry_create `{Externals} (new_id now : Z) (policy : PolicyV1) (by_ : string)
    : M PolicyRegistry PolicyVersion :=
  h ← lift (policy_hash policy);
  let version := {| version_id := new_id; v_policy := policy; v_policy_hash := h;
    v_status := DRAFT; created_by := by_; v_created_at := now; approvals := ∅;
    activated_at := None; activated_by := None |} in
  put_version new_id version;;
  mret version.

Definition registry_approve (id : Z) (administrator_id : string)
    : M PolicyRegistry PolicyVersion :=
  version ← registry_get id;
  lift (raise_if (is_in (v_status version) [ACTIVE; RETIRED])
    (ValueError "active or retired policies are immutable"));;
  let version := with_approvals (approvals version ∪ {[administrator_id]}) version in
  let version := if bool_decide (2 ≤ size (approvals version))%nat
                 then with_status APPROVED version else version in
  put_version id version;;
  mret version.

Definition registry_activate (now : Z) (id : Z) (by_ : string) : M PolicyRegistry PolicyVersion :=
  version ← registry_get id;
  lift (raise_if (bool_decide (size (approvals version) < 2)%nat)
    (PermissionError "policy activation requires two distinct administrator approvals"));;
  active ← read _active_id;
  match active with
  | Some old =>
      if bool_decide (old ≠ id) then
        versions ← read _versions;
        v ← lift (or_raise (versions !! old) (KeyError (uuid_str old)));
        put_version old (with_status RETIRED v)
      else mret tt
  | None => mret tt
  end;;
  let version := with_activation now by_ (with_status ACTIVE version) in
  put_version id version;;
  update (λ r, {| _versions := _versions r; _active_id := Some id |});;
  mret version.

Definition registry_active : M PolicyRegistry PolicyVersion :=
  active ← read _active_id;
  id ← lift (or_raise active (LookupError "no active policy"));
  versions ← read _versions;
  lift (or_raise (versions !! id) (KeyError (uuid_str id))).

(** [list]: the versions by creation time; versions created at the same
    instant come in an unspecified order here. *)
Definition by_created (a b : PolicyVersion) : Prop := v_created_at a ≤ v_created_at b.
#[export] Instance by_created_dec : RelDecision by_created.
Proof. intros a b. unfold by_created. apply _. Defined.

Definition registry_list : M PolicyRegistry (list PolicyVersion) :=
  read (λ r, merge_sort by_created (map_to_list (_versions r)).*2).
