(* ===== verification/PolicyFacts.v ===== *)
(** Facts of Policy: what a validated policy enables, and the two-person rule
    of the registry along every sequence of operations. *)
From Stdlib Require Import ZArith Lia Ascii String.
From stdpp Require Import base gmap sets list strings pretty sorting.
From S2P Require Import Prelude Bytes Canonical CanonicalFacts Contracts ContractsFacts Policy.

Open Scope Z_scope.

(** * The registry invariant *)

Definition approved_enough (v : PolicyVersion) : Prop := (2 ≤ size (approvals v))%nat.

Record registry_inv (r : PolicyRegistry) : Prop := {
  inv_id : ∀ id v, _versions r !! id = Some v → version_id v = id;
  inv_approved : ∀ id v, _versions r !! id = Some v → v_status v ≠ DRAFT → approved_enough v;
  inv_active : ∀ id, _active_id r = Some id →
    ∃ v, _versions r !! id = Some v ∧ v_status v = ACTIVE;
  inv_unique : ∀ id v, _versions r !! id = Some v → v_status v = ACTIVE → _active_id r = Some id;
}.

Lemma registry_init_inv : registry_inv registry_init.
Proof. constructor; cbn; intros *; rewrite ?lookup_empty; done. Qed.

(** The operations of the registry, with what they draw. *)
Inductive registry_op :=
  | OpCreate (new_id now : Z) (policy : PolicyV1) (by_ : string)
  | OpApprove (id : Z) (administrator_id : string)
  | OpActivate (now id : Z) (by_ : string).

Section registry.
Context `{!Externals}.

Definition registry_run (op : registry_op) (r : PolicyRegistry)
    : PolicyRegistry * result PolicyVersion :=
  match op with
  | OpCreate new_id now policy by_ => registry_create new_id now policy by_ r
  | OpApprove id administrator_id => registry_approve id administrator_id r
  | OpActivate now id by_ => registry_activate now id by_ r
  end.

(** [uuid7] does not draw an identifier in use. *)
Definition op_fresh (op : registry_op) (r : PolicyRegistry) : Prop :=
  match op with OpCreate new_id _ _ _ => _versions r !! new_id = None | _ => True end.

(** The states reachable from an empty registry, with the history of calls (the
    latest first); calls that raise are part of it. *)
Inductive registry_reach : list registry_op → PolicyRegistry → Prop :=
  | reach_init : registry_reach [] registry_init
  | reach_op h r op : registry_reach h r → op_fresh op r →
      registry_reach (op :: h) (fst (registry_run op r)).

(** What each call does, on every branch. *)
Lemma registry_create_spec new_id now policy by_ r :
  registry_create new_id now policy by_ r =
  match policy_hash policy with
  | Err e => (r, Err e)
  | Ok h =>
      let v := {| version_id := new_id; v_policy := policy; v_policy_hash := h;
        v_status := DRAFT; created_by := by_; v_created_at := now; approvals := ∅;
        activated_at := None; activated_by := None |} in
      ({| _versions := <[new_id := v]> (_versions r); _active_id := _active_id r |}, Ok v)
  end.
Proof. unfold registry_create, lift, mbind, M_bind. by destruct (policy_hash policy). Qed.

Definition approve_version (administrator_id : string) (v : PolicyVersion) : PolicyVersion :=
  let v := with_approvals (approvals v ∪ {[administrator_id]}) v in
  if bool_decide (2 ≤ size (approvals v))%nat then with_status APPROVED v else v.

Lemma registry_approve_spec id administrator_id r :
  registry_approve id administrator_id r =
  match _versions r !! id with
  | None => (r, Err (KeyError ("unknown policy version " +:+ uuid_str id)))
  | Some v =>
      if is_in (v_status v) [ACTIVE; RETIRED]
      then (r, Err (ValueError "active or retired policies are immutable"))
      else
        let v' := approve_version administrator_id v in
        ({| _versions := <[id := v']> (_versions r); _active_id := _active_id r |}, Ok v')
  end.
Proof.
  unfold registry_approve, registry_get, lift, read, mbind, M_bind.
  destruct (_versions r !! id) as [v|]; [|done]. cbn. by destruct (is_in _ _).
Qed.

(** The versions once the previously active one, if another, is retired. *)
Definition retire_active (id : Z) (r : PolicyRegistry) : gmap Z PolicyVersion :=
  match _active_id r with
  | Some old =>
      if bool_decide (old ≠ id) then alter (with_status RETIRED) old (_versions r)
      else _versions r
  | None => _versions r
  end.

Lemma registry_activate_spec now id by_ r :
  registry_inv r →
  registry_activate now id by_ r =
  match _versions r !! id with
  | None => (r, Err (KeyError ("unknown policy version " +:+ uuid_str id)))
  | Some v =>
      if bool_decide (size (approvals v) < 2)%nat
      then (r, Err (PermissionError
             "policy activation requires two distinct administrator approvals"))
      else
        let v' := with_activation now by_ (with_status ACTIVE v) in
        ({| _versions := <[id := v']> (retire_active id r); _active_id := Some id |}, Ok v')
  end.
Proof.
  intros Hinv. unfold registry_activate, registry_get, lift, read, mbind, M_bind, retire_active.
  destruct (_versions r !! id) as [v|] eqn:Hv; [|done]. cbn. case_bool_decide; [done|]. cbn.
  destruct (_active_id r) as [old|] eqn:Hold; [|done].
  case_bool_decide; [|done]. destruct (inv_active r Hinv old Hold) as (w & Hw & _).
  rewrite Hw. cbn. by rewrite (alter_lookup _ _ _ w).
Qed.

Lemma size_union_singleton (X : gset string) a : (size X ≤ size (X ∪ {[a]}))%nat.
Proof. apply subseteq_size. set_solver. Qed.

Lemma approve_version_facts a v :
  v_status v ≠ ACTIVE → (v_status v ≠ DRAFT → approved_enough v) →
  let v' := approve_version a v in
  version_id v' = version_id v ∧ v_status v' ≠ ACTIVE ∧ (v_status v' ≠ DRAFT → approved_enough v').
Proof.
  intros Hs Ha. unfold approve_version. case_bool_decide as Hz; cbn in *; split_and!; try done.
  intros Hd. apply Ha in Hd. unfold approved_enough in *. cbn.
  pose proof (size_union_singleton (approvals v) a). lia.
Qed.

(** A version put back under an identifier keeps the invariant when it keeps
    its identity, its approvals and the activation status of that identifier. *)
Lemma put_version_inv r id v :
  registry_inv r → version_id v = id → (v_status v ≠ DRAFT → approved_enough v) →
  v_status v ≠ ACTIVE → _active_id r ≠ Some id →
  registry_inv {| _versions := <[id := v]> (_versions r); _active_id := _active_id r |}.
Proof.
  intros [Hid Happ Hact Huniq] Hv Ha Hs Hn. constructor; cbn.
  - intros k w [[<- <-]|[? ?]]%lookup_insert_Some; eauto.
  - intros k w [[<- <-]|[? ?]]%lookup_insert_Some; eauto.
  - intros k Hk. destruct (Hact k Hk) as (w & ? & ?). exists w.
    rewrite lookup_insert_ne by congruence. done.
  - intros k w [[<- <-]|[? ?]]%lookup_insert_Some ?; [done|eauto].
Qed.

Lemma retire_active_lookup id r k w :
  retire_active id r !! k = Some w →
  ∃ v, _versions r !! k = Some v ∧ version_id w = version_id v ∧ approvals w = approvals v
    ∧ ((w = v ∧ (_active_id r ≠ Some k ∨ k = id)) ∨ v_status w = RETIRED ∧ _active_id r = Some k).
Proof.
  unfold retire_active. destruct (_active_id r) as [old|]; [|naive_solver].
  case_bool_decide as Hne; [|intros; exists w; split_and!; try done; left; split; [done|]].
  - destruct (decide (k = old)) as [->|].
    + rewrite lookup_alter_eq. intros (v & Hv & ->)%fmap_Some. exists v.
      split_and!; try done. by right.
    + rewrite lookup_alter_ne by done. intros Hk. exists w. split_and!; try done.
      left. split; [done|]. left. congruence.
  - destruct (decide (k = id)); [by right|left; congruence].
Qed.

Lemma registry_step_inv op r :
  registry_inv r → op_fresh op r → registry_inv (fst (registry_run op r)).
Proof.
  intros Hinv Hfresh. destruct op as [id now p b|id a|now id b]; cbn [registry_run op_fresh] in *.
  - rewrite registry_create_spec. destruct (policy_hash p); [|done]. cbn.
    apply put_version_inv; try done. intros Hk.
    destruct (inv_active r Hinv _ Hk) as (? & ? & _). congruence.
  - rewrite registry_approve_spec. destruct (_versions r !! id) as [v|] eqn:Hv; [|done].
    unfold is_in. case_bool_decide as Hst; [done|]. cbn [fst].
    destruct (approve_version_facts a v) as (H1 & H2 & H3); cbn in *.
    + set_solver.
    + by apply (inv_approved r Hinv id).
    + apply put_version_inv; try done; [by rewrite H1; apply (inv_id r Hinv)|].
      intros Hk. destruct (inv_active r Hinv _ Hk) as (w & ? & ?). simplify_eq. set_solver.
  - rewrite registry_activate_spec by done. destruct (_versions r !! id) as [v|] eqn:Hv; [|done].
    case_bool_decide as Hsz; [done|]. cbn [fst]. constructor; cbn.
    + intros k w [[<- <-]|[? Hw]]%lookup_insert_Some; cbn; [by apply (inv_id r Hinv)|].
      apply retire_active_lookup in Hw as (u & ? & -> & _). by apply (inv_id r Hinv).
    + intros k w [[<- <-]|[? Hw]]%lookup_insert_Some Hd.
      * unfold approved_enough. cbn. lia.
      * apply retire_active_lookup in Hw as (u & Hu & _ & Ha & Hc). unfold approved_enough.
        rewrite Ha. destruct Hc as [[-> _]|[_ Hact]]; [by apply (inv_approved r Hinv k)|].
        destruct (inv_active r Hinv k Hact) as (u' & ? & Hs). simplify_eq.
        apply (inv_approved r Hinv k); [done|]. by rewrite Hs.
    + intros k [= <-]. rewrite lookup_insert_eq. eauto.
    + intros k w [[<- <-]|[? Hw]]%lookup_insert_Some Hs; [done|].
      apply retire_active_lookup in Hw as (u & Hu & _ & _ & [[-> Hc]|[Hr _]]); [|congruence].
      pose proof (inv_unique r Hinv k u Hu Hs). destruct Hc; congruence.
Qed.

Lemma registry_reach_inv h r : registry_reach h r → registry_inv r.
Proof. induction 1; [apply registry_init_inv|by apply registry_step_inv]. Qed.

(** What an operation does to the content of a version: the policy and its hash
    never change, and an approval is added only by that administrator's call. *)
Definition version_grows (op : registry_op) (k : Z) (w v : PolicyVersion) : Prop :=
  v_policy v = v_policy w ∧ v_policy_hash v = v_policy_hash w
  ∧ ∀ a, a ∈ approvals v → a ∈ approvals w ∨ op = OpApprove k a.

Lemma registry_step_versions op r k v :
  registry_inv r → _versions (fst (registry_run op r)) !! k = Some v →
  (∃ w, _versions r !! k = Some w ∧ version_grows op k w v)
  ∨ (approvals v = ∅ ∧ policy_hash (v_policy v) = Ok (v_policy_hash v)).
Proof.
  intros Hinv Hk.
  assert (∀ u, _versions r !! k = Some u → version_grows op k u u) as Hrefl.
  { intros u _. repeat split; auto. }
  destruct op as [id now p b|id a|now id b]; cbn [registry_run] in *.
  - rewrite registry_create_spec in Hk. destruct (policy_hash p) eqn:Hh; [|eauto]. cbn in Hk.
    apply lookup_insert_Some in Hk as [[<- <-]|[_ Hk]]; [by right|eauto].
  - rewrite registry_approve_spec in Hk. destruct (_versions r !! id) as [u|] eqn:Hu; [|eauto].
    destruct (is_in _ _); [eauto|]. cbn [fst _versions] in Hk.
    apply lookup_insert_Some in Hk as [[<- <-]|[_ Hk]]; [|eauto].
    left. exists u. split; [done|]. unfold version_grows, approve_version.
    case_bool_decide; cbn; split_and!; try done; set_solver.
  - rewrite registry_activate_spec in Hk by done.
    destruct (_versions r !! id) as [u|] eqn:Hu; [|eauto].
    case_bool_decide; [eauto|]. cbn [fst _versions] in Hk.
    apply lookup_insert_Some in Hk as [[<- <-]|[_ Hk]].
    + left. exists u. split; [done|]. by apply (Hrefl u).
    + unfold retire_active in Hk. destruct (_active_id r) as [old|]; [|eauto].
      case_bool_decide; [|eauto]. destruct (decide (k = old)) as [->|].
      * rewrite lookup_alter_eq in Hk. apply fmap_Some in Hk as (w & Hw & ->).
        left. exists w. split; [done|]. by apply (Hrefl w).
      * rewrite lookup_alter_ne in Hk by done. eauto.
Qed.

Lemma registry_reach_history h r k v :
  registry_reach h r → _versions r !! k = Some v →
  policy_hash (v_policy v) = Ok (v_policy_hash v) ∧ ∀ a, a ∈ approvals v → OpApprove k a ∈ h.
Proof.
  intros Hr. revert k v. induction Hr as [|h r op Hr IH Hf]; intros k v Hk; [done|].
  apply registry_step_versions in Hk as [(w & Hw & Hp & Hh & Ha)|[Ha Hh]].
  - destruct (IH k w Hw) as [Hhash Happ]. rewrite Hp, Hh. split; [done|].
    intros a [?%Happ| ->]%Ha; [by right|by left].
  - split; [done|]. rewrite Ha. set_solver.
  - by eapply registry_reach_inv.
Qed.

(** The active version was approved by two different administrators. *)
Lemma active_approvers h r v :
  registry_reach h r → snd (registry_active r) = Ok v →
  _active_id r = Some (version_id v) ∧ _versions r !! version_id v = Some v ∧
  ∃ a b, a ≠ b ∧ OpApprove (version_id v) a ∈ h ∧ OpApprove (version_id v) b ∈ h.
Proof.
  intros Hr Hv. pose proof (registry_reach_inv _ _ Hr) as Hinv.
  unfold registry_active, read, lift, mbind, M_bind in Hv. cbn in Hv.
  destruct (_active_id r) as [id|] eqn:Hid; cbn in Hv; [|done].
  destruct (inv_active r Hinv id Hid) as (w & Hw & Hs). rewrite Hw in Hv. cbn in Hv.
  injection Hv as <-. destruct (registry_reach_history _ _ _ _ Hr Hw) as [_ Happ].
  rewrite (inv_id r Hinv id w Hw). split_and!; try done.
  assert (approved_enough w) as Hsz by (apply (inv_approved r Hinv id); congruence).
  unfold approved_enough in Hsz.
  destruct (size_pos_elem_of (approvals w)) as [a Ha]; [lia|].
  destruct (size_pos_elem_of (approvals w ∖ {[a]})) as [b Hb].
  { rewrite size_difference, size_singleton by set_solver. lia. }
  exists a, b. split_and!; [set_solver|by apply Happ|apply Happ; set_solver].
Qed.

(** The two-person rule.  Along every sequence of [create],
    [approve] and [activate] calls, failing ones included: the version [active]
    returns is ACTIVE, no other version is, its hash is the hash of its policy,
    and two different administrators each called [approve] on exactly that version. *)
Theorem policy_two_person_rule h r v :
  registry_reach h r → snd (registry_active r) = Ok v →
  v_status v = ACTIVE ∧ policy_hash (v_policy v) = Ok (v_policy_hash v)
  ∧ (∀ k w, _versions r !! k = Some w → v_status w = ACTIVE → k = version_id v)
  ∧ ∃ a b, a ≠ b ∧ OpApprove (version_id v) a ∈ h ∧ OpApprove (version_id v) b ∈ h.
Proof.
  intros Hr Hv. destruct (active_approvers _ _ _ Hr Hv) as (Hid & Hw & Happ).
  pose proof (registry_reach_inv _ _ Hr) as Hinv.
  destruct (inv_active r Hinv _ Hid) as (w & Hw' & Hs).
  split_and!; [congruence|by apply (registry_reach_history _ _ _ _ Hr Hw)| |done].
  intros k u Hu Hus. pose proof (inv_unique r Hinv k u Hu Hus). congruence.
Qed.
End registry.

Definition sample_policy : PolicyV1 := {|
  policy_name := "treasury";
  enabled_wallets := ["0x00112233445566778899aabbccddeeff00112233"];
  enabled_principals := ["agent-1"];
  enabled_chains := [31337];
  enabled_assets := ["NATIVE:31337"];
  allowed_recipients := ["0xffeeddccbbaa99887766554433221100ffeeddcc"];
  contract_rules := [];
  per_transaction_cap := 1000;
  rolling_caps := [{| window_seconds := 86400; cap_amount := 600 |}];
  maximum_transactions_per_hour := 5;
  mandate_required_above := 500;
  risk := {| maximum_slippage_bps := 50; maximum_quote_age_seconds := 30;
             deny_on_missing_quote := true |};
  emergency_stop := false;
|}.

(** Two administrators approve the sample policy and it is activated. *)
Lemma policy_two_person_rule_witness :
  let e := plain_externals in
  let h := [OpActivate 5 1 "root"; OpApprove 1 "bob"; OpApprove 1 "alice"; OpApprove 1 "alice";
            OpCreate 1 0 sample_policy "alice"] in
  let r := fold_right (λ op r, fst (registry_run op r)) registry_init h in
  ∃ v, snd (registry_active r) = Ok v ∧ v_status v = ACTIVE.
Proof.
  intros e h r. eexists. split; [vm_compute; reflexivity|].
  refine (proj1 (policy_two_person_rule h r _ _ _)).
  - subst h r. cbn [fold_right]. repeat (constructor; [|first [exact I|vm_compute; reflexivity]]).
    constructor.
  - vm_compute. reflexivity.
Defined.
