(* ===== verification/State.v ===== *)
(** Lifecycle and reservation state (src/agentguard-testbed/src/aegisledger/state.py):
    the static policy evaluation and the store in which evaluation and
    reservation happen in one critical section.

    The store's methods hold its lock from entry to exit, so a run of the
    service is a sequence of whole calls; the clock readings and the identifiers
    a call draws are its arguments. Records and reservations are mutated in
    place only through the store's own dictionaries. *)
From Stdlib Require Import ZArith Lia Ascii String.
From stdpp Require Import base gmap sets list strings pretty.
From S2P Require Import Prelude Bytes Canonical Contracts Policy.

Open Scope Z_scope.

(** * Static evaluation *)

Definition reason_if (b : bool) (code : string) : list string := if b then [code] else [].

(** The (contract, selector) pairs the policy allows. *)
Definition allowed_calls (p : PolicyV1) : list (string * string) :=
  r ← contract_rules p; s ← rule_selectors r; [(rule_contract r, str_lower s)].

(** The [if proposal.intent.kind == "transfer"] branch. *)
Definition intent_reasons (pr : ProposalV1) (p : PolicyV1) : list string :=
  match intent pr with
  | TransferIntentV1 recipient =>
      reason_if (negb (is_in recipient (allowed_recipients p))) "RECIPIENT_NOT_ALLOWED"
  | SwapIntentV1 contract selector _ _ _ =>
      reason_if (negb (is_in (contract, str_lower selector) (allowed_calls p)))
        "CONTRACT_SELECTOR_NOT_ALLOWED"
      ++ reason_if (deny_on_missing_quote (risk p)
                    && bool_decide (quote_reference pr = None)) "QUOTE_REQUIRED"
  end.

Definition static_policy_reasons (now : Z) (pr : ProposalV1) (p : PolicyV1) : list string :=
  if emergency_stop p then ["EMERGENCY_STOP"]
  else
    reason_if (deadline pr <=? now) "DEADLINE_EXPIRED"
    ++ reason_if (negb (is_in (wallet pr) (enabled_wallets p))) "WALLET_NOT_ENABLED"
    ++ reason_if (negb (is_in (principal_id pr) (enabled_principals p))) "PRINCIPAL_NOT_ENABLED"
    ++ reason_if (negb (is_in (chain_id pr) (enabled_chains p))) "CHAIN_NOT_ENABLED"
    ++ reason_if (negb (is_in (asset pr) (enabled_assets p))) "ASSET_NOT_ENABLED"
    ++ reason_if (per_transaction_cap p <? amount pr) "PER_TRANSACTION_CAP_EXCEEDED"
    ++ intent_reasons pr p
    ++ reason_if ((mandate_required_above p <? amount pr) && bool_decide (mandate_id pr = None))
         "MANDATE_REQUIRED".

(** * Reservations and records *)

Record Reservation := {
  r_reservation_id : Z;
  r_proposal_id : Z;
  r_principal_id : string;
  r_wallet : string;
  r_chain_id : Z;
  r_asset : string;
  r_amount : Z;
  r_created_at : Z;
  r_active : bool;
  r_settled : bool;
}.

Record ProposalRecord := {
  rec_proposal : ProposalV1;
  rec_state : LifecycleState;
  rec_state_version : Z;
  rec_reason_codes : list string;
  rec_reservation_id : option Z;
  rec_created_at : Z;
  rec_updated_at : Z;
}.

Record ReservationResult := { res_record : ProposalRecord; res_created : bool }.

Record MemoryStateStore := {
  _records : gmap Z ProposalRecord;
  _idempotency : gmap (string * string) Z;
  _reservations : gmap Z Reservation;
  _decision_nonces : gset Z;
  _wallet_nonces : gset (string * Z * Z);
  _version : Z;
}.

Definition store_init : MemoryStateStore :=
  {| _records := ∅; _idempotency := ∅; _reservations := ∅; _decision_nonces := ∅;
     _wallet_nonces := ∅; _version := 0 |}.

Definition set_records f (s : MemoryStateStore) : MemoryStateStore :=
  {| _records := f (_records s); _idempotency := _idempotency s;
     _reservations := _reservations s; _decision_nonces := _decision_nonces s;
     _wallet_nonces := _wallet_nonces s; _version := _version s |}.
Definition set_idempotency f (s : MemoryStateStore) : MemoryStateStore :=
  {| _records := _records s; _idempotency := f (_idempotency s);
     _reservations := _reservations s; _decision_nonces := _decision_nonces s;
     _wallet_nonces := _wallet_nonces s; _version := _version s |}.
Definition set_reservations f (s : MemoryStateStore) : MemoryStateStore :=
  {| _records := _records s; _idempotency := _idempotency s;
     _reservations := f (_reservations s); _decision_nonces := _decision_nonces s;
     _wallet_nonces := _wallet_nonces s; _version := _version s |}.
Definition set_decision_nonces f (s : MemoryStateStore) : MemoryStateStore :=
  {| _records := _records s; _idempotency := _idempotency s;
     _reservations := _reservations s; _decision_nonces := f (_decision_nonces s);
     _wallet_nonces := _wallet_nonces s; _version := _version s |}.
Definition set_wallet_nonces f (s : MemoryStateStore) : MemoryStateStore :=
  {| _records := _records s; _idempotency := _idempotency s;
     _reservations := _reservations s; _decision_nonces := _decision_nonces s;
     _wallet_nonces := f (_wallet_nonces s); _version := _version s |}.
Definition set_version f (s : MemoryStateStore) : MemoryStateStore :=
  {| _records := _records s; _idempotency := _idempotency s;
     _reservations := _reservations s; _decision_nonces := _decision_nonces s;
     _wallet_nonces := _wallet_nonces s; _version := f (_version s) |}.

Definition _next_version : M MemoryStateStore Z :=
  update (set_version (λ v, v + 1));; read _version.

Definition store_get (pid : Z) : M MemoryStateStore (option ProposalRecord) :=
  read (λ s, _records s !! pid).

(** * Evaluation *)

(** The budget a reservation or a proposal draws on. *)
Definition budget_key : Type := string * string * Z * string.
Definition proposal_key (pr : ProposalV1) : budget_key :=
  (principal_id pr, wallet pr, chain_id pr, asset pr).
Definition reservation_key (r : Reservation) : budget_key :=
  (r_principal_id r, r_wallet r, r_chain_id r, r_asset r).

(** Reservations that count against the caps of [key]. *)
Definition counted (key : budget_key) (r : Reservation) : bool :=
  (r_active r || r_settled r) && bool_decide (reservation_key r = key).

(** [(now - item.created_at).total_seconds() < window], exactly. *)
Definition within (now window : Z) (r : Reservation) : bool :=
  now - r_created_at r <? seconds window.

(** What the rolling cap compares: the counted spend of the window. *)
Definition window_spend (key : budget_key) (now window : Z) (m : gmap Z Reservation) : Z :=
  sum_values (λ r, counted key r && within now window r) r_amount m.

Definition recent_count (key : budget_key) (now : Z) (m : gmap Z Reservation) : Z :=
  count_values (λ r, counted key r && within now 3600 r) m.

(** The [for cap in policy.rolling_caps] loop: the first exceeded cap breaks. *)
Fixpoint rolling_cap_reasons (spend : Z → Z) (amount : Z) (caps : list RollingCapV1)
    : list string :=
  match caps with
  | [] => []
  | cap :: caps =>
      if cap_amount cap <? spend (window_seconds cap) + amount then ["ROLLING_CAP_EXCEEDED"]
      else rolling_cap_reasons spend amount caps
  end.

(** [_evaluate], with the clock readings of the static part and of the windows. *)
Definition _evaluate (static_now now : Z) (s : MemoryStateStore) (pr : ProposalV1) (p : PolicyV1)
    : list string :=
  let key := proposal_key pr in
  static_policy_reasons static_now pr p
  ++ rolling_cap_reasons (λ w, window_spend key now w (_reservations s)) (amount pr)
       (rolling_caps p)
  ++ reason_if (maximum_transactions_per_hour p <? recent_count key now (_reservations s) + 1)
       "VELOCITY_EXCEEDED".

Definition simulate (static_now now : Z) (pr : ProposalV1) (p : PolicyV1)
    : M MemoryStateStore (list string) :=
  read (λ s, _evaluate static_now now s pr p).

(** * Reservation *)

(** What one [reserve] call draws: the clock readings, in order, and the
    identifier of the reservation. *)
Record reserve_draws := {
  static_now : Z;
  eval_now : Z;
  reserved_at : Z;
  record_created : Z;
  record_updated : Z;
  new_reservation : Z;
}.

Definition new_reservation_of (d : reserve_draws) (pr : ProposalV1) : Reservation :=
  {| r_reservation_id := new_reservation d; r_proposal_id := proposal_id pr;
     r_principal_id := principal_id pr; r_wallet := wallet pr; r_chain_id := chain_id pr;
     r_asset := asset pr; r_amount := amount pr; r_created_at := reserved_at d;
     r_active := true; r_settled := false |}.

Definition reserve (d : reserve_draws) (pr : ProposalV1) (p : PolicyV1)
    : M MemoryStateStore ReservationResult :=
  let key := (principal_id pr, idempotency_key pr) in
  duplicate_id ← read (λ s, _idempotency s !! key);
  match duplicate_id with
  | Some pid =>
      records ← read _records;
      record ← lift (or_raise (records !! pid) (KeyError (uuid_str pid)));
      mret {| res_record := record; res_created := false |}
  | None =>
      reasons ← read (λ s, _evaluate (static_now d) (eval_now d) s pr p);
      record ←
        match reasons with
        | _ :: _ =>
            v ← _next_version;
            mret {| rec_proposal := pr; rec_state := DENIED; rec_state_version := v;
                    rec_reason_codes := reasons; rec_reservation_id := None;
                    rec_created_at := record_created d; rec_updated_at := record_updated d |}
        | [] =>
            update (set_reservations (insert (new_reservation d) (new_reservation_of d pr)));;
            v ← _next_version;
            mret {| rec_proposal := pr; rec_state := RESERVED; rec_state_version := v;
                    rec_reason_codes := []; rec_reservation_id := Some (new_reservation d);
                    rec_created_at := record_created d; rec_updated_at := record_updated d |}
        end;
      update (set_records (insert (proposal_id pr) record));;
      update (set_idempotency (insert key (proposal_id pr)));;
      mret {| res_record := record; res_created := true |}
  end.

(** * Transitions *)

Definition set_flags (active settled : bool) (r : Reservation) : Reservation :=
  {| r_reservation_id := r_reservation_id r; r_proposal_id := r_proposal_id r;
     r_principal_id := r_principal_id r; r_wallet := r_wallet r; r_chain_id := r_chain_id r;
     r_asset := r_asset r; r_amount := r_amount r; r_created_at := r_created_at r;
     r_active := active; r_settled := settled |}.

Definition _required_reservation (record : ProposalRecord) : M MemoryStateStore (Z * Reservation) :=
  rid ← lift (or_raise (rec_reservation_id record)
                (ValueError "lifecycle state has no reservation"));
  reservations ← read _reservations;
  r ← lift (or_raise (reservations !! rid) (KeyError (uuid_str rid)));
  mret (rid, r).

Definition _release (record : ProposalRecord) : M MemoryStateStore unit :=
  match rec_reservation_id record with
  | None => mret tt
  | Some rid =>
      reservations ← read _reservations;
      r ← lift (or_raise (reservations !! rid) (KeyError (uuid_str rid)));
      update (set_reservations (insert rid (set_flags false (r_settled r) r)))
  end.

Definition transition (now pid : Z) (target : LifecycleState)
    : M MemoryStateStore ProposalRecord :=
  records ← read _records;
  record ← lift (or_raise (records !! pid) (KeyError (uuid_str pid)));
  lift (require_transition (rec_state record) target);;
  (if is_in target [EXPIRED; REVERTED] then _release record else mret tt);;
  (if bool_decide (target = SETTLED) then
     '(rid, r) ← _required_reservation record;
     update (set_reservations (insert rid (set_flags false true r)))
   else mret tt);;
  v ← _next_version;
  let record' := {| rec_proposal := rec_proposal record; rec_state := target;
    rec_state_version := v; rec_reason_codes := rec_reason_codes record;
    rec_reservation_id := rec_reservation_id record;
    rec_created_at := rec_created_at record; rec_updated_at := now |} in
  update (set_records (insert pid record'));;
  mret record'.

(** * Nonces and totals *)

Definition register_decision_nonce (nonce : Z) : M MemoryStateStore unit :=
  used ← read _decision_nonces;
  lift (raise_if (bool_decide (nonce ∈ used)) (ValueError "decision nonce already used"));;
  update (set_decision_nonces (λ x, x ∪ {[nonce]})).

Definition register_wallet_nonce (w : string) (chain nonce : Z) : M MemoryStateStore unit :=
  let key := (str_lower w, chain, nonce) in
  used ← read _wallet_nonces;
  lift (raise_if (bool_decide (key ∈ used)) (ValueError "wallet nonce already used"));;
  update (set_wallet_nonces (λ x, x ∪ {[key]})).

Definition budget_totals (principal w : string) (chain : Z) (a : string)
    : M MemoryStateStore (Z * Z) :=
  let key := (principal, str_lower w, chain, a) in
  read (λ s,
    let matching := λ r, bool_decide (reservation_key r = key) in
    (sum_values (λ r, matching r && r_active r) r_amount (_reservations s),
     sum_values (λ r, matching r && r_settled r) r_amount (_reservations s))).
