(* ===== verification/StateFacts.v ===== *)
(** Facts of State: what each call does on every branch, the store invariant,
    and the spending limits along every sequence of calls. *)
From Stdlib Require Import ZArith Lia Ascii String.
From stdpp Require Import base gmap sets list strings pretty.
From S2P Require Import Prelude Bytes Canonical CanonicalFacts Contracts ContractsFacts Policy.
From S2P Require Import PolicyFacts State.

Open Scope Z_scope.

(** * Evaluation *)

Lemma reason_if_nil b c : reason_if b c = [] ↔ b = false.
Proof. by destruct b. Qed.

Lemma elem_of_allowed_calls c s p :
  (c, s) ∈ allowed_calls p ↔
  ∃ r t, r ∈ contract_rules p ∧ t ∈ rule_selectors r ∧ rule_contract r = c ∧ str_lower t = s.
Proof.
  unfold allowed_calls. rewrite list_elem_of_bind. setoid_rewrite list_elem_of_bind.
  setoid_rewrite list_elem_of_singleton. naive_solver.
Qed.

(** What a policy demands of the intent. *)
Definition intent_allowed (pr : ProposalV1) (p : PolicyV1) : Prop :=
  match intent pr with
  | TransferIntentV1 recipient => recipient ∈ allowed_recipients p
  | SwapIntentV1 contract selector _ _ _ =>
      (∃ r t, r ∈ contract_rules p ∧ t ∈ rule_selectors r ∧ rule_contract r = contract
              ∧ str_lower t = str_lower selector)
      ∧ (deny_on_missing_quote (risk p) = true → quote_reference pr ≠ None)
  end.

(** What a policy demands of a proposal, apart from the budget state. *)
Definition statically_allowed (now : Z) (pr : ProposalV1) (p : PolicyV1) : Prop :=
  emergency_stop p = false ∧ now < deadline pr
  ∧ wallet pr ∈ enabled_wallets p ∧ principal_id pr ∈ enabled_principals p
  ∧ chain_id pr ∈ enabled_chains p ∧ asset pr ∈ enabled_assets p
  ∧ amount pr ≤ per_transaction_cap p ∧ intent_allowed pr p
  ∧ (mandate_required_above p < amount pr → mandate_id pr ≠ None).

Lemma intent_reasons_nil pr p : intent_reasons pr p = [] ↔ intent_allowed pr p.
Proof.
  unfold intent_reasons, intent_allowed. destruct (intent pr).
  - by rewrite reason_if_nil, negb_false_iff, is_in_true.
  - rewrite app_nil_iff, !reason_if_nil, negb_false_iff, is_in_true, elem_of_allowed_calls,
      andb_false_iff, bool_decide_eq_false. destruct (deny_on_missing_quote (risk p)); naive_solver.
Qed.

Lemma static_policy_reasons_nil now pr p :
  static_policy_reasons now pr p = [] ↔ statically_allowed now pr p.
Proof.
  unfold static_policy_reasons, statically_allowed.
  destruct (emergency_stop p); [split; [done|by intros [? _]]|].
  rewrite !app_nil_iff, intent_reasons_nil, !reason_if_nil.
  rewrite !negb_false_iff, !is_in_true, Z.leb_gt, Z.ltb_ge, andb_false_iff, Z.ltb_ge,
    bool_decide_eq_false.
  assert (amount pr ≤ mandate_required_above p ∨ mandate_id pr ≠ None
          ↔ (mandate_required_above p < amount pr → mandate_id pr ≠ None)) as ->; [|tauto].
  split; [intros [?|?]; [lia|done]|].
  intros Hm. destruct (Z.le_gt_cases (amount pr) (mandate_required_above p)); auto.
Qed.

Lemma rolling_cap_reasons_nil spend a caps :
  rolling_cap_reasons spend a caps = [] ↔
  ∀ c, c ∈ caps → spend (window_seconds c) + a ≤ cap_amount c.
Proof.
  induction caps as [|c caps IH]; cbn [rolling_cap_reasons].
  - split; [|done]. intros _ c Hc. by apply elem_of_nil in Hc.
  - destruct (Z.ltb_spec (cap_amount c) (spend (window_seconds c) + a)).
    + split; [done|]. intros Hall. specialize (Hall c ltac:(by left)). lia.
    + rewrite IH. split.
      * intros Hall d [->|Hd]%elem_of_cons; [lia|auto].
      * intros Hall d Hd. apply Hall. by right.
Qed.

Definition within_budget (now : Z) (s : MemoryStateStore) (pr : ProposalV1) (p : PolicyV1) : Prop :=
  (∀ c, c ∈ rolling_caps p →
     window_spend (proposal_key pr) now (window_seconds c) (_reservations s) + amount pr
       ≤ cap_amount c)
  ∧ recent_count (proposal_key pr) now (_reservations s) + 1 ≤ maximum_transactions_per_hour p.

Lemma evaluate_nil t now s pr p :
  _evaluate t now s pr p = [] ↔ statically_allowed t pr p ∧ within_budget now s pr p.
Proof.
  unfold _evaluate, within_budget. rewrite !app_nil_iff, static_policy_reasons_nil,
    rolling_cap_reasons_nil, reason_if_nil, Z.ltb_ge. done.
Qed.

(** C9: the evaluation decides the policy.  The reasons [_evaluate]
    returns are empty exactly when the proposal satisfies every constraint of the
    policy: no emergency stop, deadline ahead, wallet, principal, chain and asset
    enabled, amount within the transaction cap, recipient or (contract, selector)
    allowed with a quote where one is required, a mandate above the threshold,
    every rolling cap and the hourly velocity respected. *)
Theorem evaluate_decides_policy t now s pr p :
  snd (simulate t now pr p s) = Ok [] ↔ statically_allowed t pr p ∧ within_budget now s pr p.
Proof.
  unfold simulate, read. cbn [snd]. rewrite <- evaluate_nil. split; [by intros [= ->]|by intros ->].
Qed.

(** * What the calls do *)

Definition decided_record (d : reserve_draws) (pr : ProposalV1) (p : PolicyV1)
    (s : MemoryStateStore) : ProposalRecord :=
  let reasons := _evaluate (static_now d) (eval_now d) s pr p in
  {| rec_proposal := pr; rec_state := if decide (reasons = []) then RESERVED else DENIED;
     rec_state_version := _version s + 1; rec_reason_codes := reasons;
     rec_reservation_id := if decide (reasons = []) then Some (new_reservation d) else None;
     rec_created_at := record_created d; rec_updated_at := record_updated d |}.

Definition decided_store (d : reserve_draws) (pr : ProposalV1) (p : PolicyV1)
    (s : MemoryStateStore) : MemoryStateStore :=
  let reasons := _evaluate (static_now d) (eval_now d) s pr p in
  {| _records := <[proposal_id pr := decided_record d pr p s]> (_records s);
     _idempotency := <[(principal_id pr, idempotency_key pr) := proposal_id pr]> (_idempotency s);
     _reservations := if decide (reasons = [])
       then <[new_reservation d := new_reservation_of d pr]> (_reservations s)
       else _reservations s;
     _decision_nonces := _decision_nonces s; _wallet_nonces := _wallet_nonces s;
     _version := _version s + 1 |}.

Lemma reserve_spec d pr p s :
  reserve d pr p s =
  match _idempotency s !! (principal_id pr, idempotency_key pr) with
  | Some pid =>
      (s, r ← or_raise (_records s !! pid) (KeyError (uuid_str pid));
          Ok {| res_record := r; res_created := false |})
  | None =>
      (decided_store d pr p s, Ok {| res_record := decided_record d pr p s; res_created := true |})
  end.
Proof.
  unfold reserve, read, lift, mbind, M_bind. cbn.
  destruct (_idempotency s !! _) as [pid|].
  - by destruct (_records s !! pid).
  - unfold decided_store, decided_record.
    destruct (_evaluate (static_now d) (eval_now d) s pr p) as [|c cs]; reflexivity.
Qed.

(** The effect of a transition on the record's reservation. *)
Definition settle_flags (target : LifecycleState) (r : Reservation) : Reservation :=
  if is_in target [EXPIRED; REVERTED] then set_flags false (r_settled r) r
  else if bool_decide (target = SETTLED) then set_flags false true r
  else r.

Definition moved_record (now : Z) (target : LifecycleState) (v : Z) (r : ProposalRecord)
    : ProposalRecord :=
  {| rec_proposal := rec_proposal r; rec_state := target; rec_state_version := v;
     rec_reason_codes := rec_reason_codes r; rec_reservation_id := rec_reservation_id r;
     rec_created_at := rec_created_at r; rec_updated_at := now |}.

Definition moved_store (now pid rid : Z) (target : LifecycleState) (r : ProposalRecord)
    (s : MemoryStateStore) : MemoryStateStore :=
  {| _records := <[pid := moved_record now target (_version s + 1) r]> (_records s);
     _idempotency := _idempotency s;
     _reservations := alter (settle_flags target) rid (_reservations s);
     _decision_nonces := _decision_nonces s; _wallet_nonces := _wallet_nonces s;
     _version := _version s + 1 |}.

(** States in which the reservation of a record protects its amount. *)
Definition protected (st : LifecycleState) : bool := is_in st [RESERVED; SIGNED; SUBMITTED].

(** * The store invariant *)

Record store_inv (s : MemoryStateStore) : Prop := {
  si_record : ∀ pid rec, _records s !! pid = Some rec →
    proposal_id (rec_proposal rec) = pid ∧ rec_state rec ≠ PROPOSED
    ∧ rec_state_version rec ≤ _version s
    ∧ (rec_reservation_id rec = None ↔ rec_state rec = DENIED)
    ∧ (rec_reason_codes rec = [] ↔ rec_state rec ≠ DENIED);
  si_reservation : ∀ pid rec rid, _records s !! pid = Some rec → rec_reservation_id rec = Some rid →
    ∃ r, _reservations s !! rid = Some r ∧ r_proposal_id r = pid
      ∧ reservation_key r = proposal_key (rec_proposal rec)
      ∧ r_amount r = amount (rec_proposal rec)
      ∧ r_active r = protected (rec_state rec)
      ∧ r_settled r = bool_decide (rec_state rec = SETTLED);
  si_idempotency : ∀ key pid, _idempotency s !! key = Some pid →
    is_Some (_records s !! pid);
  si_amount : ∀ rid r, _reservations s !! rid = Some r →
    0 < r_amount r ∧ r_reservation_id r = rid;
}.

Lemma store_init_inv : store_inv store_init.
Proof. constructor; cbn; intros *; rewrite lookup_empty; done. Qed.

Lemma alter_id {K V} `{Countable K} (f : V → V) (m : gmap K V) k :
  (∀ v, m !! k = Some v → f v = v) → alter f k m = m.
Proof.
  intros Hf. apply map_eq. intros j. destruct (decide (j = k)) as [->|].
  - rewrite lookup_alter_eq. destruct (m !! k) eqn:Hk; [|done]. cbn. f_equal. auto.
  - by rewrite lookup_alter_ne.
Qed.

Lemma transition_spec now pid target s :
  store_inv s →
  transition now pid target s =
  match _records s !! pid with
  | None => (s, Err (KeyError (uuid_str pid)))
  | Some rec =>
      match require_transition (rec_state rec) target with
      | Err e => (s, Err e)
      | Ok _ => (moved_store now pid (default 0 (rec_reservation_id rec)) target rec s,
                 Ok (moved_record now target (_version s + 1) rec))
      end
  end.
Proof.
  intros Hinv. unfold transition, read, lift, mbind, M_bind. cbn.
  destruct (_records s !! pid) as [rec|] eqn:Hrec; [|done]. cbn.
  destruct (require_transition (rec_state rec) target) as [[]|] eqn:Htr; [|done].
  destruct (rec_reservation_id rec) as [rid|] eqn:Hrid.
  - destruct (si_reservation s Hinv _ _ _ Hrec Hrid) as (r & Hr & _).
    unfold moved_store, moved_record, settle_flags, _release, _required_reservation, read, lift,
      mbind, M_bind. rewrite Hrid. cbn [default].
    rewrite (alter_lookup _ _ _ r) by done.
    destruct target; eval_tests; cbn; rewrite ?Hr; cbn; rewrite ?(insert_id _ _ r) by done; done.
  - destruct (si_record s Hinv _ _ Hrec) as (_ & _ & _ & Hd & _).
    apply Hd in Hrid. rewrite Hrid in Htr. by destruct target.
Qed.

(** * Sequences of calls *)

Inductive store_op :=
  | OReserve (d : reserve_draws) (pr : ProposalV1) (p : PolicyV1)
  | OTransition (now pid : Z) (target : LifecycleState)
  | ODecisionNonce (nonce : Z)
  | OWalletNonce (w : string) (chain nonce : Z).

Definition store_run (op : store_op) (s : MemoryStateStore) : MemoryStateStore :=
  match op with
  | OReserve d pr p => fst (reserve d pr p s)
  | OTransition now pid target => fst (transition now pid target s)
  | ODecisionNonce nonce => fst (register_decision_nonce nonce s)
  | OWalletNonce w chain nonce => fst (register_wallet_nonce w chain nonce s)
  end.

(** Proposals are validated ([amount > 0]) and [uuid7] draws a new identifier. *)
Definition op_ok (op : store_op) (s : MemoryStateStore) : Prop :=
  match op with
  | OReserve d pr _ => 0 < amount pr ∧ _reservations s !! new_reservation d = None
  | _ => True
  end.

Inductive store_reach (P : store_op → Prop) : MemoryStateStore → Prop :=
  | sreach_init : store_reach P store_init
  | sreach_op s op : store_reach P s → P op → op_ok op s → store_reach P (store_run op s).

Lemma decided_store_inv d pr p s :
  store_inv s → 0 < amount pr → _reservations s !! new_reservation d = None →
  store_inv (decided_store d pr p s).
Proof.
  intros Hinv Ha Hf. unfold decided_store, decided_record.
  destruct (decide (_evaluate (static_now d) (eval_now d) s pr p = [])) as [Hr|Hr].
  all: constructor; cbn.
  - intros pid rec [[<- <-]|[? Hk]]%lookup_insert_Some; cbn; [rewrite Hr; split_and!; try done; lia|].
    destruct (si_record s Hinv _ _ Hk) as (? & ? & ? & ? & ?). split_and!; auto; lia.
  - intros pid rec rid [[<- <-]|[? Hk]]%lookup_insert_Some Hrid; cbn in *.
    + injection Hrid as <-. rewrite lookup_insert_eq. eexists. split; [done|]. by split_and!.
    + destruct (si_reservation s Hinv _ _ _ Hk Hrid) as (r & ? & Hrest). exists r.
      rewrite lookup_insert_ne by congruence. done.
  - intros key pid [[<- <-]|[? Hk]]%lookup_insert_Some; [by rewrite lookup_insert_eq|].
    apply lookup_insert_is_Some'. right. by eapply si_idempotency.
  - intros rid r [[<- <-]|[? Hk]]%lookup_insert_Some; [done|]. by eapply si_amount.
  - intros pid rec [[<- <-]|[? Hk]]%lookup_insert_Some; cbn; [split_and!; try done; lia|].
    destruct (si_record s Hinv _ _ Hk) as (? & ? & ? & ? & ?). split_and!; auto; lia.
  - intros pid rec rid [[<- <-]|[? Hk]]%lookup_insert_Some Hrid; cbn in *; [done|].
    by eapply si_reservation.
  - intros key pid [[<- <-]|[? Hk]]%lookup_insert_Some; [by rewrite lookup_insert_eq|].
    apply lookup_insert_is_Some'. right. by eapply si_idempotency.
  - intros rid r Hk. by eapply si_amount.
Qed.

(** A transition leaves the reservation in the shape of the new state. *)
Lemma settle_flags_state st target r :
  st ≠ PROPOSED → require_transition st target = Ok tt →
  r_active r = protected st → r_settled r = bool_decide (st = SETTLED) →
  r_active (settle_flags target r) = protected target
  ∧ r_settled (settle_flags target r) = bool_decide (target = SETTLED)
  ∧ r_proposal_id (settle_flags target r) = r_proposal_id r
  ∧ reservation_key (settle_flags target r) = reservation_key r
  ∧ r_amount (settle_flags target r) = r_amount r
  ∧ r_created_at (settle_flags target r) = r_created_at r
  ∧ r_reservation_id (settle_flags target r) = r_reservation_id r.
Proof.
  unfold settle_flags, protected. intros Hnp Ht Ha Hs. destruct st, target; try done; eval_tests.
  all: revert Ha Hs; eval_tests; intros Ha Hs; cbn; by split_and!.
Qed.

Lemma moved_store_inv now pid target rec s :
  store_inv s → _records s !! pid = Some rec → require_transition (rec_state rec) target = Ok tt →
  store_inv (moved_store now pid (default 0 (rec_reservation_id rec)) target rec s).
Proof.
  intros Hinv Hrec Htr.
  assert (rec_state rec ≠ DENIED) as Hnd by (intros Hd; rewrite Hd in Htr; by destruct target).
  destruct (si_record s Hinv _ _ Hrec) as (Hpid & Hnp & Hv & Hden & Hcodes).
  destruct (rec_reservation_id rec) as [rid|] eqn:Hrid; [|destruct Hnd; by apply Hden].
  destruct (si_reservation s Hinv _ _ _ Hrec Hrid) as (r & Hr & Hrp & Hkey & Hamt & Hact & Hset).
  destruct (settle_flags_state _ _ r Hnp Htr Hact Hset) as (Ha' & Hs' & Hp' & Hk' & Hm' & _ & Hi').
  assert (target ≠ DENIED ∧ target ≠ PROPOSED) as [Htd Htp].
  { split; intros ->; by destruct (rec_state rec). }
  cbn [default]. unfold moved_store. rewrite (alter_lookup _ _ _ r) by done. constructor; cbn.
  - intros k w [[<- <-]|[? Hk]]%lookup_insert_Some; cbn.
    + rewrite Hrid. split_and!; first [done|lia|tauto].
    + destruct (si_record s Hinv _ _ Hk) as (? & ? & ? & ? & ?). split_and!; auto; lia.
  - intros k w i [[<- <-]|[Hne Hk]]%lookup_insert_Some Hi; cbn in *.
    + replace i with rid by congruence. rewrite lookup_insert_eq. eexists. split; [done|].
      split_and!; congruence.
    + destruct (si_reservation s Hinv _ _ _ Hk Hi) as (q & Hq & Hqp & Hrest). exists q.
      rewrite lookup_insert_ne by congruence. done.
  - intros key k Hk. apply lookup_insert_is_Some'. right. by eapply si_idempotency.
  - intros i q [[<- <-]|[? Hk]]%lookup_insert_Some; [|by eapply si_amount].
    rewrite Hm', Hi'. by eapply si_amount.
Qed.

Lemma store_run_inv op s : store_inv s → op_ok op s → store_inv (store_run op s).
Proof.
  intros Hinv Hok. destruct op as [d pr p|now pid target|n|w c n]; cbn [store_run op_ok] in *.
  - rewrite reserve_spec. destruct (_idempotency s !! _); [done|]. destruct Hok.
    by apply decided_store_inv.
  - rewrite transition_spec by done. destruct (_records s !! pid) as [rec|] eqn:Hrec; [|done].
    destruct (require_transition _ _) as [[]|] eqn:Htr; [|done]. by apply moved_store_inv.
  - unfold register_decision_nonce, read, lift, mbind, M_bind.
    case_bool_decide; cbn; [done|]. by destruct Hinv; constructor.
  - unfold register_wallet_nonce, read, lift, mbind, M_bind.
    case_bool_decide; cbn; [done|]. by destruct Hinv; constructor.
Qed.

Lemma store_reach_inv P s : store_reach P s → store_inv s.
Proof. induction 1; [apply store_init_inv|by apply store_run_inv]. Qed.

(** * Spending limits *)

(** The weight [f] of the reservations of [key] that count and were created in
    the [w] seconds up to [tau]. *)
Definition in_window (key : budget_key) (tau w : Z) (r : Reservation) : bool :=
  counted key r && (r_created_at r <=? tau) && within tau w r.

Definition spend_in (f : Reservation → Z) (key : budget_key) (tau w : Z) (s : MemoryStateStore) : Z :=
  sum_values (in_window key tau w) f (_reservations s).

Section windows.
Variables (f : Reservation → Z) (key : budget_key) (w limit : Z).
Hypothesis f_nonneg : ∀ r, 0 < r_amount r → 0 ≤ f r.
Hypothesis f_flags : ∀ a b r, f (set_flags a b r) = f r.

Definition limited (s : MemoryStateStore) : Prop := ∀ tau, spend_in f key tau w s ≤ limit.

Lemma settle_flags_term tau st target r :
  st ≠ PROPOSED → require_transition st target = Ok tt →
  r_active r = protected st → r_settled r = bool_decide (st = SETTLED) → 0 < r_amount r →
  term (in_window key tau w) f (settle_flags target r) ≤ term (in_window key tau w) f r.
Proof.
  intros Hnp Ht Ha Hs Hr.
  destruct (settle_flags_state st target r) as (Ha' & Hs' & _ & Hk & _ & Hc & _); auto.
  assert (f (settle_flags target r) = f r) as Hf.
  { unfold settle_flags. repeat case_match; auto. }
  unfold term, in_window, counted, within. rewrite Ha', Hs', Hk, Hc, Hf, Ha, Hs.
  specialize (f_nonneg r Hr).
  destruct st, target; try done; unfold protected; eval_tests; cbn [orb andb];
    case_match; try lia; case_match; lia.
Qed.

(** Transitions never add to a window. *)
Lemma moved_store_limited now pid target rec s :
  store_inv s → limited s → _records s !! pid = Some rec →
  require_transition (rec_state rec) target = Ok tt →
  limited (moved_store now pid (default 0 (rec_reservation_id rec)) target rec s).
Proof.
  intros Hinv Hl Hrec Htr tau. specialize (Hl tau).
  destruct (si_record s Hinv _ _ Hrec) as (_ & Hnp & _ & Hden & _).
  destruct (rec_reservation_id rec) as [rid|] eqn:Hrid.
  - destruct (si_reservation s Hinv _ _ _ Hrec Hrid) as (r & Hr & _ & _ & _ & Hact & Hset).
    destruct (si_amount s Hinv _ _ Hr) as [Hpos _].
    unfold spend_in, moved_store in *. cbn [_reservations default] in *.
    rewrite (alter_lookup _ _ _ r), (sum_values_update _ _ _ _ r) by done.
    pose proof (settle_flags_term tau _ _ r Hnp Htr Hact Hset Hpos). lia.
  - rewrite (proj1 Hden) in Htr by done. by destruct target.
Qed.

(** A reservation that was checked against the window stays within it. *)
Lemma decided_store_limited d pr p s :
  store_inv s → limited s → 0 < amount pr → _reservations s !! new_reservation d = None →
  eval_now d ≤ reserved_at d →
  (proposal_key pr = key → _evaluate (static_now d) (eval_now d) s pr p = [] →
     sum_values (λ r, counted key r && within (eval_now d) w r) f (_reservations s)
       + f (new_reservation_of d pr) ≤ limit) →
  limited (decided_store d pr p s).
Proof.
  intros Hinv Hl Ha Hfresh Htime Hcheck tau. unfold spend_in, decided_store. cbn [_reservations].
  destruct (decide (_ = [])) as [Hr|]; [|apply Hl].
  rewrite sum_values_insert by done. specialize (Hl tau).
  unfold term at 1. destruct (in_window key tau w (new_reservation_of d pr)) eqn:Hin; [|apply Hl].
  unfold in_window, counted in Hin. prop_of_bool. destruct Hin as [[[_ Hk] Hc] _].
  specialize (Hcheck Hk Hr). cbn in Hc.
  enough (sum_values (in_window key tau w) f (_reservations s)
    ≤ sum_values (λ r, counted key r && within (eval_now d) w r) f (_reservations s)) by lia.
  apply sum_values_mono. intros rid r Hrid.
  destruct (si_amount s Hinv _ _ Hrid) as [Hpos _]. specialize (f_nonneg r Hpos).
  unfold term, in_window, within. destruct (counted key r); cbn; [|lia].
  repeat case_match; prop_of_bool; lia.
Qed.

(** The check [reserve] makes against the window, as an assumption on the
    calls: whenever it reserves, the new total is within the limit. *)
Definition checks_window (op : store_op) : Prop :=
  match op with
  | OReserve d pr p => eval_now d ≤ reserved_at d ∧ ∀ s, store_inv s →
      proposal_key pr = key → _evaluate (static_now d) (eval_now d) s pr p = [] →
      sum_values (λ r, counted key r && within (eval_now d) w r) f (_reservations s)
        + f (new_reservation_of d pr) ≤ limit
  | _ => True
  end.

Lemma store_reach_limited P s :
  0 ≤ limit → (∀ op, P op → checks_window op) → store_reach P s → limited s.
Proof.
  intros Hlim HP Hr. induction Hr as [|s op Hr IH Hop Hok].
  - intros tau. unfold spend_in. cbn. by rewrite sum_values_empty.
  - pose proof (store_reach_inv P s Hr) as Hinv. apply HP in Hop.
    destruct op as [d pr p|now pid target|n|w' c n]; cbn [store_run op_ok checks_window] in *.
    + rewrite reserve_spec. destruct (_idempotency s !! _); [done|]. destruct Hok, Hop.
      apply decided_store_limited; auto.
    + rewrite transition_spec by done. destruct (_records s !! pid) as [rec|] eqn:Hrec; [|done].
      destruct (require_transition _ _) as [[]|] eqn:Htr; [|done]. by apply moved_store_limited.
    + unfold register_decision_nonce, read, lift, mbind, M_bind. by case_bool_decide.
    + unfold register_wallet_nonce, read, lift, mbind, M_bind. by case_bool_decide.
Qed.
End windows.

(** Every reservation for [key] is decided under a policy with a rolling cap of
    at most [limit] over [w] seconds, and reads its clocks in order. *)
Definition capped (key : budget_key) (w limit : Z) (op : store_op) : Prop :=
  match op with
  | OReserve d pr p => eval_now d ≤ reserved_at d ∧
      (proposal_key pr = key →
        ∃ c, c ∈ rolling_caps p ∧ window_seconds c = w ∧ cap_amount c ≤ limit)
  | _ => True
  end.

(** C5: rolling caps hold in every window.  Whatever sequence of
    reservations (for this and other budgets), transitions and nonce
    registrations the store goes through, if each reservation on a budget is
    evaluated under a policy capping [w] seconds at [limit] or less, then the
    amounts reserved or settled and not released in any [w]-second interval, ending
    at any instant, never add up to more than [limit]. *)
Theorem rolling_cap_respected key w limit s tau :
  0 ≤ limit → store_reach (capped key w limit) s → spend_in r_amount key tau w s ≤ limit.
Proof.
  intros Hl Hr. revert tau. eapply store_reach_limited; [..|exact Hr]; try done; [lia|].
  intros [d pr p| | |]; cbn; try done. intros [Ht Hcap]. split; [done|].
  intros s' _ Hk He. destruct (Hcap Hk) as (c & Hc & <- & Hle).
  apply evaluate_nil in He as [_ [Hb _]]. specialize (Hb c Hc). rewrite Hk in Hb.
  unfold window_spend in Hb. lia.
Qed.

(** Every reservation for [key] is decided under a policy with an hourly velocity
    of at most [limit]. *)
Definition paced (key : budget_key) (limit : Z) (op : store_op) : Prop :=
  match op with
  | OReserve d pr p => eval_now d ≤ reserved_at d ∧
      (proposal_key pr = key → maximum_transactions_per_hour p ≤ limit)
  | _ => True
  end.

(** The velocity limit holds in every hour.  If each
    reservation on a budget is evaluated under a policy allowing at most [limit]
    transactions per hour, then no sequence of calls leaves more than [limit]
    unreleased reservations created within any one hour. *)
Theorem velocity_respected key limit s tau :
  0 ≤ limit → store_reach (paced key limit) s → spend_in (λ _, 1) key tau 3600 s ≤ limit.
Proof.
  intros Hl Hr. revert tau. eapply store_reach_limited; [..|exact Hr]; try done.
  intros [d pr p| | |]; cbn; try done. intros [Ht Hcap]. split; [done|].
  intros s' _ Hk He. apply evaluate_nil in He as [_ [_ Hb]]. rewrite Hk in Hb.
  unfold recent_count, count_values in Hb. specialize (Hcap Hk). lia.
Qed.

(** * Later states *)

(** [s'] is reached from [s] by further calls. *)
Inductive store_later (s : MemoryStateStore) : MemoryStateStore → Prop :=
  | later_refl : store_later s s
  | later_op s' op : store_later s s' → op_ok op s' → store_later s (store_run op s').

(** What a call never takes back. *)
Record store_grows (s s' : MemoryStateStore) : Prop := {
  grows_idempotency : _idempotency s ⊆ _idempotency s';
  grows_decision : _decision_nonces s ⊆ _decision_nonces s';
  grows_wallet : _wallet_nonces s ⊆ _wallet_nonces s';
  grows_version : _version s ≤ _version s';
}.

#[export] Instance store_grows_preorder : PreOrder store_grows.
Proof.
  split.
  - intros s. constructor; done || lia.
  - intros s t u [] []. constructor; try (etrans; done); lia.
Qed.

Lemma store_run_grows op s : store_inv s → store_grows s (store_run op s).
Proof.
  intros Hinv. destruct op as [d pr p|now pid target|n|w c n]; cbn [store_run].
  - rewrite reserve_spec. destruct (_idempotency s !! _) eqn:Hk; [done|].
    constructor; cbn; try done; [by apply insert_subseteq|lia].
  - rewrite transition_spec by done. destruct (_records s !! pid); [|done].
    destruct (require_transition _ _); [|done]. constructor; cbn; try done. lia.
  - unfold register_decision_nonce, read, lift, mbind, M_bind.
    case_bool_decide; cbn; [done|]. constructor; cbn; try done; set_solver.
  - unfold register_wallet_nonce, read, lift, mbind, M_bind.
    case_bool_decide; cbn; [done|]. constructor; cbn; try done; set_solver.
Qed.

Lemma store_later_grows s s' :
  store_inv s → store_later s s' → store_inv s' ∧ store_grows s s'.
Proof.
  intros Hinv. induction 1 as [|s' op _ [Hinv' Hg] Hok]; [done|]. split.
  - by apply store_run_inv.
  - etrans; [done|by apply store_run_grows].
Qed.

(** Reservations are idempotent.  Once a [reserve] call has been
    decided for a principal and idempotency key, every later call with that
    principal and key, whatever the proposal, policy, clocks and the calls in
    between, changes nothing in the store and returns the current record of the
    first call's proposal identifier with [created = false]: no retry reserves twice. *)
Theorem reserve_idempotent P s d pr p s1 d' pr' p' :
  store_reach P s → op_ok (OReserve d pr p) s → principal_id pr' = principal_id pr →
  idempotency_key pr' = idempotency_key pr →
  _idempotency s !! (principal_id pr, idempotency_key pr) = None →
  store_later (fst (reserve d pr p s)) s1 →
  ∃ rec, _records s1 !! proposal_id pr = Some rec
    ∧ reserve d' pr' p' s1 = (s1, Ok {| res_record := rec; res_created := false |}).
Proof.
  intros Hr Hok Hp Hk Hnew Hlater. pose proof (store_reach_inv P s Hr) as Hinv.
  pose proof (store_run_inv _ _ Hinv Hok) as Hinv'. cbn [store_run] in Hinv'.
  destruct (store_later_grows _ _ Hinv' Hlater) as [Hinv1 [Hid _ _ _]].
  assert (_idempotency s1 !! (principal_id pr, idempotency_key pr) = Some (proposal_id pr)) as Hs1.
  { eapply lookup_weaken; [|exact Hid]. rewrite reserve_spec, Hnew. cbn. by rewrite lookup_insert_eq. }
  destruct (si_idempotency s1 Hinv1 _ _ Hs1) as [rec Hrec]. exists rec. split; [done|].
  by rewrite reserve_spec, Hp, Hk, Hs1, Hrec.
Qed.

(** C31: transitions are atomic and follow the lifecycle.  From a
    reachable store, [transition] either raises and leaves every dictionary as it
    was, or moves the one record along an allowed edge with a fresh, larger version,
    frees the reservation exactly when the target is EXPIRED, REVERTED or SETTLED,
    marks it settled exactly when it is SETTLED, and touches no other record. *)
Theorem transition_atomic P s now pid target :
  store_reach P s →
  let '(s', r) := transition now pid target s in
  match r with
  | Err _ => s' = s
  | Ok rec' => ∃ rec rid res res', _records s !! pid = Some rec
      ∧ target ∈ _ALLOWED_TRANSITIONS (rec_state rec)
      ∧ _records s' = <[pid := rec']> (_records s)
      ∧ rec_state rec' = target ∧ rec_proposal rec' = rec_proposal rec
      ∧ rec_state_version rec < rec_state_version rec'
      ∧ rec_reservation_id rec' = Some rid ∧ _reservations s !! rid = Some res
      ∧ _reservations s' = <[rid := res']> (_reservations s)
      ∧ r_active res' = protected target ∧ r_settled res' = bool_decide (target = SETTLED)
      ∧ r_amount res' = r_amount res ∧ reservation_key res' = reservation_key res
  end.
Proof.
  intros Hr. pose proof (store_reach_inv P s Hr) as Hinv. rewrite transition_spec by done.
  destruct (_records s !! pid) as [rec|] eqn:Hrec; [|done].
  destruct (require_transition (rec_state rec) target) as [[]|] eqn:Htr; [|done].
  destruct (si_record s Hinv _ _ Hrec) as (_ & Hnp & Hv & Hden & _).
  destruct (rec_reservation_id rec) as [rid|] eqn:Hrid; cycle 1.
  { rewrite (proj1 Hden) in Htr by done. by destruct target. }
  destruct (si_reservation s Hinv _ _ _ Hrec Hrid) as (r & Hres & _ & _ & _ & Hact & Hset).
  destruct (settle_flags_state _ _ r Hnp Htr Hact Hset) as (? & ? & _ & ? & ? & _ & _).
  exists rec, rid, r, (settle_flags target r). unfold moved_store, moved_record. cbn.
  rewrite (alter_lookup _ _ _ r) by done. rewrite Hrid.
  split_and!; try done; [by apply require_transition_Ok|lia].
Qed.

(** Nonces are used once.  After a decision nonce or a wallet
    nonce has been registered, registering it again raises, however many calls
    come in between and however the wallet's address is cased. *)
Theorem nonces_single_use P s s1 nonce w w' chain n :
  store_reach P s →
  (snd (register_decision_nonce nonce s) = Ok tt →
   store_later (fst (register_decision_nonce nonce s)) s1 →
   register_decision_nonce nonce s1 = (s1, Err (ValueError "decision nonce already used")))
  ∧ (snd (register_wallet_nonce w chain n s) = Ok tt → str_lower w' = str_lower w →
     store_later (fst (register_wallet_nonce w chain n s)) s1 →
     register_wallet_nonce w' chain n s1 = (s1, Err (ValueError "wallet nonce already used"))).
Proof.
  intros Hr. pose proof (store_reach_inv P s Hr) as Hinv. split.
  - intros Hok Hl. pose proof (store_run_inv (ODecisionNonce nonce) s Hinv I) as Hinv'.
    cbn [store_run] in Hinv'. destruct (store_later_grows _ _ Hinv' Hl) as [_ [_ Hg _ _]].
    unfold register_decision_nonce, read, lift, mbind, M_bind in *.
    destruct (bool_decide (nonce ∈ _decision_nonces s)); cbn in *; [done|].
    rewrite bool_decide_true; [done|]. set_solver.
  - intros Hok Hw Hl. pose proof (store_run_inv (OWalletNonce w chain n) s Hinv I) as Hinv'.
    cbn [store_run] in Hinv'. destruct (store_later_grows _ _ Hinv' Hl) as [_ [_ _ Hg _]].
    unfold register_wallet_nonce, read, lift, mbind, M_bind in *. rewrite Hw.
    destruct (bool_decide ((str_lower w, chain, n) ∈ _wallet_nonces s)); cbn in *; [done|].
    rewrite bool_decide_true; [done|]. set_solver.
Qed.

(** * Witnesses *)

Definition sample_draws (t rid : Z) : reserve_draws :=
  {| static_now := t; eval_now := t; reserved_at := t; record_created := t; record_updated := t;
     new_reservation := rid |}.
Definition sample_key : budget_key := proposal_key sample_proposal.
Definition sample_reserve : store_op := OReserve (sample_draws (seconds 1000) 7) sample_proposal sample_policy.
Definition sample_store : MemoryStateStore := Eval vm_compute in store_run sample_reserve store_init.

Lemma sample_store_run : sample_store = store_run sample_reserve store_init.
Proof. vm_compute. reflexivity. Qed.

Lemma sample_store_reach (P : store_op → Prop) : P sample_reserve → store_reach P sample_store.
Proof.
  intros HP. rewrite sample_store_run. constructor; [constructor|done|].
  split; vm_compute; reflexivity.
Qed.

Lemma rolling_cap_respected_witness :
  spend_in r_amount sample_key (seconds 1500) 86400 sample_store = 250
  ∧ spend_in r_amount sample_key (seconds 1500) 86400 sample_store ≤ 600.
Proof.
  split; [vm_compute; reflexivity|].
  apply (rolling_cap_respected sample_key 86400 600); [lia|].
  apply sample_store_reach. split; [vm_compute; congruence|intros _].
  eexists. split; [left|]. split; [reflexivity|vm_compute; congruence].
Defined.

Lemma velocity_respected_witness :
  spend_in (λ _, 1) sample_key (seconds 1500) 3600 sample_store = 1
  ∧ spend_in (λ _, 1) sample_key (seconds 1500) 3600 sample_store ≤ 5.
Proof.
  split; [vm_compute; reflexivity|].
  apply (velocity_respected sample_key 5); [lia|].
  apply sample_store_reach. split; vm_compute; congruence.
Defined.

Lemma reserve_idempotent_witness :
  ∃ rec, _records sample_store !! proposal_id sample_proposal = Some rec
    ∧ reserve (sample_draws (seconds 1001) 8) sample_proposal sample_policy sample_store
      = (sample_store, Ok {| res_record := rec; res_created := false |}).
Proof.
  rewrite sample_store_run.
  refine (reserve_idempotent (λ _, True) store_init (sample_draws (seconds 1000) 7) sample_proposal
    sample_policy _ _ sample_proposal sample_policy _ _ _ _ _ _).
  - constructor.
  - split; vm_compute; reflexivity.
  - reflexivity.
  - reflexivity.
  - vm_compute; reflexivity.
  - constructor.
Defined.

Lemma transition_atomic_witness :
  ∃ s' rec', transition (seconds 1002) (proposal_id sample_proposal) SIGNED sample_store
    = (s', Ok rec') ∧ rec_state rec' = SIGNED.
Proof.
  pose proof (transition_atomic (λ _, True) sample_store (seconds 1002)
    (proposal_id sample_proposal) SIGNED (sample_store_reach _ I)) as H.
  destruct (transition _ _ _ _) as [s' [rec'|e]] eqn:E.
  - exists s', rec'. split; [reflexivity|]. destruct H as (? & ? & ? & ? & _ & _ & _ & H & _).
    exact H.
  - exfalso. vm_compute in E. discriminate E.
Defined.

Lemma nonces_single_use_witness :
  register_decision_nonce 9 (fst (register_decision_nonce 9 sample_store))
  = (fst (register_decision_nonce 9 sample_store), Err (ValueError "decision nonce already used")).
Proof.
  apply (proj1 (nonces_single_use (λ _, True) sample_store _ 9 "" "" 1 0
    (sample_store_reach _ I))).
  - vm_compute. reflexivity.
  - constructor.
Defined.
