(* ===== verification/Authorization.v ===== *)
(** The abstract authorization protocol (src/agentguard-testbed/formal/Authorization.tla) and
    the refinement: the store of State implements it.

    The protocol keeps, per proposal, its lifecycle state, the set of
    proposals holding a reservation, the settled spend and the set of proposals
    that were signed.  [Next] has the seven actions of the module with their guards;
    [Amount] and [Cap] are its constants ([Amount] may differ from proposal to
    proposal, the module's is the constant [UnitAmount]).  The module knows no reason
    for a denial but the cap, while [reserve] also denies for the other rules of a
    policy (an asset or recipient that is not allowed, an expired deadline, a second
    budget, ...).  Those denials are no action of the module: they are the separate
    step [Refuse], and [Reached] is what the actions and [Refuse] reach.  Each call of
    the store is shown to be one action, a [Refuse] (exactly for a denial the cap
    alone would have admitted) or no step at all. *)
From Stdlib Require Import ZArith Lia Ascii String.
From stdpp Require Import base gmap sets fin_sets list strings pretty.
From S2P Require Import Prelude Bytes Canonical CanonicalFacts Contracts ContractsFacts Policy.
From S2P Require Import PolicyFacts State StateFacts.

Open Scope Z_scope.

(** * The protocol *)

Section protocol.
Variables (Amount : Z → Z) (Cap : Z).

Record auth := {
  a_state : gmap Z LifecycleState;
  a_reservations : gset Z;
  a_settledSpend : Z;
  a_authorized : gset Z;
}.

(** [state[p]]; a proposal is PROPOSED until something happens to it. *)
Definition state_of (a : auth) (p : Z) : LifecycleState := default PROPOSED (a_state a !! p).

Definition SumProposals (X : gset Z) : Z := foldr (λ p acc, Amount p + acc) 0 (elements X).
Definition ReservedSpend (a : auth) : Z := SumProposals (a_reservations a).

Definition Init : auth :=
  {| a_state := ∅; a_reservations := ∅; a_settledSpend := 0; a_authorized := ∅ |}.

Definition except (a : auth) (p : Z) (st : LifecycleState) : gmap Z LifecycleState :=
  <[p := st]> (a_state a).

Inductive Next (a : auth) : auth → Prop :=
  | Reserve p : state_of a p = PROPOSED → ReservedSpend a + a_settledSpend a + Amount p ≤ Cap →
      Next a {| a_state := except a p RESERVED; a_reservations := a_reservations a ∪ {[p]};
                a_settledSpend := a_settledSpend a; a_authorized := a_authorized a |}
  | Deny p : state_of a p = PROPOSED → Cap < ReservedSpend a + a_settledSpend a + Amount p →
      Next a {| a_state := except a p DENIED; a_reservations := a_reservations a;
                a_settledSpend := a_settledSpend a; a_authorized := a_authorized a |}
  | Sign p : state_of a p = RESERVED →
      Next a {| a_state := except a p SIGNED; a_reservations := a_reservations a;
                a_settledSpend := a_settledSpend a; a_authorized := a_authorized a ∪ {[p]} |}
  | Submit p : state_of a p = SIGNED →
      Next a {| a_state := except a p SUBMITTED; a_reservations := a_reservations a;
                a_settledSpend := a_settledSpend a; a_authorized := a_authorized a |}
  | Settle p : state_of a p = SUBMITTED →
      Next a {| a_state := except a p SETTLED; a_reservations := a_reservations a ∖ {[p]};
                a_settledSpend := a_settledSpend a + Amount p; a_authorized := a_authorized a |}
  | Revert p : state_of a p = SUBMITTED →
      Next a {| a_state := except a p REVERTED; a_reservations := a_reservations a ∖ {[p]};
                a_settledSpend := a_settledSpend a; a_authorized := a_authorized a |}
  | Expire p : state_of a p ∈ [PROPOSED; RESERVED; SIGNED] →
      Next a {| a_state := except a p EXPIRED; a_reservations := a_reservations a ∖ {[p]};
                a_settledSpend := a_settledSpend a; a_authorized := a_authorized a |}.

(** Not in the module: a denial by another rule than the cap. *)
Definition denied (a : auth) (p : Z) : auth :=
  {| a_state := except a p DENIED; a_reservations := a_reservations a;
     a_settledSpend := a_settledSpend a; a_authorized := a_authorized a |}.

Inductive Refuse (a : auth) : auth → Prop :=
  | Refused p : state_of a p = PROPOSED → ReservedSpend a + a_settledSpend a + Amount p ≤ Cap →
      Refuse a (denied a p).

Inductive Reached : auth → Prop :=
  | reached_init : Reached Init
  | reached_next a a' : Reached a → Next a a' → Reached a'
  | reached_refuse a a' : Reached a → Refuse a a' → Reached a'.

(** ** Its invariants *)

Definition NoSigningWithoutAuthorization (a : auth) : Prop :=
  ∀ p, state_of a p ∈ [SIGNED; SUBMITTED; SETTLED] → p ∈ a_authorized a.
Definition NoOverspend (a : auth) : Prop := ReservedSpend a + a_settledSpend a ≤ Cap.
Definition ReservationSafety (a : auth) : Prop :=
  ∀ p, p ∈ a_reservations a ↔ protected (state_of a p) = true.

Lemma SumProposals_add X p : p ∉ X → SumProposals (X ∪ {[p]}) = SumProposals X + Amount p.
Proof.
  intros Hp. unfold SumProposals. rewrite (union_comm_L X).
  assert (∀ l k, l ≡ₚ k → foldr (λ p acc, Amount p + acc) 0 l = foldr (λ p acc, Amount p + acc) 0 k)
    as Hperm by (induction 1; cbn; lia).
  rewrite (Hperm _ _ (elements_union_singleton X p Hp)). cbn. lia.
Qed.

Lemma SumProposals_remove X p : p ∈ X → SumProposals (X ∖ {[p]}) = SumProposals X - Amount p.
Proof.
  intros Hp. replace X with ((X ∖ {[p]}) ∪ {[p]}) at 2.
  - rewrite SumProposals_add by set_solver. lia.
  - apply set_eq. intros q. destruct (decide (q = p)); set_solver.
Qed.

Lemma SumProposals_absent X p : p ∉ X → SumProposals (X ∖ {[p]}) = SumProposals X.
Proof. intros Hp. f_equal. set_solver. Qed.

Lemma state_of_except (a : auth) p st q R n A :
  state_of {| a_state := except a p st; a_reservations := R; a_settledSpend := n;
              a_authorized := A |} q = if decide (q = p) then st else state_of a q.
Proof.
  unfold state_of, except. cbn. destruct (decide (q = p)) as [->|].
  - by rewrite lookup_insert_eq.
  - by rewrite lookup_insert_ne.
Qed.

(** A proposal that is denied holds no reservation, before or after. *)
Lemma state_of_denied a p q :
  state_of (denied a p) q = if decide (q = p) then DENIED else state_of a q.
Proof. apply state_of_except. Qed.

Lemma Reached_ReservationSafety a : Reached a → ReservationSafety a.
Proof.
  induction 1 as [|a a' _ IH Hn|a a' _ IH [p Hs _]]; [intros p; cbn; set_solver| |]; cycle 1.
  { intros q. rewrite state_of_denied. cbn [denied a_reservations].
    destruct (decide (q = p)) as [->|]; [|apply IH]. by rewrite (IH p), Hs. }
  assert (∀ p st, state_of a p = st → (p ∈ a_reservations a ↔ protected st = true)) as IH'
    by (intros p st <-; apply IH).
  destruct Hn as [p Hs|p Hs _|p Hs|p Hs|p Hs|p Hs|p Hs]; intros q; rewrite state_of_except;
    cbn [a_reservations]; specialize (IH q).
  all: destruct (decide (q = p)) as [->|Hne]; [|set_solver].
  1-6: apply IH' in Hs; revert Hs; unfold protected; eval_tests; set_solver.
  unfold protected. eval_tests. set_solver.
Qed.

Lemma Reached_NoSigning a : Reached a → NoSigningWithoutAuthorization a.
Proof.
  induction 1 as [|a a' _ IH Hn|a a' _ IH [p Hs _]]; [intros p; cbn; set_solver| |]; cycle 1.
  { intros q. rewrite state_of_denied. cbn [denied a_authorized].
    destruct (decide (q = p)) as [->|]; [set_solver|apply IH]. }
  assert (∀ p st, state_of a p = st → st ∈ [SIGNED; SUBMITTED; SETTLED] → p ∈ a_authorized a) as IH'
    by (intros p st <-; apply IH).
  destruct Hn as [p Hs|p Hs _|p Hs|p Hs|p Hs|p Hs|p Hs]; intros q; rewrite state_of_except;
    cbn [a_authorized]; specialize (IH q);
    destruct (decide (q = p)) as [->|Hne]; try set_solver.
  all: apply IH' in Hs; set_solver.
Qed.

Lemma Reached_NoOverspend a : 0 ≤ Cap → (∀ p, 0 ≤ Amount p) → Reached a → NoOverspend a.
Proof.
  intros HC HA Ha. induction Ha as [|a a' Ha IH Hn|a a' _ IH []]; [| |exact IH].
  - unfold NoOverspend, ReservedSpend, SumProposals. cbn. done.
  - pose proof (Reached_ReservationSafety a Ha) as Hsafe. unfold NoOverspend, ReservedSpend in *.
    assert (∀ p, protected (state_of a p) = false → p ∉ a_reservations a) as Hout
      by (intros p Hp Hin; apply Hsafe in Hin; congruence).
    destruct Hn as [p Hs Hc|p Hs|p Hs|p Hs|p Hs|p Hs|p Hs]; cbn [a_reservations a_settledSpend];
      try done.
    + rewrite SumProposals_add by (apply Hout; by rewrite Hs). unfold ReservedSpend in Hc. lia.
    + rewrite SumProposals_remove by (apply Hsafe; by rewrite Hs). lia.
    + specialize (HA p). rewrite SumProposals_remove by (apply Hsafe; by rewrite Hs). lia.
    + specialize (HA p). destruct (decide (p ∈ a_reservations a)) as [Hin|Hni].
      * rewrite SumProposals_remove by done. lia.
      * by rewrite SumProposals_absent.
Qed.
End protocol.

(** * The store implements the protocol *)

Section refinement.
Variables (Amount : Z → Z) (Cap w T0 : Z) (key : budget_key).

(** One budget over one window: the proposals draw on [key], their amounts are
    [Amount], each policy caps [w] seconds at [Cap], and the run fits
    in one window, so that no spend is forgotten (Authorization.tla has no clock). *)
Definition one_window (op : store_op) : Prop :=
  match op with
  | OReserve d pr p =>
      amount pr = Amount (proposal_id pr) ∧ proposal_key pr = key
      ∧ T0 ≤ reserved_at d ∧ eval_now d < T0 + seconds w
      ∧ ∃ c, c ∈ rolling_caps p ∧ window_seconds c = w ∧ cap_amount c = Cap
  | _ => True
  end.

(** A proposal identifier is submitted under one idempotency key. *)
Definition new_proposal (op : store_op) (s : MemoryStateStore) : Prop :=
  match op with
  | OReserve _ pr _ => _idempotency s !! (principal_id pr, idempotency_key pr) = None →
      _records s !! proposal_id pr = None
  | _ => True
  end.

Inductive store_exec : MemoryStateStore → Prop :=
  | exec_init : store_exec store_init
  | exec_op s op : store_exec s → one_window op → op_ok op s → new_proposal op s →
      store_exec (store_run op s).

Lemma store_exec_reach s : store_exec s → store_reach one_window s.
Proof. induction 1; by constructor. Qed.

(** The simulation relation. *)
Record simulates (s : MemoryStateStore) (a : auth) : Prop := {
  sim_state : a_state a = rec_state <$> _records s;
  sim_reserved : sum_values r_active r_amount (_reservations s) = ReservedSpend Amount a;
  sim_settled : sum_values r_settled r_amount (_reservations s) = a_settledSpend a;
  sim_amount : ∀ pid rec, _records s !! pid = Some rec → amount (rec_proposal rec) = Amount pid;
  sim_budget : ∀ rid r, _reservations s !! rid = Some r →
    reservation_key r = key ∧ T0 ≤ r_created_at r ∧ (r_active r && r_settled r) = false;
}.

Lemma sim_state_of s a p :
  simulates s a → state_of a p = from_option rec_state PROPOSED (_records s !! p).
Proof.
  intros Hsim. unfold state_of. rewrite (sim_state s a Hsim), lookup_fmap.
  by destruct (_records s !! p).
Qed.

(** Inside one window the rolling spend is everything reserved or settled. *)
Lemma sim_window_spend s a now :
  simulates s a → now < T0 + seconds w →
  window_spend key now w (_reservations s) = ReservedSpend Amount a + a_settledSpend a.
Proof.
  intros [_ Hr Hs _ Hb] Hnow. rewrite <- Hr, <- Hs, <- sum_values_split.
  - unfold window_spend. apply sum_values_ext. intros rid r Hrid.
    destruct (Hb rid r Hrid) as (Hk & Ht & _). unfold term, counted, within.
    rewrite bool_decide_true, andb_true_r by done.
    replace (now - r_created_at r <? seconds w) with true by (symmetry; apply Z.ltb_lt; lia).
    by rewrite andb_true_r.
  - intros rid r Hrid Ha Hse. destruct (Hb rid r Hrid) as (_ & _ & Hx).
    by rewrite Ha, Hse in Hx.
Qed.

Lemma simulates_deny s a d pr p :
  simulates s a → one_window (OReserve d pr p) →
  _evaluate (static_now d) (eval_now d) s pr p ≠ [] →
  simulates (decided_store d pr p s) (denied a (proposal_id pr)).
Proof.
  intros [Hst Hr Hs Ha Hb] (Hamt & _) Hne. unfold decided_store, decided_record.
  rewrite !decide_False by done. constructor; cbn; try done.
  - unfold except. by rewrite fmap_insert, Hst.
  - intros pid rec [[<- <-]|[? Hk]]%lookup_insert_Some; [done|eauto].
Qed.

Lemma simulates_reserve s a d pr p :
  simulates s a → one_window (OReserve d pr p) → op_ok (OReserve d pr p) s →
  proposal_id pr ∉ a_reservations a → _evaluate (static_now d) (eval_now d) s pr p = [] →
  simulates (decided_store d pr p s)
    {| a_state := except a (proposal_id pr) RESERVED;
       a_reservations := a_reservations a ∪ {[proposal_id pr]};
       a_settledSpend := a_settledSpend a; a_authorized := a_authorized a |}.
Proof.
  intros [Hst Hr Hs Ha Hb] (Hamt & Hkey & Ht & _) [_ Hfresh] Hout He.
  unfold decided_store, decided_record. rewrite !decide_True by done. constructor; cbn.
  - unfold except. by rewrite fmap_insert, Hst.
  - rewrite sum_values_insert by done. unfold ReservedSpend in *. cbn.
    rewrite SumProposals_add by done. unfold term. cbn. lia.
  - rewrite sum_values_insert by done. unfold term. cbn. lia.
  - intros pid rec [[<- <-]|[? Hk]]%lookup_insert_Some; [done|eauto].
  - intros rid r [[<- <-]|[? Hk]]%lookup_insert_Some; [by split_and!|eauto].
Qed.

(** The protocol step of a lifecycle transition. *)
Definition auth_step (a : auth) (p : Z) (target : LifecycleState) : auth :=
  {| a_state := except a p target;
     a_reservations := if protected target then a_reservations a else a_reservations a ∖ {[p]};
     a_settledSpend := a_settledSpend a + (if bool_decide (target = SETTLED) then Amount p else 0);
     a_authorized := if bool_decide (target = SIGNED) then a_authorized a ∪ {[p]}
                     else a_authorized a |}.

Lemma auth_step_Next a p st target :
  state_of a p = st → st ≠ PROPOSED → require_transition st target = Ok tt →
  Next Amount Cap a (auth_step a p target).
Proof.
  intros Hst Hnp Htr. unfold auth_step, protected.
  destruct st, target; try done; eval_tests; rewrite ?Z.add_0_r.
  all: try by constructor.
  all: apply Expire; rewrite Hst; set_solver.
Qed.

Lemma simulates_transition s a now pid rec target :
  store_inv s → simulates s a → Reached Amount Cap a → _records s !! pid = Some rec →
  require_transition (rec_state rec) target = Ok tt →
  simulates (moved_store now pid (default 0 (rec_reservation_id rec)) target rec s)
    (auth_step a pid target).
Proof.
  intros Hinv Hsim Hspec Hrec Htr. pose proof (sim_state_of s a pid Hsim) as Hso.
  destruct Hsim as [Hst Hr Hs Ha Hb]. rewrite Hrec in Hso. cbn in Hso.
  destruct (si_record s Hinv _ _ Hrec) as (_ & Hnp & _ & Hden & _).
  destruct (rec_reservation_id rec) as [rid|] eqn:Hrid; cycle 1.
  { rewrite (proj1 Hden) in Htr by done. by destruct target. }
  destruct (si_reservation s Hinv _ _ _ Hrec Hrid) as (r & Hres & _ & Hkey & Hamt & Hact & Hset).
  destruct (settle_flags_state _ _ r Hnp Htr Hact Hset) as (Ha' & Hs' & _ & Hk' & Hm' & Hc' & _).
  rewrite (Ha pid rec Hrec) in Hamt.
  assert (protected (rec_state rec) = true) as Hprot by (by destruct (rec_state rec), target).
  assert (pid ∈ a_reservations a) as Hin
    by (apply (Reached_ReservationSafety _ _ _ Hspec); by rewrite Hso).
  assert (rec_state rec ≠ SETTLED) as Hns by (intros Hx; by rewrite Hx in Hprot).
  unfold moved_store, auth_step. cbn [default]. rewrite (alter_lookup _ _ _ r) by done.
  constructor; cbn.
  - unfold except. by rewrite fmap_insert, Hst.
  - rewrite (sum_values_update _ _ _ _ r), Hr by done. unfold term, ReservedSpend. cbn.
    rewrite Ha', Hact, Hprot, Hm', Hamt. destruct (protected target); [lia|].
    rewrite SumProposals_remove by done. lia.
  - rewrite (sum_values_update _ _ _ _ r), Hs by done. unfold term.
    rewrite Hs', Hset, Hm', Hamt, (bool_decide_false (rec_state rec = SETTLED)) by done. lia.
  - intros k u [[<- <-]|[? Hk]]%lookup_insert_Some; cbn; eauto.
  - intros k u [[<- <-]|[? Hk]]%lookup_insert_Some; [|eauto].
    destruct (Hb rid r Hres) as (? & ? & _). rewrite Hk', Hc', Ha', Hs'. split_and!; try done.
    by destruct target.
Qed.

(** A denial although the cap admits the amount: another rule gave a reason. *)
Definition other_rule (op : store_op) (s : MemoryStateStore) (a : auth) : Prop :=
  ∃ d pr p, op = OReserve d pr p ∧ _evaluate (static_now d) (eval_now d) s pr p ≠ []
    ∧ ReservedSpend Amount a + a_settledSpend a + Amount (proposal_id pr) ≤ Cap.

(** The protocol's side of one call. *)
Definition protocol_step (op : store_op) (s : MemoryStateStore) (a a' : auth) : Prop :=
  a' = a ∨ Next Amount Cap a a' ∨ (other_rule op s a ∧ Refuse Amount Cap a a').

Lemma protocol_step_reached op s a a' :
  Reached Amount Cap a → protocol_step op s a a' → Reached Amount Cap a'.
Proof. intros Ha [->|[Hn|[_ Hr]]]; [done|by eapply reached_next|by eapply reached_refuse]. Qed.

Lemma simulation_decide s a d pr p :
  simulates s a → Reached Amount Cap a → one_window (OReserve d pr p) →
  op_ok (OReserve d pr p) s → state_of a (proposal_id pr) = PROPOSED →
  ∃ a', simulates (decided_store d pr p s) a' ∧ protocol_step (OReserve d pr p) s a a'.
Proof.
  intros Hsim Hspec Hw Hok Hp.
  destruct (decide (_evaluate (static_now d) (eval_now d) s pr p = [])) as [He|He].
  - eexists. split; [apply simulates_reserve; try done|].
    + intros Hin. apply (Reached_ReservationSafety _ _ _ Hspec) in Hin. by rewrite Hp in Hin.
    + right. left. apply Reserve; [done|].
      destruct Hw as (Hamt & Hkey & _ & Hnow & c & Hc & Hcw & Hcap).
      apply evaluate_nil in He as [_ [Hb _]]. specialize (Hb c Hc).
      rewrite Hkey, Hcw, (sim_window_spend s a) in Hb by done. rewrite <- Hamt. lia.
  - eexists. split; [by apply simulates_deny|]. right.
    destruct (decide (Cap < ReservedSpend Amount a + a_settledSpend a + Amount (proposal_id pr))).
    + left. by apply Deny.
    + right. split; [|apply Refused; [done|lia]]. exists d, pr, p. split_and!; [done..|lia].
Qed.

(** Every call of the store is a step of the protocol, a refusal or none. *)
Lemma simulation_step s a op :
  store_inv s → simulates s a → Reached Amount Cap a → one_window op → op_ok op s →
  new_proposal op s →
  ∃ a', simulates (store_run op s) a' ∧ protocol_step op s a a'.
Proof.
  intros Hinv Hsim Hspec Hw Hok Hnew.
  assert (protocol_step op s a a) as Hno by (by left).
  destruct op as [d pr p|now pid target|n|w' c n]; cbn [store_run].
  - rewrite reserve_spec. cbn in Hnew. destruct (_idempotency s !! _) eqn:Hid; [eauto|].
    specialize (Hnew eq_refl). cbn [fst]. apply simulation_decide; try done.
    by rewrite (sim_state_of s a _ Hsim), Hnew.
  - rewrite transition_spec by done. destruct (_records s !! pid) as [rec|] eqn:Hrec; [|eauto].
    destruct (require_transition _ _) as [[]|] eqn:Htr; [|eauto]. cbn [fst].
    eexists. split; [by apply simulates_transition|]. right. left.
    eapply auth_step_Next; [|by eapply si_record|exact Htr].
    by rewrite (sim_state_of s a _ Hsim), Hrec.
  - exists a. split; [|done]. unfold register_decision_nonce, read, lift, mbind, M_bind.
    case_bool_decide; cbn; [done|]. by destruct Hsim; constructor.
  - exists a. split; [|done]. unfold register_wallet_nonce, read, lift, mbind, M_bind.
    case_bool_decide; cbn; [done|]. by destruct Hsim; constructor.
Qed.

Lemma simulates_init : simulates store_init Init.
Proof. constructor; cbn; rewrite ?sum_values_empty; done. Qed.

Lemma store_exec_simulated s : store_exec s → ∃ a, Reached Amount Cap a ∧ simulates s a.
Proof.
  induction 1 as [|s op Hs (a & Hspec & Hsim) Hw Hok Hnew].
  - exists Init. split; [constructor|apply simulates_init].
  - destruct (simulation_step s a op) as (a' & ? & ?); eauto using protocol_step_reached.
    by eapply store_reach_inv, store_exec_reach.
Qed.

(** C1: the store implements the authorization protocol of
    Authorization.tla, call by call.  The runs are those of one budget inside one cap
    window ([one_window]: every proposal draws on the one budget key, every policy caps
    the window at [Cap], and the calls happen within the window), with reservation
    identifiers drawn fresh ([op_ok]) and no proposal identifier submitted again under
    another idempotency key ([new_proposal]).  The empty store and the initial state
    of the protocol are related: the same lifecycle state for every proposal, the
    protocol's reserved spend equal to the active reservations' and its settled spend
    to the settled ones'.  From related reachable states every reservation, transition
    and nonce registration leads to related states again, and the protocol made no
    step, or one action of [Next] with its guard, or, only when [reserve] denied a
    proposal the cap admits, the step [Refuse] that the module does not have.  Hence
    every store of such a run is related to a reached state, in which the module's
    three invariants hold. *)
Theorem store_refines_authorization :
  simulates store_init Init
  ∧ (∀ s a op, store_exec s → simulates s a → Reached Amount Cap a →
       one_window op → op_ok op s → new_proposal op s →
       ∃ a', simulates (store_run op s) a' ∧ protocol_step op s a a')
  ∧ (∀ s, store_exec s → ∃ a, Reached Amount Cap a ∧ simulates s a
       ∧ NoSigningWithoutAuthorization a ∧ ReservationSafety a
       ∧ (0 ≤ Cap → (∀ p, 0 ≤ Amount p) → NoOverspend Amount Cap a)).
Proof.
  split_and!; [apply simulates_init| |].
  - intros s a op Hs. apply simulation_step. by eapply store_reach_inv, store_exec_reach.
  - intros s Hs. destruct (store_exec_simulated s Hs) as (a & Ha & Hsim). exists a.
    split_and!; eauto using Reached_NoOverspend.
    + by eapply Reached_NoSigning.
    + by eapply Reached_ReservationSafety.
Qed.

(** The totals of the budget are the protocol's. *)
Lemma budget_totals_simulated s a principal wl chain asst :
  simulates s a → key = (principal, str_lower wl, chain, asst) →
  snd (budget_totals principal wl chain asst s) = Ok (ReservedSpend Amount a, a_settledSpend a).
Proof.
  intros [_ Hr Hs _ Hb] Hkey. unfold budget_totals, read. cbn. rewrite <- Hr, <- Hs, <- Hkey.
  do 2 f_equal; apply sum_values_ext; intros rid r Hrid;
    destruct (Hb rid r Hrid) as (Hk & _); unfold term; by rewrite bool_decide_true.
Qed.

(** No overspend.  Inside one cap window, whatever calls are made,
    the pending plus settled totals [budget_totals] reports never exceed the cap,
    a proposal is protected by an active reservation exactly while it is RESERVED,
    SIGNED or SUBMITTED, and the two totals are never negative. *)
Theorem store_no_overspend s principal wl chain asst :
  0 ≤ Cap → (∀ p, 0 ≤ Amount p) → key = (principal, str_lower wl, chain, asst) →
  store_exec s →
  ∃ pending settled, snd (budget_totals principal wl chain asst s) = Ok (pending, settled)
    ∧ 0 ≤ pending ∧ 0 ≤ settled ∧ pending + settled ≤ Cap
    ∧ ∀ pid rec, _records s !! pid = Some rec →
        (protected (rec_state rec) = true ↔
         ∃ rid r, rec_reservation_id rec = Some rid ∧ _reservations s !! rid = Some r
           ∧ r_active r = true).
Proof.
  intros HC HA Hkey Hs. destruct (store_exec_simulated s Hs) as (a & Hspec & Hsim).
  pose proof (store_reach_inv _ _ (store_exec_reach s Hs)) as Hinv.
  exists (ReservedSpend Amount a), (a_settledSpend a). split; [by apply budget_totals_simulated|].
  pose proof (Reached_NoOverspend Amount Cap a HC HA Hspec) as Hno. unfold NoOverspend in Hno.
  assert (∀ p, 0 ≤ sum_values p r_amount (_reservations s)) as Hpos.
  { intros p. apply sum_values_nonneg. intros rid r Hr. unfold term. case_match; [|done].
    destruct (si_amount s Hinv _ _ Hr). lia. }
  split_and!; try done.
  - rewrite <- (sim_reserved _ _ Hsim). apply Hpos.
  - rewrite <- (sim_settled _ _ Hsim). apply Hpos.
  - intros pid rec Hrec. split.
    + intros Hp. destruct (rec_reservation_id rec) as [rid|] eqn:Hrid.
      * destruct (si_reservation s Hinv _ _ _ Hrec Hrid) as (r & ? & _ & _ & _ & Hact & _).
        exists rid, r. by rewrite Hact.
      * destruct (si_record s Hinv _ _ Hrec) as (_ & _ & _ & Hden & _).
        by rewrite (proj1 Hden) in Hp.
    + intros (rid & r & Hrid & Hr & Ha).
      destruct (si_reservation s Hinv _ _ _ Hrec Hrid) as (r' & ? & _ & _ & _ & Hact & _).
      congruence.
Qed.
End refinement.

(** * A proposal identifier used under two idempotency keys *)

(** The sample proposal again, under another key and too large for the policy. *)
Definition reused_proposal : ProposalV1 :=
  {| proposal_id := proposal_id sample_proposal; principal_id := "agent-1";
     wallet := wallet sample_proposal; chain_id := 31337; asset := "NATIVE:31337";
     amount := 100000; intent := intent sample_proposal; deadline := seconds 2000;
     idempotency_key := "order-0002"; mandate_id := None; quote_reference := None |}.

(** Reusing a proposal identifier strands its reservation.
    The store does not check that a proposal identifier is new: a second
    [reserve] with the same identifier under another idempotency key replaces the
    record of the first.  Here the second is denied; the first reservation stays
    active and counted, and no transition of that identifier can release it. *)
Theorem reused_proposal_strands_reservation :
  let s := fst (reserve (sample_draws (seconds 1001) 8) reused_proposal sample_policy sample_store) in
  (∃ r, _reservations s !! 7 = Some r ∧ r_active r = true
        ∧ r_proposal_id r = proposal_id sample_proposal)
  ∧ (∃ rec, _records s !! proposal_id sample_proposal = Some rec ∧ rec_state rec = DENIED
            ∧ rec_reservation_id rec = None)
  ∧ (∀ now target, is_ok (snd (transition now (proposal_id sample_proposal) target s)) = false).
Proof.
  cbv zeta. split_and!.
  - eexists. by split_and!; [vm_compute; reflexivity| |].
  - eexists. by split_and!; [vm_compute; reflexivity| |].
  - intros now []; vm_compute; reflexivity.
Qed.

(** * Witnesses *)

Definition sample_exec : list store_op := [
  OTransition (seconds 1004) (proposal_id sample_proposal) SETTLED;
  OTransition (seconds 1003) (proposal_id sample_proposal) SUBMITTED;
  OTransition (seconds 1002) (proposal_id sample_proposal) SIGNED;
  sample_reserve].

Definition sample_settled : MemoryStateStore := fold_right store_run store_init sample_exec.

Lemma sample_exec_ok : store_exec (λ _, 250) 600 86400 0 sample_key sample_settled.
Proof.
  unfold sample_settled, sample_exec. cbn [fold_right].
  do 3 (constructor; [|exact I..]). constructor; [constructor| | |].
  - split_and!; try done. eexists. split; [left|]. done.
  - split; vm_compute; reflexivity.
  - intros _. vm_compute. reflexivity.
Qed.

(** The sample proposal settled and, in the same window, a second one whose deadline
    has passed: it is denied though the cap admits it. *)
Definition refused_proposal : ProposalV1 :=
  {| proposal_id := 77; principal_id := "agent-1";
     wallet := wallet sample_proposal; chain_id := 31337; asset := "NATIVE:31337";
     amount := 250; intent := intent sample_proposal; deadline := 0;
     idempotency_key := "order-0077"; mandate_id := None; quote_reference := None |}.
Definition refused_reserve : store_op :=
  OReserve (sample_draws (seconds 1005) 9) refused_proposal sample_policy.

Lemma store_refines_authorization_witness :
  ∃ a a', simulates (λ _, 250) 0 sample_key sample_settled a
    ∧ simulates (λ _, 250) 0 sample_key (store_run refused_reserve sample_settled) a'
    ∧ protocol_step (λ _, 250) 600 refused_reserve sample_settled a a'
    ∧ state_of a' 77 = DENIED ∧ NoOverspend (λ _, 250) 600 a.
Proof.
  destruct (store_refines_authorization (λ _, 250) 600 86400 0 sample_key) as (_ & Hstep & Hall).
  destruct (Hall _ sample_exec_ok) as (a & Ha & Hsim & _ & _ & Hno).
  destruct (Hstep _ a refused_reserve sample_exec_ok Hsim Ha) as (a' & Hsim' & Hp).
  - split_and!; try done. eexists. split; [left|]. done.
  - split; vm_compute; reflexivity.
  - intros _. vm_compute. reflexivity.
  - exists a, a'. split_and!; [exact Hsim|exact Hsim'|exact Hp| |apply Hno; lia].
    rewrite (sim_state_of _ _ _ _ _ _ Hsim'). vm_compute. reflexivity.
Defined.

Lemma store_no_overspend_witness :
  ∃ pending settled,
    snd (budget_totals "agent-1" "0x00112233445566778899AABBCCDDEEFF00112233" 31337
           "NATIVE:31337" sample_settled) = Ok (pending, settled) ∧ pending + settled ≤ 600.
Proof.
  destruct (store_no_overspend (λ _, 250) 600 86400 0 sample_key sample_settled "agent-1"
    "0x00112233445566778899AABBCCDDEEFF00112233" 31337 "NATIVE:31337") as (x & y & H1 & _ & _ & H2 & _).
  - lia.
  - lia.
  - vm_compute. reflexivity.
  - exact sample_exec_ok.
  - exists x, y. split; assumption.
Defined.
