(* ===== verification/Postgres.v ===== *)
(** The PostgreSQL stores (src/agentguard-testbed/src/aegisledger/postgres.py): state and
    policy versions in tables, every method one serializable transaction.

    A table is a map from its primary key to its row, with the columns of
    migrations/versions/0001_core.py that the statements use; a statement is its effect on
    the tables, the constraints and column ranges of the schema included.  What is taken of
    the database: a transaction that commits ran as if alone, one that raises is rolled
    back, and one the server aborts for serialization raises [SerializationFailure].
    [now()] is the time of the transaction.  A [jsonb] document is the model it was dumped
    from, read back through the model's validators.  Texts hold no NUL character. *)
From Stdlib Require Import ZArith Lia Ascii String.
From stdpp Require Import base gmap sets list strings pretty sorting.
From S2P Require Import Prelude Bytes Canonical Contracts Policy State.

Open Scope Z_scope.

(** * Tables and transactions *)

(** [with self._transaction() as connection]: commit, or roll back and raise. *)
Definition transaction {S A} (m : M S A) : M S A := λ s,
  match m s with
  | (s', Ok a) => (s', Ok a)
  | (_, Err e) => (s, Err e)
  end.

(** [SELECT ... WHERE p]: a row of the table with its key ([fetchone]). *)
Definition select_row {V} (p : Z → V → bool) (t : gmap Z V) : option (Z * V) :=
  head (filter (λ e, p e.1 e.2 = true) (map_to_list t)).
Definition exists_row {V} (p : V → bool) (t : gmap Z V) : bool :=
  bool_decide (is_Some (select_row (λ _, p) t)).

(** Column ranges: [bigint], [numeric(78,0)], [char(n)]. *)
Definition bigint (n : Z) : bool := (- 2 ^ 63 <=? n) && (n <? 2 ^ 63).
Definition numeric78 (n : Z) : bool := Z.abs n <? 10 ^ 78.
Definition char_n (n : nat) (s : string) : bool := Nat.leb (String.length s) n.

Inductive reservation_status := RS_ACTIVE | RS_RELEASED | RS_SETTLED.

#[export] Instance reservation_status_eq_dec : EqDecision reservation_status.
Proof. solve_decision. Defined.

Record proposals_row := {
  pp_principal_id : string;
  pp_idempotency_key : string;
  pp_wallet : string;
  pp_chain_id : Z;
  pp_asset : string;
  pp_amount : Z;
  pp_proposal_hash : string;
  pp_body : ProposalV1;
  pp_state : LifecycleState;
  pp_state_version : Z;
  pp_reason_codes : list string;
  pp_deadline : Z;
  pp_created_at : Z;
  pp_updated_at : Z;
}.

Record reservations_row := {
  rr_proposal_id : Z;
  rr_amount : Z;
  rr_status : reservation_status;
  rr_created_at : Z;
  rr_released_at : option Z;
  rr_settled_at : option Z;
}.

Record PgState := {
  t_proposals : gmap Z proposals_row;
  t_reservations : gmap Z reservations_row;
  t_decision_nonce_uses : gset Z;
  t_wallet_nonce_uses : gset (string * Z * Z);
}.

Definition pg_init : PgState :=
  {| t_proposals := ∅; t_reservations := ∅; t_decision_nonce_uses := ∅; t_wallet_nonce_uses := ∅ |}.

Definition set_proposals f (s : PgState) : PgState :=
  {| t_proposals := f (t_proposals s); t_reservations := t_reservations s;
     t_decision_nonce_uses := t_decision_nonce_uses s; t_wallet_nonce_uses := t_wallet_nonce_uses s |}.
Definition set_reservation_rows f (s : PgState) : PgState :=
  {| t_proposals := t_proposals s; t_reservations := f (t_reservations s);
     t_decision_nonce_uses := t_decision_nonce_uses s; t_wallet_nonce_uses := t_wallet_nonce_uses s |}.
Definition set_decision_uses f (s : PgState) : PgState :=
  {| t_proposals := t_proposals s; t_reservations := t_reservations s;
     t_decision_nonce_uses := f (t_decision_nonce_uses s); t_wallet_nonce_uses := t_wallet_nonce_uses s |}.
Definition set_wallet_uses f (s : PgState) : PgState :=
  {| t_proposals := t_proposals s; t_reservations := t_reservations s;
     t_decision_nonce_uses := t_decision_nonce_uses s; t_wallet_nonce_uses := f (t_wallet_nonce_uses s) |}.

(** * [PostgresStateStore] *)

(** [p.principal_id=%s AND p.wallet=%s AND p.chain_id=%s AND p.asset=%s] *)
Definition row_key (p : proposals_row) : budget_key :=
  (pp_principal_id p, pp_wallet p, pp_chain_id p, pp_asset p).

(** [reservations r JOIN proposals p ON p.id=r.proposal_id WHERE ...] for a scope. *)
Definition joined (db : PgState) (key : budget_key) (r : reservations_row) : bool :=
  match t_proposals db !! rr_proposal_id r with
  | Some p => bool_decide (row_key p = key)
  | None => false
  end.

(** [r.status IN ('ACTIVE','SETTLED')] *)
Definition row_counts (r : reservations_row) : bool := is_in (rr_status r) [RS_ACTIVE; RS_SETTLED].

(** [r.created_at >= now() - make_interval(secs => w)] *)
Definition row_within (now w : Z) (r : reservations_row) : bool := now - seconds w <=? rr_created_at r.

Definition pg_window_spend (db : PgState) (key : budget_key) (now w : Z) : Z :=
  sum_values (λ r, joined db key r && row_counts r && row_within now w r) rr_amount (t_reservations db).

Definition pg_recent_count (db : PgState) (key : budget_key) (now : Z) : Z :=
  count_values (λ r, joined db key r && row_counts r && row_within now 3600 r) (t_reservations db).

Definition _scope_reasons (static_now now : Z) (db : PgState) (pr : ProposalV1) (p : PolicyV1)
    : list string :=
  let reasons := static_policy_reasons static_now pr p in
  if bool_decide (reasons = ["EMERGENCY_STOP"%string]) then reasons
  else
    reasons
    ++ rolling_cap_reasons (pg_window_spend db (proposal_key pr) now) (amount pr) (rolling_caps p)
    ++ reason_if (maximum_transactions_per_hour p <? pg_recent_count db (proposal_key pr) now + 1)
         "VELOCITY_EXCEEDED".

(** [LEFT JOIN reservations r ON r.proposal_id=p.id]: the column [r.id]. *)
Definition reservation_of (db : PgState) (pid : Z) : option Z :=
  fst <$> select_row (λ _ r, bool_decide (rr_proposal_id r = pid)) (t_reservations db).

Definition pg_record (pid : Z) : M PgState (option ProposalRecord) :=
  db ← self;
  match t_proposals db !! pid with
  | None => mret None
  | Some row =>
      proposal ← lift (ProposalV1_validate (pp_body row)
        {| dt_wall := deadline (pp_body row); dt_offset := Some 0 |});
      mret (Some {| rec_proposal := proposal; rec_state := pp_state row;
        rec_state_version := pp_state_version row; rec_reason_codes := pp_reason_codes row;
        rec_reservation_id := reservation_of db pid; rec_created_at := pp_created_at row;
        rec_updated_at := pp_updated_at row |})
  end.

Definition pg_get (pid : Z) : M PgState (option ProposalRecord) := transaction (pg_record pid).

(** [assert record is not None] *)
Definition required_record (pid : Z) : M PgState ProposalRecord :=
  record ← pg_record pid;
  lift (or_raise record AssertionError).

(** [INSERT INTO proposals ...] *)
Definition insert_proposal (pid : Z) (row : proposals_row) : M PgState unit :=
  db ← self;
  lift (raise_if (negb (bigint (pp_chain_id row) && numeric78 (pp_amount row)
                        && char_n 42 (pp_wallet row) && char_n 66 (pp_proposal_hash row)))
    (DatabaseError "value out of range"));;
  lift (raise_if (negb ((0 <? pp_chain_id row) && (0 <? pp_amount row)))
    (DatabaseError "check constraint violated"));;
  lift (raise_if (bool_decide (is_Some (t_proposals db !! pid))) (UniqueViolation "proposals_pkey"));;
  lift (raise_if (exists_row (λ r, bool_decide (pp_proposal_hash r = pp_proposal_hash row))
                    (t_proposals db)) (UniqueViolation "proposals_proposal_hash_key"));;
  lift (raise_if (exists_row (λ r, bool_decide ((pp_principal_id r, pp_idempotency_key r)
                                     = (pp_principal_id row, pp_idempotency_key row))) (t_proposals db))
    (UniqueViolation "proposals_principal_id_idempotency_key_key"));;
  update (set_proposals (insert pid row)).

(** [INSERT INTO reservations ...] *)
Definition insert_reservation (rid : Z) (row : reservations_row) : M PgState unit :=
  db ← self;
  lift (raise_if (negb (numeric78 (rr_amount row))) (DatabaseError "value out of range"));;
  lift (raise_if (negb (0 <? rr_amount row)) (DatabaseError "check constraint violated"));;
  lift (raise_if (bool_decide (is_Some (t_reservations db !! rid))) (UniqueViolation "reservations_pkey"));;
  lift (raise_if (exists_row (λ r, bool_decide (rr_proposal_id r = rr_proposal_id row))
                    (t_reservations db)) (UniqueViolation "reservations_proposal_id_key"));;
  lift (raise_if (bool_decide (t_proposals db !! rr_proposal_id row = None))
    (DatabaseError "foreign key violated"));;
  update (set_reservation_rows (insert rid row)).

Section store.
Context `{!Externals}.

Definition row_of (now : Z) (hash : string) (st : LifecycleState) (reasons : list string)
    (pr : ProposalV1) : proposals_row :=
  {| pp_principal_id := principal_id pr; pp_idempotency_key := idempotency_key pr;
     pp_wallet := wallet pr; pp_chain_id := chain_id pr; pp_asset := asset pr;
     pp_amount := amount pr; pp_proposal_hash := hash; pp_body := pr; pp_state := st;
     pp_state_version := 1; pp_reason_codes := reasons; pp_deadline := deadline pr;
     pp_created_at := now; pp_updated_at := now |}.

(** [_reserve_once], with the application's clock, the transaction's time and the
    identifier it draws. *)
Definition _reserve_once (static_now now new_reservation : Z) (pr : ProposalV1) (p : PolicyV1)
    : M PgState ReservationResult :=
  transaction (
    db ← self;
    match select_row (λ _ r, bool_decide (pp_principal_id r = principal_id pr)
                             && bool_decide (pp_idempotency_key r = idempotency_key pr))
            (t_proposals db) with
    | Some (pid, _) =>
        record ← required_record pid;
        mret {| res_record := record; res_created := false |}
    | None =>
        let reasons := _scope_reasons static_now now db pr p in
        let st := match reasons with [] => RESERVED | _ => DENIED end in
        hash ← lift (proposal_hash pr);
        insert_proposal (proposal_id pr) (row_of now hash st reasons pr);;
        match reasons with
        | [] => insert_reservation new_reservation
                  {| rr_proposal_id := proposal_id pr; rr_amount := amount pr; rr_status := RS_ACTIVE;
                     rr_created_at := now; rr_released_at := None; rr_settled_at := None |}
        | _ => mret tt
        end;;
        record ← required_record (proposal_id pr);
        mret {| res_record := record; res_created := true |}
    end).

(** What one attempt draws, and whether the server aborts it. *)
Record attempt := { at_static : Z; at_now : Z; at_reservation : Z; at_aborted : bool }.

(** [reserve]: up to [retries] attempts, the last failure raised. *)
Fixpoint pg_reserve (attempts : list attempt) (pr : ProposalV1) (p : PolicyV1)
    : M PgState ReservationResult :=
  match attempts with
  | [] => raise (RuntimeError "unreachable serialization retry state")
  | a :: rest =>
      if at_aborted a then
        match rest with [] => raise SerializationFailure | _ => pg_reserve rest pr p end
      else _reserve_once (at_static a) (at_now a) (at_reservation a) pr p
  end.
End store.

Definition pg_simulate (static_now now : Z) (pr : ProposalV1) (p : PolicyV1)
    : M PgState (list string) :=
  transaction (read (λ db, _scope_reasons static_now now db pr p)).

(** [UPDATE reservations SET status=... WHERE proposal_id=%s AND status='ACTIVE']: the new
    rows, and whether there were any. *)
Definition update_reservations (pid : Z) (f : reservations_row → reservations_row)
    : M PgState bool :=
  db ← self;
  let hit := λ r, bool_decide (rr_proposal_id r = pid) && bool_decide (rr_status r = RS_ACTIVE) in
  update (set_reservation_rows (fmap (λ r, if hit r then f r else r)));;
  mret (exists_row hit (t_reservations db)).

Definition release_row (now : Z) (r : reservations_row) : reservations_row :=
  {| rr_proposal_id := rr_proposal_id r; rr_amount := rr_amount r; rr_status := RS_RELEASED;
     rr_created_at := rr_created_at r; rr_released_at := Some now; rr_settled_at := rr_settled_at r |}.
Definition settle_row (now : Z) (r : reservations_row) : reservations_row :=
  {| rr_proposal_id := rr_proposal_id r; rr_amount := rr_amount r; rr_status := RS_SETTLED;
     rr_created_at := rr_created_at r; rr_released_at := rr_released_at r; rr_settled_at := Some now |}.

(** [UPDATE proposals SET state=..., state_version=state_version+1, updated_at=now()] *)
Definition move_row (now : Z) (target : LifecycleState) (r : proposals_row) : proposals_row :=
  {| pp_principal_id := pp_principal_id r; pp_idempotency_key := pp_idempotency_key r;
     pp_wallet := pp_wallet r; pp_chain_id := pp_chain_id r; pp_asset := pp_asset r;
     pp_amount := pp_amount r; pp_proposal_hash := pp_proposal_hash r; pp_body := pp_body r;
     pp_state := target; pp_state_version := pp_state_version r + 1;
     pp_reason_codes := pp_reason_codes r; pp_deadline := pp_deadline r;
     pp_created_at := pp_created_at r; pp_updated_at := now |}.

Definition pg_transition (now pid : Z) (target : LifecycleState) : M PgState ProposalRecord :=
  transaction (
    found ← pg_record pid;
    record ← lift (or_raise found (KeyError ("unknown proposal " +:+ uuid_str pid)));
    lift (require_transition (rec_state record) target);;
    (if is_in target [EXPIRED; REVERTED] then update_reservations pid (release_row now);; mret tt
     else if bool_decide (target = SETTLED) then
       updated ← update_reservations pid (settle_row now);
       lift (raise_if (negb updated) (ValueError "settlement requires an active reservation"))
     else mret tt);;
    update (set_proposals (alter (move_row now target) pid));;
    required_record pid).

Definition pg_register_decision_nonce (nonce : Z) : M PgState unit :=
  transaction (
    db ← self;
    lift (raise_if (bool_decide (nonce ∈ t_decision_nonce_uses db))
      (ValueError "decision nonce already used"));;
    update (set_decision_uses (λ x, x ∪ {[nonce]}))).

Definition pg_register_wallet_nonce (w : string) (chain nonce : Z) : M PgState unit :=
  transaction (
    db ← self;
    let key := (str_lower w, chain, nonce) in
    lift (raise_if (negb (char_n 42 (str_lower w) && bigint chain && numeric78 nonce))
      (DatabaseError "value out of range"));;
    lift (raise_if (bool_decide (key ∈ t_wallet_nonce_uses db))
      (ValueError "wallet nonce already used"));;
    update (set_wallet_uses (λ x, x ∪ {[key]}))).

Definition pg_budget_totals (principal w : string) (chain : Z) (a : string) : M PgState (Z * Z) :=
  read (λ db,
    let key := (principal, str_lower w, chain, a) in
    (sum_values (λ r, joined db key r && bool_decide (rr_status r = RS_ACTIVE)) rr_amount
       (t_reservations db),
     sum_values (λ r, joined db key r && bool_decide (rr_status r = RS_SETTLED)) rr_amount
       (t_reservations db))).

(** * [PostgresPolicyStore] *)

Record policy_versions_row := {
  vr_policy_hash : string;
  vr_document : PolicyV1;
  vr_status : PolicyStatus;
  vr_created_by : string;
  vr_created_at : Z;
  vr_activated_at : option Z;
  vr_activated_by : option string;
}.

Record PgPolicies := {
  t_policy_versions : gmap Z policy_versions_row;
  t_policy_approvals : gset (Z * string);
}.

Definition pg_policies_init : PgPolicies := {| t_policy_versions := ∅; t_policy_approvals := ∅ |}.

Definition set_versions f (s : PgPolicies) : PgPolicies :=
  {| t_policy_versions := f (t_policy_versions s); t_policy_approvals := t_policy_approvals s |}.
Definition set_approvals f (s : PgPolicies) : PgPolicies :=
  {| t_policy_versions := t_policy_versions s; t_policy_approvals := f (t_policy_approvals s) |}.

(** [SELECT administrator_id FROM policy_approvals WHERE policy_version_id=%s] *)
Definition approvals_of (db : PgPolicies) (id : Z) : gset string :=
  set_map snd (filter (λ e, e.1 = id) (t_policy_approvals db)).

Definition version_of (db : PgPolicies) (id : Z) (row : policy_versions_row) (policy : PolicyV1)
    : PolicyVersion :=
  {| version_id := id; v_policy := policy; v_policy_hash := vr_policy_hash row;
     v_status := vr_status row; created_by := vr_created_by row; v_created_at := vr_created_at row;
     approvals := approvals_of db id; activated_at := vr_activated_at row;
     activated_by := vr_activated_by row |}.

Definition pg_version (id : Z) : M PgPolicies (option PolicyVersion) :=
  db ← self;
  match t_policy_versions db !! id with
  | None => mret None
  | Some row =>
      policy ← lift (PolicyV1_validate (vr_document row));
      mret (Some (version_of db id row policy))
  end.

(** [assert version is not None] *)
Definition required_version (id : Z) : M PgPolicies PolicyVersion :=
  version ← pg_version id;
  lift (or_raise version AssertionError).

(** [if version is None: raise KeyError(...)] *)
Definition known_version (id : Z) : M PgPolicies PolicyVersion :=
  version ← pg_version id;
  lift (or_raise version (KeyError ("unknown policy version " +:+ uuid_str id))).

Definition with_vstatus (st : PolicyStatus) (r : policy_versions_row) : policy_versions_row :=
  {| vr_policy_hash := vr_policy_hash r; vr_document := vr_document r; vr_status := st;
     vr_created_by := vr_created_by r; vr_created_at := vr_created_at r;
     vr_activated_at := vr_activated_at r; vr_activated_by := vr_activated_by r |}.

Definition activate_row (now : Z) (by_ : string) (r : policy_versions_row) : policy_versions_row :=
  {| vr_policy_hash := vr_policy_hash r; vr_document := vr_document r; vr_status := ACTIVE;
     vr_created_by := vr_created_by r; vr_created_at := vr_created_at r;
     vr_activated_at := Some now; vr_activated_by := Some by_ |}.

(** [create], with the identifier it draws and the transaction's time. *)
Definition pg_policy_create `{!Externals} (new_id now : Z) (policy : PolicyV1) (by_ : string)
    : M PgPolicies PolicyVersion :=
  transaction (
    h ← lift (policy_hash policy);
    db ← self;
    lift (raise_if (negb (char_n 66 h)) (DatabaseError "value out of range"));;
    lift (raise_if (bool_decide (is_Some (t_policy_versions db !! new_id)))
      (UniqueViolation "policy_versions_pkey"));;
    lift (raise_if (exists_row (λ r, bool_decide (vr_policy_hash r = h)) (t_policy_versions db))
      (UniqueViolation "policy_versions_policy_hash_key"));;
    update (set_versions (insert new_id
      {| vr_policy_hash := h; vr_document := policy; vr_status := DRAFT; vr_created_by := by_;
         vr_created_at := now; vr_activated_at := None; vr_activated_by := None |}));;
    required_version new_id).

Definition pg_policy_approve (id : Z) (administrator_id : string) : M PgPolicies PolicyVersion :=
  transaction (
    version ← known_version id;
    lift (raise_if (is_in (v_status version) [ACTIVE; RETIRED])
      (ValueError "active or retired policies are immutable"));;
    update (set_approvals (λ x, x ∪ {[(id, administrator_id)]}));;
    count ← read (λ db, size (approvals_of db id));
    (if bool_decide (2 ≤ count)%nat then update (set_versions (alter (with_vstatus APPROVED) id))
     else mret tt);;
    required_version id).

Definition pg_policy_activate (now id : Z) (by_ : string) : M PgPolicies PolicyVersion :=
  transaction (
    version ← known_version id;
    count ← read (λ db, size (approvals_of db id));
    lift (raise_if (bool_decide (count < 2)%nat)
      (PermissionError "policy activation requires two distinct administrator approvals"));;
    update (set_versions (map_imap (λ k r,
      Some (if bool_decide (vr_status r = ACTIVE) && negb (bool_decide (k = id))
            then with_vstatus RETIRED r else r))));;
    db ← self;
    lift (raise_if (bool_decide (is_Some (select_row (λ k r, bool_decide (vr_status r = ACTIVE)
                                                  && negb (bool_decide (k = id))) (t_policy_versions db))))
      (UniqueViolation "one_active_policy"));;
    update (set_versions (alter (activate_row now by_) id));;
    required_version id).

Definition pg_policy_get (id : Z) : M PgPolicies PolicyVersion := known_version id.

Definition pg_policy_active : M PgPolicies PolicyVersion :=
  db ← self;
  '(id, _) ← lift (or_raise (select_row (λ _ r, bool_decide (vr_status r = ACTIVE)) (t_policy_versions db))
                     (LookupError "no active policy"));
  required_version id.

(** [ORDER BY created_at] *)
Definition row_by_created (a b : Z * policy_versions_row) : Prop := vr_created_at a.2 ≤ vr_created_at b.2.
#[export] Instance row_by_created_dec : RelDecision row_by_created.
Proof. intros a b. unfold row_by_created. apply _. Defined.

Fixpoint versions_of (ids : list Z) : M PgPolicies (list PolicyVersion) :=
  match ids with
  | [] => mret []
  | id :: ids =>
      version ← pg_version id;
      versions ← versions_of ids;
      mret (option_list version ++ versions)
  end.

Definition pg_policy_list : M PgPolicies (list PolicyVersion) :=
  db ← self;
  versions_of (merge_sort row_by_created (map_to_list (t_policy_versions db))).*1.
