(* ===== verification/PostgresFacts.v ===== *)
(** The PostgreSQL state store decides as the memory store does: a simulation between the
    tables and the dictionaries, kept by every operation that fits the schema and is not
    evaluated on the boundary of a window; the reason codes under an emergency stop differ,
    as [report] says. *)
From Stdlib Require Import ZArith Lia Ascii String.
From stdpp Require Import base gmap sets list strings pretty.
From S2P Require Import Prelude Bytes Canonical CanonicalFacts Contracts ContractsFacts.
From S2P Require Import Policy PolicyFacts State StateFacts Postgres.

Open Scope Z_scope.

(** * Rows of a table *)

Section rows.
Context {V : Type}.
Implicit Types (t : gmap Z V) (p : Z → V → bool).

Lemma select_row_Some p t k v : select_row p t = Some (k, v) → t !! k = Some v ∧ p k v = true.
Proof.
  unfold select_row. intros H. assert ((k, v) ∈ filter (λ e, p e.1 e.2 = true) (map_to_list t)) as Hin.
  { destruct (filter _ _); [done|]. cbn in H. injection H as ->. left. }
  apply list_elem_of_filter in Hin as [Hp Hin%elem_of_map_to_list]. done.
Qed.

Lemma select_row_None p t : select_row p t = None ↔ ∀ k v, t !! k = Some v → p k v = false.
Proof.
  unfold select_row. split.
  - intros H k v Hk. apply not_true_is_false. intros Hp.
    assert ((k, v) ∈ filter (λ e, p e.1 e.2 = true) (map_to_list t)) as Hin.
    { apply list_elem_of_filter. split; [done|]. by apply elem_of_map_to_list. }
    destruct (filter _ _); [by apply elem_of_nil in Hin|done].
  - intros H. destruct (filter _ _) as [|[k v] l] eqn:Hf; [done|]. exfalso.
    assert ((k, v) ∈ filter (λ e, p e.1 e.2 = true) (map_to_list t)) as Hin by (rewrite Hf; left).
    apply list_elem_of_filter in Hin as [Hp Hin%elem_of_map_to_list]. cbn in Hp.
    by rewrite (H _ _ Hin) in Hp.
Qed.

(** The one row that satisfies the condition. *)
Lemma select_row_unique p t k v :
  t !! k = Some v → p k v = true → (∀ k' v', t !! k' = Some v' → p k' v' = true → k' = k) →
  select_row p t = Some (k, v).
Proof.
  intros Hk Hp Hu. destruct (select_row p t) as [[k' v']|] eqn:Hs.
  - apply select_row_Some in Hs as [Hk' Hp']. pose proof (Hu _ _ Hk' Hp') as ->. congruence.
  - apply select_row_None with (k := k) (v := v) in Hs; [congruence|done].
Qed.

Lemma exists_row_false (q : V → bool) t :
  exists_row q t = false ↔ ∀ k v, t !! k = Some v → q v = false.
Proof.
  unfold exists_row. rewrite bool_decide_eq_false, <- eq_None_not_Some. apply select_row_None.
Qed.

Lemma exists_row_true (q : V → bool) t k v : t !! k = Some v → q v = true → exists_row q t = true.
Proof.
  intros Hk Hq. apply not_false_is_true. intros H. rewrite exists_row_false in H.
  by rewrite (H _ _ Hk) in Hq.
Qed.
End rows.

(** Sums over two tables whose rows correspond. *)
Lemma sum_values_sim {V W} (p : V → bool) (q : W → bool) f g (m : gmap Z V) (m' : gmap Z W) :
  (∀ k, option_Forall2 (λ v w, term p f v = term q g w) (m !! k) (m' !! k)) →
  sum_values p f m = sum_values q g m'.
Proof.
  revert m'. induction m as [|k v m Hk IH] using map_ind; intros m' Hs.
  - assert (m' = ∅) as ->.
    { apply map_empty. intros k. specialize (Hs k). rewrite lookup_empty in Hs. by inversion Hs. }
    by rewrite !sum_values_empty.
  - pose proof (Hs k) as Hk'. rewrite lookup_insert_eq in Hk'. inversion Hk' as [? w Hvw Heq1 Heq2|]; subst.
    rewrite sum_values_insert, (sum_values_delete q g m' k w) by done. f_equal; [done|].
    apply IH. intros j. specialize (Hs j). destruct (decide (j = k)) as [->|Hne].
    + rewrite Hk, lookup_delete_eq. constructor.
    + by rewrite lookup_insert_ne in Hs by done; rewrite lookup_delete_ne by done.
Qed.

(** * Observations

    What is compared of a record: the proposal, its state, its reason codes and its
    reservation.  State versions (one counter for the whole memory store, one per row in the
    database) and the creation and update times are not.  The codes are compared exactly,
    with one difference between the stores: under an emergency stop the database reports that
    code alone, where the memory store may add budget reasons to it. *)
Definition report (codes : list string) : list string :=
  if is_in "EMERGENCY_STOP"%string codes then ["EMERGENCY_STOP"%string] else codes.

Definition record_view : Type := ProposalV1 * LifecycleState * list string * option Z.
(** A record of the database. *)
Definition shown (r : ProposalRecord) : record_view :=
  (rec_proposal r, rec_state r, rec_reason_codes r, rec_reservation_id r).
(** A record of the memory store, with the codes the database has for it. *)
Definition seen (r : ProposalRecord) : record_view :=
  (rec_proposal r, rec_state r, report (rec_reason_codes r), rec_reservation_id r).

(** A result as far as callers tell results apart: the value, or the exception's class. *)
Definition outcome {A B} (f : A → B) (r : result A) : B + string :=
  match r with Ok a => inl (f a) | Err e => inr (exn_class e) end.

Definition normal (pr : ProposalV1) : Prop :=
  ProposalV1_validate pr {| dt_wall := deadline pr; dt_offset := Some 0 |} = Ok pr.

Definition status_flags (st : reservation_status) : bool * bool :=
  match st with RS_ACTIVE => (true, false) | RS_RELEASED => (false, false) | RS_SETTLED => (false, true) end.

(** ** The simulation *)

Record row_sim (rec : ProposalRecord) (row : proposals_row) : Prop := {
  rs_body : pp_body row = rec_proposal rec;
  rs_normal : normal (rec_proposal rec);
  rs_key : row_key row = proposal_key (rec_proposal rec);
  rs_idem : pp_idempotency_key row = idempotency_key (rec_proposal rec);
  rs_state : pp_state row = rec_state rec;
  rs_codes : pp_reason_codes row = report (rec_reason_codes rec);
}.

Record res_sim (db : PgState) (r : Reservation) (row : reservations_row) : Prop := {
  ss_pid : rr_proposal_id row = r_proposal_id r;
  ss_amount : rr_amount row = r_amount r;
  ss_created : rr_created_at row = r_created_at r;
  ss_flags : (r_active r, r_settled r) = status_flags (rr_status row);
  ss_key : ∃ p, t_proposals db !! rr_proposal_id row = Some p ∧ row_key p = reservation_key r;
}.

Record pg_sim (s : MemoryStateStore) (db : PgState) : Prop := {
  sim_rows : ∀ pid, option_Forall2 row_sim (_records s !! pid) (t_proposals db !! pid);
  sim_idem : ∀ key pid, _idempotency s !! key = Some pid ↔
    ∃ row, t_proposals db !! pid = Some row ∧ key = (pp_principal_id row, pp_idempotency_key row);
  sim_res : ∀ rid, option_Forall2 (res_sim db) (_reservations s !! rid) (t_reservations db !! rid);
  sim_link : ∀ pid rec rid, _records s !! pid = Some rec →
    rec_reservation_id rec = Some rid ↔
    ∃ row, t_reservations db !! rid = Some row ∧ rr_proposal_id row = pid;
  sim_decisions : _decision_nonces s = t_decision_nonce_uses db;
  sim_wallets : _wallet_nonces s = t_wallet_nonce_uses db;
}.

Lemma pg_sim_init : pg_sim store_init pg_init.
Proof.
  constructor; cbn; try done.
  - intros pid. rewrite !lookup_empty. constructor.
  - intros key pid. rewrite lookup_empty. split; [done|]. by intros (row & ? & _).
  - intros rid. rewrite !lookup_empty. constructor.
Qed.

(** ** Reading *)

Lemma reservation_of_sim s db pid rec :
  pg_sim s db → _records s !! pid = Some rec → reservation_of db pid = rec_reservation_id rec.
Proof.
  intros Hs Hrec. unfold reservation_of. destruct (rec_reservation_id rec) as [rid|] eqn:Hrid.
  - apply (sim_link _ _ Hs _ _ _ Hrec) in Hrid as Hrow. destruct Hrow as (row & Hrow & Hpid).
    rewrite (select_row_unique _ _ rid row); [done|done|by apply bool_decide_eq_true|].
    intros k v Hk Hv%bool_decide_eq_true.
    assert (rec_reservation_id rec = Some k) as Hk' by (apply (sim_link _ _ Hs _ _ _ Hrec); eauto).
    congruence.
  - destruct (select_row _ _) as [[k v]|] eqn:Hsel; [|done].
    apply select_row_Some in Hsel as [Hk Hv%bool_decide_eq_true].
    assert (rec_reservation_id rec = Some k) as Hk' by (apply (sim_link _ _ Hs _ _ _ Hrec); eauto).
    congruence.
Qed.

Lemma pg_record_sim s db pid :
  pg_sim s db →
  ∃ o, pg_record pid db = (db, Ok o) ∧
    option_Forall2 (λ r r', seen r = shown r') (_records s !! pid) o.
Proof.
  intros Hs. unfold pg_record, self, lift, mbind, M_bind. pose proof (sim_rows _ _ Hs pid) as Hrow.
  inversion Hrow as [rec row Hr Hrec Hdb|Hrec Hdb].
  - rewrite (rs_body _ _ Hr), (rs_normal _ _ Hr). eexists. split; [done|]. constructor.
    unfold seen, shown. cbn.
    rewrite (rs_state _ _ Hr), (rs_codes _ _ Hr), (reservation_of_sim s db pid rec) by done. done.
  - eexists. split; [done|]. constructor.
Qed.

(** ** Evaluation *)

(** No counted reservation is exactly as old as a window: there the database counts it and
    the memory store does not. *)
Definition off_boundary (key : budget_key) (now : Z) (windows : list Z) (s : MemoryStateStore) : Prop :=
  ∀ rid r w, _reservations s !! rid = Some r → counted key r = true → w ∈ windows →
    now - r_created_at r ≠ seconds w.

Lemma joined_sim s db rid r row key :
  pg_sim s db → _reservations s !! rid = Some r → t_reservations db !! rid = Some row →
  res_sim db r row ∧ joined db key row = bool_decide (reservation_key r = key)
  ∧ row_counts row = r_active r || r_settled r
  ∧ bool_decide (rr_status row = RS_ACTIVE) = r_active r
  ∧ bool_decide (rr_status row = RS_SETTLED) = r_settled r.
Proof.
  intros Hs Hr Hrow. pose proof (sim_res _ _ Hs rid) as Hsim. rewrite Hr, Hrow in Hsim.
  inversion Hsim as [? ? Hrs|]; subst. split; [done|]. split; [|pose proof (ss_flags _ _ _ Hrs) as Hf].
  - unfold joined. destruct (ss_key _ _ _ Hrs) as (p & -> & ->). done.
  - unfold row_counts. destruct (rr_status row); cbn in Hf; injection Hf as -> ->; by split_and!.
Qed.

(** A sum over the reservations, term by term. *)
Lemma reservations_sum s db (p : Reservation → bool) (q : reservations_row → bool) f g :
  pg_sim s db →
  (∀ rid r row, _reservations s !! rid = Some r → t_reservations db !! rid = Some row →
    res_sim db r row → term q g row = term p f r) →
  sum_values q g (t_reservations db) = sum_values p f (_reservations s).
Proof.
  intros Hs Hterm. symmetry. apply sum_values_sim. intros rid. pose proof (sim_res _ _ Hs rid) as Hsim.
  inversion Hsim as [r row Hrs Hr Hrow|Hr Hrow]; constructor. symmetry. by eapply Hterm.
Qed.

Lemma window_term s db key now w :
  pg_sim s db → off_boundary key now [w] s →
  ∀ rid r row, _reservations s !! rid = Some r → t_reservations db !! rid = Some row →
    joined db key row && row_counts row && row_within now w row = counted key r && within now w r.
Proof.
  intros Hs Hoff rid r row Hr Hrow.
  destruct (joined_sim _ _ _ _ _ key Hs Hr Hrow) as (Hrs & Hj & Hc & _). rewrite Hj, Hc.
  unfold counted. rewrite (andb_comm (bool_decide _)).
  destruct ((r_active r || r_settled r) && bool_decide (reservation_key r = key)) eqn:Hcount; [|done].
  unfold row_within, within. rewrite (ss_created _ _ _ Hrs). cbn [andb].
  pose proof (Hoff rid r w Hr Hcount ltac:(left)). apply eq_true_iff_eq. rewrite Z.leb_le, Z.ltb_lt. lia.
Qed.

Lemma window_spend_sim s db key now w :
  pg_sim s db → off_boundary key now [w] s →
  pg_window_spend db key now w = window_spend key now w (_reservations s).
Proof.
  intros Hs Hoff. apply reservations_sum; [done|]. intros rid r row Hr Hrow Hrs. unfold term.
  rewrite (window_term _ _ _ _ _ Hs Hoff _ _ _ Hr Hrow). by rewrite (ss_amount _ _ _ Hrs).
Qed.

Lemma recent_count_sim s db key now :
  pg_sim s db → off_boundary key now [3600] s →
  pg_recent_count db key now = recent_count key now (_reservations s).
Proof.
  intros Hs Hoff. apply reservations_sum; [done|]. intros rid r row Hr Hrow Hrs. unfold term.
  by rewrite (window_term _ _ _ _ _ Hs Hoff _ _ _ Hr Hrow).
Qed.

Lemma rolling_cap_reasons_ext f g a caps :
  (∀ cap, cap ∈ caps → f (window_seconds cap) = g (window_seconds cap)) →
  rolling_cap_reasons f a caps = rolling_cap_reasons g a caps.
Proof.
  induction caps as [|cap caps IH]; intros Hfg; [done|]. cbn. rewrite Hfg by left.
  destruct (_ <? _); [done|]. apply IH. intros c Hc. apply Hfg. by right.
Qed.

Lemma elem_of_reason_if b c x : x ∈ reason_if b c → x = c.
Proof. unfold reason_if. destruct b; set_solver. Qed.

Lemma static_not_stopped t pr p :
  emergency_stop p = false → "EMERGENCY_STOP"%string ∉ static_policy_reasons t pr p.
Proof.
  intros He. unfold static_policy_reasons, intent_reasons. rewrite He, !elem_of_app.
  intros H. repeat match goal with H : _ ∨ _ |- _ => destruct H as [H|H] end;
    try (apply elem_of_reason_if in H; discriminate H).
  destruct (intent pr); rewrite ?elem_of_app in H;
    repeat match goal with H : _ ∨ _ |- _ => destruct H as [H|H] end;
    apply elem_of_reason_if in H; discriminate H.
Qed.

Lemma evaluate_not_stopped t now s pr p :
  emergency_stop p = false → report (_evaluate t now s pr p) = _evaluate t now s pr p.
Proof.
  intros He. unfold report, is_in. rewrite bool_decide_false; [done|]. unfold _evaluate.
  rewrite !elem_of_app. intros [H|[H|H]].
  - by apply (static_not_stopped t pr p He).
  - revert H. induction (rolling_caps p) as [|cap caps IH]; cbn; [by intros ?%elem_of_nil|].
    destruct (_ <? _); [by intros [= ?]%list_elem_of_singleton|done].
  - by apply elem_of_reason_if in H.
Qed.

Lemma scope_reasons_sim s db t now pr p :
  pg_sim s db → off_boundary (proposal_key pr) now (3600 :: (window_seconds <$> rolling_caps p)) s →
  _scope_reasons t now db pr p = report (_evaluate t now s pr p)
  ∧ (_scope_reasons t now db pr p = [] ↔ _evaluate t now s pr p = []).
Proof.
  intros Hs Hoff. unfold _scope_reasons. cbv zeta.
  destruct (emergency_stop p) eqn:He.
  { unfold _evaluate, static_policy_reasons. rewrite He. eval_tests. split; [|done].
    unfold report. rewrite (proj2 (is_in_true _ _)) by set_solver. done. }
  rewrite evaluate_not_stopped by done. unfold _evaluate. cbv zeta.
  rewrite bool_decide_false.
  2: { intros Heq. pose proof (static_not_stopped t pr p He) as Hn. rewrite Heq in Hn. set_solver. }
  rewrite (recent_count_sim s) by (done || (intros rid r w Hr Hc Hw; eapply Hoff; set_solver)).
  rewrite (rolling_cap_reasons_ext _ (λ w, window_spend (proposal_key pr) now w (_reservations s))); [done|].
  intros cap Hcap. apply window_spend_sim; [done|]. intros rid r w Hr Hc Hw. eapply Hoff; [done..|].
  apply list_elem_of_singleton in Hw as ->. right. by apply list_elem_of_fmap_2.
Qed.

(** * Operations *)

Section operations.
Context `{!Externals}.

Definition pg_run (op : store_op) (db : PgState) : PgState :=
  match op with
  | OReserve d pr p => fst (_reserve_once (static_now d) (eval_now d) (new_reservation d) pr p db)
  | OTransition now pid target => fst (pg_transition now pid target db)
  | ODecisionNonce nonce => fst (pg_register_decision_nonce nonce db)
  | OWalletNonce w chain nonce => fst (pg_register_wallet_nonce w chain nonce db)
  end.

(** What the caller of an operation sees, in either store. *)
Definition answer : Type :=
  option (record_view * bool) + string.
Definition reserved (f : ProposalRecord → record_view) (r : result ReservationResult) : answer :=
  outcome (λ r, Some (f (res_record r), res_created r)) r.
Definition moved (f : ProposalRecord → record_view) (r : result ProposalRecord) : answer :=
  outcome (λ r, Some (f r, false)) r.
Definition done_ (r : result unit) : answer := outcome (λ _, None) r.

Definition mem_answer (op : store_op) (s : MemoryStateStore) : answer :=
  match op with
  | OReserve d pr p => reserved seen (snd (reserve d pr p s))
  | OTransition now pid target => moved seen (snd (transition now pid target s))
  | ODecisionNonce nonce => done_ (snd (register_decision_nonce nonce s))
  | OWalletNonce w chain nonce => done_ (snd (register_wallet_nonce w chain nonce s))
  end.
Definition pg_answer (op : store_op) (db : PgState) : answer :=
  match op with
  | OReserve d pr p =>
      reserved shown (snd (_reserve_once (static_now d) (eval_now d) (new_reservation d) pr p db))
  | OTransition now pid target => moved shown (snd (pg_transition now pid target db))
  | ODecisionNonce nonce => done_ (snd (pg_register_decision_nonce nonce db))
  | OWalletNonce w chain nonce => done_ (snd (pg_register_wallet_nonce w chain nonce db))
  end.

(** A proposal that is new to both stores and fits the columns of the schema. *)
Record fits (d : reserve_draws) (pr : ProposalV1) (p : PolicyV1) (s : MemoryStateStore) (db : PgState)
    : Prop := {
  fit_new : _records s !! proposal_id pr = None;
  fit_range : bigint (chain_id pr) && numeric78 (amount pr) && char_n 42 (wallet pr) = true;
  fit_positive : 0 < chain_id pr;
  fit_hash : ∃ h, proposal_hash pr = Ok h ∧ char_n 66 h = true ∧
    ∀ pid row, t_proposals db !! pid = Some row → pp_proposal_hash row ≠ h;
  fit_time : reserved_at d = eval_now d;
  fit_boundary : off_boundary (proposal_key pr) (eval_now d)
    (3600 :: (window_seconds <$> rolling_caps p)) s;
}.

(** Proposals are validated; a new one fits; a wallet nonce is in range. *)
Definition pg_side (op : store_op) (s : MemoryStateStore) (db : PgState) : Prop :=
  match op with
  | OReserve d pr p =>
      normal pr ∧ (_idempotency s !! (principal_id pr, idempotency_key pr) = None → fits d pr p s db)
  | OWalletNonce w chain nonce =>
      char_n 42 (str_lower w) && bigint chain && numeric78 nonce = true
  | _ => True
  end.

(** ** Reserving *)

Definition pg_reserved (d : reserve_draws) (h : string) (pr : ProposalV1) (p : PolicyV1) (db : PgState)
    : PgState :=
  let reasons := _scope_reasons (static_now d) (eval_now d) db pr p in
  let st := match reasons with [] => RESERVED | _ => DENIED end in
  {| t_proposals := <[proposal_id pr := row_of (eval_now d) h st reasons pr]> (t_proposals db);
     t_reservations := match reasons with
       | [] => <[new_reservation d := {| rr_proposal_id := proposal_id pr; rr_amount := amount pr;
                  rr_status := RS_ACTIVE; rr_created_at := eval_now d; rr_released_at := None;
                  rr_settled_at := None |}]> (t_reservations db)
       | _ => t_reservations db
       end;
     t_decision_nonce_uses := t_decision_nonce_uses db;
     t_wallet_nonce_uses := t_wallet_nonce_uses db |}.

Lemma sim_proposal_None s db pid :
  pg_sim s db → _records s !! pid = None → t_proposals db !! pid = None.
Proof. intros Hs Hn. pose proof (sim_rows _ _ Hs pid) as Ho. rewrite Hn in Ho. by inversion Ho. Qed.

Lemma sim_reservation_None s db rid :
  pg_sim s db → _reservations s !! rid = None → t_reservations db !! rid = None.
Proof. intros Hs Hn. pose proof (sim_res _ _ Hs rid) as Ho. rewrite Hn in Ho. by inversion Ho. Qed.

(** Rows of reservations belong to stored proposals. *)
Lemma sim_reservation_row s db rid row :
  pg_sim s db → t_reservations db !! rid = Some row →
  ∃ r, _reservations s !! rid = Some r ∧ res_sim db r row ∧ is_Some (t_proposals db !! rr_proposal_id row).
Proof.
  intros Hs Hrow. pose proof (sim_res _ _ Hs rid) as Ho. rewrite Hrow in Ho.
  inversion Ho as [r ? Hrs Hr|]; subst. exists r. split_and!; [done..|].
  destruct (ss_key _ _ _ Hrs) as (p & Hp & _). eauto.
Qed.

(** The rows of the tables that a new proposal leaves alone. *)
Lemma res_sim_mono db db' r row :
  res_sim db r row →
  (∀ p, t_proposals db !! rr_proposal_id row = Some p →
     ∃ p', t_proposals db' !! rr_proposal_id row = Some p' ∧ row_key p' = row_key p) →
  res_sim db' r row.
Proof.
  intros [H1 H2 H3 H4 (p & Hp & Hk)] Hmono. constructor; [done..|].
  destruct (Hmono p Hp) as (p' & Hp' & Hk'). exists p'. by rewrite Hk', Hk.
Qed.

Lemma reserved_sim d h pr p s db :
  store_inv s → pg_sim s db → normal pr → fits d pr p s db →
  _reservations s !! new_reservation d = None →
  _idempotency s !! (principal_id pr, idempotency_key pr) = None →
  pg_sim (decided_store d pr p s) (pg_reserved d h pr p db).
Proof.
  intros Hinv Hs Hnorm Hfit Hfresh Hidem.
  pose proof (sim_proposal_None _ _ _ Hs (fit_new _ _ _ _ _ Hfit)) as Hnp.
  pose proof (sim_reservation_None _ _ _ Hs Hfresh) as Hnr.
  destruct (scope_reasons_sim s db (static_now d) (eval_now d) pr p Hs (fit_boundary _ _ _ _ _ Hfit))
    as [Hrep Hnil].
  unfold decided_store, decided_record, pg_reserved. cbv zeta.
  set (reasons := _scope_reasons _ _ db pr p) in *. set (codes := _evaluate _ _ s pr p) in *.
  clearbody reasons codes.
  assert (∀ rid row, t_reservations db !! rid = Some row → rr_proposal_id row ≠ proposal_id pr) as Hfree.
  { intros rid row Hrow Heq. destruct (sim_reservation_row _ _ _ _ Hs Hrow) as (_ & _ & _ & [q Hq]).
    congruence. }
  assert (∀ row res o o', option_Forall2 (res_sim db) o o' → option_Forall2 (res_sim
    {| t_proposals := <[proposal_id pr := row]> (t_proposals db); t_reservations := res;
       t_decision_nonce_uses := t_decision_nonce_uses db;
       t_wallet_nonce_uses := t_wallet_nonce_uses db |}) o o') as Hmono.
  { intros row res o o' [r rr Hrs|]; constructor. apply (res_sim_mono db); [done|]. intros q Hq.
    exists q. cbn. rewrite lookup_insert_ne; [done|congruence]. }
  constructor; cbn [t_proposals t_reservations t_decision_nonce_uses t_wallet_nonce_uses
    _records _idempotency _reservations _decision_nonces _wallet_nonces].
  - intros pid. destruct (decide (pid = proposal_id pr)) as [->|Hne].
    + rewrite !lookup_insert_eq. constructor. constructor; cbn; try done.
      destruct (decide (codes = [])) as [->|Hc].
      * by rewrite (proj2 Hnil eq_refl).
      * destruct reasons; [by destruct Hc; apply Hnil|done].
    + rewrite !lookup_insert_ne by done. apply Hs.
  - intros key pid. rewrite lookup_insert_Some. split.
    + intros [[<- <-]|[Hne Hk]].
      * eexists. by rewrite lookup_insert_eq.
      * apply (sim_idem _ _ Hs) in Hk as (row & Hrow & ->). exists row. split; [|done].
        rewrite lookup_insert_ne; [done|congruence].
    + intros (row & Hrow & ->). apply lookup_insert_Some in Hrow as [[<- <-]|[Hne Hrow]]; [by left|].
      right. assert (_idempotency s !! (pp_principal_id row, pp_idempotency_key row) = Some pid) as Hk
        by (apply (sim_idem _ _ Hs); eauto). split; [congruence|done].
  - intros rid. destruct (decide (codes = [])) as [->|Hc].
    + rewrite (proj2 Hnil eq_refl). destruct (decide (rid = new_reservation d)) as [->|Hne].
      * rewrite !lookup_insert_eq. constructor. constructor; cbn; try done.
        -- symmetry. apply (fit_time _ _ _ _ _ Hfit).
        -- eexists. by rewrite lookup_insert_eq.
      * rewrite !lookup_insert_ne by done. apply Hmono, Hs.
    + destruct reasons; [by destruct Hc; apply Hnil|]. apply Hmono, Hs.
  - intros pid rec rid. rewrite lookup_insert_Some. intros [[<- <-]|[Hne Hrec]]; cbn.
    + destruct (decide (codes = [])) as [->|Hc].
      * rewrite (proj2 Hnil eq_refl). split.
        -- intros [= <-]. eexists. by rewrite lookup_insert_eq.
        -- intros (row & Hrow & Hpid). apply lookup_insert_Some in Hrow as [[<- _]|[_ Hrow]]; [done|].
           by destruct (Hfree _ _ Hrow).
      * destruct reasons; [by destruct Hc; apply Hnil|]. split; [done|].
        intros (row & Hrow & Hpid). by destruct (Hfree _ _ Hrow).
    + rewrite (sim_link _ _ Hs _ _ _ Hrec). destruct reasons; [|done]. split.
      * intros (row & Hrow & Hpid). exists row. split; [|done]. rewrite lookup_insert_ne; congruence.
      * intros (row & Hrow & Hpid). apply lookup_insert_Some in Hrow as [[_ <-]|[_ Hrow]]; [|by eauto].
        done.
  - apply Hs.
  - apply Hs.
Qed.

(** The checks of the two [INSERT]s pass. *)
Lemma insert_proposal_fits d pr p s db h st reasons :
  pg_sim s db → 0 < amount pr → fits d pr p s db → proposal_hash pr = Ok h →
  _idempotency s !! (principal_id pr, idempotency_key pr) = None →
  insert_proposal (proposal_id pr) (row_of (eval_now d) h st reasons pr) db
  = (set_proposals (insert (proposal_id pr) (row_of (eval_now d) h st reasons pr)) db, Ok tt).
Proof.
  intros Hs Ha [Hnew Hrange Hpos (h' & Hh & Hlen & Hun) _ _] Hh' Hidem.
  assert (h' = h) as -> by congruence.
  unfold insert_proposal, self, lift, update, mbind, M_bind. cbn [row_of pp_chain_id pp_amount pp_wallet
    pp_proposal_hash pp_principal_id pp_idempotency_key]. rewrite Hrange, Hlen. cbn [andb negb raise_if].
  rewrite (proj2 (Z.ltb_lt _ _) Hpos), (proj2 (Z.ltb_lt _ _) Ha). cbn [andb negb raise_if].
  rewrite (sim_proposal_None _ _ _ Hs Hnew), bool_decide_false by (by intros []). cbn [raise_if].
  rewrite (proj2 (exists_row_false _ _)).
  2: { intros k v Hk. apply bool_decide_eq_false. by eapply Hun. }
  cbn [raise_if]. rewrite (proj2 (exists_row_false _ _)); [done|].
  intros k v Hk. apply bool_decide_eq_false. intros Heq.
  enough (_idempotency s !! (principal_id pr, idempotency_key pr) = Some k) by congruence.
  apply (sim_idem _ _ Hs). eauto.
Qed.

Lemma insert_reservation_fits s db pid rid row :
  pg_sim s db → numeric78 (rr_amount row) = true → 0 < rr_amount row → rr_proposal_id row = pid →
  _records s !! pid = None → _reservations s !! rid = None →
  ∀ prow, insert_reservation rid row (set_proposals (insert pid prow) db)
    = (set_reservation_rows (insert rid row) (set_proposals (insert pid prow) db), Ok tt).
Proof.
  intros Hs Hr Ha Hpid Hnew Hfresh prow.
  unfold insert_reservation, self, lift, update, mbind, M_bind.
  rewrite Hr, (proj2 (Z.ltb_lt _ _) Ha). cbn [negb raise_if]. cbn [set_proposals t_reservations t_proposals].
  rewrite (sim_reservation_None _ _ _ Hs Hfresh), bool_decide_false by (by intros []). cbn [raise_if].
  rewrite (proj2 (exists_row_false _ _)).
  2: { intros k v Hk. apply bool_decide_eq_false. intros Heq.
       destruct (sim_reservation_row _ _ _ _ Hs Hk) as (_ & _ & _ & [q Hq]).
       pose proof (sim_proposal_None _ _ _ Hs Hnew). congruence. }
  cbn [raise_if]. rewrite Hpid, lookup_insert_eq, bool_decide_false; done.
Qed.

(** A record that reads back. *)
Lemma required_record_sim s db pid rec :
  pg_sim s db → _records s !! pid = Some rec →
  ∃ rec', required_record pid db = (db, Ok rec') ∧ seen rec = shown rec'.
Proof.
  intros Hs Hrec. destruct (pg_record_sim s db pid Hs) as (o & Ho & Hobs). rewrite Hrec in Hobs.
  inversion Hobs as [? rec' Heq|]; subst. exists rec'. split; [|done].
  unfold required_record, lift, mbind, M_bind. by rewrite Ho.
Qed.

Lemma reserve_once_duplicate t now rid pr p s db pid rec :
  pg_sim s db → _idempotency s !! (principal_id pr, idempotency_key pr) = Some pid →
  _records s !! pid = Some rec →
  ∃ rec', seen rec = shown rec' ∧
    _reserve_once t now rid pr p db = (db, Ok {| res_record := rec'; res_created := false |}).
Proof.
  intros Hs Hk Hrec. destruct (required_record_sim s db pid rec Hs Hrec) as (rec' & Hreq & Hobs).
  exists rec'. split; [done|]. pose proof (proj1 (sim_idem _ _ Hs _ _) Hk) as (row & Hrow & Heq).
  injection Heq as Hp Hi. unfold _reserve_once, transaction, self, mbind, M_bind.
  rewrite (select_row_unique _ _ pid row), Hreq; [done|done|..].
  - by rewrite !bool_decide_true.
  - intros k v Hkv Hv. apply andb_true_iff in Hv as [Hv1%bool_decide_eq_true Hv2%bool_decide_eq_true].
    enough (_idempotency s !! (principal_id pr, idempotency_key pr) = Some k) by congruence.
    apply (sim_idem _ _ Hs). exists v. by rewrite Hv1, Hv2.
Qed.

Lemma reserve_once_new d h pr p s db :
  store_inv s → pg_sim s db → 0 < amount pr → _reservations s !! new_reservation d = None →
  normal pr → fits d pr p s db → proposal_hash pr = Ok h →
  _idempotency s !! (principal_id pr, idempotency_key pr) = None →
  ∃ rec', seen (decided_record d pr p s) = shown rec' ∧
    _reserve_once (static_now d) (eval_now d) (new_reservation d) pr p db
    = (pg_reserved d h pr p db, Ok {| res_record := rec'; res_created := true |}).
Proof.
  intros Hinv Hs Ha Hfresh Hnorm Hfit Hh Hidem.
  pose proof (reserved_sim d h pr p s db Hinv Hs Hnorm Hfit Hfresh Hidem) as Hs'.
  destruct (required_record_sim _ _ (proposal_id pr) (decided_record d pr p s) Hs')
    as (rec' & Hreq & Hobs); [by apply lookup_insert_eq|].
  exists rec'. split; [done|]. unfold _reserve_once, transaction, self, lift, mbind, M_bind.
  rewrite (proj2 (select_row_None _ _)).
  2: { intros k v Hk. apply not_true_is_false. intros Hv.
       apply andb_true_iff in Hv as [Hv1%bool_decide_eq_true Hv2%bool_decide_eq_true].
       enough (_idempotency s !! (principal_id pr, idempotency_key pr) = Some k) by congruence.
       apply (sim_idem _ _ Hs). exists v. by rewrite Hv1, Hv2. }
  rewrite Hh. cbv zeta. rewrite (insert_proposal_fits d pr p s db h) by done.
  unfold pg_reserved in Hreq |- *. cbv zeta in Hreq |- *.
  destruct (_scope_reasons (static_now d) (eval_now d) db pr p) as [|c cs].
  - pose proof (fit_range _ _ _ _ _ Hfit) as Hr. apply andb_true_iff in Hr as [[_ Hr]%andb_true_iff _].
    rewrite (insert_reservation_fits s db) by (done || apply Hfit).
    unfold set_proposals, set_reservation_rows. cbn [t_proposals t_reservations t_decision_nonce_uses
      t_wallet_nonce_uses]. by rewrite Hreq.
  - unfold mret, M_ret, set_proposals. by rewrite Hreq.
Qed.

Lemma reserve_sim d pr p s db :
  store_inv s → pg_sim s db → 0 < amount pr → _reservations s !! new_reservation d = None →
  pg_side (OReserve d pr p) s db →
  pg_sim (fst (reserve d pr p s)) (pg_run (OReserve d pr p) db)
  ∧ mem_answer (OReserve d pr p) s = pg_answer (OReserve d pr p) db.
Proof.
  intros Hinv Hs Ha Hfresh [Hnorm Hfit]. cbn [pg_run mem_answer pg_answer]. rewrite reserve_spec.
  destruct (_idempotency s !! _) as [pid|] eqn:Hk.
  - destruct (si_idempotency s Hinv _ _ Hk) as [rec Hrec].
    destruct (reserve_once_duplicate (static_now d) (eval_now d) (new_reservation d) pr p s db pid rec)
      as (rec' & Hobs & ->); [done..|]. rewrite Hrec. cbn. by rewrite Hobs.
  - destruct (fit_hash _ _ _ _ _ (Hfit eq_refl)) as (h & Hh & _).
    destruct (reserve_once_new d h pr p s db) as (rec' & Hobs & ->); auto.
    cbn. rewrite Hobs. split; [|done]. apply reserved_sim; auto.
Qed.

(** ** Moving *)

Definition hit (pid : Z) (r : reservations_row) : bool :=
  bool_decide (rr_proposal_id r = pid) && bool_decide (rr_status r = RS_ACTIVE).

Definition row_effect (now : Z) (target : LifecycleState) (r : reservations_row) : reservations_row :=
  if is_in target [EXPIRED; REVERTED] then release_row now r
  else if bool_decide (target = SETTLED) then settle_row now r
  else r.

Definition pg_moved (now pid : Z) (target : LifecycleState) (db : PgState) : PgState :=
  set_proposals (alter (move_row now target) pid)
    (set_reservation_rows (fmap (λ r, if hit pid r then row_effect now target r else r)) db).

(** The one reservation of a record that may move is active in both stores. *)
Lemma moving_reservation s db pid rec target :
  store_inv s → pg_sim s db → _records s !! pid = Some rec →
  require_transition (rec_state rec) target = Ok tt →
  ∃ rid r row, rec_reservation_id rec = Some rid ∧ _reservations s !! rid = Some r
    ∧ t_reservations db !! rid = Some row ∧ res_sim db r row ∧ hit pid row = true
    ∧ (r_active r, r_settled r) = (true, false)
    ∧ ∀ rid' row', t_reservations db !! rid' = Some row' → rid' ≠ rid → hit pid row' = false.
Proof.
  intros Hinv Hs Hrec Htr.
  assert (rec_state rec ≠ DENIED) as Hnd by (intros Hd; rewrite Hd in Htr; by destruct target).
  destruct (si_record s Hinv _ _ Hrec) as (_ & Hnp & _ & Hden & _).
  destruct (rec_reservation_id rec) as [rid|] eqn:Hrid; [|destruct Hnd; by apply Hden].
  destruct (si_reservation s Hinv _ _ _ Hrec Hrid) as (r & Hr & Hrp & _ & _ & Hact & Hset).
  pose proof (sim_res _ _ Hs rid) as Ho. rewrite Hr in Ho. inversion Ho as [r0 row Hrs Hr0 Hrow|]; subst.
  assert (r_active r = true ∧ r_settled r = false) as [Ha Hf].
  { rewrite Hact, Hset. destruct (rec_state rec), target; done. }
  exists rid, r, row. split_and!; [done..| |by rewrite Ha, Hf|].
  - unfold hit. rewrite (ss_pid _ _ _ Hrs), bool_decide_true by done.
    pose proof (ss_flags _ _ _ Hrs) as Hfl. rewrite Ha, Hf in Hfl. by destruct (rr_status row).
  - intros rid' row' Hrow' Hne. unfold hit. rewrite bool_decide_false; [done|]. intros Hpid. apply Hne.
    enough (rec_reservation_id rec = Some rid') by congruence. apply (sim_link _ _ Hs _ _ _ Hrec). eauto.
Qed.

Lemma row_effect_sim now target r row db st :
  st ≠ PROPOSED → require_transition st target = Ok tt → res_sim db r row →
  (r_active r, r_settled r) = (true, false) →
  res_sim db (settle_flags target r) (row_effect now target row).
Proof.
  intros Hnp Htr [Hpid Ham Hcr Hfl Hkey] Hfr. unfold settle_flags, row_effect.
  pose proof Hfr as Hfr'. injection Hfr' as Ha Hf.
  destruct target; eval_tests; constructor; cbn; try done; by rewrite Hf.
Qed.

Lemma moved_sim now pid target rec s db :
  store_inv s → pg_sim s db → _records s !! pid = Some rec →
  require_transition (rec_state rec) target = Ok tt →
  pg_sim (moved_store now pid (default 0 (rec_reservation_id rec)) target rec s) (pg_moved now pid target db).
Proof.
  intros Hinv Hs Hrec Htr.
  destruct (si_record s Hinv _ _ Hrec) as (_ & Hnp & _).
  destruct (moving_reservation _ _ _ _ _ Hinv Hs Hrec Htr)
    as (rid & r & row & Hrid & Hr & Hrow & Hrs & Hhit & Hfl & Hother).
  pose proof (sim_rows _ _ Hs pid) as Hp. rewrite Hrec in Hp. inversion Hp as [rec0 prow Hpr Hrec0 Hprow|]; subst.
  assert (∀ r0 row0, res_sim db r0 row0 → res_sim (pg_moved now pid target db) r0 row0) as Hmono.
  { intros r0 row0 Hrs0. apply (res_sim_mono db); [done|]. intros q Hq. cbn.
    destruct (decide (rr_proposal_id row0 = pid)) as [Heq|Hne].
    - rewrite Heq in Hq |- *. rewrite lookup_alter_eq, Hq. by eexists.
    - rewrite lookup_alter_ne by done. eauto. }
  rewrite Hrid. cbn [default]. constructor; cbn [moved_store _records _idempotency _reservations
    _decision_nonces _wallet_nonces]; [| | | |apply Hs..].
  - intros k. cbn. destruct (decide (k = pid)) as [->|Hne].
    + rewrite lookup_insert_eq, lookup_alter_eq, <- Hprow. constructor. by destruct Hpr; constructor.
    + rewrite lookup_insert_ne, lookup_alter_ne by done. apply Hs.
  - intros key k. rewrite (sim_idem _ _ Hs). cbn. destruct (decide (k = pid)) as [->|Hne].
    + rewrite lookup_alter_eq, <- Hprow. cbn. naive_solver.
    + by rewrite lookup_alter_ne.
  - intros k. cbn. rewrite lookup_fmap. destruct (decide (k = rid)) as [->|Hne].
    + rewrite lookup_alter_eq, Hr, Hrow. cbn. rewrite Hhit. constructor.
      eapply Hmono, row_effect_sim; done.
    + rewrite lookup_alter_ne by done. pose proof (sim_res _ _ Hs k) as Hk.
      inversion Hk as [r0 row0 Hrs0 Hr0 Hrow0|]; cbn; constructor.
      rewrite (Hother k row0) by done. by apply Hmono.
  - intros k rec0 rid0 Hrec0. assert (∃ rec1, _records s !! k = Some rec1
      ∧ rec_reservation_id rec1 = rec_reservation_id rec0) as (rec1 & Hrec1 & <-).
    { apply lookup_insert_Some in Hrec0 as [[<- <-]|[_ Hrec0]]; eauto. }
    rewrite (sim_link _ _ Hs _ _ _ Hrec1). cbn. rewrite lookup_fmap.
    assert (∀ x, rr_proposal_id (if hit pid x then row_effect now target x else x) = rr_proposal_id x) as Hx.
    { intros x. unfold row_effect. by repeat case_match. }
    destruct (t_reservations db !! rid0); cbn; [|naive_solver]. split; intros (? & [= <-] & <-); eauto.
Qed.

Lemma fmap_same {V} (f : V → V) (m : gmap Z V) : (∀ v, f v = v) → f <$> m = m.
Proof. intros Hf. apply map_eq. intros k. rewrite lookup_fmap. destruct (m !! k); cbn; by rewrite ?Hf. Qed.

Lemma rows_same (q : reservations_row → bool) db :
  set_reservation_rows (fmap (λ r, if q r then r else r)) db = db.
Proof. destruct db. unfold set_reservation_rows. cbn. rewrite fmap_same; [done|]. intros v. by case_match. Qed.

Lemma pg_transition_Ok now pid target rec s db :
  store_inv s → pg_sim s db → _records s !! pid = Some rec →
  require_transition (rec_state rec) target = Ok tt →
  ∃ rec', seen (moved_record now target (_version s + 1) rec) = shown rec'
    ∧ pg_transition now pid target db = (pg_moved now pid target db, Ok rec').
Proof.
  intros Hinv Hs Hrec Htr.
  destruct (required_record_sim _ _ pid (moved_record now target (_version s + 1) rec)
    (moved_sim now pid target rec s db Hinv Hs Hrec Htr)) as (rec' & Hreq & Hobs);
    [by apply lookup_insert_eq|].
  exists rec'. split; [done|]. destruct (pg_record_sim s db pid Hs) as (o & Ho & Hobs0).
  rewrite Hrec in Hobs0. inversion Hobs0 as [rec0 rec1 Heq Hr0 Hr1|]; subst.
  assert (rec_state rec1 = rec_state rec) as Hst by (unfold seen, shown in Heq; congruence).
  destruct (moving_reservation _ _ _ _ _ Hinv Hs Hrec Htr) as (rid & r & row & _ & _ & Hrow & _ & Hhit & _).
  unfold pg_transition, transaction, update_reservations, self, update, lift, mbind, M_bind. rewrite Ho.
  cbn [or_raise]. rewrite Hst, Htr. revert Hreq. unfold pg_moved, row_effect.
  pose proof (exists_row_true (hit pid) _ _ _ Hrow Hhit) as Hex. unfold hit in Hex |- *.
  destruct target; eval_tests; unfold mret, M_ret; rewrite ?rows_same; intros Hreq;
    first [by rewrite Hreq|by rewrite Hex; cbn; rewrite Hreq].
Qed.

Lemma transition_sim now pid target s db :
  store_inv s → pg_sim s db →
  pg_sim (fst (transition now pid target s)) (pg_run (OTransition now pid target) db)
  ∧ mem_answer (OTransition now pid target) s = pg_answer (OTransition now pid target) db.
Proof.
  intros Hinv Hs. cbn [pg_run mem_answer pg_answer]. rewrite transition_spec by done.
  destruct (_records s !! pid) as [rec|] eqn:Hrec.
  - destruct (require_transition (rec_state rec) target) as [[]|e] eqn:Htr.
    + destruct (pg_transition_Ok now pid target rec s db) as (rec' & Hobs & ->); [done..|].
      split; [by apply moved_sim|]. cbn. by rewrite Hobs.
    + destruct (pg_record_sim s db pid Hs) as (o & Ho & Hobs). rewrite Hrec in Hobs.
      inversion Hobs as [rec0 rec' Heq Hr0 Hr1|]; subst.
      assert (rec_state rec' = rec_state rec) as Hst by (unfold seen, shown in Heq; congruence).
      unfold pg_transition, transaction, lift, mbind, M_bind. rewrite Ho. cbn [or_raise]. by rewrite Hst, Htr.
  - destruct (pg_record_sim s db pid Hs) as (o & Ho & Hobs). rewrite Hrec in Hobs. inversion Hobs; subst.
    unfold pg_transition, transaction, lift, mbind, M_bind. by rewrite Ho.
Qed.

(** ** Nonces *)

Lemma nonce_sim nonce s db :
  pg_sim s db →
  pg_sim (fst (register_decision_nonce nonce s)) (pg_run (ODecisionNonce nonce) db)
  ∧ mem_answer (ODecisionNonce nonce) s = pg_answer (ODecisionNonce nonce) db.
Proof.
  intros Hs. cbn [pg_run mem_answer pg_answer].
  unfold register_decision_nonce, pg_register_decision_nonce, transaction, self, read, lift, mbind, M_bind.
  rewrite (sim_decisions _ _ Hs). case_bool_decide; cbn; [done|]. split; [|done].
  destruct Hs as [H1 H2 H3 H4 H5 H6]. constructor; cbn; try done; [|by rewrite H5].
  intros rid. destruct (H3 rid); constructor. by apply (res_sim_mono db); eauto.
Qed.

Lemma wallet_nonce_sim w chain nonce s db :
  pg_sim s db → pg_side (OWalletNonce w chain nonce) s db →
  pg_sim (fst (register_wallet_nonce w chain nonce s)) (pg_run (OWalletNonce w chain nonce) db)
  ∧ mem_answer (OWalletNonce w chain nonce) s = pg_answer (OWalletNonce w chain nonce) db.
Proof.
  intros Hs Hside. cbn [pg_run mem_answer pg_answer pg_side] in *.
  unfold register_wallet_nonce, pg_register_wallet_nonce, transaction, self, read, lift, mbind, M_bind.
  rewrite Hside. cbn [negb raise_if]. rewrite (sim_wallets _ _ Hs). case_bool_decide; cbn; [done|].
  split; [|done]. destruct Hs as [H1 H2 H3 H4 H5 H6]. constructor; cbn; try done; [|by rewrite H6].
  intros rid. destruct (H3 rid); constructor. by apply (res_sim_mono db); eauto.
Qed.

Lemma store_op_sim op s db :
  store_inv s → pg_sim s db → op_ok op s → pg_side op s db →
  pg_sim (store_run op s) (pg_run op db) ∧ mem_answer op s = pg_answer op db.
Proof.
  intros Hinv Hs Hok Hside. destruct op as [d pr p|now pid target|nonce|w chain nonce].
  - destruct Hok. by apply reserve_sim.
  - by apply transition_sim.
  - by apply nonce_sim.
  - by apply wallet_nonce_sim.
Qed.

(** ** Totals *)

Lemma budget_totals_sim s db principal w chain a :
  pg_sim s db →
  snd (budget_totals principal w chain a s) = snd (pg_budget_totals principal w chain a db).
Proof.
  intros Hs. unfold budget_totals, pg_budget_totals, read. cbn. do 2 f_equal; symmetry.
  all: apply reservations_sum; [done|]; intros rid r row Hr Hrow Hrs; unfold term;
    destruct (joined_sim _ _ _ _ _ (principal, str_lower w, chain, a) Hs Hr Hrow) as (_ & Hj & _ & Hact & Hset);
    by rewrite Hj, ?Hact, ?Hset, (ss_amount _ _ _ Hrs).
Qed.

(** ** Retries *)

Lemma pg_reserve_retries failed a rest pr p db :
  Forall (λ x, at_aborted x = true) failed → at_aborted a = false →
  pg_reserve (failed ++ a :: rest) pr p db
  = _reserve_once (at_static a) (at_now a) (at_reservation a) pr p db.
Proof.
  intros Hf Ha. induction Hf as [|x failed Hx Hf IH]; cbn; [by rewrite Ha|].
  rewrite Hx, <- IH. by destruct failed.
Qed.

(** The two stores run side by side. *)
Inductive together : MemoryStateStore → PgState → Prop :=
  | together_init : together store_init pg_init
  | together_op s db op : together s db → op_ok op s → pg_side op s db →
      together (store_run op s) (pg_run op db).

Lemma together_sim s db : together s db → store_inv s ∧ pg_sim s db.
Proof.
  induction 1 as [|s db op _ [Hinv Hs] Hok Hside]; [split; [apply store_init_inv|apply pg_sim_init]|].
  split; [by apply store_run_inv|by apply store_op_sim].
Qed.

End operations.

(** * Witness *)

Definition sample_db : PgState := @pg_run sized_externals sample_reserve pg_init.

(** The sample payment reserved in both stores. *)
Lemma sample_together : @together sized_externals sample_store sample_db.
Proof.
  rewrite sample_store_run. unfold sample_db. constructor; [constructor|split; vm_compute; reflexivity|].
  split; [vm_compute; reflexivity|]. intros _. constructor.
  - reflexivity.
  - vm_compute. reflexivity.
  - reflexivity.
  - eexists. split; [vm_compute; reflexivity|]. split; [vm_compute; reflexivity|].
    intros pid row Hrow. cbn in Hrow. by rewrite lookup_empty in Hrow.
  - reflexivity.
  - intros rid r w Hr. cbn in Hr. by rewrite lookup_empty in Hr.
Qed.

