(* ===== verification/PostgresPolicyFacts.v ===== *)
(** The PostgreSQL policy store and the in-memory registry agree on every call. *)
From Stdlib Require Import ZArith Lia Ascii String.
From stdpp Require Import base gmap sets list strings pretty sorting.
From S2P Require Import Prelude Bytes Canonical CanonicalFacts Contracts ContractsFacts.
From S2P Require Import Policy PolicyFacts State Postgres PostgresFacts.

Open Scope Z_scope.

(** A row and the version it stands for. *)
Definition vrow_sim (db : PgPolicies) (id : Z) (v : PolicyVersion) (row : policy_versions_row) : Prop :=
  v = version_of db id row (vr_document row) ∧ PolicyV1_validate (vr_document row) = Ok (vr_document row).

Record pol_sim (r : PolicyRegistry) (db : PgPolicies) : Prop := {
  pol_rows : ∀ id, option_Forall2 (vrow_sim db id) (_versions r !! id) (t_policy_versions db !! id);
  pol_keys : ∀ id a, (id, a) ∈ t_policy_approvals db → is_Some (t_policy_versions db !! id);
}.

Lemma pol_sim_init : pol_sim registry_init pg_policies_init.
Proof. constructor; cbn; [intros id; rewrite !lookup_empty; constructor|set_solver]. Qed.

(** ** Reading *)

Lemma pg_version_sim r db id : pol_sim r db → pg_version id db = (db, Ok (_versions r !! id)).
Proof.
  intros Hs. unfold pg_version, self, lift, mbind, M_bind. pose proof (pol_rows _ _ Hs id) as Ho.
  inversion Ho as [v row Hv Hr Hrow|Hr Hrow]; [|done]. destruct Hv as [-> Hval]. by rewrite Hval.
Qed.

Lemma required_version_sim r db id v :
  pol_sim r db → _versions r !! id = Some v → required_version id db = (db, Ok v).
Proof.
  intros Hs Hv. unfold required_version, lift, mbind, M_bind. by rewrite (pg_version_sim r), Hv.
Qed.

Lemma known_version_sim r db id :
  pol_sim r db →
  known_version id db
  = (db, or_raise (_versions r !! id) (KeyError ("unknown policy version " +:+ uuid_str id))).
Proof. intros Hs. unfold known_version, lift, mbind, M_bind. by rewrite (pg_version_sim r). Qed.

(** The row of a version. *)
Lemma pol_row r db id v :
  pol_sim r db → _versions r !! id = Some v →
  ∃ row, t_policy_versions db !! id = Some row ∧ v = version_of db id row (vr_document row)
    ∧ PolicyV1_validate (vr_document row) = Ok (vr_document row).
Proof.
  intros Hs Hv. pose proof (pol_rows _ _ Hs id) as Ho. rewrite Hv in Ho.
  inversion Ho as [v0 row [Hvr Hval] Hv0 Hrow|]; subst. eauto.
Qed.

Lemma elem_of_approvals db id a : a ∈ approvals_of db id ↔ (id, a) ∈ t_policy_approvals db.
Proof.
  unfold approvals_of. rewrite elem_of_map. setoid_rewrite elem_of_filter. split.
  - intros ([k b] & -> & Hk & Hin). cbn in *. by subst k.
  - intros Hin. by exists (id, a).
Qed.

Lemma approvals_of_add db id a k :
  approvals_of (set_approvals (λ x, x ∪ {[(id, a)]}) db) k
  = if decide (k = id) then approvals_of db k ∪ {[a]} else approvals_of db k.
Proof.
  apply set_eq. intros x. destruct (decide (k = id)) as [->|Hne].
  all: rewrite ?elem_of_union, !elem_of_approvals; cbn; rewrite elem_of_union, !elem_of_singleton;
    naive_solver.
Qed.

(** ** Creating *)

Section store.
Context `{!Externals}.

Definition pg_policy_run (op : registry_op) (db : PgPolicies) : PgPolicies * result PolicyVersion :=
  match op with
  | OpCreate new_id now policy by_ => pg_policy_create new_id now policy by_ db
  | OpApprove id administrator_id => pg_policy_approve id administrator_id db
  | OpActivate now id by_ => pg_policy_activate now id by_ db
  end.

(** A created policy is validated, and its hash fits the column and is new. *)
Definition policy_side (op : registry_op) (db : PgPolicies) : Prop :=
  match op with
  | OpCreate _ _ policy _ => PolicyV1_validate policy = Ok policy ∧
      ∀ h, policy_hash policy = Ok h →
        char_n 66 h = true ∧ ∀ k row, t_policy_versions db !! k = Some row → vr_policy_hash row ≠ h
  | _ => True
  end.

Lemma create_sim new_id now policy by_ r db :
  pol_sim r db → op_fresh (OpCreate new_id now policy by_) r →
  policy_side (OpCreate new_id now policy by_) db →
  pol_sim (fst (registry_create new_id now policy by_ r)) (fst (pg_policy_create new_id now policy by_ db))
  ∧ snd (registry_create new_id now policy by_ r) = snd (pg_policy_create new_id now policy by_ db).
Proof.
  intros Hs Hfresh [Hval Hside]. cbn in Hfresh. rewrite registry_create_spec.
  unfold pg_policy_create, transaction, lift, self, update, mbind, M_bind.
  destruct (policy_hash policy) as [h|e]; [|done]. destruct (Hside h eq_refl) as [-> Hun].
  cbn [negb raise_if]. pose proof (pol_rows _ _ Hs new_id) as Ho. rewrite Hfresh in Ho.
  inversion Ho as [|Hv Hrow]. rewrite bool_decide_false by (by intros []). cbn [raise_if].
  rewrite (proj2 (exists_row_false _ _)).
  2: { intros k row Hk. apply bool_decide_eq_false. eauto. }
  cbn [raise_if]. cbv zeta. set (row := Build_policy_versions_row _ _ _ _ _ _ _).
  set (v := Build_PolicyVersion _ _ _ _ _ _ _ _ _).
  assert (pol_sim {| _versions := <[new_id:=v]> (_versions r); _active_id := _active_id r |}
    (set_versions (insert new_id row) db)) as Hs'.
  { constructor; cbn.
    - intros k. destruct (decide (k = new_id)) as [->|Hne].
      + rewrite !lookup_insert_eq. constructor. split; [|done]. unfold v, version_of. cbn. f_equal.
        symmetry. apply set_eq. intros a. rewrite elem_of_approvals. split; [|set_solver].
        intros Hin. destruct (pol_keys _ _ Hs _ _ Hin). congruence.
      + rewrite !lookup_insert_ne by done. apply (pol_rows _ _ Hs k).
    - intros k a Hin%(pol_keys _ _ Hs). apply lookup_insert_is_Some'. by right. }
  rewrite (required_version_sim _ _ new_id v Hs') by (cbn; by rewrite lookup_insert_eq). done.
Qed.

(** ** Approving *)

Definition pg_approved (id : Z) (a : string) (db : PgPolicies) : PgPolicies :=
  let db := set_approvals (λ x, x ∪ {[(id, a)]}) db in
  if bool_decide (2 ≤ size (approvals_of db id))%nat
  then set_versions (alter (with_vstatus APPROVED) id) db else db.

Lemma approved_sim id a v r db :
  pol_sim r db → _versions r !! id = Some v →
  pol_sim {| _versions := <[id := approve_version a v]> (_versions r); _active_id := _active_id r |}
    (pg_approved id a db).
Proof.
  intros Hs Hv. destruct (pol_row _ _ _ _ Hs Hv) as (row & Hrow & -> & Hval).
  assert (∀ k, approvals_of (pg_approved id a db) k
    = if decide (k = id) then approvals_of db k ∪ {[a]} else approvals_of db k) as Happ.
  { intros k. rewrite <- approvals_of_add. unfold pg_approved. by case_match. }
  unfold pg_approved in *. cbv zeta in *. unfold approve_version. cbn [approvals with_approvals version_of].
  rewrite approvals_of_add, decide_True in * by done. constructor.
  - intros k. cbn [_versions]. specialize (Happ k). destruct (decide (k = id)) as [->|Hne].
    + rewrite lookup_insert_eq. case_bool_decide; cbn [t_policy_versions set_versions set_approvals].
      * rewrite lookup_alter_eq, Hrow. constructor. split; [|done].
        unfold version_of at 2. rewrite Happ. done.
      * rewrite Hrow. constructor. split; [|done]. unfold version_of at 2. rewrite Happ. done.
    + rewrite lookup_insert_ne by done. pose proof (pol_rows _ _ Hs k) as Ho.
      assert (t_policy_versions (if bool_decide (2 ≤ size (approvals_of db id ∪ {[a]}))%nat
        then set_versions (alter (with_vstatus APPROVED) id) (set_approvals (λ x, x ∪ {[(id, a)]}) db)
        else set_approvals (λ x, x ∪ {[(id, a)]}) db) !! k = t_policy_versions db !! k) as ->.
      { case_match; [|done]. cbn. by rewrite lookup_alter_ne. }
      inversion Ho as [w wrow [Hw Hwv] Hr Hwrow|]; constructor. split; [|done].
      rewrite Hw. unfold version_of. by rewrite Happ.
  - intros k b Hin. assert (is_Some (t_policy_versions db !! k)) as [x Hx].
    { revert Hin. case_match; cbn; intros [?%(pol_keys _ _ Hs)|Hin]%elem_of_union; try done;
        apply elem_of_singleton in Hin; injection Hin as -> ->; eauto. }
    case_match; cbn; [|eauto]. destruct (decide (k = id)) as [->|].
    + rewrite lookup_alter_eq, Hx. eauto.
    + rewrite lookup_alter_ne by done. eauto.
Qed.

Lemma approve_sim id a r db :
  pol_sim r db →
  pol_sim (fst (registry_approve id a r)) (fst (pg_policy_approve id a db))
  ∧ snd (registry_approve id a r) = snd (pg_policy_approve id a db).
Proof.
  intros Hs. rewrite registry_approve_spec.
  unfold pg_policy_approve, transaction, lift, read, update, mbind, M_bind.
  rewrite (known_version_sim r) by done.
  destruct (_versions r !! id) as [v|] eqn:Hv; [|done]. cbn [or_raise].
  destruct (is_in (v_status v) _); [done|]. cbn [raise_if]. cbv zeta.
  pose proof (approved_sim id a v r db Hs Hv) as Hs'.
  pose proof (required_version_sim _ _ id (approve_version a v) Hs' (lookup_insert_eq _ _ _)) as Hreq.
  unfold pg_approved in *. cbv zeta in *. unfold mret, M_ret.
  destruct (bool_decide (2 ≤ size _)%nat); rewrite Hreq; done.
Qed.

(** ** Activating *)

Definition pg_activated (now id : Z) (by_ : string) (db : PgPolicies) : PgPolicies :=
  set_versions (alter (activate_row now by_) id)
    (set_versions (map_imap (λ k r,
      Some (if bool_decide (vr_status r = ACTIVE) && negb (bool_decide (k = id))
            then with_vstatus RETIRED r else r))) db).

Lemma retire_active_ne id k r v :
  registry_inv r → k ≠ id → _versions r !! k = Some v →
  retire_active id r !! k = Some (if bool_decide (v_status v = ACTIVE) then with_status RETIRED v else v).
Proof.
  intros Hinv Hne Hv. unfold retire_active. case_bool_decide as Hst.
  - rewrite (inv_unique r Hinv k v Hv Hst), bool_decide_true, lookup_alter_eq, Hv by done. done.
  - destruct (_active_id r) as [old|] eqn:Ha; [|done]. destruct (decide (old = k)) as [->|Hok].
    + destruct (inv_active r Hinv k Ha) as (w & Hw & ?). congruence.
    + case_bool_decide; [|done]. by rewrite lookup_alter_ne.
Qed.

Lemma activated_sim now id by_ v r db :
  registry_inv r → pol_sim r db → _versions r !! id = Some v →
  pol_sim {| _versions := <[id := with_activation now by_ (with_status ACTIVE v)]> (retire_active id r);
             _active_id := Some id |} (pg_activated now id by_ db).
Proof.
  intros Hinv Hs Hv. destruct (pol_row _ _ _ _ Hs Hv) as (row & Hrow & -> & Hval). constructor.
  - intros k. cbn. destruct (decide (k = id)) as [->|Hne].
    + rewrite lookup_insert_eq, lookup_alter_eq, map_lookup_imap, Hrow. cbn.
      rewrite (bool_decide_true (id = id)), andb_false_r by done. constructor. by split.
    + rewrite lookup_insert_ne, lookup_alter_ne, map_lookup_imap by done.
      pose proof (pol_rows _ _ Hs k) as Ho. inversion Ho as [w wrow [Hw Hwv] Hr Hwrow|Hr Hwrow]; cbn.
      * rewrite (retire_active_ne id k r w), (bool_decide_false (k = id)), andb_true_r by done.
        constructor. rewrite Hw. cbn [v_status version_of]. by case_bool_decide.
      * assert (retire_active id r !! k = None) as ->; [|constructor].
        apply eq_None_not_Some. intros [w Hw]. apply retire_active_lookup in Hw as (u & Hu & _). congruence.
  - intros k a Hin%(pol_keys _ _ Hs). cbn. destruct Hin as [x Hx].
    destruct (decide (k = id)) as [->|]; [rewrite lookup_alter_eq|rewrite lookup_alter_ne by done];
      rewrite map_lookup_imap, Hx; by eexists.
Qed.

Lemma activate_sim now id by_ r db :
  registry_inv r → pol_sim r db →
  pol_sim (fst (registry_activate now id by_ r)) (fst (pg_policy_activate now id by_ db))
  ∧ snd (registry_activate now id by_ r) = snd (pg_policy_activate now id by_ db).
Proof.
  intros Hinv Hs. rewrite registry_activate_spec by done.
  unfold pg_policy_activate, transaction, lift, read, self, update, mbind, M_bind.
  rewrite (known_version_sim r) by done.
  destruct (_versions r !! id) as [v|] eqn:Hv; [|done]. cbn [or_raise].
  destruct (pol_row _ _ _ _ Hs Hv) as (row & Hrow & Heq & Hval). 
  assert (approvals v = approvals_of db id) as -> by (by rewrite Heq). destruct (bool_decide (_ < 2)%nat); [done|]. cbn [raise_if]. cbv zeta.
  rewrite bool_decide_false; cycle 1.
  { intros [[k w] Hw]. apply select_row_Some in Hw as [Hw Hst]. cbn in Hw.
    rewrite map_lookup_imap in Hw. apply bind_Some in Hw as (u & Hu & [= <-]).
    apply andb_true_iff in Hst as [Hst%bool_decide_eq_true Hk]. rewrite Hk, andb_true_r in Hst.
    destruct (bool_decide (vr_status u = ACTIVE)) eqn:Hb; [done|by apply bool_decide_eq_false in Hb]. }
  cbn [raise_if]. pose proof (activated_sim now id by_ v r db Hinv Hs Hv) as Hs'.
  pose proof (required_version_sim _ _ id _ Hs' (lookup_insert_eq _ _ _)) as Hreq.
  unfold pg_activated in *. by rewrite Hreq.
Qed.

(** ** Listing *)

#[local] Instance row_by_created_trans : Transitive row_by_created.
Proof. intros x y z. unfold row_by_created. lia. Qed.
#[local] Instance row_by_created_total : Total row_by_created.
Proof. intros x y. unfold row_by_created. lia. Qed.

Lemma versions_of_sim r db ids :
  pol_sim r db → versions_of ids db = (db, Ok (omap (λ id, _versions r !! id) ids)).
Proof.
  intros Hs. induction ids as [|id ids IH]; [done|]. cbn [versions_of]. unfold mbind, M_bind, mret, M_ret.
  rewrite (pg_version_sim r), IH by done. cbn. by destruct (_versions r !! id).
Qed.

(** The versions of the keys of the table are the versions of the registry. *)
Lemma omap_versions r db :
  pol_sim r db →
  omap (λ id, _versions r !! id) (map_to_list (t_policy_versions db)).*1 ≡ₚ (map_to_list (_versions r)).*2.
Proof.
  intros Hs. assert ((map_to_list (t_policy_versions db)).*1 ≡ₚ (map_to_list (_versions r)).*1) as ->.
  { apply NoDup_Permutation; [apply NoDup_fst_map_to_list..|]. intros id.
    rewrite !list_elem_of_fmap. pose proof (pol_rows _ _ Hs id) as Ho. split.
    - intros ([k w] & -> & Hw%elem_of_map_to_list). cbn in *. rewrite Hw in Ho.
      inversion Ho as [v row Hv Hr Hrow|]; subst. exists (k, v). split; [done|]. by apply elem_of_map_to_list.
    - intros ([k w] & -> & Hw%elem_of_map_to_list). cbn in *. rewrite Hw in Ho.
      inversion Ho as [v row Hv Hr Hrow|]; subst. exists (k, row). split; [done|].
      by apply elem_of_map_to_list. }
  assert (∀ l, (∀ e, e ∈ l → _versions r !! e.1 = Some e.2) → omap (λ id, _versions r !! id) l.*1 = l.*2)
    as Hl.
  { induction l as [|[k v] l IH]; intros Hall; [done|]. cbn. pose proof (Hall (k, v) ltac:(left)) as Hk.
    cbn in Hk. rewrite Hk. cbn. f_equal.
    apply IH. intros e He. apply Hall. by right. }
  rewrite Hl; [done|]. intros [k v] He. by apply elem_of_map_to_list in He.
Qed.

Lemma pg_policy_list_sim r db :
  pol_sim r db →
  ∃ l, snd (pg_policy_list db) = Ok l ∧ l ≡ₚ (map_to_list (_versions r)).*2
    ∧ StronglySorted by_created l.
Proof.
  intros Hs. unfold pg_policy_list, self, mbind, M_bind. rewrite (versions_of_sim r) by done.
  eexists. split; [done|]. set (rows := map_to_list (t_policy_versions db)). split.
  - etrans; [|by apply omap_versions]. fold rows. by rewrite (merge_sort_Permutation row_by_created rows).
  - assert (StronglySorted row_by_created (merge_sort row_by_created rows)) as Hss.
    { apply (StronglySorted_merge_sort row_by_created). }
    assert (∀ e, e ∈ merge_sort row_by_created rows → t_policy_versions db !! e.1 = Some e.2) as Hin.
    { intros [k w]. rewrite (merge_sort_Permutation row_by_created rows). by intros ?%elem_of_map_to_list. }
    assert (∀ k w v, t_policy_versions db !! k = Some w → _versions r !! k = Some v →
      v_created_at v = vr_created_at w) as Hat.
    { intros k w v Hw Hv. destruct (pol_row _ _ _ _ Hs Hv) as (row & Hrow & -> & _). cbn. congruence. }
    induction Hss as [|[k w] l Hl IH Hall]; cbn; [constructor|].
    assert (StronglySorted by_created (omap (λ id, _versions r !! id) l.*1)) as IH'.
    { apply IH. intros e He. apply Hin. by right. }
    destruct (_versions r !! k) as [v|] eqn:Hv; [|done]. constructor; [done|].
    apply Forall_forall. intros u Hu. apply list_elem_of_omap in Hu as (j & Hj & Hu).
    apply list_elem_of_fmap in Hj as ([j' x] & -> & Hx). cbn in *.
    pose proof (proj1 (Forall_forall _ _) Hall _ Hx) as Hle. unfold by_created, row_by_created in *. cbn in Hle.
    rewrite (Hat k w v), (Hat j' x u); [done|..]; try done; [by apply (Hin (j', x)); right|].
    by apply (Hin (k, w)); left.
Qed.

#[local] Instance by_created_trans : Transitive by_created.
Proof. intros x y z. unfold by_created. lia. Qed.
#[local] Instance by_created_total : Total by_created.
Proof. intros x y. unfold by_created. lia. Qed.

Lemma pg_policy_active_sim r db :
  registry_inv r → pol_sim r db → snd (registry_active r) = snd (pg_policy_active db).
Proof.
  intros Hinv Hs. unfold registry_active, pg_policy_active, read, self, lift, mbind, M_bind. cbn.
  assert (∀ k w, t_policy_versions db !! k = Some w → vr_status w = ACTIVE → _active_id r = Some k) as Hact.
  { intros k w Hw Hst. pose proof (pol_rows _ _ Hs k) as Ho. rewrite Hw in Ho.
    inversion Ho as [v row [Hv _] Hr Hrow|]; subst. by eapply (inv_unique r Hinv). }
  destruct (_active_id r) as [id|] eqn:Hid; cbn.
  - destruct (inv_active r Hinv id Hid) as (v & Hv & Hst). rewrite Hv. cbn.
    destruct (pol_row _ _ _ _ Hs Hv) as (row & Hrow & Heq & _).
    rewrite (select_row_unique _ _ id row); cbn.
    + by rewrite (required_version_sim r db id v).
    + done.
    + apply bool_decide_eq_true. by rewrite Heq in Hst.
    + intros k w Hw Hk%bool_decide_eq_true. specialize (Hact k w Hw Hk). congruence.
  - rewrite (proj2 (select_row_None _ _)); [done|]. intros k w Hw. apply bool_decide_eq_false.
    intros Hst. by specialize (Hact k w Hw Hst).
Qed.

Lemma registry_op_sim op r db :
  registry_inv r → pol_sim r db → op_fresh op r → policy_side op db →
  pol_sim (fst (registry_run op r)) (fst (pg_policy_run op db))
  ∧ snd (registry_run op r) = snd (pg_policy_run op db).
Proof.
  intros Hinv Hs Hf Hside. destruct op.
  - by apply create_sim.
  - by apply approve_sim.
  - by apply activate_sim.
Qed.

(** The two stores run side by side. *)
Inductive policies_together : PolicyRegistry → PgPolicies → Prop :=
  | policies_init : policies_together registry_init pg_policies_init
  | policies_op r db op : policies_together r db → op_fresh op r → policy_side op db →
      policies_together (fst (registry_run op r)) (fst (pg_policy_run op db)).

Lemma policies_together_sim r db : policies_together r db → registry_inv r ∧ pol_sim r db.
Proof.
  induction 1 as [|r db op _ [Hinv Hs] Hf Hside]; [split; [apply registry_init_inv|apply pol_sim_init]|].
  split; [by apply registry_step_inv|by apply registry_op_sim].
Qed.

(** C16: the two policy stores are interchangeable, but for one case.  After any sequence of
    [create], [approve] and [activate] calls, failing ones included, in which no policy is
    created twice, the PostgreSQL store and the registry return the same version or raise
    the same exception on every next call, look up the same versions and the same active one
    (the partial index [one_active_policy] is never violated) and list the same versions in
    order of creation.  Creating a policy whose hash is stored raises [UniqueViolation] and
    changes nothing. *)
Theorem postgres_policies_equivalence r db :
  policies_together r db →
  (∀ op, op_fresh op r → policy_side op db → snd (registry_run op r) = snd (pg_policy_run op db))
  ∧ (∀ id, snd (registry_get id r) = snd (pg_policy_get id db))
  ∧ snd (registry_active r) = snd (pg_policy_active db)
  ∧ (∃ l l', snd (registry_list r) = Ok l ∧ snd (pg_policy_list db) = Ok l' ∧ l ≡ₚ l'
       ∧ StronglySorted by_created l ∧ StronglySorted by_created l')
  ∧ (∀ new_id now p by_ h k row, policy_hash p = Ok h → char_n 66 h = true →
       t_policy_versions db !! new_id = None → t_policy_versions db !! k = Some row →
       vr_policy_hash row = h →
       pg_policy_create new_id now p by_ db
       = (db, Err (UniqueViolation "policy_versions_policy_hash_key"))).
Proof.
  intros Ht. destruct (policies_together_sim _ _ Ht) as [Hinv Hs]. split_and!.
  - intros op Hf Hside. by apply registry_op_sim.
  - intros id. unfold pg_policy_get. by rewrite (known_version_sim r).
  - by apply pg_policy_active_sim.
  - destruct (pg_policy_list_sim r db Hs) as (l & Hl & Hp & Hss). eexists _, l.
    split_and!; [done|done| |apply (StronglySorted_merge_sort by_created)|done].
    by rewrite Hp, (merge_sort_Permutation by_created).
  - intros new_id now p by_ h k row Hh Hc Hn Hk Hr.
    unfold pg_policy_create, transaction, lift, self, mbind, M_bind. rewrite Hh, Hc. cbn [negb raise_if].
    rewrite Hn, bool_decide_false by (by intros []). cbn [raise_if].
    rewrite (exists_row_true _ _ k row); [done..|]. by apply bool_decide_eq_true.
Qed.
End store.

(** * Witness *)

Definition policy_ops : list registry_op :=
  [OpCreate 1 0 sample_policy "alice"; OpApprove 1 "alice"; OpApprove 1 "bob"; OpActivate 5 1 "root"].
Definition policy_mem : PolicyRegistry :=
  foldl (λ r op, fst (@registry_run sized_externals op r)) registry_init policy_ops.
Definition policy_db : PgPolicies :=
  foldl (λ d op, fst (@pg_policy_run sized_externals op d)) pg_policies_init policy_ops.

Lemma sample_policies_together : @policies_together sized_externals policy_mem policy_db.
Proof.
  unfold policy_mem, policy_db, policy_ops. cbn [foldl].
  apply (policies_op _ _ (OpActivate 5 1 "root")); [|done..].
  apply (policies_op _ _ (OpApprove 1 "bob")); [|done..].
  apply (policies_op _ _ (OpApprove 1 "alice")); [|done..].
  apply (policies_op _ _ (OpCreate 1 0 sample_policy "alice")); [constructor|done|].
  split; [vm_compute; reflexivity|]. intros h Hh. split; [|intros k row; cbn; by rewrite lookup_empty].
  vm_compute in Hh. injection Hh as <-. vm_compute. reflexivity.
Qed.

Lemma postgres_policies_equivalence_witness :
  ∃ v, snd (@pg_policy_active policy_db) = Ok v ∧ v_status v = ACTIVE ∧ version_id v = 1.
Proof.
  destruct (@postgres_policies_equivalence sized_externals _ _ sample_policies_together) as (_ & _ & H & _).
  rewrite <- H. eexists. split; [vm_compute; reflexivity|]. split; reflexivity.
Defined.
