(* ===== verification/Tools.v ===== *)
(** The tool gateway (src/agentguard-testbed/src/aegisledger/tools.py): tool definitions and
    their hash, the in-process server, and the sandbox that pins definitions, checks the
    types of the arguments and refuses sensitive material before a tool runs.

    Text is ASCII.  The entropy of [_looks_like_high_entropy_secret] is compared exactly,
    where the source compares its floating-point approximation. *)
From Stdlib Require Import ZArith Lia Ascii String.
From stdpp Require Import base gmap list strings pretty.
From S2P Require Import Prelude Bytes Regex Canonical Contracts Policy.

Open Scope Z_scope.

(** * Definitions *)

Inductive Provenance := TRUSTED_LOCAL | VERIFIED_REMOTE | UNTRUSTED_REMOTE.

Definition provenance_value (p : Provenance) : string :=
  match p with
  | TRUSTED_LOCAL => "TRUSTED_LOCAL"
  | VERIFIED_REMOTE => "VERIFIED_REMOTE"
  | UNTRUSTED_REMOTE => "UNTRUSTED_REMOTE"
  end.

Abbreviation pydict := (list (pykey * pyval)).

Record McpToolDefinitionV1 := {
  tool_name : string;
  tool_version : string;
  description : string;
  input_schema : pydict;
  provenance : Provenance;
}.

(** What is given for [provenance]: a label, text or some other object. *)
Inductive raw_provenance := RLabel (p : Provenance) | RText (s : string) | RObject.

Definition parse_provenance (value : raw_provenance) : result Provenance :=
  match value with
  | RLabel p => Ok p
  | RText s =>
      or_raise (head (filter (λ p, provenance_value p = s) [TRUSTED_LOCAL; VERIFIED_REMOTE; UNTRUSTED_REMOTE]))
        (ValueError (s +:+ " is not a valid Provenance"))
  | RObject => Err (TypeError "provenance must be a named provenance label")
  end.

Definition lower_c : ascii → bool := code_between 97 122.
Definition digit_c : ascii → bool := code_between 48 57.

(** [^[a-z][a-z0-9_.-]{1,95}$] and [^[0-9]+\.[0-9]+\.[0-9]+$] *)
Definition tool_name_re : regex :=
  let tail := Char (λ c, lower_c c || digit_c c || bool_decide (c ∈ list_ascii_of_string "_.-")) in
  Cat (Char lower_c) (Cat tail (up_to 94 tail)).
Definition tool_version_re : regex :=
  let number := many (Char digit_c) in
  Cat number (Cat (chr ".") (Cat number (Cat (chr ".") number))).

Definition as_str (v : pyval) : option string := match v with PStr s => Some s | _ => None end.
Definition is_str (v : pyval) : bool := bool_decide (is_Some (as_str v)).
Definition has_key (k : string) (d : pydict) : bool := bool_decide (is_Some (dict_get k d)).

Definition require_closed_object_schema (schema : pydict) : result pydict :=
  raise_if (negb (match dict_get "type" schema with Some (PStr t) => bool_decide (t = "object") | _ => false end))
    (ValueError "tool input schema must describe an object");;
  raise_if (negb (match dict_get "additionalProperties" schema with Some (PBool false) => true | _ => false end))
    (ValueError "tool input schema must forbid additional properties");;
  properties ← match dict_get "properties" schema with
               | Some (PDict d) => Ok d
               | _ => Err (ValueError "tool input schema requires properties")
               end;
  required ← match default (PList []) (dict_get "required" schema) with
             | PList l => if forallb is_str l then Ok (omap as_str l)
                          else Err (ValueError "tool required fields must be a string array")
             | _ => Err (ValueError "tool required fields must be a string array")
             end;
  raise_if (negb (forallb (λ k, has_key k properties) required))
    (ValueError "required tool fields must be declared properties");;
  Ok schema.

(** Building a definition: the fields in order, every failure but a [TypeError] a
    [ValidationError]. *)
Definition McpToolDefinitionV1_validate (name version desc : string) (schema : pydict)
    (prov : raw_provenance) : result McpToolDefinitionV1 :=
  p ← try_except catches_ValueError (parse_provenance prov) (invalid "McpToolDefinitionV1");
  raise_if (negb (full_match tool_name_re name && full_match tool_version_re version
                  && length_between 1 4096 desc && forallb (λ e, is_str_key e.1) schema))
    (ValidationError "McpToolDefinitionV1");;
  schema ← try_except catches_ValueError (require_closed_object_schema schema) (invalid "McpToolDefinitionV1");
  Ok {| tool_name := name; tool_version := version; description := desc; input_schema := schema;
        provenance := p |}.

(** [model_dump(mode="json")] *)
Definition definition_dump (d : McpToolDefinitionV1) : pyval :=
  PDict [(KStr "schema_version", PStr "aegisledger.mcp_tool.v1");
    (KStr "name", PStr (tool_name d));
    (KStr "version", PStr (tool_version d));
    (KStr "description", PStr (description d));
    (KStr "input_schema", PDict (input_schema d));
    (KStr "provenance", PStr (provenance_value (provenance d)))].

Definition definition_hash `{Externals} (d : McpToolDefinitionV1) : result string :=
  (λ b, "0x" +:+ sha256_hex b) <$> canonical_json (definition_dump d).

Record McpToolResultV1 := {
  result_tool_name : string;
  result_definition_hash : string;
  result_provenance : Provenance;
  result_value : pyval;
}.

(** Keyword arguments, in order, with distinct names. *)
Abbreviation arguments := (list (string * pyval)).

(** * Servers *)

(** [McpServer]: an object with a state of its own. *)
Record McpServer (S : Type) := {
  list_tools : M S (list McpToolDefinitionV1);
  call_tool : string → arguments → M S pyval;
}.
Arguments list_tools {S}.
Arguments call_tool {S}.

(** [InProcessMcpServer]: a dict of definitions and handlers. *)
Definition InProcessMcpServer {S} (tools : list (string * (McpToolDefinitionV1 * (arguments → M S pyval))))
    : McpServer S :=
  {| list_tools := mret (map (λ e, e.2.1) tools);
     call_tool := λ name args,
       match snd <$> head (filter (λ e, e.1 = name) tools) with
       | None => raise (LookupError "unknown MCP tool")
       | Some (_, handler) => handler args
       end |}.

(** * The sandbox *)

(** [_SENSITIVE_KEY] and [_SENSITIVE_VALUE]. *)
Definition any_dot (a b : string) : regex := Cat (ilit a) (Cat (opt dot) (ilit b)).
Definition _SENSITIVE_KEY : regex :=
  alts [any_dot "api" "key"; ilit "credential"; ilit "password"; any_dot "private" "key";
        any_dot "rpc" "key"; ilit "secret"; ilit "session"; ilit "sidenote"; ilit "token"].

Definition assigned (r : regex) : regex := Cat r (Cat (Star space) (one_of "=:")).
Definition _SENSITIVE_VALUE : regex :=
  alts [ilit "WALLET_CONFIG";
        assigned (Cat (ilit "api") (Cat (opt (one_of "_-")) (ilit "key")));
        Cat (ilit "private") (Cat (opt (one_of "_ -")) (ilit "key"));
        assigned (Cat (ilit "rpc") (Cat (opt (one_of "_-")) (ilit "key")));
        assigned (ilit "session");
        Cat (ilit "sk-") (Cat (Alt (ilit "live") (ilit "test")) (ilit "-"));
        assigned (ilit "token")].

Record ToolSandbox := { _pins : gmap string string; _dlp_enabled : bool }.

(** [repr] of a list of strings, as the messages format it. *)
Definition squote : ascii := ascii_of_nat 39.
Definition repr_char (q c : ascii) : string :=
  let n := nat_of_ascii c in
  if bool_decide (c = q) || Nat.eqb n 92 then String "\" (String c "")
  else if Nat.eqb n 10 then "\n" else if Nat.eqb n 13 then "\r" else if Nat.eqb n 9 then "\t"
  else if Nat.ltb n 32 || Nat.eqb n 127 then "\x" +:+ hex_nibble (n / 16) +:+ hex_nibble (n mod 16)
  else String c "".
Definition repr_str (s : string) : string :=
  let l := list_ascii_of_string s in
  let q := if bool_decide (squote ∈ l) && negb (bool_decide (ascii_of_nat 34 ∈ l)) then ascii_of_nat 34
           else squote in
  String q (String.concat "" (map (repr_char q) l) +:+ String q "").
Definition repr_strings (l : list string) : string := "[" +:+ String.concat ", " (map repr_str l) +:+ "]".

(** [_require_json_type]: [isinstance] with a bool refused as a number. *)
Definition isinstance_json (expected : string) (value : pyval) : option bool :=
  if bool_decide (expected = "string") then Some (match value with PStr _ => true | _ => false end)
  else if bool_decide (expected = "integer") then
    Some (match value with PInt _ | PBool _ => true | _ => false end)
  else if bool_decide (expected = "number") then
    Some (match value with PInt _ | PBool _ | PFloat _ => true | _ => false end)
  else if bool_decide (expected = "boolean") then Some (match value with PBool _ => true | _ => false end)
  else if bool_decide (expected = "array") then Some (match value with PList _ => true | _ => false end)
  else if bool_decide (expected = "object") then Some (match value with PDict _ => true | _ => false end)
  else None.

Definition _require_json_type (key : string) (value : pyval) (expected : option pyval) : result unit :=
  let unsupported := ToolCallDenied ("unsupported schema type for argument " +:+ key) in
  let wrong := ToolCallDenied ("argument " +:+ key +:+ " has the wrong type") in
  expected ← or_raise (expected ≫= as_str) unsupported;
  instance ← or_raise (isinstance_json expected value) unsupported;
  raise_if (match value with PBool _ => is_in expected ["integer"; "number"] | _ => false end) wrong;;
  raise_if (negb instance) wrong.

(** [_looks_like_high_entropy_secret]: with [n] characters of which each distinct one occurs
    [c] times, the entropy [- sum (c/n) log2 (c/n)] is at least 4.5 exactly when
    [n^(2n) >= 2^(9n) * prod c^(2c)]. *)
Fixpoint compacted (s : string) : list ascii :=
  match s with
  | EmptyString => []
  | String c s => if re_space c then compacted s else c :: compacted s
  end.
Definition occurrences (c : ascii) (l : list ascii) : Z := Z.of_nat (length (filter (λ d, d = c) l)).
Definition _looks_like_high_entropy_secret (value : string) : bool :=
  let compact := compacted value in
  let n := Z.of_nat (length compact) in
  if (n <? 32) || String.prefix "0x" (string_of_list_ascii compact) then false
  else
    let counts := map (λ c, occurrences c compact) (remove_dups compact) in
    2 ^ (9 * n) * foldr (λ c acc, c ^ (2 * c) * acc) 1 counts <=? n ^ (2 * n).

Fixpoint _scan_sensitive (key : string) (value : pyval) : result unit :=
  raise_if (search _SENSITIVE_KEY key) (ToolCallDenied ("sensitive argument name rejected: " +:+ key));;
  match value with
  | PStr s =>
      raise_if (search _SENSITIVE_VALUE s || _looks_like_high_entropy_secret s)
        (ToolCallDenied ("sensitive material rejected in argument " +:+ key))
  | PDict entries =>
      (fix go (l : pydict) : result unit :=
         match l with
         | [] => Ok tt
         | (k, v) :: l => _scan_sensitive (match k with KStr s | KOther s => s end) v;; go l
         end) entries
  | PList items =>
      (fix go (l : list pyval) : result unit :=
         match l with
         | [] => Ok tt
         | v :: l => _scan_sensitive key v;; go l
         end) items
  | _ => Ok tt
  end.

(** [for key, value in arguments.items()] *)
Fixpoint check_arguments (sandbox : ToolSandbox) (properties : pydict) (args : arguments) : result unit :=
  match args with
  | [] => Ok tt
  | (key, value) :: args =>
      field_schema ← or_raise (dict_get key properties) (KeyError key);
      field ← match field_schema with
              | PDict f => Ok f
              | _ => Err (ToolCallDenied "invalid tool field schema")
              end;
      _require_json_type key value (dict_get "type" field);;
      (if _dlp_enabled sandbox then _scan_sensitive key value else Ok tt);;
      check_arguments sandbox properties args
  end.

Section sandbox.
Context `{!Externals} {S : Type}.

Definition _validate_arguments (sandbox : ToolSandbox) (d : McpToolDefinitionV1) (args : arguments)
    : result unit :=
  let schema := input_schema d in
  properties ← or_raise (dict_get "properties" schema) (KeyError "properties");
  properties ← match properties with PDict p => Ok p | _ => Err AssertionError end;
  required ← match default (PList []) (dict_get "required" schema) with
             | PList l => Ok (omap as_str l)
             | _ => Err AssertionError
             end;
  let supplied := args.*1 in
  let missing := filter (λ k, k ∉ supplied) required in
  raise_if (negb (bool_decide (missing = [])))
    (ToolCallDenied ("required tool arguments missing: " +:+ repr_strings (sorted_set String.leb missing)));;
  let undeclared := filter (λ k, has_key k properties = false) supplied in
  raise_if (negb (bool_decide (undeclared = [])))
    (ToolCallDenied ("undeclared tool arguments: " +:+ repr_strings (sorted_set String.leb undeclared)));;
  check_arguments sandbox properties args.

(** [{definition.name: definition for definition in ...}.get(name)]: the last one wins. *)
Definition declared (name : string) (definitions : list McpToolDefinitionV1) : option McpToolDefinitionV1 :=
  last (filter (λ d, tool_name d = name) definitions).

Definition invoke (sandbox : ToolSandbox) (server : McpServer S) (name : string) (args : arguments)
    : M S McpToolResultV1 :=
  definitions ← list_tools server;
  d ← lift (or_raise (declared name definitions) (ToolCallDenied "tool is not declared by the MCP server"));
  h ← lift (definition_hash d);
  lift (raise_if (match _pins sandbox !! name with Some e => negb (bool_decide (e = h)) | None => false end)
    (ToolCallDenied "tool definition changed after approval"));;
  lift (_validate_arguments sandbox d args);;
  value ← call_tool server name args;
  mret {| result_tool_name := name; result_definition_hash := h; result_provenance := provenance d;
          result_value := value |}.
End sandbox.
