(* ===== verification/ToolsFacts.v ===== *)
(** The sandbox mediates every tool call: what reaches a server is declared, pinned,
    well-typed and free of sensitive material, and nothing else reaches it. *)
From Stdlib Require Import ZArith Lia Ascii String.
From stdpp Require Import base gmap list strings pretty.
From S2P Require Import Prelude Bytes Regex Canonical CanonicalFacts Contracts Policy Tools.

Open Scope Z_scope.

(** * Sensitive material *)

Definition key_name (k : pykey) : string := match k with KStr s | KOther s => s end.

(** The values inside a value, each with the name it is found under. *)
Inductive part : string → pyval → string → pyval → Prop :=
  | part_self key v : part key v key v
  | part_entry key entries k w key' v' :
      (k, w) ∈ entries → part (key_name k) w key' v' → part key (PDict entries) key' v'
  | part_item key items w key' v' :
      w ∈ items → part key w key' v' → part key (PList items) key' v'.

(** Some part of the text matches. *)
Definition contains (r : regex) (s : string) : Prop := ∃ x y z, s = x +:+ y +:+ z ∧ matches r y.

Definition leaks (key : string) (v : pyval) : Prop :=
  contains _SENSITIVE_KEY key
  ∨ ∃ s, v = PStr s ∧ (contains _SENSITIVE_VALUE s ∨ _looks_like_high_entropy_secret s = true).

Definition clean (key : string) (v : pyval) : Prop := ∀ key' v', part key v key' v' → ~ leaks key' v'.

Lemma search_false r s : search r s = false ↔ ~ contains r s.
Proof. rewrite <- not_true_iff_false, search_spec. done. Qed.

(** A value with no other values in it. *)
Lemma clean_leaf key v :
  (∀ key' v', part key v key' v' → key' = key ∧ v' = v) → clean key v ↔ ~ leaks key v.
Proof.
  intros Hleaf. split; [intros Hc; by apply Hc; constructor|]. by intros Hn k w [-> ->]%Hleaf.
Qed.

Lemma clean_dict key entries :
  clean key (PDict entries) ↔ ~ contains _SENSITIVE_KEY key ∧ Forall (λ e, clean (key_name e.1) e.2) entries.
Proof.
  split.
  - intros Hc. split; [intros Hk; apply (Hc key (PDict entries)); [constructor|by left]|].
    apply Forall_forall. intros [k w] Hin key' v' Hp. eapply Hc. by econstructor.
  - intros [Hk Hall] key' v' Hp. inversion Hp as [|? ? k w ? ? Hin Hp'|]; subst.
    + intros [?|(s & ? & _)]; done.
    + rewrite Forall_forall in Hall. by apply (Hall _ Hin).
Qed.

Lemma clean_list key items :
  clean key (PList items) ↔ ~ contains _SENSITIVE_KEY key ∧ Forall (clean key) items.
Proof.
  split.
  - intros Hc. split; [intros Hk; apply (Hc key (PList items)); [constructor|by left]|].
    apply Forall_forall. intros w Hin key' v' Hp. eapply Hc. by econstructor.
  - intros [Hk Hall] key' v' Hp. inversion Hp as [| |? ? w ? ? Hin Hp']; subst.
    + intros [?|(s & ? & _)]; done.
    + rewrite Forall_forall in Hall. by apply (Hall _ Hin).
Qed.

Lemma seq_Ok (r : result unit) (k : unit → result unit) :
  r ≫= k = Ok tt ↔ r = Ok tt ∧ k tt = Ok tt.
Proof. rewrite bind_Ok. split; [intros ([] & ? & ?); done|intros []; eauto]. Qed.

Lemma raise_if_tt b e : raise_if b e = Ok tt ↔ b = false.
Proof. apply raise_if_Ok. Qed.

(** The scan accepts exactly the clean values. *)
Lemma scan_sensitive_spec key v : _scan_sensitive key v = Ok tt ↔ clean key v.
Proof.
  revert key. induction v as [| | |s| |l IH|l IH|] using pyval_ind'; intros key; cbn [_scan_sensitive];
    rewrite seq_Ok, raise_if_tt, search_false.
  4: { rewrite raise_if_tt, orb_false_iff, search_false, clean_leaf by (by inversion 1).
       unfold leaks. rewrite <- not_true_iff_false. naive_solver. }
  5: { rewrite clean_list. apply and_iff_compat_l. induction IH as [|w l Hw Hl IH']; [done|].
       by rewrite seq_Ok, Hw, IH', Forall_cons. }
  5: { rewrite clean_dict. apply and_iff_compat_l. induction IH as [|[k w] l Hw Hl IH']; [done|].
       cbn in Hw. by rewrite seq_Ok, Hw, IH', Forall_cons. }
  all: rewrite clean_leaf by (by inversion 1); unfold leaks; naive_solver.
Qed.

(** * Arguments *)

(** The JSON type a field schema names; a bool is not a number. *)
Inductive json_type : string → pyval → Prop :=
  | jt_string s : json_type "string" (PStr s)
  | jt_integer z : json_type "integer" (PInt z)
  | jt_number_int z : json_type "number" (PInt z)
  | jt_number_float x : json_type "number" (PFloat x)
  | jt_boolean b : json_type "boolean" (PBool b)
  | jt_array l : json_type "array" (PList l)
  | jt_object d : json_type "object" (PDict d).

Lemma require_json_type_spec key v expected :
  _require_json_type key v expected = Ok tt ↔ ∃ t, expected = Some (PStr t) ∧ json_type t v.
Proof.
  split.
  - unfold _require_json_type. destruct expected as [e|]; [|done]. destruct e as [| | |t| | | |]; try done.
    cbn [mbind option_bind as_str or_raise result_bind]. intros Hok. exists t. split; [done|].
    unfold isinstance_json in Hok. repeat case_bool_decide; subst; cbn in Hok; try done.
    all: destruct v; try done; constructor.
  - intros (t & -> & Ht). by destruct Ht.
Qed.

(** Only refusals. *)
Definition refuses (r : result unit) : Prop := r = Ok tt ∨ ∃ msg, r = Err (ToolCallDenied msg).

Lemma refuses_seq (r : result unit) (k : unit → result unit) :
  refuses r → refuses (k tt) → refuses (r ≫= k).
Proof. intros [->|[msg ->]] Hk; [done|]. right. by exists msg. Qed.

Lemma refuses_raise_if b msg : refuses (raise_if b (ToolCallDenied msg)).
Proof. destruct b; [right; by exists msg|by left]. Qed.

Create HintDb refusals discriminated.
#[local] Hint Resolve refuses_seq refuses_raise_if : refusals.

Lemma require_json_type_refuses key v expected : refuses (_require_json_type key v expected).
Proof.
  unfold _require_json_type. destruct (expected ≫= as_str); [|right; by eexists].
  cbn. destruct (isinstance_json _ _); [|right; by eexists]. cbn. auto with refusals.
Qed.

Lemma scan_sensitive_refuses key v : refuses (_scan_sensitive key v).
Proof.
  revert key. induction v as [| | |s| |l IH|l IH|] using pyval_ind'; intros key; cbn [_scan_sensitive];
    apply refuses_seq; auto with refusals; try by left.
  - induction IH as [|w l Hw Hl IH']; [by left|]. auto with refusals.
  - induction IH as [|[k w] l Hw Hl IH']; [by left|]. cbn in Hw. auto with refusals.
Qed.

(** The declared properties and required names of a definition. *)
Definition schema_properties (d : McpToolDefinitionV1) : list (pykey * pyval) :=
  match dict_get "properties" (input_schema d) with Some (PDict p) => p | _ => [] end.
Definition schema_required (d : McpToolDefinitionV1) : list string :=
  match dict_get "required" (input_schema d) with Some (PList l) => omap as_str l | _ => [] end.

Definition valid_definition (d : McpToolDefinitionV1) : Prop :=
  require_closed_object_schema (input_schema d) = Ok (input_schema d).

(** The arguments a definition admits. *)
Record well_formed (d : McpToolDefinitionV1) (args : list (string * pyval)) : Prop := {
  wf_required : ∀ k, k ∈ schema_required d → k ∈ args.*1;
  wf_typed : ∀ key v, (key, v) ∈ args →
    ∃ field t, dict_get key (schema_properties d) = Some (PDict field)
      ∧ dict_get "type" field = Some (PStr t) ∧ json_type t v;
}.

Definition screened (sandbox : ToolSandbox) (args : list (string * pyval)) : Prop :=
  _dlp_enabled sandbox = true → ∀ key v, (key, v) ∈ args → clean key v.

Lemma check_arguments_spec sandbox properties args :
  check_arguments sandbox properties args = Ok tt ↔
  Forall (λ e, (∃ field t, dict_get e.1 properties = Some (PDict field)
                  ∧ dict_get "type" field = Some (PStr t) ∧ json_type t e.2)
               ∧ (_dlp_enabled sandbox = true → clean e.1 e.2)) args.
Proof.
  induction args as [|[key v] args IH]; cbn [check_arguments]; [by rewrite Forall_nil|].
  rewrite Forall_cons. cbn [fst snd]. destruct (dict_get key properties) as [f|]; cbn; [|naive_solver].
  destruct f as [| | | | | |field|]; cbn; try naive_solver.
  rewrite seq_Ok, seq_Ok, require_json_type_spec, IH.
  assert ((if _dlp_enabled sandbox then _scan_sensitive key v else Ok tt) = Ok tt
    ↔ (_dlp_enabled sandbox = true → clean key v)) as ->.
  { destruct (_dlp_enabled sandbox); [|done]. rewrite scan_sensitive_spec. naive_solver. }
  naive_solver.
Qed.

Lemma check_arguments_refuses sandbox properties args :
  (∀ k, k ∈ args.*1 → is_Some (dict_get k properties)) →
  refuses (check_arguments sandbox properties args).
Proof.
  induction args as [|[key v] args IH]; cbn [check_arguments]; intros Hk; [by left|].
  destruct (Hk key) as [f Hf]; [by left|]. rewrite Hf. cbn [or_raise]. unfold mbind at 1, result_bind at 1.
  destruct f as [| | | | | |field|]; try (right; by eexists). unfold mbind at 1, result_bind at 1.
  apply refuses_seq; [apply require_json_type_refuses|]. apply refuses_seq.
  - case_match; [apply scan_sensitive_refuses|by left].
  - apply IH. intros k Hin. apply Hk. by right.
Qed.

Lemma valid_definition_shape d :
  valid_definition d →
  dict_get "properties" (input_schema d) = Some (PDict (schema_properties d))
  ∧ match default (PList []) (dict_get "required" (input_schema d)) with
    | PList l => omap as_str l = schema_required d
    | _ => False
    end.
Proof.
  unfold valid_definition, require_closed_object_schema, schema_properties, schema_required. intros Hok.
  apply bind_Ok in Hok as ([] & _ & Hok). apply bind_Ok in Hok as ([] & _ & Hok).
  apply bind_Ok in Hok as (ps & Hps & Hok). apply bind_Ok in Hok as (req & Hreq & _).
  destruct (dict_get "properties" (input_schema d)) as [[]|]; try done. split; [done|].
  destruct (dict_get "required" (input_schema d)) as [[]|]; done.
Qed.

Lemma filter_nil_forall {A} (P : A → Prop) `{∀ x, Decision (P x)} l :
  filter P l = [] ↔ ∀ x, x ∈ l → ~ P x.
Proof.
  split.
  - intros Hn x Hx Hp. assert (x ∈ filter P l) as Hin by (by apply list_elem_of_filter).
    rewrite Hn in Hin. by apply elem_of_nil in Hin.
  - intros Hall. destruct (filter P l) as [|x l'] eqn:Hf; [done|]. exfalso.
    assert (x ∈ filter P l) as [Hp Hx]%list_elem_of_filter by (rewrite Hf; left). by eapply Hall.
Qed.

Definition missing_arguments (d : McpToolDefinitionV1) (args : list (string * pyval)) : list string :=
  filter (λ k, k ∉ args.*1) (schema_required d).
Definition undeclared_arguments (d : McpToolDefinitionV1) (args : list (string * pyval)) : list string :=
  filter (λ k, has_key k (schema_properties d) = false) args.*1.

Lemma validate_arguments_eq sandbox d args :
  valid_definition d →
  _validate_arguments sandbox d args =
  (raise_if (negb (bool_decide (missing_arguments d args = [])))
     (ToolCallDenied ("required tool arguments missing: "
        +:+ repr_strings (sorted_set String.leb (missing_arguments d args))));;
   raise_if (negb (bool_decide (undeclared_arguments d args = [])))
     (ToolCallDenied ("undeclared tool arguments: "
        +:+ repr_strings (sorted_set String.leb (undeclared_arguments d args))));;
   check_arguments sandbox (schema_properties d) args).
Proof.
  intros Hd. destruct (valid_definition_shape d Hd) as [Hp Hr]. unfold _validate_arguments. cbv zeta.
  rewrite Hp. cbn [or_raise]. unfold mbind at 1 2, result_bind at 1 2. unfold mbind at 1, result_bind at 1.
  destruct (default _ _) as [| | | | |l| |]; try done. by rewrite Hr.
Qed.

(** The check of the arguments, exactly. *)
Lemma validate_arguments_spec sandbox d args :
  valid_definition d →
  refuses (_validate_arguments sandbox d args)
  ∧ (_validate_arguments sandbox d args = Ok tt ↔ well_formed d args ∧ screened sandbox args).
Proof.
  intros Hd. rewrite (validate_arguments_eq sandbox d args Hd). split.
  - apply refuses_seq; [apply refuses_raise_if|].
    destruct (bool_decide (undeclared_arguments d args = [])) eqn:Hu; [|right; by eexists].
    apply check_arguments_refuses. intros k Hk. apply bool_decide_eq_true in Hu.
    unfold undeclared_arguments in Hu. rewrite filter_nil_forall in Hu. specialize (Hu k Hk).
    unfold has_key in Hu. rewrite not_false_iff_true, bool_decide_eq_true in Hu. done.
  - rewrite !seq_Ok, !raise_if_tt, !negb_false_iff, !bool_decide_eq_true, check_arguments_spec.
    unfold missing_arguments, undeclared_arguments. rewrite !filter_nil_forall, Forall_forall. split.
    + intros (Hm & _ & Hall). split; [constructor|].
      * intros k Hk. specialize (Hm k Hk). by apply dec_stable.
      * intros key v Hin. apply (Hall (key, v) Hin).
      * intros Hdlp key v Hin. by apply (Hall (key, v) Hin).
    + intros [[Hreq Hty] Hscr]. split_and!.
      * intros k Hk Hn. by apply Hn, Hreq.
      * intros k Hk. apply list_elem_of_fmap in Hk as ([key v] & -> & Hin).
        destruct (Hty key v Hin) as (field & t & Hf & _). unfold has_key. cbn. rewrite Hf.
        by rewrite bool_decide_true by eauto.
      * intros [key v] Hin. split; [by apply Hty|]. intros Hdlp. by apply Hscr.
Qed.

(** * Mediation *)

Section mediation.
Context `{!Externals} {S : Type}.

(** The call the sandbox lets through. *)
Definition admitted (sandbox : ToolSandbox) (name : string) (args : list (string * pyval))
    (d : McpToolDefinitionV1) (h : string) : Prop :=
  definition_hash d = Ok h ∧ (∀ e, _pins sandbox !! name = Some e → e = h)
  ∧ well_formed d args ∧ screened sandbox args.

Definition unpinned (sandbox : ToolSandbox) (name h : string) : bool :=
  match _pins sandbox !! name with Some e => negb (bool_decide (e = h)) | None => false end.

Lemma unpinned_false sandbox name h :
  unpinned sandbox name h = false ↔ ∀ e, _pins sandbox !! name = Some e → e = h.
Proof.
  unfold unpinned. destruct (_pins sandbox !! name); [|naive_solver].
  rewrite negb_false_iff, bool_decide_eq_true. naive_solver.
Qed.

Lemma invoke_eq sandbox (server : McpServer S) name args s s1 defs d :
  list_tools server s = (s1, Ok defs) → declared name defs = Some d →
  invoke sandbox server name args s =
  match definition_hash d with
  | Err e => (s1, Err e)
  | Ok h =>
      if unpinned sandbox name h then (s1, Err (ToolCallDenied "tool definition changed after approval"))
      else match _validate_arguments sandbox d args with
      | Err e => (s1, Err e)
      | Ok _ =>
          let '(s2, r) := call_tool server name args s1 in
          (s2, (λ v, {| result_tool_name := name; result_definition_hash := h;
                        result_provenance := provenance d; result_value := v |}) <$> r)
      end
  end.
Proof.
  intros Hl Hd. unfold invoke, lift, mbind, M_bind. rewrite Hl, Hd. cbn [or_raise].
  destruct (definition_hash d) as [h|]; [|done]. fold (unpinned sandbox name h).
  destruct (unpinned sandbox name h); [done|]. cbn [raise_if].
  destruct (_validate_arguments sandbox d args); [|done].
  destruct (call_tool server name args s1) as [s2 [v|e]]; done.
Qed.

Lemma declared_spec name defs d : declared name defs = Some d → tool_name d = name ∧ d ∈ defs.
Proof. intros Hd. unfold declared in Hd. apply last_Some_elem_of in Hd. by apply list_elem_of_filter in Hd. Qed.

(** C19: the sandbox mediates every tool call.  Whatever the server (its definitions may
    change from call to call), [invoke] calls the tool exactly when the server declares it
    under that name, its definition hashes to the pinned hash where one is pinned, every
    required argument is given, every argument is declared with a JSON type it has, and,
    with data-loss prevention on, no name or text at any depth of the arguments matches the
    sensitive patterns or looks like a high-entropy secret; the tool then runs once, on those
    arguments, and its result carries the hash and provenance of that definition.  Otherwise
    the tool does not run and the caller gets [ToolCallDenied] (or the error of a definition
    that has no canonical form). *)
Theorem sandbox_mediates sandbox (server : McpServer S) name args s s1 defs :
  list_tools server s = (s1, Ok defs) → Forall valid_definition defs →
  match declared name defs with
  | None => ∃ msg, invoke sandbox server name args s = (s1, Err (ToolCallDenied msg))
  | Some d =>
      tool_name d = name ∧ d ∈ defs ∧
      ((∃ h, admitted sandbox name args d h
         ∧ invoke sandbox server name args s =
           (let '(s2, r) := call_tool server name args s1 in
            (s2, (λ v, {| result_tool_name := name; result_definition_hash := h;
                          result_provenance := provenance d; result_value := v |}) <$> r)))
       ∨ (~ (∃ h, admitted sandbox name args d h)
         ∧ ∃ e, invoke sandbox server name args s = (s1, Err e)
             ∧ (definition_hash d = Err e ∨ ∃ msg, e = ToolCallDenied msg)))
  end.
Proof.
  intros Hl Hvalid. destruct (declared name defs) as [d|] eqn:Hd; cycle 1.
  { eexists. unfold invoke, lift, mbind, M_bind. by rewrite Hl, Hd. }
  destruct (declared_spec _ _ _ Hd) as [Hname Hin]. split_and!; [done..|].
  destruct (validate_arguments_spec sandbox d args (proj1 (Forall_forall _ _) Hvalid d Hin)) as [Href Hspec].
  rewrite (invoke_eq _ _ _ _ _ _ _ _ Hl Hd). unfold admitted.
  destruct (definition_hash d) as [h|e] eqn:Hh; cycle 1.
  { right. split; [by intros (h & ? & _)|]. eexists. eauto. }
  destruct (unpinned sandbox name h) eqn:Hp.
  { right. split; [|by eauto]. intros (h' & [= <-] & Hpin & _). apply unpinned_false in Hpin. congruence. }
  rewrite unpinned_false in Hp. destruct Href as [Hok|[msg Herr]].
  - left. exists h. rewrite Hok. apply Hspec in Hok as [? ?]. done.
  - right. rewrite Herr. split; [|by eauto]. intros (h' & _ & _ & Hw & Hs).
    rewrite (proj2 Hspec (conj Hw Hs)) in Herr. done.
Qed.
End mediation.

(** * Witness *)

Definition quote_tool : McpToolDefinitionV1 :=
  {| tool_name := "market.quote"; tool_version := "1.0.0"; description := "quote a pair";
     input_schema := [(KStr "type", PStr "object"); (KStr "additionalProperties", PBool false);
       (KStr "properties", PDict [(KStr "pair", PDict [(KStr "type", PStr "string")]);
                                  (KStr "note", PDict [(KStr "type", PStr "object")])]);
       (KStr "required", PList [PStr "pair"])];
     provenance := UNTRUSTED_REMOTE |}.

(** A server that counts the calls of its tool. *)
Definition quote_server : McpServer Z :=
  InProcessMcpServer [("market.quote", (quote_tool, λ _, update (Z.add 1);; mret (PInt 42)))].

Definition strict_sandbox : ToolSandbox := {| _pins := ∅; _dlp_enabled := true |}.
Definition clean_call : list (string * pyval) := [("pair", PStr "ETH/USDC")].
Definition leaking_call : list (string * pyval) :=
  [("pair", PStr "ETH/USDC"); ("note", PDict [(KStr "memo", PList [PStr "my Private-KEY is here"])])].

Lemma quote_tool_valid :
  McpToolDefinitionV1_validate "market.quote" "1.0.0" "quote a pair" (input_schema quote_tool)
    (RText "UNTRUSTED_REMOTE") = Ok quote_tool.
Proof. vm_compute. reflexivity. Qed.

Lemma quote_defs_valid : Forall valid_definition [quote_tool].
Proof. constructor; [vm_compute; reflexivity|constructor]. Qed.

Lemma sandbox_mediates_witness :
  (@invoke sized_externals Z strict_sandbox quote_server "market.quote" clean_call 0).1 = 1
  ∧ (@invoke sized_externals Z strict_sandbox quote_server "market.quote" leaking_call 0).1 = 0
  ∧ ∃ e, (@invoke sized_externals Z strict_sandbox quote_server "market.quote" leaking_call 0).2 = Err e
      ∧ (@definition_hash sized_externals quote_tool = Err e ∨ ∃ msg, e = ToolCallDenied msg).
Proof.
  pose proof (@sandbox_mediates sized_externals Z strict_sandbox quote_server "market.quote" leaking_call
    0 0 [quote_tool] eq_refl quote_defs_valid)
    as (_ & _ & [(h & _ & Hrun)|(_ & e & Hrun & He)]).
  - exfalso. apply (f_equal fst) in Hrun. vm_compute in Hrun. discriminate Hrun.
  - split; [vm_compute; reflexivity|]. split; [exact (f_equal fst Hrun)|].
    exists e. split; [exact (f_equal snd Hrun)|exact He].
Defined.
