(* ===== verification/EntropyFacts.v ===== *)
(** The integer test of [_looks_like_high_entropy_secret] is the comparison the source
    computes: the Shannon entropy of the characters against 4.5 bits. *)
From Stdlib Require Import ZArith Lia Ascii String Reals Lra.
From stdpp Require Import base list strings.
From S2P Require Import Prelude Regex Tools.

Open Scope Z_scope.

(** * Occurrences *)

Lemma occurrences_cons c x l : occurrences c (x :: l) = (if decide (x = c) then 1 else 0) + occurrences c l.
Proof. unfold occurrences. rewrite filter_cons. case_decide; cbn [length]; lia. Qed.

Lemma occurrences_pos c l : c ∈ l → 0 < occurrences c l.
Proof.
  induction l as [|x l IH]; [by intros ?%elem_of_nil|]. rewrite occurrences_cons, elem_of_cons.
  assert (0 ≤ occurrences c l) by (unfold occurrences; lia). case_decide; [lia|]. intros [?|?%IH]; [done|lia].
Qed.

Definition zsum (l : list Z) : Z := foldr Z.add 0 l.

Lemma zsum_indicator (x : ascii) (u : list ascii) :
  NoDup u → zsum (map (λ c, if decide (x = c) then 1 else 0) u) = if decide (x ∈ u) then 1 else 0.
Proof.
  induction 1 as [|c u Hc Hu IH]; [done|]. cbn [map zsum foldr]. fold (zsum (map (λ c, if decide (x = c) then 1 else 0) u)).
  rewrite IH. destruct (decide (x = c)) as [->|Hne].
  - rewrite decide_False by done. by rewrite decide_True by left.
  - rewrite Z.add_0_l. apply decide_ext. rewrite elem_of_cons. naive_solver.
Qed.

Lemma zsum_occurrences (u l : list ascii) :
  NoDup u → (∀ c, c ∈ l → c ∈ u) → zsum (map (λ c, occurrences c l) u) = Z.of_nat (length l).
Proof.
  intros Hu. induction l as [|x l IH]; intros Hall.
  - cbn [length]. clear. induction u as [|c u IH]; [done|].
    cbn [map zsum foldr]. unfold zsum in IH. by rewrite IH.
  - assert (zsum (map (λ c, occurrences c (x :: l)) u)
      = zsum (map (λ c, if decide (x = c) then 1 else 0) u) + zsum (map (λ c, occurrences c l) u)) as ->.
    { clear. induction u as [|c u IH]; [done|]. cbn [map zsum foldr]. unfold zsum in IH. rewrite IH, occurrences_cons.
      lia. }
    rewrite zsum_indicator, decide_True by (done || apply Hall; left).
    rewrite IH by (intros c Hc; apply Hall; by right). cbn [length]. lia.
Qed.

(** * Entropy *)

Definition rsum (l : list R) : R := foldr Rplus 0%R l.

(** [-sum((count / n) * math.log2(count / n) for count in counts)] *)
Definition shannon (counts : list Z) (n : Z) : R :=
  (- rsum (map (λ c, (IZR c / IZR n) * (ln (IZR c / IZR n) / ln 2)) counts))%R.

Lemma ln_pow_Z c e : 0 < c → 0 ≤ e → ln (IZR (c ^ e)) = (IZR e * ln (IZR c))%R.
Proof.
  intros Hc He. rewrite <- (Z2Nat.id e) at 1 by done. rewrite <- pow_IZR, ln_pow by (by apply IZR_lt).
  by rewrite INR_IZR_INZ, Z2Nat.id.
Qed.

Lemma weight_pos counts : Forall (Z.lt 0) counts → 0 < foldr (λ c acc, c ^ (2 * c) * acc) 1 counts.
Proof. induction 1 as [|c l Hc Hl IH]; cbn; [lia|]. apply Z.mul_pos_pos; [|done]. apply Z.pow_pos_nonneg; lia. Qed.

Lemma ln_weight counts :
  Forall (Z.lt 0) counts →
  ln (IZR (foldr (λ c acc, c ^ (2 * c) * acc) 1 counts)) = (2 * rsum (map (λ c, IZR c * ln (IZR c)) counts))%R.
Proof.
  induction 1 as [|c l Hc Hl IH]; cbn [foldr map rsum]; [rewrite ln_1; cbn; lra|].
  pose proof (weight_pos l Hl) as Hw.
  rewrite mult_IZR, ln_mult, IH, ln_pow_Z, mult_IZR by
    first [lia | apply IZR_lt; first [done | apply Z.pow_pos_nonneg; lia]].
  unfold rsum. lra.
Qed.

Lemma shannon_sum counts n :
  0 < n → Forall (Z.lt 0) counts → zsum counts = n →
  (shannon counts n * (IZR n * ln 2) = IZR n * ln (IZR n) - rsum (map (λ c, IZR c * ln (IZR c)) counts))%R.
Proof.
  intros Hn Hpos Hsum. assert (0 < IZR n)%R as Hn' by (by apply IZR_lt).
  assert (0 < ln 2)%R as H2 by (rewrite <- ln_1; apply ln_increasing; lra).
  enough (∀ l, Forall (Z.lt 0) l →
    (rsum (map (λ c, (IZR c / IZR n) * (ln (IZR c / IZR n) / ln 2)) l) * (IZR n * ln 2)
     = rsum (map (λ c, IZR c * ln (IZR c)) l) - IZR (zsum l) * ln (IZR n)))%R as Hl.
  { unfold shannon. specialize (Hl counts Hpos). rewrite Hsum in Hl. lra. }
  induction 1 as [|c l Hc Hl IH]; cbn [map rsum zsum foldr]; [lra|].
  fold (zsum l). unfold rsum in IH. rewrite plus_IZR, !Rmult_plus_distr_r, IH.
  assert (0 < IZR c)%R as Hc' by (by apply IZR_lt).
  assert (ln (IZR c / IZR n) = ln (IZR c) - ln (IZR n))%R as ->.
  { unfold Rdiv. rewrite ln_mult, ln_Rinv by (done || by apply Rinv_0_lt_compat). lra. }
  unfold rsum. field_simplify; lra.
Qed.

(** The integer inequality is the entropy threshold. *)
Lemma entropy_threshold counts n :
  0 < n → Forall (Z.lt 0) counts → zsum counts = n →
  (2 ^ (9 * n) * foldr (λ c acc, c ^ (2 * c) * acc) 1 counts ≤ n ^ (2 * n))
  ↔ (9 / 2 <= shannon counts n)%R.
Proof.
  intros Hn Hpos Hsum. pose proof (weight_pos counts Hpos) as Hw. set (w := foldr _ 1 counts) in *.
  assert (0 < 2 ^ (9 * n)) as Ht by (apply Z.pow_pos_nonneg; lia).
  assert (0 < n ^ (2 * n)) as Hp by (apply Z.pow_pos_nonneg; lia).
  assert (2 ^ (9 * n) * w ≤ n ^ (2 * n) ↔ (ln (IZR (2 ^ (9 * n) * w)) <= ln (IZR (n ^ (2 * n))))%R) as ->.
  { split.
    - intros [Hlt| ->]%Z.le_lteq; [|lra]. left. apply ln_increasing; apply IZR_lt; lia.
    - intros Hle. apply Z.le_ngt. intros Hlt. apply IZR_lt in Hlt.
      apply ln_increasing in Hlt; [lra|]. apply IZR_lt. lia. }
  rewrite mult_IZR, ln_mult, !ln_pow_Z, !mult_IZR by first [lia | apply IZR_lt; lia].
  unfold w. rewrite ln_weight by done. pose proof (shannon_sum counts n Hn Hpos Hsum) as Hs.
  assert (0 < IZR n)%R as Hn' by (by apply IZR_lt).
  assert (0 < ln 2)%R as H2 by (rewrite <- ln_1; apply ln_increasing; lra).
  assert (0 < IZR n * ln 2)%R as Hnl by (by apply Rmult_lt_0_compat).
  set (S := shannon counts n) in *. set (x := rsum _) in *. split; intros Hle.
  - apply (Rmult_le_reg_r (IZR n * ln 2)); [done|]. rewrite Hs. lra.
  - apply (Rmult_le_compat_r (IZR n * ln 2)) in Hle; [|lra]. rewrite Hs in Hle. lra.
Qed.

Definition character_counts (l : list ascii) : list Z := map (λ c, occurrences c l) (remove_dups l).

Lemma high_entropy_spec value :
  let compact := compacted value in
  let n := Z.of_nat (length compact) in
  _looks_like_high_entropy_secret value = true ↔
  32 ≤ n ∧ String.prefix "0x" (string_of_list_ascii compact) = false
  ∧ (9 / 2 <= shannon (character_counts compact) n)%R.
Proof.
  intros compact n. unfold _looks_like_high_entropy_secret. fold compact n.
  destruct (Z.ltb_spec n 32); cbn [orb]; [split; [done|lia]|].
  destruct (String.prefix _ _); [naive_solver|].
  rewrite Z.leb_le. fold (character_counts compact). rewrite entropy_threshold; [naive_solver|lia|..].
  - apply Forall_forall. intros c Hc. apply list_elem_of_fmap in Hc as (x & -> & Hx).
    apply occurrences_pos. apply elem_of_remove_dups. exact Hx.
  - apply zsum_occurrences; [apply NoDup_remove_dups|]. intros c Hc. by apply elem_of_remove_dups.
Qed.
