(* ===== verification/Decisions.v ===== *)
(** Decision tokens (src/agentguard-testbed/src/aegisledger/decisions.py): issuance by the
    policy service's key and independent verification. *)
From Stdlib Require Import ZArith Lia Ascii String.
From Stdlib Require Strings.Byte.
From stdpp Require Import base gmap sets list strings pretty.
From S2P Require Import Prelude Bytes Canonical CanonicalFacts Contracts ContractsFacts Policy.
From S2P Require Import PolicyFacts State StateFacts.

Open Scope Z_scope.

Section decisions.
Context `{!Externals}.

(** [model_dump(mode="json", exclude={"signature"})] *)
Definition DecisionTokenV1_dump (t : DecisionTokenV1) : pyval :=
  PDict [(KStr "schema_version", PStr "aegisledger.decision.v1");
    (KStr "decision_id", PStr (uuid_str (decision_id t)));
    (KStr "proposal_hash", PStr (d_proposal_hash t));
    (KStr "policy_version_id", PStr (uuid_str (policy_version_id t)));
    (KStr "policy_hash", PStr (d_policy_hash t));
    (KStr "state_version", PInt (state_version t));
    (KStr "reservation_id", or_none (PStr ∘ uuid_str <$> d_reservation_id t));
    (KStr "verdict", PStr (verdict_value (verdict t)));
    (KStr "reason_codes", strings_dump (reason_codes t));
    (KStr "expires_at", PStr (iso (d_expires_at t)));
    (KStr "decision_nonce", PStr (uuid_str (decision_nonce t)));
    (KStr "policy_signer", PStr (policy_signer t))].

Definition decision_signature_payload (t : DecisionTokenV1) : result bytes :=
  canonical_json (DecisionTokenV1_dump t).

Definition with_signature (sig : string) (t : DecisionTokenV1) : DecisionTokenV1 :=
  {| decision_id := decision_id t; d_proposal_hash := d_proposal_hash t;
     policy_version_id := policy_version_id t; d_policy_hash := d_policy_hash t;
     state_version := state_version t; d_reservation_id := d_reservation_id t;
     verdict := verdict t; reason_codes := reason_codes t; d_expires_at := d_expires_at t;
     decision_nonce := decision_nonce t; policy_signer := policy_signer t; d_signature := sig |}.

Record DecisionIssuer := { issuer_keys : KeyPair; lifetime_seconds : Z }.

Definition DecisionIssuer_from_seed (seed : string) (lifetime : Z) : DecisionIssuer :=
  {| issuer_keys := KeyPair_from_seed ("policy-service::" +:+ seed);
     lifetime_seconds := lifetime |}.

Definition zeros128 : string := hex (replicate 64 Byte.x00).

(** [issue], with the clock reading and the two identifiers it draws. *)
Definition issue (self : DecisionIssuer) (now new_decision new_nonce : Z) (record : ProposalRecord)
    (version : PolicyVersion) : result DecisionTokenV1 :=
  raise_if (negb (is_in (rec_state record) [RESERVED; DENIED]))
    (ValueError ("cannot issue a decision for lifecycle state " +:+ state_value (rec_state record)));;
  let v := if bool_decide (rec_state record = RESERVED) then ALLOW else DENY in
  let expires := Z.min (deadline (rec_proposal record)) (now + seconds (lifetime_seconds self)) in
  h ← proposal_hash (rec_proposal record);
  placeholder ← DecisionTokenV1_validate
    {| decision_id := new_decision; d_proposal_hash := h;
       policy_version_id := version_id version; d_policy_hash := v_policy_hash version;
       state_version := rec_state_version record; d_reservation_id := rec_reservation_id record;
       verdict := v; reason_codes := rec_reason_codes record; d_expires_at := expires;
       decision_nonce := new_nonce; policy_signer := kp_address (issuer_keys self);
       d_signature := zeros128 |};
  payload ← decision_signature_payload placeholder;
  let signature := hex (KeyPair_sign (issuer_keys self) payload) in
  DecisionTokenV1_validate (with_signature signature placeholder).

Definition verify_decision_token (t : DecisionTokenV1) (public_key : bytes) (now : Z)
    : result bool :=
  if d_expires_at t <=? now then Ok false
  else
    match fromhex (d_signature t) with
    | None => Ok false
    | Some signature =>
        payload ← decision_signature_payload t;
        Ok (verify public_key payload signature)
    end.
End decisions.

(** * Facts *)

(** Ed25519: what a key signs verifies under its public key. *)
Class Ed25519Law `{Externals} : Prop :=
  ed_verify_sign : ∀ k m, ed_verify (ed_public k) m (ed_sign k m) = true.

Lemma plain_ed25519 : @Ed25519Law plain_externals.
Proof. intros k m. cbn. by rewrite bool_decide_true. Qed.

Lemma sized_ed25519 : @Ed25519Law sized_externals.
Proof. intros k m. cbn [ed_verify sized_externals]. by rewrite bool_decide_true. Qed.

Definition decision_ids (t : DecisionTokenV1) : Prop :=
  uuid_range (decision_id t) ∧ uuid_range (policy_version_id t) ∧ uuid_range (decision_nonce t)
  ∧ from_option uuid_range True (d_reservation_id t).

Lemma DecisionTokenV1_validate_Ok t t' :
  DecisionTokenV1_validate t = Ok t' → t' = t ∧ reservation_matches_verdict t = Ok tt.
Proof.
  unfold DecisionTokenV1_validate. intros Hv. ok_inv Hv. injection Hv as <-.
  match goal with H : try_except _ _ _ = Ok ?u |- _ => destruct u; apply try_except_Ok in H; done end.
Qed.

Section decision_facts.
Context `{!Externals} `{!Rfc8785Law} `{!IsoLaw}.

Lemma strings_dump_inj l k : sort_keys (strings_dump l) = sort_keys (strings_dump k) → l = k.
Proof.
  unfold strings_dump. cbn [sort_keys]. intros Heq. injection Heq as Heq. revert k Heq.
  induction l as [|x l IH]; intros [|y k] Heq; try done. injection Heq as -> Heq.
  by rewrite (IH k Heq).
Qed.

Lemma DecisionTokenV1_dump_inj t u :
  decision_ids t → decision_ids u →
  sort_keys (DecisionTokenV1_dump t) = sort_keys (DecisionTokenV1_dump u) →
  u = with_signature (d_signature u) t.
Proof.
  destruct t as [t1 t2 t3 t4 t5 t6 t7 t8 t9 t10 t11 t12],
    u as [u1 u2 u3 u4 u5 u6 u7 u8 u9 u10 u11 u12].
  intros (Ht1 & Ht2 & Ht3 & Ht4) (Hu1 & Hu2 & Hu3 & Hu4) Heq. cbn in Ht1, Ht2, Ht3, Ht4, Hu1, Hu2, Hu3, Hu4.
  unfold DecisionTokenV1_dump, with_signature in *.
  same_entry Heq "decision_id". apply uuid_str_inj in Hk; [|done..].
  same_entry Heq "proposal_hash".
  same_entry Heq "policy_version_id". apply uuid_str_inj in Hk1; [|done..].
  same_entry Heq "policy_hash". same_entry Heq "state_version".
  assert (t6 = u6) as ->.
  { pose proof (sort_keys_entry "reservation_id" _ _ Heq) as Hm.
    destruct t6, u6; cbn -[uuid_str] in Hm; try done; apply some_str in Hm;
      apply uuid_str_inj in Hm; by subst. }
  assert (t7 = u7) as -> by (same_entry Heq "verdict"; by destruct t7, u7).
  assert (t8 = u8) as ->.
  { apply strings_dump_inj. pose proof (sort_keys_entry "reason_codes" _ _ Heq) as Hm.
    change (Some (sort_keys (strings_dump t8)) = Some (sort_keys (strings_dump u8))) in Hm.
    congruence. }
  assert (t9 = u9) as -> by (same_entry Heq "expires_at"; by apply iso_inj).
  assert (t10 = u10) as -> by (same_entry Heq "decision_nonce"; by apply uuid_str_inj).
  same_entry Heq "policy_signer". by subst.
Qed.

(** A decision signature covers the whole decision.  Two tokens
    with the same signed payload agree in every field but the signature itself:
    nobody can keep a policy signature and change the verdict, the reservation,
    the proposal or policy hash, the reasons or the expiry. *)
Theorem decision_signature_covers t u b :
  decision_ids t → decision_ids u →
  decision_signature_payload t = Ok b → decision_signature_payload u = Ok b →
  u = with_signature (d_signature u) t.
Proof.
  intros Ht Hu Hb1 Hb2. apply DecisionTokenV1_dump_inj; [done..|].
  by eapply canonical_json_inj.
Qed.
End decision_facts.

Section issue_facts.
Context `{!Externals} `{!Ed25519Law}.

Lemma signature_not_signed s t :
  decision_signature_payload (with_signature s t) = decision_signature_payload t.
Proof. reflexivity. Qed.

(** What [issue] returns. *)
Lemma issue_verifies seed lifetime now did nonce record version t now' :
  let self := DecisionIssuer_from_seed seed lifetime in
  issue self now did nonce record version = Ok t →
  (now' < d_expires_at t → verify_decision_token t (kp_pub (issuer_keys self)) now' = Ok true)
  ∧ (d_expires_at t ≤ now' → verify_decision_token t (kp_pub (issuer_keys self)) now' = Ok false)
  ∧ (verdict t = ALLOW ↔ rec_state record = RESERVED)
  ∧ (verdict t = DENY ↔ rec_state record = DENIED)
  ∧ (d_reservation_id t ≠ None ↔ rec_state record = RESERVED)
  ∧ d_reservation_id t = rec_reservation_id record
  ∧ proposal_hash (rec_proposal record) = Ok (d_proposal_hash t)
  ∧ d_policy_hash t = v_policy_hash version ∧ policy_signer t = kp_address (issuer_keys self)
  ∧ d_expires_at t ≤ deadline (rec_proposal record) ∧ d_expires_at t ≤ now + seconds lifetime.
Proof.
  intros self Hi. unfold issue in Hi.
  apply bind_Ok in Hi as ([] & Hst & Hi). apply raise_if_Ok in Hst. prop_of_bool.
  apply bind_Ok in Hi as (h & Hh & Hi). apply bind_Ok in Hi as (ph & Hph & Hi).
  apply DecisionTokenV1_validate_Ok in Hph as [-> Hm].
  apply bind_Ok in Hi as (payload & Hp & Hi).
  apply DecisionTokenV1_validate_Ok in Hi as [-> _].
  unfold reservation_matches_verdict in Hm. apply bind_Ok in Hm as ([] & Hm1 & Hm2).
  apply raise_if_Ok in Hm1, Hm2.
  cbn [verdict d_reservation_id with_signature d_expires_at d_proposal_hash d_policy_hash
       policy_signer lifetime_seconds self DecisionIssuer_from_seed] in *. prop_of_bool.
  assert (rec_state record = RESERVED ∨ rec_state record = DENIED) as Hs.
  { apply is_in_true in Hst. set_solver. }
  split_and!; try done; try lia.
  - intros Hlt. unfold verify_decision_token. rewrite signature_not_signed, Hp.
    cbn [d_expires_at with_signature d_signature]. rewrite (proj2 (Z.leb_gt _ _)) by done.
    rewrite fromhex_hex. cbn [mbind result_bind].
    f_equal. apply ed_verify_sign.
  - intros Hle. unfold verify_decision_token. cbn [d_expires_at with_signature].
    by rewrite (proj2 (Z.leb_le _ _)).
  - case_bool_decide; split; congruence.
  - case_bool_decide; split; try congruence. intros _. by destruct Hs.
  - case_bool_decide; split; try congruence; naive_solver.
Qed.

(** An issued decision verifies and says what was decided.  A
    token [issue] returns for a key pair derived from a seed is accepted by
    [verify_decision_token] under the issuer's public key at every instant before it
    expires and at none after; it allows exactly the RESERVED records and denies
    the DENIED ones, names the record's reservation, its proposal's hash and the
    policy version, and expires no later than the proposal's deadline and the
    issuer's lifetime. *)
Theorem issued_decision_verifies seed lifetime now did nonce record version t now' :
  let self := DecisionIssuer_from_seed seed lifetime in
  issue self now did nonce record version = Ok t →
  (now' < d_expires_at t → verify_decision_token t (kp_pub (issuer_keys self)) now' = Ok true)
  ∧ (d_expires_at t ≤ now' → verify_decision_token t (kp_pub (issuer_keys self)) now' = Ok false)
  ∧ (verdict t = ALLOW ↔ rec_state record = RESERVED)
  ∧ (verdict t = DENY ↔ rec_state record = DENIED)
  ∧ (d_reservation_id t ≠ None ↔ rec_state record = RESERVED)
  ∧ d_reservation_id t = rec_reservation_id record
  ∧ proposal_hash (rec_proposal record) = Ok (d_proposal_hash t)
  ∧ d_policy_hash t = v_policy_hash version ∧ policy_signer t = kp_address (issuer_keys self)
  ∧ d_expires_at t ≤ deadline (rec_proposal record) ∧ d_expires_at t ≤ now + seconds lifetime.
Proof. apply issue_verifies. Qed.
End issue_facts.

(** * Witnesses *)

Definition sample_record : ProposalRecord :=
  Eval vm_compute in default
    {| rec_proposal := sample_proposal; rec_state := PROPOSED; rec_state_version := 0;
       rec_reason_codes := []; rec_reservation_id := None; rec_created_at := 0;
       rec_updated_at := 0 |} (_records sample_store !! proposal_id sample_proposal).

Definition sample_version : PolicyVersion :=
  {| version_id := 1; v_policy := sample_policy;
     v_policy_hash := "0x" +:+ hex (replicate 32 Byte.xab); v_status := ACTIVE;
     created_by := "alice"; v_created_at := 0; approvals := {["alice"; "bob"]};
     activated_at := Some 5; activated_by := Some "root" |}.

(** The decision on the sample reservation. *)
Definition sample_issue : result DecisionTokenV1 :=
  @issue sized_externals (@DecisionIssuer_from_seed sized_externals "s" 30) (seconds 1001) 21 22
    sample_record sample_version.

Definition sample_token : DecisionTokenV1 :=
  Eval vm_compute in match sample_issue with
  | Ok t => t
  | Err _ => {| decision_id := 0; d_proposal_hash := ""; policy_version_id := 0;
      d_policy_hash := ""; state_version := 0; d_reservation_id := None; verdict := DENY;
      reason_codes := []; d_expires_at := 0; decision_nonce := 0; policy_signer := "";
      d_signature := "" |}
  end.

Lemma sample_token_issued : sample_issue = Ok sample_token.
Proof. vm_compute. reflexivity. Qed.

Lemma issued_decision_verifies_witness :
  @verify_decision_token sized_externals sample_token
    (kp_pub (issuer_keys (@DecisionIssuer_from_seed sized_externals "s" 30))) (seconds 1010)
  = Ok true.
Proof.
  refine (proj1 (@issued_decision_verifies sized_externals sized_ed25519 "s" 30 (seconds 1001) 21 22
    sample_record sample_version sample_token (seconds 1010) _) _).
  - exact sample_token_issued.
  - vm_compute. reflexivity.
Defined.

Lemma decision_signature_covers_witness :
  let u := with_signature "00" sample_token in u = with_signature (d_signature u) sample_token.
Proof.
  refine (@decision_signature_covers sized_externals sized_rfc8785 sized_iso sample_token
    (with_signature "00" sample_token) _ _ _ _ _).
  - split_and!; split; vm_compute; congruence.
  - split_and!; split; vm_compute; congruence.
  - vm_compute. reflexivity.
  - vm_compute. reflexivity.
Defined.
