(* ===== verification/Mandates.v ===== *)
(** Mandates (src/agentguard-testbed/src/aegisledger/mandates.py): signed, attenuating
    spending mandates and the ledger that registers, revokes and consumes them.

    A call holds the ledger's lock; [clock] gives its successive clock
    readings.  The parent chain is walked by recursion, bounded as in Python by
    the interpreter's recursion limit. *)
From Stdlib Require Import ZArith Lia Ascii String.
From Stdlib Require Strings.Byte.
From stdpp Require Import base gmap sets list strings pretty.
From S2P Require Import Prelude Bytes Canonical Contracts Policy.

Open Scope Z_scope.

(** * Data *)

Record IntentMandateV1 := {
  im_mandate_id : option Z;
  im_issuer : string;
  im_delegate : string;
  im_audience : string;
  im_chain_ids : list Z;
  im_assets : list string;
  im_recipients : list string;
  im_maximum_amount : Z;
  im_expires_at : Z;
  im_nonce : string;
  im_parent_mandate_id : option Z;
  im_signature : string;
}.

Record CartMandateV1 := {
  cm_cart_id : option Z;
  cm_merchant : string;
  cm_mandate_id : Z;
  cm_intent_hash : string;
  cm_proposal_hash : string;
  cm_chain_id : Z;
  cm_asset : string;
  cm_amount : Z;
  cm_expires_at : Z;
  cm_nonce : string;
  cm_signature : string;
}.

Definition SignatureHex (s : string) : bool :=
  bool_decide (s = ""%string)
  || (Nat.eqb (String.length s) 128 && str_forallb hex_lower_char s).

Definition IntentMandateV1_validate (m : IntentMandateV1) (expires : datetime)
    : result IntentMandateV1 :=
  raise_if (negb (Address (im_issuer m) && length_between 1 256 (im_delegate m)
                  && length_between 1 256 (im_audience m) && forallb (Z.ltb 0) (im_chain_ids m)
                  && forallb AssetId (im_assets m) && forallb Address (im_recipients m)
                  && (0 <? im_maximum_amount m) && length_between 6 128 (im_nonce m)
                  && SignatureHex (im_signature m)))
    (ValidationError "IntentMandateV1");;
  utc ← try_except catches_ValueError (require_utc "expires_at" expires) (invalid "IntentMandateV1");
  Ok {| im_mandate_id := im_mandate_id m; im_issuer := str_lower (im_issuer m);
        im_delegate := im_delegate m; im_audience := im_audience m;
        im_chain_ids := sorted_set Z.leb (im_chain_ids m);
        im_assets := sorted_set String.leb (im_assets m);
        im_recipients := normalize_addresses (im_recipients m);
        im_maximum_amount := im_maximum_amount m; im_expires_at := utc; im_nonce := im_nonce m;
        im_parent_mandate_id := im_parent_mandate_id m; im_signature := im_signature m |}.

Definition CartMandateV1_validate (c : CartMandateV1) (expires : datetime) : result CartMandateV1 :=
  raise_if (negb (Address (cm_merchant c) && Hex32 (cm_intent_hash c)
                  && Hex32 (cm_proposal_hash c) && (0 <? cm_chain_id c) && AssetId (cm_asset c)
                  && (0 <? cm_amount c) && length_between 6 128 (cm_nonce c)
                  && SignatureHex (cm_signature c)))
    (ValidationError "CartMandateV1");;
  utc ← try_except catches_ValueError (require_utc "expires_at" expires) (invalid "CartMandateV1");
  Ok {| cm_cart_id := cm_cart_id c; cm_merchant := str_lower (cm_merchant c);
        cm_mandate_id := cm_mandate_id c; cm_intent_hash := cm_intent_hash c;
        cm_proposal_hash := cm_proposal_hash c; cm_chain_id := cm_chain_id c;
        cm_asset := cm_asset c; cm_amount := cm_amount c; cm_expires_at := utc;
        cm_nonce := cm_nonce c; cm_signature := cm_signature c |}.

Definition aware (t : Z) : datetime := {| dt_wall := t; dt_offset := Some 0 |}.

Section mandates.
Context `{!Externals}.

Definition IntentMandateV1_dump (m : IntentMandateV1) : pyval :=
  PDict [(KStr "schema_version", PStr "aegisledger.intent_mandate.v1");
    (KStr "mandate_id", or_none (PStr ∘ uuid_str <$> im_mandate_id m));
    (KStr "issuer", PStr (im_issuer m));
    (KStr "delegate", PStr (im_delegate m));
    (KStr "audience", PStr (im_audience m));
    (KStr "chain_ids", PList (map PInt (im_chain_ids m)));
    (KStr "assets", strings_dump (im_assets m));
    (KStr "recipients", strings_dump (im_recipients m));
    (KStr "maximum_amount", PInt (im_maximum_amount m));
    (KStr "expires_at", PStr (iso (im_expires_at m)));
    (KStr "nonce", PStr (im_nonce m));
    (KStr "parent_mandate_id", or_none (PStr ∘ uuid_str <$> im_parent_mandate_id m))].

Definition intent_signing_payload (m : IntentMandateV1) : result bytes :=
  canonical_json (IntentMandateV1_dump m).
Definition intent_hash (m : IntentMandateV1) : result string :=
  (λ b, "0x" +:+ sha256_hex b) <$> intent_signing_payload m.

Definition CartMandateV1_dump (c : CartMandateV1) : pyval :=
  PDict [(KStr "schema_version", PStr "aegisledger.cart_mandate.v1");
    (KStr "cart_id", or_none (PStr ∘ uuid_str <$> cm_cart_id c));
    (KStr "merchant", PStr (cm_merchant c));
    (KStr "mandate_id", PStr (uuid_str (cm_mandate_id c)));
    (KStr "intent_hash", PStr (cm_intent_hash c));
    (KStr "proposal_hash", PStr (cm_proposal_hash c));
    (KStr "chain_id", PInt (cm_chain_id c));
    (KStr "asset", PStr (cm_asset c));
    (KStr "amount", PInt (cm_amount c));
    (KStr "expires_at", PStr (iso (cm_expires_at c)));
    (KStr "nonce", PStr (cm_nonce c))].

Definition cart_signing_payload (c : CartMandateV1) : result bytes :=
  canonical_json (CartMandateV1_dump c).
Definition cart_hash (c : CartMandateV1) : result string :=
  (λ b, "0x" +:+ sha256_hex b) <$> cart_signing_payload c.

(** * [MandateSigner] *)

Definition with_intent (id : option Z) (sig : string) (m : IntentMandateV1) : IntentMandateV1 :=
  {| im_mandate_id := id; im_issuer := im_issuer m; im_delegate := im_delegate m;
     im_audience := im_audience m; im_chain_ids := im_chain_ids m; im_assets := im_assets m;
     im_recipients := im_recipients m; im_maximum_amount := im_maximum_amount m;
     im_expires_at := im_expires_at m; im_nonce := im_nonce m;
     im_parent_mandate_id := im_parent_mandate_id m; im_signature := sig |}.

Definition with_cart (id : option Z) (sig : string) (c : CartMandateV1) : CartMandateV1 :=
  {| cm_cart_id := id; cm_merchant := cm_merchant c; cm_mandate_id := cm_mandate_id c;
     cm_intent_hash := cm_intent_hash c; cm_proposal_hash := cm_proposal_hash c;
     cm_chain_id := cm_chain_id c; cm_asset := cm_asset c; cm_amount := cm_amount c;
     cm_expires_at := cm_expires_at c; cm_nonce := cm_nonce c; cm_signature := sig |}.

(** [new_id] is the identifier drawn when the mandate has none. *)
Definition sign_intent (keys : KeyPair) (new_id : Z) (m : IntentMandateV1)
    : result IntentMandateV1 :=
  raise_if (negb (bool_decide (im_issuer m = str_lower (kp_address keys))))
    (ValueError "intent issuer does not match signing key");;
  let id := Some (default new_id (im_mandate_id m)) in
  unsigned ← IntentMandateV1_validate (with_intent id "" m) (aware (im_expires_at m));
  payload ← intent_signing_payload unsigned;
  IntentMandateV1_validate (with_intent id (hex (KeyPair_sign keys payload)) m)
    (aware (im_expires_at m)).

Definition sign_cart (keys : KeyPair) (new_id : Z) (c : CartMandateV1) : result CartMandateV1 :=
  raise_if (negb (bool_decide (cm_merchant c = str_lower (kp_address keys))))
    (ValueError "cart merchant does not match signing key");;
  let id := Some (default new_id (cm_cart_id c)) in
  unsigned ← CartMandateV1_validate (with_cart id "" c) (aware (cm_expires_at c));
  payload ← cart_signing_payload unsigned;
  CartMandateV1_validate (with_cart id (hex (KeyPair_sign keys payload)) c)
    (aware (cm_expires_at c)).

(** * [MandateLedger] *)

Record MandateLedger := {
  _mandates : gmap Z IntentMandateV1;
  _spent : gmap Z Z;
  _revoked : gset Z;
  _intent_nonces : gset (string * string);
  _used_cart_hashes : gset string;
  _used_cart_nonces : gset (string * string);
}.

Definition ledger_init : MandateLedger :=
  {| _mandates := ∅; _spent := ∅; _revoked := ∅; _intent_nonces := ∅;
     _used_cart_hashes := ∅; _used_cart_nonces := ∅ |}.

Definition _verify_signature (public_key payload : bytes) (signature : string) : bool :=
  match fromhex signature with
  | Some sig => verify public_key payload sig
  | None => false
  end.

(** The interpreter's default recursion limit. *)
Definition recursion_limit : nat := 1000.

(** [_active]; the [i]-th level of the recursion takes the [i]-th clock reading. *)
Fixpoint _active_rec (fuel : nat) (l : MandateLedger) (clock : nat → Z) (i : nat) (id : Z)
    : result IntentMandateV1 :=
  match fuel with
  | O => Err RecursionError
  | S fuel =>
      mandate ← or_raise (_mandates l !! id) (MandateError "unknown mandate");
      raise_if (bool_decide (id ∈ _revoked l)) (MandateError "mandate revoked");;
      raise_if (im_expires_at mandate <=? clock i) (MandateError "mandate expired");;
      match im_parent_mandate_id mandate with
      | Some parent => _active_rec fuel l clock (S i) parent;; Ok mandate
      | None => Ok mandate
      end
  end.

Definition _active (l : MandateLedger) (clock : nat → Z) (id : Z) : result IntentMandateV1 :=
  _active_rec recursion_limit l clock 0 id.

(** [set(xs).issubset(ys)] *)
Definition is_subset {A} `{EqDecision A} (xs ys : list A) : bool := forallb (λ x, is_in x ys) xs.

Definition _require_attenuation (l : MandateLedger) (parent child : IntentMandateV1) : result unit :=
  parent_id ← or_raise (im_mandate_id parent) AssertionError;
  spent ← or_raise (_spent l !! parent_id) (KeyError (uuid_str parent_id));
  let remaining := im_maximum_amount parent - spent in
  raise_if (negb (bool_decide (im_issuer child = str_lower (im_delegate parent))
                  && bool_decide (im_audience child = im_audience parent)
                  && is_subset (im_chain_ids child) (im_chain_ids parent)
                  && is_subset (im_assets child) (im_assets parent)
                  && is_subset (im_recipients child) (im_recipients parent)
                  && (im_maximum_amount child <=? remaining)
                  && (im_expires_at child <=? im_expires_at parent)))
    (MandateError "delegation must attenuate every parent permission").

(** [register]: clock reading 0, then those of [_active]. *)
Definition register (clock : nat → Z) (m : IntentMandateV1) (public_key : bytes)
    : M MandateLedger unit :=
  id ← lift (or_raise (im_mandate_id m) (MandateError "mandate ID is required"));
  lift (raise_if (negb (bool_decide (str_lower (address_of public_key) = im_issuer m)))
    (MandateError "intent signer does not match issuer"));;
  payload ← lift (intent_signing_payload m);
  lift (raise_if (negb (_verify_signature public_key payload (im_signature m)))
    (MandateError "invalid intent signature"));;
  lift (raise_if (im_expires_at m <=? clock 0%nat) (MandateError "mandate expired"));;
  let nonce_key := (im_issuer m, im_nonce m) in
  l ← self;
  lift (raise_if (bool_decide (nonce_key ∈ _intent_nonces l)) (MandateError "intent nonce replay"));;
  lift (match im_parent_mandate_id m with
        | Some parent_id =>
            parent ← _active l (λ i, clock (S i)) parent_id;
            _require_attenuation l parent m
        | None => Ok tt
        end);;
  update (λ l,
    {| _mandates := <[id := m]> (_mandates l); _spent := <[id := 0]> (_spent l);
       _revoked := _revoked l; _intent_nonces := _intent_nonces l ∪ {[nonce_key]};
       _used_cart_hashes := _used_cart_hashes l; _used_cart_nonces := _used_cart_nonces l |}).

Definition revoke (id : Z) (actor : string) : M MandateLedger unit :=
  mandates ← read _mandates;
  mandate ← lift (or_raise (mandates !! id) (MandateError "unknown mandate"));
  lift (raise_if (negb (bool_decide (str_lower actor = im_issuer mandate)))
    (MandateError "only the mandate issuer can revoke"));;
  update (λ l,
    {| _mandates := _mandates l; _spent := _spent l; _revoked := _revoked l ∪ {[id]};
       _intent_nonces := _intent_nonces l; _used_cart_hashes := _used_cart_hashes l;
       _used_cart_nonces := _used_cart_nonces l |}).

Definition consumed (id : Z) : M MandateLedger Z := read (λ l, default 0 (_spent l !! id)).

(** The checks of [consume], in order; the amount already spent is returned.
    [now] is the reading after those of [_active]. *)
Definition check_cart (clock : nat → Z) (now : Z) (l : MandateLedger) (p : ProposalV1)
    (c : CartMandateV1) (merchant_public_key : bytes) (audience : string)
    : result (Z * Z * string) :=
  mandate ← _active l clock (cm_mandate_id c);
  raise_if (cm_expires_at c <=? now) (MandateError "cart expired");;
  raise_if (negb (bool_decide (str_lower (address_of merchant_public_key) = cm_merchant c)))
    (MandateError "cart signer does not match merchant");;
  payload ← cart_signing_payload c;
  raise_if (negb (_verify_signature merchant_public_key payload (cm_signature c)))
    (MandateError "invalid cart signature");;
  h ← cart_hash c;
  raise_if (bool_decide (h ∈ _used_cart_hashes l)
            || bool_decide ((cm_merchant c, cm_nonce c) ∈ _used_cart_nonces l))
    (MandateError "cart replay detected");;
  ih ← intent_hash mandate;
  raise_if (negb (bool_decide (cm_intent_hash c = ih)))
    (MandateError "cart is bound to a different intent");;
  ph ← proposal_hash p;
  raise_if (negb (bool_decide (cm_proposal_hash c = ph)))
    (MandateError "cart is bound to a different proposal");;
  raise_if (bool_decide (mandate_id p ≠ None) && bool_decide (mandate_id p ≠ im_mandate_id mandate))
    (MandateError "proposal references a different mandate");;
  raise_if (negb (bool_decide (audience = im_audience mandate)))
    (MandateError "mandate audience mismatch");;
  raise_if (negb (bool_decide (principal_id p = im_delegate mandate)))
    (MandateError "mandate delegate mismatch");;
  raise_if (negb (is_in (chain_id p) (im_chain_ids mandate)) || negb (cm_chain_id c =? chain_id p))
    (MandateError "mandate chain mismatch");;
  raise_if (negb (is_in (asset p) (im_assets mandate)) || negb (bool_decide (cm_asset c = asset p)))
    (MandateError "mandate asset mismatch");;
  recipient ← match intent p with
              | TransferIntentV1 recipient => Ok recipient
              | SwapIntentV1 _ _ _ _ _ =>
                  Err (MandateError "cart mandates currently authorize transfers only")
              end;
  raise_if (negb (bool_decide (recipient = cm_merchant c))
            || negb (is_in recipient (im_recipients mandate)))
    (MandateError "mandate recipient mismatch");;
  raise_if (negb (cm_amount c =? amount p)) (MandateError "cart amount does not match proposal");;
  id ← or_raise (im_mandate_id mandate) AssertionError;
  spent ← or_raise (_spent l !! id) (KeyError (uuid_str id));
  raise_if (im_maximum_amount mandate <? spent + amount p) (MandateError "mandate budget exceeded");;
  Ok (id, spent, h).

Definition consume (clock : nat → Z) (now : Z) (p : ProposalV1) (c : CartMandateV1)
    (merchant_public_key : bytes) (audience : string) : M MandateLedger unit :=
  l ← self;
  '(id, spent, h) ← lift (check_cart clock now l p c merchant_public_key audience);
  update (λ l,
    {| _mandates := _mandates l; _spent := <[id := spent + amount p]> (_spent l);
       _revoked := _revoked l; _intent_nonces := _intent_nonces l;
       _used_cart_hashes := _used_cart_hashes l ∪ {[h]};
       _used_cart_nonces := _used_cart_nonces l ∪ {[(cm_merchant c, cm_nonce c)]} |}).
End mandates.

#[global] Arguments _active : simpl never.
#[global] Arguments _require_attenuation : simpl never.
#[global] Arguments check_cart : simpl never.
