(* ===== verification/MandatesFacts.v ===== *)
(** Facts of Mandates: what a consumed cart was checked against, the budget and
    replay protection along every history, attenuation and revocation. *)
From Stdlib Require Import ZArith Lia Ascii String.
From Stdlib Require Strings.Byte.
From stdpp Require Import base gmap sets list strings pretty.
From S2P Require Import Prelude Bytes Canonical CanonicalFacts Contracts ContractsFacts Policy.
From S2P Require Import StateFacts Mandates.

Open Scope Z_scope.

(** * Active mandates *)

(** [id] and all its ancestors are registered, not revoked and unexpired at [t]. *)
Inductive live (l : MandateLedger) (t : Z) : Z → IntentMandateV1 → Prop :=
  | live_root id m : _mandates l !! id = Some m → id ∉ _revoked l → t < im_expires_at m →
      im_parent_mandate_id m = None → live l t id m
  | live_child id m parent pm : _mandates l !! id = Some m → id ∉ _revoked l →
      t < im_expires_at m → im_parent_mandate_id m = Some parent → live l t parent pm →
      live l t id m.

Lemma active_rec_live fuel l clock i id m t :
  (∀ n, t ≤ clock n) → _active_rec fuel l clock i id = Ok m → live l t id m.
Proof.
  intros Ht. revert i id m. induction fuel as [|fuel IH]; intros i id m Ha; cbn in Ha; [done|].
  ok_invs. prop_of_bool. specialize (Ht i).
  match goal with H : _ ≤ _ |- _ => idtac end.
  destruct (im_parent_mandate_id _) as [parent|] eqn:Hp.
  - apply bind_Ok in Ha as (pm & Hpm & Ha). injection Ha as ->.
    eapply live_child; eauto. lia.
  - injection Ha as ->. apply live_root; auto. lia.
Qed.

Lemma active_live l clock id m t :
  (∀ n, t ≤ clock n) → _active l clock id = Ok m → live l t id m.
Proof. apply active_rec_live. Qed.

Lemma active_lookup l clock id m : _active l clock id = Ok m → _mandates l !! id = Some m.
Proof.
  unfold _active. generalize recursion_limit, 0%nat. intros [|fuel] i Ha; cbn in Ha; [done|].
  ok_invs. destruct (im_parent_mandate_id _); [ok_invs; done|by simplify_eq].
Qed.

Lemma live_lookup l t id m : live l t id m → _mandates l !! id = Some m.
Proof. by destruct 1. Qed.

(** * What a successful [consume] checked *)

Section consume.
Context `{!Externals}.

(** Everything the cart [c] for proposal [p] was checked against: the mandate
    [m] with identifier [id], of which [spent] was used, and the cart's hash [h]. *)
Record cart_authorized (l : MandateLedger) (clock : nat → Z) (now : Z) (p : ProposalV1)
    (c : CartMandateV1) (key : bytes) (audience : string) (m : IntentMandateV1)
    (id spent : Z) (h : string) : Prop := {
  ca_active : _active l clock (cm_mandate_id c) = Ok m;
  ca_id : im_mandate_id m = Some id;
  ca_cart_live : now < cm_expires_at c;
  ca_merchant : str_lower (address_of key) = cm_merchant c;
  ca_signed : ∃ payload, cart_signing_payload c = Ok payload
    ∧ _verify_signature key payload (cm_signature c) = true;
  ca_hash : cart_hash c = Ok h;
  ca_fresh : (h ∉ _used_cart_hashes l) ∧ ((cm_merchant c, cm_nonce c) ∉ _used_cart_nonces l);
  ca_intent : intent_hash m = Ok (cm_intent_hash c);
  ca_proposal : proposal_hash p = Ok (cm_proposal_hash c);
  ca_reference : mandate_id p = None ∨ mandate_id p = Some id;
  ca_audience : audience = im_audience m;
  ca_delegate : principal_id p = im_delegate m;
  ca_chain : chain_id p ∈ im_chain_ids m ∧ cm_chain_id c = chain_id p;
  ca_asset : asset p ∈ im_assets m ∧ cm_asset c = asset p;
  ca_recipient : intent p = TransferIntentV1 (cm_merchant c) ∧ cm_merchant c ∈ im_recipients m;
  ca_amount : cm_amount c = amount p;
  ca_spent : _spent l !! id = Some spent;
  ca_budget : spent + amount p ≤ im_maximum_amount m;
}.

Lemma check_cart_Ok clock now l p c key audience id spent h :
  check_cart clock now l p c key audience = Ok (id, spent, h) →
  ∃ m, cart_authorized l clock now p c key audience m id spent h.
Proof.
  unfold check_cart. intros Hc. ok_invs. unfold is_in in *. prop_of_bool. destruct_and!.
  destruct (intent p) as [recipient|] eqn:Hint; simplify_eq.
  match goal with H : _ ∨ ¬ _ |- _ => rename H into Href end.
  eexists. constructor; try done; try eauto; try congruence.
  - destruct Href as [Hn|Hn]; apply dec_stable in Hn; [by left|right; congruence].
Qed.

Definition after_consume (l : MandateLedger) (id total : Z) (h : string) (c : CartMandateV1)
    : MandateLedger :=
  {| _mandates := _mandates l; _spent := <[id := total]> (_spent l); _revoked := _revoked l;
     _intent_nonces := _intent_nonces l; _used_cart_hashes := _used_cart_hashes l ∪ {[h]};
     _used_cart_nonces := _used_cart_nonces l ∪ {[(cm_merchant c, cm_nonce c)]} |}.

Lemma consume_spec clock now p c key audience l :
  consume clock now p c key audience l =
  match check_cart clock now l p c key audience with
  | Ok (id, spent, h) => (after_consume l id (spent + amount p) h c, Ok tt)
  | Err e => (l, Err e)
  end.
Proof.
  unfold consume, self, lift, mbind, M_bind.
  by destruct (check_cart clock now l p c key audience) as [[[id spent] h]|].
Qed.

(** C25: what a consumed cart proves.  [consume] either raises and
    leaves the ledger unchanged, or: the cart is unexpired, signed by the key of
    its merchant, new in hash and in nonce, bound to the mandate's and the
    proposal's hashes; the proposal is a transfer to that merchant, of the cart's
    amount, asset and chain, all inside the mandate's scope, by the mandate's
    delegate for its audience; the mandate and every ancestor are registered,
    unrevoked and unexpired; and the amount fits the remaining budget, from which
    exactly it is deducted. *)
Theorem consume_authorizes clock now p c key audience l t :
  (∀ n, t ≤ clock n) →
  match consume clock now p c key audience l with
  | (l', Err _) => l' = l
  | (l', Ok _) => ∃ m id spent h, cart_authorized l clock now p c key audience m id spent h
      ∧ live l t (cm_mandate_id c) m
      ∧ l' = after_consume l id (spent + amount p) h c
  end.
Proof.
  intros Ht. rewrite consume_spec.
  destruct (check_cart _ _ _ _ _ _ _) as [[[id spent] h]|] eqn:Hc; [|done].
  destruct (check_cart_Ok _ _ _ _ _ _ _ _ _ _ Hc) as [m Hm].
  exists m, id, spent, h. split_and!; try done. eapply active_live; [done|by apply Hm].
Qed.
End consume.

(** * Histories *)

(** What happened to a ledger: a mandate was registered, or a cart was consumed for a
    proposal.  The newest event is first. *)
Inductive mandate_event :=
  | Registered (m : IntentMandateV1)
  | Consumed (p : ProposalV1) (c : CartMandateV1).

Definition carts (h : list mandate_event) : list CartMandateV1 :=
  omap (λ e, match e with Consumed _ c => Some c | Registered _ => None end) h.
Definition registered (h : list mandate_event) : list (option Z) :=
  omap (λ e, match e with Registered m => Some (im_mandate_id m) | Consumed _ _ => None end) h.

(** What was charged to the mandate [id] since it was last registered, what was ever
    charged to it, and what its registrations granted in all. *)
Fixpoint charged (id : Z) (h : list mandate_event) : Z :=
  match h with
  | [] => 0
  | Registered m :: h => if bool_decide (im_mandate_id m = Some id) then 0 else charged id h
  | Consumed p c :: h => (if bool_decide (cm_mandate_id c = id) then amount p else 0) + charged id h
  end.
Fixpoint ever_charged (id : Z) (h : list mandate_event) : Z :=
  match h with
  | [] => 0
  | Registered _ :: h => ever_charged id h
  | Consumed p c :: h =>
      (if bool_decide (cm_mandate_id c = id) then amount p else 0) + ever_charged id h
  end.
Fixpoint granted (id : Z) (h : list mandate_event) : Z :=
  match h with
  | [] => 0
  | Registered m :: h =>
      (if bool_decide (im_mandate_id m = Some id) then im_maximum_amount m else 0) + granted id h
  | Consumed _ _ :: h => granted id h
  end.

Section histories.
Context `{!Externals}.

(** The ledgers reachable from an empty one, with their history.  Registered mandates
    and consumed proposals are validated models (positive amounts); calls that raise
    are part of the runs, and an identifier may be registered again. *)
Inductive ledger_reach : list mandate_event → MandateLedger → Prop :=
  | lreach_init : ledger_reach [] ledger_init
  | lreach_registered h l clock m key l' : ledger_reach h l → 0 < im_maximum_amount m →
      register clock m key l = (l', Ok tt) → ledger_reach (Registered m :: h) l'
  | lreach_unregistered h l clock m key l' e : ledger_reach h l →
      register clock m key l = (l', Err e) → ledger_reach h l'
  | lreach_revoke h l id actor : ledger_reach h l → ledger_reach h (fst (revoke id actor l))
  | lreach_consumed h l clock now p c key audience l' : ledger_reach h l → 0 < amount p →
      consume clock now p c key audience l = (l', Ok tt) → ledger_reach (Consumed p c :: h) l'
  | lreach_refused h l clock now p c key audience l' e : ledger_reach h l →
      consume clock now p c key audience l = (l', Err e) → ledger_reach h l'.

(** [child]'s authority is within [parent]'s. *)
Record attenuates (child parent : IntentMandateV1) : Prop := {
  att_audience : im_audience child = im_audience parent;
  att_chains : im_chain_ids child ⊆ im_chain_ids parent;
  att_assets : im_assets child ⊆ im_assets parent;
  att_recipients : im_recipients child ⊆ im_recipients parent;
  att_amount : im_maximum_amount child ≤ im_maximum_amount parent;
  att_expires : im_expires_at child ≤ im_expires_at parent;
}.

#[export] Instance attenuates_preorder : PreOrder attenuates.
Proof.
  split.
  - intros m. by constructor.
  - intros a b c [] []. constructor; first [congruence|etrans; done|lia].
Qed.

Record ledger_inv (h : list mandate_event) (l : MandateLedger) : Prop := {
  li_id : ∀ k m, _mandates l !! k = Some m → im_mandate_id m = Some k ∧ Some k ∈ registered h;
  li_spent : ∀ k m, _mandates l !! k = Some m →
    _spent l !! k = Some (charged k h) ∧ 0 ≤ charged k h ≤ im_maximum_amount m
    ∧ ever_charged k h - charged k h ≤ granted k h - im_maximum_amount m;
  li_absent : ∀ k, _mandates l !! k = None → ever_charged k h = 0 ∧ granted k h = 0;
  li_used : ∀ c, c ∈ carts h →
    (∃ x, cart_hash c = Ok x ∧ x ∈ _used_cart_hashes l)
    ∧ (cm_merchant c, cm_nonce c) ∈ _used_cart_nonces l;
  li_once : NoDup ((λ c, (cm_merchant c, cm_nonce c)) <$> carts h) ∧ NoDup (cart_hash <$> carts h);
}.

Lemma is_subset_true {A} `{EqDecision A} (xs ys : list A) : is_subset xs ys = true → xs ⊆ ys.
Proof.
  unfold is_subset. rewrite forallb_forall. intros Hs x Hx.
  apply is_in_true, Hs. by apply list_elem_of_In.
Qed.

(** What [register] does. *)
Lemma register_cases clock m key l :
  (∃ e, register clock m key l = (l, Err e))
  ∨ (∃ id, im_mandate_id m = Some id
      ∧ (∀ pk, im_parent_mandate_id m = Some pk → ∃ pm,
           _active l (λ i, clock (S i)) pk = Ok pm ∧ _require_attenuation l pm m = Ok tt)
      ∧ ((im_issuer m, im_nonce m) ∉ _intent_nonces l)
      ∧ register clock m key l =
        ({| _mandates := <[id := m]> (_mandates l); _spent := <[id := 0]> (_spent l);
            _revoked := _revoked l;
            _intent_nonces := _intent_nonces l ∪ {[(im_issuer m, im_nonce m)]};
            _used_cart_hashes := _used_cart_hashes l;
            _used_cart_nonces := _used_cart_nonces l |}, Ok tt)).
Proof.
  unfold register, self, lift, mbind, M_bind.
  destruct (im_mandate_id m) as [id|] eqn:Hid; cbn; [|solve [left; eauto]].
  destruct (negb _); cbn; [solve [left; eauto]|].
  destruct (intent_signing_payload m); cbn; [|solve [left; eauto]].
  destruct (negb _); cbn; [solve [left; eauto]|].
  destruct (_ <=? _); cbn; [solve [left; eauto]|].
  case_bool_decide as Hn; cbn; [solve [left; eauto]|].
  destruct (im_parent_mandate_id m) as [pk|].
  - destruct (_active l (λ i, clock (S i)) pk) as [pm|] eqn:Hact; cbn; [|solve [left; eauto]].
    destruct (_require_attenuation l pm m) as [[]|] eqn:Hatt; cbn; [|solve [left; eauto]].
    right. exists id. split_and!; try done. intros ? [= <-]. eauto.
  - right. exists id. split_and!; done.
Qed.

Lemma attenuation_checked l parent child :
  _require_attenuation l parent child = Ok tt →
  ∃ id spent, im_mandate_id parent = Some id ∧ _spent l !! id = Some spent
    ∧ (0 ≤ spent → attenuates child parent) ∧ im_issuer child = str_lower (im_delegate parent).
Proof.
  unfold _require_attenuation. intros Ha. ok_invs. prop_of_bool. destruct_and!.
  do 2 eexists. split_and!; try done. intros. constructor; try done; try lia;
    by apply is_subset_true.
Qed.

(** The ledger after a registration. *)
Definition after_register (l : MandateLedger) (id : Z) (m : IntentMandateV1) : MandateLedger :=
  {| _mandates := <[id := m]> (_mandates l); _spent := <[id := 0]> (_spent l);
     _revoked := _revoked l;
     _intent_nonces := _intent_nonces l ∪ {[(im_issuer m, im_nonce m)]};
     _used_cart_hashes := _used_cart_hashes l; _used_cart_nonces := _used_cart_nonces l |}.

Lemma register_inv h l id m :
  ledger_inv h l → 0 < im_maximum_amount m → im_mandate_id m = Some id →
  ledger_inv (Registered m :: h) (after_register l id m).
Proof.
  intros Hinv Hpos Hid. constructor; cbn.
  - rewrite Hid. intros k u [[<- <-]|[? Hk]]%lookup_insert_Some; [split; [done|set_solver]|].
    destruct (li_id h l Hinv k u Hk). split; [done|set_solver].
  - intros k u [[<- <-]|[? Hk]]%lookup_insert_Some.
    + rewrite lookup_insert_eq, !bool_decide_true by done. split_and!; try (done || lia).
      destruct (_mandates l !! id) as [m0|] eqn:Hm0.
      * destruct (li_spent h l Hinv id m0 Hm0). lia.
      * destruct (li_absent h l Hinv id Hm0). lia.
    + rewrite lookup_insert_ne, !bool_decide_false by congruence. by eapply li_spent.
  - intros k [Hk ?]%lookup_insert_None. rewrite bool_decide_false by congruence.
    by apply (li_absent h l Hinv).
  - apply Hinv.
  - apply Hinv.
Qed.

Lemma consume_inv h l clock now p c key audience l' :
  ledger_inv h l → 0 < amount p → consume clock now p c key audience l = (l', Ok tt) →
  ledger_inv (Consumed p c :: h) l'.
Proof.
  intros Hinv Hpos Hc. rewrite consume_spec in Hc.
  destruct (check_cart _ _ _ _ _ _ _) as [[[id spent] x]|] eqn:Hk; [|done]. injection Hc as <-.
  destruct (check_cart_Ok _ _ _ _ _ _ _ _ _ _ Hk) as [m Hm]. pose proof (ca_active _ _ _ _ _ _ _ _ _ _ _ Hm) as Hact.
  apply active_lookup in Hact. destruct (li_id h l Hinv _ _ Hact) as [Hid _].
  rewrite (ca_id _ _ _ _ _ _ _ _ _ _ _ Hm) in Hid. injection Hid as ->.
  destruct (li_spent h l Hinv _ _ Hact) as (Hsp & Hle & Htot).
  pose proof (ca_spent _ _ _ _ _ _ _ _ _ _ _ Hm) as Hsp'. rewrite Hsp in Hsp'. injection Hsp' as <-.
  pose proof (ca_budget _ _ _ _ _ _ _ _ _ _ _ Hm) as Hb.
  pose proof (ca_hash _ _ _ _ _ _ _ _ _ _ _ Hm) as Hh.
  destruct (ca_fresh _ _ _ _ _ _ _ _ _ _ _ Hm) as [Hf1 Hf2].
  constructor; cbn.
  - apply Hinv.
  - intros k u Hu. case_bool_decide as Hck; subst.
    + simplify_eq. rewrite lookup_insert_eq. split_and!; [f_equal|..]; lia.
    + rewrite lookup_insert_ne by done. by eapply li_spent.
  - intros k Hn. rewrite bool_decide_false by congruence. by apply (li_absent h l Hinv).
  - intros c' [->|Hin]%elem_of_cons.
    + split; [exists x; split; [done|set_solver]|set_solver].
    + destruct (li_used h l Hinv c' Hin) as ((y & ? & ?) & ?).
      split; [exists y; split; [done|set_solver]|set_solver].
  - destruct (li_once h l Hinv) as [H1 H2]. split; constructor; try done.
    + intros (c' & Heq & Hin)%list_elem_of_fmap.
      destruct (li_used h l Hinv c' Hin) as (_ & Hu). congruence.
    + intros (c' & Heq & Hin)%list_elem_of_fmap.
      destruct (li_used h l Hinv c' Hin) as ((y & Hy & Hu) & _).
      rewrite Hh, Hy in Heq. injection Heq as ->. done.
Qed.

Lemma register_Ok clock m key l l' :
  register clock m key l = (l', Ok tt) →
  ∃ id, im_mandate_id m = Some id ∧ l' = after_register l id m
    ∧ (∀ pk, im_parent_mandate_id m = Some pk → ∃ pm,
         _active l (λ i, clock (S i)) pk = Ok pm ∧ _require_attenuation l pm m = Ok tt).
Proof.
  intros Hr. destruct (register_cases clock m key l) as [[e Hx]|(id & Hid & Hpar & _ & Hx)];
    rewrite Hx in Hr; [done|]. injection Hr as <-. eauto.
Qed.

Lemma register_Err clock m key l l' e : register clock m key l = (l', Err e) → l' = l.
Proof.
  intros Hr. destruct (register_cases clock m key l) as [[e' Hx]|(id & _ & _ & _ & Hx)];
    rewrite Hx in Hr; [by injection Hr as <- _|done].
Qed.

Lemma consume_Err clock now p c key audience l l' e :
  consume clock now p c key audience l = (l', Err e) → l' = l.
Proof.
  intros Hc. rewrite consume_spec in Hc.
  destruct (check_cart _ _ _ _ _ _ _) as [[[? ?] ?]|]; [done|]. by injection Hc as <- _.
Qed.

Lemma revoke_mandates id actor l :
  _mandates (fst (revoke id actor l)) = _mandates l
  ∧ ∀ h, ledger_inv h l → ledger_inv h (fst (revoke id actor l)).
Proof.
  unfold revoke, read, lift, mbind, M_bind. destruct (_mandates l !! id); cbn; [|done].
  destruct (negb _); cbn; [done|]. split; [done|]. intros h Hinv. by destruct Hinv; constructor.
Qed.

Lemma ledger_reach_inv h l : ledger_reach h l → ledger_inv h l.
Proof.
  induction 1 as [|h l clock m key l' _ IH Hpos Hr|h l clock m key l' e _ IH Hr|h l id actor _ IH
                 |h l clock now p c key audience l' _ IH Hpos Hc
                 |h l clock now p c key audience l' e _ IH Hc].
  - constructor; cbn; try (intros *; rewrite lookup_empty; done); [set_solver|].
    split; constructor.
  - apply register_Ok in Hr as (id & Hid & -> & _). by apply register_inv.
  - by apply register_Err in Hr as ->.
  - by apply revoke_mandates.
  - by eapply consume_inv.
  - by apply consume_Err in Hc as ->.
Qed.

(** Identifiers registered once: the one registration granted all. *)
Lemma granted_absent k h : Some k ∉ registered h → granted k h = 0.
Proof.
  induction h as [|[m|p c] h IH]; cbn; intros Hk; [done| |auto].
  apply not_elem_of_cons in Hk as [? ?]. rewrite bool_decide_false by congruence. by rewrite IH.
Qed.

Lemma granted_once h l k m :
  ledger_reach h l → NoDup (registered h) → _mandates l !! k = Some m →
  granted k h = im_maximum_amount m.
Proof.
  intros Hr. revert k m.
  induction Hr as [|h l clock m' key l' _ IH Hpos Hr|h l clock m' key l' e _ IH Hr|h l id actor _ IH
                 |h l clock now p c key audience l' _ IH Hpos Hc
                 |h l clock now p c key audience l' e _ IH Hc]; intros k m Hd Hk.
  - done.
  - apply register_Ok in Hr as (id & Hid & -> & _). cbn in Hd, Hk |- *. rewrite Hid in *.
    apply NoDup_cons in Hd as [Hni Hd].
    apply lookup_insert_Some in Hk as [[<- <-]|[Hne Hk]].
    + rewrite bool_decide_true, granted_absent by done. lia.
    + rewrite bool_decide_false by congruence. by rewrite (IH k m).
  - apply register_Err in Hr as ->. eauto.
  - rewrite (proj1 (revoke_mandates id actor l)) in Hk. eauto.
  - rewrite consume_spec in Hc. destruct (check_cart _ _ _ _ _ _ _) as [[[? ?] ?]|]; [|done].
    injection Hc as <-. cbn in *. eauto.
  - apply consume_Err in Hc as ->. eauto.
Qed.

(** C26: a mandate's budget and its carts' single use, along every history of
    registrations, revocations and consumptions, an identifier registered again
    included.  What [consumed] reports for a mandate is exactly what was consumed
    against it since its identifier was last registered, and never exceeds the maximum
    of that registration.  What was ever consumed under an identifier never exceeds
    the sum of the maxima of its registrations: one maximum, if it was registered
    once.  No two consumptions share a cart hash or a merchant nonce, so a signed cart
    is spent at most once, whatever is registered in between. *)
Theorem mandate_budget_respected h l k m :
  ledger_reach h l → _mandates l !! k = Some m →
  snd (consumed k l) = Ok (charged k h) ∧ charged k h ≤ im_maximum_amount m
  ∧ ever_charged k h ≤ granted k h
  ∧ (NoDup (registered h) → granted k h = im_maximum_amount m)
  ∧ NoDup (cart_hash <$> carts h) ∧ NoDup ((λ c, (cm_merchant c, cm_nonce c)) <$> carts h).
Proof.
  intros Hr Hk. pose proof (ledger_reach_inv h l Hr) as Hinv.
  destruct (li_spent h l Hinv k m Hk) as (Hs & [_ Hle] & Htot). destruct (li_once h l Hinv).
  unfold consumed, read. cbn. rewrite Hs. split_and!; try done; [lia|].
  intros Hd. by eapply granted_once.
Qed.

(** [k] is [anc] or was delegated from it, in any number of steps. *)
Inductive descends (l : MandateLedger) (anc : Z) : Z → Prop :=
  | desc_refl : descends l anc anc
  | desc_step k m pk : _mandates l !! k = Some m → im_parent_mandate_id m = Some pk →
      descends l anc pk → descends l anc k.

Lemma active_not_revoked fuel l clock i k m anc :
  _active_rec fuel l clock i k = Ok m → descends l anc k → anc ∉ _revoked l.
Proof.
  intros Ha Hd. revert fuel i m Ha. induction Hd as [|k u pk Hk Hp _ IH];
    intros [|fuel] i m Ha; cbn in Ha; try done; ok_invs; prop_of_bool; [done|].
  rewrite Hp in Ha. apply bind_Ok in Ha as (pm & Hpm & _). eauto.
Qed.

(** Identifiers registered once: a delegated mandate stays within its parent. *)
Lemma parent_attenuates h l :
  ledger_reach h l → NoDup (registered h) → ∀ k m pk, _mandates l !! k = Some m →
  im_parent_mandate_id m = Some pk → ∃ pm, _mandates l !! pk = Some pm ∧ attenuates m pm.
Proof.
  induction 1 as [|h l clock m key l' Hl IH Hpos Hr|h l clock m key l' e _ IH Hr|h l id actor _ IH
                 |h l clock now p c key audience l' _ IH Hpos Hc
                 |h l clock now p c key audience l' e _ IH Hc]; intros Hd k u pk Hk Hp.
  - done.
  - apply register_Ok in Hr as (id & Hid & -> & Hpar). cbn in Hd, Hk |- *. rewrite Hid in Hd.
    apply NoDup_cons in Hd as [Hni Hd]. pose proof (ledger_reach_inv h l Hl) as Hinv.
    assert (∀ j v, _mandates l !! j = Some v → j ≠ id) as Hold.
    { intros j v Hj ->. by destruct (li_id h l Hinv id v Hj). }
    apply lookup_insert_Some in Hk as [[<- <-]|[? Hk]].
    + destruct (Hpar pk Hp) as (pm & Hact & Hatt). apply active_lookup in Hact. exists pm.
      rewrite lookup_insert_ne by (intros <-; by eapply Hold). split; [done|].
      destruct (attenuation_checked _ _ _ Hatt) as (i & spent & Hi & Hs & Ha & _). apply Ha.
      destruct (li_id h l Hinv pk pm Hact) as [Hpid _]. rewrite Hpid in Hi. injection Hi as <-.
      destruct (li_spent h l Hinv pk pm Hact) as (? & ? & _). simplify_eq. lia.
    + destruct (IH Hd k u pk Hk Hp) as (pm & Hpm & Ha). exists pm.
      rewrite lookup_insert_ne by (intros <-; by eapply Hold). done.
  - apply register_Err in Hr as ->. eauto.
  - rewrite (proj1 (revoke_mandates id actor l)) in *. eauto.
  - rewrite consume_spec in Hc. destruct (check_cart _ _ _ _ _ _ _) as [[[? ?] ?]|]; [|done].
    injection Hc as <-. cbn in *. eauto.
  - apply consume_Err in Hc as ->. eauto.
Qed.

(** Delegation never widens authority, and revocation cascades.
    In every ledger reached without registering an identifier twice, a mandate
    delegated, in any number of steps, from another has the same audience, only
    chains, assets and recipients of it, and a maximum and an expiry no greater; and
    once an ancestor is revoked, [consume] refuses every cart drawn on the mandate, and
    changes nothing. *)
Theorem delegation_attenuates h l anc k am m :
  ledger_reach h l → NoDup (registered h) → descends l anc k →
  _mandates l !! anc = Some am → _mandates l !! k = Some m →
  attenuates m am
  ∧ (anc ∈ _revoked l → ∀ clock now p c key audience, cm_mandate_id c = k →
       ∃ e, consume clock now p c key audience l = (l, Err e)).
Proof.
  intros Hr Hn Hd Ham Hm. split.
  - revert m Hm. induction Hd as [|k u pk Hk Hp Hd IH]; intros m Hm.
    { by simplify_eq. }
    destruct (parent_attenuates h l Hr Hn k m pk) as (pm & Hpm & Ha); [done|congruence|].
    etrans; [done|auto].
  - intros Hrev clock now p c key audience <-. rewrite consume_spec.
    destruct (check_cart _ _ _ _ _ _ _) as [[[id spent] x]|] eqn:Hc; [|eauto].
    destruct (check_cart_Ok _ _ _ _ _ _ _ _ _ _ Hc) as [u Hu].
    destruct (active_not_revoked _ _ _ _ _ _ _ (ca_active _ _ _ _ _ _ _ _ _ _ _ Hu) Hd Hrev).
Qed.
End histories.

(** * Concrete mandates *)

Definition ex_user : KeyPair := @KeyPair_from_seed sized_externals "user".
Definition ex_broker : KeyPair := @KeyPair_from_seed sized_externals "broker".
Definition ex_shop : KeyPair := @KeyPair_from_seed sized_externals "shop".

Definition or_else {A} (d : A) (r : result A) : A := match r with Ok a => a | Err _ => d end.

Definition ex_mandate_fields (id : Z) (issuer : KeyPair) (delegate nonce : string)
    (parent : option Z) : IntentMandateV1 :=
  {| im_mandate_id := Some id; im_issuer := str_lower (kp_address issuer);
     im_delegate := delegate; im_audience := "checkout"; im_chain_ids := [31337];
     im_assets := ["NATIVE:31337"]; im_recipients := [str_lower (kp_address ex_shop)];
     im_maximum_amount := 250; im_expires_at := seconds 9000; im_nonce := nonce;
     im_parent_mandate_id := parent; im_signature := "" |}.

Definition ex_mandate (id : Z) (issuer : KeyPair) (delegate nonce : string) (parent : option Z)
    : IntentMandateV1 :=
  let m := ex_mandate_fields id issuer delegate nonce parent in
  or_else m (@sign_intent sized_externals issuer id m).

Definition ex_proposal : ProposalV1 :=
  {| proposal_id := proposal_id sample_proposal; principal_id := "agent-1";
     wallet := wallet sample_proposal; chain_id := 31337; asset := "NATIVE:31337"; amount := 250;
     intent := TransferIntentV1 (str_lower (kp_address ex_shop)); deadline := seconds 2000;
     idempotency_key := "order-0001"; mandate_id := None; quote_reference := None |}.

Definition ex_cart (m : IntentMandateV1) (nonce : string) : CartMandateV1 :=
  let c :=
    {| cm_cart_id := Some 900; cm_merchant := str_lower (kp_address ex_shop);
       cm_mandate_id := default 0 (im_mandate_id m);
       cm_intent_hash := or_else "" (@intent_hash sized_externals m);
       cm_proposal_hash := or_else "" (@proposal_hash sized_externals ex_proposal);
       cm_chain_id := 31337; cm_asset := "NATIVE:31337"; cm_amount := 250;
       cm_expires_at := seconds 3000; cm_nonce := nonce; cm_signature := "" |} in
  or_else c (@sign_cart sized_externals ex_shop 900 c).

Definition ex_clock : nat → Z := λ _, seconds 1000.

(** The user delegates 250 to a broker, who delegates it twice. *)
Definition ex_parent : IntentMandateV1 :=
  Eval vm_compute in ex_mandate 1 ex_user (kp_address ex_broker) "nonce-1" None.
Definition ex_child1 : IntentMandateV1 :=
  Eval vm_compute in ex_mandate 2 ex_broker "agent-1" "nonce-2" (Some 1).
Definition ex_child2 : IntentMandateV1 :=
  Eval vm_compute in ex_mandate 3 ex_broker "agent-1" "nonce-3" (Some 1).
Definition ex_cart1 : CartMandateV1 := Eval vm_compute in ex_cart ex_child1 "cart-01".
Definition ex_cart2 : CartMandateV1 := Eval vm_compute in ex_cart ex_child2 "cart-02".

Definition ex_register (m : IntentMandateV1) (k : KeyPair) (l : MandateLedger) : MandateLedger :=
  fst (@register sized_externals ex_clock m (kp_pub k) l).
Definition ex_consume (c : CartMandateV1) (l : MandateLedger) : MandateLedger * result unit :=
  @consume sized_externals ex_clock (seconds 1000) ex_proposal c (kp_pub ex_shop) "checkout" l.

Definition ex_ledger1 : MandateLedger := Eval vm_compute in ex_register ex_parent ex_user ledger_init.
Definition ex_ledger2 : MandateLedger := Eval vm_compute in ex_register ex_child1 ex_broker ex_ledger1.
Definition ex_ledger3 : MandateLedger := Eval vm_compute in ex_register ex_child2 ex_broker ex_ledger2.
Definition ex_ledger4 : MandateLedger := Eval vm_compute in fst (ex_consume ex_cart1 ex_ledger3).
Definition ex_ledger5 : MandateLedger := Eval vm_compute in fst (ex_consume ex_cart2 ex_ledger4).
Definition ex_history3 : list mandate_event :=
  [Registered ex_child2; Registered ex_child1; Registered ex_parent].
Definition ex_history : list mandate_event :=
  Consumed ex_proposal ex_cart2 :: Consumed ex_proposal ex_cart1 :: ex_history3.

(** One step of a history of registrations by [ex_register], checked by evaluation. *)
Lemma ex_registered h l m k l' :
  @ledger_reach sized_externals h l → 0 < im_maximum_amount m →
  @register sized_externals ex_clock m (kp_pub k) l = (l', Ok tt) →
  @ledger_reach sized_externals (Registered m :: h) l'.
Proof. apply lreach_registered. Qed.

Lemma ex_consumed h l c l' :
  @ledger_reach sized_externals h l → ex_consume c l = (l', Ok tt) →
  @ledger_reach sized_externals (Consumed ex_proposal c :: h) l'.
Proof. intros Hl. by apply lreach_consumed. Qed.

Lemma ex_ledger3_reach : @ledger_reach sized_externals ex_history3 ex_ledger3.
Proof.
  apply (ex_registered _ ex_ledger2 _ ex_broker);
    [|done|vm_cast_no_check (eq_refl (ex_ledger3, @Ok unit tt))].
  apply (ex_registered _ ex_ledger1 _ ex_broker);
    [|done|vm_cast_no_check (eq_refl (ex_ledger2, @Ok unit tt))].
  apply (ex_registered _ ledger_init _ ex_user);
    [constructor|done|vm_cast_no_check (eq_refl (ex_ledger1, @Ok unit tt))].
Qed.

Lemma ex_ledger4_reach :
  @ledger_reach sized_externals (Consumed ex_proposal ex_cart1 :: ex_history3) ex_ledger4.
Proof.
  apply (ex_consumed _ ex_ledger3 _ _ ex_ledger3_reach).
  vm_cast_no_check (eq_refl (ex_ledger4, @Ok unit tt)).
Qed.

Lemma ex_ledger5_reach : @ledger_reach sized_externals ex_history ex_ledger5.
Proof.
  apply (ex_consumed _ ex_ledger4 _ _ ex_ledger4_reach).
  vm_cast_no_check (eq_refl (ex_ledger5, @Ok unit tt)).
Qed.

(** Delegated budgets are not drawn from the parent.  There is a
    ledger, reached by validly signed registrations and consumptions with distinct
    identifiers, in which two mandates delegated from a parent of maximum 250 were
    consumed for 250 each: attenuation bounds every child by what the parent has
    left, but consuming a child does not debit the parent. *)
Theorem delegated_budgets_add_up :
  @ledger_reach sized_externals ex_history ex_ledger5
  ∧ (∃ m, _mandates ex_ledger5 !! 1 = Some m ∧ im_maximum_amount m = 250)
  ∧ descends ex_ledger5 1 2 ∧ descends ex_ledger5 1 3
  ∧ charged 2 ex_history + charged 3 ex_history = 500.
Proof.
  split_and!.
  - exact ex_ledger5_reach.
  - eexists. split; [vm_compute; reflexivity|reflexivity].
  - eapply desc_step; [vm_compute; reflexivity|reflexivity|constructor].
  - eapply desc_step; [vm_compute; reflexivity|reflexivity|constructor].
  - vm_compute. reflexivity.
Qed.

(** A mandate of the user's own under the identifier of the first child. *)
Definition ex_again : IntentMandateV1 :=
  Eval vm_compute in ex_mandate 2 ex_user "agent-1" "nonce-4" None.

(** Registering an identifier again resets its budget.  [register]
    does not check that the mandate identifier is new: after the first child was
    consumed for its whole maximum, another signer's mandate registered under the
    same identifier replaces it and [consumed] reports 0. *)
Theorem reregistration_resets_budget :
  snd (consumed 2 ex_ledger4) = Ok 250
  ∧ snd (consumed 2 (ex_register ex_again ex_user ex_ledger4)) = Ok 0
  ∧ im_issuer ex_again ≠ im_issuer ex_child1
  ∧ _mandates (ex_register ex_again ex_user ex_ledger4) !! 2 = Some ex_again.
Proof. split_and!; vm_compute; congruence. Qed.

Lemma consume_authorizes_witness :
  ∃ m id spent h, @cart_authorized sized_externals ex_ledger3 ex_clock (seconds 1000) ex_proposal
    ex_cart1 (kp_pub ex_shop) "checkout" m id spent h ∧ live ex_ledger3 0 2 m.
Proof.
  pose proof (@consume_authorizes sized_externals ex_clock (seconds 1000) ex_proposal ex_cart1
    (kp_pub ex_shop) "checkout" ex_ledger3 0 (λ _, ltac:(vm_compute; congruence))) as H.
  replace (@consume sized_externals ex_clock (seconds 1000) ex_proposal ex_cart1 (kp_pub ex_shop)
    "checkout" ex_ledger3) with (ex_ledger4, @Ok unit tt) in H
    by (vm_cast_no_check (eq_refl (ex_ledger4, @Ok unit tt))).
  destruct H as (m & id & spent & h & H1 & H2 & _). exists m, id, spent, h. split; assumption.
Defined.

(** The first child consumed in full, then the user's mandate under its identifier. *)
Definition ex_again_ledger : MandateLedger := Eval vm_compute in ex_register ex_again ex_user ex_ledger4.
Definition ex_again_history : list mandate_event :=
  Registered ex_again :: Consumed ex_proposal ex_cart1 :: ex_history3.

Lemma ex_again_reach : @ledger_reach sized_externals ex_again_history ex_again_ledger.
Proof.
  apply (ex_registered _ ex_ledger4 _ ex_user);
    [exact ex_ledger4_reach|done|vm_cast_no_check (eq_refl (ex_again_ledger, @Ok unit tt))].
Qed.

Lemma mandate_budget_respected_witness :
  snd (consumed 2 ex_ledger5) = Ok (charged 2 ex_history) ∧ charged 2 ex_history = 250
  ∧ snd (consumed 2 ex_again_ledger) = Ok (charged 2 ex_again_history)
  ∧ charged 2 ex_again_history = 0 ∧ ever_charged 2 ex_again_history = 250
  ∧ ever_charged 2 ex_again_history ≤ granted 2 ex_again_history.
Proof.
  destruct (@mandate_budget_respected sized_externals ex_history ex_ledger5 2 ex_child1
    ex_ledger5_reach) as (H1 & _); [vm_compute; reflexivity|].
  destruct (@mandate_budget_respected sized_externals ex_again_history ex_again_ledger 2 ex_again
    ex_again_reach) as (H2 & _ & H3 & _); [vm_compute; reflexivity|].
  split_and!; [exact H1|vm_compute; reflexivity|exact H2|vm_compute; reflexivity..|exact H3].
Defined.

Lemma delegation_attenuates_witness : attenuates ex_child1 ex_parent.
Proof.
  refine (proj1 (@delegation_attenuates sized_externals ex_history ex_ledger5 1 2 _ _
    ex_ledger5_reach _ _ _ _)).
  - apply (bool_decide_unpack _). vm_compute. exact I.
  - eapply desc_step; [vm_compute; reflexivity|reflexivity|constructor].
  - vm_compute. reflexivity.
  - vm_compute. reflexivity.
Defined.
