(* ===== verification/Adapters.v ===== *)
(** The adapters in front of the proposal gateway
    (src/agentguard-testbed/src/aegisledger/agents.py and protocols.py): model providers,
    x402 payment requests and delegated mandates.  An adapter holds a callback that submits
    a proposal; what lies behind it, and a provider, are objects with a state.

    The typing of an untrusted document by pydantic ([ProposalV1.model_validate] before its
    validators run) and the HTTP client are parameters. *)
From Stdlib Require Import ZArith Lia Ascii String.
From stdpp Require Import base gmap list strings pretty.
From S2P Require Import Prelude Bytes Regex Canonical Contracts Policy Mandates.

Open Scope Z_scope.

(** * Model providers (agents.py) *)

Record ModelRequestV1 := {
  mr_request_id : string;
  mr_principal_id : string;
  mr_wallet : string;
  mr_chain_id : Z;
  mr_allowed_assets : list string;
  mr_task : string;
  mr_context : list (pykey * pyval);
}.

Definition ModelRequestV1_validate (r : ModelRequestV1) : result ModelRequestV1 :=
  raise_if (negb (length_between 8 128 (mr_request_id r) && length_between 1 128 (mr_principal_id r)
                  && Address (mr_wallet r) && forallb AssetId (mr_allowed_assets r)
                  && length_between 1 8192 (mr_task r) && forallb (λ e, is_str_key e.1) (mr_context r)))
    (ValidationError "ModelRequestV1");;
  Ok {| mr_request_id := mr_request_id r; mr_principal_id := mr_principal_id r;
        mr_wallet := str_lower (mr_wallet r); mr_chain_id := mr_chain_id r;
        mr_allowed_assets := mr_allowed_assets r; mr_task := mr_task r; mr_context := mr_context r |}.

(** [model_dump(mode="json")] *)
Definition ModelRequestV1_dump (r : ModelRequestV1) : pyval :=
  PDict [(KStr "schema_version", PStr "aegisledger.model_request.v1");
    (KStr "request_id", PStr (mr_request_id r));
    (KStr "principal_id", PStr (mr_principal_id r));
    (KStr "wallet", PStr (mr_wallet r));
    (KStr "chain_id", PInt (mr_chain_id r));
    (KStr "allowed_assets", strings_dump (mr_allowed_assets r));
    (KStr "task", PStr (mr_task r));
    (KStr "context", PDict (mr_context r))].

Abbreviation document := (list (pykey * pyval)).

(** [ScriptedModelProvider.propose], on the proposals that remain. *)
Definition scripted_propose (_ : ModelRequestV1) : M (list document) document := λ proposals,
  match proposals with
  | [] => ([], Err (RuntimeError "scripted provider has no remaining proposals"))
  | p :: proposals => (proposals, Ok p)
  end.

(** [JsonHttpModelProvider(client, endpoint=endpoint)] *)
Definition http_provider_init (endpoint : string) : result string :=
  raise_if (negb (String.prefix "/" endpoint)) (ValueError "model endpoint must be an absolute path");;
  Ok endpoint.

(** Its [propose]: [post] is the client's request, an error status and a body that is not
    JSON being its exceptions. *)
Definition http_propose {S} (post : string → pyval → M S pyval) (endpoint : string)
    (request : ModelRequestV1) : M S document :=
  body ← post endpoint (ModelRequestV1_dump request);
  proposal ← lift (match body with
    | PDict [(KStr k, v)] =>
        if bool_decide (k = "proposal") then Ok v
        else Err (ValueError "model response must contain only a proposal")
    | _ => Err (ValueError "model response must contain only a proposal")
    end);
  lift (match proposal with
        | PDict d => Ok d
        | _ => Err (ValueError "model proposal must be an object")
        end).

Section model_adapter.
Context {S : Type}.
Variable propose : ModelRequestV1 → M S document.
Variable parse : document → result (ProposalV1 * datetime).
Variable submit_proposal : ProposalV1 → M S unit.

(** [ModelProposalAdapter.execute] *)
Definition adapter_execute (request : ModelRequestV1) : M S ProposalV1 :=
  d ← propose request;
  '(raw, dl) ← lift (parse d);
  p ← lift (ProposalV1_validate raw dl);
  lift (raise_if (bool_decide (principal_id p ≠ mr_principal_id request))
    (ValueError "model changed the authenticated principal"));;
  lift (raise_if (bool_decide (wallet p ≠ mr_wallet request))
    (ValueError "model changed the authorized wallet"));;
  lift (raise_if (bool_decide (chain_id p ≠ mr_chain_id request))
    (ValueError "model changed the authorized chain"));;
  lift (raise_if (negb (is_in (asset p) (mr_allowed_assets request)))
    (ValueError "model selected an asset outside its request scope"));;
  submit_proposal p;;
  mret p.
End model_adapter.

(** * Payment protocols (protocols.py) *)

Inductive x402_scheme := exact_scheme | upto_scheme.

Record X402PaymentRequestV1 := {
  xr_scheme : x402_scheme;
  xr_chain_id : Z;
  xr_asset : string;
  xr_amount : Z;
  xr_pay_to : string;
  xr_resource : string;
  xr_nonce : string;
  xr_expires_at : Z;
}.

(** [^https://[^\s]{1,240}$] *)
Fixpoint lit (s : string) : regex :=
  match s with EmptyString => Empty | String c s => Cat (chr c) (lit s) end.
Definition resource_re : regex :=
  let visible := Char (λ c, negb (code_between 9 13 c || code_between 32 32 c)) in
  Cat (lit "https://") (Cat visible (up_to 239 visible)).

(** The fields as given, the expiry as the raw [dl]; [now] is read by [normalize_expiry]. *)
Definition normalize_expiry (now : Z) (dl : datetime) : result Z :=
  normalized ← require_utc "expires_at" dl;
  raise_if (normalized <=? now) (ValueError "payment request is expired");;
  Ok normalized.

Definition X402PaymentRequestV1_validate (now : Z) (r : X402PaymentRequestV1) (dl : datetime)
    : result X402PaymentRequestV1 :=
  raise_if (negb ((0 <? xr_chain_id r) && AssetId (xr_asset r) && (0 <? xr_amount r)
                  && Address (xr_pay_to r) && full_match resource_re (xr_resource r)
                  && length_between 8 96 (xr_nonce r)))
    (ValidationError "X402PaymentRequestV1");;
  expires ← try_except catches_ValueError (normalize_expiry now dl) (invalid "X402PaymentRequestV1");
  Ok {| xr_scheme := xr_scheme r; xr_chain_id := xr_chain_id r; xr_asset := xr_asset r;
        xr_amount := xr_amount r; xr_pay_to := str_lower (xr_pay_to r); xr_resource := xr_resource r;
        xr_nonce := xr_nonce r; xr_expires_at := expires |}.

Record DelegatedMandateRequestV1 := { dr_proposal : ProposalV1; dr_cart : CartMandateV1 }.

Section protocols.
Context `{!Externals} {S : Type}.
Variable submit_proposal : ProposalV1 → M S unit.

(** [X402Adapter.authorize], with the identifier the proposal draws. *)
Definition x402_request_proposal (new_id : Z) (r : X402PaymentRequestV1) (principal w : string) : ProposalV1 :=
  {| proposal_id := new_id; principal_id := principal; wallet := w; chain_id := xr_chain_id r;
     asset := xr_asset r; amount := xr_amount r; intent := TransferIntentV1 (xr_pay_to r);
     deadline := xr_expires_at r; idempotency_key := "x402:" +:+ xr_nonce r; mandate_id := None;
     quote_reference := Some (xr_resource r) |}.

Definition x402_authorize (new_id : Z) (r : X402PaymentRequestV1) (principal w : string) : M S ProposalV1 :=
  p ← lift (ProposalV1_validate (x402_request_proposal new_id r principal w) (aware (xr_expires_at r)));
  submit_proposal p;;
  mret p.

(** [DelegatedMandateAdapter.authorize] *)
Definition delegated_authorize (request : DelegatedMandateRequestV1) : M S ProposalV1 :=
  let p := dr_proposal request in
  let cart := dr_cart request in
  h ← lift (proposal_hash p);
  lift (raise_if (bool_decide (cm_proposal_hash cart ≠ h))
    (ValueError "cart is bound to a different proposal"));;
  lift (raise_if (bool_decide (mandate_id p ≠ Some (cm_mandate_id cart)))
    (ValueError "proposal is bound to a different mandate"));;
  lift (raise_if (bool_decide (cm_chain_id cart ≠ chain_id p) || bool_decide (cm_asset cart ≠ asset p))
    (ValueError "cart scope does not match proposal scope"));;
  lift (raise_if (bool_decide (cm_amount cart ≠ amount p))
    (ValueError "cart amount does not match proposal amount"));;
  lift (raise_if (match intent p with
                  | TransferIntentV1 recipient => bool_decide (recipient ≠ cm_merchant cart)
                  | SwapIntentV1 _ _ _ _ _ => true
                  end)
    (ValueError "cart merchant does not match proposal recipient"));;
  submit_proposal p;;
  mret p.
End protocols.
