(* ===== verification/AdaptersFacts.v ===== *)
(** What the adapters submit: only proposals inside the scope of their request, and one
    reservation per x402 nonce. *)
From Stdlib Require Import ZArith Lia Ascii String.
From stdpp Require Import base gmap list strings pretty.
From S2P Require Import Prelude Bytes Regex Canonical CanonicalFacts Contracts ContractsFacts.
From S2P Require Import Policy PolicyFacts State StateFacts Mandates Adapters.

Open Scope Z_scope.

(** The proposal is submitted, once, and returned. *)
Definition submitted {S} (submit : ProposalV1 → M S unit) (p : ProposalV1) (s : S)
    : S * result ProposalV1 :=
  let '(s', r) := submit p s in (s', (λ _, p) <$> r).

Lemma submit_then {S} (submit : ProposalV1 → M S unit) p s :
  (submit p;; mret p) s = submitted submit p s.
Proof. unfold submitted, mbind, M_bind. by destruct (submit p s) as [s' [[]|e]]. Qed.

(** A guard of a method. *)
Lemma guard_step {S A} b e (k : unit → M S A) s :
  (lift (raise_if b e) ≫= k) s = if b then (s, Err e) else k tt s.
Proof. by destruct b. Qed.

Lemma lift_step {S A B} (r : result A) (k : A → M S B) s :
  (lift r ≫= k) s = match r with Ok a => k a s | Err e => (s, Err e) end.
Proof. by destruct r. Qed.

(** Pass a guard, or show the refusal. *)
Ltac refused := right; split; [naive_solver|by eexists].

(** * Models *)

Definition in_scope (request : ModelRequestV1) (p : ProposalV1) : Prop :=
  principal_id p = mr_principal_id request ∧ wallet p = mr_wallet request
  ∧ chain_id p = mr_chain_id request ∧ asset p ∈ mr_allowed_assets request.

Lemma adapter_execute_spec {S} propose parse (submit : ProposalV1 → M S unit) request s s1 d raw dl :
  propose request s = (s1, Ok d) → parse d = Ok (raw, dl) →
  match ProposalV1_validate raw dl with
  | Err e => adapter_execute propose parse submit request s = (s1, Err e)
  | Ok p =>
      (in_scope request p ∧ adapter_execute propose parse submit request s = submitted submit p s1)
      ∨ (~ in_scope request p
         ∧ ∃ msg, adapter_execute propose parse submit request s = (s1, Err (ValueError msg)))
  end.
Proof.
  intros Hp Hd. assert (adapter_execute propose parse submit request s =
    (p ← lift (ProposalV1_validate raw dl);
     lift (raise_if (bool_decide (principal_id p ≠ mr_principal_id request))
       (ValueError "model changed the authenticated principal"));;
     lift (raise_if (bool_decide (wallet p ≠ mr_wallet request))
       (ValueError "model changed the authorized wallet"));;
     lift (raise_if (bool_decide (chain_id p ≠ mr_chain_id request))
       (ValueError "model changed the authorized chain"));;
     lift (raise_if (negb (is_in (asset p) (mr_allowed_assets request)))
       (ValueError "model selected an asset outside its request scope"));;
     submit p;; mret p) s1) as ->.
  { unfold adapter_execute. unfold mbind at 1, M_bind at 1. rewrite Hp. rewrite lift_step, Hd. done. }
  rewrite lift_step. destruct (ProposalV1_validate raw dl) as [p|e]; [|done]. unfold in_scope.
  rewrite guard_step. case_bool_decide as H1; [refused|]. rewrite guard_step.
  case_bool_decide as H2; [refused|]. rewrite guard_step. case_bool_decide as H3; [refused|].
  rewrite guard_step, submit_then. destruct (is_in (asset p) _) eqn:H4; cbn [negb].
  - left. apply is_in_true in H4. by rewrite H1, H2, H3.
  - right. split; [|by eexists]. intros (_ & _ & _ & ?%is_in_true). congruence.
Qed.

(** * x402 *)

Section protocols.
Context `{!Externals} {S : Type}.

Lemma matches_lit t s : matches (lit t) s → s = t.
Proof.
  revert s. induction t as [|c t IH]; intros s; cbn [lit]; [by rewrite matches_empty|].
  rewrite matches_cat. intros (y & z & -> & Hy & ->%IH). inversion Hy as [|p d Hd| | | | |]; subst.
  by apply bool_decide_eq_true in Hd as ->.
Qed.

Lemma matches_up_to n p s : matches (up_to n (Char p)) s → (String.length s ≤ n)%nat.
Proof.
  revert s. induction n as [|n IH]; intros s; cbn [up_to]; [by intros ->%matches_empty|].
  unfold opt. rewrite matches_alt, matches_cat. intros [(y & z & -> & Hy & Hz%IH)| ->%matches_empty]; [|cbn; lia].
  inversion Hy; subst. rewrite str_length_app. cbn. lia.
Qed.

Lemma resource_length s : full_match resource_re s = true → length_between 1 256 s = true.
Proof.
  rewrite full_match_spec. unfold resource_re. cbv zeta. rewrite matches_cat.
  intros (y & z & -> & ->%matches_lit & Hz). apply matches_cat in Hz as (c & t & -> & Hc & Ht%matches_up_to).
  inversion Hc; subst. unfold length_between. rewrite !str_length_app. cbn [String.length].
  rewrite andb_true_iff, !Nat.leb_le. lia.
Qed.

(** What validation leaves of a payment request. *)
Record payable (now : Z) (r : X402PaymentRequestV1) : Prop := {
  py_chain : 0 < xr_chain_id r;
  py_asset : AssetId (xr_asset r) = true;
  py_amount : 0 < xr_amount r;
  py_recipient : Address (xr_pay_to r) = true ∧ str_lower (xr_pay_to r) = xr_pay_to r;
  py_resource : length_between 1 256 (xr_resource r) = true;
  py_nonce : length_between 8 96 (xr_nonce r) = true;
  py_live : now < xr_expires_at r;
}.

Lemma x402_validated now raw dl r : X402PaymentRequestV1_validate now raw dl = Ok r → payable now r.
Proof.
  intros Hr. unfold X402PaymentRequestV1_validate in Hr. ok_inv Hr.
  match goal with H : try_except _ _ _ = Ok _ |- _ => apply try_except_Ok in H; [|done]; rename H into He end.
  injection Hr as <-. unfold normalize_expiry in He. ok_inv He. injection He as <-.
  ok_invs. prop_of_bool. destruct_and!. constructor; cbn; try done.
  - split; [by apply Address_lower|apply str_lower_idem].
  - by apply resource_length.
Qed.

(** The proposal a payment request stands for. *)
Definition x402_normal (new_id : Z) (r : X402PaymentRequestV1) (principal w : string) : ProposalV1 :=
  x402_request_proposal new_id r principal (str_lower w).

Lemma x402_key_fits nonce : length_between 8 96 nonce = true → IdempotencyKey ("x402:" +:+ nonce) = true.
Proof.
  unfold IdempotencyKey, length_between. rewrite !andb_true_iff, !Nat.leb_le, str_length_app. cbn. lia.
Qed.

Lemma x402_authorize_spec (submit : ProposalV1 → M S unit) now r new_id principal w s :
  payable now r → uuid_version new_id = Some 7 → length_between 1 128 principal = true → Address w = true →
  x402_authorize submit new_id r principal w s = submitted submit (x402_normal new_id r principal w) s.
Proof.
  intros [Hc Ha Hm [Hr1 Hr2] Hres Hn Hl] Hid Hp Hw. apply x402_key_fits in Hn.
  unfold x402_authorize. rewrite lift_step.
  assert (ProposalV1_validate (x402_request_proposal new_id r principal w) (aware (xr_expires_at r))
    = Ok (x402_normal new_id r principal w)) as ->; [|apply submit_then].
  unfold ProposalV1_validate, x402_normal, x402_request_proposal.
  cbn [proposal_id principal_id wallet chain_id asset amount intent deadline idempotency_key
       mandate_id quote_reference opt_all].
  guards_pass. unfold require_uuid7. rewrite Hid, bool_decide_false by tauto. cbn [IntentV1_validate].
  rewrite Hr1. cbn. by rewrite Hr2, Z.sub_0_r.
Qed.

(** * Delegated mandates *)

(** The cart was made for this proposal. *)
Definition cart_matches (p : ProposalV1) (c : CartMandateV1) : Prop :=
  proposal_hash p = Ok (cm_proposal_hash c) ∧ mandate_id p = Some (cm_mandate_id c)
  ∧ chain_id p = cm_chain_id c ∧ asset p = cm_asset c ∧ amount p = cm_amount c
  ∧ intent p = TransferIntentV1 (cm_merchant c).

Lemma delegated_authorize_spec (submit : ProposalV1 → M S unit) p c s :
  (cart_matches p c
   ∧ delegated_authorize submit {| dr_proposal := p; dr_cart := c |} s = submitted submit p s)
  ∨ (~ cart_matches p c
     ∧ ∃ e, delegated_authorize submit {| dr_proposal := p; dr_cart := c |} s = (s, Err e)).
Proof.
  unfold delegated_authorize, cart_matches. cbn [dr_proposal dr_cart]. rewrite lift_step.
  destruct (proposal_hash p) as [h|e]; [|refused].
  rewrite guard_step. case_bool_decide as H1; [refused|].
  rewrite guard_step. case_bool_decide as H2; [refused|].
  rewrite guard_step. case_bool_decide as H3; [refused|]. case_bool_decide as H4; [refused|]. cbn [orb].
  rewrite guard_step. case_bool_decide as H5; [refused|]. rewrite guard_step, submit_then.
  destruct (intent p) as [to|]; [|refused]. case_bool_decide as H6; [refused|].
  left. by rewrite H1, H2, H3, H4, H5, H6.
Qed.

(** C20: the adapters submit only what their request allows.  Whatever a model returns,
    [ModelProposalAdapter] submits it, once, exactly when it is a valid proposal for the
    principal, wallet and chain of the request in one of its assets; everything else is
    refused before the gateway sees it.  A valid x402 request always becomes one proposal,
    that pays its amount to its recipient and expires with it.  [DelegatedMandateAdapter]
    submits exactly the proposals whose cart names the same proposal hash, mandate, chain,
    asset, amount and recipient. *)
Theorem adapters_submit_in_scope propose parse (submit : ProposalV1 → M S unit) :
  (∀ request s s1 d raw dl, propose request s = (s1, Ok d) → parse d = Ok (raw, dl) →
     match ProposalV1_validate raw dl with
     | Err e => adapter_execute propose parse submit request s = (s1, Err e)
     | Ok p =>
         (in_scope request p ∧ adapter_execute propose parse submit request s = submitted submit p s1)
         ∨ (~ in_scope request p
            ∧ ∃ msg, adapter_execute propose parse submit request s = (s1, Err (ValueError msg)))
     end)
  ∧ (∀ now raw dl r new_id principal w s,
       X402PaymentRequestV1_validate now raw dl = Ok r → uuid_version new_id = Some 7 →
       length_between 1 128 principal = true → Address w = true →
       ∃ p, x402_authorize submit new_id r principal w s = submitted submit p s
         ∧ principal_id p = principal ∧ wallet p = str_lower w
         ∧ intent p = TransferIntentV1 (str_lower (xr_pay_to raw)) ∧ amount p = xr_amount raw
         ∧ asset p = xr_asset raw ∧ chain_id p = xr_chain_id raw ∧ now < deadline p
         ∧ idempotency_key p = "x402:" +:+ xr_nonce raw)
  ∧ (∀ p c s,
       (cart_matches p c
        ∧ delegated_authorize submit {| dr_proposal := p; dr_cart := c |} s = submitted submit p s)
       ∨ (~ cart_matches p c
          ∧ ∃ e, delegated_authorize submit {| dr_proposal := p; dr_cart := c |} s = (s, Err e))).
Proof.
  split_and!.
  - intros. by eapply adapter_execute_spec.
  - intros now raw dl r new_id principal w s Hr Hid Hp Hw. exists (x402_normal new_id r principal w).
    pose proof (x402_validated _ _ _ _ Hr) as Hpay. split; [by eapply x402_authorize_spec|].
    destruct Hpay as [_ _ _ _ _ _ Hlive]. unfold X402PaymentRequestV1_validate in Hr. ok_inv Hr.
    injection Hr as <-. by split_and!.
  - intros p c s. apply delegated_authorize_spec.
Qed.
End protocols.

(** * x402 payments through the state store *)

(** The gateway reserves the proposal under a policy. *)
Definition reserve_gateway (d : reserve_draws) (policy : PolicyV1) (p : ProposalV1)
    : M MemoryStateStore unit := reserve d p policy;; mret tt.

(** An x402 nonce reserves once.  After a payment request was turned into a proposal and
    reserved, any other request of that principal with the same nonce, for whatever amount
    and recipient, under whatever policy and however many store operations later, leaves the
    store as it is: no second reservation is made. *)
Theorem x402_nonce_reserves_once `{!Externals} P s s1 now now' r r' id id' w w' principal d d' policy policy' :
  store_reach P s → payable now r → payable now' r' → xr_nonce r' = xr_nonce r →
  uuid_version id = Some 7 → uuid_version id' = Some 7 → length_between 1 128 principal = true →
  Address w = true → Address w' = true →
  _reservations s !! new_reservation d = None →
  _idempotency s !! (principal, "x402:" +:+ xr_nonce r) = None →
  store_later (fst (x402_authorize (reserve_gateway d policy) id r principal w s)) s1 →
  fst (x402_authorize (reserve_gateway d' policy') id' r' principal w' s1) = s1.
Proof.
  intros Hr Hpay Hpay' Hn Hid Hid' Hp Hw Hw' Hfresh Hnew Hl.
  rewrite (x402_authorize_spec _ now) in Hl by done. rewrite (x402_authorize_spec _ now') by done.
  assert (∀ d policy p s, fst (submitted (reserve_gateway d policy) p s) = fst (reserve d p policy s)) as Hg.
  { intros d0 pol p0 s0. unfold submitted, reserve_gateway, mbind, M_bind.
    by destruct (reserve d0 p0 pol s0) as [s2 [x|e]]. }
  rewrite Hg in Hl |- *.
  destruct (reserve_idempotent P s d (x402_normal id r principal w) policy s1 d'
    (x402_normal id' r' principal w') policy') as (rec & _ & ->); try done.
  - split; [apply Hpay|done].
  - cbn. by rewrite Hn.
Qed.

(** * Witnesses *)

Definition sample_payment : X402PaymentRequestV1 :=
  {| xr_scheme := exact_scheme; xr_chain_id := 31337; xr_asset := "NATIVE:31337"; xr_amount := 250;
     xr_pay_to := "0xFFEEDDCCBBAA99887766554433221100FFEEDDCC"; xr_resource := "https://merchant.test/data";
     xr_nonce := "payment-1"; xr_expires_at := seconds 2000 |}.
Definition accepted_payment : X402PaymentRequestV1 :=
  Eval vm_compute in match X402PaymentRequestV1_validate (seconds 1000) sample_payment (aware (seconds 2000)) with
                     | Ok r => r | Err _ => sample_payment end.
Definition larger_payment : X402PaymentRequestV1 :=
  {| xr_scheme := exact_scheme; xr_chain_id := 31337; xr_asset := "NATIVE:31337"; xr_amount := 999;
     xr_pay_to := "0xffeeddccbbaa99887766554433221100ffeeddcc"; xr_resource := "https://merchant.test/data";
     xr_nonce := "payment-1"; xr_expires_at := seconds 2000 |}.

Lemma accepted_payment_valid :
  X402PaymentRequestV1_validate (seconds 1000) sample_payment (aware (seconds 2000)) = Ok accepted_payment.
Proof. vm_compute. reflexivity. Qed.
Lemma larger_payment_valid :
  X402PaymentRequestV1_validate (seconds 1000) larger_payment (aware (seconds 2000)) = Ok larger_payment.
Proof. vm_compute. reflexivity. Qed.

Definition new_uuid : Z := 0x018bcfe56800700080000000000000ab.

Lemma adapters_submit_in_scope_witness :
  ∃ p, x402_authorize (λ p, update (cons p)) new_uuid accepted_payment "agent-1" (wallet sample_proposal) []
    = ([p], Ok p) ∧ amount p = 250.
Proof.
  destruct (@adapters_submit_in_scope sized_externals (list ProposalV1) (λ _, raise AssertionError)
    (λ _, Err AssertionError) (λ p, update (cons p))) as (_ & H & _).
  destruct (H (seconds 1000) sample_payment (aware (seconds 2000)) accepted_payment new_uuid "agent-1"
    (wallet sample_proposal) [] accepted_payment_valid eq_refl eq_refl eq_refl)
    as (p & Hp & _ & _ & _ & Ha & _).
  exists p. split; [exact Hp|exact Ha].
Defined.

Lemma x402_nonce_reserves_once_witness :
  let gateway t rid := reserve_gateway (sample_draws (seconds t) rid) sample_policy in
  let s1 := fst (x402_authorize (gateway 1000 7) new_uuid accepted_payment "agent-1"
                   (wallet sample_proposal) store_init) in
  size (_reservations s1) = 1%nat
  ∧ fst (x402_authorize (gateway 1001 8) (new_uuid + 1) larger_payment "agent-1" (wallet sample_proposal) s1) = s1.
Proof.
  intros gateway s1. split; [vm_compute; reflexivity|].
  apply (@x402_nonce_reserves_once sized_externals (λ _, True) store_init s1 (seconds 1000) (seconds 1000)
    accepted_payment larger_payment new_uuid (new_uuid + 1) (wallet sample_proposal) (wallet sample_proposal)
    "agent-1" (sample_draws (seconds 1000) 7) (sample_draws (seconds 1001) 8) sample_policy sample_policy).
  - constructor.
  - exact (x402_validated _ _ _ _ accepted_payment_valid).
  - exact (x402_validated _ _ _ _ larger_payment_valid).
  - reflexivity.
  - vm_compute. reflexivity.
  - vm_compute. reflexivity.
  - reflexivity.
  - reflexivity.
  - reflexivity.
  - reflexivity.
  - reflexivity.
  - constructor.
Defined.
