(* ===== verification/Eip1559.v ===== *)
(** The fail-closed EIP-1559 codec (src/agentguard-testbed/src/aegisledger/eip1559.py):
    the RLP reader and writer and the constrained unsigned type-2 transaction,
    with both round trips.  Offsets and lengths are unbounded integers, as in
    Python; reading a byte out of range raises [IndexError]. *)
From Stdlib Require Import ZArith Lia Ascii String.
From Stdlib Require Strings.Byte.
From stdpp Require Import base list strings.
From S2P Require Import Prelude Bytes.

Open Scope Z_scope.

(** * Data *)

Definition MAX_TRANSACTION_BYTES : Z := 128 * 1024.
Definition MAX_RLP_DEPTH : Z := 4.

Record UnsignedEip1559 := {
  tx_chain_id : Z;
  tx_nonce : Z;
  tx_max_priority_fee_per_gas : Z;
  tx_max_fee_per_gas : Z;
  tx_gas_limit : Z;
  tx_to : string;
  tx_value : Z;
  tx_calldata : string;
}.

#[warnings="-register-all"]
Inductive RlpValue :=
  | RBytes (b : bytes)
  | RList (items : list RlpValue).

(** * Reading byte strings *)

Definition zlen {A} (l : list A) : Z := Z.of_nat (length l).
(** [data[i]] for an index that is not negative. *)
Definition byte_at (data : bytes) (i : Z) : result Z :=
  or_raise (bz <$> data !! Z.to_nat i) (IndexError "index out of range").
(** [data[i:j]] for [0 <= i <= j]; past the end there is nothing. *)
Definition slice (data : bytes) (i j : Z) : bytes :=
  take (Z.to_nat (j - i)) (drop (Z.to_nat i) data).
(** [s[2:]] *)
Definition str_drop2 (s : string) : string :=
  match s with String _ (String _ r) => r | _ => "" end.

(** * The RLP reader *)

Definition _read_length (data : bytes) (offset length_size : Z) : result (Z * Z) :=
  let end_ := offset + length_size in
  invalid_length ← if (length_size =? 0) || (zlen data <? end_) then Ok true
                   else b ← byte_at data offset; Ok (b =? 0);
  raise_if invalid_length (Eip1559DecodeError "invalid RLP length");;
  Ok (from_bytes_be (slice data offset end_), end_).

(** One [fuel] unit per call and per loop test; [decode_fuel] below is enough
    for any input (Eip1559Facts.v). *)
Fixpoint _decode_rlp (fuel : nat) (data : bytes) (offset depth : Z) : result (RlpValue * Z) :=
  match fuel with
  | O => Err OutOfFuel
  | S fuel =>
    raise_if (zlen data <=? offset) (Eip1559DecodeError "truncated RLP item");;
    raise_if (MAX_RLP_DEPTH <? depth) (Eip1559DecodeError "RLP nesting is too deep");;
    prefix ← byte_at data offset;
    if prefix <=? 0x7F then Ok (RBytes (slice data offset (offset + 1)), offset + 1)
    else if prefix <=? 0xB7 then
      let len := prefix - 0x80 in
      let start := offset + 1 in
      let end_ := start + len in
      raise_if (zlen data <? end_) (Eip1559DecodeError "truncated RLP string");;
      noncanonical ← if len =? 1 then b ← byte_at data start; Ok (b <? 0x80) else Ok false;
      raise_if noncanonical (Eip1559DecodeError "non-canonical RLP string");;
      Ok (RBytes (slice data start end_), end_)
    else if prefix <=? 0xBF then
      '(len, start) ← _read_length data (offset + 1) (prefix - 0xB7);
      raise_if (len <? 56) (Eip1559DecodeError "non-canonical long RLP string");;
      let end_ := start + len in
      raise_if (zlen data <? end_) (Eip1559DecodeError "truncated long RLP string");;
      Ok (RBytes (slice data start end_), end_)
    else
      '(len, start) ←
        (if prefix <=? 0xF7 then Ok (prefix - 0xC0, offset + 1)
         else
           '(len, start) ← _read_length data (offset + 1) (prefix - 0xF7);
           raise_if (len <? 56) (Eip1559DecodeError "non-canonical long RLP list");;
           Ok (len, start));
      let end_ := start + len in
      raise_if (zlen data <? end_) (Eip1559DecodeError "truncated RLP list");;
      '(items, cursor) ← _decode_items fuel data start end_ depth;
      raise_if (negb (cursor =? end_)) (Eip1559DecodeError "invalid RLP list length");;
      Ok (RList items, end_)
  end
(** The [while cursor < end] loop of a list. *)
with _decode_items (fuel : nat) (data : bytes) (cursor end_ depth : Z)
    : result (list RlpValue * Z) :=
  match fuel with
  | O => Err OutOfFuel
  | S fuel =>
    if cursor <? end_ then
      '(item, cursor) ← _decode_rlp fuel data cursor (depth + 1);
      raise_if (end_ <? cursor) (Eip1559DecodeError "RLP child exceeds its list");;
      '(items, cursor) ← _decode_items fuel data cursor end_ depth;
      Ok (item :: items, cursor)
    else Ok ([], cursor)
  end.

Definition decode_fuel (data : bytes) : nat := 2 * length data + 2.

Definition _integer (value : RlpValue) (name : string) : result Z :=
  match value with
  | RList _ => Err (Eip1559DecodeError (name +:+ " must be an RLP byte string"))
  | RBytes b =>
      raise_if (negb (no_leading_zero b))
        (Eip1559DecodeError (name +:+ " has a non-canonical leading zero"));;
      Ok (from_bytes_be b)
  end.

(** * The transaction reader *)

Definition decode_fields (transaction : RlpValue) : result UnsignedEip1559 :=
  match transaction with
  | RList [chain_id; nonce; priority_fee; max_fee; gas_limit; to; value; calldata; access_list] =>
      to ← match to with
           | RBytes b => if zlen b =? 20 then Ok b
                         else Err (Eip1559DecodeError
                           "contract creation and malformed targets are not authorized")
           | RList _ => Err (Eip1559DecodeError
                           "contract creation and malformed targets are not authorized")
           end;
      calldata ← match calldata with
                 | RBytes b => Ok b
                 | RList _ => Err (Eip1559DecodeError "calldata must be an RLP byte string")
                 end;
      match access_list with
      | RList [] => Ok tt
      | _ => Err (Eip1559DecodeError "access lists are not authorized")
      end;;
      chain_id ← _integer chain_id "chain_id";
      nonce ← _integer nonce "nonce";
      priority_fee ← _integer priority_fee "max_priority_fee_per_gas";
      max_fee ← _integer max_fee "max_fee_per_gas";
      gas_limit ← _integer gas_limit "gas_limit";
      value ← _integer value "value";
      raise_if ((chain_id <=? 0) || (gas_limit <=? 0) || (max_fee <=? 0))
        (Eip1559DecodeError "chain, gas limit, and maximum fee must be positive");;
      raise_if (max_fee <? priority_fee) (Eip1559DecodeError "priority fee exceeds maximum fee");;
      Ok {| tx_chain_id := chain_id; tx_nonce := nonce;
            tx_max_priority_fee_per_gas := priority_fee; tx_max_fee_per_gas := max_fee;
            tx_gas_limit := gas_limit; tx_to := "0x" +:+ hex to; tx_value := value;
            tx_calldata := "0x" +:+ hex calldata |}
  | _ => Err (Eip1559DecodeError "type-2 transaction must contain exactly nine fields")
  end.

Definition decode_unsigned_eip1559 (payload : string) : result UnsignedEip1559 :=
  raise_if (negb (startswith "0x02" payload) || negb (Nat.even (String.length payload)))
    (Eip1559DecodeError "payload must be an even-length 0x02 hex value");;
  encoded ← or_raise (fromhex (str_drop2 payload))
    (Eip1559DecodeError "payload contains invalid hexadecimal data");
  raise_if (MAX_TRANSACTION_BYTES <? zlen encoded)
    (Eip1559DecodeError "payload exceeds the transaction size limit");;
  '(transaction, cursor) ← _decode_rlp (decode_fuel encoded) encoded 1 0;
  raise_if (negb (cursor =? zlen encoded))
    (Eip1559DecodeError "payload contains trailing bytes");;
  decode_fields transaction.

(** * The writer *)

Definition _encode_bytes (value : bytes) : result bytes :=
  single ← if zlen value =? 1 then b ← byte_at value 0; Ok (b <? 0x80) else Ok false;
  if (single : bool) then Ok value
  else if zlen value <? 56 then
    p ← bytes1 (0x80 + zlen value); Ok (p ++ value)
  else
    let len := min_bytes (zlen value) in
    p ← bytes1 (0xB7 + zlen len); Ok (p ++ len ++ value).

Definition _encode_integer (value : Z) : result bytes :=
  raise_if (value <? 0) (ValueError "EIP-1559 integers cannot be negative");;
  let encoded := if value =? 0 then [] else min_bytes value in
  _encode_bytes encoded.

Definition _encode_list (items : list bytes) : result bytes :=
  let payload := concat items in
  if zlen payload <? 56 then
    p ← bytes1 (0xC0 + zlen payload); Ok (p ++ payload)
  else
    let len := min_bytes (zlen payload) in
    p ← bytes1 (0xF7 + zlen len); Ok (p ++ len ++ payload).

Definition encode_unsigned_eip1559 (tx : UnsignedEip1559) : result string :=
  raise_if (negb (startswith "0x" (tx_to tx)) || negb (Nat.eqb (String.length (tx_to tx)) 42))
    (ValueError "EIP-1559 target must be a 20-byte 0x-prefixed address");;
  raise_if (negb (startswith "0x" (tx_calldata tx))
            || negb (Nat.even (String.length (tx_calldata tx))))
    (ValueError "EIP-1559 calldata must be even-length 0x-prefixed hexadecimal data");;
  target_bytes ← or_raise (fromhex (str_drop2 (tx_to tx)))
    (ValueError "EIP-1559 target or calldata contains invalid hex");
  calldata_bytes ← or_raise (fromhex (str_drop2 (tx_calldata tx)))
    (ValueError "EIP-1559 target or calldata contains invalid hex");
  raise_if ((tx_chain_id tx <=? 0) || (tx_gas_limit tx <=? 0) || (tx_max_fee_per_gas tx <=? 0))
    (ValueError "chain, gas limit, and maximum fee must be positive");;
  raise_if (tx_max_fee_per_gas tx <? tx_max_priority_fee_per_gas tx)
    (ValueError "priority fee exceeds maximum fee");;
  f1 ← _encode_integer (tx_chain_id tx);
  f2 ← _encode_integer (tx_nonce tx);
  f3 ← _encode_integer (tx_max_priority_fee_per_gas tx);
  f4 ← _encode_integer (tx_max_fee_per_gas tx);
  f5 ← _encode_integer (tx_gas_limit tx);
  f6 ← _encode_bytes target_bytes;
  f7 ← _encode_integer (tx_value tx);
  f8 ← _encode_bytes calldata_bytes;
  f9 ← _encode_list [];
  body ← _encode_list [f1; f2; f3; f4; f5; f6; f7; f8; f9];
  let encoded := Byte.x02 :: body in
  raise_if (MAX_TRANSACTION_BYTES <? zlen encoded)
    (ValueError "encoded EIP-1559 transaction exceeds the size limit");;
  Ok ("0x" +:+ hex encoded).

(** * Checks on concrete transactions *)

Definition sample_tx : UnsignedEip1559 :=
  {| tx_chain_id := 31337; tx_nonce := 7; tx_max_priority_fee_per_gas := 1000000000;
     tx_max_fee_per_gas := 2000000000; tx_gas_limit := 21000;
     tx_to := "0x00112233445566778899aabbccddeeff00112233";
     tx_value := 1000000000000000000; tx_calldata := "0xdeadbeef" |}.

Example sample_tx_roundtrip :
  encode_unsigned_eip1559 sample_tx ≫= decode_unsigned_eip1559 = Ok sample_tx.
Proof. vm_compute. reflexivity. Qed.
