(* ===== verification/Eip1559Facts.v ===== *)
(** Correctness of the EIP-1559 codec: the reader terminates on every input,
    the writer's output is read back exactly, and every accepted payload is the
    writer's output for the transaction read from it. *)
From Stdlib Require Import ZArith Lia Ascii String.
From Stdlib Require Strings.Byte.
From stdpp Require Import base list strings.
From S2P Require Import Prelude Bytes Eip1559.

Open Scope Z_scope.

(** * Reading and slicing *)

Lemma zlen_nonneg {A} (l : list A) : 0 ≤ zlen l.
Proof. unfold zlen. lia. Qed.

Lemma zlen_app {A} (l k : list A) : zlen (l ++ k) = zlen l + zlen k.
Proof. unfold zlen. rewrite length_app. lia. Qed.

Lemma zlen_cons {A} (x : A) l : zlen (x :: l) = 1 + zlen l.
Proof. unfold zlen. cbn. lia. Qed.

Lemma zlen_nil {A} : zlen ([] : list A) = 0.
Proof. done. Qed.

Create Rewrite HintDb zlen.
#[export] Hint Rewrite @zlen_app @zlen_cons @zlen_nil : zlen.
Ltac zlen := autorewrite with zlen in *; repeat match goal with
  | |- context [zlen ?l] => lazymatch goal with
      | _ : 0 ≤ zlen l |- _ => fail
      | _ => pose proof (zlen_nonneg l) end
  | _ : context [zlen ?l] |- _ => lazymatch goal with
      | _ : 0 ≤ zlen l |- _ => fail
      | _ => pose proof (zlen_nonneg l) end
  end.

Lemma slice_app pre mid post : slice (pre ++ mid ++ post) (zlen pre) (zlen pre + zlen mid) = mid.
Proof.
  unfold slice, zlen.
  replace (Z.to_nat (Z.of_nat (length pre) + Z.of_nat (length mid) - Z.of_nat (length pre)))
    with (length mid) by lia.
  by rewrite Nat2Z.id, drop_app_length, take_app_length.
Qed.

(** The byte at an index that is in range. *)
Definition byte_in (data : bytes) (i : Z) : Z := from_option bz 0 (data !! Z.to_nat i).

Lemma byte_at_in data i : 0 ≤ i < zlen data → byte_at data i = Ok (byte_in data i).
Proof.
  intros Hi. unfold byte_at, byte_in, zlen in *.
  destruct (lookup_lt_is_Some_2 data (Z.to_nat i)) as [b ->]; [lia|done].
Qed.

Lemma byte_in_app pre b post : byte_in (pre ++ b :: post) (zlen pre) = bz b.
Proof. unfold byte_in, zlen. rewrite Nat2Z.id. by rewrite list_lookup_middle. Qed.

Lemma byte_in_head b rest : byte_in (b :: rest) 0 = bz b.
Proof. done. Qed.

Lemma byte_in_range data i : 0 ≤ byte_in data i < 256.
Proof. unfold byte_in. destruct (data !! _); cbn; [apply bz_range|lia]. Qed.

Lemma slice_length data i j :
  0 ≤ i ≤ j → j ≤ zlen data → zlen (slice data i j) = j - i.
Proof. intros Hij Hj. unfold slice, zlen in *. rewrite length_take, length_drop. lia. Qed.

Lemma slice_split data i j k :
  0 ≤ i ≤ j → j ≤ k → slice data i j ++ slice data j k = slice data i k.
Proof.
  intros Hij Hjk. unfold slice.
  replace (Z.to_nat (k - i)) with (Z.to_nat (j - i) + Z.to_nat (k - j))%nat by lia.
  replace (Z.to_nat j) with (Z.to_nat i + Z.to_nat (j - i))%nat by lia.
  by rewrite <- drop_drop, <- take_take_drop.
Qed.

Lemma slice_one data i :
  0 ≤ i < zlen data → slice data i (i + 1) = [byte_of (byte_in data i)].
Proof.
  intros Hi. unfold slice, byte_in, zlen in *.
  replace (Z.to_nat (i + 1 - i)) with 1%nat by lia.
  destruct (lookup_lt_is_Some_2 data (Z.to_nat i)) as [b Hb]; [lia|].
  rewrite Hb, (drop_S _ b) by done. cbn. by rewrite take_0, byte_of_bz.
Qed.

Lemma slice_head data i j :
  0 ≤ i < j → j ≤ zlen data → ∃ rest, slice data i j = byte_of (byte_in data i) :: rest.
Proof.
  intros Hi Hj. exists (slice data (i + 1) j).
  rewrite <- (slice_split data i (i + 1) j), slice_one by lia. done.
Qed.

Lemma slice_all data : slice data 0 (zlen data) = data.
Proof. unfold slice, zlen. rewrite Z.sub_0_r, Nat2Z.id. cbn. by rewrite firstn_all. Qed.

(** * Every byte that is read is in range *)

Lemma read_length_eq data offset size :
  0 ≤ offset → 0 ≤ size →
  _read_length data offset size
  = (raise_if ((size =? 0) || (zlen data <? offset + size) || (byte_in data offset =? 0))
       (Eip1559DecodeError "invalid RLP length");;
     Ok (from_bytes_be (slice data offset (offset + size)), offset + size)).
Proof.
  intros Ho Hs. unfold _read_length. destruct (Z.eqb_spec size 0); [done|].
  destruct (Z.ltb_spec (zlen data) (offset + size)); [done|]. by rewrite byte_at_in by lia.
Qed.

Lemma decode_rlp_eq fuel data offset depth :
  0 ≤ offset →
  _decode_rlp (S fuel) data offset depth
  = (raise_if (zlen data <=? offset) (Eip1559DecodeError "truncated RLP item");;
     raise_if (MAX_RLP_DEPTH <? depth) (Eip1559DecodeError "RLP nesting is too deep");;
     let prefix := byte_in data offset in
     if prefix <=? 0x7F then Ok (RBytes (slice data offset (offset + 1)), offset + 1)
     else if prefix <=? 0xB7 then
       raise_if (zlen data <? offset + 1 + (prefix - 0x80)) (Eip1559DecodeError "truncated RLP string");;
       raise_if ((prefix - 0x80 =? 1) && (byte_in data (offset + 1) <? 0x80))
         (Eip1559DecodeError "non-canonical RLP string");;
       Ok (RBytes (slice data (offset + 1) (offset + 1 + (prefix - 0x80))), offset + 1 + (prefix - 0x80))
     else if prefix <=? 0xBF then
       '(len, start) ← _read_length data (offset + 1) (prefix - 0xB7);
       raise_if (len <? 56) (Eip1559DecodeError "non-canonical long RLP string");;
       raise_if (zlen data <? start + len) (Eip1559DecodeError "truncated long RLP string");;
       Ok (RBytes (slice data start (start + len)), start + len)
     else
       '(len, start) ←
         (if prefix <=? 0xF7 then Ok (prefix - 0xC0, offset + 1)
          else
            '(len, start) ← _read_length data (offset + 1) (prefix - 0xF7);
            raise_if (len <? 56) (Eip1559DecodeError "non-canonical long RLP list");;
            Ok (len, start));
       raise_if (zlen data <? start + len) (Eip1559DecodeError "truncated RLP list");;
       '(items, cursor) ← _decode_items fuel data start (start + len) depth;
       raise_if (negb (cursor =? start + len)) (Eip1559DecodeError "invalid RLP list length");;
       Ok (RList items, start + len)).
Proof.
  intros Ho. cbn [_decode_rlp]. destruct (Z.leb_spec (zlen data) offset); [done|].
  destruct (MAX_RLP_DEPTH <? depth); [done|]. rewrite (byte_at_in data offset) by lia. cbn [raise_if mbind result_bind].
  cbv zeta. destruct (byte_in data offset <=? 0x7F); [done|]. destruct (byte_in data offset <=? 0xB7); [|done].
  destruct (Z.ltb_spec (zlen data) (offset + 1 + (byte_in data offset - 0x80))); [done|].
  cbn [raise_if mbind result_bind]. destruct (Z.eqb_spec (byte_in data offset - 0x80) 1); [|done].
  by rewrite byte_at_in by lia.
Qed.

Lemma encode_bytes_eq value :
  _encode_bytes value
  = (if (zlen value =? 1) && (byte_in value 0 <? 0x80) then Ok value
     else if zlen value <? 56 then
       p ← bytes1 (0x80 + zlen value); Ok (p ++ value)
     else
       p ← bytes1 (0xB7 + zlen (min_bytes (zlen value))); Ok (p ++ min_bytes (zlen value) ++ value)).
Proof.
  unfold _encode_bytes. destruct (Z.eqb_spec (zlen value) 1); [|done]. by rewrite byte_at_in by lia.
Qed.

(** * The reader always answers *)

Lemma read_length_Ok data offset size n e :
  0 ≤ offset → 0 ≤ size → _read_length data offset size = Ok (n, e) →
  e = offset + size ∧ 0 < size ∧ e ≤ zlen data ∧ byte_in data offset ≠ 0
  ∧ n = from_bytes_be (slice data offset e) ∧ 0 ≤ n.
Proof.
  intros Ho Hs Hr. rewrite read_length_eq in Hr by done. ok_invs. prop_of_bool.
  pose proof (from_bytes_be_bound (slice data offset (offset + size))).
  repeat split; try done; lia.
Qed.

(** The list header: its payload bounds. *)
Lemma decode_progress fuel data :
  (∀ offset depth v c, 0 ≤ offset → _decode_rlp fuel data offset depth = Ok (v, c) →
     offset < c ≤ zlen data) ∧
  (∀ cursor e depth its c, 0 ≤ cursor → _decode_items fuel data cursor e depth = Ok (its, c) →
     cursor ≤ c).
Proof.
  induction fuel as [|fuel [IHd IHi]]; [done|]. split.
  - intros offset depth v c Ho Hd. rewrite decode_rlp_eq in Hd by done. cbv zeta in Hd. ok_invs. prop_of_bool.
    pose proof (byte_in_range data offset).
    destruct (Z.leb_spec (byte_in data offset) 0x7F); [ok_invs; lia|].
    destruct (Z.leb_spec (byte_in data offset) 0xB7);
      [ok_invs; prop_of_bool; lia|].
    destruct (Z.leb_spec (byte_in data offset) 0xBF).
    + apply bind_Ok in Hd as ([n e] & Hr & Hd). apply read_length_Ok in Hr; [|lia..].
      ok_invs; prop_of_bool; lia.
    + apply bind_Ok in Hd as ([n start] & Hr & Hd).
      assert (offset < start ∧ 0 ≤ n) as [? ?].
      { destruct (Z.leb_spec (byte_in data offset) 0xF7); [simplify_eq; lia|].
        apply bind_Ok in Hr as ([n' e'] & Hr & Hr'). apply read_length_Ok in Hr; [|lia..].
        ok_invs; lia. }
      ok_inv Hd. destruct x0 as [its cur]. ok_invs; prop_of_bool; lia.
  - intros cursor e depth its c Hc Hi. cbn [_decode_items] in Hi.
    destruct (Z.ltb_spec cursor e); [|simplify_eq; lia].
    apply bind_Ok in Hi as ([v c1] & Hd & Hi). apply IHd in Hd; [|lia].
    apply bind_Ok in Hi as (? & _ & Hi).
    apply bind_Ok in Hi as ([its' c2] & Hi' & Hi). apply IHi in Hi'; [|lia].
    simplify_eq. lia.
Qed.

(** The one exception class of the reader. *)
Definition is_decode_error (e : exn) : bool :=
  match e with Eip1559DecodeError _ => true | _ => false end.

Lemma read_length_raises data offset size :
  0 ≤ offset → 0 ≤ size → raises is_decode_error (_read_length data offset size).
Proof. intros. rewrite read_length_eq by done. by apply raises_guard. Qed.

Ltac fuel_guard := apply raises_guard; [done|intros ?; prop_of_bool].

(** Enough fuel: two units per remaining byte. *)
Lemma decode_fuel_enough fuel data :
  (∀ offset depth, 0 ≤ offset → (0 < fuel)%nat → 2 * (zlen data - offset) + 1 ≤ Z.of_nat fuel →
     raises is_decode_error (_decode_rlp fuel data offset depth)) ∧
  (∀ cursor e depth, 0 ≤ cursor → (0 < fuel)%nat → e ≤ zlen data →
     2 * (zlen data - cursor) + 2 ≤ Z.of_nat fuel →
     raises is_decode_error (_decode_items fuel data cursor e depth)).
Proof.
  induction fuel as [|fuel [IHd IHi]]; [split; intros; lia|]. split.
  - intros offset depth Ho _ Hf. rewrite decode_rlp_eq by done. cbv zeta. fuel_guard. fuel_guard.
    pose proof (byte_in_range data offset).
    destruct (Z.leb_spec (byte_in data offset) 0x7F); [done|].
    destruct (Z.leb_spec (byte_in data offset) 0xB7); [by repeat fuel_guard|].
    destruct (Z.leb_spec (byte_in data offset) 0xBF).
    + apply raises_bind; [apply read_length_raises; lia|intros [n e] _]. by repeat fuel_guard.
    + apply raises_bind.
      * destruct (Z.leb_spec (byte_in data offset) 0xF7); [done|].
        apply raises_bind; [apply read_length_raises; lia|intros [n e] _]. by repeat fuel_guard.
      * intros [n start] Hr. assert (offset < start) as ?.
        { destruct (Z.leb_spec (byte_in data offset) 0xF7); [simplify_eq; lia|].
          apply bind_Ok in Hr as ([n' e'] & Hr & Hr'). apply read_length_Ok in Hr; [|lia..].
          ok_invs; lia. }
        fuel_guard. apply raises_bind; [apply IHi; lia|].
        intros [its c] _. by repeat fuel_guard.
  - intros cursor e depth Hc _ He Hf. cbn [_decode_items].
    destruct (Z.ltb_spec cursor e); [|done].
    apply raises_bind; [apply IHd; lia|intros [v c1] Hd].
    apply (proj1 (decode_progress fuel data)) in Hd; [|lia]. fuel_guard.
    apply raises_bind; [|by intros [its c]]. apply IHi; lia.
Qed.

(** * What the writer writes, the reader reads back *)

(** [enc] is the encoding of [v]: read from any context it gives [v] back and
    leaves the cursor right after it. *)
Definition reads (enc : bytes) (v : RlpValue) : Prop :=
  enc ≠ [] ∧ ∀ pre post depth fuel, depth ≤ MAX_RLP_DEPTH → (2 ≤ fuel)%nat →
    _decode_rlp fuel (pre ++ enc ++ post) (zlen pre) depth = Ok (v, zlen pre + zlen enc).

Lemma zlen_min_bytes n k : 0 ≤ n < 256 ^ k → 0 ≤ k → zlen (min_bytes n) ≤ k.
Proof. apply min_bytes_small. Qed.

Lemma zlen_min_bytes_pos n : 0 < n → 0 < zlen (min_bytes n).
Proof. intros Hn. by destruct (min_bytes_bounds n Hn). Qed.

(** A guard of the code that arithmetic shows not to raise. *)
Ltac pass_guard :=
  rewrite raise_if_bind;
  lazymatch goal with
  | |- (if ?b then _ else _) = _ =>
      let Hg := fresh in destruct b eqn:Hg; [exfalso; prop_of_bool; zlen; lia|clear Hg]
  end.
(** Decide an integer comparison by arithmetic. *)
Ltac pass_leb x y := destruct (Z.leb_spec x y); [try lia|try lia].

(** Start reading at a known first byte. *)
Lemma decode_at_head fuel pre b rest depth :
  depth ≤ MAX_RLP_DEPTH →
  _decode_rlp (S fuel) (pre ++ b :: rest) (zlen pre) depth
  = let data := pre ++ b :: rest in let offset := zlen pre in
    if bz b <=? 0x7F then Ok (RBytes [b], offset + 1)
    else if bz b <=? 0xB7 then
      raise_if (zlen data <? offset + 1 + (bz b - 0x80))
        (Eip1559DecodeError "truncated RLP string");;
      raise_if ((bz b - 0x80 =? 1) && (byte_in data (offset + 1) <? 0x80))
        (Eip1559DecodeError "non-canonical RLP string");;
      Ok (RBytes (slice data (offset + 1) (offset + 1 + (bz b - 0x80))),
          offset + 1 + (bz b - 0x80))
    else if bz b <=? 0xBF then
      '(len, start) ← _read_length data (offset + 1) (bz b - 0xB7);
      raise_if (len <? 56) (Eip1559DecodeError "non-canonical long RLP string");;
      raise_if (zlen data <? start + len) (Eip1559DecodeError "truncated long RLP string");;
      Ok (RBytes (slice data start (start + len)), start + len)
    else
      '(len, start) ←
        (if bz b <=? 0xF7 then Ok (bz b - 0xC0, offset + 1)
         else
           '(len, start) ← _read_length data (offset + 1) (bz b - 0xF7);
           raise_if (len <? 56) (Eip1559DecodeError "non-canonical long RLP list");;
           Ok (len, start));
      raise_if (zlen data <? start + len) (Eip1559DecodeError "truncated RLP list");;
      '(items, cursor) ← _decode_items fuel data start (start + len) depth;
      raise_if (negb (cursor =? start + len)) (Eip1559DecodeError "invalid RLP list length");;
      Ok (RList items, start + len).
Proof.
  intros Hd. rewrite decode_rlp_eq by apply zlen_nonneg. pass_guard. pass_guard. rewrite byte_in_app. cbv zeta.
  pose proof (slice_app pre [b] rest) as Hs. change (zlen [b]) with 1 in Hs.
  cbn [app] in Hs. by rewrite Hs.
Qed.

(** Reassociate two byte strings. *)
Ltac list_assoc := rewrite <- ?app_assoc; cbn [app]; rewrite <- ?app_assoc; reflexivity.

(** A long form: the length of the length, the length, the payload. *)
Lemma read_length_app pre b n payload post :
  0 < n → n = zlen payload →
  _read_length (pre ++ (b :: min_bytes n ++ payload) ++ post) (zlen pre + 1) (zlen (min_bytes n))
  = Ok (n, zlen pre + 1 + zlen (min_bytes n)).
Proof.
  intros Hn Heq. pose proof (zlen_min_bytes_pos n Hn).
  replace (pre ++ (b :: min_bytes n ++ payload) ++ post)
    with ((pre ++ [b]) ++ min_bytes n ++ (payload ++ post)) by list_assoc.
  replace (zlen pre + 1) with (zlen (pre ++ [b])) by (zlen; lia).
  rewrite read_length_eq by apply zlen_nonneg. rewrite slice_app, from_min_bytes by lia.
  pose proof (min_bytes_no_leading_zero n ltac:(lia)) as Hz.
  assert (∃ h t, min_bytes n = h :: t) as (h & t & Hm)
    by (destruct (min_bytes n); [zlen; lia|eauto]).
  assert (byte_in ((pre ++ [b]) ++ min_bytes n ++ payload ++ post) (zlen (pre ++ [b])) = bz h)
    as -> by (rewrite Hm; apply byte_in_app).
  rewrite Hm in Hz. cbn in Hz.
  assert ((zlen (min_bytes n) =? 0) = false) as -> by (apply Z.eqb_neq; lia).
  assert ((zlen ((pre ++ [b]) ++ min_bytes n ++ payload ++ post)
           <? zlen (pre ++ [b]) + zlen (min_bytes n)) = false) as -> by (apply Z.ltb_ge; zlen; lia).
  by destruct (bz h =? 0).
Qed.

(** The payload of a long form, seen from its context. *)
Lemma long_form pre b n payload post :
  pre ++ (b :: min_bytes n ++ payload) ++ post = (pre ++ b :: min_bytes n) ++ payload ++ post
  ∧ zlen pre + 1 + zlen (min_bytes n) = zlen (pre ++ b :: min_bytes n).
Proof. split; [list_assoc|zlen; lia]. Qed.

(** The payload of a short form, seen from its context. *)
Lemma short_form (pre : bytes) b payload post :
  pre ++ b :: payload ++ post = (pre ++ [b]) ++ payload ++ post
  ∧ zlen pre + 1 = zlen (pre ++ [b]).
Proof. split; [list_assoc|zlen; lia]. Qed.

Lemma encode_bytes_short_reads v b :
  zlen v < 56 → bz b = 0x80 + zlen v → (zlen v =? 1) && (byte_in v 0 <? 0x80) = false →
  reads (b :: v) (RBytes v).
Proof.
  intros Hl Hb H1. split; [done|]. intros pre post depth [|fuel] Hd Hf; [lia|].
  cbn [app]. rewrite decode_at_head by done. cbv zeta.
  pass_leb (bz b) 0x7F; [zlen; lia|]. pass_leb (bz b) 0xB7.
  pass_guard. replace (bz b - 0x80) with (zlen v) by lia.
  destruct (short_form pre b v post) as [-> ->]. rewrite slice_app, raise_if_bind.
  assert ((zlen v =? 1) && (byte_in ((pre ++ [b]) ++ v ++ post) (zlen (pre ++ [b])) <? 128)
          = false) as ->.
  { destruct v as [|c [|]]; [done| |]; [|apply andb_false_intro1, Z.eqb_neq; zlen; lia].
    cbn [app]. rewrite byte_in_app. exact H1. }
  do 2 f_equal. zlen. lia.
Qed.

Lemma encode_bytes_long_reads v b :
  56 ≤ zlen v ≤ MAX_TRANSACTION_BYTES → bz b = 0xB7 + zlen (min_bytes (zlen v)) →
  reads (b :: min_bytes (zlen v) ++ v) (RBytes v).
Proof.
  unfold MAX_TRANSACTION_BYTES. intros Hl Hb. split; [done|].
  pose proof (zlen_min_bytes (zlen v) 8 ltac:(lia) ltac:(lia)).
  pose proof (zlen_min_bytes_pos (zlen v) ltac:(lia)).
  intros pre post depth [|fuel] Hd Hf; [lia|].
  change ((b :: min_bytes (zlen v) ++ v) ++ post) with (b :: (min_bytes (zlen v) ++ v) ++ post).
  rewrite decode_at_head by done. cbv zeta.
  pass_leb (bz b) 0x7F. pass_leb (bz b) 0xB7. pass_leb (bz b) 0xBF.
  replace (bz b - 0xB7) with (zlen (min_bytes (zlen v))) by lia.
  change (b :: (min_bytes (zlen v) ++ v) ++ post) with ((b :: min_bytes (zlen v) ++ v) ++ post).
  rewrite read_length_app by (done || lia). cbn [mbind result_bind].
  destruct (long_form pre b (zlen v) v post) as [-> ->].
  pass_guard. pass_guard. rewrite slice_app. do 2 f_equal. zlen. lia.
Qed.

Lemma encode_bytes_reads v enc :
  _encode_bytes v = Ok enc → zlen enc ≤ MAX_TRANSACTION_BYTES → reads enc (RBytes v).
Proof.
  rewrite encode_bytes_eq. intros He Hmax.
  destruct ((zlen v =? 1) && (byte_in v 0 <? 0x80)) eqn:H1.
  { simplify_eq. prop_of_bool. destruct H1 as [Hl Hb].
    destruct enc as [|b [|]]; [done| |exfalso; zlen; lia]. split; [done|].
    intros pre post depth [|fuel] Hd Hf; [lia|]. cbn [app]. rewrite decode_at_head by done.
    change (byte_in [b] 0) with (bz b) in Hb. by pass_leb (bz b) 0x7F. }
  destruct (Z.ltb_spec (zlen v) 56);
    apply bind_Ok in He as (p & (b & -> & Hb)%bytes1_Ok & [= <-]).
  - by apply encode_bytes_short_reads.
  - apply encode_bytes_long_reads; [|done]. zlen. lia.
Qed.

(** A sequence of encodings is read by the list loop. *)
Lemma decode_items_reads encs vs :
  Forall2 reads encs vs → ∀ pre post depth fuel,
  depth + 1 ≤ MAX_RLP_DEPTH → (length encs + 2 ≤ fuel)%nat →
  _decode_items fuel (pre ++ concat encs ++ post) (zlen pre) (zlen pre + zlen (concat encs)) depth
  = Ok (vs, zlen pre + zlen (concat encs)).
Proof.
  induction 1 as [|enc v encs vs [Hne Hr] _ IH]; intros pre post depth [|fuel] Hd Hf;
    cbn [length] in Hf; try lia; cbn [_decode_items concat].
  - destruct (Z.ltb_spec (zlen pre) (zlen pre + zlen ([] : bytes))); [exfalso; zlen; lia|].
    do 2 f_equal. zlen. lia.
  - assert (0 < zlen enc) by (destruct enc; [done|zlen; lia]).
    destruct (Z.ltb_spec (zlen pre) (zlen pre + zlen (enc ++ concat encs))); [|exfalso; zlen; lia].
    rewrite <- (app_assoc enc), Hr by lia. cbn [mbind result_bind]. pass_guard.
    replace (pre ++ enc ++ concat encs ++ post) with ((pre ++ enc) ++ concat encs ++ post)
      by list_assoc.
    replace (zlen pre + zlen enc) with (zlen (pre ++ enc)) by (zlen; lia).
    replace (zlen pre + zlen (enc ++ concat encs)) with (zlen (pre ++ enc) + zlen (concat encs))
      by (zlen; lia).
    rewrite IH by lia. done.
Qed.

(** A written list is read back, to the depth the reader allows. *)
Lemma encode_list_reads encs vs enc :
  Forall2 reads encs vs → _encode_list encs = Ok enc → zlen enc ≤ MAX_TRANSACTION_BYTES →
  enc ≠ [] ∧ ∀ pre post depth fuel, depth + 1 ≤ MAX_RLP_DEPTH → (length encs + 3 ≤ fuel)%nat →
    _decode_rlp fuel (pre ++ enc ++ post) (zlen pre) depth
    = Ok (RList vs, zlen pre + zlen enc).
Proof.
  unfold _encode_list, MAX_TRANSACTION_BYTES. intros Hr He Hmax.
  destruct (Z.ltb_spec (zlen (concat encs)) 56);
    apply bind_Ok in He as (p & (b & -> & Hb)%bytes1_Ok & [= <-]); (split; [done|]);
    intros pre post depth [|fuel] Hd Hf; try lia.
  - cbn [app].
    rewrite decode_at_head by lia. cbv zeta. zlen.
    pass_leb (bz b) 0x7F. pass_leb (bz b) 0xB7. pass_leb (bz b) 0xBF. pass_leb (bz b) 0xF7.
    cbn [mbind result_bind]. replace (bz b - 0xC0) with (zlen (concat encs)) by lia.
    destruct (short_form pre b (concat encs) post) as [-> ->]. pass_guard.
    rewrite (decode_items_reads encs vs) by (done || lia). cbn [mbind result_bind].
    rewrite Z.eqb_refl, raise_if_bind. cbn [negb]. do 2 f_equal. zlen. lia.
  - pose proof (zlen_min_bytes (zlen (concat encs)) 8 ltac:(zlen; lia) ltac:(lia)).
    pose proof (zlen_min_bytes_pos (zlen (concat encs)) ltac:(lia)).
    set (m := min_bytes (zlen (concat encs))) in *.
    cbn [app].
    rewrite decode_at_head by lia. cbv zeta.
    pass_leb (bz b) 0x7F. pass_leb (bz b) 0xB7. pass_leb (bz b) 0xBF. pass_leb (bz b) 0xF7.
    replace (bz b - 0xF7) with (zlen m) by lia.
    change (b :: (m ++ concat encs) ++ post) with ((b :: m ++ concat encs) ++ post).
    unfold m. rewrite read_length_app by (done || lia). fold m. cbn [mbind result_bind].
    destruct (long_form pre b (zlen (concat encs)) (concat encs) post) as [Happ Hlen].
    fold m in Happ, Hlen. rewrite Happ, Hlen.
    rewrite raise_if_bind. destruct (Z.ltb_spec (zlen (concat encs)) 56); [lia|].
    cbn [mbind result_bind]. pass_guard.
    rewrite (decode_items_reads encs vs) by (done || lia). cbn [mbind result_bind].
    rewrite Z.eqb_refl, raise_if_bind. cbn [negb]. do 2 f_equal. zlen. lia.
Qed.

(** An integer field is written without leading zeros. *)
Lemma encode_integer_bytes z f :
  _encode_integer z = Ok f → ∃ b, _encode_bytes b = Ok f ∧ no_leading_zero b = true
    ∧ from_bytes_be b = z.
Proof.
  unfold _encode_integer. intros Hf. ok_invs. prop_of_bool. eexists. split; [done|].
  destruct (Z.eqb_spec z 0) as [->|]; [done|].
  auto using min_bytes_no_leading_zero, from_min_bytes.
Qed.

Lemma integer_of_bytes b name :
  no_leading_zero b = true → _integer (RBytes b) name = Ok (from_bytes_be b).
Proof. intros Hb. cbn. by rewrite Hb. Qed.

Lemma hex_payload_shape l :
  startswith "0x02" ("0x" +:+ hex (Byte.x02 :: l)) = true
  ∧ Nat.even (String.length ("0x" +:+ hex (Byte.x02 :: l))) = true
  ∧ str_drop2 ("0x" +:+ hex (Byte.x02 :: l)) = hex (Byte.x02 :: l).
Proof.
  split; [exact (startswith_app "0x02" (hex l))|split; [|done]].
  change ("0x" +:+ hex (Byte.x02 :: l)) with (String "0" (String "x" (hex (Byte.x02 :: l)))).
  cbn [String.length]. rewrite hex_length.
  replace (S (S (2 * length (Byte.x02 :: l)))) with (2 * S (length (Byte.x02 :: l)))%nat by lia.
  apply Nat.even_even.
Qed.

(** Text of the form the API produces: "0x" and hexadecimal digits. *)
Lemma prefixed_hex s b :
  startswith "0x" s = true → no_space s = true → fromhex (str_drop2 s) = Some b →
  "0x" +:+ hex b = str_lower s ∧ String.length s = (2 + 2 * length b)%nat.
Proof.
  intros Hs Hns Hb.
  apply startswith_inv in Hs as [t ->].
  change ("0x" ++ t)%string with (String "0" (String "x" t)) in *. rename t into s.
  cbn [str_drop2] in Hb. cbn [no_space] in Hns. prop_of_bool.
  pose proof (fromhex_no_space s b Hb ltac:(tauto)) as Hl. split.
  - cbn [str_lower]. by rewrite <- Hl.
  - cbn [String.length]. rewrite <- (str_lower_length s), <- Hl, hex_length. lia.
Qed.

(** * Claims about the codec *)

(** The transaction a payload stands for: addresses and data in lower case. *)
Definition lower_tx (tx : UnsignedEip1559) : UnsignedEip1559 :=
  {| tx_chain_id := tx_chain_id tx; tx_nonce := tx_nonce tx;
     tx_max_priority_fee_per_gas := tx_max_priority_fee_per_gas tx;
     tx_max_fee_per_gas := tx_max_fee_per_gas tx; tx_gas_limit := tx_gas_limit tx;
     tx_to := str_lower (tx_to tx); tx_value := tx_value tx;
     tx_calldata := str_lower (tx_calldata tx) |}.

Lemma decode_written_fields b1 b2 b3 b4 b5 to b7 data :
  no_leading_zero b1 = true → no_leading_zero b2 = true → no_leading_zero b3 = true →
  no_leading_zero b4 = true → no_leading_zero b5 = true → no_leading_zero b7 = true →
  zlen to = 20 → 0 < from_bytes_be b1 → 0 < from_bytes_be b5 → 0 < from_bytes_be b4 →
  from_bytes_be b3 ≤ from_bytes_be b4 →
  decode_fields (RList [RBytes b1; RBytes b2; RBytes b3; RBytes b4; RBytes b5; RBytes to;
                        RBytes b7; RBytes data; RList []])
  = Ok {| tx_chain_id := from_bytes_be b1; tx_nonce := from_bytes_be b2;
          tx_max_priority_fee_per_gas := from_bytes_be b3;
          tx_max_fee_per_gas := from_bytes_be b4; tx_gas_limit := from_bytes_be b5;
          tx_to := "0x" +:+ hex to; tx_value := from_bytes_be b7;
          tx_calldata := "0x" +:+ hex data |}.
Proof.
  intros. unfold decode_fields. rewrite (proj2 (Z.eqb_eq _ _)) by done.
  rewrite !integer_of_bytes by done. cbn [mbind result_bind].
  pass_guard. by pass_guard.
Qed.

Lemma concat_zlen (a b c d e f g h i : bytes) :
  zlen (concat [a; b; c; d; e; f; g; h; i])
  = zlen a + zlen b + zlen c + zlen d + zlen e + zlen f + zlen g + zlen h + zlen i.
Proof. cbn [concat]. zlen. lia. Qed.

Lemma encode_list_zlen items enc :
  _encode_list items = Ok enc → zlen (concat items) < zlen enc.
Proof.
  unfold _encode_list. case_match; intros He;
    apply bind_Ok in He as (p & (b & -> & Hb)%bytes1_Ok & [= <-]); zlen; lia.
Qed.

(** The reader on the bytes the writer produced for nine fields. *)
Lemma decode_written f1 f2 f3 f4 f5 f6 f7 f8 b1 b2 b3 b4 b5 b6 b7 b8 body :
  Forall2 (λ f b, _encode_bytes b = Ok f) [f1; f2; f3; f4; f5; f6; f7; f8]
    [b1; b2; b3; b4; b5; b6; b7; b8] →
  _encode_list [f1; f2; f3; f4; f5; f6; f7; f8; [byte_of 0xC0]] = Ok body →
  zlen body < MAX_TRANSACTION_BYTES →
  _decode_rlp (decode_fuel (Byte.x02 :: body)) (Byte.x02 :: body) 1 0
  = Ok (RList [RBytes b1; RBytes b2; RBytes b3; RBytes b4; RBytes b5; RBytes b6; RBytes b7;
               RBytes b8; RList []], 1 + zlen body).
Proof.
  intros He Hbody Hmax. pose proof (encode_list_zlen _ _ Hbody) as Hlen.
  rewrite concat_zlen in Hlen.
  assert (Forall2 reads [f1; f2; f3; f4; f5; f6; f7; f8] (RBytes <$>
    [b1; b2; b3; b4; b5; b6; b7; b8])) as Hr.
  { apply Forall2_fmap_r. apply Forall2_cons_iff in He.
    repeat (rewrite Forall2_cons_iff in He || rewrite Forall2_cons_iff).
    destruct_and!. zlen. split_and!; try (apply encode_bytes_reads; [done|lia]). done. }
  assert (reads [byte_of 0xC0] (RList [])) as H9.
  { destruct (encode_list_reads [] [] [byte_of 0xC0]) as [Hne H9]; [done|done|done|].
    split; [done|]. intros pre post depth [|[|fuel]] Hd Hf; try lia.
    cbn [app]. rewrite decode_at_head by done. cbv zeta.
    change (bz (byte_of 0xC0)) with 0xC0. cbn [Z.leb Z.compare Pos.compare Pos.compare_cont].
    cbn [mbind result_bind]. pass_guard. cbn [_decode_items].
    destruct (Z.ltb_spec (zlen pre + 1) (zlen pre + 1 + (0xC0 - 0xC0))); [lia|].
    cbn [mbind result_bind]. pass_guard. do 2 f_equal. zlen. lia. }
  assert (Forall2 reads [[byte_of 0xC0]] [RList []]) as Hlast by auto.
  pose proof (Forall2_app Hr Hlast) as Hall.
  destruct (encode_list_reads _ _ _ Hall Hbody) as [Hne Hd]; [lia|].
  specialize (Hd [Byte.x02] [] 0 (decode_fuel (Byte.x02 :: body))).
  rewrite app_nil_r in Hd. apply Hd; [done|].
  assert (9 ≤ zlen body).
  { assert (∀ e v, reads e v → 1 ≤ zlen e) as Hpos.
    { intros e v [Hn _]. destruct e; [done|zlen; lia]. }
    cbn [fmap list_fmap] in Hr. repeat rewrite Forall2_cons_iff in Hr. destruct_and!.
    repeat match goal with H : reads _ _ |- _ => apply Hpos in H end. lia. }
  unfold decode_fuel, zlen in *. cbn [length app]. lia.
Qed.

Lemma decode_hex_payload body :
  zlen (Byte.x02 :: body) ≤ MAX_TRANSACTION_BYTES →
  decode_unsigned_eip1559 ("0x" +:+ hex (Byte.x02 :: body))
  = '(transaction, cursor) ← _decode_rlp (decode_fuel (Byte.x02 :: body)) (Byte.x02 :: body) 1 0;
    raise_if (negb (cursor =? zlen (Byte.x02 :: body)))
      (Eip1559DecodeError "payload contains trailing bytes");;
    decode_fields transaction.
Proof.
  intros Hmax. unfold decode_unsigned_eip1559.
  destruct (hex_payload_shape body) as (-> & -> & ->). rewrite raise_if_bind. cbn [negb orb].
  rewrite fromhex_hex. cbn [or_raise]. cbn [mbind result_bind]. by pass_guard.
Qed.

(** A target that is not 20 bytes is refused before anything else is read. *)
Lemma decode_fields_target v1 v2 v3 v4 v5 to v7 v8 v9 :
  zlen to ≠ 20 →
  decode_fields (RList [v1; v2; v3; v4; v5; RBytes to; v7; v8; v9])
  = Err (Eip1559DecodeError "contract creation and malformed targets are not authorized").
Proof. intros Hto. unfold decode_fields. by rewrite (proj2 (Z.eqb_neq _ _)). Qed.

(** The transaction with the bytes of its target and calldata printed back. *)
Definition printed_tx (tx : UnsignedEip1559) (target calldata : bytes) : UnsignedEip1559 :=
  {| tx_chain_id := tx_chain_id tx; tx_nonce := tx_nonce tx;
     tx_max_priority_fee_per_gas := tx_max_priority_fee_per_gas tx;
     tx_max_fee_per_gas := tx_max_fee_per_gas tx; tx_gas_limit := tx_gas_limit tx;
     tx_to := "0x" +:+ hex target; tx_value := tx_value tx;
     tx_calldata := "0x" +:+ hex calldata |}.

(** [bytes.fromhex] skips white space: text with some has fewer bytes. *)
Lemma fromhex_length s b :
  fromhex s = Some b →
  (2 * length b ≤ String.length s)%nat
  ∧ (2 * length b = String.length s ↔ no_space s = true)%nat.
Proof.
  revert b. induction s as [|c|c d s IH1 IH2] using string_ind2; intros b Hb.
  - by injection Hb as <-.
  - cbn in Hb |- *. destruct (is_space c); [|done]. injection Hb as <-. cbn. split; [lia|done].
  - cbn [fromhex] in Hb. cbn [no_space]. destruct (is_space c) eqn:Hc; cbn [negb andb].
    { destruct (IH2 b Hb). cbn [String.length] in *. split; [lia|]. split; [lia|done]. }
    destruct (hex_value c); [|done]. destruct (hex_value d) eqn:Hd; [|done]. cbn in Hb.
    destruct (fromhex s) as [rest|]; [|done]. injection Hb as <-.
    assert (is_space d = false) as ->.
    { revert Hd. clear. destruct d as [[] [] [] [] [] [] [] []]; done. }
    destruct (IH1 rest eq_refl) as [? <-]. cbn [String.length length negb andb]. split; lia.
Qed.

Lemma prefixed_length s b :
  startswith "0x" s = true → String.length s = 42%nat → fromhex (str_drop2 s) = Some b →
  (zlen b =? 20) = no_space s.
Proof.
  intros Hs Hl Hb. apply startswith_inv in Hs as [t ->].
  change ("0x" ++ t)%string with (String "0" (String "x" t)) in *. cbn [str_drop2] in Hb.
  cbn [String.length] in Hl. apply fromhex_length in Hb as [_ Hb].
  change (no_space (String "0" (String "x" t))) with (no_space t). unfold zlen.
  destruct (no_space t) eqn:Hn.
  - apply Z.eqb_eq. pose proof (proj2 Hb eq_refl). lia.
  - apply Z.eqb_neq. intros Hx. cut (false = true); [done|]. apply Hb. lia.
Qed.

(** What the reader makes of any payload the writer wrote. *)
Lemma encode_decode_bytes tx payload :
  encode_unsigned_eip1559 tx = Ok payload →
  ∃ target calldata, fromhex (str_drop2 (tx_to tx)) = Some target
    ∧ fromhex (str_drop2 (tx_calldata tx)) = Some calldata
    ∧ startswith "0x" (tx_to tx) = true ∧ startswith "0x" (tx_calldata tx) = true
    ∧ decode_unsigned_eip1559 payload =
        if no_space (tx_to tx) then Ok (printed_tx tx target calldata)
        else Err (Eip1559DecodeError "contract creation and malformed targets are not authorized").
Proof.
  intros He. unfold encode_unsigned_eip1559 in He.
  change (_encode_list []) with (Ok [byte_of 0xC0]) in He. ok_invs. prop_of_bool.
  destruct_and!.
  repeat match goal with H : _encode_integer _ = Ok _ |- _ =>
    apply encode_integer_bytes in H as (? & ? & ? & ?) end.
  match goal with H : _encode_list _ = Ok ?b |- _ =>
    pose proof (encode_list_zlen _ _ H) as Hlen; rename H into Hbody, b into body end.
  rewrite concat_zlen in Hlen. zlen.
  do 2 eexists. split_and!; [eassumption..|].
  rewrite Nat.eqb_eq in *. erewrite <- prefixed_length by eassumption.
  lazymatch goal with |- decode_unsigned_eip1559 ?p = _ =>
    change p with ("0x" +:+ hex (Byte.x02 :: body)) end.
  rewrite decode_hex_payload by (zlen; lia).
  epose proof (λ Hr, decode_written _ _ _ _ _ _ _ _ _ _ _ _ _ _ _ _ _ Hr Hbody ltac:(lia)) as Hd.
  rewrite Hd by (repeat constructor; eassumption). clear Hd.
  cbn [mbind result_bind]. pass_guard.
  destruct (Z.eqb_spec (zlen x1) 20); [|by apply decode_fields_target].
  rewrite decode_written_fields; try (done || congruence || lia).
  unfold printed_tx. congruence.
Qed.

Lemma encode_decode tx payload :
  no_space (tx_to tx) = true → no_space (tx_calldata tx) = true →
  encode_unsigned_eip1559 tx = Ok payload →
  decode_unsigned_eip1559 payload = Ok (lower_tx tx).
Proof.
  intros Hto Hdata He.
  destruct (encode_decode_bytes tx payload He) as (t & c & Ht & Hc & Hp & Hq & ->).
  rewrite Hto. unfold printed_tx, lower_tx.
  destruct (prefixed_hex _ _ Hp Hto Ht) as [-> _].
  by destruct (prefixed_hex _ _ Hq Hdata Hc) as [-> _].
Qed.

Lemma encode_target_length tx payload :
  encode_unsigned_eip1559 tx = Ok payload → String.length (tx_to tx) = 42%nat.
Proof.
  unfold encode_unsigned_eip1559. intros He. ok_invs. prop_of_bool. destruct_and!.
  by rewrite Nat.eqb_eq in *.
Qed.

(** C10: reading what was written, for every transaction
    [encode_unsigned_eip1559] accepts.  The encoder reads target and calldata with
    [bytes.fromhex], which skips white space.  The decoder accepts the payload exactly
    when the target's text has no white space; it then returns the same six numbers,
    the target in lower case and the calldata printed from its bytes, which is the
    calldata in lower case when its text has no white space either.  A target of 42
    characters with white space stands for fewer than 20 bytes: it is encoded all the
    same, and the decoder refuses the payload. *)
Theorem eip1559_encode_decode tx payload :
  encode_unsigned_eip1559 tx = Ok payload →
  ∃ target calldata, fromhex (str_drop2 (tx_to tx)) = Some target
    ∧ fromhex (str_drop2 (tx_calldata tx)) = Some calldata
    ∧ decode_unsigned_eip1559 payload =
        (if no_space (tx_to tx) then Ok (printed_tx tx target calldata)
         else Err (Eip1559DecodeError "contract creation and malformed targets are not authorized"))
    ∧ (no_space (tx_to tx) = true → zlen target = 20 ∧ "0x" +:+ hex target = str_lower (tx_to tx))
    ∧ (no_space (tx_calldata tx) = true → "0x" +:+ hex calldata = str_lower (tx_calldata tx)).
Proof.
  intros He.
  destruct (encode_decode_bytes tx payload He) as (t & c & Ht & Hc & Hp & Hq & Hd).
  exists t, c. split_and!; [done..| |].
  - intros Hn. destruct (prefixed_hex _ _ Hp Hn Ht) as [? Hl]. split; [|done].
    apply encode_target_length in He. unfold zlen. lia.
  - intros Hn. by apply prefixed_hex.
Qed.

(** The sample with a space between the bytes of its calldata, and with two in its target. *)
Definition spaced_tx (target : string) : UnsignedEip1559 :=
  {| tx_chain_id := 31337; tx_nonce := 7; tx_max_priority_fee_per_gas := 1000000000;
     tx_max_fee_per_gas := 2000000000; tx_gas_limit := 21000; tx_to := target;
     tx_value := 1000000000000000000; tx_calldata := "0xdead  beef" |}.

(** [eip1559_encode_decode] on a native transfer with calldata, and on the two
    transactions with white space. *)
Lemma eip1559_encode_decode_witness :
  (∃ payload, encode_unsigned_eip1559 sample_tx = Ok payload
     ∧ decode_unsigned_eip1559 payload = Ok (lower_tx sample_tx))
  ∧ (∃ payload, encode_unsigned_eip1559 (spaced_tx (tx_to sample_tx)) = Ok payload
     ∧ decode_unsigned_eip1559 payload = Ok (lower_tx sample_tx))
  ∧ (∃ payload,
       encode_unsigned_eip1559 (spaced_tx "0x00112233445566778899aabbccddeeff001122  ") = Ok payload
     ∧ is_ok (decode_unsigned_eip1559 payload) = false).
Proof.
  split_and!.
  - eexists. split; [vm_compute; reflexivity|].
    edestruct (eip1559_encode_decode sample_tx) as (t & c & Ht & Hc & Hd & _);
      [vm_compute; reflexivity|].
    vm_compute in Ht, Hc. injection Ht as <-. injection Hc as <-.
    etransitivity; [exact Hd|]. vm_compute. reflexivity.
  - eexists. split; [vm_compute; reflexivity|].
    edestruct (eip1559_encode_decode (spaced_tx (tx_to sample_tx))) as (t & c & Ht & Hc & Hd & _);
      [vm_compute; reflexivity|].
    vm_compute in Ht, Hc. injection Ht as <-. injection Hc as <-.
    etransitivity; [exact Hd|]. vm_compute. reflexivity.
  - eexists. split; [vm_compute; reflexivity|].
    edestruct (eip1559_encode_decode (spaced_tx "0x00112233445566778899aabbccddeeff001122  "))
      as (t & c & Ht & Hc & Hd & _); [vm_compute; reflexivity|].
    rewrite Hd. reflexivity.
Defined.

(** * Every accepted payload is canonical *)

(** The writer on a whole RLP value. *)
Fixpoint encode_rlp (v : RlpValue) : result bytes :=
  match v with
  | RBytes b => _encode_bytes b
  | RList items =>
      encs ← (fix go (l : list RlpValue) : result (list bytes) :=
                match l with
                | [] => Ok []
                | v :: l => e ← encode_rlp v; es ← go l; Ok (e :: es)
                end) items;
      _encode_list encs
  end.

Fixpoint encode_all (l : list RlpValue) : result (list bytes) :=
  match l with
  | [] => Ok []
  | v :: l => e ← encode_rlp v; es ← encode_all l; Ok (e :: es)
  end.

Lemma encode_rlp_list items : encode_rlp (RList items) = encode_all items ≫= _encode_list.
Proof. reflexivity. Qed.

(** Re-writing a slice with its prefix byte. *)
Lemma prefix_slice data offset e :
  0 ≤ offset → offset + 1 ≤ e → e ≤ zlen data →
  bytes1 (byte_in data offset) ≫= (λ p, Ok (p ++ slice data (offset + 1) e))
  = Ok (slice data offset e).
Proof.
  intros Ho He Hd. rewrite bytes1_in_range by apply byte_in_range. cbn [mbind result_bind].
  rewrite <- (slice_one data offset), slice_split by lia. done.
Qed.

(** A long form with a canonical length: its bytes are [min_bytes] of it. *)
Lemma read_length_min data offset size n start :
  0 ≤ offset → 0 ≤ size → _read_length data offset size = Ok (n, start) →
  start = offset + size ∧ 0 < size ∧ start ≤ zlen data ∧ 0 ≤ n
  ∧ min_bytes n = slice data offset start ∧ zlen (min_bytes n) = size.
Proof.
  intros Ho Hs Hr. apply read_length_Ok in Hr as (-> & ? & ? & Hb & -> & ?); [|done..].
  rewrite min_from_bytes; [rewrite slice_length by lia; repeat split; lia|].
  destruct (slice_head data offset (offset + size)) as [rest ->]; [lia..|].
  cbn. rewrite bz_byte_of by apply byte_in_range. by rewrite (proj2 (Z.eqb_neq _ _)).
Qed.

Lemma encode_slice_short data offset :
  0 ≤ offset < zlen data → 0x7F < byte_in data offset ≤ 0xB7 →
  offset + 1 + (byte_in data offset - 0x80) ≤ zlen data →
  (byte_in data offset - 0x80 =? 1) && (byte_in data (offset + 1) <? 0x80) = false →
  _encode_bytes (slice data (offset + 1) (offset + 1 + (byte_in data offset - 0x80)))
  = Ok (slice data offset (offset + 1 + (byte_in data offset - 0x80))).
Proof.
  intros Ho Hb He H1. set (n := byte_in data offset - 0x80) in *.
  set (e := offset + 1 + n) in *.
  assert (zlen (slice data (offset + 1) e) = n) as Hlen by (rewrite slice_length; lia).
  rewrite encode_bytes_eq. rewrite Hlen.
  assert ((n =? 1) && (byte_in (slice data (offset + 1) e) 0 <? 128) = false) as ->.
  { destruct (Z.eqb_spec n 1) as [Hn|]; [|done].
    destruct (slice_head data (offset + 1) e) as [rest ->]; [lia..|].
    rewrite byte_in_head, bz_byte_of by apply byte_in_range. exact H1. }
  destruct (Z.ltb_spec n 56); [|lia].
  replace (0x80 + n) with (byte_in data offset) by lia. apply prefix_slice; lia.
Qed.

Lemma encode_slice_long data offset n start :
  0 ≤ offset < zlen data → 0xB7 < byte_in data offset ≤ 0xBF →
  _read_length data (offset + 1) (byte_in data offset - 0xB7) = Ok (n, start) →
  56 ≤ n → start + n ≤ zlen data →
  _encode_bytes (slice data start (start + n)) = Ok (slice data offset (start + n)).
Proof.
  intros Ho Hb Hr Hn He.
  apply read_length_min in Hr as (Hst & ? & ? & ? & Hm & Hlm); [|lia..].
  rewrite encode_bytes_eq. rewrite slice_length by lia. replace (start + n - start) with n by lia.
  destruct (Z.eqb_spec n 1); [lia|]. cbn [andb]. destruct (Z.ltb_spec n 56); [lia|].
  cbv zeta. rewrite Hlm, Hm, slice_split by lia.
  replace (0xB7 + (byte_in data offset - 0xB7)) with (byte_in data offset) by lia.
  apply prefix_slice; lia.
Qed.

(** What the reader accepts, the writer writes back, byte for byte. *)
Lemma decode_encode_rlp fuel data :
  (∀ offset depth v c, 0 ≤ offset → _decode_rlp fuel data offset depth = Ok (v, c) →
     encode_rlp v = Ok (slice data offset c)) ∧
  (∀ cursor e depth its c, 0 ≤ cursor → e ≤ zlen data →
     _decode_items fuel data cursor e depth = Ok (its, c) →
     ∃ encs, encode_all its = Ok encs ∧ concat encs = slice data cursor c).
Proof.
  induction fuel as [|fuel [IHd IHi]]; [done|]. split.
  - intros offset depth v c Ho Hd. rewrite decode_rlp_eq in Hd by done. cbv zeta in Hd. ok_invs. prop_of_bool.
    pose proof (byte_in_range data offset).
    destruct (Z.leb_spec (byte_in data offset) 0x7F).
    { simplify_eq. cbn [encode_rlp]. rewrite slice_one by lia. rewrite encode_bytes_eq.
      rewrite byte_in_head, bz_byte_of by lia. cbn [zlen length].
      destruct (Z.ltb_spec (byte_in data offset) 0x80); [done|lia]. }
    destruct (Z.leb_spec (byte_in data offset) 0xB7).
    { ok_invs. prop_of_bool. apply encode_slice_short; try lia. }
    destruct (Z.leb_spec (byte_in data offset) 0xBF).
    { apply bind_Ok in Hd as ([n start] & Hr & Hd). ok_invs. prop_of_bool.
      by eapply encode_slice_long; eauto with lia. }
    apply bind_Ok in Hd as ([n start] & Hr & Hd). ok_inv Hd. destruct x0 as [its cur].
    ok_invs. prop_of_bool. subst cur. rewrite encode_rlp_list.
    match goal with H : _decode_items _ _ _ _ _ = _ |- _ => rename H into Hits end.
    destruct (Z.leb_spec (byte_in data offset) 0xF7).
    + simplify_eq. apply IHi in Hits as (encs & -> & Hc); [|lia..]. cbn [mbind result_bind].
      unfold _encode_list. rewrite Hc, slice_length by lia.
      destruct (Z.ltb_spec (offset + 1 + (byte_in data offset - 192) - (offset + 1)) 56); [|lia].
      replace (192 + (offset + 1 + (byte_in data offset - 192) - (offset + 1)))
        with (byte_in data offset) by lia. apply prefix_slice; lia.
    + apply bind_Ok in Hr as ([n' start'] & Hr & Hr'). ok_invs. prop_of_bool.
      apply read_length_min in Hr as (Hst & ? & ? & ? & Hm & Hlm); [|lia..].
      apply IHi in Hits as (encs & -> & Hc); [|lia..]. cbn [mbind result_bind].
      unfold _encode_list. rewrite Hc, slice_length by lia.
      replace (start + n - start) with n by lia. destruct (Z.ltb_spec n 56); [lia|].
      cbv zeta. rewrite Hlm, Hm, slice_split by lia.
      replace (0xF7 + (byte_in data offset - 0xF7)) with (byte_in data offset) by lia.
      apply prefix_slice; lia.
  - intros cursor e depth its c Hc He Hi. cbn [_decode_items] in Hi.
    destruct (Z.ltb_spec cursor e); [|simplify_eq; exists []; split; [done|]].
    + apply bind_Ok in Hi as ([v c1] & Hd & Hi).
      pose proof (proj1 (decode_progress fuel data) _ _ _ _ Hc Hd).
      apply IHd in Hd; [|lia]. ok_inv Hi. destruct x0 as [its' c2]. simplify_eq.
      match goal with H : _decode_items _ _ _ _ _ = _ |- _ => rename H into Hits end.
      pose proof (proj2 (decode_progress fuel data) c1 e depth its' _ ltac:(lia) Hits).
      apply IHi in Hits as (encs & Henc & Hcat); [|lia..].
      exists (slice data cursor c1 :: encs). cbn [encode_all concat].
      rewrite Hd, Henc, Hcat. split; [done|]. apply slice_split; lia.
    + unfold slice. rewrite Z.sub_diag. done.
Qed.

Lemma integer_Ok v name z :
  _integer v name = Ok z → ∃ b, v = RBytes b ∧ no_leading_zero b = true ∧ z = from_bytes_be b.
Proof.
  destruct v; cbn; [|done]. intros Hz. ok_invs. prop_of_bool. eauto.
Qed.

Lemma encode_integer_of_bytes b :
  no_leading_zero b = true → _encode_integer (from_bytes_be b) = _encode_bytes b.
Proof.
  intros Hb. unfold _encode_integer. pose proof (from_bytes_be_bound b).
  rewrite raise_if_bind. destruct (Z.ltb_spec (from_bytes_be b) 0); [lia|].
  rewrite (min_from_bytes b Hb). destruct (Z.eqb_spec (from_bytes_be b) 0) as [Hz|]; [|done].
  rewrite <- (min_from_bytes b Hb), Hz. done.
Qed.

Lemma prefixed_hex_shape b :
  startswith "0x" ("0x" +:+ hex b) = true
  ∧ String.length ("0x" +:+ hex b) = (2 + 2 * length b)%nat
  ∧ str_drop2 ("0x" +:+ hex b) = hex b.
Proof.
  split; [apply startswith_app|split; [|done]].
  change ("0x" +:+ hex b) with (String "0" (String "x" (hex b))).
  cbn [String.length]. rewrite hex_length. lia.
Qed.

(** Nine fields that were accepted: what they are. *)
Lemma decode_fields_Ok v tx :
  decode_fields v = Ok tx → ∃ b1 b2 b3 b4 b5 to b7 data,
    v = RList [RBytes b1; RBytes b2; RBytes b3; RBytes b4; RBytes b5; RBytes to; RBytes b7;
               RBytes data; RList []]
    ∧ Forall (λ b, no_leading_zero b = true) [b1; b2; b3; b4; b5; b7]
    ∧ zlen to = 20
    ∧ tx = {| tx_chain_id := from_bytes_be b1; tx_nonce := from_bytes_be b2;
              tx_max_priority_fee_per_gas := from_bytes_be b3;
              tx_max_fee_per_gas := from_bytes_be b4; tx_gas_limit := from_bytes_be b5;
              tx_to := "0x" +:+ hex to; tx_value := from_bytes_be b7;
              tx_calldata := "0x" +:+ hex data |}
    ∧ 0 < tx_chain_id tx ∧ 0 < tx_gas_limit tx ∧ 0 < tx_max_fee_per_gas tx
    ∧ tx_max_priority_fee_per_gas tx ≤ tx_max_fee_per_gas tx.
Proof.
  unfold decode_fields. repeat (case_match; try discriminate); intros Hd; ok_invs; try done;
    repeat (case_match; try discriminate); ok_invs; prop_of_bool;
    repeat match goal with H : _integer _ _ = Ok _ |- _ =>
      apply integer_Ok in H as (? & -> & ? & ->) end;
    repeat match goal with H : (_ =? _) = true |- _ => apply Z.eqb_eq in H end.
  do 8 eexists. split_and!; cbn [tx_chain_id tx_gas_limit tx_max_fee_per_gas
    tx_max_priority_fee_per_gas]; try reflexivity; try lia. by repeat constructor.
Qed.

(** Every accepted payload is the canonical one. *)
Lemma decode_unsigned_canonical payload tx :
  decode_unsigned_eip1559 payload = Ok tx →
  ∃ encoded, fromhex (str_drop2 payload) = Some encoded
    ∧ encode_unsigned_eip1559 tx = Ok ("0x" +:+ hex encoded).
Proof.
  intros Hd. unfold decode_unsigned_eip1559 in Hd. ok_inv Hd. destruct x2 as [v c].
  ok_invs. prop_of_bool.
  match goal with H : fromhex _ = Some ?e |- _ => rename H into Hhex, e into encoded end.
  match goal with H : _decode_rlp _ _ _ _ = _ |- _ => rename H into Hrlp end.
  subst c. exists encoded. split; [done|].
  assert (∃ body, encoded = Byte.x02 :: body) as [body ->].
  { destruct_and!. match goal with H : startswith _ _ = true |- _ =>
      apply startswith_inv in H as [t ->] end.
    change (str_drop2 ("0x02" ++ t)) with (String "0" (String "2" t)) in Hhex.
    cbn in Hhex. destruct (fromhex t); [|done]. injection Hhex as <-. by eexists. }
  apply (proj1 (decode_encode_rlp _ _)) in Hrlp; [|lia].
  apply decode_fields_Ok in Hd as (b1 & b2 & b3 & b4 & b5 & to & b7 & data & -> & Hz & Hto
    & Htx & ? & ? & ? & ?).
  repeat rewrite Forall_cons in Hz. destruct_and!.
  rewrite encode_rlp_list in Hrlp. cbn [encode_all] in Hrlp.
  change (encode_rlp (RList [])) with (_encode_list []) in Hrlp. cbn [encode_rlp] in Hrlp.
  ok_invs.
  destruct (prefixed_hex_shape to) as (Hp1 & Hp2 & Hp3).
  destruct (prefixed_hex_shape data) as (Hq1 & Hq2 & Hq3).
  cbn [tx_chain_id tx_gas_limit tx_max_fee_per_gas tx_max_priority_fee_per_gas] in *.
  assert (slice (Byte.x02 :: body) 1 (zlen (Byte.x02 :: body)) = body) as Hslice.
  { unfold slice. cbn [drop]. rewrite zlen_cons. apply take_ge. unfold zlen. lia. }
  rewrite Hslice in Hrlp. unfold encode_unsigned_eip1559.
  cbn [tx_chain_id tx_gas_limit tx_max_fee_per_gas tx_max_priority_fee_per_gas tx_to tx_value
       tx_calldata tx_nonce].
  rewrite Hp1, Hp2, Hp3, Hq1, Hq2, Hq3, !fromhex_hex.
  replace (2 + 2 * length to)%nat with 42%nat by (unfold zlen in Hto; lia).
  replace (2 + 2 * length data)%nat with (2 * (1 + length data))%nat by lia.
  rewrite Nat.even_mul. cbn [Nat.eqb negb orb or_raise Nat.even].
  rewrite !raise_if_bind. cbn [mbind result_bind].
  rewrite !encode_integer_of_bytes by done.
  do 3 (rewrite (proj2 (Z.leb_gt _ 0)) by done).
  rewrite (proj2 (Z.ltb_ge _ _)) by done. cbn [orb raise_if mbind result_bind].
  repeat match goal with H : _encode_bytes _ = Ok _ |- _ => rewrite H; clear H; cbn [mbind result_bind] end.
  change (_encode_list []) with (Ok (A:=bytes) [Byte.xc0]). cbn [mbind result_bind].
  rewrite Hrlp. cbn [mbind result_bind]. by rewrite (proj2 (Z.ltb_ge _ _)).
Qed.

(** every accepted payload is the canonical one.  If
    [decode_unsigned_eip1559] accepts a payload, [encode_unsigned_eip1559] on the
    transaction it returned produces exactly the bytes that were read: no two
    different byte strings decode to the same transaction, so a signed
    payload authorizes one transaction only. *)
Theorem eip1559_decode_canonical payload tx :
  decode_unsigned_eip1559 payload = Ok tx →
  ∃ encoded, fromhex (str_drop2 payload) = Some encoded
    ∧ encode_unsigned_eip1559 tx = Ok ("0x" +:+ hex encoded).
Proof. apply decode_unsigned_canonical. Qed.

(** The bytes of the sample transaction, read and written again. *)
Lemma eip1559_decode_canonical_witness :
  ∃ payload encoded, fromhex (str_drop2 payload) = Some encoded
    ∧ encode_unsigned_eip1559 sample_tx = Ok ("0x" +:+ hex encoded).
Proof.
  let p := eval vm_compute in
    (match encode_unsigned_eip1559 sample_tx with Ok p => p | Err _ => "0"%string end) in
  exists p; apply (eip1559_decode_canonical p sample_tx).
  vm_compute. reflexivity.
Defined.

Lemma integer_raises v name : raises is_decode_error (_integer v name).
Proof. destruct v; cbn; [|done]. by apply raises_guard. Qed.

Lemma decode_fields_raises v : raises is_decode_error (decode_fields v).
Proof.
  unfold decode_fields.
  repeat match goal with
  | |- raises _ (raise_if _ _ ≫= _) => apply raises_guard; [done|intros _]
  | |- raises _ (_ ≫= _) => apply raises_bind; [|intros ? _]
  | |- raises _ (_integer _ _) => apply integer_raises
  | |- raises _ (Ok _) => done
  | |- raises _ (Err _) => done
  | |- raises _ (match _ with _ => _ end) => case_match
  end.
Qed.

(** C11: the reader is total and fails closed.  On every payload
    whatsoever, well formed or not, [decode_unsigned_eip1559] ends with a
    transaction or with an [Eip1559DecodeError]: the recursion over nested lists
    and the loop over their items consume the input (the recursion budget of the
    model is never reached) and no other exception escapes. *)
Theorem eip1559_decode_total payload :
  (∃ tx, decode_unsigned_eip1559 payload = Ok tx)
  ∨ (∃ msg, decode_unsigned_eip1559 payload = Err (Eip1559DecodeError msg)).
Proof.
  assert (raises is_decode_error (decode_unsigned_eip1559 payload)) as Hr.
  { unfold decode_unsigned_eip1559. fuel_guard.
    apply raises_bind; [by destruct (fromhex _)|intros encoded _]. fuel_guard.
    apply raises_bind.
    - apply (proj1 (decode_fuel_enough _ _)); unfold decode_fuel, zlen; lia.
    - intros [v c] _. fuel_guard. apply decode_fields_raises. }
  destruct (decode_unsigned_eip1559 payload) as [tx|[]]; try done; eauto.
Qed.
