(* ===== verification/Signing.v ===== *)
(** The signer's authorization gate (src/agentguard-testbed/src/aegisledger/signing.py): the
    binding between a proposal, its decision and the exact EIP-1559 payload, and
    the consumption of decision and wallet nonces. *)
From Stdlib Require Import ZArith Lia Ascii String.
From Stdlib Require Strings.Byte.
From stdpp Require Import base gmap sets list strings pretty.
From S2P Require Import Prelude Bytes Canonical Contracts Eip1559 Policy State Decisions.

Open Scope Z_scope.

(** * Requests *)

Record TransactionBindingV1 := {
  b_operation : string;
  b_wallet : string;
  b_chain_id : Z;
  b_wallet_nonce : Z;
  b_asset : string;
  b_amount : Z;
  b_recipient : option string;
  b_contract : option string;
  b_selector : option string;
  b_calldata : string;
  b_value : Z;
  b_gas_limit : Z;
  b_max_fee_per_gas : Z;
  b_max_priority_fee_per_gas : Z;
}.

Definition validate_operation_shape (b : TransactionBindingV1) : result unit :=
  (if bool_decide (b_operation b = "transfer"%string) then
     raise_if (bool_decide (b_recipient b = None) || bool_decide (b_contract b ≠ None)
               || bool_decide (b_selector b ≠ None))
       (ValueError "transfer binding requires only a recipient");;
     raise_if (negb (bool_decide (b_asset b = "NATIVE:" +:+ pretty (b_chain_id b))))
       (ValueError "transfer binding supports only the chain native asset");;
     raise_if (negb (b_value b =? b_amount b) || negb (bool_decide (b_calldata b = "0x"%string)))
       (ValueError "native transfer value must equal amount with empty calldata")
   else
     raise_if (bool_decide (b_contract b = None) || bool_decide (b_selector b = None)
               || bool_decide (b_recipient b ≠ None))
       (ValueError "swap binding requires a contract and selector"));;
  raise_if (b_max_fee_per_gas b <? b_max_priority_fee_per_gas b)
    (ValueError "priority fee cannot exceed maximum fee").

Definition TransactionBindingV1_validate (b : TransactionBindingV1)
    : result TransactionBindingV1 :=
  raise_if (negb (is_in (b_operation b) ["transfer"; "swap"]%string && Address (b_wallet b)
                  && (0 <? b_chain_id b) && (0 <=? b_wallet_nonce b) && AssetId (b_asset b)
                  && (0 <? b_amount b) && opt_all Address (b_recipient b)
                  && opt_all Address (b_contract b) && opt_all Selector (b_selector b)
                  && HexData0 (b_calldata b) && (0 <=? b_value b) && (0 <? b_gas_limit b)
                  && (0 <? b_max_fee_per_gas b) && (0 <=? b_max_priority_fee_per_gas b)))
    (ValidationError "TransactionBindingV1");;
  let b' :=
    {| b_operation := b_operation b; b_wallet := str_lower (b_wallet b);
       b_chain_id := b_chain_id b; b_wallet_nonce := b_wallet_nonce b; b_asset := b_asset b;
       b_amount := b_amount b; b_recipient := str_lower <$> b_recipient b;
       b_contract := str_lower <$> b_contract b; b_selector := str_lower <$> b_selector b;
       b_calldata := str_lower (b_calldata b); b_value := b_value b;
       b_gas_limit := b_gas_limit b; b_max_fee_per_gas := b_max_fee_per_gas b;
       b_max_priority_fee_per_gas := b_max_priority_fee_per_gas b |} in
  try_except catches_ValueError (validate_operation_shape b') (invalid "TransactionBindingV1");;
  Ok b'.

Record TransactionSignRequestV1 := {
  q_proposal : ProposalV1;
  q_decision : DecisionTokenV1;
  q_reservation_id : Z;
  q_wallet_nonce : Z;
  q_chain_id : Z;
  q_transaction : TransactionBindingV1;
  q_eip712_payload : string;
  q_eip1559_unsigned_payload : string;
  q_eip712_hash : string;
  q_eip1559_hash : string;
  q_expires_at : Z;
}.

(** The nested models are instances of their classes already. *)
Definition TransactionSignRequestV1_validate (q : TransactionSignRequestV1) (expires : datetime)
    : result TransactionSignRequestV1 :=
  raise_if (negb ((0 <=? q_wallet_nonce q) && (0 <? q_chain_id q) && HexData (q_eip712_payload q)
                  && HexData (q_eip1559_unsigned_payload q) && Hex32 (q_eip712_hash q)
                  && Hex32 (q_eip1559_hash q)))
    (ValidationError "TransactionSignRequestV1");;
  utc ← try_except catches_ValueError (require_utc "expires_at" expires)
          (invalid "TransactionSignRequestV1");
  Ok {| q_proposal := q_proposal q; q_decision := q_decision q;
        q_reservation_id := q_reservation_id q; q_wallet_nonce := q_wallet_nonce q;
        q_chain_id := q_chain_id q; q_transaction := q_transaction q;
        q_eip712_payload := str_lower (q_eip712_payload q);
        q_eip1559_unsigned_payload := str_lower (q_eip1559_unsigned_payload q);
        q_eip712_hash := q_eip712_hash q; q_eip1559_hash := q_eip1559_hash q;
        q_expires_at := utc |}.

(** * The gate *)

Record SignerAuthorizationGate := {
  g_policy_public_key : bytes;
  g_allowed_chain_ids : gset Z;
  g_allowed_policy_hashes : option (gset string);
  g_used_decisions : gset Z;
  g_next_wallet_nonce : gmap (string * Z) Z;
}.

Definition gate_init (key : bytes) (chains : list Z) (hashes : option (list string))
    : SignerAuthorizationGate :=
  {| g_policy_public_key := key; g_allowed_chain_ids := list_to_set chains;
     g_allowed_policy_hashes := (λ l, list_to_set (map str_lower l)) <$> hashes;
     g_used_decisions := ∅; g_next_wallet_nonce := ∅ |}.

(** [raise SignerAuthorizationError(msg)] when [cond]. *)
Definition deny_if (cond : bool) (msg : string) : result unit :=
  raise_if cond (SignerAuthorizationError msg).

Section gate.
Context `{!Externals}.

(** [bytes.fromhex(value[2:])] *)
Definition fromhex_0x (value : string) : result bytes :=
  or_raise (fromhex (str_drop2 value))
    (ValueError "non-hexadecimal number found in fromhex() arg").

Definition keccak_hex (value : string) : result string :=
  (λ b, "0x" +:+ hex (keccak b)) <$> fromhex_0x value.

(** The checks of [_validate] up to the wallet nonce: decision, identity, chain
    and replay. *)
Definition validate_decision (g : SignerAuthorizationGate) (q : TransactionSignRequestV1) (now : Z)
    : result unit :=
  let decision := q_decision q in
  let proposal := q_proposal q in
  let transaction := q_transaction q in
  deny_if (q_expires_at q <=? now) "sign request expired";;
  verified ← verify_decision_token decision (g_policy_public_key g) now;
  deny_if (negb verified) "decision signature invalid or expired";;
  deny_if (negb (bool_decide (str_lower (policy_signer decision)
                              = str_lower (address_of (g_policy_public_key g)))))
    "decision signer identity mismatch";;
  deny_if (negb (bool_decide (verdict decision = ALLOW))) "decision does not authorize signing";;
  deny_if (match g_allowed_policy_hashes g with
           | Some hashes => negb (bool_decide (str_lower (d_policy_hash decision) ∈ hashes))
           | None => false
           end) "policy version is not approved by signer";;
  h ← proposal_hash proposal;
  deny_if (negb (bool_decide (h = d_proposal_hash decision)))
    "proposal hash does not match decision";;
  deny_if (negb (bool_decide (Some (q_reservation_id q) = d_reservation_id decision)))
    "reservation does not match decision";;
  deny_if (negb (bool_decide (q_chain_id q ∈ g_allowed_chain_ids g)))
    "chain is not enabled in signer";;
  deny_if (negb (q_chain_id q =? chain_id proposal)
           || negb (b_chain_id transaction =? q_chain_id q)) "chain binding mismatch";;
  deny_if (negb (bool_decide (b_wallet transaction = wallet proposal))) "wallet binding mismatch";;
  deny_if (negb (b_wallet_nonce transaction =? q_wallet_nonce q)) "wallet nonce binding mismatch";;
  deny_if ((d_expires_at decision <? q_expires_at q) || (deadline proposal <? q_expires_at q))
    "sign request outlives authorization";;
  deny_if (bool_decide (decision_nonce decision ∈ g_used_decisions g)) "decision replay detected";;
  let expected_nonce := default 0 (g_next_wallet_nonce g !! (wallet proposal, q_chain_id q)) in
  deny_if (negb (q_wallet_nonce q =? expected_nonce))
    ("wallet nonce must be " +:+ pretty expected_nonce +:+ ", received "
     +:+ pretty (q_wallet_nonce q)).

(** Then the exact payloads and their hashes. *)
Definition validate_payloads (q : TransactionSignRequestV1) : result unit :=
  deny_if (negb (startswith "0x1901" (q_eip712_payload q))) "EIP-712 payload must start with 0x1901";;
  deny_if (negb (startswith "0x02" (q_eip1559_unsigned_payload q)))
    "EIP-1559 payload must be a typed transaction";;
  k712 ← keccak_hex (q_eip712_payload q);
  deny_if (negb (bool_decide (k712 = q_eip712_hash q)))
    "EIP-712 hash does not match exact payload";;
  k1559 ← keccak_hex (q_eip1559_unsigned_payload q);
  deny_if (negb (bool_decide (k1559 = q_eip1559_hash q)))
    "EIP-1559 hash does not match exact payload";;
  proposal_hash_bytes ← fromhex_0x (d_proposal_hash (q_decision q));
  eip712_bytes ← fromhex_0x (q_eip712_payload q);
  deny_if (negb (zlen eip712_bytes =? 66)
           || negb (bool_decide (drop 34 eip712_bytes = proposal_hash_bytes)))
    "EIP-712 payload is not bound to authorized proposal".

(** Then the binding against the proposal. *)
Definition validate_binding (t : TransactionBindingV1) (p : ProposalV1) : result unit :=
  deny_if (negb (bool_decide (b_operation t = intent_kind (intent p))))
    "transaction operation does not match proposal";;
  deny_if (negb (bool_decide (b_asset t = asset p)))
    "transaction asset does not match proposal";;
  deny_if (negb (b_amount t =? amount p)) "transaction amount does not match proposal";;
  match intent p with
  | TransferIntentV1 recipient =>
      deny_if (negb (bool_decide (b_recipient t = Some recipient)))
        "transaction recipient does not match proposal"
  | SwapIntentV1 contract selector calldata _ _ =>
      deny_if (negb (bool_decide (b_contract t = Some contract)))
        "transaction contract does not match proposal";;
      deny_if (negb (bool_decide (b_selector t = Some selector)))
        "transaction selector does not match proposal";;
      deny_if (negb (bool_decide (b_calldata t = calldata)))
        "transaction calldata does not match proposal"
  end.

(** Then the decoded payload against the binding. *)
Definition validate_raw (payload : string) (t : TransactionBindingV1) : result unit :=
  raw ← try_except is_eip1559_error (decode_unsigned_eip1559 payload)
    (λ e, Err (SignerAuthorizationError ("invalid EIP-1559 payload: " +:+ exn_text e)));
  let expected_target :=
    if bool_decide (b_operation t = "transfer"%string) then b_recipient t else b_contract t in
  deny_if (negb (tx_chain_id raw =? b_chain_id t) || negb (tx_nonce raw =? b_wallet_nonce t))
    "raw transaction chain or nonce binding mismatch";;
  deny_if (negb (bool_decide (Some (tx_to raw) = expected_target)))
    "raw transaction recipient or contract binding mismatch";;
  deny_if (negb (tx_value raw =? b_value t)) "raw transaction value binding mismatch";;
  deny_if (negb (bool_decide (tx_calldata raw = b_calldata t)))
    "raw transaction calldata binding mismatch";;
  deny_if (negb (tx_gas_limit raw =? b_gas_limit t)) "raw transaction gas limit binding mismatch";;
  deny_if (negb (tx_max_fee_per_gas raw =? b_max_fee_per_gas t)
           || negb (tx_max_priority_fee_per_gas raw =? b_max_priority_fee_per_gas t))
    "raw transaction fee binding mismatch".

Definition _validate (g : SignerAuthorizationGate) (q : TransactionSignRequestV1) (now : Z)
    : result unit :=
  validate_decision g q now;;
  validate_payloads q;;
  validate_binding (q_transaction q) (q_proposal q);;
  validate_raw (q_eip1559_unsigned_payload q) (q_transaction q).

Definition validate_and_consume (now : Z) (q : TransactionSignRequestV1)
    : M SignerAuthorizationGate unit :=
  g ← self;
  lift (_validate g q now);;
  update (λ g,
    {| g_policy_public_key := g_policy_public_key g;
       g_allowed_chain_ids := g_allowed_chain_ids g;
       g_allowed_policy_hashes := g_allowed_policy_hashes g;
       g_used_decisions := g_used_decisions g ∪ {[decision_nonce (q_decision q)]};
       g_next_wallet_nonce := <[(wallet (q_proposal q), q_chain_id q) := q_wallet_nonce q + 1]>
                                (g_next_wallet_nonce g) |}).
End gate.
