(* ===== verification/SigningFacts.v ===== *)
(** Facts of Signing: what an accepted request proves, replay protection along
    every sequence of requests, and what the gate leaves open for swaps. *)
From Stdlib Require Import ZArith Lia Ascii String.
From Stdlib Require Strings.Byte.
From stdpp Require Import base gmap sets list strings pretty list_numbers.
From S2P Require Import Prelude Bytes Canonical CanonicalFacts Contracts ContractsFacts Policy.
From S2P Require Import PolicyFacts State StateFacts Decisions MandatesFacts Eip1559 Eip1559Facts Signing.

Open Scope Z_scope.

Lemma deny_if_Ok b m u : deny_if b m = Ok u ↔ b = false.
Proof. apply raise_if_Ok. Qed.

(** Invert the successful run of a sequence of [deny_if] guards. *)
Ltac allowed H :=
  unfold deny_if in H; ok_inv H; ok_invs; prop_of_bool; destruct_and?; subst.

Section gate_facts.
Context `{!Externals}.

Lemma verify_decision_token_true t key now :
  verify_decision_token t key now = Ok true →
  now < d_expires_at t ∧ ∃ sig payload, fromhex (d_signature t) = Some sig
    ∧ decision_signature_payload t = Ok payload ∧ verify key payload sig = true.
Proof.
  unfold verify_decision_token. destruct (Z.leb_spec (d_expires_at t) now); [done|].
  destruct (fromhex _) as [sig|]; [|done]. intros Hv. apply bind_Ok in Hv as (pl & Hp & Hv).
  injection Hv as Hv. eauto 10.
Qed.

(** What the first group of checks established. *)
Record decision_allows (g : SignerAuthorizationGate) (q : TransactionSignRequestV1) (now : Z)
    : Prop := {
  da_time : now < q_expires_at q ≤ d_expires_at (q_decision q)
            ∧ q_expires_at q ≤ deadline (q_proposal q);
  da_signed : ∃ sig payload, fromhex (d_signature (q_decision q)) = Some sig
    ∧ decision_signature_payload (q_decision q) = Ok payload
    ∧ verify (g_policy_public_key g) payload sig = true;
  da_verdict : verdict (q_decision q) = ALLOW;
  da_policy : ∀ hashes, g_allowed_policy_hashes g = Some hashes →
    str_lower (d_policy_hash (q_decision q)) ∈ hashes;
  da_proposal : proposal_hash (q_proposal q) = Ok (d_proposal_hash (q_decision q));
  da_reservation : d_reservation_id (q_decision q) = Some (q_reservation_id q);
  da_chain : q_chain_id q ∈ g_allowed_chain_ids g ∧ q_chain_id q = chain_id (q_proposal q)
    ∧ b_chain_id (q_transaction q) = q_chain_id q;
  da_wallet : b_wallet (q_transaction q) = wallet (q_proposal q)
    ∧ b_wallet_nonce (q_transaction q) = q_wallet_nonce q;
  da_fresh : decision_nonce (q_decision q) ∉ g_used_decisions g;
  da_nonce : q_wallet_nonce q
    = default 0 (g_next_wallet_nonce g !! (wallet (q_proposal q), q_chain_id q));
}.

Lemma validate_decision_Ok g q now :
  validate_decision g q now = Ok tt → decision_allows g q now.
Proof.
  unfold validate_decision. intros Hv. allowed Hv.
  match goal with H : verify_decision_token _ _ _ = Ok true |- _ =>
    apply verify_decision_token_true in H as (? & ? & ? & ? & ? & ?) end.
  constructor; try done; try lia; try congruence; try eauto 10.
  intros hashes Hh. rewrite Hh in *. prop_of_bool. done.
Qed.

(** The payload hashes and the EIP-712 binding. *)
Record payloads_bound (q : TransactionSignRequestV1) : Prop := {
  pb_712 : keccak_hex (q_eip712_payload q) = Ok (q_eip712_hash q);
  pb_1559 : keccak_hex (q_eip1559_unsigned_payload q) = Ok (q_eip1559_hash q);
  pb_proposal : ∃ b h, fromhex (str_drop2 (q_eip712_payload q)) = Some b ∧ zlen b = 66
    ∧ fromhex (str_drop2 (d_proposal_hash (q_decision q))) = Some h ∧ drop 34 b = h;
}.

Lemma validate_payloads_Ok q : validate_payloads q = Ok tt → payloads_bound q.
Proof.
  unfold validate_payloads, fromhex_0x. intros Hv. allowed Hv. constructor; try done. eauto 10.
Qed.

(** The transaction that will be signed, as decoded from the payload. *)
Record raw_matches (q : TransactionSignRequestV1) (tx : UnsignedEip1559) : Prop := {
  rm_decoded : decode_unsigned_eip1559 (q_eip1559_unsigned_payload q) = Ok tx;
  rm_chain : tx_chain_id tx = chain_id (q_proposal q);
  rm_nonce : tx_nonce tx = q_wallet_nonce q;
  rm_amount : b_amount (q_transaction q) = amount (q_proposal q);
  rm_asset : b_asset (q_transaction q) = asset (q_proposal q);
  rm_gas : tx_gas_limit tx = b_gas_limit (q_transaction q)
    ∧ tx_max_fee_per_gas tx = b_max_fee_per_gas (q_transaction q)
    ∧ tx_max_priority_fee_per_gas tx = b_max_priority_fee_per_gas (q_transaction q);
  rm_effect : match intent (q_proposal q) with
    | TransferIntentV1 recipient =>
        tx_to tx = recipient ∧ tx_value tx = amount (q_proposal q) ∧ tx_calldata tx = "0x"%string
        ∧ asset (q_proposal q) = "NATIVE:" +:+ pretty (chain_id (q_proposal q))
    | SwapIntentV1 contract _ calldata _ _ =>
        tx_to tx = contract ∧ tx_calldata tx = calldata
        ∧ tx_value tx = b_value (q_transaction q)
    end;
}.

Lemma operation_shape_transfer b :
  validate_operation_shape b = Ok tt → b_operation b = "transfer"%string →
  b_asset b = "NATIVE:" +:+ pretty (b_chain_id b) ∧ b_value b = b_amount b
  ∧ b_calldata b = "0x"%string.
Proof.
  unfold validate_operation_shape. intros Hs Hop. rewrite bool_decide_true in Hs by done.
  ok_inv Hs. match goal with H : _ = Ok _ |- _ => ok_inv H end. ok_invs. prop_of_bool.
  destruct_and?. done.
Qed.

Lemma validate_raw_Ok q :
  validate_operation_shape (q_transaction q) = Ok tt →
  b_chain_id (q_transaction q) = chain_id (q_proposal q) →
  b_wallet_nonce (q_transaction q) = q_wallet_nonce q →
  validate_binding (q_transaction q) (q_proposal q) = Ok tt →
  validate_raw (q_eip1559_unsigned_payload q) (q_transaction q) = Ok tt →
  ∃ tx, raw_matches q tx.
Proof.
  intros Hshape Hchain Hnonce Hb Hr. unfold validate_raw in Hr. allowed Hr.
  match goal with H : try_except _ _ _ = Ok ?x |- _ =>
    apply try_except_Ok in H; [|done]; exists x end.
  unfold validate_binding in Hb. ok_inv Hb. unfold deny_if in *. ok_invs. prop_of_bool.
  assert (match intent (q_proposal q) with
    | TransferIntentV1 recipient => b_recipient (q_transaction q) = Some recipient
    | SwapIntentV1 contract _ calldata _ _ =>
        b_contract (q_transaction q) = Some contract ∧ b_calldata (q_transaction q) = calldata
    end) as Hi.
  { destruct (intent (q_proposal q)); ok_invs; prop_of_bool; done. }
  clear Hb. destruct (intent (q_proposal q)) as [recipient|contract sel cd mo oa] eqn:Hint;
    cbn [intent_kind] in *.
  - destruct (operation_shape_transfer _ Hshape) as (? & ? & ?); [done|].
    rewrite bool_decide_true in * by done.
    constructor; rewrite ?Hint; try done; try congruence. split_and!; congruence.
  - rewrite bool_decide_false in * by congruence. destruct Hi.
    constructor; rewrite ?Hint; try done; try congruence. split_and!; congruence.
Qed.

Definition after_signing (g : SignerAuthorizationGate) (q : TransactionSignRequestV1)
    : SignerAuthorizationGate :=
  {| g_policy_public_key := g_policy_public_key g;
     g_allowed_chain_ids := g_allowed_chain_ids g;
     g_allowed_policy_hashes := g_allowed_policy_hashes g;
     g_used_decisions := g_used_decisions g ∪ {[decision_nonce (q_decision q)]};
     g_next_wallet_nonce := <[(wallet (q_proposal q), q_chain_id q) := q_wallet_nonce q + 1]>
                              (g_next_wallet_nonce g) |}.

Lemma validate_and_consume_spec now q g :
  validate_and_consume now q g =
  match _validate g q now with
  | Ok _ => (after_signing g q, Ok tt)
  | Err e => (g, Err e)
  end.
Proof.
  unfold validate_and_consume, self, lift, mbind, M_bind. by destruct (_validate g q now).
Qed.

Lemma validate_Ok g q now :
  _validate g q now = Ok tt → validate_operation_shape (q_transaction q) = Ok tt →
  decision_allows g q now ∧ payloads_bound q ∧ ∃ tx, raw_matches q tx.
Proof.
  unfold _validate. intros Hv Hs.
  apply bind_Ok in Hv as ([] & Hd & Hv). apply bind_Ok in Hv as ([] & Hp & Hv).
  apply bind_Ok in Hv as ([] & Hb & Hr). apply validate_decision_Ok in Hd.
  apply validate_payloads_Ok in Hp. split_and!; try done.
  destruct (da_chain _ _ _ Hd) as (_ & ? & ?). destruct (da_wallet _ _ _ Hd) as [_ ?].
  apply validate_raw_Ok; try done. congruence.
Qed.

(** C2: what the signer gate lets through is exactly what was
    authorized.  If the gate accepts a request (whose binding is a validated
    model), then the policy key signed the request's decision, which allows, is
    unexpired and names the request's reservation and the hash of its proposal; the
    EIP-712 payload ends with that hash; and the EIP-1559 payload to be signed is
    the canonical encoding of a transaction on the proposal's chain with the
    request's nonce which, for a transfer, sends exactly the proposal's amount of
    the native asset to its recipient with empty calldata and, for a swap, calls the
    proposal's contract with its calldata.  If it refuses, its state is unchanged. *)
Theorem gate_exact_binding now q g :
  validate_operation_shape (q_transaction q) = Ok tt →
  match validate_and_consume now q g with
  | (g', Err _) => g' = g
  | (g', Ok _) => g' = after_signing g q ∧ decision_allows g q now ∧ payloads_bound q
      ∧ ∃ tx encoded, raw_matches q tx
          ∧ fromhex (str_drop2 (q_eip1559_unsigned_payload q)) = Some encoded
          ∧ encode_unsigned_eip1559 tx = Ok ("0x" +:+ hex encoded)
  end.
Proof.
  intros Hs. rewrite validate_and_consume_spec.
  destruct (_validate g q now) as [[]|e] eqn:Hv; [|done].
  destruct (validate_Ok _ _ _ Hv Hs) as (Hd & Hp & tx & Htx). split_and!; try done.
  destruct (decode_unsigned_canonical _ _ (rm_decoded _ _ Htx)) as (enc & ? & ?). eauto.
Qed.

(** * Sequences of requests *)

(** The states of a gate, with the requests accepted so far (latest first). *)
Inductive gate_reach (g0 : SignerAuthorizationGate) :
    list TransactionSignRequestV1 → SignerAuthorizationGate → Prop :=
  | greach_init : gate_reach g0 [] g0
  | greach_accept h g now q g' : gate_reach g0 h g → validate_and_consume now q g = (g', Ok tt) →
      gate_reach g0 (q :: h) g'
  | greach_refuse h g now q g' e : gate_reach g0 h g → validate_and_consume now q g = (g', Err e) →
      gate_reach g0 h g'.

(** The nonces accepted for a wallet on a chain. *)
Definition nonces_of (key : string * Z) (h : list TransactionSignRequestV1) : list Z :=
  q_wallet_nonce <$> filter (λ q, (wallet (q_proposal q), q_chain_id q) = key) h.

Record gate_inv (h : list TransactionSignRequestV1) (g : SignerAuthorizationGate) : Prop := {
  gi_used : ∀ n, n ∈ g_used_decisions g ↔ n ∈ decision_nonce ∘ q_decision <$> h;
  gi_once : NoDup (decision_nonce ∘ q_decision <$> h);
  gi_nonces : ∀ key, 0 ≤ default 0 (g_next_wallet_nonce g !! key)
    ∧ nonces_of key h = reverse (seqZ 0 (default 0 (g_next_wallet_nonce g !! key)));
}.

Lemma validate_decision_of g q now : _validate g q now = Ok tt → decision_allows g q now.
Proof.
  unfold _validate. intros Hv. apply bind_Ok in Hv as ([] & Hd & _). by apply validate_decision_Ok.
Qed.

Lemma gate_accept_inv h g now q :
  gate_inv h g → decision_allows g q now → gate_inv (q :: h) (after_signing g q).
Proof.
  intros [Hu Ho Hn] Hd. constructor; cbn [g_used_decisions after_signing g_next_wallet_nonce];
    rewrite ?fmap_cons.
  - intros n. rewrite elem_of_union, elem_of_singleton, elem_of_cons, Hu. tauto.
  - constructor; [|done]. rewrite <- Hu. apply Hd.
  - intros key. destruct (Hn key) as (Hpos & Hlist).
    unfold nonces_of in *. rewrite filter_cons.
    destruct (decide ((wallet (q_proposal q), q_chain_id q) = key)) as [<-|Hne].
    + rewrite lookup_insert_eq. cbn. rewrite (da_nonce _ _ _ Hd), Hlist.
      split; [lia|]. rewrite seqZ_app by lia. by rewrite reverse_app.
    + by rewrite lookup_insert_ne.
Qed.

Lemma gate_reach_inv g0 h g :
  g_used_decisions g0 = ∅ → g_next_wallet_nonce g0 = ∅ → gate_reach g0 h g → gate_inv h g.
Proof.
  intros Hu Hn. induction 1 as [|h g now q g' _ IH Hv|h g now q g' e _ IH Hv].
  - constructor; [rewrite Hu; set_solver|constructor|].
    intros key. by rewrite Hn, lookup_empty.
  - rewrite validate_and_consume_spec in Hv. destruct (_validate g q now) as [[]|] eqn:Hq; [|done].
    injection Hv as <-. eapply gate_accept_inv; [done|by apply validate_decision_of].
  - rewrite validate_and_consume_spec in Hv. destruct (_validate g q now); [done|].
    by injection Hv as <- _.
Qed.

(** C12: no replay and no gaps at the signer.  Over any sequence of
    requests put to a fresh gate, accepted and refused, no decision is accepted
    twice, and the nonces accepted for each wallet on each chain are 0, 1, 2, ... in
    that order. *)
Theorem gate_no_replay key chains hashes h g w :
  gate_reach (gate_init key chains hashes) h g →
  NoDup (decision_nonce ∘ q_decision <$> h)
  ∧ ∃ n, reverse (nonces_of w h) = seqZ 0 n.
Proof.
  intros Hr. apply gate_reach_inv in Hr; [|done..]. split; [apply Hr|].
  destruct (gi_nonces _ _ Hr w) as [_ Hl]. eexists. by rewrite Hl, reverse_involutive.
Qed.
End gate_facts.

(** * Concrete requests *)

Definition ex_issuer : DecisionIssuer := @DecisionIssuer_from_seed sized_externals "s" 30.

Definition ex_gate : SignerAuthorizationGate :=
  gate_init (kp_pub (issuer_keys ex_issuer)) [31337] None.

(** The request a service makes for a proposal, its decision and a transaction. *)
Definition ex_request (p : ProposalV1) (d : DecisionTokenV1) (rid : Z) (b : TransactionBindingV1)
    : TransactionSignRequestV1 :=
  let e1559 := or_else ""%string (encode_unsigned_eip1559
    {| tx_chain_id := b_chain_id b; tx_nonce := b_wallet_nonce b;
       tx_max_priority_fee_per_gas := b_max_priority_fee_per_gas b;
       tx_max_fee_per_gas := b_max_fee_per_gas b; tx_gas_limit := b_gas_limit b;
       tx_to := default ""%string (b_recipient b ∪ b_contract b); tx_value := b_value b;
       tx_calldata := b_calldata b |}) in
  let e712 := "0x1901" +:+ hex (replicate 32 Byte.x5a) +:+ str_drop2 (d_proposal_hash d) in
  {| q_proposal := p; q_decision := d; q_reservation_id := rid; q_wallet_nonce := b_wallet_nonce b;
     q_chain_id := b_chain_id b; q_transaction := b; q_eip712_payload := e712;
     q_eip1559_unsigned_payload := e1559;
     q_eip712_hash := or_else ""%string (@keccak_hex sized_externals e712);
     q_eip1559_hash := or_else ""%string (@keccak_hex sized_externals e1559);
     q_expires_at := seconds 1020 |}.

Definition ex_transfer : TransactionBindingV1 :=
  {| b_operation := "transfer"; b_wallet := wallet sample_proposal; b_chain_id := 31337;
     b_wallet_nonce := 0; b_asset := "NATIVE:31337"; b_amount := 250;
     b_recipient := Some "0xffeeddccbbaa99887766554433221100ffeeddcc"%string;
     b_contract := None; b_selector := None; b_calldata := "0x"; b_value := 250;
     b_gas_limit := 21000; b_max_fee_per_gas := 2; b_max_priority_fee_per_gas := 1 |}.

Definition ex_transfer_request : TransactionSignRequestV1 :=
  Eval vm_compute in ex_request sample_proposal sample_token 7 ex_transfer.
Definition ex_gate1 : SignerAuthorizationGate :=
  Eval vm_compute in fst (@validate_and_consume sized_externals (seconds 1010) ex_transfer_request ex_gate).

Lemma ex_transfer_accepted :
  @validate_and_consume sized_externals (seconds 1010) ex_transfer_request ex_gate
  = (ex_gate1, Ok tt).
Proof. vm_compute. reflexivity. Qed.

Lemma gate_exact_binding_witness :
  ∃ tx, raw_matches ex_transfer_request tx ∧ tx_value tx = 250.
Proof.
  pose proof (@gate_exact_binding sized_externals (seconds 1010) ex_transfer_request ex_gate
    ltac:(vm_compute; reflexivity)) as H.
  rewrite ex_transfer_accepted in H. destruct H as (_ & _ & _ & tx & enc & H & _).
  exists tx. split; [exact H|]. destruct (rm_effect _ _ H) as (_ & Hv & _). exact Hv.
Defined.

Lemma gate_no_replay_witness :
  NoDup (decision_nonce ∘ q_decision <$> [ex_transfer_request])
  ∧ ∃ n, reverse (nonces_of (wallet sample_proposal, 31337) [ex_transfer_request]) = seqZ 0 n.
Proof.
  refine (@gate_no_replay sized_externals (kp_pub (issuer_keys ex_issuer)) [31337] None _ ex_gate1
    (wallet sample_proposal, 31337) _).
  refine (@greach_accept sized_externals _ _ ex_gate (seconds 1010) ex_transfer_request ex_gate1 _ _).
  - exact (greach_init _).
  - exact ex_transfer_accepted.
Defined.

(** ** A swap whose calldata calls another function *)

Definition ex_router : string := "0x1111111111111111111111111111111111111111".

(** A swap policy that allows only selector [0x38ed1739] of the router. *)
Definition ex_swap_policy : PolicyV1 :=
  {| policy_name := "swaps"; enabled_wallets := [wallet sample_proposal];
     enabled_principals := ["agent-1"]; enabled_chains := [31337]; enabled_assets := ["USDC"];
     allowed_recipients := [];
     contract_rules := [{| rule_contract := ex_router; rule_selectors := ["0x38ed1739"] |}];
     per_transaction_cap := 1000; rolling_caps := []; maximum_transactions_per_hour := 5;
     mandate_required_above := 500; risk := risk sample_policy; emergency_stop := false |}.

(** It names the allowed selector but carries calldata for [0x095ea7b3]. *)
Definition ex_swap_proposal : ProposalV1 :=
  {| proposal_id := proposal_id sample_proposal; principal_id := "agent-1";
     wallet := wallet sample_proposal; chain_id := 31337; asset := "USDC"; amount := 250;
     intent := SwapIntentV1 ex_router "0x38ed1739" "0x095ea7b3ffffffff" 0 "WETH";
     deadline := seconds 2000; idempotency_key := "order-0003"; mandate_id := None;
     quote_reference := Some "quote-1"%string |}.

Definition ex_swap_record : ProposalRecord :=
  Eval vm_compute in decided_record (sample_draws (seconds 1000) 7) ex_swap_proposal
    ex_swap_policy store_init.

Definition ex_swap_token : DecisionTokenV1 :=
  Eval vm_compute in or_else sample_token
    (@issue sized_externals ex_issuer (seconds 1001) 31 32 ex_swap_record sample_version).

Definition ex_swap_binding (value : Z) : TransactionBindingV1 :=
  {| b_operation := "swap"; b_wallet := wallet sample_proposal; b_chain_id := 31337;
     b_wallet_nonce := 0; b_asset := "USDC"; b_amount := 250; b_recipient := None;
     b_contract := Some ex_router; b_selector := Some "0x38ed1739"%string;
     b_calldata := "0x095ea7b3ffffffff"; b_value := value; b_gas_limit := 200000;
     b_max_fee_per_gas := 2; b_max_priority_fee_per_gas := 1 |}.

Definition ex_swap_request (value : Z) : TransactionSignRequestV1 :=
  ex_request ex_swap_proposal ex_swap_token 7 (ex_swap_binding value).

(** The first four bytes of calldata, as a selector. *)
Definition calldata_selector (calldata : string) : string := String.substring 0 10 calldata.

(** A swap's selector and native value are not bound.  The
    policy allows one selector of the router; a valid proposal that names it but
    carries calldata calling another function is evaluated without any reason,
    gets an ALLOW decision, and the gate accepts the request, whatever native value
    the transaction attaches: neither the policy evaluation nor the gate compares
    the selector with the calldata, or a swap's value with the proposal. *)
Theorem swap_selector_and_value_unbound :
  snd (simulate (seconds 1000) (seconds 1000) ex_swap_proposal ex_swap_policy store_init) = Ok []
  ∧ ProposalV1_validate ex_swap_proposal {| dt_wall := seconds 2000; dt_offset := Some 0 |}
    = Ok ex_swap_proposal
  ∧ verdict ex_swap_token = ALLOW
  ∧ calldata_selector "0x095ea7b3ffffffff" ≠ "0x38ed1739"%string
  ∧ ∀ value, value ∈ [0; 7; 1000000000000000000] →
      TransactionBindingV1_validate (ex_swap_binding value) = Ok (ex_swap_binding value)
      ∧ snd (@validate_and_consume sized_externals (seconds 1010) (ex_swap_request value) ex_gate)
        = Ok tt.
Proof.
  split; [vm_compute; reflexivity|]. split; [vm_compute; reflexivity|].
  split; [vm_compute; reflexivity|]. split; [vm_compute; congruence|].
  intros value Hv. repeat (apply elem_of_cons in Hv as [->|Hv]; [split; vm_compute; reflexivity|]).
  by apply elem_of_nil in Hv.
Qed.
