(* ===== verification/Journal.v ===== *)
(** The audit journal (src/agentguard-testbed/src/aegisledger/audit.py): the append-only hash
    chain, Merkle checkpoints, the offline verifier, write-once retention and the
    anchoring service. *)
From Stdlib Require Import ZArith Lia Ascii String.
From Stdlib Require Strings.Byte.
From stdpp Require Import base gmap sets list strings pretty.
From S2P Require Import Prelude Bytes Canonical Contracts Eip1559.

Open Scope Z_scope.

Definition GENESIS_HASH : string := "0x" +:+ hex (replicate 32 Byte.x00).

(** * Events, checkpoints, receipts *)

Record AuditEventV1 := {
  ae_schema_version : string;
  ae_sequence : Z;
  ae_event_id : Z;
  ae_event_type : string;
  ae_aggregate_id : option Z;
  ae_occurred_at : Z;
  ae_actor : string;
  ae_payload : list (pykey * pyval);
  ae_previous_hash : string;
  ae_event_hash : string;
}.

Record AuditCheckpointV1 := {
  ck_checkpoint_id : Z;
  ck_first_sequence : Z;
  ck_last_sequence : Z;
  ck_event_count : Z;
  ck_merkle_root : string;
  ck_head_hash : string;
  ck_created_at : Z;
}.

Record AnchorReceiptV1 := {
  ar_checkpoint_id : Z;
  ar_chain_id : Z;
  ar_contract : string;
  ar_transaction_hash : string;
  ar_block_number : Z;
  ar_merkle_root : string;
  ar_anchored_at : Z;
}.

Record JournalVerification := {
  jv_valid : bool;
  jv_checked_events : Z;
  jv_errors : list string;
}.

Record RetainedObject := { ro_payload : bytes; ro_retain_until : Z; ro_digest : string }.

(** [MemoryRetentionStore] is its dictionary of objects. *)
Abbreviation MemoryRetentionStore := (gmap string RetainedObject).

Definition EventType (s : string) : bool := upper_then code_char 1 95 s.

Definition AuditEventV1_validate (e : AuditEventV1) : result AuditEventV1 :=
  raise_if (negb ((0 <? ae_sequence e) && EventType (ae_event_type e)
                  && length_between 1 256 (ae_actor e) && Hex32 (ae_previous_hash e)
                  && Hex32 (ae_event_hash e)))
    (ValidationError "AuditEventV1");;
  Ok e.

Definition AuditCheckpointV1_validate (c : AuditCheckpointV1) : result AuditCheckpointV1 :=
  raise_if (negb ((0 <? ck_first_sequence c) && (0 <? ck_last_sequence c)
                  && (0 <? ck_event_count c) && Hex32 (ck_merkle_root c)
                  && Hex32 (ck_head_hash c)))
    (ValidationError "AuditCheckpointV1");;
  Ok c.

Definition AnchorReceiptV1_validate (r : AnchorReceiptV1) (at_ : datetime)
    : result AnchorReceiptV1 :=
  raise_if (negb ((0 <? ar_chain_id r) && Address (ar_contract r) && Hex32 (ar_transaction_hash r)
                  && (0 <=? ar_block_number r) && Hex32 (ar_merkle_root r)))
    (ValidationError "AnchorReceiptV1");;
  utc ← try_except catches_ValueError (require_utc "anchored_at" at_) (invalid "AnchorReceiptV1");
  Ok {| ar_checkpoint_id := ar_checkpoint_id r; ar_chain_id := ar_chain_id r;
        ar_contract := str_lower (ar_contract r); ar_transaction_hash := ar_transaction_hash r;
        ar_block_number := ar_block_number r; ar_merkle_root := ar_merkle_root r;
        ar_anchored_at := utc |}.

Section audit.
Context `{!Externals}.

(** * Hashes *)

Definition event_fields (e : AuditEventV1) : list (pykey * pyval) :=
  [(KStr "schema_version", PStr (ae_schema_version e));
   (KStr "sequence", PInt (ae_sequence e));
   (KStr "event_id", PStr (uuid_str (ae_event_id e)));
   (KStr "event_type", PStr (ae_event_type e));
   (KStr "aggregate_id", or_none (PStr ∘ uuid_str <$> ae_aggregate_id e));
   (KStr "occurred_at", PStr (iso (ae_occurred_at e)));
   (KStr "actor", PStr (ae_actor e));
   (KStr "payload", PDict (ae_payload e));
   (KStr "previous_hash", PStr (ae_previous_hash e))].

Definition _event_payload (e : AuditEventV1) : result bytes :=
  canonical_json (PDict (event_fields e)).

Definition _hash_payload (payload : bytes) : string := "0x" +:+ hex (sha256 payload).

(** One round of the Merkle loop: the last node of an odd level is doubled. *)
Fixpoint merkle_level (nodes : list bytes) : list bytes :=
  match nodes with
  | [] => []
  | [a] => [sha256 (a ++ a)]
  | a :: b :: rest => sha256 (a ++ b) :: merkle_level rest
  end.

(** [while len(nodes) > 1]; a level halves, so the length is enough fuel. *)
Fixpoint merkle_loop (fuel : nat) (nodes : list bytes) : result bytes :=
  match nodes with
  | [] => Err (ValueError "empty level")
  | [a] => Ok a
  | _ =>
      match fuel with
      | O => Err OutOfFuel
      | S fuel => merkle_loop fuel (merkle_level nodes)
      end
  end.

(** [[bytes.fromhex(event.event_hash[2:]) for event in events]] *)
Fixpoint event_nodes (events : list AuditEventV1) : result (list bytes) :=
  match events with
  | [] => Ok []
  | e :: events =>
      b ← or_raise (fromhex (str_drop2 (ae_event_hash e)))
            (ValueError "non-hexadecimal number found in fromhex() arg");
      rest ← event_nodes events;
      Ok (b :: rest)
  end.

Definition _merkle_root (events : list AuditEventV1) : result string :=
  nodes ← event_nodes events;
  match nodes with
  | [] => Ok GENESIS_HASH
  | _ => (λ b, "0x" +:+ hex b) <$> merkle_loop (length nodes) nodes
  end.

(** * The journal *)

Record AuditJournal := {
  j_events : list AuditEventV1;
  j_last_anchor_count : Z;
  j_last_anchor_at : Z;
}.

Definition journal_init (now : Z) : AuditJournal :=
  {| j_events := []; j_last_anchor_count := 0; j_last_anchor_at := now |}.

Definition with_event_hash (h : string) (e : AuditEventV1) : AuditEventV1 :=
  {| ae_schema_version := ae_schema_version e; ae_sequence := ae_sequence e;
     ae_event_id := ae_event_id e; ae_event_type := ae_event_type e;
     ae_aggregate_id := ae_aggregate_id e; ae_occurred_at := ae_occurred_at e;
     ae_actor := ae_actor e; ae_payload := ae_payload e;
     ae_previous_hash := ae_previous_hash e; ae_event_hash := h |}.

(** [self._events[-1].event_hash if self._events else GENESIS_HASH] *)
Definition head_hash (events : list AuditEventV1) : string :=
  match last events with Some e => ae_event_hash e | None => GENESIS_HASH end.

(** [append], with the identifier and the time it draws. *)
Definition journal_append (new_id now : Z) (event_type actor : string)
    (payload : list (pykey * pyval)) (aggregate_id : option Z) : M AuditJournal AuditEventV1 :=
  events ← read j_events;
  placeholder ← lift (AuditEventV1_validate
    {| ae_schema_version := "aegisledger.audit_event.v1"; ae_sequence := zlen events + 1;
       ae_event_id := new_id; ae_event_type := event_type; ae_aggregate_id := aggregate_id;
       ae_occurred_at := now; ae_actor := actor; ae_payload := payload;
       ae_previous_hash := head_hash events; ae_event_hash := GENESIS_HASH |});
  body ← lift (_event_payload placeholder);
  event ← lift (AuditEventV1_validate (with_event_hash (_hash_payload body) placeholder));
  update (λ j, {| j_events := j_events j ++ [event];
                  j_last_anchor_count := j_last_anchor_count j;
                  j_last_anchor_at := j_last_anchor_at j |});;
  mret event.

Definition anchor_due (now : Z) : M AuditJournal bool :=
  read (λ j,
    let unanchored := zlen (j_events j) - j_last_anchor_count j in
    (100 <=? unanchored)
    || ((0 <? unanchored) && (seconds 300 <=? now - j_last_anchor_at j))).

Definition snapshot_checkpoint (new_id now : Z) : M AuditJournal AuditCheckpointV1 :=
  events ← read j_events;
  lift (raise_if (bool_decide (events = [])) (ValueError "cannot checkpoint an empty journal"));;
  root ← lift (_merkle_root events);
  lift (AuditCheckpointV1_validate
    {| ck_checkpoint_id := new_id; ck_first_sequence := 1; ck_last_sequence := zlen events;
       ck_event_count := zlen events; ck_merkle_root := root; ck_head_hash := head_hash events;
       ck_created_at := now |}).

Definition mark_anchored (c : AuditCheckpointV1) : M AuditJournal unit :=
  events ← read j_events;
  lift (raise_if (zlen events <? ck_event_count c)
    (ValueError "checkpoint extends beyond current journal"));;
  let anchored := take (Z.to_nat (ck_event_count c)) events in
  root ← lift (_merkle_root anchored);
  lift (raise_if
    (match last anchored with
     | None => true
     | Some e => negb (ck_last_sequence c =? ae_sequence e)
         || negb (bool_decide (ck_head_hash c = ae_event_hash e))
         || negb (bool_decide (ck_merkle_root c = root))
     end) (ValueError "checkpoint does not match journal history"));;
  update (λ j, {| j_events := j_events j;
                  j_last_anchor_count := Z.max (j_last_anchor_count j) (ck_event_count c);
                  j_last_anchor_at := ck_created_at c |}).

Definition checkpoint (new_id now : Z) : M AuditJournal AuditCheckpointV1 :=
  c ← snapshot_checkpoint new_id now;
  mark_anchored c;;
  mret c.

(** * Offline verification *)

(** The [for expected_sequence, event in enumerate(events, start=1)] loop: the
    errors, and the last [previous]. *)
Fixpoint chain_errors (expected : Z) (previous : string) (events : list AuditEventV1)
    : result (list string * string) :=
  match events with
  | [] => Ok ([], previous)
  | e :: events =>
      body ← _event_payload e;
      let here :=
        error_if (negb (ae_sequence e =? expected))
          ("unexpected sequence at position " +:+ pretty expected)
        ++ error_if (negb (bool_decide (ae_previous_hash e = previous)))
          ("previous hash mismatch at sequence " +:+ pretty (ae_sequence e))
        ++ error_if (negb (bool_decide (ae_event_hash e = _hash_payload body)))
          ("event hash mismatch at sequence " +:+ pretty (ae_sequence e)) in
      '(rest, final) ← chain_errors (expected + 1) (ae_event_hash e) events;
      Ok (here ++ rest, final)
  end.

Definition verify_journal (events : list AuditEventV1) (c : AuditCheckpointV1)
    : result JournalVerification :=
  let errors :=
    error_if (negb (zlen events =? ck_event_count c)) "event count does not match trusted checkpoint"
    ++ error_if (match head events with
                 | Some e => negb (ae_sequence e =? ck_first_sequence c) | None => false end)
         "first sequence does not match trusted checkpoint"
    ++ error_if (match last events with
                 | Some e => negb (ae_sequence e =? ck_last_sequence c) | None => false end)
         "last sequence does not match trusted checkpoint" in
  '(chain, final) ← chain_errors 1 GENESIS_HASH events;
  root ← _merkle_root events;
  let errors := errors ++ chain
    ++ error_if (negb (bool_decide (final = ck_head_hash c)))
         "journal head does not match trusted checkpoint"
    ++ error_if (negb (bool_decide (root = ck_merkle_root c)))
         "Merkle root does not match trusted checkpoint" in
  Ok {| jv_valid := bool_decide (errors = []); jv_checked_events := zlen events;
        jv_errors := errors |}.

Definition verify_anchored_journal (events : list AuditEventV1) (c : AuditCheckpointV1)
    (r : AnchorReceiptV1) : result JournalVerification :=
  report ← verify_journal events c;
  let errors := jv_errors report
    ++ error_if (negb (ar_checkpoint_id r =? ck_checkpoint_id c))
         "external anchor references a different checkpoint"
    ++ error_if (negb (bool_decide (ar_merkle_root r = ck_merkle_root c)))
         "external anchor root does not match checkpoint" in
  Ok {| jv_valid := bool_decide (errors = []); jv_checked_events := jv_checked_events report;
        jv_errors := errors |}.

(** * Write-once retention *)

Definition put_once (key : string) (payload : bytes) (retain_until : datetime)
    : M MemoryRetentionStore unit :=
  utc ← lift (require_utc "retain_until" retain_until);
  objects ← self;
  lift (raise_if (bool_decide (is_Some (objects !! key)))
    (FileExistsError ("retained object already exists: " +:+ key)));;
  update (insert key {| ro_payload := payload; ro_retain_until := utc;
                        ro_digest := _hash_payload payload |}).

Definition retention_read (key : string) : M MemoryRetentionStore bytes :=
  objects ← self;
  o ← lift (or_raise (objects !! key) (KeyError key));
  mret (ro_payload o).

(** * Anchoring *)

Record AnchoredCheckpoint := {
  an_checkpoint : AuditCheckpointV1;
  an_receipt : AnchorReceiptV1;
  an_history_key : string;
  an_checkpoint_key : string;
  an_receipt_key : string;
}.

Definition AuditEventV1_dump (e : AuditEventV1) : pyval :=
  PDict (event_fields e ++ [(KStr "event_hash", PStr (ae_event_hash e))]).

Definition AuditCheckpointV1_dump (c : AuditCheckpointV1) : pyval :=
  PDict [(KStr "schema_version", PStr "aegisledger.audit_checkpoint.v1");
    (KStr "checkpoint_id", PStr (uuid_str (ck_checkpoint_id c)));
    (KStr "first_sequence", PInt (ck_first_sequence c));
    (KStr "last_sequence", PInt (ck_last_sequence c));
    (KStr "event_count", PInt (ck_event_count c));
    (KStr "merkle_root", PStr (ck_merkle_root c));
    (KStr "head_hash", PStr (ck_head_hash c));
    (KStr "created_at", PStr (iso (ck_created_at c)))].

Definition AnchorReceiptV1_dump (r : AnchorReceiptV1) : pyval :=
  PDict [(KStr "schema_version", PStr "aegisledger.anchor_receipt.v1");
    (KStr "checkpoint_id", PStr (uuid_str (ar_checkpoint_id r)));
    (KStr "chain_id", PInt (ar_chain_id r));
    (KStr "contract", PStr (ar_contract r));
    (KStr "transaction_hash", PStr (ar_transaction_hash r));
    (KStr "block_number", PInt (ar_block_number r));
    (KStr "merkle_root", PStr (ar_merkle_root r));
    (KStr "anchored_at", PStr (iso (ar_anchored_at r)))].

(** [AnchoringService.anchor] over a journal and a memory retention store; the
    external [AuditAnchor] is the argument [external]. *)
Definition anchor (external : AuditCheckpointV1 → result AnchorReceiptV1) (new_id now : Z)
    (retain_until : datetime) : M (AuditJournal * MemoryRetentionStore) AnchoredCheckpoint :=
  let in_journal {A} (m : M AuditJournal A) := zoom fst (λ j s, (j, snd s)) m in
  let in_store {A} (m : M MemoryRetentionStore A) := zoom snd (λ o s, (fst s, o)) m in
  c ← in_journal (snapshot_checkpoint new_id now);
  let identifier := uuid_str (ck_checkpoint_id c) in
  let history_key := "history/" +:+ identifier +:+ ".json" in
  let checkpoint_key := "checkpoints/" +:+ identifier +:+ ".json" in
  let receipt_key := "anchors/" +:+ identifier +:+ ".json" in
  events ← in_journal (read (λ j, take (Z.to_nat (ck_event_count c)) (j_events j)));
  history ← lift (canonical_json (PDict [(KStr "events", PList (map AuditEventV1_dump events))]));
  in_store (put_once history_key history retain_until);;
  body ← lift (canonical_json (AuditCheckpointV1_dump c));
  in_store (put_once checkpoint_key body retain_until);;
  receipt ← lift (external c);
  lift (raise_if (negb (ar_checkpoint_id receipt =? ck_checkpoint_id c))
    (ValueError "anchor receipt references a different checkpoint"));;
  lift (raise_if (negb (bool_decide (ar_merkle_root receipt = ck_merkle_root c)))
    (ValueError "anchor receipt root does not match checkpoint"));;
  rbody ← lift (canonical_json (AnchorReceiptV1_dump receipt));
  in_store (put_once receipt_key rbody retain_until);;
  in_journal (mark_anchored c);;
  mret {| an_checkpoint := c; an_receipt := receipt; an_history_key := history_key;
          an_checkpoint_key := checkpoint_key; an_receipt_key := receipt_key |}.
End audit.
