(* ===== verification/JournalFacts.v ===== *)
(** Facts of Journal: journals built by [append] verify, verified journals cannot
    differ, retained objects are immutable, anchored checkpoints verify. *)
From Stdlib Require Import ZArith Lia Ascii String.
From Stdlib Require Strings.Byte.
From stdpp Require Import base gmap sets list strings pretty.
From S2P Require Import Prelude Bytes Canonical CanonicalFacts Contracts ContractsFacts Eip1559.
From S2P Require Import Eip1559Facts Journal.

Open Scope Z_scope.

(** SHA-256 digests have 32 bytes. *)
Class Sha256Length `{Externals} : Prop := sha256_length : ∀ b, length (sha256 b) = 32%nat.

Lemma sized_sha256_length : @Sha256Length sized_externals.
Proof. intros b. apply length_to_bytes_be. Qed.

(** * Hexadecimal digests *)

Lemma hex_digit_lower_char n : 0 ≤ n < 16 → hex_lower_char (hex_digit n) = true.
Proof.
  intros Hn. assert (n = 0 ∨ n = 1 ∨ n = 2 ∨ n = 3 ∨ n = 4 ∨ n = 5 ∨ n = 6 ∨ n = 7 ∨ n = 8
    ∨ n = 9 ∨ n = 10 ∨ n = 11 ∨ n = 12 ∨ n = 13 ∨ n = 14 ∨ n = 15) as Hcases by lia.
  by repeat destruct Hcases as [->|Hcases]; [..|subst].
Qed.

Lemma bz_nibbles x : 0 ≤ bz x / 16 < 16 ∧ 0 ≤ bz x mod 16 < 16.
Proof.
  assert (0 ≤ bz x < 256) by (by destruct x).
  split; [split; [apply Z.div_pos|apply Z.div_lt_upper_bound]; lia|apply Z.mod_pos_bound; lia].
Qed.

Lemma hex_lower_chars b : str_forallb hex_lower_char (hex b) = true.
Proof.
  induction b as [|x b IH]; [done|]. cbn [hex str_forallb].
  destruct (bz_nibbles x). by rewrite !hex_digit_lower_char, IH.
Qed.

Lemma Hex32_hex b : length b = 32%nat → Hex32 ("0x" +:+ hex b) = true.
Proof.
  intros Hb. unfold Hex32, prefixed_exactly. destruct (prefixed_hex_shape b) as (H1 & H2 & _).
  rewrite H1, H2, Hb, str_drop_0x, hex_lower_chars. done.
Qed.

(** * The Merkle root is total *)

Section merkle.
Context `{!Externals}.

Lemma merkle_level_length nodes : (length (merkle_level nodes) * 2 ≤ length nodes + 1)%nat.
Proof.
  enough (∀ n l, (length l ≤ n)%nat → (length (merkle_level l) * 2 ≤ length l + 1)%nat) by eauto.
  clear. intros n. induction n as [|n IH]; intros [|a [|b l]] Hl; cbn in *; try lia.
  specialize (IH l ltac:(lia)). lia.
Qed.

Lemma merkle_level_nonempty a l : merkle_level (a :: l) ≠ [].
Proof. by destruct l. Qed.

Lemma merkle_level_32 `{!Sha256Length} nodes : Forall (λ b, length b = 32%nat) (merkle_level nodes).
Proof.
  enough (∀ n l, (length l ≤ n)%nat → Forall (λ b, length b = 32%nat) (merkle_level l)) by eauto.
  clear nodes. intros n. induction n as [|n IH]; intros [|a [|b l]] Hl; cbn in *; try lia;
    repeat constructor; auto using sha256_length. apply IH. lia.
Qed.

Lemma merkle_loop_total `{!Sha256Length} fuel nodes :
  nodes ≠ [] → (length nodes ≤ S fuel)%nat → Forall (λ b, length b = 32%nat) nodes →
  ∃ b, merkle_loop fuel nodes = Ok b ∧ length b = 32%nat.
Proof.
  revert nodes. induction fuel as [|fuel IH]; intros [|a [|b l]] Hn Hl Hall; try done.
  - exists a. by inversion Hall.
  - cbn in Hl. lia.
  - exists a. by inversion Hall.
  - cbn [merkle_loop]. apply IH.
    + apply merkle_level_nonempty.
    + pose proof (merkle_level_length (a :: b :: l)). cbn [length] in *. lia.
    + apply merkle_level_32.
Qed.

Lemma event_nodes_Hex32 evs :
  Forall (λ e, ∃ b, ae_event_hash e = "0x" +:+ hex b ∧ length b = 32%nat) evs →
  ∃ nodes, event_nodes evs = Ok nodes ∧ length nodes = length evs
    ∧ Forall (λ b, length b = 32%nat) nodes.
Proof.
  induction 1 as [|e evs (b & Hb & Hl) _ (nodes & Hn & Hlen & Hall)]; [by exists []|].
  exists (b :: nodes). cbn [event_nodes]. rewrite Hb. destruct (prefixed_hex_shape b) as (_ & _ & ->).
  rewrite fromhex_hex, Hn. cbn. split_and!; [done|lia|by constructor].
Qed.

Lemma merkle_root_total `{!Sha256Length} evs :
  evs ≠ [] → Forall (λ e, ∃ b, ae_event_hash e = "0x" +:+ hex b ∧ length b = 32%nat) evs →
  ∃ b, _merkle_root evs = Ok ("0x" +:+ hex b) ∧ length b = 32%nat.
Proof.
  intros Hne Hall. destruct (event_nodes_Hex32 evs Hall) as (nodes & Hn & Hlen & H32).
  unfold _merkle_root. rewrite Hn. cbn [mbind result_bind].
  destruct nodes as [|a nodes]; [by destruct evs|].
  destruct (merkle_loop_total (length (a :: nodes)) (a :: nodes)) as (b & Hb & ?); [done|lia|done|].
  exists b. split; [|done]. by rewrite Hb.
Qed.
End merkle.

(** * The hash chain *)

Section chain.
Context `{!Externals}.

(** The event carries the hash of its own content. *)
Definition self_hashed (e : AuditEventV1) : Prop :=
  ∃ body, _event_payload e = Ok body ∧ ae_event_hash e = _hash_payload body.

(** Consecutive sequence numbers from [expected], each event naming the hash of
    the one before. *)
Fixpoint chained (expected : Z) (previous : string) (evs : list AuditEventV1) : Prop :=
  match evs with
  | [] => True
  | e :: evs => ae_sequence e = expected ∧ ae_previous_hash e = previous ∧ self_hashed e
      ∧ chained (expected + 1) (ae_event_hash e) evs
  end.

Definition final_hash (previous : string) (evs : list AuditEventV1) : string :=
  match last evs with Some e => ae_event_hash e | None => previous end.

Lemma final_hash_cons p e evs : final_hash p (e :: evs) = final_hash (ae_event_hash e) evs.
Proof. unfold final_hash. destruct evs as [|f evs] using rev_ind; [done|].
  rewrite app_comm_cons, !last_snoc. done. Qed.

Lemma chain_errors_nil expected previous evs final :
  chain_errors expected previous evs = Ok ([], final) ↔
  chained expected previous evs ∧ final = final_hash previous evs.
Proof.
  revert expected previous. induction evs as [|e evs IH]; intros expected previous;
    cbn [chain_errors chained].
  - unfold final_hash. cbn. naive_solver.
  - rewrite final_hash_cons. split.
    + intros Hc. apply bind_Ok in Hc as (body & Hb & Hc).
      apply bind_Ok in Hc as ([rest f] & Hr & Hc). injection Hc as Hnil <-.
      apply app_eq_nil in Hnil as [Hnil ->]. apply app_eq_nil in Hnil as [H1 Hnil].
      apply app_eq_nil in Hnil as [H2 H3]. rewrite error_if_nil in H1, H2, H3. prop_of_bool.
      apply IH in Hr as [Hch ->]. split_and!; try done. by exists body.
    + intros [(H1 & H2 & (body & Hb & Hh) & Hch) ->]. rewrite Hb. cbn [mbind result_bind].
      rewrite (proj2 (IH (expected + 1) (ae_event_hash e)) (conj Hch eq_refl)).
      cbn [mbind result_bind].
      rewrite !(proj2 (error_if_nil _ _)); [done|..];
        rewrite negb_false_iff, ?bool_decide_eq_true, ?Z.eqb_eq; done.
Qed.

Lemma chained_app expected previous evs k :
  chained expected previous (evs ++ k) ↔
  chained expected previous evs ∧ chained (expected + zlen evs) (final_hash previous evs) k.
Proof.
  revert expected previous. induction evs as [|e evs IH]; intros expected previous;
    cbn [chained app].
  - unfold final_hash. cbn. rewrite zlen_nil, Z.add_0_r. tauto.
  - rewrite IH, final_hash_cons, zlen_cons, Z.add_assoc. tauto.
Qed.

Lemma chained_last_sequence expected previous evs e :
  chained expected previous evs → last evs = Some e → ae_sequence e = expected + zlen evs - 1.
Proof.
  intros Hc Hl. destruct evs as [|f evs] using rev_ind; [done|].
  rewrite last_snoc in Hl. injection Hl as ->. apply chained_app in Hc as [_ [Hs _]].
  rewrite Hs, zlen_app, zlen_cons, zlen_nil. lia.
Qed.

Lemma chained_head_sequence expected previous evs e :
  chained expected previous evs → head evs = Some e → ae_sequence e = expected.
Proof. destruct evs; [done|]. by intros [? _] [= <-]. Qed.

(** * Verification, exactly *)

(** What a clean report means. *)
Lemma verify_journal_valid evs c r :
  verify_journal evs c = Ok r →
  (jv_valid r = true ↔ zlen evs = ck_event_count c
     ∧ (∀ e, head evs = Some e → ae_sequence e = ck_first_sequence c)
     ∧ (∀ e, last evs = Some e → ae_sequence e = ck_last_sequence c)
     ∧ chained 1 GENESIS_HASH evs ∧ final_hash GENESIS_HASH evs = ck_head_hash c
     ∧ _merkle_root evs = Ok (ck_merkle_root c)).
Proof.
  unfold verify_journal. intros Hv. apply bind_Ok in Hv as ([chain final] & Hc & Hv).
  apply bind_Ok in Hv as (root & Hr & Hv). injection Hv as <-. cbn [jv_valid].
  rewrite bool_decide_eq_true, !app_nil_iff, !error_if_nil, !negb_false_iff, Z.eqb_eq,
    !bool_decide_eq_true, Hr.
  split.
  - intros ((H1 & H2 & H3) & -> & H5 & H6). apply chain_errors_nil in Hc as [Hch ->].
    split_and!; try done; [| |by f_equal].
    + intros e He. rewrite He in H2. apply negb_false_iff, Z.eqb_eq in H2. done.
    + intros e He. rewrite He in H3. apply negb_false_iff, Z.eqb_eq in H3. done.
  - intros (H1 & H2 & H3 & H4 & H5 & [= H6]).
    rewrite (proj2 (chain_errors_nil 1 GENESIS_HASH evs _) (conj H4 eq_refl)) in Hc.
    injection Hc as <- <-. split_and!; try done.
    + destruct (head evs); [|done]. apply negb_false_iff, Z.eqb_eq. auto.
    + destruct (last evs); [|done]. apply negb_false_iff, Z.eqb_eq. auto.
Qed.
End chain.

(** * Journals *)

Section journal.
Context `{!Externals} `{!Sha256Length}.

Definition digest_hex (h : string) : Prop := ∃ b, h = "0x" +:+ hex b ∧ length b = 32%nat.

Record journal_inv (evs : list AuditEventV1) : Prop := {
  jinv_chain : chained 1 GENESIS_HASH evs;
  jinv_digests : Forall (λ e, digest_hex (ae_event_hash e)) evs;
}.

Lemma AuditEventV1_validate_Ok e e' : AuditEventV1_validate e = Ok e' → e' = e.
Proof. unfold AuditEventV1_validate. intros Hv. ok_invs. done. Qed.

Lemma head_final evs : head_hash evs = final_hash GENESIS_HASH evs.
Proof. done. Qed.

Lemma journal_append_cases new_id now ty actor payload agg j :
  (∃ e, journal_append new_id now ty actor payload agg j = (j, Err e))
  ∨ (∃ ev, journal_append new_id now ty actor payload agg j
       = ({| j_events := j_events j ++ [ev]; j_last_anchor_count := j_last_anchor_count j;
             j_last_anchor_at := j_last_anchor_at j |}, Ok ev)
     ∧ ae_sequence ev = zlen (j_events j) + 1 ∧ ae_previous_hash ev = head_hash (j_events j)
     ∧ self_hashed ev ∧ digest_hex (ae_event_hash ev)
     ∧ ae_event_type ev = ty ∧ ae_actor ev = actor ∧ ae_payload ev = payload
     ∧ ae_aggregate_id ev = agg).
Proof.
  unfold journal_append, read, lift, mbind, M_bind.
  destruct (AuditEventV1_validate _) as [ph|e] eqn:Hph; [|by left; exists e].
  apply AuditEventV1_validate_Ok in Hph. subst ph.
  destruct (_event_payload _) as [body|e] eqn:Hbody; [|by left; exists e].
  destruct (AuditEventV1_validate (with_event_hash _ _)) as [ev|e] eqn:Hev; [|by left; exists e].
  apply AuditEventV1_validate_Ok in Hev. subst ev. right. eexists. split; [done|].
  cbn [ae_sequence ae_previous_hash ae_event_type ae_actor ae_payload ae_aggregate_id
       with_event_hash ae_event_hash].
  split_and!; try done; [|exists (sha256 body); auto using sha256_length].
  exists body. split; [|done]. exact Hbody.
Qed.

Lemma journal_inv_snoc evs ev :
  journal_inv evs → ae_sequence ev = zlen evs + 1 → ae_previous_hash ev = head_hash evs →
  self_hashed ev → digest_hex (ae_event_hash ev) → journal_inv (evs ++ [ev]).
Proof.
  intros [Hc Hd] Hs Hp Hh Hx. constructor.
  - apply chained_app. split; [done|]. cbn. split_and!; try done. lia.
  - apply Forall_app. by repeat constructor.
Qed.

(** Journals built by [append], with checkpoints marked in between. *)
Inductive journal_reach : AuditJournal → Prop :=
  | jreach_init now : journal_reach (journal_init now)
  | jreach_append j new_id now ty actor payload agg : journal_reach j →
      journal_reach (fst (journal_append new_id now ty actor payload agg j))
  | jreach_mark j c : journal_reach j → journal_reach (fst (mark_anchored c j)).

Lemma mark_anchored_events c j : j_events (fst (mark_anchored c j)) = j_events j.
Proof.
  unfold mark_anchored, read, lift, mbind, M_bind. destruct (_ <? _); cbn; [done|].
  destruct (_merkle_root _); cbn; [|done]. by destruct (last _) as [e|]; [destruct (_ || _)|].
Qed.

Lemma journal_reach_inv j : journal_reach j → journal_inv (j_events j).
Proof.
  induction 1 as [now|j new_id now ty actor payload agg _ IH|j c _ IH].
  - constructor; [done|constructor].
  - destruct (journal_append_cases new_id now ty actor payload agg j)
      as [[e ->]|(ev & -> & ? & ? & ? & ? & _)]; [done|]. by apply journal_inv_snoc.
  - by rewrite mark_anchored_events.
Qed.

(** A non-empty journal can be checkpointed, and the checkpoint says what it is. *)
Lemma snapshot_total new_id now j :
  journal_inv (j_events j) → j_events j ≠ [] →
  ∃ c, snapshot_checkpoint new_id now j = (j, Ok c)
    ∧ ck_checkpoint_id c = new_id ∧ ck_first_sequence c = 1 ∧ ck_last_sequence c = zlen (j_events j)
    ∧ ck_event_count c = zlen (j_events j) ∧ _merkle_root (j_events j) = Ok (ck_merkle_root c)
    ∧ ck_head_hash c = final_hash GENESIS_HASH (j_events j).
Proof.
  intros [Hc Hd] Hne. destruct (merkle_root_total (j_events j) Hne Hd) as (b & Hb & Hl).
  unfold snapshot_checkpoint, read, lift, mbind, M_bind. rewrite bool_decide_false by done.
  cbn [raise_if]. rewrite Hb. eexists. split.
  - unfold AuditCheckpointV1_validate.
    assert (0 < zlen (j_events j)) as Hz.
    { destruct (j_events j); [done|]. rewrite zlen_cons. pose proof (zlen_nonneg l). lia. }
    assert (Hex32 (head_hash (j_events j)) = true) as Hh.
    { unfold head_hash. destruct (last (j_events j)) as [e|] eqn:He; [|done].
      apply last_Some_elem_of in He. rewrite Forall_forall in Hd.
      destruct (Hd e He) as (x & -> & ?). by apply Hex32_hex. }
    cbn [ck_first_sequence ck_last_sequence ck_event_count ck_merkle_root ck_head_hash].
    rewrite Hh, Hex32_hex, !(proj2 (Z.ltb_lt 0 _)) by (done || lia). done.
  - by split_and!.
Qed.

Lemma valid_report evs c :
  zlen evs = ck_event_count c → ck_first_sequence c = 1 → ck_last_sequence c = zlen evs →
  chained 1 GENESIS_HASH evs → ck_head_hash c = final_hash GENESIS_HASH evs →
  _merkle_root evs = Ok (ck_merkle_root c) →
  verify_journal evs c = Ok {| jv_valid := true; jv_checked_events := zlen evs; jv_errors := [] |}.
Proof.
  intros H1 H2 H3 H4 H5 H6.
  destruct (verify_journal evs c) as [r|e] eqn:Hv.
  - assert (jv_valid r = true) as Hr.
    { apply (verify_journal_valid _ _ _ Hv). split_and!; try done.
      - intros e He. by rewrite (chained_head_sequence _ _ _ _ H4 He).
      - intros e He. rewrite (chained_last_sequence _ _ _ _ H4 He). lia. }
    unfold verify_journal in Hv. apply bind_Ok in Hv as ([chain final] & _ & Hv).
    apply bind_Ok in Hv as (root & _ & Hv). injection Hv as <-. cbn [jv_valid] in Hr.
    rewrite Hr. by apply bool_decide_eq_true in Hr as ->.
  - exfalso. unfold verify_journal in Hv.
    rewrite (proj2 (chain_errors_nil 1 GENESIS_HASH evs _) (conj H4 eq_refl)), H6 in Hv. done.
Qed.

(** The journal only grows at its end. *)
Inductive journal_later (j : AuditJournal) : AuditJournal → Prop :=
  | jlater_refl : journal_later j j
  | jlater_append j' new_id now ty actor payload agg : journal_later j j' →
      journal_later j (fst (journal_append new_id now ty actor payload agg j'))
  | jlater_mark j' c : journal_later j j' → journal_later j (fst (mark_anchored c j')).

Lemma journal_later_prefix j j' : journal_later j j' → ∃ k, j_events j' = j_events j ++ k.
Proof.
  induction 1 as [|j' new_id now ty actor payload agg _ [k IH]|j' c _ [k IH]].
  - exists []. by rewrite app_nil_r.
  - destruct (journal_append_cases new_id now ty actor payload agg j')
      as [[e ->]|(ev & -> & _)]; [eauto|]. exists (k ++ [ev]). cbn. by rewrite IH, app_assoc.
  - exists k. by rewrite mark_anchored_events.
Qed.

(** an honest journal verifies, now and later.  A non-empty
    journal built by [append] can always be checkpointed; the checkpoint's own events
    pass [verify_journal] with no error, and so does the same prefix of every later
    state of the journal, however many events are appended after it. *)
Theorem honest_journal_verifies new_id now j :
  journal_reach j → j_events j ≠ [] →
  ∃ c, snapshot_checkpoint new_id now j = (j, Ok c)
    ∧ ∀ j', journal_later j j' →
        verify_journal (take (length (j_events j)) (j_events j')) c
        = Ok {| jv_valid := true; jv_checked_events := zlen (j_events j); jv_errors := [] |}.
Proof.
  intros Hr Hne. pose proof (journal_reach_inv j Hr) as Hinv.
  destruct (snapshot_total new_id now j Hinv Hne) as (c & Hs & _ & H1 & H2 & H3 & H4 & H5).
  exists c. split; [done|]. intros j' Hl.
  destruct (journal_later_prefix j j' Hl) as [k ->]. rewrite take_app_length.
  apply valid_report; try done. apply Hinv.
Qed.
End journal.

(** * Tamper evidence *)

(** The same event, its payload up to the order of the keys. *)
Definition same_event (e f : AuditEventV1) : Prop :=
  sort_keys (PDict (ae_payload e)) = sort_keys (PDict (ae_payload f))
  ∧ f = {| ae_schema_version := ae_schema_version e; ae_sequence := ae_sequence e;
           ae_event_id := ae_event_id e; ae_event_type := ae_event_type e;
           ae_aggregate_id := ae_aggregate_id e; ae_occurred_at := ae_occurred_at e;
           ae_actor := ae_actor e; ae_payload := ae_payload f;
           ae_previous_hash := ae_previous_hash e; ae_event_hash := ae_event_hash e |}.

Definition event_ids (e : AuditEventV1) : Prop :=
  uuid_range (ae_event_id e) ∧ from_option uuid_range True (ae_aggregate_id e).

Section tamper.
Context `{!Externals} `{!Rfc8785Law} `{!IsoLaw}.

Lemma event_payload_inj e f b :
  event_ids e → event_ids f → ae_event_hash e = ae_event_hash f →
  _event_payload e = Ok b → _event_payload f = Ok b → same_event e f.
Proof.
  intros [He1 He2] [Hf1 Hf2] Hhash Hb1 Hb2.
  pose proof (canonical_json_inj _ _ _ Hb1 Hb2) as Heq. clear Hb1 Hb2.
  destruct e as [e1 e2 e3 e4 e5 e6 e7 e8 e9 e10], f as [f1 f2 f3 f4 f5 f6 f7 f8 f9 f10].
  unfold event_fields in Heq. cbn [ae_event_id ae_aggregate_id ae_event_hash] in *.
  same_entry Heq "schema_version". same_entry Heq "sequence".
  same_entry Heq "event_id". apply uuid_str_inj in Hk1; [|done..].
  same_entry Heq "event_type".
  assert (e5 = f5) as ->.
  { pose proof (sort_keys_entry "aggregate_id" _ _ Heq) as Hm.
    destruct e5, f5; cbn -[uuid_str] in Hm; try done; apply some_str in Hm;
      apply uuid_str_inj in Hm; by subst. }
  assert (e6 = f6) as -> by (same_entry Heq "occurred_at"; by apply iso_inj).
  same_entry Heq "actor".
  pose proof (sort_keys_entry "payload" _ _ Heq) as Hp.
  change (Some (sort_keys (PDict e8)) = Some (sort_keys (PDict f8))) in Hp.
  same_entry Heq "previous_hash". subst. split; [|done]. cbn [ae_payload]. congruence.
Qed.

(** SHA-256 does not collide on the payloads of these events. *)
Definition no_collision (evs evs' : list AuditEventV1) : Prop :=
  ∀ e f a b, e ∈ evs → f ∈ evs' → _event_payload e = Ok a → _event_payload f = Ok b →
    sha256 a = sha256 b → a = b.

Lemma hash_payload_inj a b : _hash_payload a = _hash_payload b → sha256 a = sha256 b.
Proof. unfold _hash_payload. intros Heq. apply (inj (String.append "0x")) in Heq. by apply hex_inj. Qed.

Lemma chained_unique evs evs' :
  length evs = length evs' → no_collision evs evs' →
  Forall event_ids evs → Forall event_ids evs' →
  chained 1 GENESIS_HASH evs → chained 1 GENESIS_HASH evs' →
  final_hash GENESIS_HASH evs = final_hash GENESIS_HASH evs' → Forall2 same_event evs evs'.
Proof.
  revert evs'. induction evs as [|e evs IH] using rev_ind; intros evs' Hlen Hnc Hi Hi' Hc Hc' Hf.
  { destruct evs'; [constructor|done]. }
  destruct evs' as [|f evs' _] using rev_ind; [rewrite length_app in Hlen; cbn in Hlen; lia|].
  rewrite !length_app in Hlen. cbn in Hlen.
  apply Forall_app in Hi as [Hi He], Hi' as [Hi' He'].
  rewrite Forall_singleton in He, He'.
  apply chained_app in Hc as [Hc (_ & Hp & (a & Ha & Hha) & _)],
    Hc' as [Hc' (_ & Hp' & (b & Hb & Hhb) & _)].
  unfold final_hash in Hf at 1 2. rewrite !last_snoc in Hf.
  assert (a = b) as <-.
  { apply (Hnc e f a b); try done; [set_solver..|]. apply hash_payload_inj. congruence. }
  assert (same_event e f) as Hef by (by apply (event_payload_inj e f a)).
  apply Forall2_app; [|constructor; [done|apply Forall2_nil_2]]. apply IH; try done; try lia.
  - intros x y u v Hx Hy. apply Hnc; set_solver.
  - destruct Hef as [_ Hef]. rewrite <- Hp, <- Hp'. by rewrite Hef.
Qed.

(** C28: a verified journal is the journal.  If two event lists both
    pass [verify_journal] against the same trusted checkpoint, and SHA-256 does not
    collide on their events, they have the same events in the same order: no
    event can be altered, dropped, inserted or reordered without the report being
    invalid (a payload may only list its keys in another order). *)
Theorem verified_journal_unique evs evs' c r r' :
  no_collision evs evs' → Forall event_ids evs → Forall event_ids evs' →
  verify_journal evs c = Ok r → verify_journal evs' c = Ok r' →
  jv_valid r = true → jv_valid r' = true → Forall2 same_event evs evs'.
Proof.
  intros Hnc Hi Hi' Hv Hv' Hr Hr'.
  apply (verify_journal_valid _ _ _ Hv) in Hr as (Hl & _ & _ & Hc & Hf & _).
  apply (verify_journal_valid _ _ _ Hv') in Hr' as (Hl' & _ & _ & Hc' & Hf' & _).
  apply chained_unique; try done; [unfold zlen in *; lia|congruence].
Qed.
End tamper.

(** * Retention *)

Section retention.
Context `{!Externals}.

Lemma put_once_cases key payload until o :
  (∃ e, put_once key payload until o = (o, Err e))
  ∨ (o !! key = None ∧ ∃ utc, put_once key payload until o =
       (<[key := {| ro_payload := payload; ro_retain_until := utc;
                    ro_digest := _hash_payload payload |}]> o, Ok tt)).
Proof.
  unfold put_once, self, lift, mbind, M_bind.
  destruct (require_utc _ until) as [utc|e]; [|by left; exists e].
  case_bool_decide as Hk; cbn; [by left; eexists|]. right.
  split; [|by exists utc]. by apply eq_None_not_Some.
Qed.

Inductive retention_later (o : MemoryRetentionStore) : MemoryRetentionStore → Prop :=
  | rlater_refl : retention_later o o
  | rlater_put o' key payload until : retention_later o o' →
      retention_later o (fst (put_once key payload until o')).

Lemma retention_later_mono o o' : retention_later o o' → o ⊆ o'.
Proof.
  induction 1 as [|o' key payload until _ IH]; [done|]. etrans; [done|].
  destruct (put_once_cases key payload until o') as [[e ->]|(Hn & utc & ->)]; [done|].
  by apply insert_subseteq.
Qed.

(** Retained objects are write-once.  After [put_once] stored a
    payload under a key, every later [put_once] on that key raises [FileExistsError]
    or a naive-datetime error and changes nothing, and [read] returns that very
    payload in every later state of the store. *)
Theorem retention_write_once key payload until o o' payload' until' :
  snd (put_once key payload until o) = Ok tt →
  retention_later (fst (put_once key payload until o)) o' →
  snd (retention_read key o') = Ok payload
  ∧ fst (put_once key payload' until' o') = o' ∧ is_ok (snd (put_once key payload' until' o')) = false.
Proof.
  intros Hok Hl. destruct (put_once_cases key payload until o) as [[e He]|(Hn & utc & He)];
    rewrite He in Hok, Hl; [done|]. cbn [fst] in Hl. apply retention_later_mono in Hl.
  assert (o' !! key = Some {| ro_payload := payload; ro_retain_until := utc;
                              ro_digest := _hash_payload payload |}) as Hk.
  { eapply lookup_weaken; [|exact Hl]. by apply lookup_insert_eq. }
  split.
  - unfold retention_read, self, lift, mbind, M_bind. by rewrite Hk.
  - destruct (put_once_cases key payload' until' o') as [[e' ->]|(Hn' & _)]; [done|congruence].
Qed.
End retention.

(** * Anchoring *)

Section anchoring.
Context `{!Externals} `{!Sha256Length}.

(** Stores into which exactly this payload went. *)
Lemma put_once_Ok key payload until o o' :
  put_once key payload until o = (o', Ok tt) →
  snd (retention_read key o') = Ok payload ∧ o ⊆ o'.
Proof.
  intros Hp. destruct (put_once_cases key payload until o) as [[e He]|(Hn & utc & He)];
    rewrite He in Hp; [done|]. injection Hp as <-. split.
  - unfold retention_read, self, lift, mbind, M_bind.
    by rewrite lookup_insert_eq.
  - by apply insert_subseteq.
Qed.

Lemma retention_read_mono key o o' b :
  o ⊆ o' → snd (retention_read key o) = Ok b → snd (retention_read key o') = Ok b.
Proof.
  unfold retention_read, self, lift, mbind, M_bind. intros Hs.
  destruct (o !! key) as [r|] eqn:Hk; [|done].
  by rewrite (lookup_weaken _ _ _ _ Hk Hs).
Qed.

(** What a returned checkpoint says of the journal. *)
Lemma snapshot_Ok new_id now j j' c :
  journal_inv (j_events j) → snapshot_checkpoint new_id now j = (j', Ok c) →
  j' = j ∧ ck_event_count c = zlen (j_events j) ∧ ck_first_sequence c = 1
  ∧ ck_last_sequence c = zlen (j_events j) ∧ _merkle_root (j_events j) = Ok (ck_merkle_root c)
  ∧ ck_head_hash c = final_hash GENESIS_HASH (j_events j).
Proof.
  intros Hinv Hs. destruct (decide (j_events j = [])) as [He|Hne].
  - unfold snapshot_checkpoint, read, lift, mbind, M_bind in Hs. by rewrite He in Hs.
  - destruct (snapshot_total new_id now j Hinv Hne) as (c' & Hs' & _ & ?).
    rewrite Hs' in Hs. injection Hs as <- <-. tauto.
Qed.

Lemma mark_anchored_Ok c j j' :
  mark_anchored c j = (j', Ok tt) →
  j_events j' = j_events j
  ∧ j_last_anchor_count j' = Z.max (j_last_anchor_count j) (ck_event_count c).
Proof. unfold mark_anchored. intros Hm. m_inv Hm. m_invs. done. Qed.

Lemma verify_anchored_valid evs c r :
  verify_journal evs c = Ok {| jv_valid := true; jv_checked_events := zlen evs; jv_errors := [] |} →
  ar_checkpoint_id r = ck_checkpoint_id c → ar_merkle_root r = ck_merkle_root c →
  verify_anchored_journal evs c r
  = Ok {| jv_valid := true; jv_checked_events := zlen evs; jv_errors := [] |}.
Proof.
  intros Hv Hid Hroot. unfold verify_anchored_journal. rewrite Hv, Hid, Hroot, Z.eqb_refl.
  cbn [mbind result_bind]. by rewrite (bool_decide_true (ck_merkle_root c = _)).
Qed.

(** An anchored checkpoint verifies.  When [AnchoringService.anchor]
    returns, the journal's events are unchanged and pass [verify_anchored_journal]
    against the returned checkpoint and external receipt with no error, the journal
    counts them as anchored, and the history, checkpoint and receipt can be read
    back from the retention store as the canonical bytes that were written. *)
Theorem anchor_verifies external new_id now until j o s' a :
  journal_reach j → anchor external new_id now until (j, o) = (s', Ok a) →
  j_events (fst s') = j_events j
  ∧ verify_anchored_journal (j_events j) (an_checkpoint a) (an_receipt a)
    = Ok {| jv_valid := true; jv_checked_events := zlen (j_events j); jv_errors := [] |}
  ∧ j_last_anchor_count (fst s') = Z.max (j_last_anchor_count j) (zlen (j_events j))
  ∧ (∃ b, canonical_json (PDict [(KStr "events", PList (map AuditEventV1_dump (j_events j)))]) = Ok b
          ∧ snd (retention_read (an_history_key a) (snd s')) = Ok b)
  ∧ (∃ b, canonical_json (AuditCheckpointV1_dump (an_checkpoint a)) = Ok b
          ∧ snd (retention_read (an_checkpoint_key a) (snd s')) = Ok b)
  ∧ (∃ b, canonical_json (AnchorReceiptV1_dump (an_receipt a)) = Ok b
          ∧ snd (retention_read (an_receipt_key a) (snd s')) = Ok b)
  ∧ o ⊆ snd s'.
Proof.
  intros Hr Ha. pose proof (journal_reach_inv j Hr) as Hinv. unfold anchor in Ha.
  m_inv Ha. m_invs. cbn [fst snd] in *.
  destruct (snapshot_Ok _ _ _ _ _ Hinv Ha0) as (-> & Hn & H1 & H2 & Hroot & Hhead).
  assert (take (Z.to_nat (ck_event_count x0)) (j_events j) = j_events j) as Htake
    by (apply take_ge; rewrite Hn; unfold zlen; lia).
  rewrite Htake in *. destruct (mark_anchored_Ok _ _ _ Ha11) as [Hev Hcount].
  destruct (put_once_Ok _ _ _ _ _ Ha3) as [Hr1 Ho1], (put_once_Ok _ _ _ _ _ Ha5) as [Hr2 Ho2],
    (put_once_Ok _ _ _ _ _ Ha10) as [Hr3 Ho3].
  prop_of_bool. rewrite Hn in Hcount.
  split_and!; try done.
  - apply verify_anchored_valid; [|done..]. apply valid_report; try done. apply Hinv.
  - eexists. split; [done|]. eapply retention_read_mono; [|done]. by etrans.
  - eexists. split; [done|]. by eapply retention_read_mono.
  - by eexists.
  - by etrans; [|etrans].
Qed.
End anchoring.

(** * A concrete journal *)

Definition journal_run (j : AuditJournal) (k : Z) (agg : option Z) : AuditJournal :=
  fst (@journal_append sized_externals k (k * 1000) "INTENT_ACCEPTED" "gateway"
         [(KStr "index", PInt k)] agg j).
Definition sample_journal : AuditJournal :=
  Eval vm_compute in journal_run (journal_run (journal_init 0) 1 (Some 7)) 2 None.

Lemma sample_journal_reach : @journal_reach sized_externals sample_journal.
Proof.
  assert (sample_journal = journal_run (journal_run (journal_init 0) 1 (Some 7)) 2 None) as ->
    by (by vm_compute).
  unfold journal_run. apply jreach_append, jreach_append, jreach_init.
Qed.

Definition sample_checkpoint : AuditCheckpointV1 :=
  Eval vm_compute in
    match snd (@snapshot_checkpoint sized_externals 3 4000 sample_journal) with
    | Ok c => c
    | Err _ => {| ck_checkpoint_id := 0; ck_first_sequence := 0; ck_last_sequence := 0;
                  ck_event_count := 0; ck_merkle_root := ""; ck_head_hash := "";
                  ck_created_at := 0 |}
    end.

Lemma honest_journal_verifies_witness :
  length (j_events sample_journal) = 2%nat ∧
  ∃ c, @snapshot_checkpoint sized_externals 3 4000 sample_journal = (sample_journal, Ok c)
    ∧ ∀ j', @journal_later sized_externals sample_journal j' →
        @verify_journal sized_externals
          (take (length (j_events sample_journal)) (j_events j')) c
        = Ok {| jv_valid := true; jv_checked_events := zlen (j_events sample_journal);
                jv_errors := [] |}.
Proof.
  split; [reflexivity|].
  apply (@honest_journal_verifies sized_externals sized_sha256_length 3 4000 sample_journal).
  - exact sample_journal_reach.
  - discriminate.
Defined.

Lemma verified_journal_unique_witness :
  Forall2 same_event (j_events sample_journal) (j_events sample_journal).
Proof.
  apply (@verified_journal_unique sized_externals sized_rfc8785 sized_iso (j_events sample_journal)
    (j_events sample_journal) sample_checkpoint
    {| jv_valid := true; jv_checked_events := 2; jv_errors := [] |}
    {| jv_valid := true; jv_checked_events := 2; jv_errors := [] |}).
  - intros e f a b He Hf Ha Hb Hs.
    apply elem_of_cons in He as [->|He]; [|apply list_elem_of_singleton in He as ->];
    (apply elem_of_cons in Hf as [->|Hf]; [|apply list_elem_of_singleton in Hf as ->]);
    vm_compute in Ha; vm_compute in Hb; injection Ha as <-; injection Hb as <-;
    first [reflexivity | vm_compute in Hs; discriminate Hs].
  - repeat constructor; by vm_compute.
  - repeat constructor; by vm_compute.
  - vm_compute. reflexivity.
  - vm_compute. reflexivity.
  - reflexivity.
  - reflexivity.
Defined.

Definition never : datetime := {| dt_wall := seconds 999999; dt_offset := Some 0 |}.

Lemma retention_write_once_witness :
  snd (@retention_read "k" (fst (@put_once sized_externals "k" [Byte.x01] never ∅))) = Ok [Byte.x01]
  ∧ fst (@put_once sized_externals "k" [Byte.x02] never
           (fst (@put_once sized_externals "k" [Byte.x01] never ∅)))
    = fst (@put_once sized_externals "k" [Byte.x01] never ∅)
  ∧ is_ok (snd (@put_once sized_externals "k" [Byte.x02] never
           (fst (@put_once sized_externals "k" [Byte.x01] never ∅)))) = false.
Proof.
  apply (@retention_write_once sized_externals "k" [Byte.x01] never ∅ _ [Byte.x02] never).
  - vm_compute. reflexivity.
  - apply rlater_refl.
Defined.

Definition sample_anchor (c : AuditCheckpointV1) : result AnchorReceiptV1 :=
  AnchorReceiptV1_validate
    {| ar_checkpoint_id := ck_checkpoint_id c; ar_chain_id := 1;
       ar_contract := "0x00000000000000000000000000000000000000Aa";
       ar_transaction_hash := GENESIS_HASH; ar_block_number := 12;
       ar_merkle_root := ck_merkle_root c; ar_anchored_at := 0 |}
    {| dt_wall := 5000; dt_offset := Some 0 |}.

Lemma anchor_verifies_witness :
  ∃ s' a, @anchor sized_externals sample_anchor 3 4000 never (sample_journal, ∅) = (s', Ok a)
    ∧ @verify_anchored_journal sized_externals (j_events sample_journal) (an_checkpoint a)
        (an_receipt a)
      = Ok {| jv_valid := true; jv_checked_events := zlen (j_events sample_journal); jv_errors := [] |}.
Proof.
  assert (is_ok (snd (@anchor sized_externals sample_anchor 3 4000 never (sample_journal, ∅))) = true)
    as Hok by (vm_compute; reflexivity).
  destruct (@anchor sized_externals sample_anchor 3 4000 never (sample_journal, ∅))
    as [s' [a|e]] eqn:Ha; [|discriminate Hok].
  exists s', a. split; [reflexivity|].
  exact (proj1 (proj2 (@anchor_verifies sized_externals sized_sha256_length sample_anchor 3 4000 never
    sample_journal ∅ s' a sample_journal_reach Ha))).
Defined.
