(* ===== verification/Retention.v ===== *)
(** Write-once retention behind its protocol (src/agentguard-testbed/src/aegisledger/audit.py):
    the memory store of Journal, [FilesystemRetentionStore] and [S3ObjectLockStore], and
    [AnchoringService.anchor] over any of them.

    A file below the root is named by the components of its resolved path; there are no
    symbolic links below it.  The boto3 client is a parameter. *)
From Stdlib Require Import ZArith Lia Ascii String.
From stdpp Require Import base gmap sets list strings pretty.
From S2P Require Import Prelude Bytes Float64 Canonical CanonicalFacts Json Contracts Journal.

Open Scope Z_scope.

(** The protocol [RetentionStore]. *)
Class RetentionStore (S : Type) := {
  rt_put_once : string → bytes → datetime → M S unit;
  rt_read : string → M S bytes;
}.

(** * The file system *)

Definition key_first (c : ascii) : bool :=
  let n := nat_of_ascii c in is_digit c || (Nat.leb 97 n && Nat.leb n 122).
Definition key_char (c : ascii) : bool := key_first c || is_in c ["."; "_"; "/"; "-"]%char.
(** [_KEY.fullmatch] *)
Definition retention_key (key : string) : bool :=
  match key with
  | EmptyString => false
  | String c rest => key_first c && str_forallb key_char rest && Nat.leb (String.length rest) 511
  end.

(** [key.split("/")] *)
Fixpoint split_slash (part s : string) : list string :=
  match s with
  | EmptyString => [part]
  | String c s => if bool_decide (c = "/"%char) then part :: split_slash "" s
                  else split_slash (part +:+ String c "") s
  end.

Record FilesystemRetentionStore := { fr_files : gmap (list string) bytes; fr_directories : gset (list string) }.

(** [_path]: the components below the root. *)
Definition _path (key : string) : result (list string) :=
  let parts := split_slash "" key in
  raise_if (negb (retention_key key) || is_in ".." parts) (ValueError "invalid retention object key");;
  let path := filter (λ c, c ≠ "" ∧ c ≠ ".") parts in
  raise_if (bool_decide (path = [])) (ValueError "retention key escapes configured root");;
  Ok path.

(** The non-empty prefixes of a path, itself included. *)
Fixpoint prefixes (path : list string) : list (list string) :=
  match path with
  | [] => []
  | c :: path => [c] :: map (cons c) (prefixes path)
  end.
Definition parent (path : list string) : list string := removelast path.

(** [path.parent.mkdir(parents=True, exist_ok=True)] *)
Definition mkdir_parents (path : list string) : M FilesystemRetentionStore unit :=
  s ← self;
  lift (raise_if (bool_decide (is_Some (fr_files s !! parent path))) (FileExistsError "File exists"));;
  lift (raise_if (existsb (λ p, bool_decide (is_Some (fr_files s !! p))) (prefixes (parent path)))
    (OSError "Not a directory"));;
  update (λ s, {| fr_files := fr_files s; fr_directories := fr_directories s ∪ list_to_set (prefixes (parent path)) |}).

(** [os.open] with [O_CREAT | O_EXCL], and the write. *)
Definition create_file (path : list string) (content : bytes) : M FilesystemRetentionStore unit :=
  s ← self;
  lift (raise_if (bool_decide (is_Some (fr_files s !! path)) || bool_decide (path ∈ fr_directories s))
    (FileExistsError "File exists"));;
  update (λ s, {| fr_files := <[path := content]> (fr_files s); fr_directories := fr_directories s |}).

Section stores.
Context `{!Externals}.

#[export] Instance memory_retention : RetentionStore MemoryRetentionStore :=
  {| rt_put_once := put_once; rt_read := retention_read |}.

Definition envelope (payload : bytes) (retain_until : Z) : pyval :=
  PDict
    [(KStr "schema_version", PStr "aegisledger.retained_object.v1");
     (KStr "retain_until", PStr (isoformat retain_until));
     (KStr "payload_sha256", PStr (_hash_payload payload));
     (KStr "payload_hex", PStr (hex payload))].

Definition fs_put_once (key : string) (payload : bytes) (retain_until : datetime) : M FilesystemRetentionStore unit :=
  utc ← lift (require_utc "retain_until" retain_until);
  path ← lift (_path key);
  mkdir_parents path;;
  content ← lift (canonical_json (envelope payload utc));
  create_file path content.

(** [envelope[key]] *)
Definition subscript (v : pyval) (key : string) : result pyval :=
  match v with
  | PDict d => or_raise (dict_get key d) (KeyError key)
  | _ => Err (TypeError "indices must be integers or slices")
  end.

Definition fs_read (key : string) : M FilesystemRetentionStore bytes :=
  path ← lift (_path key);
  s ← self;
  content ← lift (or_raise (fr_files s !! path) (OSError "No such file or directory"));
  lift (
    v ← json_loads (decode content);
    text ← subscript v "payload_hex";
    payload ← match text with
      | PStr t => or_raise (fromhex t) (ValueError "non-hexadecimal number found in fromhex() arg")
      | _ => Err (TypeError "fromhex() argument must be str")
      end;
    digest ← subscript v "payload_sha256";
    raise_if (negb (match digest with PStr d => bool_decide (_hash_payload payload = d) | _ => false end))
      (ValueError "retained object digest mismatch");;
    Ok payload).

#[export] Instance filesystem_retention : RetentionStore FilesystemRetentionStore :=
  {| rt_put_once := fs_put_once; rt_read := fs_read |}.

(** * Object lock *)

(** What [head_object] does: answer, or raise an exception with the status of its response, if
    it has one. *)
Inductive head_answer := HeadFound | HeadRaises (status : option Z) (e : exn).

(** The operations of the client on the bucket; [get_object] gives the body and the digest in
    the metadata. *)
Class S3Client (C : Type) := {
  s3_head_object : string → C → head_answer;
  s3_put_object : string → bytes → Z → string → M C unit;
  s3_get_object : string → M C (bytes * option string);
}.

Section object_lock.
Context {C : Type} `{!S3Client C}.
Variable prefix : string.

Definition s3_put_once (key : string) (payload : bytes) (retain_until : datetime) : M C unit :=
  utc ← lift (require_utc "retain_until" retain_until);
  let object_key := prefix +:+ key in
  c ← self;
  match s3_head_object object_key c with
  | HeadFound => raise (FileExistsError ("retained object already exists: " +:+ key))
  | HeadRaises status e =>
      if bool_decide (status = Some 404) || bool_decide (status = None)
      then s3_put_object object_key payload utc (_hash_payload payload)
      else raise e
  end.

Definition s3_read (key : string) : M C bytes :=
  '(payload, digest) ← s3_get_object (prefix +:+ key);
  lift (raise_if (match digest with Some d => negb (bool_decide (d = _hash_payload payload)) | None => false end)
    (ValueError "retained object digest mismatch"));;
  mret payload.

Definition object_lock_retention : RetentionStore C := {| rt_put_once := s3_put_once; rt_read := s3_read |}.
End object_lock.

(** * Anchoring *)

(** [AnchoringService.anchor] over any store. *)
Definition anchor_in {S} `{!RetentionStore S} (external : AuditCheckpointV1 → result AnchorReceiptV1)
    (new_id now : Z) (retain_until : datetime) : M (AuditJournal * S) AnchoredCheckpoint :=
  let in_journal {A} (m : M AuditJournal A) := zoom fst (λ j s, (j, snd s)) m in
  let in_store {A} (m : M S A) := zoom snd (λ o s, (fst s, o)) m in
  c ← in_journal (snapshot_checkpoint new_id now);
  let identifier := uuid_str (ck_checkpoint_id c) in
  let history_key := "history/" +:+ identifier +:+ ".json" in
  let checkpoint_key := "checkpoints/" +:+ identifier +:+ ".json" in
  let receipt_key := "anchors/" +:+ identifier +:+ ".json" in
  events ← in_journal (read (λ j, take (Z.to_nat (ck_event_count c)) (j_events j)));
  history ← lift (canonical_json (PDict [(KStr "events", PList (map AuditEventV1_dump events))]));
  in_store (rt_put_once history_key history retain_until);;
  body ← lift (canonical_json (AuditCheckpointV1_dump c));
  in_store (rt_put_once checkpoint_key body retain_until);;
  receipt ← lift (external c);
  lift (raise_if (negb (ar_checkpoint_id receipt =? ck_checkpoint_id c))
    (ValueError "anchor receipt references a different checkpoint"));;
  lift (raise_if (negb (bool_decide (ar_merkle_root receipt = ck_merkle_root c)))
    (ValueError "anchor receipt root does not match checkpoint"));;
  rbody ← lift (canonical_json (AnchorReceiptV1_dump receipt));
  in_store (rt_put_once receipt_key rbody retain_until);;
  in_journal (mark_anchored c);;
  mret {| an_checkpoint := c; an_receipt := receipt; an_history_key := history_key;
          an_checkpoint_key := checkpoint_key; an_receipt_key := receipt_key |}.
End stores.
