(* ===== verification/RetentionFacts.v ===== *)
(** What write-once retention promises: a store that keeps the laws of the protocol keeps what
    it was given, and an anchored checkpoint can be read back for ever.  The memory and the
    file system store keep the laws; the object-lock store does with a client that always
    answers, and otherwise may overwrite. *)
From Stdlib Require Import ZArith Lia Ascii String.
From stdpp Require Import base gmap sets list strings pretty.
From S2P Require Import Prelude Bytes Float64 Canonical CanonicalFacts Json JsonFacts Contracts ContractsFacts.
From S2P Require Import Journal JournalFacts Retention.

Open Scope Z_scope.

(** * The protocol's laws *)

(** What was put is read; what is read stays, whatever is put later; and putting it again is
    refused. *)
Class RetentionLaw (S : Type) `{!RetentionStore S} := {
  rl_ok : S → Prop;
  rl_inv k p u s : rl_ok s → rl_ok (fst (rt_put_once k p u s));
  rl_put k p u s s' : rl_ok s → rt_put_once k p u s = (s', Ok tt) → snd (rt_read k s') = Ok p;
  rl_keep k p k' p' u s : rl_ok s → snd (rt_read k s) = Ok p → snd (rt_read k (fst (rt_put_once k' p' u s))) = Ok p;
  rl_once k p p' u s : rl_ok s → snd (rt_read k s) = Ok p → ∃ e, snd (rt_put_once k p' u s) = Err e;
}.

(** Any number of further attempts. *)
Definition put_all {S} `{!RetentionStore S} (ops : list (string * bytes * datetime)) (s : S) : S :=
  foldl (λ s o, fst (rt_put_once o.1.1 o.1.2 o.2 s)) s ops.

Section client.
Context `{!Externals} {S : Type} `{!RetentionStore S, !RetentionLaw S}.

Lemma put_all_keeps ops k p (s : S) :
  rl_ok s → snd (rt_read k s) = Ok p → rl_ok (put_all ops s) ∧ snd (rt_read k (put_all ops s)) = Ok p.
Proof.
  revert s. induction ops as [|[[k' p'] u] ops IH]; intros s Hok Hr; [done|].
  cbn [put_all foldl fst snd]. apply IH; [by apply rl_inv|by apply rl_keep].
Qed.

Lemma put_Ok k p u (s s' : S) :
  rl_ok s → rt_put_once k p u s = (s', Ok tt) →
  rl_ok s' ∧ snd (rt_read k s') = Ok p ∧ ∀ k' p', snd (rt_read k' s) = Ok p' → snd (rt_read k' s') = Ok p'.
Proof.
  intros Hok Hp. pose proof (rl_inv k p u s Hok) as Hi. pose proof (λ k' p', rl_keep k' p' k p u s Hok) as Hk.
  rewrite Hp in Hi, Hk. split_and!; [done|exact (rl_put k p u s s' Hok Hp)|done].
Qed.

(** An object of an anchored checkpoint: retained, and for ever. *)
Definition retained (k : string) (p : bytes) (s : S) : Prop :=
  ∀ ops, snd (rt_read k (put_all ops s)) = Ok p
    ∧ ∀ p' u, ∃ e, snd (rt_put_once k p' u (put_all ops s)) = Err e.

Lemma retained_read k p (s : S) : rl_ok s → snd (rt_read k s) = Ok p → retained k p s.
Proof.
  intros Hok Hr ops. destruct (put_all_keeps ops k p s Hok Hr) as [Hok' Hr']. split; [done|].
  intros p' u. by eapply rl_once.
Qed.

Lemma snapshot_same id now j : fst (snapshot_checkpoint id now j) = j.
Proof.
  unfold snapshot_checkpoint, read, lift, mbind, M_bind. cbn. repeat case_match; naive_solver.
Qed.

End client.

(** * The stores *)

Section instances.
Context `{!Externals}.

Lemma memory_read k (s : gmap string RetainedObject) p :
  snd (retention_read k s) = Ok p ↔ ∃ o, s !! k = Some o ∧ ro_payload o = p.
Proof.
  unfold retention_read, self, lift, mbind, M_bind. cbn. destruct (s !! k) as [o|]; cbn; [|naive_solver].
  split; [intros [= <-]; eauto|intros (? & [= ->] & ->); done].
Qed.

Lemma memory_put k p u (s : gmap string RetainedObject) :
  put_once k p u s =
  match require_utc "retain_until" u with
  | Err e => (s, Err e)
  | Ok t => if decide (is_Some (s !! k)) then (s, Err (FileExistsError ("retained object already exists: " +:+ k)))
            else (<[k := {| ro_payload := p; ro_retain_until := t; ro_digest := _hash_payload p |}]> s, Ok tt)
  end.
Proof.
  unfold put_once, self, lift, update, mbind, M_bind. destruct (require_utc _ _); [|done].
  case_decide; [rewrite bool_decide_true by done|rewrite bool_decide_false by done]; done.
Qed.

#[export] Instance memory_retention_law : RetentionLaw MemoryRetentionStore.
Proof.
  refine {| rl_ok _ := True |}; cbn [rt_put_once rt_read memory_retention].
  - done.
  - intros k p u s s' _. rewrite memory_put. destruct (require_utc _ _) as [t|]; [|done].
    case_decide; [done|]. intros [= <-]. apply memory_read. eexists. by rewrite lookup_insert_eq.
  - intros k p k' p' u s _ (o & Ho & Hp)%memory_read. apply memory_read. rewrite memory_put.
    destruct (require_utc _ _); [|by exists o]. case_decide as Hk; [by exists o|]. exists o.
    cbn [fst]. rewrite lookup_insert_ne; [done|]. intros ->. apply Hk. by eexists.
  - intros k p p' u s _ (o & Ho & _)%memory_read. rewrite memory_put.
    destruct (require_utc _ _); [|by eexists]. rewrite decide_True by eauto. by eexists.
Defined.

(** [anchor] of Journal is the one over the memory store. *)
Lemma anchor_memory : anchor = anchor_in (S := MemoryRetentionStore).
Proof. done. Qed.

(** ** The file system *)

Context `{!Rfc8785Law}.

(** What [read] makes of a file. *)
Definition open_envelope (content : bytes) : result bytes :=
  v ← json_loads (decode content);
  text ← subscript v "payload_hex";
  payload ← match text with
    | PStr t => or_raise (fromhex t) (ValueError "non-hexadecimal number found in fromhex() arg")
    | _ => Err (TypeError "fromhex() argument must be str")
    end;
  digest ← subscript v "payload_sha256";
  raise_if (negb (match digest with PStr d => bool_decide (_hash_payload payload = d) | _ => false end))
    (ValueError "retained object digest mismatch");;
  Ok payload.

Lemma open_envelope_written p t content : canonical_json (envelope p t) = Ok content → open_envelope content = Ok p.
Proof.
  intros [Hs ->]%canonical_json_Ok. unfold open_envelope. rewrite decode_encode, json_loads_dumps; [|done|].
  2: { split; [|done]. cbn. repeat constructor; set_solver. }
  cbn [mbind result_bind].
  change (subscript (sort_keys (envelope p t)) "payload_hex") with (Ok (PStr (hex p)) : result pyval).
  cbn [mbind result_bind]. rewrite fromhex_hex. cbn [or_raise mbind result_bind].
  change (subscript (sort_keys (envelope p t)) "payload_sha256") with (Ok (PStr (_hash_payload p)) : result pyval).
  cbn [mbind result_bind]. by rewrite bool_decide_true.
Qed.

Lemma fs_read_Ok k s p :
  snd (fs_read k s) = Ok p ↔
  ∃ path content, _path k = Ok path ∧ fr_files s !! path = Some content ∧ open_envelope content = Ok p.
Proof.
  unfold fs_read, self, lift, mbind, M_bind. destruct (_path k) as [path|]; [|naive_solver].
  destruct (fr_files s !! path) as [content|] eqn:Hc; cbn [or_raise snd]; [|naive_solver].
  fold (open_envelope content). naive_solver.
Qed.

(** A write adds a file that was not there, or none. *)
Lemma fs_put_files k p u s :
  match fs_put_once k p u s with
  | (s', Ok _) => ∃ path t content, _path k = Ok path ∧ canonical_json (envelope p t) = Ok content
      ∧ fr_files s !! path = None ∧ fr_files s' = <[path := content]> (fr_files s)
  | (s', Err _) => fr_files s' = fr_files s
  end.
Proof.
  unfold fs_put_once, mkdir_parents, create_file, self, lift, update, mbind, M_bind.
  destruct (require_utc _ _) as [t|]; [|done]. destruct (_path k) as [path|]; [|done].
  destruct (raise_if (bool_decide (is_Some (fr_files s !! parent path))) _); [|done].
  destruct (raise_if (existsb _ _) _); [|done].
  destruct (canonical_json (envelope p t)) as [content|] eqn:Hc; [|done]. cbn [fr_files fr_directories].
  destruct (raise_if (_ || _) _) as [[]|] eqn:He; [|done]. apply raise_if_Ok, orb_false_iff in He as [He _].
  apply bool_decide_eq_false, eq_None_not_Some in He. by exists path, t, content.
Qed.

#[export] Instance filesystem_retention_law : RetentionLaw FilesystemRetentionStore.
Proof.
  refine {| rl_ok _ := True |}; cbn [rt_put_once rt_read filesystem_retention].
  - done.
  - intros k p u s s' _ Hp. pose proof (fs_put_files k p u s) as Hf. rewrite Hp in Hf.
    destruct Hf as (path & t & content & Hk & Hc & _ & Hf). apply fs_read_Ok. exists path, content.
    rewrite Hf, lookup_insert_eq. split_and!; [done|done|by eapply open_envelope_written].
  - intros k p k' p' u s _ (path & content & Hk & Hc & Ho)%fs_read_Ok. apply fs_read_Ok. exists path, content.
    pose proof (fs_put_files k' p' u s) as Hf. destruct (fs_put_once k' p' u s) as [s' [?|?]]; cbn [fst].
    + destruct Hf as (path' & t & content' & _ & _ & Hn & ->). rewrite lookup_insert_ne by congruence. done.
    + by rewrite Hf.
  - intros k p p' u s _ (path & content & Hk & Hc & Ho)%fs_read_Ok.
    pose proof (fs_put_files k p' u s) as Hf. destruct (fs_put_once k p' u s) as [s' [?|?]]; cbn [snd]; [|by eexists].
    destruct Hf as (path' & t & content' & Hk' & _ & Hn & _). congruence.
Defined.
End instances.

(** * Object lock *)

(** The documented behaviour of a bucket: [head_object] of an object that can be fetched
    answers, or fails, but not with the status 404; an object that was put is fetched with its
    digest; and putting another leaves it alone. *)
Class S3Law (C : Type) `{!S3Client C} := {
  s3_head_get k x c : snd (s3_get_object k c) = Ok x → ∀ e, s3_head_object k c ≠ HeadRaises (Some 404) e;
  s3_get_put k p t d c c' : s3_put_object k p t d c = (c', Ok tt) → snd (s3_get_object k c') = Ok (p, Some d);
  s3_get_other k k' p t d x c : k ≠ k' → snd (s3_get_object k c) = Ok x →
    snd (s3_get_object k (fst (s3_put_object k' p t d c))) = Ok x;
}.

(** What [S3ObjectLockStore] needs besides, and no network gives: every failure of
    [head_object] carries the status of a response.  A client that loses its connection
    breaks this, and with it the store's promise ([s3_unreachable_overwrites]). *)
Class S3Reachable (C : Type) `{!S3Client C} :=
  s3_reachable : ∀ k (c : C) e, s3_head_object k c ≠ HeadRaises None e.

Section object_lock.
Context `{!Externals} {C : Type} `{!S3Client C, !S3Law C, !S3Reachable C}.
Variable prefix : string.

Lemma s3_read_Ok k (c : C) p :
  snd (s3_read prefix k c) = Ok p ↔
  ∃ d, snd (s3_get_object (prefix +:+ k) c) = Ok (p, d) ∧ (d = None ∨ d = Some (_hash_payload p)).
Proof.
  unfold s3_read, lift, mbind, M_bind. destruct (s3_get_object _ c) as [c' [[q d]|e]]; cbn [snd]; [|naive_solver].
  destruct d as [d|]; cbn; [|naive_solver]. unfold raise_if. case_bool_decide; cbn; naive_solver.
Qed.

Lemma s3_put_found k p u x (c : C) :
  snd (s3_get_object (prefix +:+ k) c) = Ok x → ∃ e, s3_put_once prefix k p u c = (c, Err e).
Proof.
  intros Hx. pose proof (s3_head_get _ _ _ Hx) as H404. unfold s3_put_once, self, lift, mbind, M_bind.
  destruct (require_utc _ _); [|by eexists]. pose proof (s3_reachable (prefix +:+ k) c) as Hnone.
  destruct (s3_head_object _ c) as [|status e]; [by eexists|].
  rewrite !bool_decide_false; [by eexists|..]; intros ->; [by eapply Hnone|by eapply H404].
Qed.

Lemma s3_put_Ok k p u (c c' : C) :
  s3_put_once prefix k p u c = (c', Ok tt) →
  ∃ t, s3_put_object (prefix +:+ k) p t (_hash_payload p) c = (c', Ok tt).
Proof.
  unfold s3_put_once, self, lift, mbind, M_bind. destruct (require_utc _ _) as [t|]; [|done].
  destruct (s3_head_object _ c) as [|status e]; [done|]. destruct (_ || _); [|done]. by exists t.
Qed.

Lemma s3_put_other k k' p u x (c : C) :
  prefix +:+ k ≠ prefix +:+ k' → snd (s3_get_object (prefix +:+ k) c) = Ok x →
  snd (s3_get_object (prefix +:+ k) (fst (s3_put_once prefix k' p u c))) = Ok x.
Proof.
  intros Hk Hx. unfold s3_put_once, self, lift, mbind, M_bind. destruct (require_utc _ _); [|done].
  destruct (s3_head_object _ c); [done|]. destruct (_ || _); [by apply s3_get_other|done].
Qed.

(** With a client that always answers, object lock keeps the laws of the protocol. *)
Definition object_lock_law : @RetentionLaw C (object_lock_retention prefix).
Proof.
  refine {| rl_ok _ := True |}; cbn [rt_put_once rt_read object_lock_retention].
  - done.
  - intros k p u c c' _ (t & Hp)%s3_put_Ok. apply s3_read_Ok. eexists. split; [by eapply s3_get_put|by right].
  - intros k p k' p' u c _ (d & Hg & Hd)%s3_read_Ok. apply s3_read_Ok. exists d. split; [|done].
    destruct (decide (prefix +:+ k = prefix +:+ k')) as [He|He]; [|by apply s3_put_other].
    pose proof Hg as Hg'. rewrite He in Hg'. by destruct (s3_put_found k' p' u _ c Hg') as [e ->].
  - intros k p p' u c _ (d & Hg & _)%s3_read_Ok. destruct (s3_put_found k p' u _ c Hg) as [e ->]. by exists e.
Defined.
End object_lock.

(** ** A bucket *)

(** A bucket of current versions, whose [head_object] can fail to reach it. *)
Definition bucket_client (offline : bool) : S3Client (gmap string (bytes * string)) := {|
  s3_head_object k c :=
    if offline then HeadRaises None (OSError "connection reset")
    else if bool_decide (is_Some (c !! k)) then HeadFound else HeadRaises (Some 404) (OSError "Not Found");
  s3_put_object k p _ d := update (λ c, <[k := (p, d)]> c);
  s3_get_object k := c ← self; lift (or_raise (prod_map id Some <$> c !! k) (OSError "NoSuchKey"));
|}.

Lemma bucket_get offline k c x :
  snd (@s3_get_object _ (bucket_client offline) k c) = Ok x ↔ prod_map id Some <$> c !! k = Some x.
Proof. unfold s3_get_object, bucket_client, self, lift, mbind, M_bind. destruct (c !! k); naive_solver. Qed.

Lemma bucket_law offline : @S3Law _ (bucket_client offline).
Proof.
  constructor.
  - intros k x c Hx%bucket_get e. cbn. destruct offline; [done|]. rewrite bool_decide_true; [done|].
    destruct (c !! k); [by eexists|done].
  - intros k p t d c c' [= <-]. apply bucket_get. by rewrite lookup_insert_eq.
  - intros k k' p t d x c Hk Hx%bucket_get. apply bucket_get. cbn. by rewrite lookup_insert_ne.
Qed.

Lemma bucket_reachable : @S3Reachable _ (bucket_client false).
Proof. intros k c e. cbn. by case_bool_decide. Qed.

(** Without [S3Reachable] write-once is lost, though the bucket behaves as documented
    ([bucket_law true]): a [head_object] that cannot be answered is taken for an absent
    object, and the second write replaces the first. *)
Lemma s3_unreachable_overwrites `{!Externals} k p p' u t c :
  require_utc "retain_until" u = Ok t →
  let put q := @s3_put_once _ _ (bucket_client true) "audit/" k q u in
  snd (@s3_read _ _ (bucket_client true) "audit/" k (fst (put p' (fst (put p c))))) = Ok p'.
Proof.
  intros Hu put. apply (@s3_read_Ok _ _ (bucket_client true)). exists (Some (_hash_payload p')). split; [|by right].
  apply bucket_get. unfold put, s3_put_once, self, lift, mbind, M_bind. rewrite Hu.
  generalize ("audit/" +:+ k). intros key. cbn. rewrite !orb_true_r. cbn.
  by rewrite lookup_insert_eq.
Qed.

(** * An anchored journal on the file system *)

Definition empty_store : FilesystemRetentionStore := {| fr_files := ∅; fr_directories := ∅ |}.

