(* ===== verification/RateLimit.v ===== *)
(** Fixed-window request limiting (src/agentguard-testbed/src/aegisledger/rate_limit.py):
    [MemoryRateLimiter], and what its windows guarantee over time. *)
From Stdlib Require Import ZArith Lia Ascii String.
From stdpp Require Import base gmap sets list strings.
From S2P Require Import Prelude Bytes Contracts.

Open Scope Z_scope.

(** The windows of [MemoryRateLimiter]: per subject the start and the count. *)
Record MemoryRateLimiter := { rl_windows : gmap string (Z * Z) }.

Definition limiter_init : MemoryRateLimiter := {| rl_windows := ∅ |}.

Definition rate_validate (limit window_seconds : Z) : result unit :=
  raise_if ((limit <? 1) || (window_seconds <? 1))
    (ValueError "rate limit and window must be positive").

(** [consume], at the time [now] it reads. *)
Definition rate_consume (now : Z) (subject : string) (limit window_seconds : Z)
    : M MemoryRateLimiter bool :=
  lift (rate_validate limit window_seconds);;
  windows ← read rl_windows;
  let '(started_at, count) := default (now, 0) (windows !! subject) in
  let '(started_at, count) :=
    if seconds window_seconds <=? now - started_at then (now, 0) else (started_at, count) in
  if limit <=? count then mret false
  else
    update (λ _, {| rl_windows := <[subject := (started_at, count + 1)]> windows |});;
    mret true.

(** * Counting accepted requests *)

(** How many of the times [ts] fall in [lo, hi). *)
Definition hits (lo hi : Z) (ts : list Z) : Z :=
  Z.of_nat (length (filter (λ t, lo ≤ t ∧ t < hi) ts)).

Lemma hits_nil lo hi : hits lo hi [] = 0.
Proof. done. Qed.

Lemma hits_cons lo hi t ts :
  hits lo hi (t :: ts) = (if bool_decide (lo ≤ t ∧ t < hi) then 1 else 0) + hits lo hi ts.
Proof.
  unfold hits. rewrite filter_cons. case_decide as Ht.
  - rewrite bool_decide_true by done. cbn [length]. lia.
  - by rewrite bool_decide_false by done.
Qed.

Lemma hits_split lo mid hi ts : lo ≤ mid ≤ hi → hits lo hi ts = hits lo mid ts + hits mid hi ts.
Proof.
  intros Hm. induction ts as [|t ts IH]; [done|]. rewrite !hits_cons, IH.
  repeat case_bool_decide; lia.
Qed.

Lemma hits_sub lo hi lo' hi' ts :
  lo' ≤ lo → hi ≤ hi' → hits lo hi ts ≤ hits lo' hi' ts.
Proof.
  intros ? ?. induction ts as [|t ts IH]; [done|]. rewrite !hits_cons.
  repeat case_bool_decide; lia.
Qed.

Lemma hits_nonneg lo hi ts : 0 ≤ hits lo hi ts.
Proof. unfold hits. lia. Qed.

Lemma hits_beyond lo hi ts : Forall (λ t, t < lo) ts → hits lo hi ts = 0.
Proof.
  induction 1 as [|t ts Ht _ IH]; [done|]. rewrite hits_cons, IH, bool_decide_false; lia.
Qed.

(** The accepted times of one subject in a log of accepted requests. *)
Definition times_of (s : string) (log : list (string * Z)) : list Z :=
  (filter (λ e, e.1 = s) log).*2.

Lemma times_of_cons s s' t log :
  times_of s ((s', t) :: log) = if decide (s' = s) then t :: times_of s log else times_of s log.
Proof. unfold times_of. rewrite filter_cons. cbn [fst]. by case_decide. Qed.

(** * Runs *)

Section runs.
Variables limit window : Z.
Hypothesis (Hlimit : 1 ≤ limit) (Hwindow : 1 ≤ window).

(** A limiter used with one limit and window, under a clock that does not go
    back: the log of accepted requests, newest first, and the last time. *)
Inductive limiter_run : list (string * Z) → Z → MemoryRateLimiter → Prop :=
  | run_init t : limiter_run [] t limiter_init
  | run_consume log t r now subject r' b : limiter_run log t r → t ≤ now →
      rate_consume now subject limit window r = (r', Ok b) →
      limiter_run (if b then (subject, now) :: log else log) now r'.

Lemma rate_consume_cases now s r r' b :
  rate_consume now s limit window r = (r', Ok b) →
    let '(start, count) := default (now, 0) (rl_windows r !! s) in
    let '(start', count') := if seconds window <=? now - start then (now, 0) else (start, count) in
    if b then count' < limit ∧ r' = {| rl_windows := <[s := (start', count' + 1)]> (rl_windows r) |}
    else limit ≤ count' ∧ r' = r.
Proof.
  unfold rate_consume, rate_validate, lift, read, mbind, M_bind.
  destruct ((limit <? 1) || (window <? 1)) eqn:Hv; [done|]. prop_of_bool. cbn [raise_if].
  destruct (default (now, 0) (rl_windows r !! s)) as [start count].
  destruct (seconds window <=? now - start); destruct (limit <=? _) eqn:Hl; cbn;
    intros [= <- <-]; prop_of_bool; split; try done; lia.
Qed.

(** What the window of a subject says of its accepted requests. *)
Record window_inv (ts : list Z) (last start count : Z) : Prop := {
  wi_last : start ≤ last;
  wi_past : Forall (λ t, t ≤ last) ts;
  wi_recent : Forall (λ t, t < start + seconds window) ts;
  wi_count : count = hits start (last + 1) ts;
  wi_bound : 1 ≤ count ≤ limit;
  wi_before : ∀ lo, start - seconds window < lo → hits lo start ts ≤ limit;
}.

Definition limiter_inv (log : list (string * Z)) (last : Z) (r : MemoryRateLimiter) : Prop :=
  ∀ s, (∀ lo, hits lo (lo + seconds window) (times_of s log) ≤ 2 * limit)
    ∧ match rl_windows r !! s with
      | None => times_of s log = []
      | Some (start, count) => window_inv (times_of s log) last start count
      end.

Lemma past_later ts t now : t ≤ now → Forall (λ x, x ≤ t) ts → Forall (λ x, x ≤ now) ts.
Proof. intros Ht Hts. eapply Forall_impl; [exact Hts|]. cbn. lia. Qed.

Lemma window_inv_later ts last now start count :
  last ≤ now → window_inv ts last start count → window_inv ts now start count.
Proof.
  intros Hl [H1 H2 H6 H3 H4 H5]. constructor; [lia|by eapply past_later|done| |done|done].
  rewrite (hits_split start (last + 1) (now + 1)) by lia.
  rewrite (hits_beyond (last + 1)); [lia|]. eapply Forall_impl; [exact H2|]. cbn. lia.
Qed.

(** An accepted request that stays in the current window. *)
Lemma window_inv_add ts now start count :
  window_inv ts now start count → count < limit → now - start < seconds window →
  window_inv (now :: ts) now start (count + 1)
  ∧ ∀ lo, hits lo (lo + seconds window) ts ≤ 2 * limit →
      hits lo (lo + seconds window) (now :: ts) ≤ 2 * limit.
Proof.
  intros [H1 H2 H6 H3 H4 H5] Hc Hw. split.
  - constructor; [done|by constructor|constructor; [lia|done]| |lia|].
    + rewrite hits_cons, bool_decide_true by lia. lia.
    + intros lo Hlo. rewrite hits_cons, bool_decide_false by lia. by apply H5.
  - intros lo Hlo. rewrite hits_cons. case_bool_decide as Hn; [|lia].
    assert (hits lo (lo + seconds window) ts ≤ hits lo (now + 1) ts) as Hin.
    { rewrite (hits_split lo (now + 1) (lo + seconds window)) by lia.
      rewrite (hits_beyond (now + 1)); [lia|]. eapply Forall_impl; [exact H2|]. cbn. lia. }
    destruct (decide (lo ≤ start)).
    + rewrite (hits_split lo start (now + 1)) in Hin by lia.
      specialize (H5 lo ltac:(lia)). lia.
    + pose proof (hits_sub lo (now + 1) start (now + 1) ts). lia.
Qed.

(** An accepted request that opens a new window. *)
Lemma window_inv_fresh ts now start count :
  window_inv ts now start count → seconds window ≤ now - start →
  window_inv (now :: ts) now now 1
  ∧ ∀ lo, hits lo (lo + seconds window) ts ≤ 2 * limit →
      hits lo (lo + seconds window) (now :: ts) ≤ 2 * limit.
Proof.
  intros [H1 H2 H6 H3 H4 H5] Hw.
  assert (Forall (λ t, t < now) ts) as Hold by (eapply Forall_impl; [exact H6|]; cbn; lia).
  assert (0 < seconds window) by (unfold seconds; lia).
  assert (∀ lo, now - seconds window < lo → hits lo now ts ≤ limit) as Hbefore.
  { intros lo Hlo. pose proof (hits_sub lo now start (now + 1) ts). lia. }
  split.
  - constructor; [done|by constructor| | |lia|].
    + constructor; [lia|]. eapply Forall_impl; [exact Hold|]. cbn. lia.
    + rewrite hits_cons, bool_decide_true, hits_beyond by (done || lia). lia.
    + intros lo Hlo. rewrite hits_cons, bool_decide_false by lia. rewrite Z.add_0_l. auto.
  - intros lo Hlo. rewrite hits_cons. case_bool_decide as Hn; [|lia].
    rewrite (hits_split lo now (lo + seconds window)) by lia.
    rewrite (hits_beyond now) by done. specialize (Hbefore lo). lia.
Qed.

Lemma window_inv_first now : window_inv [now] now now 1.
Proof.
  assert (0 < seconds window) by (unfold seconds; lia).
  constructor; [done|by repeat constructor| | |lia|].
  - repeat constructor. lia.
  - by rewrite hits_cons, bool_decide_true by lia.
  - intros lo _. rewrite hits_cons, bool_decide_false by lia. rewrite hits_nil. lia.
Qed.

Lemma limiter_inv_other log last now r s s' start count :
  last ≤ now → limiter_inv log last r → s' ≠ s →
  (∀ lo, hits lo (lo + seconds window) (times_of s ((s', now) :: log)) ≤ 2 * limit)
  ∧ match <[s' := (start, count)]> (rl_windows r) !! s with
    | None => times_of s ((s', now) :: log) = []
    | Some (start, count) => window_inv (times_of s ((s', now) :: log)) now start count
    end.
Proof.
  intros Hn Hi Hs. rewrite times_of_cons, decide_False, lookup_insert_ne by done.
  destruct (Hi s) as [H1 H2]. split; [done|].
  destruct (rl_windows r !! s) as [[??]|]; [|done]. by eapply window_inv_later.
Qed.

Lemma limiter_run_inv log t r : limiter_run log t r → limiter_inv log t r.
Proof.
  induction 1 as [t|log t r now s' r' b _ IH Ht Hc].
  { intros s. split; [intros lo; change (0 ≤ 2 * limit); lia|]. unfold limiter_init. cbn. by rewrite lookup_empty. }
  apply rate_consume_cases in Hc.
  destruct b.
  - destruct (default (now, 0) (rl_windows r !! s')) as [start count] eqn:Hd.
    destruct (if seconds window <=? now - start then (now, 0) else (start, count))
      as [start' count'] eqn:Hf. destruct Hc as [Hlt ->].
    intros s. destruct (decide (s' = s)) as [->|Hs]; [|by apply limiter_inv_other with t].
    rewrite times_of_cons, decide_True by done. cbn [rl_windows]. rewrite lookup_insert_eq. destruct (IH s) as [H1 H2].
    destruct (rl_windows r !! s) as [[start0 count0]|] eqn:Hk; cbn in Hd; injection Hd as Hd1 Hd2;
      subst start count.
    + apply (window_inv_later _ _ now) in H2; [|done].
      destruct (seconds window <=? now - start0) eqn:Hw; injection Hf as Hf1 Hf2;
        subst start' count'; prop_of_bool.
      * destruct (window_inv_fresh _ _ _ _ H2 Hw). auto.
      * destruct (window_inv_add _ _ _ _ H2 Hlt Hw). auto.
    + rewrite H2. assert (start' = now ∧ count' = 0) as [-> ->] by (case_match; naive_solver).
      split; [|apply window_inv_first]. intros lo. rewrite hits_cons, hits_nil.
      case_bool_decide; lia.
  - intros s. destruct (IH s) as [H1 H2]. split; [done|].
    assert (r' = r) as -> by (repeat case_match; naive_solver).
    destruct (rl_windows r !! s) as [[??]|]; [|done]. by eapply window_inv_later.
Qed.

(** C32: the request limit holds.  Under a clock that does not go
    back, the requests accepted for a subject in any interval of one window length
    number at most twice the limit (two adjoining fixed windows), those accepted
    since the current window began at most the limit; and a request is refused only
    when the limit was used up within the last window length. *)
Theorem rate_limit_respected log t r s :
  limiter_run log t r →
  (∀ lo, hits lo (lo + seconds window) (times_of s log) ≤ 2 * limit)
  ∧ (∀ start count, rl_windows r !! s = Some (start, count) →
       count = hits start (t + 1) (times_of s log) ∧ count ≤ limit)
  ∧ (∀ now r', t ≤ now → rate_consume now s limit window r = (r', Ok false) →
       r' = r ∧ limit ≤ hits (now - seconds window + 1) (now + 1) (times_of s log)).
Proof.
  intros Hr. destruct (limiter_run_inv _ _ _ Hr s) as [H1 H2]. split_and!; [done| |].
  - intros start count Hk. rewrite Hk in H2. by destruct H2 as [_ _ _ ? [_ ?] _].
  - intros now r' Ht Hc. apply rate_consume_cases in Hc.
    destruct (rl_windows r !! s) as [[start count]|]; cbn [default from_option id] in Hc.
    + apply (window_inv_later _ _ now) in H2; [|done]. pose proof (wi_count _ _ _ _ H2) as Hcount.
      destruct (seconds window <=? now - start) eqn:Hw;
        cbv beta iota in Hc; destruct Hc as [Hc ->];
        prop_of_bool; [lia|]. split; [done|].
      pose proof (hits_sub start (now + 1) (now - seconds window + 1) (now + 1) (times_of s log)).
      lia.
    + destruct (_ <=? _); cbv beta iota in Hc; destruct Hc; lia.
Qed.
End runs.

(** Two requests a second are allowed; the third is refused, and the one after the
    window has passed is not. *)
Definition sample_limiter : MemoryRateLimiter :=
  {| rl_windows := <["a" := (0, 1 + 1)]> (<["a" := (0, 0 + 1)]> ∅) |}.

Lemma sample_limiter_run : limiter_run 2 1 [("a", 10); ("a", 0)] 10 sample_limiter.
Proof.
  apply (run_consume 2 1 [("a", 0)] 0 {| rl_windows := <["a" := (0, 0 + 1)]> ∅ |} 10 "a" _ true);
    [|lia|reflexivity].
  apply (run_consume 2 1 [] 0 limiter_init 0 "a" _ true); [constructor|lia|reflexivity].
Qed.

Lemma rate_limit_respected_witness :
  snd (rate_consume 20 "a" 2 1 sample_limiter) = Ok false
  ∧ 2 ≤ hits (20 - seconds 1 + 1) (20 + 1) (times_of "a" [("a", 10); ("a", 0)])
  ∧ hits 0 (0 + seconds 1) (times_of "a" [("a", 10); ("a", 0)]) ≤ 2 * 2.
Proof.
  destruct (rate_limit_respected 2 1 ltac:(lia) ltac:(lia) [("a", 10); ("a", 0)] 10 sample_limiter "a"
    sample_limiter_run) as (H1 & _ & H3).
  split; [reflexivity|]. split; [|apply H1].
  apply (H3 20 sample_limiter); [lia|reflexivity].
Defined.
