(* ===== verification/Artifacts.v ===== *)
(** What crosses the signer and chain boundaries, and where it is kept:
    src/agentguard-testbed/src/aegisledger/signer_client.py (the validation of the isolated
    signer's answer), chain.py (submissions and receipts) and artifact_store.py
    (decisions and signed executions). *)
From Stdlib Require Import ZArith Lia Ascii String.
From Stdlib Require Strings.Byte.
From stdpp Require Import base gmap sets list strings pretty.
From S2P Require Import Prelude Bytes Canonical Contracts Eip1559 Signing.

Open Scope Z_scope.

(** * signer_client.py *)

(** The fields of [SignAuthorizedTransactionResponse]; [r_enclave_evidence_json]
    is what [json.loads] makes of the evidence bytes. *)
Record SignResponse := {
  r_eip1559_hash : string;
  r_wallet_nonce : Z;
  r_chain_id : Z;
  r_decision_id : string;
  r_signer_identity : string;
  r_signature : string;
  r_enclave_evidence_json : result pyval;
  r_signed_transaction : bytes;
  r_transaction_hash : string;
  r_signing_hash : string;
}.

Record SignerResult := {
  sr_signing_hash : string;
  sr_transaction_hash : string;
  sr_signed_transaction : bytes;
  sr_wallet_nonce : Z;
  sr_chain_id : Z;
  sr_decision_id : Z;
  sr_signer_identity : string;
  sr_signature : string;
  sr_enclave_evidence : list (pykey * pyval);
}.

Definition catches_TypeError_ValueError (e : exn) : bool :=
  match e with TypeError _ => true | _ => catches_ValueError e end.

(** [str(v)] as far as it can match an identifier or a hash: a container's text
    starts with its bracket and a float's holds a point, whatever follows. *)
Definition py_str (v : pyval) : string :=
  match v with
  | PStr s => s
  | PNone => "None"
  | PBool true => "True"
  | PBool false => "False"
  | PInt z => pretty z
  | PFloat _ => "."
  | PList _ => "["
  | PDict _ => "{"
  | POther t => "<" +:+ t
  end.

Definition evidence_text (ev : list (pykey * pyval)) (k : string) : string :=
  from_option py_str "" (dict_get k ev).

Section signer_client.
Context `{!Externals}.

Definition client_error (cond : bool) (msg : string) : result unit :=
  raise_if cond (SignerClientError msg).

(** [GrpcSignerClient._validated_result] *)
Definition _validated_result (request : TransactionSignRequestV1) (response : SignResponse)
    : result SignerResult :=
  let signing_hash := str_lower (r_signing_hash response) in
  let transaction_hash := str_lower (r_transaction_hash response) in
  let raw := r_signed_transaction response in
  let signer_identity := str_lower (r_signer_identity response) in
  let signature := str_lower (r_signature response) in
  client_error (negb (bool_decide (signing_hash = q_eip1559_hash request))
      || negb (bool_decide (str_lower (r_eip1559_hash response) = signing_hash))
      || negb (r_wallet_nonce response =? q_wallet_nonce request)
      || negb (r_chain_id response =? q_chain_id request)
      || negb (bool_decide (r_decision_id response = uuid_str (decision_id (q_decision request)))))
    "isolated signer response does not match the request";;
  client_error (negb (bool_decide (head raw = Some Byte.x02)))
    "isolated signer omitted a signed type-2 transaction";;
  client_error (negb (bool_decide (transaction_hash = "0x" +:+ hex (keccak raw))))
    "isolated signer transaction hash does not match raw bytes";;
  client_error (negb (startswith "0x" signer_identity)
      || negb (Nat.eqb (String.length signer_identity) 42)
      || negb (startswith "0x" signature) || negb (Nat.eqb (String.length signature) 132))
    "isolated signer signature metadata is malformed";;
  evidence ← try_except catches_TypeError_ValueError (r_enclave_evidence_json response)
    (λ _, Err (SignerClientError "isolated signer evidence is invalid JSON"));
  match evidence with
  | PDict ev =>
      client_error (negb (bool_decide (str_lower (evidence_text ev "transaction_hash") = transaction_hash))
          || negb (bool_decide (str_lower (evidence_text ev "signing_hash") = signing_hash))
          || negb (bool_decide (evidence_text ev "decision_id"
                                = uuid_str (decision_id (q_decision request))))
          || negb (bool_decide (str_lower (evidence_text ev "signer_identity") = signer_identity)))
        "isolated signer evidence does not match its response";;
      Ok {| sr_signing_hash := signing_hash; sr_transaction_hash := transaction_hash;
            sr_signed_transaction := raw; sr_wallet_nonce := q_wallet_nonce request;
            sr_chain_id := q_chain_id request; sr_decision_id := decision_id (q_decision request);
            sr_signer_identity := signer_identity; sr_signature := signature;
            sr_enclave_evidence := ev |}
  | _ => Err (SignerClientError "isolated signer evidence must be an object")
  end.

(** [sign]: the RPC fails with a [grpc.RpcError] ([None]) or answers. *)
Definition sign (rpc : TransactionSignRequestV1 → option SignResponse)
    (request : TransactionSignRequestV1) : result SignerResult :=
  response ← or_raise (rpc request)
    (SignerClientError "isolated signer denied or failed the request");
  _validated_result request response.
End signer_client.

(** * chain.py *)

Record ChainSubmission := {
  cs_chain_id : Z;
  cs_transaction_hash : string;
  cs_raw_transaction : option string;
}.

Record EvmReceipt := {
  er_transaction_hash : string;
  er_block_hash : string;
  er_block_number : Z;
  er_success : bool;
  er_confirmations : Z;
}.

(** ** [int(text, 16)]

    Surrounding white space, a sign, a [0x] prefix and single underscores between
    digits are accepted. *)
Definition py_space (c : ascii) : bool :=
  let n := nat_of_ascii c in Nat.eqb n 32 || (Nat.leb 9 n && Nat.leb n 13) || (Nat.leb 28 n && Nat.leb n 31).

Fixpoint skip_spaces (s : list ascii) : list ascii :=
  match s with
  | c :: s' => if py_space c then skip_spaces s' else s
  | [] => []
  end.

(** Digits, [acc] their value so far; [sep]: an underscore may come next. *)
Fixpoint int16_digits (acc : Z) (sep : bool) (s : list ascii) : option Z :=
  match s with
  | [] => if sep then Some acc else None
  | c :: s =>
      match hex_value c with
      | Some d => int16_digits (16 * acc + d) true s
      | None => if bool_decide (c = "_"%char) && sep then int16_digits acc false s else None
      end
  end.

Definition int16_unsigned (s : list ascii) : option Z :=
  match s with
  | "0"%char :: x :: s' =>
      if bool_decide (x = "x"%char ∨ x = "X"%char) then
        match s' with
        | "_"%char :: s'' => int16_digits 0 false s''
        | _ => int16_digits 0 false s'
        end
      else int16_digits 0 false s
  | _ => int16_digits 0 false s
  end.

Definition int16 (text : string) : option Z :=
  let s := rev (skip_spaces (rev (skip_spaces (list_ascii_of_string text)))) in
  match s with
  | "-"%char :: s => Z.opp <$> int16_unsigned s
  | "+"%char :: s => int16_unsigned s
  | _ => int16_unsigned s
  end.

Section chain.
Context `{!Externals}.

Definition keccak_transaction_hash (raw : string) : result string :=
  raise_if (negb (startswith "0x" raw)) (ValueError "raw transaction must be 0x-prefixed");;
  payload ← or_raise (fromhex (str_drop2 raw))
    (ValueError "raw transaction must contain hexadecimal bytes");
  raise_if (bool_decide (payload = [])) (ValueError "raw transaction cannot be empty");;
  Ok ("0x" +:+ hex (keccak payload)).

(** [JsonRpcChainBackend]: the expected chain and whether it was checked. *)
Record JsonRpcChainBackend := { jb_chain_id : Z; jb_network_verified : bool }.

(** [_rpc(method, params)] is the argument [rpc]. *)
Definition _verify_network (rpc : string → list pyval → result pyval)
    : M JsonRpcChainBackend unit :=
  b ← self;
  if jb_network_verified b then mret ()
  else
    answer ← lift (rpc "eth_chainId" []);
    text ← lift (match answer with
      | PStr s => Ok s
      | _ => Err (RuntimeError "RPC chain ID response is malformed")
      end);
    actual ← lift (or_raise (int16 text) (RuntimeError "RPC chain ID response is malformed"));
    lift (raise_if (negb (actual =? jb_chain_id b))
      (RuntimeError ("RPC is connected to wrong chain " +:+ pretty actual +:+ "; expected "
                     +:+ pretty (jb_chain_id b))));;
    update (λ b, {| jb_chain_id := jb_chain_id b; jb_network_verified := true |}).

Definition rpc_submit (rpc : string → list pyval → result pyval)
    (s : ChainSubmission) : M JsonRpcChainBackend string :=
  chain ← read jb_chain_id;
  lift (raise_if (negb (cs_chain_id s =? chain)) (ValueError "submission targets the wrong chain"));;
  raw ← lift (or_raise (cs_raw_transaction s)
    (ValueError "EVM backend requires an encoded signed transaction"));
  _verify_network rpc;;
  computed ← lift (keccak_transaction_hash raw);
  lift (raise_if (negb (bool_decide (str_lower computed = str_lower (cs_transaction_hash s))))
    (ValueError "signed raw transaction hash does not match submission"));;
  answer ← lift (rpc "eth_sendRawTransaction" [PStr raw]);
  match answer with
  | PStr r =>
      if bool_decide (str_lower r = str_lower computed) then mret (str_lower r)
      else raise (RuntimeError "RPC returned an unexpected transaction hash")
  | _ => raise (RuntimeError "RPC returned an unexpected transaction hash")
  end.

(** [PrivateRelayBackend.submit] *)
Definition relay_submit (rpc : string → list pyval → result pyval) (s : ChainSubmission)
    : M JsonRpcChainBackend string :=
  chain ← read jb_chain_id;
  raw ← lift (match cs_raw_transaction s with
    | Some raw => if cs_chain_id s =? chain then Ok raw
        else Err (ValueError "relay submission is incomplete or targets the wrong chain")
    | None => Err (ValueError "relay submission is incomplete or targets the wrong chain")
    end);
  _verify_network rpc;;
  computed ← lift (keccak_transaction_hash raw);
  lift (raise_if (negb (bool_decide (str_lower computed = str_lower (cs_transaction_hash s))))
    (ValueError "signed raw transaction hash does not match submission"));;
  answer ← lift (rpc "eth_sendPrivateTransaction"
    [PDict [(KStr "tx", PStr raw); (KStr "maxBlockNumber", PNone)]]);
  match answer with
  | PStr r =>
      if bool_decide (str_lower r = str_lower computed) then mret (str_lower r)
      else raise (RuntimeError "relay returned an unexpected transaction hash")
  | _ => raise (RuntimeError "relay returned an unexpected transaction hash")
  end.

(** The body of [receipt]'s [try], whose [KeyError], [TypeError] and [ValueError]
    all become the same [RuntimeError]; [latest] is asked for after the fields were
    found, and its own failure escapes. *)
Definition receipt_fields (rpc : string → list pyval → result pyval) (entries : list (pykey * pyval))
    : result EvmReceipt :=
  let malformed := RuntimeError "RPC receipt response is malformed" in
  bn ← or_raise (dict_get "blockNumber" entries) malformed;
  status ← or_raise (dict_get "status" entries) malformed;
  th ← or_raise (dict_get "transactionHash" entries) malformed;
  bh ← or_raise (dict_get "blockHash" entries) malformed;
  latest ← try_except (λ e, catches_TypeError_ValueError e
                            || match e with KeyError _ => true | _ => false end)
             (rpc "eth_blockNumber" []) (λ _, Err malformed);
  match bn, status, th, bh, latest with
  | PStr bn, PStr status, PStr th, PStr bh, PStr latest =>
      block_number ← or_raise (int16 bn) malformed;
      st ← or_raise (int16 status) malformed;
      latest_number ← or_raise (int16 latest) malformed;
      Ok {| er_transaction_hash := str_lower th; er_block_hash := str_lower bh;
            er_block_number := block_number; er_success := st =? 1;
            er_confirmations := Z.max (latest_number - block_number + 1) 0 |}
  | _, _, _, _, _ => Err malformed
  end.

Definition rpc_receipt (rpc : string → list pyval → result pyval) (transaction_hash : string)
    : M JsonRpcChainBackend (option EvmReceipt) :=
  _verify_network rpc;;
  answer ← lift (rpc "eth_getTransactionReceipt" [PStr transaction_hash]);
  match answer with
  | PNone => mret None
  | PDict entries => r ← lift (receipt_fields rpc entries); mret (Some r)
  | _ => raise (RuntimeError "RPC receipt response is malformed")
  end.
End chain.

(** * artifact_store.py *)

Record StoredExecutionV1 := {
  se_transaction_id : Z;
  se_proposal_id : Z;
  se_authorization : TransactionSignRequestV1;
  se_signing_hash : string;
  se_transaction_hash : string;
  se_raw_transaction : string;
  se_signer_identity : string;
  se_signature : string;
  se_enclave_evidence : list (pykey * pyval);
  se_signed_at : Z;
  se_submitted_at : option Z;
}.

Definition StoredExecutionV1_validate (e : StoredExecutionV1) : result StoredExecutionV1 :=
  raise_if (negb (Hex32 (se_signing_hash e) && Hex32 (se_transaction_hash e)
                  && HexData (se_raw_transaction e) && Address (se_signer_identity e)
                  && prefixed_exactly hex_lower_char 130 (se_signature e)))
    (ValidationError "StoredExecutionV1");;
  Ok e.

(** [from_signer], with the identifier and the time its defaults draw. *)
Definition from_signer (new_id now : Z) (proposal_id : Z) (authorization : TransactionSignRequestV1)
    (r : SignerResult) : result StoredExecutionV1 :=
  StoredExecutionV1_validate
    {| se_transaction_id := new_id; se_proposal_id := proposal_id;
       se_authorization := authorization; se_signing_hash := sr_signing_hash r;
       se_transaction_hash := sr_transaction_hash r;
       se_raw_transaction := "0x" +:+ hex (sr_signed_transaction r);
       se_signer_identity := sr_signer_identity r; se_signature := sr_signature r;
       se_enclave_evidence := sr_enclave_evidence r; se_signed_at := now;
       se_submitted_at := None |}.

Record MemoryAuthorizationArtifactStore := {
  as_decisions : gmap Z DecisionTokenV1;
  as_executions : gmap Z StoredExecutionV1;
}.

Definition artifacts_init : MemoryAuthorizationArtifactStore :=
  {| as_decisions := ∅; as_executions := ∅ |}.

Definition put_decision (pid : Z) (d : DecisionTokenV1)
    : M MemoryAuthorizationArtifactStore (DecisionTokenV1 * bool) :=
  s ← self;
  match as_decisions s !! pid with
  | Some existing => mret (existing, false)
  | None =>
      update (λ s, {| as_decisions := <[pid := d]> (as_decisions s);
                      as_executions := as_executions s |});;
      mret (d, true)
  end.

Definition get_decision (pid : Z) : M MemoryAuthorizationArtifactStore (option DecisionTokenV1) :=
  read (λ s, as_decisions s !! pid).

Definition put_execution (e : StoredExecutionV1)
    : M MemoryAuthorizationArtifactStore (StoredExecutionV1 * bool) :=
  s ← self;
  match as_executions s !! se_proposal_id e with
  | Some existing => mret (existing, false)
  | None =>
      update (λ s, {| as_decisions := as_decisions s;
                      as_executions := <[se_proposal_id e := e]> (as_executions s) |});;
      mret (e, true)
  end.

Definition get_execution (pid : Z) : M MemoryAuthorizationArtifactStore (option StoredExecutionV1) :=
  read (λ s, as_executions s !! pid).

Definition with_submitted_at (at_ : Z) (e : StoredExecutionV1) : StoredExecutionV1 :=
  {| se_transaction_id := se_transaction_id e; se_proposal_id := se_proposal_id e;
     se_authorization := se_authorization e; se_signing_hash := se_signing_hash e;
     se_transaction_hash := se_transaction_hash e; se_raw_transaction := se_raw_transaction e;
     se_signer_identity := se_signer_identity e; se_signature := se_signature e;
     se_enclave_evidence := se_enclave_evidence e; se_signed_at := se_signed_at e;
     se_submitted_at := Some at_ |}.

Definition mark_submitted (pid at_ : Z) : M MemoryAuthorizationArtifactStore StoredExecutionV1 :=
  s ← self;
  e ← lift (or_raise (as_executions s !! pid) (KeyError (uuid_str pid)));
  match se_submitted_at e with
  | Some _ => mret e
  | None =>
      let e' := with_submitted_at at_ e in
      update (λ s, {| as_decisions := as_decisions s;
                      as_executions := <[pid := e']> (as_executions s) |});;
      mret e'
  end.
