(* ===== verification/Attestations.v ===== *)
(** Complete attestations (src/agentguard-testbed/src/aegisledger/attestations.py,
    attestation_store.py): the evidence an enclave signs, the offline verifier and the
    store of verified attestations. *)
From Stdlib Require Import ZArith Lia Ascii String.
From Stdlib Require Strings.Byte.
From stdpp Require Import base gmap sets list strings pretty.
From S2P Require Import Prelude Bytes Canonical Contracts Eip1559 Decisions Signing Artifacts.

Open Scope Z_scope.

Record EnclaveEvidenceV1 := {
  ee_mode : string;
  ee_build_measurement : string;
  ee_signer_identity : string;
  ee_secp256k1_public_key : string;
  ee_transaction_hash : string;
  ee_signing_hash : string;
  ee_proposal_hash : string;
  ee_policy_version_id : Z;
  ee_policy_hash : string;
  ee_state_version : Z;
  ee_reservation_id : Z;
  ee_wallet : string;
  ee_principal_id : string;
  ee_chain_id : Z;
  ee_wallet_nonce : Z;
  ee_decision_id : Z;
  ee_decision_nonce : Z;
  ee_expires_at : string;
  ee_issued_at : string;
  ee_evidence_hash : string;
  ee_evidence_signature : string;
}.

Record SettlementEvidenceV1 := {
  sv_transaction_hash : string;
  sv_block_hash : string;
  sv_block_number : Z;
  sv_chain_id : Z;
  sv_success : bool;
  sv_confirmations : Z;
  sv_observed_at : Z;
}.

(** The states an attestation can be of. *)
Inductive AttestedState := A_SIGNED | A_SUBMITTED | A_SETTLED | A_REVERTED.

#[export] Instance AttestedState_eq_dec : EqDecision AttestedState.
Proof. solve_decision. Defined.

Record CompleteAttestationV1 := {
  ca_lifecycle_state : AttestedState;
  ca_proposal : ProposalV1;
  ca_decision : DecisionTokenV1;
  ca_transaction_binding : TransactionBindingV1;
  ca_signed_transaction : SignedTransactionV1;
  ca_enclave_evidence : EnclaveEvidenceV1;
  ca_settlement : option SettlementEvidenceV1;
}.

Record AttestationVerification := { av_valid : bool; av_errors : list string }.

(** What the verifier uses of the [cryptography] package, and the parser of ISO 8601
    timestamps: the uncompressed form of an encoded secp256k1 point, ECDSA
    verification of a digest against [(r, s)], and [datetime.fromisoformat] of a UTC
    time, [Z] for [+00:00]. *)
Class EvidenceExternals := {
  ec_point : bytes → option bytes;
  ec_verify : bytes → bytes → Z → Z → bool;
  fromisoformat : string → result Z;
}.

(** [settlement_matches_state] *)
Definition settlement_matches_state (a : CompleteAttestationV1) : result unit :=
  let terminal := is_in (ca_lifecycle_state a) [A_SETTLED; A_REVERTED] in
  raise_if (negb (Bool.eqb terminal (bool_decide (is_Some (ca_settlement a)))))
    (ValueError "terminal attestations require settlement evidence").

Definition CompleteAttestationV1_validate (a : CompleteAttestationV1)
    : result CompleteAttestationV1 :=
  try_except catches_ValueError (settlement_matches_state a) (invalid "CompleteAttestationV1");;
  Ok a.

Definition SettlementEvidenceV1_validate (s : SettlementEvidenceV1) : result SettlementEvidenceV1 :=
  raise_if (negb (Hex32 (sv_transaction_hash s) && Hex32 (sv_block_hash s)
                  && (0 <=? sv_block_number s) && (0 <? sv_chain_id s)
                  && (0 <=? sv_confirmations s)))
    (ValidationError "SettlementEvidenceV1");;
  Ok s.

Definition HexPublicKey (s : string) : bool :=
  startswith "0x04" s && prefixed_exactly hex_lower_char 130 s.
Definition HexSignature (s : string) : bool := prefixed_exactly hex_lower_char 130 s.
Definition Rfc3339Timestamp (s : string) : bool := length_between 20 40 s.

Section attestations.
Context `{!Externals} `{!EvidenceExternals}.

(** The validated fields; timestamps are kept as the text that was signed. *)
Definition EnclaveEvidenceV1_validate (e : EnclaveEvidenceV1) : result EnclaveEvidenceV1 :=
  raise_if (negb (is_in (ee_mode e) ["local-process-or-nitro"; "aws-nitro"]
                  && length_between 1 256 (ee_build_measurement e)
                  && Address (ee_signer_identity e) && HexPublicKey (ee_secp256k1_public_key e)
                  && Hex32 (ee_transaction_hash e) && Hex32 (ee_signing_hash e)
                  && Hex32 (ee_proposal_hash e) && Hex32 (ee_policy_hash e)
                  && (0 <=? ee_state_version e) && Address (ee_wallet e)
                  && length_between 1 128 (ee_principal_id e) && (0 <? ee_chain_id e)
                  && (0 <=? ee_wallet_nonce e) && Rfc3339Timestamp (ee_expires_at e)
                  && Rfc3339Timestamp (ee_issued_at e) && is_ok (fromisoformat (ee_expires_at e))
                  && is_ok (fromisoformat (ee_issued_at e)) && Hex32 (ee_evidence_hash e)
                  && HexSignature (ee_evidence_signature e)))
    (ValidationError "EnclaveEvidenceV1");;
  Ok {| ee_mode := ee_mode e; ee_build_measurement := ee_build_measurement e;
        ee_signer_identity := str_lower (ee_signer_identity e);
        ee_secp256k1_public_key := ee_secp256k1_public_key e;
        ee_transaction_hash := ee_transaction_hash e; ee_signing_hash := ee_signing_hash e;
        ee_proposal_hash := ee_proposal_hash e; ee_policy_version_id := ee_policy_version_id e;
        ee_policy_hash := ee_policy_hash e; ee_state_version := ee_state_version e;
        ee_reservation_id := ee_reservation_id e; ee_wallet := str_lower (ee_wallet e);
        ee_principal_id := ee_principal_id e; ee_chain_id := ee_chain_id e;
        ee_wallet_nonce := ee_wallet_nonce e; ee_decision_id := ee_decision_id e;
        ee_decision_nonce := ee_decision_nonce e; ee_expires_at := ee_expires_at e;
        ee_issued_at := ee_issued_at e; ee_evidence_hash := ee_evidence_hash e;
        ee_evidence_signature := ee_evidence_signature e |}.

(** ** [EnclaveEvidenceV1.model_validate] of a dictionary *)

(** [s.replace(pattern, "")], left to right. *)
Fixpoint remove_all (fuel : nat) (pattern s : string) : string :=
  match fuel with
  | O => s
  | S fuel =>
      if startswith pattern s && negb (Nat.eqb (String.length pattern) 0)
      then remove_all fuel pattern (str_drop (String.length pattern) s)
      else match s with
           | EmptyString => EmptyString
           | String c s => String c (remove_all fuel pattern s)
           end
  end.
Definition str_remove (pattern s : string) : string := remove_all (S (String.length s)) pattern s.

Fixpoint strip_braces (s : list ascii) : list ascii :=
  match s with
  | c :: s' => if bool_decide (c = "{"%char ∨ c = "}"%char) then strip_braces s' else s
  | [] => []
  end.

(** [uuid.UUID(text).int] *)
Definition uuid_parse (text : string) : result Z :=
  let s := str_remove "uuid:" (str_remove "urn:" text) in
  let s := rev (strip_braces (rev (strip_braces (list_ascii_of_string s)))) in
  let s := str_remove "-" (string_of_list_ascii s) in
  raise_if (negb (Nat.eqb (String.length s) 32))
    (ValueError "badly formed hexadecimal UUID string");;
  n ← or_raise (int16 s) (ValueError "invalid literal for int() with base 16");
  raise_if (negb ((0 <=? n) && (n <? 2 ^ 128))) (ValueError "int is out of range (need a 128-bit value)");;
  Ok n.

Definition bad_evidence : exn := ValidationError "EnclaveEvidenceV1".

Definition str_field (k : string) (d : list (pykey * pyval)) : result string :=
  match dict_get k d with Some (PStr s) => Ok s | _ => Err bad_evidence end.
Definition int_field (k : string) (d : list (pykey * pyval)) : result Z :=
  match dict_get k d with Some (PInt z) => Ok z | _ => Err bad_evidence end.
Definition uuid_field (k : string) (d : list (pykey * pyval)) : result Z :=
  s ← str_field k d; try_except catches_ValueError (uuid_parse s) (λ _, Err bad_evidence).

Definition evidence_keys : list string :=
  ["schema_version"; "mode"; "build_measurement"; "signer_identity"; "secp256k1_public_key";
   "transaction_hash"; "signing_hash"; "proposal_hash"; "policy_version_id"; "policy_hash";
   "state_version"; "reservation_id"; "wallet"; "principal_id"; "chain_id"; "wallet_nonce";
   "decision_id"; "decision_nonce"; "expires_at"; "issued_at"; "evidence_hash";
   "evidence_signature"].

Definition evidence_model_validate (d : list (pykey * pyval)) : result EnclaveEvidenceV1 :=
  raise_if (negb (forallb (λ '(k, _), match k with KStr k => is_in k evidence_keys | KOther _ => false end) d))
    bad_evidence;;
  schema ← str_field "schema_version" d;
  raise_if (negb (bool_decide (schema = "aegisledger.enclave_evidence.v1"))) bad_evidence;;
  mode ← str_field "mode" d;
  build ← str_field "build_measurement" d;
  signer ← str_field "signer_identity" d;
  key ← str_field "secp256k1_public_key" d;
  th ← str_field "transaction_hash" d;
  sh ← str_field "signing_hash" d;
  ph ← str_field "proposal_hash" d;
  pv ← uuid_field "policy_version_id" d;
  polh ← str_field "policy_hash" d;
  sv ← int_field "state_version" d;
  rid ← uuid_field "reservation_id" d;
  w ← str_field "wallet" d;
  principal ← str_field "principal_id" d;
  chain ← int_field "chain_id" d;
  nonce ← int_field "wallet_nonce" d;
  did ← uuid_field "decision_id" d;
  dn ← uuid_field "decision_nonce" d;
  expires ← str_field "expires_at" d;
  issued ← str_field "issued_at" d;
  eh ← str_field "evidence_hash" d;
  es ← str_field "evidence_signature" d;
  EnclaveEvidenceV1_validate
    {| ee_mode := mode; ee_build_measurement := build; ee_signer_identity := signer;
       ee_secp256k1_public_key := key; ee_transaction_hash := th; ee_signing_hash := sh;
       ee_proposal_hash := ph; ee_policy_version_id := pv; ee_policy_hash := polh;
       ee_state_version := sv; ee_reservation_id := rid; ee_wallet := w;
       ee_principal_id := principal; ee_chain_id := chain; ee_wallet_nonce := nonce;
       ee_decision_id := did; ee_decision_nonce := dn; ee_expires_at := expires;
       ee_issued_at := issued; ee_evidence_hash := eh; ee_evidence_signature := es |}.

(** [model_dump(mode=json)] without the hash and the signature, and with them. *)
Definition evidence_fields (e : EnclaveEvidenceV1) : list (pykey * pyval) :=
  [(KStr "schema_version", PStr "aegisledger.enclave_evidence.v1");
   (KStr "mode", PStr (ee_mode e));
   (KStr "build_measurement", PStr (ee_build_measurement e));
   (KStr "signer_identity", PStr (ee_signer_identity e));
   (KStr "secp256k1_public_key", PStr (ee_secp256k1_public_key e));
   (KStr "transaction_hash", PStr (ee_transaction_hash e));
   (KStr "signing_hash", PStr (ee_signing_hash e));
   (KStr "proposal_hash", PStr (ee_proposal_hash e));
   (KStr "policy_version_id", PStr (uuid_str (ee_policy_version_id e)));
   (KStr "policy_hash", PStr (ee_policy_hash e));
   (KStr "state_version", PInt (ee_state_version e));
   (KStr "reservation_id", PStr (uuid_str (ee_reservation_id e)));
   (KStr "wallet", PStr (ee_wallet e));
   (KStr "principal_id", PStr (ee_principal_id e));
   (KStr "chain_id", PInt (ee_chain_id e));
   (KStr "wallet_nonce", PInt (ee_wallet_nonce e));
   (KStr "decision_id", PStr (uuid_str (ee_decision_id e)));
   (KStr "decision_nonce", PStr (uuid_str (ee_decision_nonce e)));
   (KStr "expires_at", PStr (ee_expires_at e));
   (KStr "issued_at", PStr (ee_issued_at e))].

Definition unsigned_payload (e : EnclaveEvidenceV1) : result bytes :=
  canonical_json (PDict (evidence_fields e)).

Definition EnclaveEvidenceV1_dump (e : EnclaveEvidenceV1) : list (pykey * pyval) :=
  evidence_fields e ++ [(KStr "evidence_hash", PStr (ee_evidence_hash e));
                        (KStr "evidence_signature", PStr (ee_evidence_signature e))].

(** * The offline verifier *)

(** [_public_key] *)
Definition _public_key (encoded : string) : option bytes :=
  raw ← fromhex (str_drop2 encoded); ec_point raw.

(** [_verify_raw_signature]: the error it appends, if any. *)
Definition _verify_raw_signature (public_key digest : bytes) (signature message : string)
    : result (list string) :=
  raw ← fromhex_0x signature;
  let r := from_bytes_be (take 32 raw) in
  let s := from_bytes_be (take 32 (drop 32 raw)) in
  Ok (error_if (negb (ec_verify public_key digest r s)) message).

(** The [expected] dictionary and the loop over it, in the dictionary's order. *)
Definition binding_errors (p : ProposalV1) (p_hash : string) (d : DecisionTokenV1)
    (e : EnclaveEvidenceV1) : list string :=
  let mismatch field := "enclave evidence " +:+ field +:+ " binding mismatch" in
  error_if (negb (bool_decide (ee_proposal_hash e = p_hash))) (mismatch "proposal_hash")
  ++ error_if (negb (ee_policy_version_id e =? policy_version_id d)) (mismatch "policy_version_id")
  ++ error_if (negb (bool_decide (ee_policy_hash e = d_policy_hash d))) (mismatch "policy_hash")
  ++ error_if (negb (ee_state_version e =? state_version d)) (mismatch "state_version")
  ++ error_if (negb (bool_decide (Some (ee_reservation_id e) = d_reservation_id d)))
       (mismatch "reservation_id")
  ++ error_if (negb (bool_decide (ee_wallet e = wallet p))) (mismatch "wallet")
  ++ error_if (negb (bool_decide (ee_principal_id e = principal_id p))) (mismatch "principal_id")
  ++ error_if (negb (ee_chain_id e =? chain_id p)) (mismatch "chain_id")
  ++ error_if (negb (ee_decision_id e =? decision_id d)) (mismatch "decision_id")
  ++ error_if (negb (ee_decision_nonce e =? decision_nonce d)) (mismatch "decision_nonce").

(** The checks between the evidence, the signed transaction and the binding. *)
Definition scope_errors (p : ProposalV1) (d : DecisionTokenV1) (signed : SignedTransactionV1)
    (e : EnclaveEvidenceV1) (b : TransactionBindingV1) (expires_at : Z) : list string :=
  error_if (negb (bool_decide (ee_transaction_hash e = transaction_hash signed)))
    "enclave evidence transaction hash mismatch"
  ++ error_if (negb (bool_decide (ee_signing_hash e = st_eip1559_hash signed)))
    "enclave evidence signing hash mismatch"
  ++ error_if (negb (ee_wallet_nonce e =? st_wallet_nonce signed))
    "enclave evidence wallet nonce mismatch"
  ++ error_if (negb (bool_decide (ee_signer_identity e = str_lower (signer_identity signed))))
    "enclave evidence signer identity mismatch"
  ++ error_if ((d_expires_at d <? expires_at) || (deadline p <? expires_at))
    "enclave evidence outlives authorization"
  ++ error_if (negb (st_decision_id signed =? decision_id d))
    "signed transaction decision binding mismatch"
  ++ error_if (negb (bool_decide (st_wallet signed = wallet p))
             || negb (st_chain_id signed =? chain_id p))
    "signed transaction scope mismatch"
  ++ error_if (negb (bool_decide (b_wallet b = wallet p)) || negb (b_chain_id b =? chain_id p))
    "transaction binding scope mismatch"
  ++ error_if (negb (b_wallet_nonce b =? st_wallet_nonce signed))
    "transaction binding nonce mismatch"
  ++ error_if (negb (bool_decide (b_asset b = asset p)) || negb (b_amount b =? amount p))
    "transaction binding value mismatch".

(** The intent against the binding. *)
Definition intent_errors (i : IntentV1) (b : TransactionBindingV1) : list string :=
  match i with
  | TransferIntentV1 recipient =>
      error_if (negb (bool_decide (b_operation b = "transfer"))
              || negb (bool_decide (b_recipient b = Some recipient)))
        "transaction binding recipient mismatch"
  | SwapIntentV1 contract selector calldata _ _ =>
      error_if (negb (bool_decide (b_operation b = "swap"))
              || negb (bool_decide (b_contract b = Some contract))
              || negb (bool_decide (b_selector b = Some selector))
              || negb (bool_decide (b_calldata b = calldata)))
        "transaction binding contract call mismatch"
  end.

(** Key, identity and the two signatures. *)
Definition signature_errors (e : EnclaveEvidenceV1) (digest : bytes) (signed : SignedTransactionV1)
    : result (list string) :=
  match _public_key (ee_secp256k1_public_key e) with
  | None => Ok ["secp256k1 public key is invalid"]
  | Some key =>
      let hash := keccak (drop 1 key) in
      let identity := "0x" +:+ hex (drop (length hash - 20) hash) in
      first ← _verify_raw_signature key digest (ee_evidence_signature e)
        "enclave evidence signature is invalid";
      signing_hash ← fromhex_0x (st_eip1559_hash signed);
      second ← _verify_raw_signature key signing_hash (st_signature signed)
        "transaction signature is invalid";
      Ok (error_if (negb (bool_decide (identity = ee_signer_identity e)))
            "secp256k1 public key does not match signer identity" ++ first ++ second)
  end.

Definition settlement_errors (state : AttestedState) (signed : SignedTransactionV1)
    (settlement : option SettlementEvidenceV1) : list string :=
  match settlement with
  | None => []
  | Some s =>
      error_if (negb (bool_decide (sv_transaction_hash s = transaction_hash signed))
              || negb (sv_chain_id s =? st_chain_id signed)) "settlement scope mismatch"
      ++ error_if (negb (Bool.eqb (sv_success s) (bool_decide (state = A_SETTLED))))
           "settlement result does not match lifecycle state"
  end.

Definition raw_errors (signed : SignedTransactionV1) : list string :=
  match fromhex (str_drop2 (raw_transaction signed)) with
  | None => ["signed raw transaction is not hexadecimal"]
  | Some raw =>
      error_if (negb (bool_decide ("0x" +:+ hex (keccak raw) = transaction_hash signed)))
        "signed raw transaction hash mismatch"
  end.

Definition verify_complete_attestation (a : CompleteAttestationV1) (policy_public_key : bytes)
    (allowed_build_measurements : list string) : result AttestationVerification :=
  let p := ca_proposal a in
  let d := ca_decision a in
  let signed := ca_signed_transaction a in
  let e := ca_enclave_evidence a in
  let b := ca_transaction_binding a in
  issued_at ← fromisoformat (ee_issued_at e);
  expires_at ← fromisoformat (ee_expires_at e);
  decision_ok ← verify_decision_token d policy_public_key issued_at;
  p_hash ← proposal_hash p;
  payload ← unsigned_payload e;
  let digest := sha256 payload in
  signatures ← signature_errors e digest signed;
  carried ← canonical_json (PDict (enclave_evidence signed));
  own ← canonical_json (PDict (EnclaveEvidenceV1_dump e));
  let errors :=
    error_if (negb decision_ok) "policy decision signature is invalid"
    ++ error_if (expires_at <? issued_at) "enclave evidence was issued after expiry"
    ++ error_if (negb (is_in (ee_build_measurement e) allowed_build_measurements))
         "signer build measurement is not approved"
    ++ binding_errors p p_hash d e
    ++ scope_errors p d signed e b expires_at
    ++ intent_errors (intent p) b
    ++ error_if (negb (bool_decide (ee_evidence_hash e = "0x" +:+ hex digest)))
         "enclave evidence hash mismatch"
    ++ signatures
    ++ error_if (negb (bool_decide (carried = own)))
         "signed transaction carries different enclave evidence"
    ++ raw_errors signed
    ++ settlement_errors (ca_lifecycle_state a) signed (ca_settlement a) in
  Ok {| av_valid := bool_decide (errors = []); av_errors := errors |}.
End attestations.

(** * attestation_store.py *)

Record MemoryAttestationStore := { ats_items : gmap Z CompleteAttestationV1 }.

Definition attestation_get (pid : Z) : M MemoryAttestationStore (option CompleteAttestationV1) :=
  read (λ s, ats_items s !! pid).

Definition attestation_put (pid : Z) (a : CompleteAttestationV1)
    : M MemoryAttestationStore (CompleteAttestationV1 * bool) :=
  s ← self;
  match ats_items s !! pid with
  | Some existing => mret (existing, false)
  | None =>
      lift (raise_if (negb (proposal_id (ca_proposal a) =? pid))
        (ValueError "attestation proposal binding mismatch"));;
      update (λ s, {| ats_items := <[pid := a]> (ats_items s) |});;
      mret (a, true)
  end.
