(* ===== verification/AttestationsFacts.v ===== *)
(** Facts of Attestations: what a valid attestation pins down. *)
From Stdlib Require Import ZArith Lia Ascii String.
From Stdlib Require Strings.Byte.
From stdpp Require Import base gmap sets list strings pretty.
From S2P Require Import Prelude Bytes Canonical CanonicalFacts Contracts ContractsFacts Eip1559.
From S2P Require Import Decisions Signing Artifacts Attestations.

Open Scope Z_scope.

Definition evidence_ids (e : EnclaveEvidenceV1) : Prop :=
  uuid_range (ee_policy_version_id e) ∧ uuid_range (ee_reservation_id e)
  ∧ uuid_range (ee_decision_id e) ∧ uuid_range (ee_decision_nonce e).

Section facts.
Context `{!Externals} `{!EvidenceExternals}.

(** What the verifier checked when it reports no error. *)
Record attested (a : CompleteAttestationV1) (key : bytes) (measurements : list string)
    (h : string) (payload : bytes) : Prop := {
  at_hash : proposal_hash (ca_proposal a) = Ok h;
  at_payload : unsigned_payload (ca_enclave_evidence a) = Ok payload;
  at_measured : ee_build_measurement (ca_enclave_evidence a) ∈ measurements;
  at_decision : ∃ issued, fromisoformat (ee_issued_at (ca_enclave_evidence a)) = Ok issued
    ∧ verify_decision_token (ca_decision a) key issued = Ok true;
  at_binding : binding_errors (ca_proposal a) h (ca_decision a) (ca_enclave_evidence a) = [];
  at_scope : ∃ expires, fromisoformat (ee_expires_at (ca_enclave_evidence a)) = Ok expires
    ∧ scope_errors (ca_proposal a) (ca_decision a) (ca_signed_transaction a)
        (ca_enclave_evidence a) (ca_transaction_binding a) expires = [];
  at_intent : intent_errors (intent (ca_proposal a)) (ca_transaction_binding a) = [];
  at_digest : ee_evidence_hash (ca_enclave_evidence a) = "0x" +:+ hex (sha256 payload);
  at_signatures : signature_errors (ca_enclave_evidence a) (sha256 payload)
    (ca_signed_transaction a) = Ok [];
  at_raw : raw_errors (ca_signed_transaction a) = [];
  at_settlement : settlement_errors (ca_lifecycle_state a) (ca_signed_transaction a)
    (ca_settlement a) = [];
}.

Lemma valid_attested a key ms r :
  verify_complete_attestation a key ms = Ok r → av_valid r = true →
  ∃ h payload, attested a key ms h payload.
Proof.
  unfold verify_complete_attestation. intros Hv Hr. ok_inv Hv. injection Hv as <-.
  cbn [av_valid] in Hr. apply bool_decide_eq_true in Hr.
  rewrite !app_nil_iff, !error_if_nil in Hr.
  destruct Hr as (H1 & H2 & H3 & H4 & H5 & H6 & H7 & H8 & H9 & H10 & H11).
  prop_of_bool. subst. eexists _, _. constructor; eauto.
  by apply is_in_true.
Qed.

Ltac no_errors H := rewrite ?app_nil_iff, ?error_if_nil in H; prop_of_bool; destruct_and? H.

(** The evidence an attestation carries, in terms of the other parts. *)
Lemma attested_evidence a key ms h payload :
  attested a key ms h payload →
  let e := ca_enclave_evidence a in let p := ca_proposal a in
  let d := ca_decision a in let s := ca_signed_transaction a in
  ee_proposal_hash e = h ∧ ee_policy_version_id e = policy_version_id d
  ∧ ee_policy_hash e = d_policy_hash d ∧ ee_state_version e = Contracts.state_version d
  ∧ Some (ee_reservation_id e) = d_reservation_id d ∧ ee_decision_id e = decision_id d
  ∧ ee_decision_nonce e = decision_nonce d ∧ ee_transaction_hash e = transaction_hash s
  ∧ ee_signing_hash e = st_eip1559_hash s ∧ ee_wallet_nonce e = st_wallet_nonce s.
Proof.
  intros [_ _ _ _ Hb (expires & _ & Hs) _ _ _ _ _]. cbn.
  unfold binding_errors in Hb. unfold scope_errors in Hs. no_errors Hb. no_errors Hs.
  split_and!; done.
Qed.

(** The part of a binding the proposal, the chain and the nonce fix. *)
Definition same_call (b c : TransactionBindingV1) : Prop :=
  b_operation b = b_operation c ∧ b_wallet b = b_wallet c ∧ b_chain_id b = b_chain_id c
  ∧ b_wallet_nonce b = b_wallet_nonce c ∧ b_asset b = b_asset c ∧ b_amount b = b_amount c
  ∧ (b_operation b = "transfer" → b_recipient b = b_recipient c)
  ∧ (b_operation b = "swap" → b_contract b = b_contract c ∧ b_selector b = b_selector c
      ∧ b_calldata b = b_calldata c).

Lemma intent_same_call i b c :
  intent_errors i b = [] → intent_errors i c = [] →
  b_operation b = b_operation c ∧ (b_operation b = "transfer" → b_recipient b = b_recipient c)
  ∧ (b_operation b = "swap" → b_contract b = b_contract c ∧ b_selector b = b_selector c
      ∧ b_calldata b = b_calldata c).
Proof.
  destruct i; cbn [intent_errors]; rewrite !error_if_nil; intros Hb Hc; prop_of_bool; destruct_and!;
    split_and!; intros; split_and?; congruence.
Qed.

Lemma attested_binding a key ms h payload :
  attested a key ms h payload →
  let b := ca_transaction_binding a in let p := ca_proposal a in
  b_wallet b = wallet p ∧ b_chain_id b = chain_id p
  ∧ b_wallet_nonce b = st_wallet_nonce (ca_signed_transaction a)
  ∧ b_asset b = asset p ∧ b_amount b = amount p.
Proof.
  intros [_ _ _ _ _ (expires & _ & Hs) _ _ _ _ _]. cbn.
  unfold scope_errors in Hs. no_errors Hs. split_and!; done.
Qed.

Lemma evidence_payload_inj `{!Rfc8785Law} e f b :
  evidence_ids e → evidence_ids f → unsigned_payload e = Ok b → unsigned_payload f = Ok b →
  ee_transaction_hash e = ee_transaction_hash f ∧ ee_signing_hash e = ee_signing_hash f
  ∧ ee_proposal_hash e = ee_proposal_hash f ∧ ee_policy_version_id e = ee_policy_version_id f
  ∧ ee_policy_hash e = ee_policy_hash f ∧ ee_state_version e = ee_state_version f
  ∧ ee_reservation_id e = ee_reservation_id f ∧ ee_decision_id e = ee_decision_id f
  ∧ ee_decision_nonce e = ee_decision_nonce f ∧ ee_wallet_nonce e = ee_wallet_nonce f
  ∧ ee_build_measurement e = ee_build_measurement f ∧ ee_signer_identity e = ee_signer_identity f.
Proof.
  intros (He1 & He2 & He3 & He4) (Hf1 & Hf2 & Hf3 & Hf4) Hb1 Hb2.
  pose proof (canonical_json_inj _ _ _ Hb1 Hb2) as Heq. clear Hb1 Hb2.
  unfold evidence_fields in Heq.
  same_entry Heq "transaction_hash". same_entry Heq "signing_hash".
  same_entry Heq "proposal_hash". same_entry Heq "policy_hash". same_entry Heq "state_version".
  same_entry Heq "wallet_nonce". same_entry Heq "build_measurement". same_entry Heq "signer_identity".
  same_entry Heq "policy_version_id". apply uuid_str_inj in Hk7; [|done..].
  same_entry Heq "reservation_id". apply uuid_str_inj in Hk8; [|done..].
  same_entry Heq "decision_id". apply uuid_str_inj in Hk9; [|done..].
  same_entry Heq "decision_nonce". apply uuid_str_inj in Hk10; [|done..].
  split_and!; done.
Qed.

(** The raw bytes behind a transaction hash. *)
Definition raw_bytes (s : SignedTransactionV1) : option bytes :=
  fromhex (str_drop2 (raw_transaction s)).

Lemma raw_errors_nil s :
  raw_errors s = [] → ∃ b, raw_bytes s = Some b ∧ transaction_hash s = "0x" +:+ hex (keccak b).
Proof.
  unfold raw_errors, raw_bytes. destruct (fromhex _) as [b|]; [|done].
  rewrite error_if_nil. intros Hb. prop_of_bool. eauto.
Qed.

(** The digests of the two attestations do not collide. *)
Definition attestations_distinct (a b : CompleteAttestationV1) : Prop :=
  (∀ x y, unsigned_payload (ca_enclave_evidence a) = Ok x →
     unsigned_payload (ca_enclave_evidence b) = Ok y → sha256 x = sha256 y → x = y)
  ∧ (∀ x y, canonical_payload (ca_proposal a) = Ok x → canonical_payload (ca_proposal b) = Ok y →
       sha256 x = sha256 y → x = y)
  ∧ (∀ x y, raw_bytes (ca_signed_transaction a) = Some x →
       raw_bytes (ca_signed_transaction b) = Some y → keccak x = keccak y → x = y).

(** C30: the evidence hash pins the whole authorization.  Two
    attestations that both verify and carry the same evidence hash, the digests not
    colliding, are of the same proposal, the same decision (identifier, policy, nonce,
    reservation and state version), the same signed bytes, the same nonce and the
    same call: nothing an auditor reads beside the hash can be exchanged. *)
Theorem attestation_pins_authorization `{!Rfc8785Law} `{!IsoLaw} a b key key' ms ms' r r' :
  proposal_ids (ca_proposal a) → proposal_ids (ca_proposal b) →
  evidence_ids (ca_enclave_evidence a) → evidence_ids (ca_enclave_evidence b) →
  attestations_distinct a b →
  verify_complete_attestation a key ms = Ok r → av_valid r = true →
  verify_complete_attestation b key' ms' = Ok r' → av_valid r' = true →
  ee_evidence_hash (ca_enclave_evidence a) = ee_evidence_hash (ca_enclave_evidence b) →
  ca_proposal a = ca_proposal b
  ∧ decision_id (ca_decision a) = decision_id (ca_decision b)
  ∧ policy_version_id (ca_decision a) = policy_version_id (ca_decision b)
  ∧ d_policy_hash (ca_decision a) = d_policy_hash (ca_decision b)
  ∧ decision_nonce (ca_decision a) = decision_nonce (ca_decision b)
  ∧ d_reservation_id (ca_decision a) = d_reservation_id (ca_decision b)
  ∧ Contracts.state_version (ca_decision a) = Contracts.state_version (ca_decision b)
  ∧ raw_bytes (ca_signed_transaction a) = raw_bytes (ca_signed_transaction b)
  ∧ st_eip1559_hash (ca_signed_transaction a) = st_eip1559_hash (ca_signed_transaction b)
  ∧ same_call (ca_transaction_binding a) (ca_transaction_binding b).
Proof.
  intros Hpa Hpb Hea Heb (Hc1 & Hc2 & Hc3) Hva Hra Hvb Hrb Hhash.
  destruct (valid_attested _ _ _ _ Hva Hra) as (h & x & Ha).
  destruct (valid_attested _ _ _ _ Hvb Hrb) as (h' & y & Hb).
  assert (x = y) as <-.
  { apply Hc1; [apply Ha|apply Hb|]. rewrite (at_digest _ _ _ _ _ Ha), (at_digest _ _ _ _ _ Hb) in Hhash.
    apply (inj (String.append "0x")) in Hhash. by apply hex_inj. }
  destruct (evidence_payload_inj _ _ x Hea Heb (at_payload _ _ _ _ _ Ha) (at_payload _ _ _ _ _ Hb))
    as (E1 & E2 & E3 & E4 & E5 & E6 & E7 & E8 & E9 & E10 & _).
  destruct (attested_evidence _ _ _ _ _ Ha) as (A1 & A2 & A3 & A4 & A5 & A6 & A7 & A8 & A9 & A10).
  destruct (attested_evidence _ _ _ _ _ Hb) as (B1 & B2 & B3 & B4 & B5 & B6 & B7 & B8 & B9 & B10).
  assert (ca_proposal a = ca_proposal b) as Hp.
  { apply (proposal_hash_inj _ _ h); try done; [apply Ha|].
    rewrite <- A1, E3, B1. apply Hb. }
  destruct (attested_binding _ _ _ _ _ Ha) as (C1 & C2 & C3 & C4 & C5).
  destruct (attested_binding _ _ _ _ _ Hb) as (D1 & D2 & D3 & D4 & D5).
  pose proof (at_intent _ _ _ _ _ Ha) as Hia. pose proof (at_intent _ _ _ _ _ Hb) as Hib.
  rewrite <- Hp in D1, D2, D4, D5, Hib.
  destruct (intent_same_call _ _ _ Hia Hib) as (I1 & I2 & I3).
  destruct (raw_errors_nil _ (at_raw _ _ _ _ _ Ha)) as (ra & Ra & Ta).
  destruct (raw_errors_nil _ (at_raw _ _ _ _ _ Hb)) as (rb & Rb & Tb).
  assert (ra = rb) as <-.
  { apply Hc3; [done..|]. apply hex_inj, (inj (String.append "0x")). congruence. }
  unfold same_call. split_and!; first [done|congruence].
Qed.
End facts.
