(* ===== verification/Settlements.v ===== *)
(** Settlement reconciliation (src/agentguard-testbed/src/aegisledger/reconciler.py): the
    memory settlement store and [SettlementReconciler.poll_once]. *)
From Stdlib Require Import ZArith Lia Ascii String.
From stdpp Require Import base gmap sets list strings pretty.
From S2P Require Import Prelude Canonical Contracts State Artifacts.

Open Scope Z_scope.

(** * The settlement store *)

Record SettlementObservation := {
  so_transaction_hash : string;
  so_block_hash : string;
  so_block_number : Z;
  so_chain_id : Z;
  so_success : bool;
  so_confirmations : Z;
  so_observed_at : Z;
}.

Record TrackedTransaction := {
  tt_transaction_hash : string;
  tt_proposal_id : Z;
  tt_chain_id : Z;
  tt_status : string;
  tt_block_hash : option string;
  tt_block_number : option Z;
  tt_success : option bool;
  tt_confirmations : Z;
  tt_reorg_count : Z;
  tt_observed_at : option Z;
}.

(** [_transactions] keeps its insertion order, which [pending] returns. *)
Record MemorySettlementStore := {
  ms_transactions : list (string * TrackedTransaction);
  ms_proposals : gmap Z string;
}.

Definition settlements_init : MemorySettlementStore :=
  {| ms_transactions := []; ms_proposals := ∅ |}.

(** A dict that keeps its order: lookup, and mutation of the object a key holds. *)
Fixpoint find_tx (h : string) (l : list (string * TrackedTransaction))
    : option TrackedTransaction :=
  match l with
  | [] => None
  | (k, t) :: l => if bool_decide (k = h) then Some t else find_tx h l
  end.

Fixpoint alter_tx (f : TrackedTransaction → TrackedTransaction) (h : string)
    (l : list (string * TrackedTransaction)) : list (string * TrackedTransaction) :=
  match l with
  | [] => []
  | (k, t) :: l => if bool_decide (k = h) then (k, f t) :: l else (k, t) :: alter_tx f h l
  end.

Definition tracked_new (h : string) (pid chain : Z) : TrackedTransaction :=
  {| tt_transaction_hash := h; tt_proposal_id := pid; tt_chain_id := chain; tt_status := "PENDING";
     tt_block_hash := None; tt_block_number := None; tt_success := None; tt_confirmations := 0;
     tt_reorg_count := 0; tt_observed_at := None |}.

Definition settlement_register (h : string) (pid chain : Z) : M MemorySettlementStore unit :=
  s ← self;
  match find_tx h (ms_transactions s) with
  | Some existing =>
      if (tt_proposal_id existing =? pid) && (tt_chain_id existing =? chain) then mret tt
      else raise (ValueError "transaction hash is already bound")
  | None =>
      lift (raise_if (bool_decide (is_Some (ms_proposals s !! pid)))
        (ValueError "proposal already has a transaction"));;
      update (λ s, {| ms_transactions := ms_transactions s ++ [(h, tracked_new h pid chain)];
                      ms_proposals := <[pid := h]> (ms_proposals s) |})
  end.

Definition is_pending (t : TrackedTransaction) : bool := bool_decide (tt_status t = "PENDING").

Definition settlement_pending : M MemorySettlementStore (list TrackedTransaction) :=
  read (λ s, filter (λ t, is_pending t = true) (ms_transactions s).*2).

Definition observed (block_hash : string) (block_number : Z) (success : bool) (confirmations now : Z)
    (t : TrackedTransaction) : TrackedTransaction :=
  {| tt_transaction_hash := tt_transaction_hash t; tt_proposal_id := tt_proposal_id t;
     tt_chain_id := tt_chain_id t; tt_status := tt_status t; tt_block_hash := Some block_hash;
     tt_block_number := Some block_number; tt_success := Some success;
     tt_confirmations := confirmations;
     tt_reorg_count := match tt_block_hash t with
       | Some b => if bool_decide (b = block_hash) then tt_reorg_count t else tt_reorg_count t + 1
       | None => tt_reorg_count t
       end;
     tt_observed_at := Some now |}.

Definition settlement_observe (now : Z) (h : string) (block_hash : string) (block_number : Z)
    (success : bool) (confirmations : Z) : M MemorySettlementStore unit :=
  s ← self;
  lift (or_raise (find_tx h (ms_transactions s)) (KeyError h));;
  update (λ s,
    {| ms_transactions :=
         alter_tx (observed block_hash block_number success confirmations now) h (ms_transactions s);
       ms_proposals := ms_proposals s |}).

Definition with_tx_status (status : string) (t : TrackedTransaction) : TrackedTransaction :=
  {| tt_transaction_hash := tt_transaction_hash t; tt_proposal_id := tt_proposal_id t;
     tt_chain_id := tt_chain_id t; tt_status := status; tt_block_hash := tt_block_hash t;
     tt_block_number := tt_block_number t; tt_success := tt_success t;
     tt_confirmations := tt_confirmations t; tt_reorg_count := tt_reorg_count t;
     tt_observed_at := tt_observed_at t |}.

Definition settlement_complete (h status : string) : M MemorySettlementStore unit :=
  lift (raise_if (negb (is_in status ["SETTLED"; "REVERTED"]))
    (ValueError "invalid terminal settlement status"));;
  s ← self;
  lift (or_raise (find_tx h (ms_transactions s)) (KeyError h));;
  update (λ s, {| ms_transactions := alter_tx (with_tx_status status) h (ms_transactions s);
                  ms_proposals := ms_proposals s |}).

Definition settlement_get (h : string) : M MemorySettlementStore TrackedTransaction :=
  s ← self; lift (or_raise (find_tx h (ms_transactions s)) (KeyError h)).

Definition settlement_observation (h : string)
    : M MemorySettlementStore (option SettlementObservation) :=
  read (λ s,
    t ← find_tx h (ms_transactions s);
    block_hash ← tt_block_hash t;
    block_number ← tt_block_number t;
    success ← tt_success t;
    observed_at ← tt_observed_at t;
    Some {| so_transaction_hash := tt_transaction_hash t; so_block_hash := block_hash;
            so_block_number := block_number; so_chain_id := tt_chain_id t; so_success := success;
            so_confirmations := tt_confirmations t; so_observed_at := observed_at |}).

(** * The reconciler *)

(** What [backend.receipt] does: time out, return [None] or a receipt, or raise. *)
Inductive receipt_answer :=
  | TimedOut
  | NoReceipt
  | HasReceipt (r : EvmReceipt)
  | ReceiptRaises (e : exn).

(** The backends of a reconciler by chain identifier: [_backends.get] and the
    backend's [receipt]. *)
Definition backends : Type := Z → option (string → receipt_answer).

Record SettlementReconciler := { rc_backends : backends; rc_finality : Z }.

(** The constructor's checks; [backend_chain] is a backend's own [chain_id]. *)
Definition reconciler_init (registry : list (Z * Z)) (bs : backends) (finality : Z)
    : result SettlementReconciler :=
  raise_if (finality <? 1) (ValueError "finality must be positive");;
  raise_if (negb (forallb (λ '(chain, backend_chain), chain =? backend_chain) registry))
    (ValueError "backend registry chain ID mismatch");;
  Ok {| rc_backends := bs; rc_finality := finality |}.

Definition in_lifecycle {A} (m : M MemoryStateStore A)
    : M (MemoryStateStore * MemorySettlementStore) A := zoom fst (λ l s, (l, snd s)) m.
Definition in_settlements {A} (m : M MemorySettlementStore A)
    : M (MemoryStateStore * MemorySettlementStore) A := zoom snd (λ m s, (fst s, m)) m.

Definition receipt_target (r : EvmReceipt) : LifecycleState :=
  if er_success r then SETTLED else REVERTED.

(** The loop's body once a receipt came back. *)
Definition settle_receipt (finality now : Z) (tracked : TrackedTransaction) (r : EvmReceipt)
    : M (MemoryStateStore * MemorySettlementStore) unit :=
  lift (raise_if (negb (bool_decide
      (str_lower (er_transaction_hash r) = str_lower (tt_transaction_hash tracked))))
    (RuntimeError "backend returned a receipt for a different transaction"));;
  in_settlements (settlement_observe now (tt_transaction_hash tracked) (er_block_hash r)
    (er_block_number r) (er_success r) (er_confirmations r));;
  if er_confirmations r <? finality then mret tt
  else
    let target := receipt_target r in
    record ← in_lifecycle (store_get (tt_proposal_id tracked));
    record ← lift (or_raise record
      (RuntimeError "tracked settlement references an unknown proposal"));
    (if bool_decide (rec_state record = SUBMITTED) then
       in_lifecycle (transition now (tt_proposal_id tracked) target);; mret tt
     else mret tt);;
    in_settlements (settlement_complete (tt_transaction_hash tracked) (state_value target)).

Definition poll_step (c : SettlementReconciler) (now : Z) (tracked : TrackedTransaction)
    : M (MemoryStateStore * MemorySettlementStore) unit :=
  match rc_backends c (tt_chain_id tracked) with
  | None => mret tt
  | Some receipt =>
      match receipt (tt_transaction_hash tracked) with
      | TimedOut | NoReceipt => mret tt
      | ReceiptRaises e => raise e
      | HasReceipt r => settle_receipt (rc_finality c) now tracked r
      end
  end.

Fixpoint poll_items (c : SettlementReconciler) (now : Z) (items : list TrackedTransaction)
    : M (MemoryStateStore * MemorySettlementStore) unit :=
  match items with
  | [] => mret tt
  | t :: items => poll_step c now t;; poll_items c now items
  end.

(** [poll_once]; [now] is the clock of this poll. *)
Definition poll_once (c : SettlementReconciler) (now : Z)
    : M (MemoryStateStore * MemorySettlementStore) unit :=
  items ← in_settlements settlement_pending;
  poll_items c now items.
