(* ===== verification/SettlementsFacts.v ===== *)
(** Facts of Settlements: a transaction is settled exactly when a final receipt said
    so, and what a poll does to proposals that are not yet [SUBMITTED]. *)
From Stdlib Require Import ZArith Lia Ascii String.
From stdpp Require Import base gmap sets list strings pretty.
From S2P Require Import Prelude Canonical Contracts ContractsFacts Policy State StateFacts Artifacts.
From S2P Require Import Settlements.

Open Scope Z_scope.

(** * The ordered dictionary *)

Lemma find_alter f h h' l :
  find_tx h' (alter_tx f h l) = if decide (h' = h) then f <$> find_tx h l else find_tx h' l.
Proof.
  induction l as [|[k t] l IH]; cbn [find_tx alter_tx]; [by case_decide|].
  repeat (case_bool_decide || case_decide); subst; cbn [find_tx];
    repeat (case_bool_decide || case_decide); subst; try done; rewrite ?IH; by case_decide.
Qed.

Lemma alter_keys f h l : (alter_tx f h l).*1 = l.*1.
Proof.
  induction l as [|[k t] l IH]; [done|]. cbn [alter_tx]. case_bool_decide; [done|].
  rewrite !fmap_cons. cbn [fst]. by rewrite IH.
Qed.

Lemma find_in l h t : NoDup l.*1 → (h, t) ∈ l → find_tx h l = Some t.
Proof.
  induction l as [|[k u] l IH]; [by intros _ ?%elem_of_nil|]. cbn [find_tx].
  rewrite fmap_cons, NoDup_cons. intros [Hk Hl] [Heq|Hin]%elem_of_cons.
  - injection Heq as -> ->. by rewrite bool_decide_true.
  - rewrite bool_decide_false; [by apply IH|]. intros ->. apply Hk.
    apply list_elem_of_fmap. by exists (h, t).
Qed.

Lemma find_some l h t : find_tx h l = Some t → (h, t) ∈ l.
Proof.
  induction l as [|[k u] l IH]; cbn [find_tx]; [done|].
  case_bool_decide; intros Hf; [injection Hf as ->; subst; left|right; auto].
Qed.

Lemma find_app l k h : find_tx h (l ++ k) =
  match find_tx h l with Some t => Some t | None => find_tx h k end.
Proof. induction l as [|[k' u] l IH]; [done|]. cbn. by case_bool_decide. Qed.

(** * The invariant *)

(** A transaction is final only on the word of a final receipt. *)
Definition tx_final (finality : Z) (t : TrackedTransaction) : Prop :=
  tt_status t = "PENDING"
  ∨ (∃ b, tt_block_hash t = Some b) ∧ finality ≤ tt_confirmations t
    ∧ ((tt_status t = "SETTLED" ∧ tt_success t = Some true)
       ∨ (tt_status t = "REVERTED" ∧ tt_success t = Some false)).

Record sett_inv (finality : Z) (s : MemorySettlementStore) : Prop := {
  ti_keys : NoDup (ms_transactions s).*1;
  ti_tx : ∀ h t, find_tx h (ms_transactions s) = Some t →
    tt_transaction_hash t = h ∧ ms_proposals s !! tt_proposal_id t = Some h ∧ tx_final finality t;
  ti_proposal : ∀ pid h, ms_proposals s !! pid = Some h →
    ∃ t, find_tx h (ms_transactions s) = Some t ∧ tt_proposal_id t = pid;
}.

Lemma settlements_init_inv finality : sett_inv finality settlements_init.
Proof.
  constructor; cbn; [constructor|done|]. intros pid h. by rewrite lookup_empty.
Qed.

Lemma settlement_register_inv finality h pid chain s :
  sett_inv finality s → sett_inv finality (fst (settlement_register h pid chain s)).
Proof.
  intros Hi. unfold settlement_register, self, lift, mbind, M_bind.
  destruct (find_tx h (ms_transactions s)) as [t|] eqn:Hf; [by case_match|].
  case_bool_decide as Hp; cbn; [done|]. apply eq_None_not_Some in Hp.
  destruct Hi as [Hk Ht Hpr]. constructor; cbn [ms_transactions ms_proposals].
  - rewrite fmap_app. apply NoDup_app. split_and!; [done| |by repeat constructor; set_solver].
    cbn. intros k Hin ->%list_elem_of_singleton. apply list_elem_of_fmap in Hin as ([k t] & Heq & Hin).
    cbn in Heq. subst k. by rewrite (find_in _ _ _ Hk Hin) in Hf.
  - intros h' t'. rewrite find_app. destruct (find_tx h' (ms_transactions s)) as [u|] eqn:Hu.
    + intros [= <-]. destruct (Ht _ _ Hu) as (? & Hq & ?). split_and!; try done.
      rewrite lookup_insert_ne; [done|]. congruence.
    + cbn. case_bool_decide; [|done]. intros [= <-]. subst. cbn.
      rewrite lookup_insert_eq. split_and!; [done..|by left].
  - intros q k [[<- <-]|[Hne Hk']]%lookup_insert_Some.
    + exists (tracked_new h pid chain). rewrite find_app, Hf. cbn. by rewrite bool_decide_true.
    + destruct (Hpr _ _ Hk') as (t & Hft & <-). exists t. by rewrite find_app, Hft.
Qed.

(** Changing what is recorded of one transaction. *)
Lemma alter_inv finality f h s :
  sett_inv finality s →
  (∀ t, find_tx h (ms_transactions s) = Some t →
     tt_transaction_hash (f t) = tt_transaction_hash t ∧ tt_proposal_id (f t) = tt_proposal_id t
     ∧ tx_final finality (f t)) →
  sett_inv finality {| ms_transactions := alter_tx f h (ms_transactions s);
                       ms_proposals := ms_proposals s |}.
Proof.
  intros [Hk Ht Hpr] Hf. constructor; cbn [ms_transactions ms_proposals].
  - by rewrite alter_keys.
  - intros h' t'. rewrite find_alter. case_decide as Hh; [|by apply Ht]. subst h'.
    destruct (find_tx h (ms_transactions s)) as [t|] eqn:Hfind; cbn; [|done]. intros [= <-].
    destruct (Hf t eq_refl) as (-> & -> & ?). destruct (Ht _ _ Hfind) as (? & ? & ?). done.
  - intros pid h' Hh. destruct (Hpr _ _ Hh) as (t & Hft & Hpid). rewrite find_alter.
    case_decide as Hd; [|eauto]. subst h'. rewrite Hft. exists (f t). split; [done|].
    destruct (Hf t Hft) as (_ & -> & _). done.
Qed.

(** * One receipt *)

Section polls.
Variable c : SettlementReconciler.
Let finality := rc_finality c.
Implicit Types (l : MemoryStateStore) (s : MemorySettlementStore) (t : TrackedTransaction).

Definition seen (now : Z) (t : TrackedTransaction) (r : EvmReceipt) (s : MemorySettlementStore)
    : MemorySettlementStore :=
  {| ms_transactions := alter_tx (observed (er_block_hash r) (er_block_number r) (er_success r)
       (er_confirmations r) now) (tt_transaction_hash t) (ms_transactions s);
     ms_proposals := ms_proposals s |}.

Definition closed (t : TrackedTransaction) (r : EvmReceipt) (s : MemorySettlementStore)
    : MemorySettlementStore :=
  {| ms_transactions := alter_tx (with_tx_status (state_value (receipt_target r)))
       (tt_transaction_hash t) (ms_transactions s);
     ms_proposals := ms_proposals s |}.

Definition advanced (now pid : Z) (r : EvmReceipt) (rec : ProposalRecord) (l : MemoryStateStore)
    : MemoryStateStore :=
  if bool_decide (rec_state rec = SUBMITTED)
  then moved_store now pid (default 0 (rec_reservation_id rec)) (receipt_target r) rec l else l.

Lemma receipt_target_allowed r : require_transition SUBMITTED (receipt_target r) = Ok tt.
Proof. unfold receipt_target. by destruct (er_success r). Qed.

Lemma observe_spec now t r s t0 :
  find_tx (tt_transaction_hash t) (ms_transactions s) = Some t0 →
  settlement_observe now (tt_transaction_hash t) (er_block_hash r) (er_block_number r)
    (er_success r) (er_confirmations r) s = (seen now t r s, Ok tt).
Proof. intros Hf. unfold settlement_observe, self, lift, mbind, M_bind. by rewrite Hf. Qed.

Lemma complete_spec t r s t0 :
  find_tx (tt_transaction_hash t) (ms_transactions s) = Some t0 →
  settlement_complete (tt_transaction_hash t) (state_value (receipt_target r)) s
  = (closed t r s, Ok tt).
Proof.
  intros Hf. unfold settlement_complete, closed, self, lift, mbind, M_bind.
  replace (is_in (state_value (receipt_target r)) ["SETTLED"; "REVERTED"]) with true
    by (unfold receipt_target; by destruct (er_success r)).
  cbn [negb raise_if]. by rewrite Hf.
Qed.

Lemma settle_receipt_spec now t r l s t0 :
  store_inv l → find_tx (tt_transaction_hash t) (ms_transactions s) = Some t0 →
  settle_receipt finality now t r (l, s) =
  if bool_decide (str_lower (er_transaction_hash r) = str_lower (tt_transaction_hash t)) then
    if er_confirmations r <? finality then ((l, seen now t r s), Ok tt)
    else match _records l !! tt_proposal_id t with
         | None => ((l, seen now t r s),
             Err (RuntimeError "tracked settlement references an unknown proposal"))
         | Some rec => ((advanced now (tt_proposal_id t) r rec l, closed t r (seen now t r s)), Ok tt)
         end
  else ((l, s), Err (RuntimeError "backend returned a receipt for a different transaction")).
Proof.
  intros Hl Hf. unfold settle_receipt, lift, mbind, M_bind.
  case_bool_decide; [|done]. cbn [negb raise_if]. unfold in_settlements, in_lifecycle, zoom.
  cbn [fst snd]. rewrite (observe_spec now t r s t0) by done. cbn [fst snd].
  destruct (_ <? _); [done|]. unfold store_get, read. cbn [fst snd].
  destruct (_records l !! tt_proposal_id t) as [rec|] eqn:Hr; [|done].
  cbn [or_raise]. unfold advanced. case_bool_decide as Hst.
  - cbn [fst snd]. rewrite transition_spec by done. rewrite Hr, Hst, receipt_target_allowed.
    cbn [fst snd mret M_ret].
    by rewrite (complete_spec t r _ (observed (er_block_hash r) (er_block_number r) (er_success r)
      (er_confirmations r) now t0)) by (cbn; by rewrite find_alter, decide_True, Hf).
  - cbn [fst snd mret M_ret].
    by rewrite (complete_spec t r _ (observed (er_block_hash r) (er_block_number r) (er_success r)
      (er_confirmations r) now t0)) by (cbn; by rewrite find_alter, decide_True, Hf).
Qed.

Lemma advanced_inv now pid r rec l :
  store_inv l → _records l !! pid = Some rec → store_inv (advanced now pid r rec l).
Proof.
  intros Hl Hr. unfold advanced. case_bool_decide as Hst; [|done].
  apply moved_store_inv; [done..|]. rewrite Hst. apply receipt_target_allowed.
Qed.

Lemma seen_inv now t r s :
  sett_inv finality s → (∀ t0, find_tx (tt_transaction_hash t) (ms_transactions s) = Some t0 →
    tt_status t0 = "PENDING") → sett_inv finality (seen now t r s).
Proof.
  intros Hs Hp. apply alter_inv; [done|]. intros t0 Ht0. split_and!; [done..|].
  left. exact (Hp t0 Ht0).
Qed.

Lemma closed_inv now t r s t0 :
  sett_inv finality (seen now t r s) → find_tx (tt_transaction_hash t) (ms_transactions s) = Some t0 →
  finality ≤ er_confirmations r → sett_inv finality (closed t r (seen now t r s)).
Proof.
  intros Hs Ht0 Hfin. apply alter_inv; [done|]. intros t1. cbn [seen ms_transactions].
  rewrite find_alter, decide_True by done. rewrite Ht0. intros [= <-]. cbn.
  split_and!; [done..|]. right. cbn. split_and!; [eauto|done|].
  unfold receipt_target. destruct (er_success r); [left|right]; done.
Qed.

(** ** The lifecycle under polls *)

(** [pid] has a tracked transaction for which the backend holds a final receipt. *)
Definition final_receipt (s : MemorySettlementStore) (pid : Z) (r : EvmReceipt) : Prop :=
  ∃ h t receipt, find_tx h (ms_transactions s) = Some t ∧ tt_proposal_id t = pid
    ∧ tt_status t = "PENDING" ∧ rc_backends c (tt_chain_id t) = Some receipt
    ∧ receipt h = HasReceipt r ∧ str_lower (er_transaction_hash r) = str_lower h
    ∧ finality ≤ er_confirmations r.

(** What may happen to the records: a submitted proposal with a final receipt moves
    to the receipt's target, everything else stays. *)
Definition advances (s0 : MemorySettlementStore) (l l' : MemoryStateStore) : Prop :=
  ∀ pid, _records l' !! pid = _records l !! pid
    ∨ ∃ rec rec' r, _records l !! pid = Some rec ∧ rec_state rec = SUBMITTED
        ∧ final_receipt s0 pid r ∧ _records l' !! pid = Some rec'
        ∧ rec_state rec' = receipt_target r ∧ rec_proposal rec' = rec_proposal rec.

Lemma advances_refl s0 l : advances s0 l l.
Proof. by left. Qed.

Lemma advances_trans s0 l1 l2 l3 : advances s0 l1 l2 → advances s0 l2 l3 → advances s0 l1 l3.
Proof.
  intros H1 H2 pid. destruct (H2 pid) as [Hk|(rec & rec' & r & Hrec & Hst & Hf & Hrec' & Ht & Hp)].
  - rewrite Hk. apply H1.
  - destruct (H1 pid) as [Hk|(a & a' & r' & Ha & _ & _ & Ha' & Ht' & _)].
    + right. exists rec, rec', r. rewrite <- Hk. done.
    + exfalso. rewrite Hrec in Ha'. injection Ha' as <-. rewrite Hst in Ht'.
      unfold receipt_target in Ht'. by destruct (er_success r').
Qed.

(** A tracked item, and what the store says of it now. *)
Definition tracked_by (t : TrackedTransaction) (s : MemorySettlementStore) : Prop :=
  ∃ t0, find_tx (tt_transaction_hash t) (ms_transactions s) = Some t0
    ∧ tt_status t0 = "PENDING" ∧ tt_proposal_id t0 = tt_proposal_id t
    ∧ tt_chain_id t0 = tt_chain_id t.

Lemma advanced_advances s0 now t r rec l receipt :
  tracked_by t s0 → rc_backends c (tt_chain_id t) = Some receipt →
  receipt (tt_transaction_hash t) = HasReceipt r →
  str_lower (er_transaction_hash r) = str_lower (tt_transaction_hash t) →
  finality ≤ er_confirmations r → _records l !! tt_proposal_id t = Some rec →
  advances s0 l (advanced now (tt_proposal_id t) r rec l).
Proof.
  intros (t0 & Hf & Hp & Hpid & Hch) Hb Hr Hh Hfin Hrec. unfold advanced.
  case_bool_decide as Hst; [|apply advances_refl]. intros pid. cbn [moved_store _records].
  destruct (decide (pid = tt_proposal_id t)) as [->|Hne].
  - right. eexists rec, _, r. rewrite lookup_insert_eq. split_and!; try done.
    exists (tt_transaction_hash t), t0, receipt. rewrite Hch. done.
  - left. by rewrite lookup_insert_ne.
Qed.

(** What a poll that returned did for an item with a final receipt. *)
Definition settled_item (t : TrackedTransaction) (l : MemoryStateStore) (s : MemorySettlementStore)
    : Prop :=
  ∀ receipt r, rc_backends c (tt_chain_id t) = Some receipt →
    receipt (tt_transaction_hash t) = HasReceipt r → finality ≤ er_confirmations r →
    (∃ t', find_tx (tt_transaction_hash t) (ms_transactions s) = Some t'
       ∧ tt_status t' = state_value (receipt_target r) ∧ tt_proposal_id t' = tt_proposal_id t)
    ∧ ∃ rec, _records l !! tt_proposal_id t = Some rec ∧ rec_state rec ≠ SUBMITTED.

Record step_ok (s0 : MemorySettlementStore) (items : list TrackedTransaction)
    (l : MemoryStateStore) (s : MemorySettlementStore)
    (out : (MemoryStateStore * MemorySettlementStore) * result unit) : Prop := {
  so_store : store_inv (fst (fst out));
  so_sett : sett_inv finality (snd (fst out));
  so_advances : advances s0 l (fst (fst out));
  so_other : ∀ h, h ∉ map tt_transaction_hash items →
    find_tx h (ms_transactions (snd (fst out))) = find_tx h (ms_transactions s);
  so_settled : snd out = Ok tt → Forall (λ t, settled_item t (fst (fst out)) (snd (fst out))) items;
}.

Lemma advanced_settled now pid r rec l :
  _records l !! pid = Some rec →
  ∃ rec', _records (advanced now pid r rec l) !! pid = Some rec' ∧ rec_state rec' ≠ SUBMITTED.
Proof.
  intros Hr. unfold advanced. case_bool_decide as Hst; [|by exists rec].
  eexists. cbn. rewrite lookup_insert_eq. split; [done|]. cbn. unfold receipt_target.
  by destruct (er_success r).
Qed.

Lemma step_nop s0 t l s e :
  store_inv l → sett_inv finality s → (e = Ok tt → settled_item t l s) →
  step_ok s0 [t] l s ((l, s), e).
Proof.
  intros Hl Hs He. constructor; try done; [apply advances_refl|].
  cbn [fst snd]. intros He'. constructor; [auto|constructor].
Qed.

Lemma seen_other now t r s h :
  h ∉ map tt_transaction_hash [t] →
  find_tx h (ms_transactions (seen now t r s)) = find_tx h (ms_transactions s).
Proof. intros Hh. cbn [seen ms_transactions]. rewrite find_alter, decide_False; [done|set_solver]. Qed.

Lemma closed_other t r s h :
  h ∉ map tt_transaction_hash [t] →
  find_tx h (ms_transactions (closed t r s)) = find_tx h (ms_transactions s).
Proof. intros Hh. cbn [closed ms_transactions]. rewrite find_alter, decide_False; [done|set_solver]. Qed.

Lemma poll_step_ok s0 now t l s :
  store_inv l → sett_inv finality s → tracked_by t s → tracked_by t s0 →
  step_ok s0 [t] l s (poll_step c now t (l, s)).
Proof.
  intros Hl Hs (t0 & Hf & Hp & Hpid & Hch) Ht0. unfold poll_step.
  destruct (rc_backends c (tt_chain_id t)) as [receipt|] eqn:Hb;
    [|apply step_nop; try done; intros _ r ? ?; congruence].
  destruct (receipt (tt_transaction_hash t)) as [| |r|e] eqn:Hr;
    try (apply step_nop; try done; intros ? ? ? ? ?; congruence).
  change (rc_finality c) with finality. rewrite (settle_receipt_spec now t r l s t0) by done.
  case_bool_decide as Hh; [|by apply step_nop].
  assert (sett_inv finality (seen now t r s)) as Hseen.
  { apply seen_inv; [done|]. intros t1 Ht1. congruence. }
  destruct (_ <? _) eqn:Hfin; prop_of_bool.
  - constructor; cbn [fst snd]; try done; [apply advances_refl|intros; by apply seen_other|].
    intros _. constructor; [|constructor]. intros receipt' r' Hb' Hr' Hfin'.
    assert (r' = r) as -> by congruence. lia.
  - destruct (_records l !! tt_proposal_id t) as [rec|] eqn:Hrec.
    + constructor; cbn [fst snd].
      * by apply advanced_inv.
      * by eapply closed_inv.
      * by eapply advanced_advances.
      * intros h Hh'. by rewrite closed_other, seen_other.
      * intros _. constructor; [|constructor]. intros receipt' r' Hb' Hr' _.
        assert (r' = r) as -> by congruence. split; [|by apply advanced_settled].
        eexists. cbn [closed seen ms_transactions]. rewrite find_alter, decide_True by done.
        rewrite find_alter, decide_True, Hf by done. split_and!; [done..|exact Hpid].
    + constructor; cbn [fst snd]; try done; [apply advances_refl|intros; by apply seen_other].
Qed.

Lemma tracked_by_other t s s' :
  find_tx (tt_transaction_hash t) (ms_transactions s') = find_tx (tt_transaction_hash t) (ms_transactions s) →
  tracked_by t s → tracked_by t s'.
Proof. intros Heq (t0 & Hf & Hrest). exists t0. by rewrite Heq. Qed.

(** Later items do not undo what an earlier one did. *)
Lemma settled_item_later s0 t l s l' s' :
  advances s0 l l' →
  find_tx (tt_transaction_hash t) (ms_transactions s') = find_tx (tt_transaction_hash t) (ms_transactions s) →
  settled_item t l s → settled_item t l' s'.
Proof.
  intros Ha Hf Hs receipt r Hb Hr Hfin. destruct (Hs receipt r Hb Hr Hfin) as [Ht (rec & Hrec & Hst)].
  rewrite Hf. split; [done|].
  destruct (Ha (tt_proposal_id t)) as [Hk|(a & a' & q & Hq & Hsub & _ & Ha' & Htgt & _)].
  - exists rec. by rewrite Hk.
  - exists a'. split; [done|]. rewrite Htgt. unfold receipt_target. by destruct (er_success q).
Qed.

Lemma poll_items_ok s0 now items l s :
  store_inv l → sett_inv finality s → NoDup (map tt_transaction_hash items) →
  Forall (λ t, tracked_by t s) items → Forall (λ t, tracked_by t s0) items →
  step_ok s0 items l s (poll_items c now items (l, s)).
Proof.
  revert l s. induction items as [|t items IH]; intros l s Hl Hs Hnd Ht Ht0.
  { constructor; try done. apply advances_refl. }
  cbn [map] in Hnd. apply NoDup_cons in Hnd as [Hnin Hnd].
  apply Forall_cons in Ht as [Ht Hts], Ht0 as [Ht0 Hts0].
  pose proof (poll_step_ok s0 now t l s Hl Hs Ht Ht0) as Hstep.
  cbn [poll_items]. unfold mbind, M_bind.
  destruct (poll_step c now t (l, s)) as [[l1 s1] [[]|e]] eqn:Hrun;
    destruct Hstep as [H1 H2 H3 H4 H5]; cbn [fst snd] in *.
  - assert (Forall (λ t, tracked_by t s1) items) as Hts1.
    { apply Forall_forall. intros u Hu. rewrite Forall_forall in Hts. eapply tracked_by_other; [|by apply Hts].
      apply H4. cbn. intros Heq%list_elem_of_singleton. apply Hnin. rewrite <- Heq.
      by apply (list_elem_of_fmap_2 tt_transaction_hash). }
    pose proof (IH l1 s1 H1 H2 Hnd Hts1 Hts0) as Hrest.
    destruct (poll_items c now items (l1, s1)) as [[l2 s2] res].
    destruct Hrest as [K1 K2 K3 K4 K5]. constructor; cbn [fst snd] in *; try done.
    + by eapply advances_trans.
    + intros h Hh. cbn [map] in Hh. apply not_elem_of_cons in Hh as [??].
      rewrite K4, H4; [done|by intros ->%list_elem_of_singleton|done].
    + intros Hres. specialize (H5 eq_refl). rewrite Forall_singleton in H5.
      constructor; [|by apply K5]. eapply settled_item_later; [done|by apply K4|done].
  - constructor; cbn [fst snd]; try done.
    intros h Hh. cbn [map] in Hh. apply not_elem_of_cons in Hh as [??].
    apply H4. by intros ->%list_elem_of_singleton.
Qed.

(** ** Whole polls *)

Definition pending_items (s : MemorySettlementStore) : list TrackedTransaction :=
  filter (λ t, is_pending t = true) (ms_transactions s).*2.

Lemma poll_once_items now l s :
  poll_once c now (l, s) = poll_items c now (pending_items s) (l, s).
Proof. done. Qed.

Lemma pending_in s t :
  sett_inv finality s → t ∈ pending_items s ↔
  find_tx (tt_transaction_hash t) (ms_transactions s) = Some t ∧ tt_status t = "PENDING".
Proof.
  intros Hi. unfold pending_items, is_pending. rewrite list_elem_of_filter, bool_decide_eq_true. split.
  - intros [Hp ([h u] & -> & Hin)%list_elem_of_fmap]. cbn [snd] in *. split; [|done].
    pose proof (find_in _ _ _ (ti_keys _ _ Hi) Hin) as Hf.
    destruct (ti_tx _ _ Hi _ _ Hf) as (-> & _). done.
  - intros [Hf Hp]. split; [done|]. apply find_some in Hf. apply list_elem_of_fmap. by eexists (_, _).
Qed.

Lemma keys_hashes (l : list (string * TrackedTransaction)) :
  NoDup l.*1 → (∀ h t, find_tx h l = Some t → tt_transaction_hash t = h) →
  map tt_transaction_hash l.*2 = l.*1.
Proof.
  intros Hnd Ht. assert (∀ h t, (h, t) ∈ l → tt_transaction_hash t = h) as Hin.
  { intros h t Hin. apply Ht. by apply find_in. }
  clear Hnd Ht. induction l as [|[h t] l IH]; [done|]. rewrite !fmap_cons. cbn [map fst snd].
  f_equal; [apply Hin; left|]. apply IH. intros h' t' Hin'. apply Hin. by right.
Qed.

Lemma sublist_map {A B} (f : A → B) (l k : list A) : sublist l k → sublist (map f l) (map f k).
Proof. induction 1; cbn; by constructor. Qed.

Lemma filter_sublist' {A} (P : A → Prop) `{∀ x, Decision (P x)} (l : list A) : sublist (filter P l) l.
Proof.
  induction l as [|x l IH]; [constructor|]. rewrite filter_cons. case_decide; by constructor.
Qed.

Lemma pending_nodup s : sett_inv finality s → NoDup (map tt_transaction_hash (pending_items s)).
Proof.
  intros Hi. eapply sublist_NoDup; [|apply sublist_map, filter_sublist'].
  rewrite keys_hashes; [apply Hi|apply Hi|]. intros h t Hf. by destruct (ti_tx _ _ Hi _ _ Hf).
Qed.

Lemma poll_once_ok now l s :
  store_inv l → sett_inv finality s → step_ok s (pending_items s) l s (poll_once c now (l, s)).
Proof.
  intros Hl Hs. rewrite poll_once_items.
  assert (Forall (λ t, tracked_by t s) (pending_items s)) as Ht.
  { apply Forall_forall. intros t Hin. apply pending_in in Hin as [Hf Hp]; [|done]. by exists t. }
  apply poll_items_ok; try done. by apply pending_nodup.
Qed.

End polls.

(** Stores under registrations, polls (that return or raise) and any other calls
    on the state store.  Each poll is given its own answers of the chain; the finality
    depth is that of the deployment. *)
Inductive settle_reach (finality : Z) : MemoryStateStore → MemorySettlementStore → Prop :=
  | treach_init l : store_reach (λ _, True) l → settle_reach finality l settlements_init
  | treach_store l s op : settle_reach finality l s → op_ok op l →
      settle_reach finality (store_run op l) s
  | treach_register l s h pid chain : settle_reach finality l s →
      settle_reach finality l (fst (settlement_register h pid chain s))
  | treach_poll l s c now : settle_reach finality l s → rc_finality c = finality →
      settle_reach finality (fst (fst (poll_once c now (l, s)))) (snd (fst (poll_once c now (l, s)))).

Lemma settle_reach_inv finality l s :
  settle_reach finality l s → store_inv l ∧ sett_inv finality s.
Proof.
  induction 1 as [l Hl|l s op _ [IH1 IH2] Hop|l s h pid chain _ [IH1 IH2]|l s c now _ [IH1 IH2] <-].
  - split; [by eapply store_reach_inv|apply settlements_init_inv].
  - split; [by apply store_run_inv|done].
  - split; [done|by apply settlement_register_inv].
  - destruct (poll_once_ok c now l s IH1 IH2). done.
Qed.

Section histories.
Variable c : SettlementReconciler.
Let finality := rc_finality c.

Lemma final_receipt_unique s pid h t receipt r r' :
  sett_inv finality s → find_tx h (ms_transactions s) = Some t → tt_proposal_id t = pid →
  rc_backends c (tt_chain_id t) = Some receipt → receipt h = HasReceipt r →
  final_receipt c s pid r' → r' = r.
Proof.
  intros Hi Hf Hpid Hb Hr (h' & t' & receipt' & Hf' & Hpid' & _ & Hb' & Hr' & _).
  destruct (ti_tx _ _ Hi _ _ Hf) as (_ & Hp & _). destruct (ti_tx _ _ Hi _ _ Hf') as (_ & Hp' & _).
  assert (h' = h) as -> by congruence. congruence.
Qed.

(** C14: settlement follows final receipts, and only them, along every history of
    registrations, other calls on the state store and polls, in which the chain may answer
    each poll differently (a transaction pending, then included, then reorganised into
    another block).  In every state the stores can reach, a tracked transaction is
    [SETTLED] or [REVERTED] only with a receipt of that outcome and at least [finality]
    confirmations.  A poll, whether it returns or raises half way, moves no proposal except
    one that is [SUBMITTED] and whose own transaction has a final receipt in this poll, and
    moves it to that receipt's outcome.  A poll that returns has done so for every pending
    transaction with a final receipt.  The finality depth is the same in all polls. *)
Theorem reconciler_settles_exactly l s now :
  settle_reach finality l s →
  let out := poll_once c now (l, s) in
  (∀ h t, find_tx h (ms_transactions s) = Some t → tx_final finality t)
  ∧ advances c s l (fst (fst out))
  ∧ (snd out = Ok tt → ∀ h t receipt r rec,
       find_tx h (ms_transactions s) = Some t → tt_status t = "PENDING" →
       rc_backends c (tt_chain_id t) = Some receipt → receipt h = HasReceipt r →
       finality ≤ er_confirmations r →
       _records l !! tt_proposal_id t = Some rec → rec_state rec = SUBMITTED →
       (∃ t', find_tx h (ms_transactions (snd (fst out))) = Some t'
          ∧ tt_status t' = state_value (receipt_target r))
       ∧ ∃ rec', _records (fst (fst out)) !! tt_proposal_id t = Some rec'
          ∧ rec_state rec' = receipt_target r).
Proof.
  intros Hreach out. destruct (settle_reach_inv _ _ _ Hreach) as [Hl Hs].
  destruct (poll_once_ok c now l s Hl Hs) as [_ _ Ha _ Hset]. split_and!; [|done|].
  { intros h t Hf. by destruct (ti_tx _ _ Hs _ _ Hf) as (_ & _ & ?). }
  intros Hok h t receipt r rec Hf Hp Hb Hr Hfin Hrec Hst. destruct (ti_tx _ _ Hs _ _ Hf) as (Hh & _).
  specialize (Hset Hok). rewrite Forall_forall in Hset.
  specialize (Hset t). rewrite (pending_in c), Hh in Hset by done.
  destruct (Hset (conj Hf Hp) receipt r Hb) as ((t' & Ht & Hst' & _) & rec' & Hrec' & Hns);
    [by rewrite Hh|done|].
  rewrite Hh in Ht. split; [by exists t'|].
  destruct (Ha (tt_proposal_id t)) as [Hk|(a & a' & q & _ & _ & Hq & Ha' & Htgt & _)].
  - assert (rec' = rec) as -> by congruence. done.
  - exists a'. split; [done|]. rewrite Htgt. f_equal. symmetry.
    symmetry. by eapply final_receipt_unique.
Qed.

(** ** The window between registration and submission *)

Inductive polled : MemoryStateStore * MemorySettlementStore →
    MemoryStateStore * MemorySettlementStore → Prop :=
  | polled_refl st : polled st st
  | polled_step st st' c' now : polled st st' → rc_finality c' = finality →
      polled st (fst (poll_once c' now st')).

(** A transaction that is no longer pending is not looked at again. *)
Lemma polled_closed st st' h t :
  polled st st' → store_inv (fst st) → sett_inv finality (snd st) →
  find_tx h (ms_transactions (snd st)) = Some t → tt_status t ≠ "PENDING" →
  store_inv (fst st') ∧ sett_inv finality (snd st')
  ∧ find_tx h (ms_transactions (snd st')) = Some t
  ∧ _records (fst st') !! tt_proposal_id t = _records (fst st) !! tt_proposal_id t.
Proof.
  intros Hp Hl Hs Hf Hn. induction Hp as [st|st st' c' now _ IH Hc]; [done|].
  destruct (IH Hl Hs Hf) as (Hl' & Hs' & Hf' & Hr'). destruct st' as [l' s']. cbn [fst snd] in *.
  rewrite <- Hc in Hs'. destruct (poll_once_ok c' now l' s' Hl' Hs') as [K1 K2 K3 K4 _].
  rewrite Hc in K2. split_and!; [done..| |].
  - rewrite K4; [done|]. intros (u & -> & Hu)%list_elem_of_fmap.
    apply (pending_in c' _ _ Hs') in Hu as [Hu Hpu]. congruence.
  - rewrite <- Hr'. destruct (K3 (tt_proposal_id t)) as [->|(a & a' & q & _ & _ & Hq & _)]; [done|].
    exfalso. destruct Hq as (h' & t' & _ & Ht' & Hpid & Hpend & _).
    destruct (ti_tx _ _ Hs' _ _ Hf') as (_ & P1 & _), (ti_tx _ _ Hs' _ _ Ht') as (_ & P2 & _).
    assert (h' = h) as -> by congruence. congruence.
Qed.

(** A receipt that arrives between registration and submission is
    lost.  [execute] registers a transaction before it moves the proposal to [SUBMITTED],
    and the reconciler polls without the execution lock.  If a poll meets a final receipt
    while the proposal is still [SIGNED], it closes the transaction and leaves the
    proposal; once the proposal is [SUBMITTED], no later poll ever settles it, whatever the
    chain answers, and its reservation stays held. *)
Theorem poll_before_submitted_strands l s now h t receipt r rec now' l2 rec2 st' :
  settle_reach finality l s → snd (poll_once c now (l, s)) = Ok tt →
  find_tx h (ms_transactions s) = Some t → tt_status t = "PENDING" →
  rc_backends c (tt_chain_id t) = Some receipt → receipt h = HasReceipt r →
  finality ≤ er_confirmations r →
  _records l !! tt_proposal_id t = Some rec → rec_state rec = SIGNED →
  transition now' (tt_proposal_id t) SUBMITTED (fst (fst (poll_once c now (l, s)))) = (l2, Ok rec2) →
  polled (l2, snd (fst (poll_once c now (l, s)))) st' →
  (∃ rec', _records (fst st') !! tt_proposal_id t = Some rec' ∧ rec_state rec' = SUBMITTED)
  ∧ ∃ t', find_tx h (ms_transactions (snd st')) = Some t'
      ∧ tt_status t' = state_value (receipt_target r).
Proof.
  intros Hreach Hok Hf Hp Hb Hr Hfin Hrec Hst Htr Hpolls.
  destruct (settle_reach_inv _ _ _ Hreach) as [Hl Hs]. destruct (ti_tx _ _ Hs _ _ Hf) as (Hh & Hprop & _).
  destruct (poll_once_ok c now l s Hl Hs) as [Hl1 Hs1 Ha _ Hset].
  specialize (Hset Hok). rewrite Forall_forall in Hset. specialize (Hset t).
  rewrite (pending_in c), Hh in Hset by done.
  destruct (Hset (conj Hf Hp) receipt r Hb) as ((t' & Hf1 & Hst1 & Hpid) & _); [by rewrite Hh|done|].
  rewrite Hh in Hf1. rewrite transition_spec in Htr by done.
  destruct (Ha (tt_proposal_id t)) as [Hk|(a & _ & _ & Ha1 & Hsub & _)]; [|congruence].
  rewrite Hk, Hrec in Htr. destruct (require_transition _ _) as [[]|] eqn:Hrt; [|done].
  injection Htr as Hl2 _.
  assert (store_inv l2) as Hinv2 by (rewrite <- Hl2; apply moved_store_inv; by rewrite ?Hk).
  assert (tt_status t' ≠ "PENDING") as Hn.
  { rewrite Hst1. unfold receipt_target. by destruct (er_success r). }
  destruct (polled_closed _ _ h t' Hpolls Hinv2 Hs1 Hf1 Hn) as (_ & _ & Hfin1 & Hrecs).
  split; [|by exists t']. rewrite Hpid in Hrecs. rewrite Hrecs, <- Hl2. cbn [fst moved_store _records].
  rewrite lookup_insert_eq. by eexists.
Qed.
End histories.

(** * Witnesses *)

Definition ex_pid : Z := proposal_id sample_proposal.
Definition ex_receipt : EvmReceipt :=
  {| er_transaction_hash := "0xAA"; er_block_hash := "0xbb"; er_block_number := 5;
     er_success := true; er_confirmations := 3 |}.
Definition ex_reconciler : SettlementReconciler :=
  {| rc_backends := λ chain, if chain =? 1 then Some (λ _, HasReceipt ex_receipt) else None;
     rc_finality := 2 |}.
Definition ex_signed : MemoryStateStore := store_run (OTransition (seconds 1003) ex_pid SIGNED) sample_store.
Definition ex_submitted : MemoryStateStore :=
  store_run (OTransition (seconds 1004) ex_pid SUBMITTED) ex_signed.
Definition ex_tracked : MemorySettlementStore :=
  fst (settlement_register "0xaa" ex_pid 1 settlements_init).

(** The chain as earlier polls saw it: nothing yet, then the receipt in another block with
    too few confirmations. *)
Definition ex_answers (r : receipt_answer) : SettlementReconciler :=
  {| rc_backends := λ chain, if chain =? 1 then Some (λ _, r) else None; rc_finality := 2 |}.
Definition ex_early : EvmReceipt :=
  {| er_transaction_hash := "0xAA"; er_block_hash := "0xcc"; er_block_number := 4;
     er_success := false; er_confirmations := 1 |}.
Definition ex_poll (c : SettlementReconciler) (st : MemoryStateStore * MemorySettlementStore)
    : MemoryStateStore * MemorySettlementStore := fst (poll_once c (seconds 1005) st).
Definition ex_polled : MemoryStateStore * MemorySettlementStore :=
  ex_poll (ex_answers (HasReceipt ex_early)) (ex_poll (ex_answers NoReceipt) (ex_submitted, ex_tracked)).

Lemma ex_signed_reach : settle_reach (rc_finality ex_reconciler) ex_signed ex_tracked.
Proof.
  apply treach_register, treach_store; [|done]. apply treach_init. by apply sample_store_reach.
Qed.

Lemma ex_polled_reach : settle_reach (rc_finality ex_reconciler) (fst ex_polled) (snd ex_polled).
Proof.
  unfold ex_polled, ex_poll. rewrite (surjective_pairing (fst (poll_once (ex_answers NoReceipt) _ _))).
  apply treach_poll; [|done]. apply treach_poll; [|done].
  apply treach_register, treach_store; [|done]. apply treach_store; [|done].
  apply treach_init. by apply sample_store_reach.
Qed.

Lemma record_state_at l pid st :
  (rec_state <$> _records l !! pid) = Some st →
  ∃ rec, _records l !! pid = Some rec ∧ rec_state rec = st.
Proof. destruct (_records l !! pid); cbn; [|done]. intros [= <-]. eauto. Qed.

(** No receipt, a failed one in a block that was reorganised away, then the final one. *)
Lemma reconciler_settles_exactly_witness :
  ∃ rec', _records (fst (fst (poll_once ex_reconciler (seconds 1010) ex_polled))) !! ex_pid = Some rec'
    ∧ rec_state rec' = SETTLED.
Proof.
  destruct (record_state_at (fst ex_polled) ex_pid SUBMITTED ltac:(vm_compute; reflexivity))
    as (rec & Hrec & Hst).
  destruct (reconciler_settles_exactly ex_reconciler (fst ex_polled) (snd ex_polled) (seconds 1010)
    ex_polled_reach) as (_ & _ & H).
  assert (∃ t, find_tx "0xaa" (ms_transactions (snd ex_polled)) = Some t ∧ tt_status t = "PENDING"
    ∧ tt_chain_id t = 1 ∧ tt_proposal_id t = ex_pid) as (t & Ht & Hp & Hc & Hpid).
  { eexists. split_and!; vm_compute; reflexivity. }
  specialize (H ltac:(vm_compute; reflexivity) "0xaa" t (λ _, HasReceipt ex_receipt) ex_receipt rec Ht Hp).
  rewrite Hc, Hpid in H.
  exact (proj2 (H eq_refl eq_refl ltac:(vm_compute; discriminate) Hrec Hst)).
Defined.

Lemma poll_before_submitted_strands_witness :
  ∃ rec', _records (fst (fst (poll_once ex_reconciler (seconds 1020)
      (fst (transition (seconds 1012) ex_pid SUBMITTED
         (fst (fst (poll_once ex_reconciler (seconds 1010) (ex_signed, ex_tracked))))),
       snd (fst (poll_once ex_reconciler (seconds 1010) (ex_signed, ex_tracked)))))))
      !! ex_pid = Some rec' ∧ rec_state rec' = SUBMITTED.
Proof.
  destruct (record_state_at ex_signed ex_pid SIGNED ltac:(vm_compute; reflexivity))
    as (rec & Hrec & Hst).
  assert (is_ok (snd (transition (seconds 1012) ex_pid SUBMITTED
    (fst (fst (poll_once ex_reconciler (seconds 1010) (ex_signed, ex_tracked)))))) = true) as Hok
    by (vm_compute; reflexivity).
  destruct (transition (seconds 1012) ex_pid SUBMITTED
    (fst (fst (poll_once ex_reconciler (seconds 1010) (ex_signed, ex_tracked)))))
    as [l2 [rec2|e]] eqn:Htr; [|discriminate Hok].
  exact (proj1 (poll_before_submitted_strands ex_reconciler ex_signed ex_tracked (seconds 1010)
    "0xaa" (tracked_new "0xaa" ex_pid 1) (λ _, HasReceipt ex_receipt) ex_receipt rec (seconds 1012)
    l2 rec2 _ ex_signed_reach ltac:(vm_compute; reflexivity) ltac:(vm_compute; reflexivity)
    eq_refl eq_refl eq_refl ltac:(vm_compute; discriminate) Hrec Hst Htr
    (polled_step _ _ _ _ (seconds 1020) (polled_refl _ _) eq_refl))).
Defined.
