(* ===== verification/Service.v ===== *)
(** [ServiceContainer] (src/agentguard-testbed/src/aegisledger/api.py): submission, execution
    and attestation, over the memory stores.  Calls to the isolated signer and to
    the chain backends are logged in the state, in the order they are made. *)
From Stdlib Require Import ZArith Lia Ascii String.
From Stdlib Require Strings.Byte.
From stdpp Require Import base gmap sets list strings pretty.
From S2P Require Import Prelude Bytes Canonical Contracts Policy State Decisions Eip1559 Signing.
From S2P Require Import Journal Artifacts Attestations Settlements.

Open Scope Z_scope.

(** * Requests and responses *)

Record SubmissionResponse := {
  sub_proposal_id : Z;
  sub_state : LifecycleState;
  sub_state_version : Z;
  sub_created : bool;
  sub_decision : DecisionTokenV1;
}.

Record ExecutionRequest := {
  x_wallet_nonce : Z;
  x_value : Z;
  x_gas_limit : Z;
  x_max_fee_per_gas : Z;
  x_max_priority_fee_per_gas : Z;
}.

Definition ExecutionRequest_validate (r : ExecutionRequest) : result ExecutionRequest :=
  raise_if (negb ((0 <=? x_wallet_nonce r) && (0 <=? x_value r) && (0 <? x_gas_limit r)
                  && (0 <? x_max_fee_per_gas r) && (0 <=? x_max_priority_fee_per_gas r)))
    (ValidationError "ExecutionRequest");;
  raise_if (x_max_fee_per_gas r <? x_max_priority_fee_per_gas r)
    (ValidationError "ExecutionRequest");;
  Ok r.

Record ExecutionResponse := {
  xr_proposal_id : Z;
  xr_transaction_id : Z;
  xr_state : LifecycleState;
  xr_state_version : Z;
  xr_signing_hash : string;
  xr_transaction_hash : string;
  xr_signer_identity : string;
  xr_submitted : bool;
  xr_created : bool;
}.

(** * The container *)

(** A call across the signer or chain boundary, for a proposal. *)
Inductive external_call :=
  | CSign (pid : Z) (actor : string) (request : TransactionSignRequestV1)
  | CSubmit (pid : Z) (submission : ChainSubmission).

Record ServiceState := {
  sc_policies : PolicyRegistry;
  sc_state : MemoryStateStore;
  sc_audit : AuditJournal;
  sc_artifacts : MemoryAuthorizationArtifactStore;
  sc_settlements : MemorySettlementStore;
  sc_attestations : MemoryAttestationStore;
  sc_calls : list external_call;
}.

(** The issuer, the signer's RPC, the backends' [submit] and the settings. *)
Record ServiceConfig := {
  cfg_decisions : DecisionIssuer;
  cfg_signer : option (TransactionSignRequestV1 → option SignResponse);
  cfg_backends : Z → option (ChainSubmission → result string);
  cfg_eip712_domain_separator : string;
  cfg_allowed_build_measurements : list string;
}.

Definition in_policies {A} (m : M PolicyRegistry A) : M ServiceState A :=
  zoom sc_policies (λ x s, {| sc_policies := x; sc_state := sc_state s; sc_audit := sc_audit s;
    sc_artifacts := sc_artifacts s; sc_settlements := sc_settlements s;
    sc_attestations := sc_attestations s; sc_calls := sc_calls s |}) m.
Definition in_state {A} (m : M MemoryStateStore A) : M ServiceState A :=
  zoom sc_state (λ x s, {| sc_policies := sc_policies s; sc_state := x; sc_audit := sc_audit s;
    sc_artifacts := sc_artifacts s; sc_settlements := sc_settlements s;
    sc_attestations := sc_attestations s; sc_calls := sc_calls s |}) m.
Definition in_audit {A} (m : M AuditJournal A) : M ServiceState A :=
  zoom sc_audit (λ x s, {| sc_policies := sc_policies s; sc_state := sc_state s; sc_audit := x;
    sc_artifacts := sc_artifacts s; sc_settlements := sc_settlements s;
    sc_attestations := sc_attestations s; sc_calls := sc_calls s |}) m.
Definition in_artifacts {A} (m : M MemoryAuthorizationArtifactStore A) : M ServiceState A :=
  zoom sc_artifacts (λ x s, {| sc_policies := sc_policies s; sc_state := sc_state s;
    sc_audit := sc_audit s; sc_artifacts := x; sc_settlements := sc_settlements s;
    sc_attestations := sc_attestations s; sc_calls := sc_calls s |}) m.
Definition in_tracking {A} (m : M MemorySettlementStore A) : M ServiceState A :=
  zoom sc_settlements (λ x s, {| sc_policies := sc_policies s; sc_state := sc_state s;
    sc_audit := sc_audit s; sc_artifacts := sc_artifacts s; sc_settlements := x;
    sc_attestations := sc_attestations s; sc_calls := sc_calls s |}) m.
Definition in_attestations {A} (m : M MemoryAttestationStore A) : M ServiceState A :=
  zoom sc_attestations (λ x s, {| sc_policies := sc_policies s; sc_state := sc_state s;
    sc_audit := sc_audit s; sc_artifacts := sc_artifacts s; sc_settlements := sc_settlements s;
    sc_attestations := x; sc_calls := sc_calls s |}) m.
Definition call (c : external_call) : M ServiceState unit :=
  update (λ s, {| sc_policies := sc_policies s; sc_state := sc_state s; sc_audit := sc_audit s;
    sc_artifacts := sc_artifacts s; sc_settlements := sc_settlements s;
    sc_attestations := sc_attestations s; sc_calls := sc_calls s ++ [c] |}).

Definition service_init (now : Z) : ServiceState :=
  {| sc_policies := registry_init; sc_state := store_init; sc_audit := journal_init now;
     sc_artifacts := artifacts_init; sc_settlements := settlements_init;
     sc_attestations := {| ats_items := ∅ |}; sc_calls := [] |}.

Section service.
Context `{!Externals} `{!EvidenceExternals}.

(** * Submission *)

(** The identifiers and times a submission draws. *)
Record submit_draws := {
  sd_reserve : reserve_draws;
  sd_issued_at : Z;
  sd_decision_id : Z;
  sd_nonce : Z;
  sd_event_id : Z;
  sd_event_at : Z;
}.

Definition submit (cfg : ServiceConfig) (d : submit_draws) (proposal : ProposalV1) (actor : string)
    : M ServiceState SubmissionResponse :=
  version ← in_policies registry_active;
  result ← in_state (reserve (sd_reserve d) proposal (v_policy version));
  let record := res_record result in
  let pid := proposal_id (rec_proposal record) in
  existing ← in_artifacts (get_decision pid);
  decision ← match existing with
    | Some decision => mret decision
    | None =>
        candidate ← lift (issue (cfg_decisions cfg) (sd_issued_at d) (sd_decision_id d) (sd_nonce d)
                            record version);
        '(decision, created) ← in_artifacts (put_decision pid candidate);
        (if (created : bool) then
           in_audit (journal_append (sd_event_id d) (sd_event_at d) "POLICY_DECISION_ISSUED" actor
             [(KStr "proposal_id", PStr (uuid_str pid));
              (KStr "state", PStr (state_value (rec_state record)));
              (KStr "decision_id", PStr (uuid_str (decision_id decision)));
              (KStr "policy_hash", PStr (v_policy_hash version))] (Some pid));; mret tt
         else mret tt);;
        mret decision
    end;
  mret {| sub_proposal_id := pid; sub_state := rec_state record;
          sub_state_version := rec_state_version record; sub_created := res_created result;
          sub_decision := decision |}.

(** * Execution *)

Definition binding_of (p : ProposalV1) (request : ExecutionRequest) : TransactionBindingV1 :=
  let '(recipient, contract, selector, calldata) :=
    match intent p with
    | TransferIntentV1 recipient => (Some recipient, None, None, "0x")
    | SwapIntentV1 contract selector calldata _ _ => (None, Some contract, Some selector, calldata)
    end in
  {| b_operation := intent_kind (intent p); b_wallet := wallet p; b_chain_id := chain_id p;
     b_wallet_nonce := x_wallet_nonce request; b_asset := asset p; b_amount := amount p;
     b_recipient := recipient; b_contract := contract; b_selector := selector;
     b_calldata := calldata; b_value := x_value request; b_gas_limit := x_gas_limit request;
     b_max_fee_per_gas := x_max_fee_per_gas request;
     b_max_priority_fee_per_gas := x_max_priority_fee_per_gas request |}.

Definition unsigned_of (p : ProposalV1) (request : ExecutionRequest) : UnsignedEip1559 :=
  let '(target, calldata) :=
    match intent p with
    | TransferIntentV1 recipient => (recipient, "0x")
    | SwapIntentV1 contract _ calldata _ _ => (contract, calldata)
    end in
  {| tx_chain_id := chain_id p; tx_nonce := x_wallet_nonce request;
     tx_max_priority_fee_per_gas := x_max_priority_fee_per_gas request;
     tx_max_fee_per_gas := x_max_fee_per_gas request; tx_gas_limit := x_gas_limit request;
     tx_to := target; tx_value := x_value request; tx_calldata := calldata |}.

Definition _authorization (cfg : ServiceConfig) (record : ProposalRecord) (decision : DecisionTokenV1)
    (request : ExecutionRequest) : result TransactionSignRequestV1 :=
  reservation_id ← or_raise (rec_reservation_id record)
    (ValueError "proposal has no active reservation");
  let proposal := rec_proposal record in
  transaction ← TransactionBindingV1_validate (binding_of proposal request);
  unsigned_payload ← encode_unsigned_eip1559 (unsigned_of proposal request);
  raise_if (negb (Nat.eqb (String.length (cfg_eip712_domain_separator cfg)) 66)
            || negb (startswith "0x" (cfg_eip712_domain_separator cfg)))
    (ValueError "EIP-712 domain separator is invalid");;
  let eip712_payload := "0x1901" +:+ str_drop2 (cfg_eip712_domain_separator cfg)
                        +:+ str_drop2 (d_proposal_hash decision) in
  eip712_hash ← keccak_hex eip712_payload;
  eip1559_hash ← keccak_hex unsigned_payload;
  let expires := Z.min (d_expires_at decision) (deadline proposal) in
  TransactionSignRequestV1_validate
    {| q_proposal := proposal; q_decision := decision; q_reservation_id := reservation_id;
       q_wallet_nonce := x_wallet_nonce request; q_chain_id := chain_id proposal;
       q_transaction := transaction; q_eip712_payload := eip712_payload;
       q_eip1559_unsigned_payload := unsigned_payload; q_eip712_hash := eip712_hash;
       q_eip1559_hash := eip1559_hash; q_expires_at := expires |}
    {| dt_wall := expires; dt_offset := Some 0 |}.

Definition _execution_matches_request (e : StoredExecutionV1) (request : ExecutionRequest) : bool :=
  let t := q_transaction (se_authorization e) in
  (b_wallet_nonce t =? x_wallet_nonce request) && (b_value t =? x_value request)
  && (b_gas_limit t =? x_gas_limit request) && (b_max_fee_per_gas t =? x_max_fee_per_gas request)
  && (b_max_priority_fee_per_gas t =? x_max_priority_fee_per_gas request).

(** The identifiers and times an execution draws. *)
Record execute_draws := {
  xd_transaction_id : Z;
  xd_signed_at : Z;
  xd_signed_now : Z;
  xd_signed_event : Z;
  xd_signed_event_at : Z;
  xd_submitted_at : Z;
  xd_submitted_now : Z;
  xd_submitted_event : Z;
  xd_submitted_event_at : Z;
}.

Definition conflict : exn := ValueError "proposal already has a different signed execution".

(** The branch that signs: no execution is stored yet. *)
Definition sign_new (cfg : ServiceConfig) (rpc : TransactionSignRequestV1 → option SignResponse)
    (d : execute_draws) (pid : Z) (request : ExecutionRequest) (actor : string)
    (record : ProposalRecord) : M ServiceState (StoredExecutionV1 * bool * ProposalRecord) :=
  lift (raise_if (negb (bool_decide (rec_state record = RESERVED)))
    (ValueError ("proposal cannot be signed from " +:+ state_value (rec_state record))));;
  found ← in_artifacts (get_decision pid);
  decision ← lift (or_raise found (RuntimeError "proposal decision is unavailable"));
  authorization ← lift (_authorization cfg record decision request);
  call (CSign pid actor authorization);;
  result ← lift (sign rpc authorization);
  in_state (register_decision_nonce (decision_nonce decision));;
  in_state (register_wallet_nonce (wallet (rec_proposal record)) (chain_id (rec_proposal record))
    (x_wallet_nonce request));;
  candidate ← lift (from_signer (xd_transaction_id d) (xd_signed_at d) pid authorization result);
  '(execution, created) ← in_artifacts (put_execution candidate);
  lift (raise_if (negb (_execution_matches_request execution request)) conflict);;
  record ← in_state (transition (xd_signed_now d) pid SIGNED);
  in_audit (journal_append (xd_signed_event d) (xd_signed_event_at d) "TRANSACTION_SIGNED" actor
    [(KStr "proposal_id", PStr (uuid_str pid));
     (KStr "transaction_id", PStr (uuid_str (se_transaction_id execution)));
     (KStr "transaction_hash", PStr (se_transaction_hash execution));
     (KStr "signing_hash", PStr (se_signing_hash execution))] (Some pid));;
  mret (execution, created, record).

Definition submission_of (e : StoredExecutionV1) : ChainSubmission :=
  {| cs_chain_id := q_chain_id (se_authorization e); cs_transaction_hash := se_transaction_hash e;
     cs_raw_transaction := Some (se_raw_transaction e) |}.

(** [current = self.state.get(proposal_id); assert current is not None] *)
Definition current_record (pid : Z) : M ServiceState ProposalRecord :=
  current ← in_state (store_get pid);
  lift (or_raise current AssertionError).

(** The branch that submits: the stored execution was not submitted yet. *)
Definition submit_new (backend : ChainSubmission → result string) (d : execute_draws) (pid : Z)
    (actor : string) (execution : StoredExecutionV1)
    : M ServiceState (StoredExecutionV1 * ProposalRecord) :=
  call (CSubmit pid (submission_of execution));;
  transaction_hash ← lift (backend (submission_of execution));
  lift (raise_if (negb (bool_decide (str_lower transaction_hash = se_transaction_hash execution)))
    (RuntimeError "chain backend returned a different transaction hash"));;
  execution ← in_artifacts (mark_submitted pid (xd_submitted_at d));
  in_tracking (settlement_register (se_transaction_hash execution) pid
    (q_chain_id (se_authorization execution)));;
  current ← current_record pid;
  record ← (if bool_decide (rec_state current = SIGNED)
            then in_state (transition (xd_submitted_now d) pid SUBMITTED) else mret current);
  in_audit (journal_append (xd_submitted_event d) (xd_submitted_event_at d) "TRANSACTION_SUBMITTED"
    actor
    [(KStr "proposal_id", PStr (uuid_str pid));
     (KStr "transaction_id", PStr (uuid_str (se_transaction_id execution)));
     (KStr "transaction_hash", PStr (se_transaction_hash execution))] (Some pid));;
  mret (execution, record).

(** The branch for an execution that was submitted before. *)
Definition submit_again (d : execute_draws) (pid : Z) (execution : StoredExecutionV1)
    : M ServiceState ProposalRecord :=
  current ← current_record pid;
  if bool_decide (rec_state current = SIGNED) then
    in_tracking (settlement_register (se_transaction_hash execution) pid
      (q_chain_id (se_authorization execution)));;
    in_state (transition (xd_submitted_now d) pid SUBMITTED)
  else mret current.

Definition response_of (pid : Z) (e : StoredExecutionV1) (record : ProposalRecord) (created : bool)
    : ExecutionResponse :=
  {| xr_proposal_id := pid; xr_transaction_id := se_transaction_id e; xr_state := rec_state record;
     xr_state_version := rec_state_version record; xr_signing_hash := se_signing_hash e;
     xr_transaction_hash := se_transaction_hash e; xr_signer_identity := se_signer_identity e;
     xr_submitted := bool_decide (is_Some (se_submitted_at e)); xr_created := created |}.

(** [execute], under its lock. *)
Definition execute (cfg : ServiceConfig) (d : execute_draws) (pid : Z) (request : ExecutionRequest)
    (actor : string) : M ServiceState ExecutionResponse :=
  found ← in_state (store_get pid);
  record ← lift (or_raise found (KeyError "proposal does not exist"));
  lift (raise_if (negb (bool_decide (principal_id (rec_proposal record) = actor)))
    (PermissionError "proposal belongs to another principal"));;
  rpc ← lift (or_raise (cfg_signer cfg) (RuntimeError "isolated signer is not configured"));
  backend ← lift (or_raise (cfg_backends cfg (chain_id (rec_proposal record)))
    (RuntimeError "chain backend is not configured"));
  stored ← in_artifacts (get_execution pid);
  '(execution, created, record) ← match stored with
    | None => sign_new cfg rpc d pid request actor record
    | Some execution =>
        lift (raise_if (negb (_execution_matches_request execution request)) conflict);;
        mret (execution, false, record)
    end;
  match se_submitted_at execution with
  | None =>
      '(execution, record) ← submit_new backend d pid actor execution;
      mret (response_of pid execution record created)
  | Some _ =>
      record ← submit_again d pid execution;
      mret (response_of pid execution record created)
  end.

(** * Attestation *)

(** The identifiers and times [complete_attestation] draws. *)
Record attest_draws := { ad_transaction_id : Z; ad_event_id : Z; ad_event_at : Z }.

Definition signed_of (new_id : Z) (record : ProposalRecord) (decision : DecisionTokenV1)
    (e : StoredExecutionV1) (evidence : EnclaveEvidenceV1) : SignedTransactionV1 :=
  {| transaction_id := new_id; st_eip712_hash := q_eip712_hash (se_authorization e);
     st_eip1559_hash := se_signing_hash e; transaction_hash := se_transaction_hash e;
     raw_transaction := se_raw_transaction e; st_wallet := wallet (rec_proposal record);
     st_wallet_nonce := q_wallet_nonce (se_authorization e);
     st_chain_id := q_chain_id (se_authorization e); st_decision_id := decision_id decision;
     signer_identity := se_signer_identity e; enclave_evidence := EnclaveEvidenceV1_dump evidence;
     st_signature := se_signature e |}.

Definition settlement_of (o : SettlementObservation) : SettlementEvidenceV1 :=
  {| sv_transaction_hash := so_transaction_hash o; sv_block_hash := so_block_hash o;
     sv_block_number := so_block_number o; sv_chain_id := so_chain_id o;
     sv_success := so_success o; sv_confirmations := so_confirmations o;
     sv_observed_at := so_observed_at o |}.

Definition complete_attestation (cfg : ServiceConfig) (d : attest_draws) (pid : Z) (actor : string)
    : M ServiceState CompleteAttestationV1 :=
  existing ← in_attestations (attestation_get pid);
  match existing with
  | Some a => mret a
  | None =>
      found ← in_state (store_get pid);
      record ← lift (or_raise found (KeyError "proposal does not exist"));
      lift (raise_if (negb (is_in (rec_state record) [SETTLED; REVERTED]))
        (ValueError "complete attestation requires a terminal settlement"));;
      stored ← in_artifacts (get_execution pid);
      decided ← in_artifacts (get_decision pid);
      '(execution, decision) ← lift (match stored, decided with
        | Some e, Some d => Ok (e, d)
        | _, _ => Err (RuntimeError "authorization artifacts are incomplete")
        end);
      evidence ← lift (evidence_model_validate (se_enclave_evidence execution));
      seen ← in_tracking (settlement_observation (se_transaction_hash execution));
      observation ← lift (or_raise seen (RuntimeError "canonical settlement evidence is unavailable"));
      signed ← lift (SignedTransactionV1_validate
        (signed_of (ad_transaction_id d) record decision execution evidence));
      settlement ← lift (SettlementEvidenceV1_validate (settlement_of observation));
      attestation ← lift (CompleteAttestationV1_validate
        {| ca_lifecycle_state :=
             if bool_decide (rec_state record = SETTLED) then A_SETTLED else A_REVERTED;
           ca_proposal := rec_proposal record; ca_decision := decision;
           ca_transaction_binding := q_transaction (se_authorization execution);
           ca_signed_transaction := signed; ca_enclave_evidence := evidence;
           ca_settlement := Some settlement |});
      report ← lift (verify_complete_attestation attestation
        (kp_pub (issuer_keys (cfg_decisions cfg))) (cfg_allowed_build_measurements cfg));
      lift (raise_if (negb (av_valid report))
        (RuntimeError "assembled attestation failed offline verification"));;
      '(stored, created) ← in_attestations (attestation_put pid attestation);
      (if (created : bool) then
         in_audit (journal_append (ad_event_id d) (ad_event_at d) "COMPLETE_ATTESTATION_CREATED" actor
           [(KStr "proposal_id", PStr (uuid_str pid));
            (KStr "transaction_hash", PStr (se_transaction_hash execution));
            (KStr "lifecycle_state", PStr (state_value (rec_state record)))] (Some pid));; mret tt
       else mret tt);;
      mret stored
  end.
End service.

(** One iteration of the reconciler task the application runs beside its handlers. *)
Definition service_poll (c : SettlementReconciler) (now : Z) : M ServiceState unit :=
  zoom (λ s, (sc_state s, sc_settlements s))
    (λ x s, {| sc_policies := sc_policies s; sc_state := fst x; sc_audit := sc_audit s;
       sc_artifacts := sc_artifacts s; sc_settlements := snd x;
       sc_attestations := sc_attestations s; sc_calls := sc_calls s |}) (poll_once c now).
