(* ===== verification/ServiceFacts.v ===== *)
(** Facts of Service: what the API asks the signer to sign passes the signer's gate
    whenever the gate's own state admits it, and a proposal is signed and submitted as one transaction. *)
From Stdlib Require Import ZArith Lia Ascii String.
From Stdlib Require Strings.Byte.
From stdpp Require Import base gmap sets list strings pretty.
From S2P Require Import Prelude Bytes Canonical CanonicalFacts Contracts ContractsFacts Policy State.
From S2P Require Import StateFacts Decisions Eip1559 Eip1559Facts Signing SigningFacts Journal.
From S2P Require Import Artifacts Attestations Settlements Service.

Open Scope Z_scope.

(** * Text *)

Lemma append_inj_length (a b c d : string) :
  String.length a = String.length c → a +:+ b = c +:+ d → a = c ∧ b = d.
Proof.
  revert c. induction a as [|x a IH]; intros [|y c] Hl Heq; try done.
  change (String x (a +:+ b) = String y (c +:+ d)) in Heq. injection Heq as -> Heq.
  injection Hl as Hl. by destruct (IH c Hl Heq) as [-> ->].
Qed.

Lemma hex_app a b : hex (a ++ b) = hex a +:+ hex b.
Proof.
  induction a as [|x a IH]; [done|].
  change (String (hex_digit (bz x / 16)) (String (hex_digit (bz x mod 16)) (hex (a ++ b)))
    = String (hex_digit (bz x / 16)) (String (hex_digit (bz x mod 16)) (hex a +:+ hex b))).
  by rewrite IH.
Qed.

Lemma drop2_0x s : str_drop2 ("0x" +:+ s) = s.
Proof. done. Qed.

Lemma drop2_lower s : str_drop2 (str_lower s) = str_lower (str_drop2 s).
Proof. by destruct s as [|x [|y s]]. Qed.

Lemma hex_chars_no_space s : str_forallb hex_char s = true → no_space s = true.
Proof.
  induction s as [|c s IH]; [done|]. cbn. intros Hs. apply andb_true_iff in Hs as [Hc Hs].
  rewrite (IH Hs), andb_true_r. revert Hc. destruct c as [[] [] [] [] [] [] [] []]; vm_compute; congruence.
Qed.

(** A hexadecimal text that ends in the digits of [h]: the bytes it denotes. *)
Lemma fromhex_suffix p h b n :
  no_space p = true → fromhex (p +:+ hex h) = Some b → String.length p = (2 * n)%nat →
  length b = (n + length h)%nat ∧ drop n b = h.
Proof.
  intros Hp Hb Hn.
  assert (no_space (p +:+ hex h) = true) as Hns.
  { clear Hb Hn. induction p as [|c p IH]; [apply hex_no_space|]. cbn in Hp.
    apply andb_true_iff in Hp as [Hc Hp].
    change (negb (is_space c) && no_space (p +:+ hex h) = true). by rewrite Hc, IH. }
  pose proof (fromhex_no_space _ _ Hb Hns) as Hx.
  assert (length b = (n + length h)%nat) as Hlen.
  { apply (f_equal String.length) in Hx.
    rewrite str_lower_length, str_length_app, !hex_length in Hx. lia. }
  split; [done|]. rewrite str_lower_app, hex_lower in Hx.
  rewrite <- (take_drop n b), hex_app in Hx. apply append_inj_length in Hx as [_ Hx].
  - by apply hex_inj.
  - rewrite hex_length, length_take, str_lower_length. lia.
Qed.

(** * The authorization the API builds *)

Section authorization.
Context `{!Externals}.

Lemma keccak_hex_lower s h : keccak_hex s = Ok h → keccak_hex (str_lower s) = Ok h.
Proof. unfold keccak_hex, fromhex_0x. by rewrite drop2_lower, fromhex_lower. Qed.

(** What a returned authorization consists of. *)
Record authorized (cfg : ServiceConfig) (record : ProposalRecord) (decision : DecisionTokenV1)
    (request : ExecutionRequest) (q : TransactionSignRequestV1) (raw : string) : Prop := {
  au_proposal : q_proposal q = rec_proposal record;
  au_decision : q_decision q = decision;
  au_reservation : rec_reservation_id record = Some (q_reservation_id q);
  au_nonce : q_wallet_nonce q = x_wallet_nonce request;
  au_chain : q_chain_id q = chain_id (rec_proposal record);
  au_binding : TransactionBindingV1_validate (binding_of (rec_proposal record) request)
    = Ok (q_transaction q);
  au_raw : encode_unsigned_eip1559 (unsigned_of (rec_proposal record) request) = Ok raw;
  au_payload : q_eip1559_unsigned_payload q = str_lower raw;
  au_hash : keccak_hex raw = Ok (q_eip1559_hash q);
  au_712 : ∃ sep, String.length sep = 64%nat ∧ no_space sep = true
    ∧ q_eip712_payload q = str_lower ("0x1901" +:+ sep +:+ str_drop2 (d_proposal_hash decision))
    ∧ keccak_hex ("0x1901" +:+ sep +:+ str_drop2 (d_proposal_hash decision)) = Ok (q_eip712_hash q);
  au_expires : q_expires_at q = Z.min (d_expires_at decision) (deadline (rec_proposal record));
}.

Lemma no_space_app a b : no_space (a +:+ b) = no_space a && no_space b.
Proof.
  induction a as [|c a IH]; [done|].
  change (negb (is_space c) && no_space (a +:+ b) = negb (is_space c) && no_space a && no_space b).
  by rewrite IH, andb_assoc.
Qed.

Lemma sign_request_inv q t q' :
  TransactionSignRequestV1_validate q {| dt_wall := t; dt_offset := Some 0 |} = Ok q' →
  HexData (q_eip712_payload q) = true
  ∧ q' = {| q_proposal := q_proposal q; q_decision := q_decision q;
            q_reservation_id := q_reservation_id q; q_wallet_nonce := q_wallet_nonce q;
            q_chain_id := q_chain_id q; q_transaction := q_transaction q;
            q_eip712_payload := str_lower (q_eip712_payload q);
            q_eip1559_unsigned_payload := str_lower (q_eip1559_unsigned_payload q);
            q_eip712_hash := q_eip712_hash q; q_eip1559_hash := q_eip1559_hash q;
            q_expires_at := t |}.
Proof.
  unfold TransactionSignRequestV1_validate. rewrite raise_if_bind.
  destruct (negb _) eqn:Hg; [done|]. prop_of_bool. destruct_and!.
  unfold require_utc. cbn [dt_offset dt_wall try_except mbind result_bind].
  intros [= <-]. split; [done|]. by rewrite Z.sub_0_r.
Qed.

Lemma prefixed_no_space s :
  startswith "0x" s = true → str_forallb hex_char (str_drop 2 s) = true → no_space s = true.
Proof.
  intros [t ->]%startswith_inv Ht. rewrite str_drop_0x in Ht.
  change ("0x" ++ t)%string with ("0x" +:+ t). rewrite no_space_app. by apply hex_chars_no_space.
Qed.

Lemma HexData_no_space s : HexData s = true → no_space s = true.
Proof.
  unfold HexData, prefixed_pairs. intros Hs. prop_of_bool. destruct_and!. by apply prefixed_no_space.
Qed.

Lemma Address_no_space s : Address s = true → no_space s = true.
Proof.
  unfold Address, prefixed_exactly. intros Hs. prop_of_bool. destruct_and!. by apply prefixed_no_space.
Qed.

Lemma HexData0_no_space s : HexData0 s = true → no_space s = true.
Proof.
  unfold HexData0, prefixed_pairs. intros Hs. prop_of_bool. destruct_and!. by apply prefixed_no_space.
Qed.

Lemma authorization_inv cfg record decision request q :
  _authorization cfg record decision request = Ok q → ∃ raw, authorized cfg record decision request q raw.
Proof.
  unfold _authorization. intros Ha.
  apply bind_Ok in Ha as (rid & Hrid & Ha). apply or_raise_Ok in Hrid.
  apply bind_Ok in Ha as (t & Ht & Ha). apply bind_Ok in Ha as (raw & Hraw & Ha).
  apply bind_Ok in Ha as ([] & Hsep & Ha). apply raise_if_Ok in Hsep.
  apply bind_Ok in Ha as (h712 & H712 & Ha). apply bind_Ok in Ha as (h1559 & H1559 & Ha).
  apply sign_request_inv in Ha as [Hhex ->]. cbn [q_eip712_payload] in Hhex.
  apply orb_false_iff in Hsep as [Hlen Hpre]. rewrite negb_false_iff in Hlen, Hpre.
  apply Nat.eqb_eq in Hlen. apply startswith_inv in Hpre as [sep Hsep].
  exists raw. constructor; cbn; try done.
  rewrite Hsep in *. change (str_drop2 ("0x" ++ sep)) with sep in *. exists sep.
  apply HexData_no_space in Hhex. rewrite !no_space_app in Hhex.
  apply andb_true_iff in Hhex as [_ Hhex]. apply andb_true_iff in Hhex as [Hns _].
  split_and!; try done. change (S (S (String.length sep)) = 66%nat) in Hlen. lia.
Qed.

Lemma encoded_shape tx raw :
  encode_unsigned_eip1559 tx = Ok raw → ∃ body, raw = "0x" +:+ hex (Byte.x02 :: body).
Proof. unfold encode_unsigned_eip1559. intros He. ok_inv He. injection He as <-. by eexists. Qed.

(** The payload checks of the gate. *)
Lemma authorized_payloads cfg record decision request q raw h :
  authorized cfg record decision request q raw → Hex32 (d_proposal_hash decision) = true →
  d_proposal_hash decision = "0x" +:+ hex h → validate_payloads q = Ok tt.
Proof.
  intros Ha Hhex Hh. destruct (au_712 _ _ _ _ _ _ Ha) as (sep & Hlen & Hns & Hp & Hk).
  rewrite Hh, drop2_0x in Hp, Hk.
  assert (length h = 32%nat) as Hl32.
  { unfold Hex32, prefixed_exactly in Hhex. rewrite Hh in Hhex. prop_of_bool. destruct_and!.
    match goal with H : Nat.eqb _ _ = true |- _ => apply Nat.eqb_eq in H;
      rewrite str_length_app, hex_length in H; cbn in H; lia end. }
  destruct (encoded_shape _ _ (au_raw _ _ _ _ _ _ Ha)) as [body Hraw].
  unfold validate_payloads. rewrite Hp, (au_payload _ _ _ _ _ _ Ha), Hraw, (au_decision _ _ _ _ _ _ Ha), Hh.
  rewrite (keccak_hex_lower _ _ Hk).
  pose proof (au_hash _ _ _ _ _ _ Ha) as Hr. rewrite Hraw in Hr.
  rewrite (keccak_hex_lower _ _ Hr). clear Hr.
  unfold keccak_hex, fromhex_0x in Hk. apply fmap_Ok in Hk as (b & Hb & _). apply or_raise_Ok in Hb.
  unfold fromhex_0x. rewrite drop2_lower, fromhex_lower, Hb, drop2_0x, fromhex_hex.
  assert (str_drop2 ("0x1901" +:+ sep +:+ hex h) = ("1901" +:+ sep) +:+ hex h) as Hd
    by (by rewrite str_app_assoc).
  rewrite Hd in Hb. apply (fromhex_suffix _ _ _ 34) in Hb as [Hlb Hdrop].
  - cbn [or_raise mbind result_bind]. unfold deny_if. rewrite !raise_if_bind.
    rewrite !bool_decide_true by done. cbn [negb].
    rewrite (proj2 (Z.eqb_eq (zlen b) 66)) by (unfold zlen; lia).
    rewrite !str_lower_app, !hex_lower.
    change (str_lower "0x1901") with "0x1901"%string. change (str_lower "0x") with "0x"%string.
    destruct (hex_payload_shape body) as (Hs & _). by rewrite startswith_app, Hs.
  - by rewrite no_space_app, Hns.
  - rewrite str_length_app, Hlen. done.
Qed.

(** A validated proposal is in the normal form the binding is put into. *)
Lemma binding_normal p request t :
  str_lower (wallet p) = wallet p → IntentV1_validate (intent p) = Ok (intent p) →
  TransactionBindingV1_validate (binding_of p request) = Ok t →
  t = binding_of p request
  ∧ no_space (tx_to (unsigned_of p request)) = true
  ∧ no_space (tx_calldata (unsigned_of p request)) = true
  ∧ lower_tx (unsigned_of p request) = unsigned_of p request.
Proof.
  intros Hw Hi Ht. unfold TransactionBindingV1_validate in Ht.
  apply bind_Ok in Ht as ([] & Hg & Ht). apply raise_if_Ok in Hg. apply bind_Ok in Ht as (u & _ & Ht).
  injection Ht as <-. unfold binding_of, unsigned_of, lower_tx in *.
  destruct (intent p) as [r|c se cd mo oa] eqn:Hint; cbn [IntentV1_validate] in Hi;
    apply bind_Ok in Hi as ([] & Hf & Hi); apply raise_if_Ok in Hf; prop_of_bool.
  - injection Hi as Hr. cbn. rewrite Hw, Hr. split_and!; try done. by apply Address_no_space.
  - injection Hi as Hc Hs Hcd. destruct_and!. cbn. rewrite Hw, Hc, Hs, Hcd. split_and!; try done.
    + by apply Address_no_space.
    + by apply HexData0_no_space.
Qed.

Lemma authorized_binding p request : validate_binding (binding_of p request) p = Ok tt.
Proof.
  unfold validate_binding, binding_of, deny_if. destruct (intent p); cbn;
    rewrite ?Z.eqb_refl, ?bool_decide_true by done; done.
Qed.

Lemma authorized_raw cfg record decision request q raw :
  authorized cfg record decision request q raw →
  str_lower (wallet (rec_proposal record)) = wallet (rec_proposal record) →
  IntentV1_validate (intent (rec_proposal record)) = Ok (intent (rec_proposal record)) →
  validate_raw (q_eip1559_unsigned_payload q) (q_transaction q) = Ok tt.
Proof.
  intros Ha Hw Hi.
  destruct (binding_normal _ _ _ Hw Hi (au_binding _ _ _ _ _ _ Ha)) as (-> & H1 & H2 & H3).
  pose proof (encode_decode _ _ H1 H2 (au_raw _ _ _ _ _ _ Ha)) as Hd. rewrite H3 in Hd.
  assert (str_lower raw = raw) as Hlow.
  { destruct (encoded_shape _ _ (au_raw _ _ _ _ _ _ Ha)) as [body ->].
    by rewrite str_lower_app, hex_lower. }
  unfold validate_raw. rewrite (au_payload _ _ _ _ _ _ Ha), Hlow, Hd.
  unfold binding_of, unsigned_of, deny_if. destruct (intent (rec_proposal record)); cbn;
    rewrite ?Z.eqb_refl, ?bool_decide_true by done; done.
Qed.
End authorization.

(** * The API and the signer agree *)

Section agreement.
Context `{!Externals} `{!Ed25519Law}.

Lemma issue_hash_hex self now did nonce record version t :
  issue self now did nonce record version = Ok t → Hex32 (d_proposal_hash t) = true.
Proof.
  unfold issue. intros Hi.
  apply bind_Ok in Hi as ([] & _ & Hi). apply bind_Ok in Hi as (h & _ & Hi).
  apply bind_Ok in Hi as (ph & _ & Hi). apply bind_Ok in Hi as (payload & _ & Hi).
  unfold DecisionTokenV1_validate in Hi. apply bind_Ok in Hi as ([] & Hg & Hi).
  apply bind_Ok in Hi as (u & _ & Hi). injection Hi as <-.
  apply raise_if_Ok in Hg. prop_of_bool. destruct_and!. done.
Qed.

(** What the gate decides from its own state, not from the request: the policy and the
    chain are approved, the decision was not used, the wallet nonce is the next one, and
    the request has not expired. *)
Record gate_admits (g : SignerAuthorizationGate) (now : Z) (q : TransactionSignRequestV1) : Prop := {
  gm_policy : ∀ hashes, g_allowed_policy_hashes g = Some hashes →
    str_lower (d_policy_hash (q_decision q)) ∈ hashes;
  gm_chain : q_chain_id q ∈ g_allowed_chain_ids g;
  gm_fresh : decision_nonce (q_decision q) ∉ g_used_decisions g;
  gm_nonce : q_wallet_nonce q
    = default 0 (g_next_wallet_nonce g !! (wallet (q_proposal q), q_chain_id q));
  gm_time : now < q_expires_at q;
}.

Lemma authorization_admitted seed lifetime cfg p0 dl record version now did nonce decision request q g now' :
  let issuer := DecisionIssuer_from_seed seed lifetime in
  ProposalV1_validate p0 dl = Ok (rec_proposal record) → rec_state record = RESERVED →
  issue issuer now did nonce record version = Ok decision →
  _authorization cfg record decision request = Ok q →
  g_policy_public_key g = kp_pub (issuer_keys issuer) → gate_admits g now' q →
  snd (validate_and_consume now' q g) = Ok tt.
Proof.
  intros issuer Hp Hst Hi Hq Hkey [Hpol Hchain Hfresh Hnonce Hnow].
  subst issuer. destruct (proposal_normal _ _ _ Hp) as (_ & _ & _ & Hw & Hint & _).
  destruct (authorization_inv _ _ _ _ _ Hq) as [raw Ha].
  destruct (issue_verifies seed lifetime now did nonce record version decision now' Hi)
    as (Hv & _ & Hallow & _ & _ & Hres & Hhash & Hph & Hsig & _ & _).
  pose proof (au_expires _ _ _ _ _ _ Ha) as Hexp.
  rewrite (au_decision _ _ _ _ _ _ Ha) in Hpol, Hfresh. rewrite (au_chain _ _ _ _ _ _ Ha) in Hchain.
  rewrite (au_nonce _ _ _ _ _ _ Ha), (au_proposal _ _ _ _ _ _ Ha), (au_chain _ _ _ _ _ _ Ha) in Hnonce.
  symmetry in Hnonce. rewrite Hph in Hpol.
  assert (∃ h, d_proposal_hash decision = "0x" +:+ hex h) as [h Hh].
  { unfold proposal_hash in Hhash. apply fmap_Ok in Hhash as (b & _ & ->). by eexists. }
  assert (_validate g q now' = Ok tt) as Hval.
  { unfold _validate.
    rewrite (authorized_payloads _ _ _ _ _ _ _ Ha (issue_hash_hex _ _ _ _ _ _ _ Hi) Hh).
    rewrite (authorized_raw _ _ _ _ _ _ Ha Hw Hint).
    destruct (binding_normal _ _ _ Hw Hint (au_binding _ _ _ _ _ _ Ha)) as (Ht & _).
    rewrite Ht, (au_proposal _ _ _ _ _ _ Ha), authorized_binding.
    unfold validate_decision. rewrite (au_decision _ _ _ _ _ _ Ha), (au_proposal _ _ _ _ _ _ Ha),
      (au_chain _ _ _ _ _ _ Ha), (au_nonce _ _ _ _ _ _ Ha), Ht, Hkey, Hv, Hhash, Hsig,
      (proj2 Hallow Hst), Hnonce, Hres, (au_reservation _ _ _ _ _ _ Ha), Hph by lia.
    unfold deny_if. cbn [mbind result_bind].
    assert (match g_allowed_policy_hashes g with
            | Some hashes => negb (bool_decide (str_lower (v_policy_hash version) ∈ hashes))
            | None => false end = false) as ->.
    { destruct (g_allowed_policy_hashes g); [|done]. by rewrite bool_decide_true by auto. }
    assert (b_chain_id (binding_of (rec_proposal record) request) = chain_id (rec_proposal record)
      ∧ b_wallet (binding_of (rec_proposal record) request) = wallet (rec_proposal record)
      ∧ b_wallet_nonce (binding_of (rec_proposal record) request) = x_wallet_nonce request)
      as (-> & -> & ->) by (unfold binding_of; by destruct (intent (rec_proposal record))).
    rewrite (proj2 (Z.leb_gt _ _)) by lia. rewrite !(bool_decide_true (_ = _)) by done.
    rewrite (bool_decide_true (chain_id (rec_proposal record) ∈ g_allowed_chain_ids g)) by done.
    rewrite (bool_decide_false (decision_nonce decision ∈ g_used_decisions g)) by done.
    rewrite !Z.eqb_refl, !(proj2 (Z.ltb_ge _ _)) by lia. done. }
  unfold validate_and_consume, self, lift, mbind, M_bind. cbn. by rewrite Hval.
Qed.

(** C6: the signer and the API agree on what may be signed.  For a validated proposal that
    is RESERVED, a decision the policy service issued for it, any execution request for
    which [_authorization] returns, and a gate configured with the service's public key:
    at every moment [SignerAuthorizationGate] accepts the request the API built if and
    only if the gate's own state admits it ([gate_admits]: it approves the policy hash and
    the chain, has not used the decision, expects this wallet nonce, and the request has
    not expired).  Accepting consumes the decision and the nonce; refusing changes
    nothing.  So no check of the signature, verdict, hashes, payloads, binding or raw
    transaction ever refuses a request the API built. *)
Theorem authorization_accepted seed lifetime cfg p0 dl record version now did nonce decision request q g now' :
  let issuer := DecisionIssuer_from_seed seed lifetime in
  ProposalV1_validate p0 dl = Ok (rec_proposal record) → rec_state record = RESERVED →
  issue issuer now did nonce record version = Ok decision →
  _authorization cfg record decision request = Ok q →
  g_policy_public_key g = kp_pub (issuer_keys issuer) →
  (validate_and_consume now' q g = (after_signing g q, Ok tt) ∧ gate_admits g now' q)
  ∨ (∃ e, validate_and_consume now' q g = (g, Err e) ∧ ¬ gate_admits g now' q).
Proof.
  intros issuer Hp Hst Hi Hq Hkey.
  pose proof (authorization_admitted seed lifetime cfg p0 dl record version now did nonce decision
    request q g now' Hp Hst Hi Hq Hkey) as Hadm.
  rewrite validate_and_consume_spec in *. destruct (_validate g q now') as [[]|e] eqn:Hv.
  - left. split; [done|]. apply validate_decision_of in Hv.
    split; [apply (da_policy _ _ _ Hv)|apply (da_chain _ _ _ Hv)|apply (da_fresh _ _ _ Hv)
           |apply (da_nonce _ _ _ Hv)|apply (da_time _ _ _ Hv)].
  - right. exists e. split; [done|]. intros Hg. by specialize (Hadm Hg).
Qed.
End agreement.

(** * One transaction per proposal *)

(** Records are kept under their proposal's identifier. *)
Definition keyed (l : MemoryStateStore) : Prop :=
  ∀ pid rec, _records l !! pid = Some rec → proposal_id (rec_proposal rec) = pid.

(** What the stored artifacts and the log of external calls say of each other. *)
Record calls_inv (a : MemoryAuthorizationArtifactStore) (calls : list external_call) : Prop := {
  ci_execution : ∀ pid e, as_executions a !! pid = Some e →
    ∃ actor, CSign pid actor (se_authorization e) ∈ calls;
  ci_submit : ∀ pre pid s post, calls = pre ++ CSubmit pid s :: post →
    ∃ e actor, as_executions a !! pid = Some e ∧ s = submission_of e
      ∧ CSign pid actor (se_authorization e) ∈ pre;
  ci_sign : ∀ pid actor q, CSign pid actor q ∈ calls →
    as_decisions a !! pid = Some (q_decision q) ∧ principal_id (q_proposal q) = actor
    ∧ proposal_id (q_proposal q) = pid;
}.

Definition svc_inv (st : ServiceState) : Prop :=
  keyed (sc_state st) ∧ calls_inv (sc_artifacts st) (sc_calls st).

(** Assertions on the artifacts and the calls only. *)
Definition over_artifacts (P : MemoryAuthorizationArtifactStore → list external_call → Prop)
    (st : ServiceState) : Prop := P (sc_artifacts st) (sc_calls st).

(** Methods that leave the artifacts and the calls alone. *)
Definition quiet {A} (m : M ServiceState A) : Prop := ∀ st,
  sc_artifacts (fst (m st)) = sc_artifacts st ∧ sc_calls (fst (m st)) = sc_calls st
  ∧ (keyed (sc_state st) → keyed (sc_state (fst (m st)))).

Lemma quiet_ensures {A} P (m : M ServiceState A) :
  quiet m → ensures svc_inv (over_artifacts P) m (λ _, over_artifacts P).
Proof.
  intros Hm st [Hk Hc] Hp. destruct (Hm st) as (Ha & Hcalls & Hkeyed).
  unfold svc_inv, over_artifacts in *. rewrite Ha, Hcalls. auto.
Qed.

Lemma zoom_other {T A} (get : ServiceState → T) set (m : M T A) :
  (∀ t st, sc_artifacts (set t st) = sc_artifacts st ∧ sc_calls (set t st) = sc_calls st
     ∧ sc_state (set t st) = sc_state st) → quiet (zoom get set m).
Proof.
  intros Hset st. unfold zoom. destruct (m (get st)) as [t r]. cbn.
  destruct (Hset t st) as (-> & -> & ->). done.
Qed.

Lemma quiet_audit {A} (m : M _ A) : quiet (in_audit m).
Proof. by apply zoom_other. Qed.
Lemma quiet_tracking {A} (m : M _ A) : quiet (in_tracking m).
Proof. by apply zoom_other. Qed.
Lemma quiet_attestations {A} (m : M _ A) : quiet (in_attestations m).
Proof. by apply zoom_other. Qed.
Lemma quiet_policies {A} (m : M _ A) : quiet (in_policies m).
Proof. by apply zoom_other. Qed.

Lemma quiet_state {A} (m : M MemoryStateStore A) :
  (∀ l, keyed l → keyed (fst (m l))) → quiet (in_state m).
Proof.
  intros Hm st. unfold in_state, zoom. pose proof (Hm (sc_state st)) as Hk.
  destruct (m (sc_state st)) as [t r]. cbn in *. auto.
Qed.

Lemma quiet_bind {A B} (m : M ServiceState A) (f : A → M ServiceState B) :
  quiet m → (∀ a, quiet (f a)) → quiet (m ≫= f).
Proof.
  intros Hm Hf st. destruct (Hm st) as (H1 & H2 & H3). unfold mbind, M_bind.
  destruct (m st) as [st' [a|e]]; cbn in *; [|done].
  destruct (Hf a st') as (-> & -> & ?). rewrite H1, H2. auto.
Qed.

Lemma quiet_lift {A} (r : result A) : quiet (lift r).
Proof. done. Qed.
Lemma quiet_ret {A} (a : A) : quiet (mret a).
Proof. done. Qed.

(** ** The state store keeps its keys *)

Lemma keyed_insert l pid rec f :
  keyed l → proposal_id (rec_proposal rec) = pid →
  _records f = <[pid := rec]> (_records l) → keyed f.
Proof.
  intros Hl Hp Hf k r Hk. rewrite Hf in Hk.
  apply lookup_insert_Some in Hk as [[<- <-]|[_ Hk]]; [done|]. by apply Hl.
Qed.

Lemma reserve_keyed d pr p l : keyed l → keyed (fst (reserve d pr p l)).
Proof.
  intros Hl. rewrite reserve_spec. destruct (_idempotency l !! _); [done|]. cbn [fst].
  by apply (keyed_insert l (proposal_id pr) (decided_record d pr p l)).
Qed.

Lemma transition_keyed now pid target l : keyed l → keyed (fst (transition now pid target l)).
Proof.
  intros Hl. unfold transition, _release, _required_reservation, _next_version, read, lift, update,
    mbind, M_bind, mret, M_ret.
  destruct (_records l !! pid) as [rec|] eqn:Hr; cbn; [|done].
  destruct (require_transition _ _); [|done].
  destruct (is_in target _), (bool_decide (target = SETTLED)), (rec_reservation_id rec) as [rid|]; cbn;
    try destruct (_reservations l !! rid) as [r|] eqn:Hres; cbn; try done;
    rewrite ?lookup_insert_eq; cbn;
    (eapply keyed_insert; [exact Hl| |cbn; reflexivity]; cbn; by apply Hl).
Qed.

Lemma store_get_keyed pid l : keyed l → keyed (fst (store_get pid l)).
Proof. done. Qed.
Lemma decision_nonce_keyed n l : keyed l → keyed (fst (register_decision_nonce n l)).
Proof.
  unfold register_decision_nonce, read, lift, update, mbind, M_bind. by case_bool_decide.
Qed.
Lemma wallet_nonce_keyed w c n l : keyed l → keyed (fst (register_wallet_nonce w c n l)).
Proof.
  unfold register_wallet_nonce, read, lift, update, mbind, M_bind. by case_bool_decide.
Qed.

#[export] Hint Resolve quiet_audit quiet_tracking quiet_attestations quiet_policies quiet_lift quiet_ret
  quiet_state reserve_keyed transition_keyed store_get_keyed decision_nonce_keyed wallet_nonce_keyed
  : aegis.

(** ** Artifacts *)

Definition stored (pid : Z) (e : StoredExecutionV1) (a : MemoryAuthorizationArtifactStore)
    (_ : list external_call) : Prop := as_executions a !! pid = Some e.
Definition decided (pid : Z) (d : DecisionTokenV1) (a : MemoryAuthorizationArtifactStore)
    (_ : list external_call) : Prop := as_decisions a !! pid = Some d.
Definition asked (pid : Z) (actor : string) (q : TransactionSignRequestV1)
    (_ : MemoryAuthorizationArtifactStore) (calls : list external_call) : Prop :=
  CSign pid actor q ∈ calls.
Definition anything (_ : MemoryAuthorizationArtifactStore) (_ : list external_call) : Prop := True.

Lemma get_decision_ensures P pid :
  ensures svc_inv (over_artifacts P) (in_artifacts (get_decision pid))
    (λ o st, over_artifacts P st ∧ as_decisions (sc_artifacts st) !! pid = o).
Proof. intros st Hi Hp. by split; [destruct st|intros a [= <-]; destruct st]. Qed.

Lemma get_execution_ensures P pid :
  ensures svc_inv (over_artifacts P) (in_artifacts (get_execution pid))
    (λ o st, over_artifacts P st ∧ as_executions (sc_artifacts st) !! pid = o).
Proof. intros st Hi Hp. by split; [destruct st|intros a [= <-]; destruct st]. Qed.

Lemma put_decision_ensures pid d :
  ensures svc_inv (over_artifacts (λ a _, as_decisions a !! pid = None))
    (in_artifacts (put_decision pid d)) (λ _, over_artifacts anything).
Proof.
  intros st [Hk Hc] Hn. unfold over_artifacts in *.
  unfold in_artifacts, zoom, put_decision, self, mbind, M_bind. rewrite Hn. cbn. split; [|done].
  split; [done|]. destruct Hc as [H1 H2 H3]. constructor; cbn; try done.
  intros q actor r Hin. destruct (H3 _ _ _ Hin) as (Hd & ? & ?). split_and!; try done.
  rewrite lookup_insert_ne; [done|]. congruence.
Qed.

Lemma put_execution_ensures pid actor e :
  se_proposal_id e = pid →
  ensures svc_inv (over_artifacts (asked pid actor (se_authorization e)))
    (in_artifacts (put_execution e)) (λ x, over_artifacts (stored pid (fst x))).
Proof.
  intros Hpid st [Hk Hc] Hq. unfold over_artifacts, asked, stored in *.
  unfold in_artifacts, zoom, put_execution, self, mbind, M_bind. rewrite Hpid.
  destruct (as_executions (sc_artifacts st) !! pid) as [e'|] eqn:He; cbn.
  { split; [done|]. by intros a [= <-]. }
  split; [|intros a [= <-]; cbn; apply lookup_insert_eq].
  split; [done|]. destruct Hc as [H1 H2 H3]. constructor; cbn; try done.
  - intros k f [[<- <-]|[_ Hf]]%lookup_insert_Some; [by exists actor|by apply H1].
  - intros pre k s post Heq. destruct (H2 _ _ _ _ Heq) as (f & u & Hf & ? & ?).
    exists f, u. split_and!; try done. rewrite lookup_insert_ne; [done|]. congruence.
Qed.

Lemma mark_submitted_ensures pid at_ e :
  ensures svc_inv (over_artifacts (stored pid e)) (in_artifacts (mark_submitted pid at_))
    (λ e', over_artifacts (stored pid e')).
Proof.
  intros st [Hk Hc] He. unfold over_artifacts, stored in *.
  unfold in_artifacts, zoom, mark_submitted, self, lift, mbind, M_bind. rewrite He. cbn.
  destruct (se_submitted_at e) as [t|]; cbn.
  { split; [done|]. by intros a [= <-]. }
  split; [|intros a [= <-]; cbn; apply lookup_insert_eq].
  split; [done|]. destruct Hc as [H1 H2 H3]. constructor; cbn; try done.
  - intros k f [[<- <-]|[_ Hf]]%lookup_insert_Some; [|by apply H1]. apply (H1 _ _ He).
  - intros pre k s post Heq. destruct (H2 _ _ _ _ Heq) as (f & u & Hf & ? & ?).
    destruct (decide (k = pid)) as [->|Hne].
    + rewrite He in Hf. injection Hf as <-. exists (with_submitted_at at_ e), u.
      rewrite lookup_insert_eq. done.
    + exists f, u. by rewrite lookup_insert_ne.
Qed.

Lemma call_sign_ensures pid actor q :
  principal_id (q_proposal q) = actor → proposal_id (q_proposal q) = pid →
  ensures svc_inv (over_artifacts (decided pid (q_decision q))) (call (CSign pid actor q))
    (λ _, over_artifacts (asked pid actor q)).
Proof.
  intros Ha Hpid st [Hk Hc] Hd. unfold over_artifacts, decided, asked in *. cbn.
  split; [|intros _ _; set_solver]. split; [done|]. destruct Hc as [H1 H2 H3]. constructor; cbn.
  - intros k e He. destruct (H1 _ _ He) as [u Hu]. exists u. set_solver.
  - intros pre k s post Heq.
    destruct post as [|x post _] using rev_ind.
    + change (pre ++ [CSubmit k s]) with (pre ++ [CSubmit k s]) in Heq.
      apply app_inj_tail in Heq as [_ Heq]. done.
    + rewrite app_comm_cons, app_assoc in Heq. apply app_inj_tail in Heq as [Heq _]. by eapply H2.
  - intros k u r Hin. apply elem_of_app in Hin as [Hin|Hin]; [by apply H3|].
    apply list_elem_of_singleton in Hin. injection Hin as -> -> ->. done.
Qed.

Lemma call_submit_ensures pid e :
  ensures svc_inv (over_artifacts (stored pid e)) (call (CSubmit pid (submission_of e)))
    (λ _, over_artifacts (stored pid e)).
Proof.
  intros st [Hk Hc] He. unfold over_artifacts, stored in *. cbn. split; [|done].
  split; [done|]. destruct Hc as [H1 H2 H3]. constructor; cbn.
  - intros k f Hf. destruct (H1 _ _ Hf) as [u Hu]. exists u. set_solver.
  - intros pre k s post Heq. destruct post as [|x post _] using rev_ind.
    + apply app_inj_tail in Heq as [<- Heq]. injection Heq as <- <-.
      destruct (H1 _ _ He) as [u Hu]. by exists e, u.
    + rewrite app_comm_cons, app_assoc in Heq. apply app_inj_tail in Heq as [Heq _]. by eapply H2.
  - intros k u r Hin. apply H3. apply elem_of_app in Hin as [Hin|Hin]; [done|].
    by apply list_elem_of_singleton in Hin.
Qed.

(** ** The phases of an execution *)

Lemma from_signer_fields new_id now pid q r e :
  from_signer new_id now pid q r = Ok e → se_proposal_id e = pid ∧ se_authorization e = q.
Proof. unfold from_signer, StoredExecutionV1_validate. intros He. ok_inv He. by injection He as <-. Qed.

Section phases.
Context `{!Externals} `{!EvidenceExternals}.

(** Step over a statement that leaves artifacts and calls alone. *)
Ltac quietly := eapply ensures_bind; [apply quiet_ensures; auto with aegis|intros ?].

Lemma sign_new_ensures cfg rpc d pid request actor record :
  principal_id (rec_proposal record) = actor → proposal_id (rec_proposal record) = pid →
  ensures svc_inv (over_artifacts anything) (sign_new cfg rpc d pid request actor record)
    (λ x, over_artifacts (stored pid (fst (fst x)))).
Proof.
  intros Hactor Hpid. unfold sign_new. quietly.
  eapply ensures_bind; [apply get_decision_ensures|]. intros found.
  eapply ensures_bind with (Q := λ dec, over_artifacts (decided pid dec)).
  { apply ensures_lift. intros st dec _ [_ Hd] Hf. apply or_raise_Ok in Hf.
    unfold over_artifacts, decided. congruence. }
  intros dec. eapply ensures_bind with (Q := λ q st,
    (q_decision q = dec ∧ q_proposal q = rec_proposal record) ∧ over_artifacts (decided pid dec) st).
  { apply ensures_lift. intros st q _ Hd Hq. destruct (authorization_inv _ _ _ _ _ Hq) as [raw Ha].
    split; [|exact Hd]. split; [apply (au_decision _ _ _ _ _ _ Ha)|apply (au_proposal _ _ _ _ _ _ Ha)]. }
  intros q. apply ensures_pure. intros [Hdec Hprop]. subst dec.
  eapply ensures_bind; [apply call_sign_ensures; by rewrite Hprop|]. intros ?.
  quietly. quietly. quietly.
  eapply ensures_bind with (Q := λ e st,
    (se_proposal_id e = pid ∧ se_authorization e = q) ∧ over_artifacts (asked pid actor q) st).
  { apply ensures_lift. intros st e _ Hq He. split; [by eapply from_signer_fields|exact Hq]. }
  intros e. apply ensures_pure. intros [He Hauth]. subst q.
  eapply ensures_bind; [by apply (put_execution_ensures pid actor)|].
  intros [execution created]. cbn [fst]. quietly. quietly. quietly.
  apply ensures_ret. intros st _ Hst. exact Hst.
Qed.

Lemma submit_new_ensures backend d pid actor e :
  ensures svc_inv (over_artifacts (stored pid e)) (submit_new backend d pid actor e)
    (λ x, over_artifacts (stored pid (fst x))).
Proof.
  unfold submit_new. eapply ensures_bind; [apply call_submit_ensures|]. intros ?.
  quietly. quietly.
  eapply ensures_bind; [apply mark_submitted_ensures|]. intros e'.
  quietly.
  eapply ensures_bind; [apply quiet_ensures; apply quiet_bind; auto with aegis|]. intros current.
  eapply ensures_bind; [apply quiet_ensures; case_bool_decide; auto with aegis|]. intros record.
  quietly. apply ensures_ret. intros st _ Hst. exact Hst.
Qed.

Lemma submit_again_quiet d pid e : quiet (submit_again d pid e).
Proof.
  unfold submit_again, current_record. apply quiet_bind; [apply quiet_bind; auto with aegis|].
  intros current. case_bool_decide; [|auto with aegis].
  apply quiet_bind; auto with aegis.
Qed.

Lemma execute_ensures cfg d pid request actor :
  ensures svc_inv (λ _, True) (execute cfg d pid request actor) (λ _ _, True).
Proof.
  unfold execute.
  eapply ensures_bind with (Q := λ o st, (∀ rec, o = Some rec → proposal_id (rec_proposal rec) = pid)
    ∧ over_artifacts anything st).
  { intros st [Hk Hc] _. split; [by destruct st|]. intros o [= <-]. split; [|done].
    intros rec Hrec. by apply Hk. }
  intros found. apply ensures_pure. intros Hfound.
  eapply ensures_bind with (Q := λ rec st, proposal_id (rec_proposal rec) = pid
    ∧ over_artifacts anything st).
  { apply ensures_lift. intros st rec _ _ Hf. apply or_raise_Ok in Hf. split; [auto|done]. }
  intros record. apply ensures_pure. intros Hpid.
  eapply ensures_bind with (Q := λ _ st, principal_id (rec_proposal record) = actor
    ∧ over_artifacts anything st).
  { apply ensures_lift. intros st [] _ _ Hr. apply raise_if_Ok in Hr. prop_of_bool. by split. }
  intros ?. apply ensures_pure. intros Hactor. quietly. quietly.
  eapply ensures_bind; [apply get_execution_ensures|]. intros o.
  eapply ensures_bind with (Q := λ x, over_artifacts (stored pid (fst (fst x)))).
  { destruct o as [e|].
    - eapply ensures_bind with (Q := λ _, over_artifacts (stored pid e)).
      { apply ensures_lift. intros st u _ [_ He] _. exact He. }
      intros ?. apply ensures_ret. intros st _ Hst. exact Hst.
    - eapply ensures_pre; [|by apply sign_new_ensures]. by intros st _ [? _]. }
  intros [[e created] record']. cbn [fst]. destruct (se_submitted_at e).
  - eapply ensures_bind; [apply quiet_ensures, submit_again_quiet|]. intros r. by apply ensures_ret.
  - eapply ensures_bind; [apply submit_new_ensures|]. intros [e' r]. by apply ensures_ret.
Qed.

Lemma submit_ensures cfg d proposal actor :
  ensures svc_inv (λ _, True) (submit cfg d proposal actor) (λ _ _, True).
Proof.
  unfold submit. apply ensures_pre with (P' := over_artifacts anything); [done|].
  quietly. quietly. eapply ensures_bind; [apply get_decision_ensures|]. intros existing.
  eapply ensures_bind with (Q := λ _, over_artifacts anything); [|intros ?; by apply ensures_ret].
  destruct existing as [dec|]; [by apply ensures_ret|].
  eapply ensures_bind with
    (Q := λ _, over_artifacts (λ x _, as_decisions x !! proposal_id (rec_proposal (res_record a0)) = None)).
  { apply ensures_lift. intros st c _ [_ Hn] _. exact Hn. }
  intros candidate. eapply ensures_bind; [apply put_decision_ensures|]. intros [dec created].
  quietly; [|by apply ensures_ret].
  destruct created; [|auto with aegis]. apply quiet_bind; auto with aegis.
Qed.
End phases.

(** ** Everything that runs on the container *)

Definition keeps_keys {A} (m : M (MemoryStateStore * MemorySettlementStore) A) : Prop :=
  ∀ x, keyed (fst x) → keyed (fst (fst (m x))).

Lemma keeps_keys_bind {A B} (m : M _ A) (f : A → M _ B) :
  keeps_keys m → (∀ a, keeps_keys (f a)) → keeps_keys (m ≫= f).
Proof.
  intros Hm Hf x Hx. specialize (Hm x Hx). unfold mbind, M_bind.
  destruct (m x) as [y [a|e]]; cbn in *; [by apply Hf|done].
Qed.

Lemma keeps_keys_lifecycle {A} (m : M MemoryStateStore A) :
  (∀ l, keyed l → keyed (fst (m l))) → keeps_keys (in_lifecycle m).
Proof.
  intros Hm x Hx. unfold in_lifecycle, zoom. specialize (Hm (fst x) Hx). by destruct (m (fst x)).
Qed.

Lemma keeps_keys_settlements {A} (m : M MemorySettlementStore A) : keeps_keys (in_settlements m).
Proof. intros x Hx. unfold in_settlements, zoom. by destruct (m (snd x)). Qed.

Lemma keeps_keys_lift {A} (r : result A) : keeps_keys (lift r).
Proof. by intros x Hx. Qed.

#[export] Hint Resolve keeps_keys_lifecycle keeps_keys_settlements keeps_keys_lift : aegis.

Lemma poll_keyed c now : keeps_keys (poll_once c now).
Proof.
  unfold poll_once. apply keeps_keys_bind; [auto with aegis|]. intros items.
  induction items as [|t items IH]; [by intros x Hx|]. cbn [poll_items].
  apply keeps_keys_bind; [|done]. unfold poll_step.
  destruct (rc_backends c _) as [receipt|]; [|by intros x Hx].
  destruct (receipt _) as [| |r|e]; try (by intros x Hx). unfold settle_receipt.
  repeat first [apply keeps_keys_bind; [|intros ?] | progress auto with aegis].
  destruct (_ <? _); [by intros x Hx|].
  repeat first [apply keeps_keys_bind; [|intros ?] | progress auto with aegis].
  case_bool_decide; [|by intros x Hx].
  apply keeps_keys_bind; [auto with aegis|by intros ? x Hx].
Qed.

Section services.
Context `{!Externals} `{!EvidenceExternals}.

Lemma quiet_artifacts_read {A} (f : MemoryAuthorizationArtifactStore → A) : quiet (in_artifacts (read f)).
Proof. intros st. by destruct st. Qed.
Hint Resolve quiet_artifacts_read : aegis.

Lemma attestation_quiet cfg d pid actor : quiet (complete_attestation cfg d pid actor).
Proof.
  unfold complete_attestation. apply quiet_bind; [auto with aegis|]. intros [a|]; [auto with aegis|].
  repeat first
    [ apply quiet_bind; [|intros ?] | progress auto with aegis
    | apply quiet_artifacts_read | case_match ].
Qed.

Lemma poll_quiet c now : quiet (service_poll c now).
Proof.
  intros st. pose proof (poll_keyed c now (sc_state st, sc_settlements st)) as Hk.
  unfold service_poll, zoom. destruct (poll_once c now _) as [x r]. done.
Qed.

(** Handlers and the reconciler in any order, with any signer, backend and policy
    changes; a handler may raise at any of its statements. *)
Inductive service_reach : ServiceState → Prop :=
  | vreach_init now : service_reach (service_init now)
  | vreach_submit st cfg d p actor : service_reach st → service_reach (fst (submit cfg d p actor st))
  | vreach_execute st cfg d pid request actor : service_reach st →
      service_reach (fst (execute cfg d pid request actor st))
  | vreach_poll st c now : service_reach st → service_reach (fst (service_poll c now st))
  | vreach_attest st cfg d pid actor : service_reach st →
      service_reach (fst (complete_attestation cfg d pid actor st))
  | vreach_policy st A (m : M PolicyRegistry A) : service_reach st →
      service_reach (fst (in_policies m st)).

Lemma quiet_inv {A} (m : M ServiceState A) st : quiet m → svc_inv st → svc_inv (fst (m st)).
Proof. intros Hm Hi. by apply (quiet_ensures anything m Hm st Hi). Qed.

Lemma service_reach_inv st : service_reach st → svc_inv st.
Proof.
  induction 1.
  - split; [intros pid rec; cbn; by rewrite lookup_empty|].
    constructor; cbn; [intros pid e; by rewrite lookup_empty| |set_solver].
    intros pre pid s post Heq. by destruct pre.
  - by apply submit_ensures.
  - by apply execute_ensures.
  - apply quiet_inv; [apply poll_quiet|done].
  - apply quiet_inv; [apply attestation_quiet|done].
  - apply quiet_inv; [apply quiet_policies|done].
Qed.

(** C3: one proposal, one transaction.  In every state the service
    can reach, whatever the signer and the chain answer and wherever a handler raised:
    all submissions ever made to a chain for a proposal are the same bytes, those of the
    one execution stored for it; each was preceded by a request to the signer carrying
    that execution's authorization; and the signer was only ever asked for a proposal by
    its own principal, with the decision stored for it. *)
Theorem single_transaction st pid pre s post :
  service_reach st → sc_calls st = pre ++ CSubmit pid s :: post →
  (∀ s', CSubmit pid s' ∈ sc_calls st → s' = s)
  ∧ ∃ e actor, as_executions (sc_artifacts st) !! pid = Some e ∧ s = submission_of e
      ∧ CSign pid actor (se_authorization e) ∈ pre
      ∧ actor = principal_id (q_proposal (se_authorization e))
      ∧ proposal_id (q_proposal (se_authorization e)) = pid
      ∧ as_decisions (sc_artifacts st) !! pid = Some (q_decision (se_authorization e)).
Proof.
  intros Hr Heq. destruct (service_reach_inv _ Hr) as [_ [_ H2 H3]].
  destruct (H2 _ _ _ _ Heq) as (e & actor & He & -> & Hsign). split.
  - intros s' (pre' & post' & Heq')%list_elem_of_split.
    destruct (H2 _ _ _ _ Heq') as (e' & _ & He' & -> & _). congruence.
  - assert (CSign pid actor (se_authorization e) ∈ sc_calls st) as Hin by (rewrite Heq; set_solver).
    destruct (H3 _ _ _ Hin) as (? & ? & ?). exists e, actor. by split_and!.
Qed.
End services.

(** * Retries *)

Lemma transition_returns now pid target l l' rec' :
  transition now pid target l = (l', Ok rec') →
  ∃ rec, _records l !! pid = Some rec ∧ _records l' !! pid = Some rec'
    ∧ rec_state rec' = target ∧ rec_proposal rec' = rec_proposal rec.
Proof.
  unfold transition. intros Ht. m_inv Ht. m_invs.
  match goal with H : _records _ !! pid = Some ?r |- _ => exists r end.
  split; [done|]. cbn. by rewrite lookup_insert_eq.
Qed.

(** What a returned execution left behind. *)
Record executed (pid : Z) (request : ExecutionRequest) (actor : string) (st : ServiceState)
    (e : StoredExecutionV1) (rec : ProposalRecord) : Prop := {
  ex_stored : as_executions (sc_artifacts st) !! pid = Some e;
  ex_submitted : is_Some (se_submitted_at e);
  ex_matches : _execution_matches_request e request = true;
  ex_record : _records (sc_state st) !! pid = Some rec;
  ex_state : rec_state rec ≠ SIGNED;
  ex_owner : principal_id (rec_proposal rec) = actor;
}.
Section retries.
Context `{!Externals} `{!EvidenceExternals}.

Lemma submit_again_done d pid e st st1 rec :
  submit_again d pid e st = (st1, Ok rec) →
  sc_artifacts st1 = sc_artifacts st ∧ _records (sc_state st1) !! pid = Some rec
  ∧ rec_state rec ≠ SIGNED
  ∧ ∃ old, _records (sc_state st) !! pid = Some old ∧ rec_proposal rec = rec_proposal old.
Proof.
  unfold submit_again, current_record, in_state, in_tracking, store_get. intros Hs. m_inv Hs. m_invs.
  case_bool_decide as Hst.
  - m_invs. apply transition_returns in Hs as (old & H1 & H2 & H3 & H4). cbn in *.
    split_and!; try done; [congruence|eauto].
  - m_invs. cbn in *. split_and!; try done. eauto.
Qed.

Lemma mark_submitted_done pid at_ a a1 e' :
  mark_submitted pid at_ a = (a1, Ok e') →
  ∃ e, as_executions a !! pid = Some e ∧ as_executions a1 !! pid = Some e'
    ∧ is_Some (se_submitted_at e') ∧ se_authorization e' = se_authorization e
    ∧ se_proposal_id e' = se_proposal_id e.
Proof.
  unfold mark_submitted, self, lift, mbind, M_bind.
  destruct (as_executions a !! pid) as [e|] eqn:He; [|done]. cbn.
  destruct (se_submitted_at e) as [t|] eqn:Ht; intros [= <- <-]; exists e.
  - rewrite Ht. split_and!; eauto.
  - cbn. rewrite lookup_insert_eq. split_and!; eauto.
Qed.

Lemma submit_new_done backend d pid actor e st st1 e' rec :
  submit_new backend d pid actor e st = (st1, Ok (e', rec)) →
  as_executions (sc_artifacts st1) !! pid = Some e' ∧ is_Some (se_submitted_at e')
  ∧ (∃ e0, as_executions (sc_artifacts st) !! pid = Some e0
       ∧ se_authorization e' = se_authorization e0)
  ∧ _records (sc_state st1) !! pid = Some rec ∧ rec_state rec ≠ SIGNED
  ∧ ∃ old, _records (sc_state st) !! pid = Some old ∧ rec_proposal rec = rec_proposal old.
Proof.
  unfold submit_new, current_record, in_state, in_artifacts, in_audit, in_tracking, store_get, call.
  intros Hs. m_inv Hs. m_invs. cbn [fst snd] in *.
  injection Hs as <- <- <-. cbn [sc_state sc_artifacts sc_audit sc_settlements] in *.
  match goal with H : mark_submitted _ _ _ = _ |- _ =>
    apply mark_submitted_done in H as (e0 & He0 & He1 & Hsome & Hauth & _) end.
  match goal with H : (if _ then _ else _) _ = (_, Ok _) |- _ => rename H into Hmove end.
  case_bool_decide as Hst; m_invs; cbn [sc_state sc_artifacts] in *.
  - match goal with H : transition _ _ _ _ = _ |- _ =>
      apply transition_returns in H as (old & ? & ? & ? & ?) end.
    split_and!; try done; eauto. congruence.
  - split_and!; try done; eauto.
Qed.

Lemma nonces_records_1 n l l' u : register_decision_nonce n l = (l', Ok u) → _records l' = _records l.
Proof. unfold register_decision_nonce. intros Hn. m_inv Hn. by m_invs. Qed.
Lemma nonces_records_2 w c n l l' u : register_wallet_nonce w c n l = (l', Ok u) → _records l' = _records l.
Proof. unfold register_wallet_nonce. intros Hn. m_inv Hn. by m_invs. Qed.

Lemma put_execution_done e a a1 x :
  put_execution e a = (a1, Ok x) → as_executions a1 !! se_proposal_id e = Some (fst x).
Proof.
  unfold put_execution, self, mbind, M_bind.
  destruct (as_executions a !! se_proposal_id e) eqn:He; intros [= <- <-]; [done|].
  apply lookup_insert_eq.
Qed.

Lemma sign_new_done cfg rpc d pid request actor record st st1 e created rec :
  sign_new cfg rpc d pid request actor record st = (st1, Ok (e, created, rec)) →
  as_executions (sc_artifacts st1) !! pid = Some e ∧ _execution_matches_request e request = true
  ∧ ∃ old, _records (sc_state st) !! pid = Some old ∧ _records (sc_state st1) !! pid = Some rec
      ∧ rec_proposal rec = rec_proposal old.
Proof.
  unfold sign_new, in_state, in_artifacts, in_audit, call, get_decision.
  intros Hs. m_inv Hs. m_invs. cbn [fst snd sc_state sc_artifacts sc_audit] in *.
  match goal with H : put_execution _ _ = (_, Ok ?x) |- _ => destruct x as [e0 c0];
    apply put_execution_done in H; rename H into Hput end.
  m_inv Hs. m_invs. cbn [fst snd sc_state sc_artifacts sc_audit] in *. injection Hs as <- <- <- <-.
  match goal with H : from_signer _ _ _ _ _ = Ok _ |- _ =>
    apply from_signer_fields in H as [Hpid _] end.
  match goal with H : transition _ _ _ _ = _ |- _ =>
    apply transition_returns in H as (old & Hold & Hnew & _ & Hprop) end.
  match goal with H : register_wallet_nonce _ _ _ _ = _ |- _ => apply nonces_records_2 in H as Hr2 end.
  match goal with H : register_decision_nonce _ _ = _ |- _ => apply nonces_records_1 in H as Hr1 end.
  rewrite Hpid in Hput. rewrite Hr2, Hr1 in Hold. cbn [sc_state sc_artifacts].
  prop_of_bool. split_and!; try done. eauto.
Qed.

Lemma in_state_get pid st :
  in_state (store_get pid) st = (st, Ok (_records (sc_state st) !! pid)).
Proof. by destruct st. Qed.

Lemma in_artifacts_execution pid st :
  in_artifacts (get_execution pid) st = (st, Ok (as_executions (sc_artifacts st) !! pid)).
Proof. by destruct st. Qed.

Lemma execute_done cfg d pid request actor st st1 resp :
  execute cfg d pid request actor st = (st1, Ok resp) →
  ∃ e rec old, executed pid request actor st1 e rec ∧ resp = response_of pid e rec (xr_created resp)
    ∧ _records (sc_state st) !! pid = Some old ∧ rec_proposal rec = rec_proposal old.
Proof.
  unfold execute. intros Hx. m_inv Hx. m_invs. prop_of_bool.
  match goal with H : in_state _ _ = _ |- _ => rewrite in_state_get in H; injection H as <- <- end.
  match goal with H : in_artifacts _ _ = _ |- _ =>
    rewrite in_artifacts_execution in H; injection H as <- <- end.
  match goal with H : match as_executions _ !! _ with _ => _ end _ = (?s, Ok ?x) |- _ =>
    rename H into Hphase; rename s into st2; destruct x as [[e created] record] end.
  assert (as_executions (sc_artifacts st2) !! pid = Some e ∧ _execution_matches_request e request = true
    ∧ ∃ rec old, _records (sc_state st2) !! pid = Some rec ∧ _records (sc_state st) !! pid = Some old
        ∧ rec_proposal rec = rec_proposal old) as (He & Hm & rec1 & old & Hrec1 & Hold & Hprop).
  { destruct (as_executions (sc_artifacts st) !! pid) as [e0|] eqn:He0.
    - m_invs. injection Hphase as <- <- <- <-. prop_of_bool. eauto 10.
    - apply sign_new_done in Hphase as (? & ? & old & ? & ? & ?). eauto 10. }
  cbn beta iota in Hx. destruct (se_submitted_at e) as [t|] eqn:Hsub; m_inv Hx; m_invs.
  - match goal with H : submit_again _ _ _ _ = _ |- _ =>
      apply submit_again_done in H as (Hart & Hrec & Hst & old2 & Hold2 & Hprop2) end.
    assert (rec_proposal x0 = rec_proposal old) as Hp by congruence.
    exists e, x0, old. split; [|by split_and!]. constructor; rewrite ?Hart; try done.
    assert (old = x2) as -> by congruence. congruence.
  - match goal with x : StoredExecutionV1 * ProposalRecord |- _ => destruct x as [e1 rec2] end.
    m_invs. match goal with H : submit_new _ _ _ _ _ _ = _ |- _ =>
      apply submit_new_done in H as (He1 & Hsome & (e0 & He0 & Hauth) & Hrec & Hst & old2 & Hold2 & Hprop2) end.
    assert (rec_proposal rec2 = rec_proposal old) as Hp by congruence.
    assert (e0 = e) as -> by congruence.
    exists e1, rec2, old. split; [|by split_and!]. constructor; try done.
    + unfold _execution_matches_request in *. by rewrite Hauth.
    + assert (old = x2) as -> by congruence. congruence.
Qed.

(** C13: executing again is safe.  When [execute] returned for a proposal, calling it again
    with the same request, at any later time and under any later configuration, changes
    nothing at all: no second signature is requested, nothing is submitted again, no event
    is appended.  If a signer and a backend for the proposal's chain are configured then, it
    returns the same execution with [created] false; if one is not, it raises. *)
Theorem execute_retry cfg d pid request actor st st1 resp cfg' d' :
  execute cfg d pid request actor st = (st1, Ok resp) →
  ∃ rec, _records (sc_state st1) !! pid = Some rec ∧
  match cfg_signer cfg', cfg_backends cfg' (chain_id (rec_proposal rec)) with
  | Some _, Some _ =>
      execute cfg' d' pid request actor st1
      = (st1, Ok {| xr_proposal_id := pid; xr_transaction_id := xr_transaction_id resp;
                    xr_state := xr_state resp; xr_state_version := xr_state_version resp;
                    xr_signing_hash := xr_signing_hash resp;
                    xr_transaction_hash := xr_transaction_hash resp;
                    xr_signer_identity := xr_signer_identity resp; xr_submitted := true;
                    xr_created := false |})
  | _, _ => ∃ e, execute cfg' d' pid request actor st1 = (st1, Err e)
  end.
Proof.
  intros Hx. destruct (execute_done _ _ _ _ _ _ _ _ Hx) as (e & rec & old & Hex & -> & _).
  destruct Hex as [He [t Ht] Hm Hrec Hst Hown]. exists rec. split; [done|].
  unfold execute. unfold mbind, M_bind. rewrite in_state_get, Hrec.
  unfold lift. cbn [or_raise]. rewrite Hown, bool_decide_true by done. cbn [negb raise_if].
  destruct (cfg_signer cfg'); [|by eexists]. cbn [or_raise].
  destruct (cfg_backends cfg' (chain_id (rec_proposal rec))); [|by eexists]. cbn [or_raise].
  rewrite in_artifacts_execution, He, Hm. cbn [negb raise_if mret M_ret]. rewrite Ht.
  unfold submit_again, current_record, mbind, M_bind, lift. rewrite in_state_get, Hrec. cbn [or_raise].
  rewrite bool_decide_false by done. unfold response_of. cbn. rewrite Ht.
  by rewrite bool_decide_true by eauto.
Qed.
End retries.
