(* ===== verification/Scenario.v ===== *)
(** A whole run of the service on concrete inputs, from the activation of a policy to a
    complete attestation, with the witnesses that need one. *)
From Stdlib Require Import ZArith Lia Ascii String.
From Stdlib Require Strings.Byte.
From stdpp Require Import base gmap sets list strings pretty.
From S2P Require Import Prelude Bytes Canonical CanonicalFacts Contracts ContractsFacts Policy.
From S2P Require Import PolicyFacts State StateFacts Decisions Eip1559 Signing SigningFacts Journal.
From S2P Require Import Artifacts.
From S2P Require Import Attestations AttestationsFacts Settlements Service ServiceFacts.

Open Scope Z_scope.

(** Points are taken as they are, a signature of [d] is [(d, 1)], times are decimal
    numbers of microseconds. *)
Fixpoint decimal (acc : Z) (s : string) : result Z :=
  match s with
  | EmptyString => Ok acc
  | String c s =>
      if is_digit c then decimal (10 * acc + Z.of_nat (nat_of_ascii c) - 48) s
      else Err (ValueError "Invalid isoformat string")
  end.

Definition run_evidence : EvidenceExternals := {|
  ec_point := λ b, if bool_decide (length b = 65%nat) then Some b else None;
  ec_verify := λ _ d r s, (r =? from_bytes_be d) && (s =? 1);
  fromisoformat := decimal 0;
|}.

Definition stamp (t : Z) : string :=
  let s := pretty t in string_of_list_ascii (replicate (20 - String.length s) "0"%char) +:+ s.

#[local] Existing Instance sized_externals.
#[local] Existing Instance run_evidence.

Definition or_empty (r : result bytes) : bytes := match r with Ok b => b | Err _ => [] end.

Definition run_key : bytes := Byte.x04 :: replicate 64 Byte.x07.
Definition run_identity : string := "0x" +:+ hex (drop 12 (keccak (drop 1 run_key))).
Definition run_signature (digest : bytes) : string :=
  "0x" +:+ hex (digest ++ to_bytes_be 32 1 ++ [Byte.x00]).
Definition run_raw (q : TransactionSignRequestV1) : bytes :=
  Byte.x02 :: default [] (fromhex (str_drop2 (q_eip1559_hash q))).

(** The evidence an honest enclave returns for a request. *)
Definition run_evidence_of (q : TransactionSignRequestV1) : EnclaveEvidenceV1 :=
  let d := q_decision q in
  let p := q_proposal q in
  let e h s :=
    {| ee_mode := "aws-nitro"; ee_build_measurement := "m1"; ee_signer_identity := run_identity;
       ee_secp256k1_public_key := "0x" +:+ hex run_key;
       ee_transaction_hash := "0x" +:+ hex (keccak (run_raw q));
       ee_signing_hash := q_eip1559_hash q; ee_proposal_hash := d_proposal_hash d;
       ee_policy_version_id := policy_version_id d; ee_policy_hash := d_policy_hash d;
       ee_state_version := Contracts.state_version d; ee_reservation_id := q_reservation_id q;
       ee_wallet := wallet p; ee_principal_id := principal_id p; ee_chain_id := chain_id p;
       ee_wallet_nonce := q_wallet_nonce q; ee_decision_id := decision_id d;
       ee_decision_nonce := decision_nonce d; ee_expires_at := stamp (q_expires_at q);
       ee_issued_at := stamp (seconds 1005); ee_evidence_hash := h; ee_evidence_signature := s |} in
  let digest := sha256 (or_empty (unsigned_payload (e "" ""))) in
  e ("0x" +:+ hex digest) (run_signature digest).

Definition run_rpc (q : TransactionSignRequestV1) : option SignResponse :=
  Some {| r_eip1559_hash := q_eip1559_hash q; r_wallet_nonce := q_wallet_nonce q;
    r_chain_id := q_chain_id q; r_decision_id := uuid_str (decision_id (q_decision q));
    r_signer_identity := run_identity;
    r_signature := run_signature (default [] (fromhex (str_drop2 (q_eip1559_hash q))));
    r_enclave_evidence_json := Ok (PDict (EnclaveEvidenceV1_dump (run_evidence_of q)));
    r_signed_transaction := run_raw q;
    r_transaction_hash := "0x" +:+ hex (keccak (run_raw q)); r_signing_hash := q_eip1559_hash q |}.

Definition run_config : ServiceConfig :=
  {| cfg_decisions := DecisionIssuer_from_seed "s" 30; cfg_signer := Some run_rpc;
     cfg_backends := λ chain, if chain =? 31337 then Some (λ s, Ok (cs_transaction_hash s)) else None;
     cfg_eip712_domain_separator := GENESIS_HASH;
     cfg_allowed_build_measurements := ["m1"] |}.

Definition run_request : ExecutionRequest :=
  {| x_wallet_nonce := 0; x_value := 250; x_gas_limit := 21000; x_max_fee_per_gas := 2000;
     x_max_priority_fee_per_gas := 1000 |}.

Definition run_submit : submit_draws :=
  {| sd_reserve := sample_draws (seconds 1000) 7; sd_issued_at := seconds 1001;
     sd_decision_id := 21; sd_nonce := 22; sd_event_id := 31; sd_event_at := seconds 1001 |}.
Definition run_execute (t : Z) : execute_draws :=
  {| xd_transaction_id := 41; xd_signed_at := t; xd_signed_now := t; xd_signed_event := 32;
     xd_signed_event_at := t; xd_submitted_at := t; xd_submitted_now := t;
     xd_submitted_event := 33; xd_submitted_event_at := t |}.

Definition run_pid : Z := proposal_id sample_proposal.

Definition run_0 : ServiceState :=
  fst (in_policies (registry_activate 5 1 "root")
    (fst (in_policies (registry_approve 1 "bob")
      (fst (in_policies (registry_approve 1 "alice")
        (fst (in_policies (registry_create 1 0 sample_policy "alice") (service_init 0)))))))).
Definition run_1 : ServiceState := fst (submit run_config run_submit sample_proposal "agent-1" run_0).
Definition run_2 : ServiceState :=
  fst (execute run_config (run_execute (seconds 1006)) run_pid run_request "agent-1" run_1).

Definition run_receipt (h : string) : EvmReceipt :=
  {| er_transaction_hash := h; er_block_hash := GENESIS_HASH; er_block_number := 9;
     er_success := true; er_confirmations := 2 |}.
Definition run_reconciler : SettlementReconciler :=
  {| rc_backends := λ _, Some (λ h, HasReceipt (run_receipt h)); rc_finality := 2 |}.
Definition run_3 : ServiceState := fst (service_poll run_reconciler (seconds 1010) run_2).
Definition run_attest : M ServiceState CompleteAttestationV1 :=
  complete_attestation run_config {| ad_transaction_id := 51; ad_event_id := 34;
    ad_event_at := seconds 1011 |} run_pid "agent-1".

(** * Witnesses *)

Lemma run_1_reach : service_reach run_1.
Proof. apply vreach_submit. do 4 apply vreach_policy. apply vreach_init. Qed.
Lemma run_2_reach : service_reach run_2.
Proof. apply vreach_execute, run_1_reach. Qed.

Lemma is_ok_inv {A} (r : result A) : is_ok r = true → ∃ a, r = Ok a.
Proof. destruct r; [eauto|done]. Qed.

Definition run_call_shape (calls : list external_call) : bool :=
  match calls with
  | [CSign _ _ _; CSubmit pid _] => pid =? run_pid
  | _ => false
  end.

Lemma run_call_shape_inv calls :
  run_call_shape calls = true → ∃ a b q s, calls = [CSign a b q; CSubmit run_pid s].
Proof.
  destruct calls as [|[a b q|] [|[|pid s] [|]]]; try done. intros ->%Z.eqb_eq. by exists a, b, q, s.
Qed.

Lemma single_transaction_witness :
  ∃ s, CSubmit run_pid s ∈ sc_calls run_2 ∧ ∀ s', CSubmit run_pid s' ∈ sc_calls run_2 → s' = s.
Proof.
  assert (run_call_shape (sc_calls run_2) = true) as Hc by (vm_compute; reflexivity).
  destruct (run_call_shape_inv _ Hc) as (a & b & q & s & Hcalls).
  exists s. split; [rewrite Hcalls; right; left|].
  exact (proj1 (single_transaction run_2 run_pid [CSign a b q] s [] run_2_reach Hcalls)).
Defined.

(** Executed again under the same configuration, and under one without backends. *)
Definition run_offline : ServiceConfig :=
  {| cfg_decisions := cfg_decisions run_config; cfg_signer := cfg_signer run_config;
     cfg_backends := λ _, None; cfg_eip712_domain_separator := GENESIS_HASH;
     cfg_allowed_build_measurements := ["m1"] |}.

Lemma execute_retry_witness :
  ∃ st1 resp resp' e, execute run_config (run_execute (seconds 1006)) run_pid run_request "agent-1" run_1 = (st1, Ok resp)
    ∧ execute run_config (run_execute (seconds 2006)) run_pid run_request "agent-1" st1 = (st1, Ok resp')
    ∧ execute run_offline (run_execute (seconds 2006)) run_pid run_request "agent-1" st1 = (st1, Err e).
Proof.
  assert ((λ x, match x with
    | (st1, Ok _) => match _records (sc_state st1) !! run_pid with
                     | Some rec => chain_id (rec_proposal rec) =? 31337 | None => false end
    | _ => false end)
    (execute run_config (run_execute (seconds 1006)) run_pid run_request "agent-1" run_1) = true)
    as Hok by (vm_compute; reflexivity).
  destruct (execute run_config (run_execute (seconds 1006)) run_pid run_request "agent-1" run_1) as [st1 [resp|e]] eqn:Hx; [|discriminate Hok].
  destruct (execute_retry run_config (run_execute (seconds 1006)) run_pid run_request "agent-1" run_1
    st1 resp run_config (run_execute (seconds 2006)) Hx) as (rec & Hrec & H1).
  destruct (execute_retry run_config (run_execute (seconds 1006)) run_pid run_request "agent-1" run_1
    st1 resp run_offline (run_execute (seconds 2006)) Hx) as (rec' & Hrec' & e & H2).
  rewrite Hrec in Hok. cbn [cfg_signer cfg_backends run_config] in H1. rewrite Hok in H1.
  exists st1, resp. eexists. exists e. split; [reflexivity|]. split; [exact H1|exact H2].
Defined.

Definition run_gate : SignerAuthorizationGate :=
  gate_init (kp_pub (issuer_keys (DecisionIssuer_from_seed "s" 30))) [31337] None.

(** The gate before and after it signed the request: accepted, then refused. *)
Lemma authorization_accepted_witness :
  ∃ q, _authorization run_config sample_record sample_token run_request = Ok q
    ∧ validate_and_consume (seconds 1007) q run_gate = (after_signing run_gate q, Ok tt)
    ∧ ∃ e, validate_and_consume (seconds 1007) q (after_signing run_gate q)
           = (after_signing run_gate q, Err e).
Proof.
  assert (is_ok (_authorization run_config sample_record sample_token run_request) = true) as Hok
    by (vm_compute; reflexivity).
  destruct (is_ok_inv _ Hok) as [q Hq].
  exists q. split; [exact Hq|].
  assert (∀ g, g_policy_public_key g = kp_pub (issuer_keys (DecisionIssuer_from_seed "s" 30)) →
    (validate_and_consume (seconds 1007) q g = (after_signing g q, Ok tt)
     ∧ gate_admits g (seconds 1007) q)
    ∨ (∃ e, validate_and_consume (seconds 1007) q g = (g, Err e)
       ∧ ¬ gate_admits g (seconds 1007) q)) as Hgate.
  { intros g. apply (@authorization_accepted sized_externals sized_ed25519 "s" 30 run_config
      sample_proposal {| dt_wall := seconds 2000; dt_offset := Some 0 |} sample_record sample_version
      (seconds 1001) 21 22 sample_token run_request q g (seconds 1007)).
    - vm_compute. reflexivity.
    - vm_compute. reflexivity.
    - exact sample_token_issued.
    - exact Hq. }
  destruct (authorization_inv _ _ _ _ _ Hq) as [raw Ha]. split.
  - destruct (Hgate run_gate) as [[H _]|(e & _ & Hn)]; [reflexivity|exact H|]. exfalso. apply Hn.
    constructor.
    + discriminate.
    + rewrite (au_chain _ _ _ _ _ _ Ha). vm_compute. reflexivity.
    + vm_compute. intros H. discriminate H.
    + rewrite (au_nonce _ _ _ _ _ _ Ha). vm_compute. reflexivity.
    + rewrite (au_expires _ _ _ _ _ _ Ha). vm_compute. reflexivity.
  - destruct (Hgate (after_signing run_gate q)) as [[_ H]|(e & H & _)]; [reflexivity| |eauto].
    exfalso. apply (gm_fresh _ _ _ H). apply elem_of_union. right. by apply elem_of_singleton.
Defined.

(** The attestation of the run verifies, and pins what it is of. *)
Lemma attestation_pins_authorization_witness :
  ∃ a, snd (run_attest run_3) = Ok a
    ∧ raw_bytes (ca_signed_transaction a) = raw_bytes (ca_signed_transaction a)
    ∧ same_call (ca_transaction_binding a) (ca_transaction_binding a).
Proof.
  assert (is_ok (snd (run_attest run_3)) = true) as Hok by (vm_compute; reflexivity).
  destruct (is_ok_inv _ Hok) as [a Ha].
  exists a. split; [exact Ha|].
  assert ((λ r, match r with
    | Ok a => match verify_complete_attestation a
        (kp_pub (issuer_keys (DecisionIssuer_from_seed "s" 30))) ["m1"] with
        | Ok v => av_valid v | Err _ => false end
    | Err _ => false end) (snd (run_attest run_3)) = true) as Hv by (vm_compute; reflexivity).
  assert ((λ r, match r with
    | Ok a => bool_decide (ca_proposal a = sample_proposal)
        && (ee_policy_version_id (ca_enclave_evidence a) =? 1)
        && (ee_reservation_id (ca_enclave_evidence a) =? 7)
        && (ee_decision_id (ca_enclave_evidence a) =? 21)
        && (ee_decision_nonce (ca_enclave_evidence a) =? 22)
    | Err _ => false end) (snd (run_attest run_3)) = true) as Hi by (vm_compute; reflexivity).
  rewrite Ha in Hv, Hi. cbn beta iota in Hv, Hi.
  destruct (verify_complete_attestation a _ _) as [r|] eqn:Hr; [|discriminate Hv].
  rewrite !andb_true_iff, bool_decide_eq_true, !Z.eqb_eq in Hi.
  destruct Hi as ((((Hp & E1) & E2) & E3) & E4).
  assert (proposal_ids (ca_proposal a)) as Hids.
  { rewrite Hp. split; [split; vm_compute; congruence|exact I]. }
  assert (evidence_ids (ca_enclave_evidence a)) as Hev.
  { unfold evidence_ids. rewrite E1, E2, E3, E4. repeat split; vm_compute; congruence. }
  destruct (@attestation_pins_authorization sized_externals run_evidence sized_rfc8785 sized_iso a a
    (kp_pub (issuer_keys (DecisionIssuer_from_seed "s" 30)))
    (kp_pub (issuer_keys (DecisionIssuer_from_seed "s" 30))) ["m1"] ["m1"] r r Hids Hids Hev Hev) as (_ & _ & _ & _ & _ & _ & _ & H1 & _ & H2).
  - repeat split; intros; congruence.
  - exact Hr.
  - exact Hv.
  - exact Hr.
  - exact Hv.
  - reflexivity.
  - split; [exact H1|exact H2].
Defined.
