(* ===== verification/Ledger.v ===== *)
(** The local chain (src/agentguard-testbed/src/agentwallet/chain/ledger.py) with the
    wallets that act on it (wallet/signer.py, wallet/smart_wallet.py, mev/relay.py):
    transactions and their signatures, tokens, the constant-product pool, the mempool,
    block execution and the contract-wallet rules.

    A [TestToken], the pool and the chain are mutable objects: their methods run in [M],
    which keeps what was changed before an exception.  Amounts are Python integers. *)
From Stdlib Require Import ZArith Lia Ascii String.
From stdpp Require Import base gmap sets list strings pretty.
From S2P Require Import Prelude Bytes Float64 Canonical Contracts.

Open Scope Z_scope.

(** [json.dumps(value, sort_keys=True, separators=(",", ":"))]: the default
    [ensure_ascii] writes DEL and everything beyond ASCII as an escape. *)
Definition ascii_escape (c : ascii) : string :=
  let n := nat_of_ascii c in
  if Nat.leb 127 n then "\u00" +:+ hex_nibble (n / 16) +:+ hex_nibble (n mod 16)
  else String c EmptyString.

Fixpoint ascii_escape_all (s : string) : string :=
  match s with
  | EmptyString => EmptyString
  | String c s => ascii_escape c +:+ ascii_escape_all s
  end.

Definition canonical (obj : pyval) : bytes := encode (ascii_escape_all (json_dumps obj)).

#[global] Arguments canonical : simpl never.

Definition MICRO : Z := 1000000.

(** * Transactions *)

Inductive TxKind := TRANSFER | SWAP.

#[export] Instance TxKind_eq_dec : EqDecision TxKind.
Proof. solve_decision. Defined.

Definition kind_value (k : TxKind) : string :=
  match k with TRANSFER => "transfer" | SWAP => "swap" end.

Record Tx := {
  tx_kind : TxKind;
  tx_sender : string;
  tx_to : option string;
  tx_amount : Z;
  tx_asset : string;
  tx_amount_in : Z;
  tx_token_in : string;
  tx_token_out : string;
  tx_min_out : Z;
  tx_private : bool;
  tx_submitted_at : Z;
  tx_nonce : Z;
  tx_chain_id : Z;
  tx_deadline : Z;
  tx_decision_hash : string;
  tx_public_key_hex : string;
  tx_signature_hex : string;
}.

#[export] Instance Tx_eq_dec : EqDecision Tx.
Proof. solve_decision. Defined.

Definition tx_payload (t : Tx) : pyval := PDict
  [(KStr "amount", PInt (tx_amount t)); (KStr "amount_in", PInt (tx_amount_in t));
   (KStr "asset", PStr (tx_asset t)); (KStr "chain_id", PInt (tx_chain_id t));
   (KStr "deadline", PInt (tx_deadline t)); (KStr "decision_hash", PStr (tx_decision_hash t));
   (KStr "kind", PStr (kind_value (tx_kind t))); (KStr "min_out", PInt (tx_min_out t));
   (KStr "nonce", PInt (tx_nonce t)); (KStr "private", PBool (tx_private t));
   (KStr "sender", PStr (tx_sender t));
   (KStr "to", match tx_to t with Some a => PStr a | None => PNone end);
   (KStr "token_in", PStr (tx_token_in t)); (KStr "token_out", PStr (tx_token_out t))].

Definition tx_canonical (t : Tx) : bytes := canonical (tx_payload t).

Definition set_signature (pub sig : string) (t : Tx) : Tx :=
  {| tx_kind := tx_kind t; tx_sender := tx_sender t; tx_to := tx_to t;
     tx_amount := tx_amount t; tx_asset := tx_asset t; tx_amount_in := tx_amount_in t;
     tx_token_in := tx_token_in t; tx_token_out := tx_token_out t; tx_min_out := tx_min_out t;
     tx_private := tx_private t; tx_submitted_at := tx_submitted_at t; tx_nonce := tx_nonce t;
     tx_chain_id := tx_chain_id t; tx_deadline := tx_deadline t;
     tx_decision_hash := tx_decision_hash t; tx_public_key_hex := pub; tx_signature_hex := sig |}.

Definition set_submitted_at (at_ : Z) (t : Tx) : Tx :=
  {| tx_kind := tx_kind t; tx_sender := tx_sender t; tx_to := tx_to t;
     tx_amount := tx_amount t; tx_asset := tx_asset t; tx_amount_in := tx_amount_in t;
     tx_token_in := tx_token_in t; tx_token_out := tx_token_out t; tx_min_out := tx_min_out t;
     tx_private := tx_private t; tx_submitted_at := at_; tx_nonce := tx_nonce t;
     tx_chain_id := tx_chain_id t; tx_deadline := tx_deadline t;
     tx_decision_hash := tx_decision_hash t; tx_public_key_hex := tx_public_key_hex t;
     tx_signature_hex := tx_signature_hex t |}.

Definition set_private (t : Tx) : Tx :=
  {| tx_kind := tx_kind t; tx_sender := tx_sender t; tx_to := tx_to t;
     tx_amount := tx_amount t; tx_asset := tx_asset t; tx_amount_in := tx_amount_in t;
     tx_token_in := tx_token_in t; tx_token_out := tx_token_out t; tx_min_out := tx_min_out t;
     tx_private := true; tx_submitted_at := tx_submitted_at t; tx_nonce := tx_nonce t;
     tx_chain_id := tx_chain_id t; tx_deadline := tx_deadline t;
     tx_decision_hash := tx_decision_hash t; tx_public_key_hex := tx_public_key_hex t;
     tx_signature_hex := tx_signature_hex t |}.

Section signing.
Context `{!Externals}.

Definition tx_digest (t : Tx) : bytes := sha256 (tx_canonical t).
Definition tx_hash (t : Tx) : string := hex (tx_digest t).

(** [Tx.sign] *)
Definition tx_sign (keys : KeyPair) (t : Tx) : result Tx :=
  raise_if (bool_decide (str_lower (kp_address keys) ≠ str_lower (tx_sender t)))
    (RuleViolation "signing key does not control transaction sender");;
  Ok (set_signature (hex (kp_pub keys)) (hex (KeyPair_sign keys (tx_digest t))) t).

(** ** The isolated signer (wallet/signer.py) *)

Record IsolatedSigner := { sg_keys : KeyPair }.

Definition IsolatedSigner_init (seed : string) : IsolatedSigner :=
  {| sg_keys := KeyPair_from_seed ("wallet::" +:+ seed) |}.

Definition signer_address (s : IsolatedSigner) : string := kp_address (sg_keys s).

Definition signer_sign (s : IsolatedSigner) (digest : bytes) : string * string :=
  (hex (kp_pub (sg_keys s)), hex (KeyPair_sign (sg_keys s) digest)).

Definition authorize_transaction (s : IsolatedSigner) (t : Tx) : result Tx :=
  raise_if (bool_decide (str_lower (tx_sender t) ≠ str_lower (signer_address s)))
    (RuleViolation "isolated signer does not control transaction sender");;
  let '(pub, sig) := signer_sign s (tx_digest t) in
  Ok (set_signature pub sig t).
End signing.

Record Receipt := {
  rc_tx : Tx;
  rc_success : bool;
  rc_amount_out : Z;
  rc_error : string;
}.

(** * Tokens *)

Record TestToken := { tk_symbol : string; tk_balances : gmap string Z }.

Definition TestToken_init (symbol : string) : TestToken :=
  {| tk_symbol := symbol; tk_balances := ∅ |}.

Definition set_balances (b : gmap string Z) (k : TestToken) : TestToken :=
  {| tk_symbol := tk_symbol k; tk_balances := b |}.

Definition token_balance (k : TestToken) (addr : string) : Z := default 0 (tk_balances k !! addr).

Definition token_mint (addr : string) (amount : Z) : M TestToken unit :=
  update (λ k, set_balances (<[addr := token_balance k addr + amount]> (tk_balances k)) k).

(** [self.balances[frm] -= amount] *)
Definition token_debit (frm : string) (amount : Z) : M TestToken unit :=
  k ← self;
  held ← lift (or_raise (tk_balances k !! frm) (KeyError frm));
  update (set_balances (<[frm := held - amount]> (tk_balances k))).

Definition token_transfer (frm to : string) (amount : Z) : M TestToken unit :=
  k ← self;
  lift (raise_if (amount <=? 0) (RuleViolation "non-positive transfer"));;
  lift (raise_if (token_balance k frm <? amount)
    (InsufficientFunds
      (frm +:+ " has " +:+ pretty (token_balance k frm) +:+ " < " +:+ pretty amount)));;
  token_debit frm amount;;
  update (λ k, set_balances (<[to := token_balance k to + amount]> (tk_balances k)) k).

(** * The constant-product pool *)

Definition FEE_BPS : Z := 30.

Record ConstantProductAMM := { amm_a : Z; amm_b : Z }.

Definition AMM_init (reserve_a reserve_b : Z) : result ConstantProductAMM :=
  raise_if (negb ((0 <? reserve_a) && (0 <? reserve_b))) AssertionError;;
  Ok {| amm_a := reserve_a; amm_b := reserve_b |}.

Definition price_a_per_b (p : ConstantProductAMM) : result float := int_div (amm_a p) (amm_b p).

Definition amm_quote (p : ConstantProductAMM) (token_in : string) (amount_in : Z) : result Z :=
  let '(rin, rout) :=
    if bool_decide (token_in = "TUSDC") then (amm_a p, amm_b p) else (amm_b p, amm_a p) in
  let eff := amount_in * (10000 - FEE_BPS) in
  raise_if (rin * 10000 + eff =? 0) ZeroDivisionError;;
  Ok ((eff * rout) / (rin * 10000 + eff)).

Definition amm_swap (token_in : string) (amount_in min_out : Z) : M ConstantProductAMM Z :=
  p ← self;
  out ← lift (amm_quote p token_in amount_in);
  lift (raise_if (out <? min_out)
    (RuleViolation ("slippage: out " +:+ pretty out +:+ " < min_out " +:+ pretty min_out)));;
  update (λ p,
    if bool_decide (token_in = "TUSDC")
    then {| amm_a := amm_a p + amount_in; amm_b := amm_b p - out |}
    else {| amm_a := amm_a p - out; amm_b := amm_b p + amount_in |});;
  mret out.

(** * The chain *)

Record LocalChain := {
  lc_tokens : gmap string TestToken;
  lc_amm : ConstantProductAMM;
  lc_mempool : list Tx;
  lc_blocks : list (list Receipt);
  lc_clock : Z;
  lc_chain_id : Z;
  lc_next_nonces : gmap string Z;
  lc_rule_hooks : gmap string (Tx → result unit);
  lc_events : list string;
}.

Definition set_tokens (v : gmap string TestToken) (c : LocalChain) : LocalChain :=
  {| lc_tokens := v; lc_amm := lc_amm c; lc_mempool := lc_mempool c; lc_blocks := lc_blocks c;
     lc_clock := lc_clock c; lc_chain_id := lc_chain_id c; lc_next_nonces := lc_next_nonces c;
     lc_rule_hooks := lc_rule_hooks c; lc_events := lc_events c |}.
Definition set_amm (v : ConstantProductAMM) (c : LocalChain) : LocalChain :=
  {| lc_tokens := lc_tokens c; lc_amm := v; lc_mempool := lc_mempool c; lc_blocks := lc_blocks c;
     lc_clock := lc_clock c; lc_chain_id := lc_chain_id c; lc_next_nonces := lc_next_nonces c;
     lc_rule_hooks := lc_rule_hooks c; lc_events := lc_events c |}.
Definition set_mempool (v : list Tx) (c : LocalChain) : LocalChain :=
  {| lc_tokens := lc_tokens c; lc_amm := lc_amm c; lc_mempool := v; lc_blocks := lc_blocks c;
     lc_clock := lc_clock c; lc_chain_id := lc_chain_id c; lc_next_nonces := lc_next_nonces c;
     lc_rule_hooks := lc_rule_hooks c; lc_events := lc_events c |}.
Definition seal_block (v : list Receipt) (c : LocalChain) : LocalChain :=
  {| lc_tokens := lc_tokens c; lc_amm := lc_amm c; lc_mempool := lc_mempool c;
     lc_blocks := lc_blocks c ++ [v]; lc_clock := lc_clock c + 1; lc_chain_id := lc_chain_id c;
     lc_next_nonces := lc_next_nonces c; lc_rule_hooks := lc_rule_hooks c;
     lc_events := lc_events c |}.
Definition set_nonces (v : gmap string Z) (c : LocalChain) : LocalChain :=
  {| lc_tokens := lc_tokens c; lc_amm := lc_amm c; lc_mempool := lc_mempool c;
     lc_blocks := lc_blocks c; lc_clock := lc_clock c; lc_chain_id := lc_chain_id c;
     lc_next_nonces := v; lc_rule_hooks := lc_rule_hooks c; lc_events := lc_events c |}.
Definition set_hooks (v : gmap string (Tx → result unit)) (c : LocalChain) : LocalChain :=
  {| lc_tokens := lc_tokens c; lc_amm := lc_amm c; lc_mempool := lc_mempool c;
     lc_blocks := lc_blocks c; lc_clock := lc_clock c; lc_chain_id := lc_chain_id c;
     lc_next_nonces := lc_next_nonces c; lc_rule_hooks := v; lc_events := lc_events c |}.
Definition add_event (e : string) (c : LocalChain) : LocalChain :=
  {| lc_tokens := lc_tokens c; lc_amm := lc_amm c; lc_mempool := lc_mempool c;
     lc_blocks := lc_blocks c; lc_clock := lc_clock c; lc_chain_id := lc_chain_id c;
     lc_next_nonces := lc_next_nonces c; lc_rule_hooks := lc_rule_hooks c;
     lc_events := lc_events c ++ [e] |}.

Definition POOL : string := "amm:pool".

Definition LocalChain_init (a b chain_id : Z) : result LocalChain :=
  amm ← AMM_init a b;
  Ok {| lc_tokens :=
          {[ "TUSDC" := fst (token_mint POOL a (TestToken_init "TUSDC"));
             "DRB" := fst (token_mint POOL b (TestToken_init "DRB")) ]};
        lc_amm := amm; lc_mempool := []; lc_blocks := []; lc_clock := 0;
        lc_chain_id := chain_id; lc_next_nonces := ∅; lc_rule_hooks := ∅; lc_events := [] |}.

(** A method of [self.tokens[asset]]; the index raises [KeyError]. *)
Definition with_token {A} (asset : string) (m : M TestToken A) : M LocalChain A :=
  c ← self;
  k ← lift (or_raise (lc_tokens c !! asset) (KeyError asset));
  zoom (λ _, k) (λ k' c, set_tokens (<[asset := k']> (lc_tokens c)) c) m.

Definition chain_mint (asset addr : string) (amount : Z) : M LocalChain unit :=
  with_token asset (token_mint addr amount).

Definition chain_balance (c : LocalChain) (asset addr : string) : result Z :=
  k ← or_raise (lc_tokens c !! asset) (KeyError asset);
  Ok (token_balance k addr).

Definition next_nonce (c : LocalChain) (address : string) : Z :=
  default 0 (lc_next_nonces c !! str_lower address).

Section chain.
Context `{!Externals}.

(** [Ed25519PublicKey.from_public_bytes] takes exactly 32 bytes. *)
Definition from_public_bytes (b : bytes) : option bytes :=
  if bool_decide (length b = 32%nat) then Some b else None.

Definition _verify_authorization (c : LocalChain) (t : Tx) : result unit :=
  raise_if (negb (str_truthy (tx_public_key_hex t)) || negb (str_truthy (tx_signature_hex t)))
    (RuleViolation "transaction signature required");;
  raise_if (negb (tx_chain_id t =? lc_chain_id c))
    (RuleViolation ("wrong chain: transaction " +:+ pretty (tx_chain_id t) +:+ ", backend "
                    +:+ pretty (lc_chain_id c)));;
  raise_if (tx_deadline t <? lc_clock c) (RuleViolation "transaction expired");;
  let expected := next_nonce c (tx_sender t) in
  raise_if (negb (tx_nonce t =? expected))
    (RuleViolation ("invalid nonce: expected " +:+ pretty expected +:+ ", received "
                    +:+ pretty (tx_nonce t)));;
  raise_if (negb (str_truthy (tx_decision_hash t)))
    (RuleViolation "transaction is not bound to a decision");;
  pub ← or_raise (raw ← fromhex (tx_public_key_hex t); from_public_bytes raw)
    (RuleViolation "malformed transaction signature");
  sig ← or_raise (fromhex (tx_signature_hex t))
    (RuleViolation "malformed transaction signature");
  raise_if (negb (verify_with_address (tx_sender t) (tx_digest t) sig pub))
    (RuleViolation "invalid transaction signature").

Definition chain_submit (t : Tx) : M LocalChain unit :=
  c ← self;
  lift (_verify_authorization c t);;
  update (λ c, set_mempool (lc_mempool c ++ [set_submitted_at (lc_clock c) t]) c);;
  let key := str_lower (tx_sender t) in
  update (λ c, set_nonces (<[key := next_nonce c key + 1]> (lc_next_nonces c)) c).

(** [PrivateRelay.submit] (mev/relay.py) *)
Definition relay_private_submit (t : Tx) : M LocalChain unit := chain_submit (set_private t).
End chain.

Definition visible_mempool (c : LocalChain) : list Tx :=
  filter (λ t, tx_private t = false) (lc_mempool c).

(** [except (InsufficientFunds, RuleViolation)] *)
Definition catches_revert (e : exn) : bool :=
  match e with InsufficientFunds _ | RuleViolation _ => true | _ => false end.

(** The body of the [try] of [_execute]. *)
Definition execute_transfer (t : Tx) : M LocalChain Receipt :=
  to ← lift (or_raise (tx_to t) (RuleViolation "transfer recipient is required"));
  with_token (tx_asset t) (token_transfer (tx_sender t) to (tx_amount t));;
  mret {| rc_tx := t; rc_success := true; rc_amount_out := 0; rc_error := "" |}.

Definition execute_swap (t : Tx) : M LocalChain Receipt :=
  c ← self;
  tok_in ← lift (or_raise (lc_tokens c !! tx_token_in t) (KeyError (tx_token_in t)));
  _ ← lift (or_raise (lc_tokens c !! tx_token_out t) (KeyError (tx_token_out t)));
  lift (raise_if (token_balance tok_in (tx_sender t) <? tx_amount_in t)
    (InsufficientFunds "swap input exceeds balance"));;
  out ← zoom lc_amm set_amm (amm_swap (tx_token_in t) (tx_amount_in t) (tx_min_out t));
  with_token (tx_token_in t) (token_transfer (tx_sender t) POOL (tx_amount_in t));;
  with_token (tx_token_out t) (token_transfer POOL (tx_sender t) out);;
  mret {| rc_tx := t; rc_success := true; rc_amount_out := out; rc_error := "" |}.

Definition run_hook (t : Tx) : M LocalChain unit :=
  c ← self;
  match lc_rule_hooks c !! tx_sender t with
  | Some hook => lift (hook t)
  | None => mret tt
  end.

Definition _execute (t : Tx) : M LocalChain Receipt :=
  try_m catches_revert
    (run_hook t;;
     match tx_kind t with TRANSFER => execute_transfer t | SWAP => execute_swap t end)
    (λ e,
      update (add_event ("reverted: " +:+ exn_text e));;
      mret {| rc_tx := t; rc_success := false; rc_amount_out := 0; rc_error := exn_text e |}).

Fixpoint execute_all (pending : list Tx) : M LocalChain (list Receipt) :=
  match pending with
  | [] => mret []
  | t :: pending => r ← _execute t; rs ← execute_all pending; mret (r :: rs)
  end.

Definition mine_block : M LocalChain (list Receipt) :=
  pending ← read lc_mempool;
  update (set_mempool []);;
  receipts ← execute_all pending;
  update (seal_block receipts);;
  mret receipts.

Definition register_rule_hook (addr : string) (hook : Tx → result unit) : M LocalChain unit :=
  update (λ c, set_hooks (<[addr := hook]> (lc_rule_hooks c)) c).

Definition snapshot_reserves (c : LocalChain) : Z * Z := (amm_a (lc_amm c), amm_b (lc_amm c)).

(** * Contract wallets (wallet/smart_wallet.py) *)

Record ContractWalletRules := {
  cw_per_tx_cap : Z;
  cw_allowlist : list string;
  cw_allowed_assets : list string;
}.

(** The constructor: [None] or an empty list of assets means TUSDC only. *)
Definition ContractWalletRules_init (per_tx_cap : Z) (allowlist allowed_assets : option (list string))
    : ContractWalletRules :=
  {| cw_per_tx_cap := per_tx_cap;
     cw_allowlist := default [] allowlist;
     cw_allowed_assets :=
       match allowed_assets with None | Some [] => ["TUSDC"] | Some l => l end |}.

Definition wallet_hook (r : ContractWalletRules) (t : Tx) : result unit :=
  if bool_decide (kind_value (tx_kind t) = "transfer") then
    raise_if (negb (is_in (tx_asset t) (cw_allowed_assets r)))
      (RuleViolation ("contract wallet: asset " +:+ tx_asset t +:+ " not allowed"));;
    raise_if (negb (cw_per_tx_cap r =? 0) && (cw_per_tx_cap r <? tx_amount t))
      (RuleViolation ("contract wallet: " +:+ pretty (tx_amount t) +:+ " > on-chain per-tx cap "
                      +:+ pretty (cw_per_tx_cap r)));;
    raise_if (match cw_allowlist r with
              | [] => false
              | l => negb (match tx_to t with Some to => is_in to l | None => false end)
              end)
      (RuleViolation ("contract wallet: recipient " +:+ default "None" (tx_to t)
                      +:+ " not allowlisted"))
  else Ok tt.

Definition deploy_contract_wallet (address : string) (rules : ContractWalletRules)
    : M LocalChain unit :=
  register_rule_hook address (wallet_hook rules).

#[global] Arguments _verify_authorization : simpl never.
#[global] Arguments chain_submit : simpl never.
#[global] Arguments token_transfer : simpl never.
#[global] Arguments amm_swap : simpl never.
#[global] Arguments amm_quote : simpl never.
#[global] Arguments _execute : simpl never.
#[global] Arguments execute_transfer : simpl never.
#[global] Arguments execute_swap : simpl never.
#[global] Arguments with_token : simpl never.
