(* ===== verification/LedgerFacts.v ===== *)
(** What the local chain guarantees: conservation of every token, a solvent pool with a
    product that does not fall, authentic transactions executed once and in order, and
    the rules of contract wallets, for whatever is submitted.  The bytes a transaction is
    signed over determine it. *)
From Stdlib Require Import ZArith Lia Ascii String.
From stdpp Require Import base gmap sets list strings pretty.
From S2P Require Import Prelude Bytes Canonical CanonicalFacts Contracts ContractsFacts.
From S2P Require Import Decisions Ledger.

Open Scope Z_scope.

(** * What a digest pins *)

(** JSON text as the writer produces it: a backslash starts an escape in ASCII, and the
    numeric ones are those of control characters. *)
Inductive escaped : string → Prop :=
  | esc_nil : escaped ""
  | esc_char c s : c ≠ "\"%char → escaped s → escaped (String c s)
  | esc_pair d s : Nat.ltb (nat_of_ascii d) 127 = true → d ≠ "u"%char → escaped s →
      escaped (String "\" (String d s))
  | esc_control n s : (n < 32)%nat → escaped s →
      escaped ("\u00" +:+ hex_nibble (n / 16) +:+ hex_nibble (n mod 16) +:+ s).

(** Reading the escapes of DEL and beyond back, and nothing else. *)
Fixpoint unescape_high (s : string) : string :=
  match s with
  | String "\" (String "u" (String "0" (String "0" (String h (String l r))))) =>
      match hex_value h, hex_value l with
      | Some a, Some b =>
          if 127 <=? a * 16 + b then String (ascii_of_nat (Z.to_nat (a * 16 + b))) (unescape_high r)
          else "\u00" +:+ String h (String l (unescape_high r))
      | _, _ => ""
      end
  | String "\" (String d r) => String "\" (String d (unescape_high r))
  | String c r => String c (unescape_high r)
  | EmptyString => ""
  end.

Lemma ascii_escape_all_app a b :
  ascii_escape_all (a +:+ b) = ascii_escape_all a +:+ ascii_escape_all b.
Proof.
  induction a as [|c a IH]; [done|].
  change (ascii_escape c +:+ ascii_escape_all (a +:+ b)
          = (ascii_escape c +:+ ascii_escape_all a) +:+ ascii_escape_all b).
  by rewrite IH, str_app_assoc.
Qed.

Lemma unescape_char c r :
  c ≠ "\"%char → unescape_high (ascii_escape c +:+ r) = String c (unescape_high r).
Proof.
  intros Hc. destruct c as [[] [] [] [] [] [] [] []]; first [reflexivity|by destruct (Hc eq_refl)].
Qed.

Lemma unescape_pair d r :
  Nat.ltb (nat_of_ascii d) 127 = true → d ≠ "u"%char →
  unescape_high ("\" +:+ ascii_escape d +:+ r) = String "\" (String d (unescape_high r)).
Proof.
  intros Hd Hu. destruct d as [[] [] [] [] [] [] [] []];
    first [discriminate Hd|reflexivity|by destruct (Hu eq_refl)].
Qed.

Lemma unescape_control n r :
  (n < 32)%nat →
  unescape_high (ascii_escape_all ("\u00" +:+ hex_nibble (n / 16) +:+ hex_nibble (n mod 16)) +:+ r)
  = "\u00" +:+ hex_nibble (n / 16) +:+ hex_nibble (n mod 16) +:+ unescape_high r.
Proof. intros Hn. do 32 (destruct n as [|n]; [reflexivity|]). lia. Qed.

Lemma unescape_escaped s : escaped s → unescape_high (ascii_escape_all s) = s.
Proof.
  induction 1 as [|c s Hc Hs IH|d s Hd Hu Hs IH|n s Hn Hs IH]; [done|..].
  - cbn [ascii_escape_all]. by rewrite unescape_char, IH.
  - change (ascii_escape_all (String "\" (String d s)))
      with ("\" +:+ ascii_escape d +:+ ascii_escape_all s). by rewrite unescape_pair, IH.
  - rewrite <- !str_app_assoc, ascii_escape_all_app, !str_app_assoc, unescape_control by done.
    by rewrite IH.
Qed.

Lemma escaped_app a b : escaped a → escaped b → escaped (a +:+ b).
Proof.
  intros Ha Hb. induction Ha as [|c s Hc _ IH|d s Hd Hu _ IH|n s Hn _ IH]; [done| | |].
  - by apply (esc_char c (s +:+ b)).
  - by apply (esc_pair d (s +:+ b)).
  - rewrite !str_app_assoc. by apply (esc_control n (s +:+ b)).
Qed.

Lemma escaped_plain s : str_forallb (λ c, negb (Ascii.eqb c "\")) s = true → escaped s.
Proof.
  induction s as [|c s IH]; cbn; intros Hs; [constructor|]. prop_of_bool. destruct Hs as [Hc Hs].
  constructor; [|auto]. intros ->. done.
Qed.

Lemma json_escape_escaped c : escaped (json_escape c).
Proof.
  destruct c as [[] [] [] [] [] [] [] []];
    lazymatch goal with |- escaped (json_escape ?c) =>
      let n := eval vm_compute in (nat_of_ascii c) in
      let t := eval vm_compute in (json_escape c) in
      change (escaped t);
      first [apply esc_char; [discriminate|apply esc_nil]
            |apply esc_pair; [reflexivity|discriminate|apply esc_nil]
            |exact (esc_control n "" ltac:(lia) esc_nil)]
    end.
Qed.

Lemma json_string_escaped s : escaped (json_string s).
Proof.
  unfold json_string. apply escaped_app; [by apply escaped_plain|].
  apply escaped_app; [|by apply escaped_plain].
  induction s as [|c s IH]; cbn [json_escape_all]; [constructor|].
  apply escaped_app; [apply json_escape_escaped|done].
Qed.


Lemma json_write_escaped v : supported v = true → escaped (json_write v).
Proof.
  induction v as [|[]|z|s| |l IH|l IH|t] using pyval_ind'; intros Hs; try done;
    try (by apply escaped_plain).
  - apply escaped_plain. cbn [json_write]. pose proof (pretty_Z_numeric z) as Hz.
    revert Hz. generalize (pretty z). intros s. induction s as [|c s IH]; [done|]. cbn.
    intros [Hc Hs']%andb_true_iff. rewrite (IH Hs'), andb_true_r.
    by destruct (Ascii.eqb_spec c "\") as [->|].
  - apply json_string_escaped.
  - rewrite json_write_list. apply escaped_app; [by apply escaped_plain|].
    cbn in Hs. generalize true.
    induction IH as [|v l Hv _ IHl]; intros b; cbn [write_items]; [by apply escaped_plain|].
    cbn in Hs. apply andb_true_iff in Hs as [Hs1 Hs2].
    apply escaped_app; [destruct b; by apply escaped_plain|]. apply escaped_app; auto.
  - rewrite json_write_dict. apply escaped_app; [by apply escaped_plain|].
    cbn in Hs. generalize true.
    induction IH as [|[k v] l Hv _ IHl]; intros b; cbn [write_entries]; [by apply escaped_plain|].
    cbn in Hs, Hv. apply andb_true_iff in Hs as [[_ Hs1]%andb_true_iff Hs2].
    apply escaped_app; [destruct b; by apply escaped_plain|].
    apply escaped_app; [apply json_string_escaped|].
    apply escaped_app; [by apply escaped_plain|]. apply escaped_app; auto.
Qed.

(** The canonical bytes determine the value. *)
Lemma canonical_inj v w :
  supported v = true → supported w = true → canonical v = canonical w →
  sort_keys v = sort_keys w.
Proof.
  intros Hv Hw Heq. apply encode_inj, (f_equal unescape_high) in Heq.
  rewrite !unescape_escaped in Heq
    by (apply json_write_escaped; by rewrite sort_keys_supported).
  by apply json_dumps_inj.
Qed.

(** Transactions with the same canonical bytes say the same: everything but when they
    were submitted and how they are signed. *)
Lemma tx_canonical_inj t u :
  tx_canonical t = tx_canonical u →
  tx_kind t = tx_kind u ∧ tx_sender t = tx_sender u ∧ tx_to t = tx_to u
  ∧ tx_amount t = tx_amount u ∧ tx_asset t = tx_asset u ∧ tx_amount_in t = tx_amount_in u
  ∧ tx_token_in t = tx_token_in u ∧ tx_token_out t = tx_token_out u ∧ tx_min_out t = tx_min_out u
  ∧ tx_private t = tx_private u ∧ tx_nonce t = tx_nonce u ∧ tx_chain_id t = tx_chain_id u
  ∧ tx_deadline t = tx_deadline u ∧ tx_decision_hash t = tx_decision_hash u.
Proof.
  intros Heq. apply canonical_inj in Heq; [|by cbn; destruct (tx_to _)..].
  assert (∀ x, sort_keys (tx_payload x) = tx_payload x) as Hsort
    by (intros x; unfold tx_payload; cbn; by destruct (tx_to x)).
  rewrite !Hsort in Heq. unfold tx_payload in Heq. injection Heq as.
  assert (tx_kind t = tx_kind u) by (by destruct (tx_kind t), (tx_kind u)).
  assert (tx_to t = tx_to u) by (destruct (tx_to t), (tx_to u); congruence).
  split_and!; congruence.
Qed.

(** * Tokens *)

(** The sum of all balances. *)
Definition supply (k : TestToken) : Z := sum_values (λ _, true) (λ v, v) (tk_balances k).

(** The token after a transfer that was possible. *)
Definition moved (frm to : string) (amount : Z) (k : TestToken) : TestToken :=
  let k' := set_balances (<[frm := token_balance k frm - amount]> (tk_balances k)) k in
  set_balances (<[to := token_balance k' to + amount]> (tk_balances k')) k'.

Lemma token_transfer_cases frm to amount k :
  token_transfer frm to amount k =
    if amount <=? 0 then (k, Err (RuleViolation "non-positive transfer"))
    else if token_balance k frm <? amount
    then (k, Err (InsufficientFunds
           (frm +:+ " has " +:+ pretty (token_balance k frm) +:+ " < " +:+ pretty amount)))
    else (moved frm to amount k, Ok tt).
Proof.
  unfold token_transfer, token_debit, mbind, M_bind, self, lift, update.
  destruct (Z.leb_spec amount 0) as [|Hpos]; [done|]. cbn [raise_if].
  destruct (Z.ltb_spec (token_balance k frm) amount) as [|Hhas]; [done|]. cbn [raise_if].
  unfold moved, token_balance in *. destruct (tk_balances k !! frm) as [held|]; cbn in *; [done|lia].
Qed.

Lemma balance_insert k addr v x :
  token_balance (set_balances (<[addr := v]> (tk_balances k)) k) x
  = if bool_decide (x = addr) then v else token_balance k x.
Proof.
  unfold token_balance, set_balances; cbn. case_bool_decide as Hx.
  - by rewrite Hx, lookup_insert_eq.
  - by rewrite lookup_insert_ne.
Qed.

Lemma moved_balance frm to amount k x :
  token_balance (moved frm to amount k) x
  = token_balance k x - (if bool_decide (x = frm) then amount else 0)
    + (if bool_decide (x = to) then amount else 0).
Proof.
  unfold moved. cbv zeta. rewrite !balance_insert.
  repeat case_bool_decide; subst; try lia; try done.
Qed.

Lemma supply_insert k addr v :
  supply (set_balances (<[addr := v]> (tk_balances k)) k) = supply k - token_balance k addr + v.
Proof.
  unfold supply, token_balance; cbn. destruct (tk_balances k !! addr) as [held|] eqn:Hheld.
  - by rewrite (sum_values_update _ _ _ _ held v Hheld).
  - rewrite sum_values_insert by done. unfold term. cbn. lia.
Qed.

Lemma moved_supply frm to amount k : supply (moved frm to amount k) = supply k.
Proof. unfold moved. cbv zeta. rewrite !supply_insert. lia. Qed.

Definition solvent (k : TestToken) : Prop := ∀ x, 0 ≤ token_balance k x.

Lemma moved_solvent frm to amount k :
  solvent k → 0 < amount ≤ token_balance k frm → solvent (moved frm to amount k).
Proof.
  intros Hk Ha x. rewrite moved_balance. specialize (Hk x) as Hx.
  repeat case_bool_decide; subst; lia.
Qed.

(** * The pool *)

Lemma quote_bounds p token_in amount_in out rin rout :
  (if bool_decide (token_in = "TUSDC") then (amm_a p, amm_b p) else (amm_b p, amm_a p))
    = (rin, rout) →
  0 < rin → 0 < rout → 0 < amount_in → amm_quote p token_in amount_in = Ok out →
  0 ≤ out < rout ∧ rin * rout ≤ (rin + amount_in) * (rout - out).
Proof.
  unfold amm_quote, FEE_BPS. intros -> Hin Hout Ha Hq. ok_inv Hq. injection Hq as <-.
  set (eff := amount_in * (10000 - 30)). set (d := rin * 10000 + eff).
  assert (0 < eff ≤ amount_in * 10000) by (unfold eff; lia).
  assert (0 < d) by (unfold d; lia).
  set (q := eff * rout / d). pose proof (Z.div_mod (eff * rout) d ltac:(lia)) as Hdm.
  pose proof (Z.mod_pos_bound (eff * rout) d ltac:(lia)) as Hm. fold q in Hdm.
  assert (d * q ≤ eff * rout) as Hle by lia.
  assert (0 ≤ q) by (apply Z.div_pos; nia).
  assert (q < rout) as Hlt. { apply Z.div_lt_upper_bound; [lia|]. unfold d. nia. }
  split; [lia|].
  assert (rin * 10000 * q ≤ eff * (rout - q)) by (unfold d in Hle; lia).
  assert (eff * (rout - q) ≤ amount_in * 10000 * (rout - q)) by (apply Z.mul_le_mono_nonneg_r; lia).
  nia.
Qed.

(** What [amm_swap] does on every branch. *)
Lemma amm_swap_Ok token_in amount_in min_out p p' out :
  amm_swap token_in amount_in min_out p = (p', Ok out) →
  amm_quote p token_in amount_in = Ok out ∧ min_out ≤ out ∧
  p' = if bool_decide (token_in = "TUSDC")
       then {| amm_a := amm_a p + amount_in; amm_b := amm_b p - out |}
       else {| amm_a := amm_a p - out; amm_b := amm_b p + amount_in |}.
Proof.
  unfold amm_swap, mbind, M_bind, self, lift, update. destruct (amm_quote p token_in amount_in);
    [|done].
  destruct (Z.ltb_spec a min_out); cbn; [done|]. by intros [= <- <-].
Qed.

Lemma amm_swap_Err token_in amount_in min_out p p' e :
  amm_swap token_in amount_in min_out p = (p', Err e) → p' = p.
Proof.
  unfold amm_swap, mbind, M_bind, self, lift, update. destruct (amm_quote p token_in amount_in).
  - destruct (Z.ltb_spec a min_out); cbn; by intros [= <-].
  - by intros [= <-].
Qed.

Lemma amm_swap_raises token_in amount_in min_out p p' out e :
  amm_quote p token_in amount_in = Ok out →
  amm_swap token_in amount_in min_out p = (p', Err e) → catches_revert e = true.
Proof.
  intros Hq. unfold amm_swap, mbind, M_bind, self, lift, update. rewrite Hq.
  destruct (out <? min_out); [by intros [= <- <-]|done].
Qed.

(** * What executing a transaction can do to the chain *)

Definition move_on (asset frm to : string) (amount : Z) (k : TestToken) (c : LocalChain)
    : LocalChain :=
  set_tokens (<[asset := moved frm to amount k]> (lc_tokens c)) c.

Lemma set_tokens_same c asset k :
  lc_tokens c !! asset = Some k → set_tokens (<[asset := k]> (lc_tokens c)) c = c.
Proof. intros Hk. rewrite insert_id by done. by destruct c. Qed.

Lemma chain_transfer_cases asset frm to amount c :
  with_token asset (token_transfer frm to amount) c =
    match lc_tokens c !! asset with
    | None => (c, Err (KeyError asset))
    | Some k =>
        if amount <=? 0 then (c, Err (RuleViolation "non-positive transfer"))
        else if token_balance k frm <? amount
        then (c, Err (InsufficientFunds
               (frm +:+ " has " +:+ pretty (token_balance k frm) +:+ " < " +:+ pretty amount)))
        else (move_on asset frm to amount k c, Ok tt)
    end.
Proof.
  unfold with_token, mbind, M_bind, self, lift, zoom.
  destruct (lc_tokens c !! asset) as [k|] eqn:Hk; cbn [or_raise]; [|done].
  rewrite token_transfer_cases. case_tests; [by rewrite set_tokens_same..|done].
Qed.

Definition balance_of (c : LocalChain) (asset addr : string) : Z :=
  match lc_tokens c !! asset with Some k => token_balance k addr | None => 0 end.

(** The pool's new reserves after a quote of [out]. *)
Definition swapped (t : Tx) (out : Z) (c : LocalChain) : LocalChain :=
  set_amm (if bool_decide (tx_token_in t = "TUSDC")
           then {| amm_a := amm_a (lc_amm c) + tx_amount_in t; amm_b := amm_b (lc_amm c) - out |}
           else {| amm_a := amm_a (lc_amm c) - out; amm_b := amm_b (lc_amm c) + tx_amount_in t |})
    c.

(** The changes of tokens and reserves an execution can leave behind: none, the transfer,
    the whole swap, or the part of a swap done before it was refused. *)
Inductive effect (t : Tx) (c : LocalChain) : LocalChain → bool → Prop :=
  | eff_none : effect t c c false
  | eff_transfer to k :
      tx_kind t = TRANSFER → tx_to t = Some to → lc_tokens c !! tx_asset t = Some k →
      0 < tx_amount t ≤ token_balance k (tx_sender t) →
      effect t c (move_on (tx_asset t) (tx_sender t) to (tx_amount t) k c) true
  | eff_reserves out :
      tx_kind t = SWAP → amm_quote (lc_amm c) (tx_token_in t) (tx_amount_in t) = Ok out →
      tx_amount_in t ≤ 0 →
      effect t c (swapped t out c) false
  | eff_input out k :
      tx_kind t = SWAP → amm_quote (lc_amm c) (tx_token_in t) (tx_amount_in t) = Ok out →
      lc_tokens c !! tx_token_in t = Some k →
      0 < tx_amount_in t ≤ token_balance k (tx_sender t) →
      out ≤ 0 ∨ balance_of (move_on (tx_token_in t) (tx_sender t) POOL (tx_amount_in t) k c)
                  (tx_token_out t) POOL < out →
      effect t c
        (move_on (tx_token_in t) (tx_sender t) POOL (tx_amount_in t) k (swapped t out c)) false
  | eff_swap out k c1 k' :
      tx_kind t = SWAP → amm_quote (lc_amm c) (tx_token_in t) (tx_amount_in t) = Ok out →
      tx_min_out t ≤ out →
      lc_tokens c !! tx_token_in t = Some k →
      0 < tx_amount_in t ≤ token_balance k (tx_sender t) →
      c1 = move_on (tx_token_in t) (tx_sender t) POOL (tx_amount_in t) k (swapped t out c) →
      lc_tokens c1 !! tx_token_out t = Some k' → 0 < out ≤ token_balance k' POOL →
      effect t c (move_on (tx_token_out t) POOL (tx_sender t) out k' c1) true.

Lemma execute_transfer_effect t c c' r :
  tx_kind t = TRANSFER → execute_transfer t c = (c', r) → effect t c c' (is_ok r).
Proof.
  intros Hkind. unfold execute_transfer, mbind, M_bind, lift.
  destruct (tx_to t) as [to|] eqn:Hto; cbn [or_raise]; [|intros [= <- <-]; constructor].
  rewrite chain_transfer_cases. destruct (lc_tokens c !! tx_asset t) as [k|] eqn:Hk;
    [|intros [= <- <-]; constructor].
  destruct (Z.leb_spec (tx_amount t) 0); [intros [= <- <-]; constructor|].
  destruct (Z.ltb_spec (token_balance k (tx_sender t)) (tx_amount t));
    intros [= <- <-]; [constructor|]. by eapply eff_transfer.
Qed.

Lemma execute_swap_effect t c c' r :
  tx_kind t = SWAP → execute_swap t c = (c', r) → effect t c c' (is_ok r).
Proof.
  intros Hkind. unfold execute_swap.
  unfold mbind at 1, M_bind at 1, self, lift at 1; cbn beta iota.
  unfold mbind at 1, M_bind at 1.
  destruct (lc_tokens c !! tx_token_in t) as [k|] eqn:Hk; cbn [or_raise];
    [|intros [= <- <-]; constructor].
  unfold mbind at 1, M_bind at 1, lift at 1.
  destruct (lc_tokens c !! tx_token_out t) as [ko|] eqn:Hko; cbn [or_raise];
    [|intros [= <- <-]; constructor].
  unfold mbind at 1, M_bind at 1, lift at 1.
  destruct (Z.ltb_spec (token_balance k (tx_sender t)) (tx_amount_in t)); cbn [raise_if];
    [intros [= <- <-]; constructor|].
  unfold mbind at 1, M_bind at 1, zoom.
  destruct (amm_swap _ _ _ (lc_amm c)) as [p' [out|e]] eqn:Hswap; last first.
  { apply amm_swap_Err in Hswap as ->. intros [= <- <-]. destruct c; constructor. }
  apply amm_swap_Ok in Hswap as (Hq & Hmin & Hp').
  replace (set_amm p' c) with (swapped t out c) by (unfold swapped; by rewrite Hp'). clear Hp' p'.
  unfold mbind at 1, M_bind at 1. rewrite chain_transfer_cases.
  change (lc_tokens (swapped t out c)) with (lc_tokens c). rewrite Hk.
  destruct (Z.leb_spec (tx_amount_in t) 0); [intros [= <- <-]; by apply eff_reserves|].
  destruct (Z.ltb_spec (token_balance k (tx_sender t)) (tx_amount_in t)); [lia|].
  unfold mbind at 1, M_bind at 1. rewrite chain_transfer_cases.
  set (c1 := move_on _ _ _ _ _ (swapped t out c)).
  destruct (lc_tokens c1 !! tx_token_out t) as [k'|] eqn:Hk'; last first.
  { exfalso. unfold c1, move_on in Hk'. cbn in Hk'. apply lookup_insert_None in Hk' as [Hk' _].
    congruence. }
  assert (balance_of (move_on (tx_token_in t) (tx_sender t) POOL (tx_amount_in t) k c)
            (tx_token_out t) POOL = token_balance k' POOL) as Hbal.
  { unfold balance_of. change (lc_tokens (move_on _ _ _ _ _ c)) with (lc_tokens c1).
    by rewrite Hk'. }
  destruct (Z.leb_spec out 0); [intros [= <- <-]; eapply eff_input; eauto|].
  destruct (Z.ltb_spec (token_balance k' POOL) out); intros [= <- <-].
  - eapply eff_input; eauto. rewrite Hbal. by right.
  - by eapply eff_swap.
Qed.

(** The same tokens and reserves. *)
Definition same_funds (c c' : LocalChain) : Prop :=
  lc_tokens c' = lc_tokens c ∧ lc_amm c' = lc_amm c.

(** The fields an execution does not touch. *)
Definition same_rest (c c' : LocalChain) : Prop :=
  lc_mempool c' = lc_mempool c ∧ lc_blocks c' = lc_blocks c ∧ lc_clock c' = lc_clock c ∧
  lc_chain_id c' = lc_chain_id c ∧ lc_next_nonces c' = lc_next_nonces c ∧
  lc_rule_hooks c' = lc_rule_hooks c.

Lemma effect_rest t c c' done : effect t c c' done → same_rest c c'.
Proof. destruct 1; subst; by unfold same_rest. Qed.

Definition execute_body (t : Tx) : M LocalChain Receipt :=
  match tx_kind t with TRANSFER => execute_transfer t | SWAP => execute_swap t end.

Lemma execute_body_effect t c c' r : execute_body t c = (c', r) → effect t c c' (is_ok r).
Proof.
  unfold execute_body. destruct (tx_kind t) eqn:Hk;
    [by apply execute_transfer_effect|by apply execute_swap_effect].
Qed.

Lemma execute_body_receipt t c c' rc :
  execute_body t c = (c', Ok rc) → rc_tx rc = t ∧ rc_success rc = true.
Proof.
  unfold execute_body. destruct (tx_kind t); unfold execute_transfer, execute_swap; intros Hb;
    m_inv Hb; by apply mret_Ok in Hb as [_ ->].
Qed.

(** What [_execute] does, whether it returns a receipt or lets an exception through. *)
Lemma execute_effect t c c' r :
  _execute t c = (c', r) →
  ∃ c1 done, effect t c c1 done ∧ same_funds c1 c' ∧ same_rest c c' ∧
    ∀ rc, r = Ok rc → rc_tx rc = t ∧ rc_success rc = done ∧
      (done = true → ∀ hook, lc_rule_hooks c !! tx_sender t = Some hook → hook t = Ok tt).
Proof.
  unfold _execute, try_m. intros He. destruct ((run_hook t;; _) c) as [c1 r1] eqn:Hb.
  assert (∃ u, run_hook t c = (c, u)) as [u Hu].
  { unfold run_hook, mbind, M_bind, self, lift. destruct (lc_rule_hooks c !! _); by eexists. }
  unfold mbind at 1, M_bind at 1 in Hb. rewrite Hu in Hb.
  assert (effect t c c1 (is_ok r1)) as Heff.
  { destruct u; [by apply execute_body_effect in Hb|]. injection Hb as <- <-. constructor. }
  exists c1, (is_ok r1). split; [done|].
  destruct r1 as [rc|e].
  - injection He as <- <-. repeat split; try apply (effect_rest _ _ _ _ Heff);
      intros; simplify_eq; destruct u as [[]|]; try discriminate.
    + by apply execute_body_receipt in Hb as [].
    + by apply execute_body_receipt in Hb as [].
    + revert Hu. unfold run_hook, mbind, M_bind, self, lift.
      match goal with H : lc_rule_hooks c !! _ = _ |- _ => rewrite H end. by intros [= ->].
  - destruct (catches_revert e); injection He as <- <-;
      repeat split; try apply (effect_rest _ _ _ _ Heff); intros; by simplify_eq.
Qed.

(** * Runs of the chain *)

(** Everything that is done to a chain: funding accounts, submitting to the mempool,
    sealing a block, registering contract wallets, and the direct token transfer with
    which a facilitator settles a payment.  An operation that raises is a step too. *)
Inductive chain_op :=
  | OpMint (asset addr : string) (amount : Z)
  | OpSubmit (t : Tx)
  | OpMine
  | OpHook (addr : string) (hook : Tx → result unit)
  | OpPay (asset frm to : string) (amount : Z).

Section runs.
Context `{!Externals}.

Definition run_op (o : chain_op) (c : LocalChain) : LocalChain :=
  match o with
  | OpMint asset addr amount => fst (chain_mint asset addr amount c)
  | OpSubmit t => fst (chain_submit t c)
  | OpMine => fst (mine_block c)
  | OpHook addr hook => fst (register_rule_hook addr hook c)
  | OpPay asset frm to amount => fst (with_token asset (token_transfer frm to amount) c)
  end.

Definition run_ops (os : list chain_op) (c : LocalChain) : LocalChain :=
  foldl (λ c o, run_op o c) c os.

(** [submit] either raises and changes nothing, or appends to the mempool. *)
Lemma chain_submit_cases t c :
  chain_submit t c =
    match _verify_authorization c t with
    | Ok _ =>
        let key := str_lower (tx_sender t) in
        (set_nonces (<[key := next_nonce c key + 1]> (lc_next_nonces c))
           (set_mempool (lc_mempool c ++ [set_submitted_at (lc_clock c) t]) c), Ok tt)
    | Err e => (c, Err e)
    end.
Proof.
  unfold chain_submit, mbind, M_bind, self, lift, update.
  by destruct (_verify_authorization c t).
Qed.

(** ** Properties of the funds that executions keep *)

Lemma execute_all_cons t pending c :
  execute_all (t :: pending) c =
    match _execute t c with
    | (c1, Ok rc) =>
        match execute_all pending c1 with
        | (c2, Ok rs) => (c2, Ok (rc :: rs))
        | (c2, Err e) => (c2, Err e)
        end
    | (c1, Err e) => (c1, Err e)
    end.
Proof. reflexivity. Qed.

Lemma execute_all_keeps (P : LocalChain → Prop) (Q : Tx → Prop) pending c :
  (∀ t c c' done, Q t → P c → effect t c c' done → P c') →
  (∀ c c', P c → same_funds c c' → P c') →
  Forall Q pending → P c → P (fst (execute_all pending c)).
Proof.
  intros Heff Hsame. revert c. induction pending as [|t pending IH]; intros c Hq Hc; [done|].
  apply Forall_cons in Hq as [Ht Hq]. rewrite execute_all_cons. destruct (_execute t c) as [c1 r] eqn:He.
  pose proof (execute_effect _ _ _ _ He) as (c2 & done & Heffect & Hfunds & _).
  assert (P c1) as Hc1 by eauto. destruct r as [rc|e]; [|done].
  specialize (IH c1 Hq Hc1).
  destruct (execute_all pending c1) as [c3 [rs|e]]; exact IH.
Qed.

Lemma mine_keeps (P : LocalChain → Prop) (Q : Tx → Prop) c :
  (∀ t c c' done, Q t → P c → effect t c c' done → P c') →
  (∀ c c', P c → same_funds c c' → P c') →
  Forall Q (lc_mempool c) → P c → P (fst (mine_block c)).
Proof.
  intros Heff Hsame Hq Hc. unfold mine_block, mbind, M_bind, read, update. cbn beta iota.
  pose proof (execute_all_keeps P Q (lc_mempool c) (set_mempool [] c) Heff Hsame Hq
    ltac:(by eapply Hsame)) as Hall.
  destruct (execute_all _ _) as [c1 [rs|e]]; cbn in *; [|done]. by eapply Hsame.
Qed.

(** ** Conservation *)

Definition total (c : LocalChain) (asset : string) : Z :=
  match lc_tokens c !! asset with Some k => supply k | None => 0 end.

(** What a sequence of operations minted of an asset. *)
Definition minted (asset : string) (os : list chain_op) : Z :=
  foldr (λ o acc, match o with
                  | OpMint a _ n => (if bool_decide (a = asset) then n else 0) + acc
                  | _ => acc
                  end) 0 os.

Definition mints_positive (os : list chain_op) : Prop :=
  Forall (λ o, match o with OpMint _ _ n => 0 ≤ n | _ => True end) os.

(** The funds of every account of every token are not negative and the totals of the
    tokens, the same tokens as before, are [sup]. *)
Definition funds (sup : string → option Z) (c : LocalChain) : Prop :=
  ∀ asset, supply <$> lc_tokens c !! asset = sup asset ∧
    ∀ k, lc_tokens c !! asset = Some k → solvent k.

Lemma funds_move sup asset frm to amount k c :
  lc_tokens c !! asset = Some k → 0 < amount ≤ token_balance k frm →
  funds sup c → funds sup (move_on asset frm to amount k c).
Proof.
  intros Hk Ha Hf a. destruct (Hf a) as [Hs Hsol]. unfold move_on; cbn.
  destruct (decide (a = asset)) as [->|]; [|by rewrite lookup_insert_ne by done].
  rewrite lookup_insert_eq. rewrite Hk in Hs. split; [by rewrite <- Hs; cbn; rewrite moved_supply|].
  intros k' [= <-]. apply moved_solvent; auto.
Qed.

Lemma funds_effect sup t c c' done : funds sup c → effect t c c' done → funds sup c'.
Proof.
  intros Hf Heff. destruct Heff; subst; try done; repeat (eapply funds_move; eauto).
Qed.

Lemma funds_mint sup asset addr amount k c :
  lc_tokens c !! asset = Some k → 0 ≤ amount → funds sup c →
  funds (λ a, if bool_decide (a = asset) then Some (supply k + amount) else sup a)
    (fst (chain_mint asset addr amount c)).
Proof.
  intros Hk Ha Hf a. unfold chain_mint, with_token, mbind, M_bind, self, lift, zoom.
  rewrite Hk. cbn. destruct (Hf a) as [Hs Hsol]. case_bool_decide as Heq.
  - subst a. rewrite lookup_insert_eq. cbn. rewrite supply_insert. split; [f_equal; lia|].
    intros k' [= <-] x. rewrite balance_insert. specialize (Hsol k Hk).
    pose proof (Hsol addr). pose proof (Hsol x). case_bool_decide; lia.
  - by rewrite lookup_insert_ne by done.
Qed.

(** One operation other than minting keeps the funds. *)
Lemma run_op_funds sup o c :
  match o with OpMint _ _ _ => False | _ => True end → funds sup c → funds sup (run_op o c).
Proof.
  intros Ho Hf. destruct o as [|t| |addr hook|asset frm to amount]; cbn [run_op]; try done.
  - rewrite chain_submit_cases. by destruct (_verify_authorization c t).
  - apply (mine_keeps _ (λ _, True)); [|by intros c1 c2 Hc [H1 H2] a; rewrite H1|by apply Forall_true|done].
    intros; by eapply funds_effect.
  - rewrite chain_transfer_cases. destruct (lc_tokens c !! asset) as [k|] eqn:Hk; [|done].
    destruct (Z.leb_spec amount 0); [done|]. destruct (Z.ltb_spec (token_balance k frm) amount); [done|].
    by apply funds_move.
Qed.

Definition pair_supply (x y : Z) (asset : string) : option Z :=
  if bool_decide (asset = "TUSDC") then Some x
  else if bool_decide (asset = "DRB") then Some y else None.

Lemma pair_funds_mint x y asset addr amount c :
  0 ≤ amount → funds (pair_supply x y) c →
  funds (pair_supply (x + minted "TUSDC" [OpMint asset addr amount])
                     (y + minted "DRB" [OpMint asset addr amount]))
    (fst (chain_mint asset addr amount c)).
Proof.
  intros Ha Hf. destruct (lc_tokens c !! asset) as [k|] eqn:Hk.
  - pose proof (funds_mint _ asset addr amount k c Hk Ha Hf) as Hf'.
    destruct (Hf asset) as [Hs _]. rewrite Hk in Hs. cbn in Hs. unfold pair_supply in Hs.
    intros a. destruct (Hf' a) as [Hs' Hsol]. split; [|done]. rewrite Hs'. unfold pair_supply.
    cbn. repeat case_bool_decide; subst; try done; f_equal; simplify_eq; lia.
  - unfold chain_mint, with_token, mbind, M_bind, self, lift. rewrite Hk. cbn [or_raise fst].
    destruct (Hf asset) as [Hs _]. rewrite Hk in Hs. unfold pair_supply in Hs. cbn in Hs.
    intros a. destruct (Hf a) as [Hs' Hsol]. split; [|done]. rewrite Hs'. unfold pair_supply.
    cbn. repeat case_bool_decide; subst; try done; f_equal; lia.
Qed.

Lemma run_ops_funds x y os c :
  mints_positive os → funds (pair_supply x y) c →
  funds (pair_supply (x + minted "TUSDC" os) (y + minted "DRB" os)) (run_ops os c).
Proof.
  intros Hm. revert x y c. induction Hm as [|o os Ho Hm IH]; intros x y c Hf.
  { cbn. by rewrite !Z.add_0_r. }
  change (run_ops (o :: os) c) with (run_ops os (run_op o c)).
  destruct o as [asset addr amount| | | |].
  { pose proof (IH _ _ _ (pair_funds_mint x y asset addr amount c Ho Hf)) as Hr.
    cbn [minted foldr] in Hr |- *. rewrite !Z.add_0_r, <- !Z.add_assoc in Hr. exact Hr. }
  all: cbn [minted foldr]; apply IH; by apply run_op_funds.
Qed.

Lemma minted_token symbol addr amount :
  0 ≤ amount →
  let k := fst (token_mint addr amount (TestToken_init symbol)) in
  supply k = amount ∧ solvent k ∧ token_balance k addr = amount.
Proof.
  intros Ha k. unfold k, token_mint, update. cbn [fst]. split; [|split].
  - by rewrite supply_insert.
  - intros x. rewrite balance_insert. case_bool_decide; [|done].
    change (token_balance (TestToken_init symbol) addr) with 0. lia.
  - rewrite balance_insert, bool_decide_true by done. done.
Qed.

Lemma init_funds a b chain_id c :
  LocalChain_init a b chain_id = Ok c → 0 < a ∧ 0 < b ∧ funds (pair_supply a b) c.
Proof.
  unfold LocalChain_init, AMM_init. intros Hc. ok_invs. prop_of_bool.
  match goal with H : 0 < a ∧ 0 < b |- _ => destruct H as [Ha Hb] end.
  destruct (minted_token "TUSDC" POOL a) as (Hs & Hsol & _); [lia|].
  destruct (minted_token "DRB" POOL b) as (Hs' & Hsol' & _); [lia|].
  split; [done|]. split; [done|]. intros asset. unfold pair_supply. cbn [lc_tokens].
  case_bool_decide as H1; [subst asset|case_bool_decide as H2; [subst asset|]].
  - rewrite lookup_insert_eq. split; [exact (f_equal Some Hs)|]. by intros k [= <-].
  - rewrite lookup_insert_ne, lookup_singleton_eq by done.
    split; [exact (f_equal Some Hs')|]. by intros k [= <-].
  - rewrite lookup_insert_ne, lookup_singleton_ne by congruence. by split.
Qed.

(** C35: money is neither made nor lost.  After any sequence of operations on a fresh chain
    — submissions of arbitrary transactions, blocks with failing transactions, contract
    wallets with arbitrary rules, facilitator payments, whether they return or raise — the
    total of each token is what the pool was funded with plus what was minted, and no
    account of any token is negative. *)
Theorem tokens_conserved a b chain_id c0 os :
  LocalChain_init a b chain_id = Ok c0 → mints_positive os →
  let c := run_ops os c0 in
  total c "TUSDC" = a + minted "TUSDC" os ∧ total c "DRB" = b + minted "DRB" os ∧
  ∀ asset addr, 0 ≤ balance_of c asset addr.
Proof.
  intros Hinit Hm c. apply init_funds in Hinit as (_ & _ & Hf).
  pose proof (run_ops_funds a b os c0 Hm Hf) as Hr. fold c in Hr. unfold total, balance_of.
  split; [|split].
  - destruct (Hr "TUSDC") as [Hs _].
    change (pair_supply _ _ "TUSDC") with (Some (a + minted "TUSDC" os)) in Hs.
    destruct (lc_tokens c !! "TUSDC"); [by injection Hs|discriminate].
  - destruct (Hr "DRB") as [Hs _].
    change (pair_supply _ _ "DRB") with (Some (b + minted "DRB" os)) in Hs.
    destruct (lc_tokens c !! "DRB"); [by injection Hs|discriminate].
  - intros asset addr. destruct (Hr asset) as [_ Hsol].
    destruct (lc_tokens c !! asset) as [k|]; [|done]. by apply Hsol.
Qed.

(** ** The pool *)

(** A transaction on the chain's own assets; a swap of a positive amount of one side of
    the pair for the other. *)
Definition fair_tx (t : Tx) : Prop :=
  match tx_kind t with
  | TRANSFER => tx_asset t = "TUSDC" ∨ tx_asset t = "DRB"
  | SWAP => 0 < tx_amount_in t ∧
      ((tx_token_in t = "TUSDC" ∧ tx_token_out t = "DRB") ∨
       (tx_token_in t = "DRB" ∧ tx_token_out t = "TUSDC"))
  end.

Definition product (c : LocalChain) : Z := amm_a (lc_amm c) * amm_b (lc_amm c).

(** The reserves are positive, backed by the tokens of the pool account, and their
    product is at least [k]. *)
Record pool_ok (k : Z) (c : LocalChain) : Prop := {
  po_a : 0 < amm_a (lc_amm c) ≤ balance_of c "TUSDC" POOL;
  po_b : 0 < amm_b (lc_amm c) ≤ balance_of c "DRB" POOL;
  po_product : k ≤ product c;
}.

Lemma balance_move asset frm to amount k c a x :
  lc_tokens c !! asset = Some k →
  balance_of (move_on asset frm to amount k c) a x
  = balance_of c a x
    + if bool_decide (a = asset)
      then (if bool_decide (x = to) then amount else 0) - (if bool_decide (x = frm) then amount else 0)
      else 0.
Proof.
  intros Hk. unfold balance_of, move_on; cbn. case_bool_decide as Ha.
  - subst a. rewrite lookup_insert_eq, Hk, moved_balance. lia.
  - rewrite lookup_insert_ne by done. lia.
Qed.

Lemma pool_ok_same k c c' : pool_ok k c → same_funds c c' → pool_ok k c'.
Proof.
  intros [Ha Hb Hp] [Ht Hm]. unfold product, balance_of in *. split; unfold product, balance_of; by rewrite ?Ht, ?Hm.
Qed.

Lemma quote_pool k c t out :
  pool_ok k c → fair_tx t → tx_kind t = SWAP →
  amm_quote (lc_amm c) (tx_token_in t) (tx_amount_in t) = Ok out →
  0 ≤ out ∧ 0 < amm_a (lc_amm (swapped t out c)) ∧ 0 < amm_b (lc_amm (swapped t out c)) ∧
  k ≤ product (swapped t out c).
Proof.
  intros [Ha Hb Hp] Hfair Hkind Hq. unfold fair_tx in Hfair. rewrite Hkind in Hfair.
  destruct Hfair as [Hpos Htok]. unfold product, swapped in *.
  destruct Htok as [[Hin _]|[Hin _]]; rewrite Hin in *;
    [rewrite bool_decide_true by done|rewrite bool_decide_false by done]; cbn [lc_amm set_amm amm_a amm_b].
  - destruct (quote_bounds (lc_amm c) "TUSDC" (tx_amount_in t) out
      (amm_a (lc_amm c)) (amm_b (lc_amm c))) as [Hb1 Hb2]; try lia; auto.
  - destruct (quote_bounds (lc_amm c) "DRB" (tx_amount_in t) out
      (amm_b (lc_amm c)) (amm_a (lc_amm c))) as [Hb1 Hb2]; try lia; auto.
Qed.

(** Moving tokens into the pool, or around it, keeps it backed. *)
Lemma pool_ok_move k asset frm to amount tok c :
  lc_tokens c !! asset = Some tok → 0 < amount → frm ≠ POOL →
  pool_ok k c → pool_ok k (move_on asset frm to amount tok c).
Proof.
  intros Htok Ha Hfrm [Hpa Hpb Hp]. split; rewrite ?balance_move by done; cbn [lc_amm move_on set_tokens].
  - rewrite (bool_decide_false (POOL = frm)) by congruence. repeat case_bool_decide; lia.
  - rewrite (bool_decide_false (POOL = frm)) by congruence. repeat case_bool_decide; lia.
  - exact Hp.
Qed.

(** The arithmetic of the pool's account and reserves, on either side of the pair. *)
Ltac solve_pool Hfair Hra Hrb :=
  revert Hra Hrb; unfold swapped, balance_of in *;
  cbn [lc_amm lc_tokens set_amm move_on set_tokens];
  destruct Hfair as [_ [[Hin Hto]|[Hin Hto]]]; rewrite ?Hin, ?Hto; eval_tests;
  cbn [lc_amm lc_tokens set_amm amm_a amm_b]; lia.

Lemma pool_ok_effect k t c c' done :
  fair_tx t → tx_sender t ≠ POOL → pool_ok k c → effect t c c' done → pool_ok k c'.
Proof.
  intros Hfair Hpool Hc Heff.
  destruct Heff as [|to tok Hkind Hto Htok Ha|out Hkind Hq Ha|out tok Hkind Hq Htok Ha Hout
                   |out tok c1 tok' Hkind Hq Hmin Htok Ha Hc1 Htok' Hout]; [done| | | |].
  - apply pool_ok_move; try done; lia.
  - exfalso. unfold fair_tx in Hfair. rewrite Hkind in Hfair. lia.
  - (* the quote was zero: the pool keeps the input *)
    destruct (quote_pool k c t out Hc Hfair Hkind Hq) as (Hpos & Hra & Hrb & Hprod).
    destruct Hc as [Hpa Hpb _]. unfold fair_tx in Hfair. rewrite Hkind in Hfair.
    assert (out = 0) as ->.
    { destruct Hout as [Hout|Hout]; [lia|exfalso]. rewrite balance_move in Hout by done.
      rewrite (bool_decide_false (POOL = tx_sender t)) in Hout by congruence.
      revert Hout Hra Hrb. unfold swapped.
      destruct Hfair as [_ [[Hin Hto]|[Hin Hto]]]; rewrite Hin, Hto; eval_tests;
        cbn [lc_amm set_amm amm_a amm_b]; lia. }
    split; rewrite ?balance_move by (first [exact Htok|exact Htok']); [| |exact Hprod];
      (rewrite (bool_decide_false (POOL = tx_sender t)) by congruence); solve_pool Hfair Hra Hrb.
  - destruct (quote_pool k c t out Hc Hfair Hkind Hq) as (Hpos & Hra & Hrb & Hprod).
    destruct Hc as [Hpa Hpb _]. unfold fair_tx in Hfair. rewrite Hkind in Hfair. subst c1.
    split; rewrite ?balance_move by (first [exact Htok|exact Htok']); [| |exact Hprod];
      (rewrite (bool_decide_false (POOL = tx_sender t)) by congruence); solve_pool Hfair Hra Hrb.
Qed.

(** ** Authorization *)

(** Signed by the key of its sender over its exact payload, and bound to a decision. *)
Definition authentic (t : Tx) : Prop :=
  ∃ pub sig, fromhex (tx_public_key_hex t) = Some pub ∧ length pub = 32%nat ∧
    fromhex (tx_signature_hex t) = Some sig ∧
    (address_of pub = str_lower (tx_sender t) ∨ address_of pub = tx_sender t) ∧
    verify pub (tx_digest t) sig = true ∧ tx_decision_hash t ≠ "".

Lemma verify_with_address_true address msg sig pub :
  verify_with_address address msg sig pub = true ↔
  (address_of pub = str_lower address ∨ address_of pub = address) ∧ verify pub msg sig = true.
Proof.
  unfold verify_with_address. do 2 case_bool_decide; cbn; naive_solver.
Qed.

Lemma verify_authorization_Ok c t u :
  _verify_authorization c t = Ok u →
  authentic t ∧ tx_chain_id t = lc_chain_id c ∧ lc_clock c ≤ tx_deadline t ∧
  tx_nonce t = next_nonce c (tx_sender t).
Proof.
  unfold _verify_authorization. intros Hv. ok_invs. prop_of_bool.
  match goal with H : option_bind _ _ _ _ = Some ?p |- _ => rename H into Hpub, p into pub
  | H : _ ≫= _ = Some ?p |- _ => rename H into Hpub, p into pub end.
  apply bind_Some in Hpub as (raw & Hraw & Hpub). unfold from_public_bytes in Hpub.
  case_bool_decide as Hlen; [|done]. simplify_eq.
  match goal with H : verify_with_address _ _ _ _ = true |- _ =>
    apply verify_with_address_true in H as [Haddr Hsig] end.
  split; [|done]. eexists pub, _. split_and!; try done.
  match goal with H : str_truthy (tx_decision_hash t) = true |- _ =>
    by apply bool_decide_eq_true in H end.
Qed.

Lemma authentic_sender t : authentic t → tx_sender t ≠ POOL.
Proof.
  intros (pub & sig & _ & _ & _ & Haddr & _) Heq. rewrite Heq in Haddr.
  unfold address_of in Haddr. by destruct Haddr.
Qed.

(** The pool's account belongs to no key and facilitators pay from the payer's account. *)
Definition fair_op (o : chain_op) : Prop :=
  match o with
  | OpMint _ _ n => 0 ≤ n
  | OpSubmit t => fair_tx t
  | OpPay _ frm _ _ => frm ≠ POOL
  | OpMine | OpHook _ _ => True
  end.

Definition pool_run_ok (k : Z) (c : LocalChain) : Prop :=
  pool_ok k c ∧ Forall (λ t, fair_tx t ∧ tx_sender t ≠ POOL) (lc_mempool c).

(** Executing a list of transactions: a receipt each, in order, every successful one
    having passed the rules of its sender's wallet. *)
Lemma execute_all_rest pending c :
  same_rest c (fst (execute_all pending c)) ∧
  ∀ rs, snd (execute_all pending c) = Ok rs → rc_tx <$> rs = pending ∧
    Forall (λ rc, rc_success rc = true →
      ∀ hook, lc_rule_hooks c !! tx_sender (rc_tx rc) = Some hook → hook (rc_tx rc) = Ok tt) rs.
Proof.
  revert c. induction pending as [|t pending IH]; intros c.
  { split; [done|]. intros rs [= <-]. done. }
  rewrite execute_all_cons. destruct (_execute t c) as [c1 r] eqn:He.
  apply execute_effect in He as (c2 & completed & _ & _ & Hrest & Hrc). destruct r as [rc|e]; [|done].
  destruct (Hrc rc eq_refl) as (Htx & Hok & Hhook). subst completed t.
  specialize (IH c1). destruct (execute_all pending c1) as [c3 [rs|e]].
  - cbn in *. destruct IH as [Hrest' Hrs]. destruct (Hrs rs eq_refl) as [Hmap Hall].
    split; [unfold same_rest in *; intuition congruence|]. intros rs' [= <-]. cbn. rewrite Hmap.
    split; [done|]. constructor; [exact Hhook|]. destruct Hrest as (_ & _ & _ & _ & _ & Hh).
    by rewrite Hh in Hall.
  - cbn in *. destruct IH as [Hrest' _].
    split; [unfold same_rest in *; intuition congruence|done].
Qed.

Lemma mine_spec c c' r :
  mine_block c = (c', r) →
  lc_mempool c' = [] ∧ lc_next_nonces c' = lc_next_nonces c ∧ lc_chain_id c' = lc_chain_id c ∧
  lc_rule_hooks c' = lc_rule_hooks c ∧ lc_clock c ≤ lc_clock c' ∧
  lc_blocks c' = lc_blocks c ++ (match r with Ok rs => [rs] | Err _ => [] end) ∧
  ∀ rs, r = Ok rs → rc_tx <$> rs = lc_mempool c ∧
    Forall (λ rc, rc_success rc = true →
      ∀ hook, lc_rule_hooks c !! tx_sender (rc_tx rc) = Some hook → hook (rc_tx rc) = Ok tt) rs.
Proof.
  unfold mine_block, mbind, M_bind, read, update. cbn beta iota.
  pose proof (execute_all_rest (lc_mempool c) (set_mempool [] c)) as [Hrest Hrs].
  destruct (execute_all _ _) as [c1 [rs|e]]; intros [= <- <-]; cbn in *;
    destruct Hrest as (Hm & Hb & Hcl & Hid & Hn & Hh); rewrite ?Hm, ?Hb, ?Hcl, ?Hid, ?Hn, ?Hh;
    split_and!; rewrite ?app_nil_r; cbn; try done; lia.
Qed.

Lemma mine_mempool c : lc_mempool (fst (mine_block c)) = [].
Proof. destruct (mine_block c) as [c' r] eqn:Hm. by apply mine_spec in Hm as []. Qed.

Lemma pool_ok_mint k asset addr amount c :
  0 ≤ amount → pool_ok k c → pool_ok k (fst (chain_mint asset addr amount c)).
Proof.
  intros Ha [Hpa Hpb Hp]. unfold chain_mint, with_token, mbind, M_bind, self, lift, zoom.
  destruct (lc_tokens c !! asset) as [tok|] eqn:Htok; [|by split]. cbn [or_raise fst token_mint update].
  assert (∀ a, balance_of c a POOL ≤ balance_of (set_tokens (<[asset := set_balances
    (<[addr := token_balance tok addr + amount]> (tk_balances tok)) tok]> (lc_tokens c)) c) a POOL) as Hle.
  { intros a. unfold balance_of; cbn [lc_tokens set_tokens].
    destruct (decide (a = asset)) as [->|]; [|by rewrite lookup_insert_ne by done].
    rewrite lookup_insert_eq, Htok, balance_insert. case_bool_decide; subst; lia. }
  pose proof (Hle "TUSDC"). pose proof (Hle "DRB").
  split; [cbn [lc_amm set_tokens]; lia..|exact Hp].
Qed.

Lemma pool_run_op k o c : fair_op o → pool_run_ok k c → pool_run_ok k (run_op o c).
Proof.
  intros Ho [Hc Hm]. destruct o as [asset addr amount|t| |addr hook|asset frm to amount]; cbn [run_op].
  - split; [by apply pool_ok_mint|]. revert Hm.
    unfold chain_mint, with_token, mbind, M_bind, self, lift, zoom.
    by destruct (lc_tokens c !! asset).
  - rewrite chain_submit_cases. destruct (_verify_authorization c t) eqn:Hv; [|done].
    apply verify_authorization_Ok in Hv as [Hauth _]. split; [by destruct Hc|].
    cbn. apply Forall_app. split; [done|]. apply Forall_singleton. split; [exact Ho|].
    exact (authentic_sender t Hauth).
  - split; [|by rewrite mine_mempool].
    apply (mine_keeps _ (λ t, fair_tx t ∧ tx_sender t ≠ POOL)); try done.
    + intros t c1 c2 done [Ht Hs]. by apply pool_ok_effect.
    + intros. by eapply pool_ok_same.
  - split; [by destruct Hc|done].
  - rewrite chain_transfer_cases. destruct (lc_tokens c !! asset) as [tok|] eqn:Htok; [|done].
    destruct (Z.leb_spec amount 0); [done|]. destruct (Z.ltb_spec (token_balance tok frm) amount); [done|].
    split; [|done]. by apply pool_ok_move.
Qed.

Lemma run_ops_pool k os c :
  Forall fair_op os → pool_run_ok k c → pool_run_ok k (run_ops os c).
Proof.
  intros Hos. revert c. induction Hos as [|o os Ho Hos IH]; intros c Hc; [done|].
  change (run_ops (o :: os) c) with (run_ops os (run_op o c)). apply IH. by apply pool_run_op.
Qed.

Lemma init_pool a b chain_id c :
  LocalChain_init a b chain_id = Ok c → pool_run_ok (a * b) c.
Proof.
  unfold LocalChain_init, AMM_init. intros Hc. ok_invs. prop_of_bool.
  match goal with H : 0 < a ∧ 0 < b |- _ => destruct H as [Ha Hb] end.
  destruct (minted_token "TUSDC" POOL a) as (_ & _ & Hs); [lia|].
  destruct (minted_token "DRB" POOL b) as (_ & _ & Hs'); [lia|].
  split; [|by constructor]. split; unfold product, balance_of; cbn [lc_amm amm_a amm_b lc_tokens].
  - rewrite lookup_insert_eq. replace (token_balance _ POOL) with a by (symmetry; exact Hs). lia.
  - rewrite lookup_insert_ne, lookup_singleton_eq by done.
    replace (token_balance _ POOL) with b by (symmetry; exact Hs'). lia.
  - lia.
Qed.

(** The pool stays solvent.  While every submitted swap trades a positive amount of one
    side of the pair for the other, both reserves stay positive and covered by the tokens
    of the pool's account, and the constant product never falls: not below its initial
    value, nor below its value at any earlier point. *)
Theorem pool_solvent a b chain_id c0 os os' :
  LocalChain_init a b chain_id = Ok c0 → Forall fair_op os → Forall fair_op os' →
  let c := run_ops os c0 in let c' := run_ops os' c in
  pool_ok (a * b) c ∧ product c ≤ product c'.
Proof.
  intros Hinit Hos Hos' c c'. apply init_pool in Hinit.
  destruct (run_ops_pool (a * b) os c0 Hos Hinit) as [Hc Hm]. fold c in Hc, Hm.
  split; [done|]. assert (pool_run_ok (product c) c) as Hpc by (by destruct Hc).
  by destruct (run_ops_pool (product c) os' c Hos' Hpc) as [[_ _ Hp] _].
Qed.

(** ** Once and in order *)

(** The transactions [submit] accepted along a run, as they entered the mempool. *)
Fixpoint accepted (os : list chain_op) (c : LocalChain) : list Tx :=
  match os with
  | [] => []
  | o :: os =>
      match o with
      | OpSubmit t =>
          if is_ok (_verify_authorization c t) then [set_submitted_at (lc_clock c) t] else []
      | _ => []
      end ++ accepted os (run_op o c)
  end.

(** Every [mine_block] of the run returned. *)
Fixpoint mines_return (os : list chain_op) (c : LocalChain) : Prop :=
  match os with
  | [] => True
  | o :: os =>
      match o with OpMine => is_ok (snd (mine_block c)) = true | _ => True end ∧
      mines_return os (run_op o c)
  end.

(** Everything executed so far, then everything pending. *)
Definition history (c : LocalChain) : list Tx :=
  (rc_tx <$> concat (lc_blocks c)) ++ lc_mempool c.

Definition of_sender (s : string) (l : list Tx) : list Tx :=
  filter (λ t, str_lower (tx_sender t) = s) l.

(** Operations other than [submit] and [mine_block] leave blocks, mempool and nonces alone. *)
Lemma quiet_op o c :
  match o with OpSubmit _ | OpMine => False | _ => True end →
  history (run_op o c) = history c ∧ lc_next_nonces (run_op o c) = lc_next_nonces c ∧
  lc_chain_id (run_op o c) = lc_chain_id c.
Proof.
  intros Ho. destruct o; try done; cbn [run_op].
  - unfold chain_mint, with_token, mbind, M_bind, self, lift, zoom.
    by destruct (lc_tokens c !! asset).
  - unfold with_token, mbind, M_bind, self, lift, zoom.
    destruct (lc_tokens c !! asset) as [k|]; [|done]. cbn [or_raise].
    by destruct (token_transfer frm to amount k).
Qed.

Lemma run_ops_history os c :
  mines_return os c → history (run_ops os c) = history c ++ accepted os c.
Proof.
  revert c. induction os as [|o os IH]; intros c; [intros _; by rewrite app_nil_r|].
  intros [Ho Hos]. change (run_ops (o :: os) c) with (run_ops os (run_op o c)).
  rewrite (IH _ Hos). cbn [accepted]. rewrite app_assoc. f_equal. clear IH Hos.
  destruct o as [|t| | |]; try (rewrite app_nil_r; by apply quiet_op).
  - cbn [run_op]. rewrite chain_submit_cases. destruct (_verify_authorization c t);
      cbn [fst is_ok]; [|by rewrite app_nil_r]. unfold history. cbn. by rewrite app_assoc.
  - cbn [run_op]. destruct (mine_block c) as [c' [rs|e]] eqn:Hm; [|done].
    apply mine_spec in Hm as (Hmem & _ & _ & _ & _ & Hb & Hrs).
    destruct (Hrs rs eq_refl) as [Htx _]. unfold history. cbn [fst].
    rewrite Hmem, Hb, concat_app, fmap_app. cbn. rewrite !app_nil_r. by rewrite Htx.
Qed.

Lemma next_nonce_insert c key v s :
  next_nonce (set_nonces (<[str_lower key := v]> (lc_next_nonces c)) c) s
  = if bool_decide (str_lower s = str_lower key) then v else next_nonce c s.
Proof.
  unfold next_nonce. cbn. case_bool_decide as Hs.
  - by rewrite Hs, lookup_insert_eq.
  - by rewrite lookup_insert_ne.
Qed.

(** The nonces of a sender's accepted transactions continue its counter. *)
Lemma run_ops_nonces os c s :
  let l := of_sender s (accepted os c) in
  tx_nonce <$> l = seqZ (default 0 (lc_next_nonces c !! s)) (Z.of_nat (length l)).
Proof.
  revert c. induction os as [|o os IH]; intros c; [done|].
  cbn [accepted]. unfold of_sender in *. rewrite filter_app, fmap_app, length_app.
  specialize (IH (run_op o c)). cbv zeta in IH. rewrite IH. clear IH.
  pose proof (quiet_op o c) as Hq. destruct o as [|t| | |];
    try (destruct (Hq I) as (_ & -> & _); reflexivity); clear Hq.
  - cbn [run_op]. rewrite chain_submit_cases. destruct (_verify_authorization c t) eqn:Hv;
      cbn [fst is_ok]; [|done].
    apply verify_authorization_Ok in Hv as (_ & _ & _ & Hn). unfold next_nonce in *.
    cbn [lc_next_nonces set_nonces set_mempool]. rewrite filter_cons, filter_nil. cbn [tx_sender set_submitted_at].
    case_decide as Hs; cbn [fmap list_fmap length app lc_next_nonces set_nonces].
    + assert (str_lower s = s) as Hlow by (rewrite <- Hs; apply str_lower_idem).
      rewrite Hs, Hlow, lookup_insert_eq. cbn [default id].
      cbn [tx_nonce set_submitted_at]. rewrite Hn, Hs.
      set (n := default 0 _). rewrite Nat2Z.inj_add. change (Z.of_nat 1) with 1.
      rewrite (seqZ_cons n) by lia. f_equal. unfold id. f_equal; lia.
    + by rewrite lookup_insert_ne.
  - cbn [run_op]. destruct (mine_block c) as [c' r] eqn:Hm.
    apply mine_spec in Hm as (_ & Hn & _). cbn [fst]. by rewrite Hn.
Qed.

Lemma run_ops_authentic os c :
  Forall (λ t, authentic t ∧ tx_chain_id t = lc_chain_id c ∧ tx_submitted_at t ≤ tx_deadline t)
    (accepted os c).
Proof.
  revert c. induction os as [|o os IH]; intros c; [constructor|].
  assert (lc_chain_id (run_op o c) = lc_chain_id c) as Hid.
  { destruct o as [|t| | |]; try (by apply quiet_op); cbn [run_op].
    - rewrite chain_submit_cases. by destruct (_verify_authorization c t).
    - destruct (mine_block c) as [c' r] eqn:Hm. by apply mine_spec in Hm as (_ & _ & Hc & _). }
  cbn [accepted]. apply Forall_app. split; [|by rewrite <- Hid; apply IH].
  destruct o as [|t| | |]; try constructor. destruct (_verify_authorization c t) eqn:Hv;
    cbn [is_ok]; [|constructor]. apply Forall_singleton.
  by apply verify_authorization_Ok in Hv as (Hauth & Hc & Hd & _).
Qed.

(** transactions are authentic and executed once, in order.  Along any run of a fresh
    chain, whatever is submitted: every accepted transaction carries a signature over its
    exact payload by the key its sender's address is derived from, names this chain and a
    decision and had not expired; the nonces a sender's accepted transactions carry are
    0, 1, 2, ..., so none is accepted twice; and as long as the blocks are sealed without
    an exception, the sealed receipts followed by the mempool are exactly the accepted
    transactions in the order they were accepted. *)
Theorem transactions_once_in_order a b chain_id c0 os :
  LocalChain_init a b chain_id = Ok c0 →
  Forall (λ t, authentic t ∧ tx_chain_id t = chain_id ∧ tx_submitted_at t ≤ tx_deadline t)
    (accepted os c0) ∧
  (∀ s, let l := of_sender s (accepted os c0) in
    tx_nonce <$> l = seqZ 0 (Z.of_nat (length l))) ∧
  (mines_return os c0 → history (run_ops os c0) = accepted os c0).
Proof.
  intros Hinit.
  assert (lc_chain_id c0 = chain_id ∧ lc_next_nonces c0 = ∅ ∧ history c0 = []) as (<- & Hn & Hh)
    by (unfold LocalChain_init in Hinit; by ok_invs).
  split_and!.
  - apply run_ops_authentic.
  - intros s. pose proof (run_ops_nonces os c0 s) as Hs. by rewrite Hn, lookup_empty in Hs.
  - intros Hm. by rewrite run_ops_history, Hh.
Qed.

(** Contract-wallet rules hold at settlement.  When a block is sealed, every successful
    transfer out of an address with deployed rules is of an allowed asset, within the
    per-transaction cap and to an allowlisted recipient, however it came to the mempool. *)
Theorem contract_wallet_enforced rules address c c' rs :
  lc_rule_hooks c !! address = Some (wallet_hook rules) → mine_block c = (c', Ok rs) →
  Forall (λ rc, rc_success rc = true → tx_sender (rc_tx rc) = address →
    tx_kind (rc_tx rc) = TRANSFER →
    tx_asset (rc_tx rc) ∈ cw_allowed_assets rules ∧
    (cw_per_tx_cap rules = 0 ∨ tx_amount (rc_tx rc) ≤ cw_per_tx_cap rules) ∧
    (cw_allowlist rules = [] ∨ ∃ to, tx_to (rc_tx rc) = Some to ∧ to ∈ cw_allowlist rules)) rs.
Proof.
  intros Hhook Hm. apply mine_spec in Hm as (_ & _ & _ & _ & _ & _ & Hrs).
  destruct (Hrs rs eq_refl) as [_ Hall]. apply (Forall_impl _ _ _ Hall). clear Hall Hrs.
  intros rc Hrc Hok Hsender Hkind. rewrite Hsender in Hrc. specialize (Hrc Hok _ Hhook).
  unfold wallet_hook in Hrc. rewrite Hkind, bool_decide_true in Hrc by done. ok_invs.
  prop_of_bool. match goal with H : is_in _ _ = true |- _ => apply is_in_true in H end.
  split_and!; [done|lia|].
  destruct (cw_allowlist rules) as [|x l] eqn:Hl; [by left|right].
  destruct (tx_to (rc_tx rc)) as [to|]; [|done]. exists to. split; [done|].
  prop_of_bool. by apply is_in_true.
Qed.

(** ** Fair transactions *)

Lemma pool_ok_tokens k c asset :
  pool_ok k c → asset = "TUSDC" ∨ asset = "DRB" → is_Some (lc_tokens c !! asset).
Proof.
  intros [Hpa Hpb _] Hasset. unfold balance_of in *.
  destruct Hasset as [-> | ->].
  - destruct (lc_tokens c !! "TUSDC"); [done|lia].
  - destruct (lc_tokens c !! "DRB"); [done|lia].
Qed.

Lemma chain_transfer_raises asset frm to amount c c' e :
  is_Some (lc_tokens c !! asset) →
  with_token asset (token_transfer frm to amount) c = (c', Err e) → catches_revert e = true.
Proof.
  intros [k Hk]. rewrite chain_transfer_cases, Hk. case_tests; by intros [= <- <-].
Qed.

Lemma quote_total k c t :
  pool_ok k c → fair_tx t → tx_kind t = SWAP →
  ∃ out, amm_quote (lc_amm c) (tx_token_in t) (tx_amount_in t) = Ok out.
Proof.
  intros [Hpa Hpb _] Hfair Hkind. unfold fair_tx in Hfair. rewrite Hkind in Hfair.
  unfold amm_quote, FEE_BPS. destruct (if bool_decide _ then _ else _) as [rin rout] eqn:Hr.
  assert (0 < rin) by (destruct (bool_decide _); simplify_eq; lia).
  rewrite (proj2 (Z.eqb_neq _ _)) by lia. cbn. eauto.
Qed.

(** A fair transaction is refused only with the exceptions [_execute] handles. *)
Lemma execute_body_raises k t c c' e :
  pool_ok k c → fair_tx t → execute_body t c = (c', Err e) → catches_revert e = true.
Proof.
  intros Hc Hfair. unfold execute_body. destruct (tx_kind t) eqn:Hkind.
  - unfold execute_transfer, mbind, M_bind, lift. destruct (tx_to t); cbn [or_raise];
      [|by intros [= <- <-]].
    destruct (with_token _ _ c) as [c1 [[]|e1]] eqn:Hw; [done|]. intros [= <- <-].
    eapply chain_transfer_raises; [|exact Hw]. eapply pool_ok_tokens; [done|].
    unfold fair_tx in Hfair. by rewrite Hkind in Hfair.
  - destruct (quote_total k c t Hc Hfair Hkind) as [out Hq].
    assert (is_Some (lc_tokens c !! tx_token_in t) ∧ is_Some (lc_tokens c !! tx_token_out t))
      as [[kin Hin] [kout Hout]].
    { unfold fair_tx in Hfair. rewrite Hkind in Hfair.
      split; eapply pool_ok_tokens; try done; intuition. }
    unfold execute_swap, mbind, M_bind, lift, self, zoom.
    rewrite Hin, Hout. cbn [or_raise].
    destruct (_ <? _); cbn [raise_if]; [by intros [= <- <-]|].
    destruct (amm_swap _ _ _ _) as [p' [out'|e1]] eqn:Hs; last first.
    { intros [= <- <-]. by eapply amm_swap_raises. }
    destruct (with_token _ _ _) as [c1 [[]|e1]] eqn:Hw; last first.
    { intros [= <- <-]. eapply chain_transfer_raises; [|exact Hw]. by exists kin. }
    destruct (with_token _ _ c1) as [c2 [[]|e2]] eqn:Hw'; [done|].
    intros [= <- <-]. eapply chain_transfer_raises; [|exact Hw'].
    rewrite chain_transfer_cases in Hw. cbn [lc_tokens set_amm] in Hw. rewrite Hin in Hw.
    destruct (_ <=? 0); [done|]. destruct (_ <? _); [done|]. injection Hw as <-.
    unfold move_on; cbn. apply lookup_insert_is_Some'. right. by exists kout.
Qed.

(** What one transaction leaves behind: an exact transfer or swap with its receipt, or a
    refusal that changes no balance and no reserve; but a swap whose quote rounds to
    nothing is refused after its input was taken. *)
Definition settles (t : Tx) (c c' : LocalChain) (rc : Receipt) : Prop :=
  match tx_kind t with
  | TRANSFER =>
      if rc_success rc then
        ∃ to, tx_to t = Some to ∧ 0 < tx_amount t ∧ lc_amm c' = lc_amm c ∧
        ∀ a x, balance_of c' a x = balance_of c a x
          + if bool_decide (a = tx_asset t)
            then (if bool_decide (x = to) then tx_amount t else 0)
                 - (if bool_decide (x = tx_sender t) then tx_amount t else 0)
            else 0
      else same_funds c c'
  | SWAP =>
      ∃ out, amm_quote (lc_amm c) (tx_token_in t) (tx_amount_in t) = Ok out ∧
      if rc_success rc then
        tx_min_out t ≤ out ∧ 0 < out ∧ lc_amm c' = lc_amm (swapped t out c) ∧
        ∀ a x, balance_of c' a x = balance_of c a x
          + (if bool_decide (a = tx_token_in t)
             then (if bool_decide (x = POOL) then tx_amount_in t else 0)
                  - (if bool_decide (x = tx_sender t) then tx_amount_in t else 0)
             else 0)
          + (if bool_decide (a = tx_token_out t)
             then (if bool_decide (x = tx_sender t) then out else 0)
                  - (if bool_decide (x = POOL) then out else 0)
             else 0)
      else same_funds c c' ∨ out = 0
  end.

Lemma same_funds_balance c c' a x : same_funds c c' → balance_of c' a x = balance_of c a x.
Proof. intros [Ht _]. unfold balance_of. by rewrite Ht. Qed.

Lemma effect_settles k t c c1 c' rc :
  pool_ok k c → fair_tx t → tx_sender t ≠ POOL → effect t c c1 (rc_success rc) →
  same_funds c1 c' → settles t c c' rc.
Proof.
  intros Hc Hfair Hpool Heff Hsame. unfold settles.
  inversion Heff as [Hs1 Hs2|to tok Hkind Hto Htok Ha Hs1 Hs2|out Hkind Hq Ha Hs1 Hs2
    |out tok Hkind Hq Htok Ha Hout Hs1 Hs2|out tok c2 tok' Hkind Hq Hmin Htok Ha Hc2 Htok' Hout Hs1 Hs2];
    subst; try rewrite Hkind.
  - destruct (tx_kind t) eqn:Hkind; [done|]. destruct (quote_total k c1 t Hc Hfair Hkind) as [out Hq].
    exists out. auto.
  - exists to. split_and!; [done|lia|by destruct Hsame|]. intros a x.
    rewrite (same_funds_balance _ _ _ _ Hsame). by rewrite balance_move by done.
  - exfalso. unfold fair_tx in Hfair. rewrite Hkind in Hfair. lia.
  - exists out. split; [done|]. right.
    destruct (quote_pool k c t out Hc Hfair Hkind Hq) as (Hpos & Hra & Hrb & _).
    destruct Hc as [Hpa Hpb _]. unfold fair_tx in Hfair. rewrite Hkind in Hfair.
    destruct Hout as [Hout|Hout]; [lia|exfalso]. rewrite balance_move in Hout by done.
    rewrite (bool_decide_false (POOL = tx_sender t)) in Hout by congruence.
    revert Hout Hra Hrb. unfold swapped.
    destruct Hfair as [_ [[Hin Hto]|[Hin Hto]]]; rewrite Hin, Hto; eval_tests;
      cbn [lc_amm set_amm amm_a amm_b]; lia.
  - exists out. split; [done|]. split_and!; [done|lia|by destruct Hsame|]. intros a x.
    rewrite (same_funds_balance _ _ _ _ Hsame).
    rewrite balance_move by exact Htok'. rewrite balance_move by exact Htok. done.
Qed.

(** Executing a fair transaction on a solvent chain always gives a receipt, and does
    exactly what the receipt says: a successful transfer or swap moves exactly its amounts
    between sender, recipient and pool (a swap never less than its minimum) and no other
    balance, and a failed one changes no balance and no reserve, except that a swap with a
    zero quote has paid its input. *)
Theorem execute_exact k t c :
  pool_ok k c → fair_tx t → tx_sender t ≠ POOL →
  (∀ hook, lc_rule_hooks c !! tx_sender t = Some hook → raises catches_revert (hook t)) →
  ∃ c' rc, _execute t c = (c', Ok rc) ∧ rc_tx rc = t ∧ settles t c c' rc.
Proof.
  intros Hc Hfair Hpool Hhook. destruct (_execute t c) as [c' r] eqn:He.
  pose proof (execute_effect _ _ _ _ He) as (c1 & completed & Heff & Hsame & _ & Hrc).
  assert (∃ rc, r = Ok rc) as [rc ->].
  { unfold _execute, try_m in He. destruct ((run_hook t;; _) c) as [c2 [rc|e]] eqn:Hb;
      [injection He as <- <-; eauto|].
    assert (catches_revert e = true) as Hcatch; [|rewrite Hcatch in He; injection He as <- <-; eauto].
    unfold mbind at 1, M_bind at 1 in Hb. unfold run_hook, mbind, M_bind, self, lift in Hb.
    destruct (lc_rule_hooks c !! tx_sender t) as [hook|] eqn:Hh.
    - specialize (Hhook hook eq_refl). destruct (hook t) as [[]|e']; cbn in Hhook.
      + by eapply (execute_body_raises k t c).
      + by injection Hb as <- <-.
    - by eapply (execute_body_raises k t c). }
  destruct (Hrc rc eq_refl) as (Htx & Hok & _). exists c', rc. split_and!; try done.
  subst completed. by eapply effect_settles.
Qed.
End runs.

(** * A chain to evaluate *)

Section example.
#[local] Existing Instance sized_externals.

Definition ex_alice : KeyPair := KeyPair_from_seed "alice".
Definition ex_bob : string := kp_address (KeyPair_from_seed "bob").

Definition ex_signed (kind : TxKind) (to : option string) (amount amount_in : Z)
    (token_in token_out : string) (nonce : Z) : Tx :=
  let t :=
    {| tx_kind := kind; tx_sender := kp_address ex_alice; tx_to := to; tx_amount := amount;
       tx_asset := "TUSDC"; tx_amount_in := amount_in; tx_token_in := token_in;
       tx_token_out := token_out; tx_min_out := -1000 * MICRO; tx_private := false;
       tx_submitted_at := 0; tx_nonce := nonce; tx_chain_id := 31337; tx_deadline := 300;
       tx_decision_hash := "d"; tx_public_key_hex := ""; tx_signature_hex := "" |} in
  match tx_sign ex_alice t with Ok t => t | Err _ => t end.

Definition ex_transfer (amount nonce : Z) : Tx :=
  ex_signed TRANSFER (Some ex_bob) amount 0 "TUSDC" "DRB" nonce.
Definition ex_swap (token_in token_out : string) (amount_in nonce : Z) : Tx :=
  ex_signed SWAP None 0 amount_in token_in token_out nonce.

Definition ex_init : result LocalChain :=
  LocalChain_init (1000000 * MICRO) (500000 * MICRO) 31337.
Definition ex_chain : LocalChain :=
  match ex_init with Ok c => c | Err _ =>
    {| lc_tokens := ∅; lc_amm := {| amm_a := 0; amm_b := 0 |}; lc_mempool := []; lc_blocks := [];
       lc_clock := 0; lc_chain_id := 0; lc_next_nonces := ∅; lc_rule_hooks := ∅;
       lc_events := [] |} end.

Definition ex_fund : list chain_op :=
  [OpMint "TUSDC" (kp_address ex_alice) (1000 * MICRO); OpMint "DRB" (kp_address ex_alice) (1000 * MICRO)].

(** A swap, a transfer that the contract wallet refuses and one that it accepts. *)
Definition ex_rules : ContractWalletRules :=
  ContractWalletRules_init (200 * MICRO) (Some [ex_bob]) None.
Definition ex_ops : list chain_op :=
  ex_fund ++
  [OpHook (kp_address ex_alice) (wallet_hook ex_rules);
   OpSubmit (ex_swap "TUSDC" "DRB" (100 * MICRO) 0);
   OpSubmit (ex_transfer (300 * MICRO) 1); OpMine;
   OpSubmit (ex_transfer (200 * MICRO) 2); OpSubmit (ex_transfer (200 * MICRO) 2)].

Lemma ex_init_Ok : ex_init = Ok ex_chain.
Proof. vm_compute. reflexivity. Qed.

Lemma ex_ops_accepted : length (accepted ex_ops ex_chain) = 3%nat.
Proof. vm_compute. reflexivity. Qed.

Lemma tokens_conserved_witness :
  total (run_ops ex_ops ex_chain) "TUSDC" = 1000000 * MICRO + 1000 * MICRO.
Proof.
  destruct (tokens_conserved (1000000 * MICRO) (500000 * MICRO) 31337 ex_chain ex_ops) as (Ht & _).
  - exact ex_init_Ok.
  - unfold mints_positive, ex_ops, ex_fund. repeat constructor; unfold MICRO; lia.
  - rewrite Ht. reflexivity.
Defined.

Lemma pool_solvent_witness :
  product ex_chain ≤ product (run_ops [OpMine] (run_ops ex_ops ex_chain)).
Proof.
  assert (Forall fair_op ex_ops) as Hfair.
  { unfold ex_ops, ex_fund. cbn [app].
    repeat lazymatch goal with
    | |- Forall _ (_ :: _) => apply Forall_cons_2
    | |- Forall _ [] => apply Forall_nil_2
    end; vm_compute; first [exact I|discriminate|by auto]. }
  destruct (pool_solvent (1000000 * MICRO) (500000 * MICRO) 31337 ex_chain ex_ops [OpMine]
    ex_init_Ok Hfair ltac:(by constructor)) as [[_ _ Hp] Hle].
  change (product ex_chain) with (1000000 * MICRO * (500000 * MICRO)). lia.
Defined.

Lemma transactions_once_in_order_witness :
  history (run_ops ex_ops ex_chain) = accepted ex_ops ex_chain.
Proof.
  destruct (transactions_once_in_order (1000000 * MICRO) (500000 * MICRO) 31337 ex_chain ex_ops
    ex_init_Ok) as (_ & _ & Hh).
  apply Hh. vm_compute. repeat split.
Defined.

(** The chain just before its block is sealed. *)
Definition ex_pending : LocalChain := run_ops (take 5 ex_ops) ex_chain.

Lemma contract_wallet_enforced_witness :
  ∃ c' rs, mine_block ex_pending = (c', Ok rs) ∧
    rc_success <$> rs = [true; false] ∧
    Forall (λ rc, rc_success rc = true → tx_sender (rc_tx rc) = kp_address ex_alice →
      tx_kind (rc_tx rc) = TRANSFER → cw_per_tx_cap ex_rules = 0 ∨
      tx_amount (rc_tx rc) ≤ cw_per_tx_cap ex_rules) rs.
Proof.
  destruct (mine_block ex_pending) as [c' r] eqn:Hm.
  assert (match snd (mine_block ex_pending) with
          | Ok rs => bool_decide (rc_success <$> rs = [true; false]) | Err _ => false end = true) as Hr
    by (vm_compute; reflexivity).
  rewrite Hm in Hr. cbn [snd] in Hr. destruct r as [rs|]; [|discriminate]. exists c', rs.
  split; [done|]. split; [by apply bool_decide_eq_true in Hr|].
  assert (lc_rule_hooks ex_pending !! kp_address ex_alice = Some (wallet_hook ex_rules)) as Hhook
    by (vm_compute; reflexivity).
  apply (Forall_impl _ _ _ (contract_wallet_enforced ex_rules (kp_address ex_alice) ex_pending c' rs
    Hhook Hm)).
  intros rc Hrc Hok Hs Hk. by destruct (Hrc Hok Hs Hk) as (_ & Hcap & _).
Defined.

Definition ex_funded : LocalChain := run_ops ex_fund ex_chain.

Lemma execute_exact_witness :
  ∃ c' rc, _execute (ex_swap "TUSDC" "DRB" (100 * MICRO) 0) ex_funded = (c', Ok rc) ∧
    rc_success rc = true ∧ settles (ex_swap "TUSDC" "DRB" (100 * MICRO) 0) ex_funded c' rc.
Proof.
  destruct (execute_exact 1 (ex_swap "TUSDC" "DRB" (100 * MICRO) 0) ex_funded)
    as (c' & rc & He & _ & Hs).
  - split; vm_compute; try split; congruence.
  - unfold fair_tx. vm_compute. auto.
  - vm_compute. discriminate.
  - intros hook Hh. vm_compute in Hh. discriminate.
  - exists c', rc. split; [done|]. split; [|done].
    assert (match snd (_execute (ex_swap "TUSDC" "DRB" (100 * MICRO) 0) ex_funded) with
            | Ok rc => rc_success rc | Err _ => false end = true) as Hok
      by (vm_compute; reflexivity).
    by rewrite He in Hok.
Defined.

(** The executor does not check what a swap trades, and does not undo a swap it refuses.
    On a funded chain: a swap of DRB for DRB succeeds and pays out more DRB than it took,
    leaving the pool's account below its reserve; a swap of a negative amount is refused
    but has moved the reserves; a swap too small to buy anything is refused but the
    sender has paid. *)
Theorem unfair_swaps_break_pool :
  let alice := kp_address ex_alice in
  let run t := run_ops [OpSubmit t; OpMine] ex_funded in
  let outcome c := rc_success <$> concat (lc_blocks c) in
  (let c := run (ex_swap "DRB" "DRB" (100 * MICRO) 0) in
   outcome c = [true] ∧ balance_of ex_funded "DRB" alice < balance_of c "DRB" alice ∧
   balance_of c "DRB" POOL < amm_b (lc_amm c)) ∧
  (let c := run (ex_swap "TUSDC" "DRB" (- MICRO) 0) in
   outcome c = [false] ∧ amm_b (lc_amm ex_funded) < amm_b (lc_amm c) ∧
   balance_of c "DRB" POOL < amm_b (lc_amm c)) ∧
  (let c := run (ex_swap "TUSDC" "DRB" 1 0) in
   outcome c = [false] ∧ balance_of c "TUSDC" alice = balance_of ex_funded "TUSDC" alice - 1).
Proof. vm_compute. auto 10. Qed.
End example.
