(* ===== verification/LocalBackend.v ===== *)
(** [LocalChainBackend] (src/agentguard-testbed/src/aegisledger/chain.py): the chain boundary over
    the local chain of Ledger, and what its receipts say. *)
From Stdlib Require Import ZArith Lia String.
From stdpp Require Import base gmap list strings.
From S2P Require Import Prelude Bytes Canonical CanonicalFacts Contracts Artifacts Ledger LedgerFacts.

Open Scope Z_scope.

(** A [ChainSubmission] with its [local_transaction]. *)
Record LocalSubmission := { ls_submission : ChainSubmission; ls_local_transaction : option Tx }.

Record LocalChainBackend := { lb_chain : LocalChain; lb_receipts : gmap string Receipt }.

Definition LocalChainBackend_init (chain : LocalChain) : LocalChainBackend :=
  {| lb_chain := chain; lb_receipts := ∅ |}.

Definition on_chain {A} (m : M LocalChain A) : M LocalChainBackend A :=
  zoom lb_chain (λ c b, {| lb_chain := c; lb_receipts := lb_receipts b |}) m.

Section backend.
Context `{!Externals}.

Definition local_submit (s : LocalSubmission) : M LocalChainBackend string :=
  b ← self;
  lift (raise_if (negb (cs_chain_id (ls_submission s) =? lc_chain_id (lb_chain b)))
    (ValueError "submission targets the wrong chain"));;
  t ← lift (or_raise (ls_local_transaction s) (ValueError "LocalChain backend requires a local transaction"));
  lift (raise_if (bool_decide (tx_hash t ≠ cs_transaction_hash (ls_submission s)))
    (ValueError "local transaction hash does not match submission"));;
  on_chain (chain_submit t);;
  mret (tx_hash t).

(** [self._receipts[receipt.tx.hash()] = receipt], one after the other. *)
Definition record_receipts (receipts : list Receipt) (m : gmap string Receipt) : gmap string Receipt :=
  foldl (λ m r, <[tx_hash (rc_tx r) := r]> m) m receipts.

Definition local_mine : M LocalChainBackend (list Receipt) :=
  receipts ← on_chain mine_block;
  update (λ b, {| lb_chain := lb_chain b; lb_receipts := record_receipts receipts (lb_receipts b) |});;
  mret receipts.

Definition local_receipt (transaction_hash : string) (b : LocalChainBackend) : option Receipt :=
  lb_receipts b !! transaction_hash.

(** * Its receipts *)

Lemma tx_hash_submitted at_ t : tx_hash (set_submitted_at at_ t) = tx_hash t.
Proof. reflexivity. Qed.

Lemma record_receipts_lookup rs m h :
  record_receipts rs m !! h =
  match last (filter (λ r, tx_hash (rc_tx r) = h) rs) with Some r => Some r | None => m !! h end.
Proof.
  induction rs as [|r rs IH] using rev_ind; [done|]. unfold record_receipts in *. rewrite foldl_app. cbn.
  rewrite filter_app, filter_cons. case_decide as Hr.
  - subst h. rewrite lookup_insert_eq. cbn. by rewrite last_snoc.
  - rewrite lookup_insert_ne by done. cbn. by rewrite app_nil_r.
Qed.

(** Every receipt kept is of a sealed block, under the hash of its transaction. *)
Definition receipts_sealed (b : LocalChainBackend) : Prop :=
  ∀ h r, lb_receipts b !! h = Some r → tx_hash (rc_tx r) = h ∧ r ∈ concat (lc_blocks (lb_chain b)).

Inductive backend_step : LocalChainBackend → LocalChainBackend → Prop :=
  | step_submit s b : backend_step b (fst (local_submit s b))
  | step_mine b : backend_step b (fst (local_mine b)).

Lemma local_submit_Ok s b b' h :
  local_submit s b = (b', Ok h) →
  ∃ t, ls_local_transaction s = Some t ∧ h = tx_hash t ∧ chain_submit t (lb_chain b) = (lb_chain b', Ok tt).
Proof.
  unfold local_submit, self, lift, mbind, M_bind, on_chain, zoom. destruct (raise_if _ _); [|done].
  destruct (ls_local_transaction s) as [t|]; cbn [or_raise]; [|done]. destruct (raise_if _ _); [|done].
  destruct (chain_submit t (lb_chain b)) as [c [[]|]] eqn:Hs; [|done]. intros [= <- <-]. by exists t.
Qed.

Lemma backend_step_sealed b b' : backend_step b b' → receipts_sealed b → receipts_sealed b'.
Proof.
  destruct 1 as [s b|b]; intros Hb h r.
  - assert (lb_receipts (fst (local_submit s b)) = lb_receipts b
      ∧ lc_blocks (lb_chain (fst (local_submit s b))) = lc_blocks (lb_chain b)) as [-> ->]; [|apply Hb].
    unfold local_submit, self, lift, mbind, M_bind, on_chain, zoom. destruct (raise_if _ _); [|done].
    destruct (or_raise _ _) as [t|]; [|done]. destruct (raise_if _ _); [|done].
    rewrite chain_submit_cases. by destruct (_verify_authorization _ t).
  - unfold local_mine, mbind, M_bind, on_chain, zoom, update.
    destruct (mine_block (lb_chain b)) as [c [rs|e]] eqn:Hm; apply mine_spec in Hm as (_ & _ & _ & _ & _ & Hbl & _);
      cbn -[concat app] in *; rewrite Hbl, concat_app.
    + rewrite record_receipts_lookup. cbn. rewrite app_nil_r. destruct (last _) as [r'|] eqn:Hl.
      * intros [= <-]. apply last_Some_elem_of in Hl. apply list_elem_of_filter in Hl as [Hh Hr]. set_solver.
      * intros [Hh Hr]%Hb. set_solver.
    + intros [Hh Hr]%Hb. cbn. rewrite app_nil_r. done.
Qed.

(** A backend over a chain only ever answers with the receipt of a sealed transaction of that hash;
    and once [submit] returned a hash and the next [mine] returned, its receipt is there. *)
Lemma local_backend_receipts chain b :
  rtc backend_step (LocalChainBackend_init chain) b →
  (∀ h r, local_receipt h b = Some r → tx_hash (rc_tx r) = h ∧ r ∈ concat (lc_blocks (lb_chain b)))
  ∧ ∀ s b1 h b2 rs, local_submit s b = (b1, Ok h) → local_mine b1 = (b2, Ok rs) →
      ∃ r, local_receipt h b2 = Some r ∧ r ∈ rs ∧ tx_hash (rc_tx r) = h.
Proof.
  intros Hsteps. split.
  - assert (receipts_sealed (LocalChainBackend_init chain)) as Hinit by done. revert Hinit.
    induction Hsteps; eauto using backend_step_sealed.
  - intros s b1 h b2 rs (t & _ & -> & Hs)%local_submit_Ok.
    rewrite chain_submit_cases in Hs. destruct (_verify_authorization _ t); [|done]. injection Hs as Hc.
    unfold local_mine, mbind, M_bind, on_chain, zoom, update.
    destruct (mine_block (lb_chain b1)) as [c [rs'|]] eqn:Hm; [|done]. intros [= <- <-].
    apply mine_spec in Hm as (_ & _ & _ & _ & _ & _ & Hrs). destruct (Hrs rs' eq_refl) as [Htx _].
    unfold local_receipt. cbn [lb_receipts]. rewrite record_receipts_lookup.
    destruct (last _) as [r|] eqn:Hl.
    + apply last_Some_elem_of, list_elem_of_filter in Hl as [Hh Hr]. eauto.
    + apply last_None in Hl. exfalso. rewrite <- Hc in Htx. cbn in Htx.
      assert (set_submitted_at (lc_clock (lb_chain b)) t ∈ rc_tx <$> rs') as (r & Hr & Hin)%list_elem_of_fmap
        by (rewrite Htx; set_solver).
      assert (r ∈ filter (λ r, tx_hash (rc_tx r) = tx_hash t) rs') as Hf
        by (apply list_elem_of_filter; by rewrite <- Hr).
      rewrite Hl in Hf. set_solver.
Qed.
End backend.
