(* ===== verification/SpendPolicy.v ===== *)
(** The declarative spending policy of the guard
    (src/agentguard-testbed/src/agentwallet/guard/policy.py): the loader over the value
    [yaml.safe_load] gives, that every policy it returns is well formed, and that it reads
    every well-formed policy back.

    [yaml.safe_load] is a parameter.  The texts of the errors leave out the lists of keys
    Python prints. *)
From Stdlib Require Import ZArith Lia Ascii String.
From stdpp Require Import base gmap sets list strings pretty.
From S2P Require Import Prelude Bytes Float64 Canonical Contracts Ledger.

Open Scope Z_scope.

Record WindowCap := { wc_window_s : Z; wc_cap : Z }.

Record RiskPolicy := {
  dynamic_tightening : bool;
  pool_move_threshold_bps : Z;
  max_slippage_bps : Z;
}.

Record SpendingPolicy := {
  sp_name : string;
  sp_per_tx_cap : Z;
  sp_window_caps : list WindowCap;
  sp_max_tx_per_window : Z;
  sp_velocity_window_s : Z;
  sp_allowed_assets : list string;
  sp_allowlist_recipients : list string;
  sp_blocklist_recipients : list string;
  sp_require_mandate_above : Z;
  sp_risk : RiskPolicy;
  sp_kill_switch : bool;
  sp_raw : pyval;
}.

Definition policy_hash `{!Externals} (p : SpendingPolicy) : string :=
  hex (sha256 (canonical (sp_raw p))).

Definition _ALLOWED_KEYS : list string :=
  ["name"; "per_tx_cap"; "window_caps"; "velocity"; "allowed_assets"; "allowlist_recipients";
   "blocklist_recipients"; "require_mandate_above"; "risk"; "kill_switch"].

(** [type(v).__name__] *)
Definition type_name (v : pyval) : string :=
  match v with
  | PNone => "NoneType" | PBool _ => "bool" | PInt _ => "int" | PStr _ => "str"
  | PFloat _ => "float" | PList _ => "list" | PDict _ => "dict" | POther n => n
  end.

(** [bool(v)] *)
Definition truthy (v : pyval) : bool :=
  match v with
  | PNone | PBool false | PStr "" | PFloat (Fin 0 _) | PList [] | PDict [] => false
  | PInt z => negb (z =? 0)
  | _ => true
  end.

Definition _need_int (v : pyval) (what : string) : result Z :=
  match v with
  | PInt z =>
      raise_if (z <? 0) (PolicyError (what +:+ " must be >= 0"));;
      Ok z
  | _ => Err (PolicyError (what +:+ " must be an integer, got " +:+ type_name v))
  end.

Definition _need_positive_int (v : pyval) (what : string) : result Z :=
  value ← _need_int v what;
  raise_if (value =? 0) (PolicyError (what +:+ " must be > 0"));;
  Ok value.

Definition _need_bool (v : pyval) (what : string) : result bool :=
  match v with
  | PBool b => Ok b
  | _ => Err (PolicyError (what +:+ " must be a boolean, got " +:+ type_name v))
  end.

(** [set(data) - allowed] *)
Definition unknown_keys (data : list (pykey * pyval)) (allowed : list string) : list pykey :=
  filter (λ k, match k with KStr s => is_in s allowed | KOther _ => false end = false) data.*1.

(** The error for unknown keys; [sorted] cannot order strings among other keys. *)
Definition unknown_error (unknown : list pykey) (what : string) : exn :=
  if existsb is_str_key unknown && existsb (λ k, negb (is_str_key k)) unknown
  then TypeError "'<' not supported between instances"
  else PolicyError ("unknown " +:+ what +:+ " keys").

Definition _reject_unknown (data : list (pykey * pyval)) (allowed : list string) (what : string)
    : result unit :=
  let unknown := unknown_keys data allowed in
  raise_if (negb (Nat.eqb (length unknown) 0)) (unknown_error unknown what).

Definition str_item (v : pyval) : option string :=
  match v with PStr s => Some s | _ => None end.

Definition _need_str_list (v : pyval) (what : string) : result (list string) :=
  match v with
  | PList items =>
      or_raise (mapM str_item items) (PolicyError (what +:+ " must be a list of strings"))
  | _ => Err (PolicyError (what +:+ " must be a list of strings"))
  end.

(** [data.get(key, d)] *)
Definition get_or (key : string) (d : pyval) (data : list (pykey * pyval)) : pyval :=
  default d (dict_get key data).

(** [v or d] *)
Definition or_else (v d : pyval) : pyval := if truthy v then v else d.

(** The values [enumerate] visits. *)
Definition iterate (v : pyval) : result (list pyval) :=
  match v with
  | PList items => Ok items
  | PDict entries => Ok (map (λ e, match e.1 with KStr s => PStr s | KOther _ => POther "key" end) entries)
  | PStr s => Ok (map (λ c, PStr (String c EmptyString)) (list_ascii_of_string s))
  | _ => Err (TypeError ("'" +:+ type_name v +:+ "' object is not iterable"))
  end.

Definition load_window_cap (i : Z) (wc : pyval) : result WindowCap :=
  let at_i := "window_caps[" +:+ pretty i +:+ "]" in
  match wc with
  | PDict d =>
      _reject_unknown d ["window_s"; "cap"] at_i;;
      window_s ← _need_positive_int (get_or "window_s" (PInt 0) d) (at_i +:+ ".window_s");
      cap ← _need_int (get_or "cap" (PInt 0) d) (at_i +:+ ".cap");
      Ok {| wc_window_s := window_s; wc_cap := cap |}
  | _ => Err (PolicyError (at_i +:+ " must be a mapping"))
  end.

Fixpoint load_window_caps (i : Z) (l : list pyval) : result (list WindowCap) :=
  match l with
  | [] => Ok []
  | wc :: l =>
      c ← load_window_cap i wc; cs ← load_window_caps (i + 1) l; Ok (c :: cs)
  end.

Definition as_mapping (v : pyval) (what : string) : result (list (pykey * pyval)) :=
  match v with
  | PDict d => Ok d
  | _ => Err (PolicyError (what +:+ " must be a mapping"))
  end.

Definition load_velocity (data : list (pykey * pyval)) : result (Z * Z) :=
  vel ← as_mapping (or_else (get_or "velocity" (PDict []) data) (PDict [])) "velocity";
  _reject_unknown vel ["max_tx_per_window"; "window_s"] "velocity";;
  max_tx ← _need_int (get_or "max_tx_per_window" (PInt 0) vel) "velocity.max_tx_per_window";
  vel_win ← _need_positive_int (get_or "window_s" (PInt 3600) vel) "velocity.window_s";
  Ok (max_tx, vel_win).

Definition load_risk (data : list (pykey * pyval)) : result RiskPolicy :=
  risk_d ← as_mapping (or_else (get_or "risk" (PDict []) data) (PDict [])) "risk";
  _reject_unknown risk_d ["dynamic_tightening"; "pool_move_threshold_bps"; "max_slippage_bps"]
    "risk";;
  tight ← _need_bool (get_or "dynamic_tightening" (PBool false) risk_d) "risk.dynamic_tightening";
  threshold ← _need_int (get_or "pool_move_threshold_bps" (PInt 100) risk_d)
    "risk.pool_move_threshold_bps";
  slippage ← _need_int (get_or "max_slippage_bps" (PInt 100) risk_d) "risk.max_slippage_bps";
  Ok {| dynamic_tightening := tight; pool_move_threshold_bps := threshold;
        max_slippage_bps := slippage |}.

(** The part of [load_policy] after the YAML parser. *)
Definition load_data (value : pyval) : result SpendingPolicy :=
  data ← as_mapping value "policy";
  _reject_unknown data _ALLOWED_KEYS "policy";;
  name ← or_raise (str_item (get_or "name" (PStr "unnamed") data)) (PolicyError "name must be a string");
  per_tx_cap ← _need_int (get_or "per_tx_cap" (PInt 0) data) "per_tx_cap";
  caps ← iterate (or_else (get_or "window_caps" (PList []) data) (PList []));
  window_caps ← load_window_caps 0 caps;
  velocity ← load_velocity data;
  risk ← load_risk data;
  allowed_assets ← _need_str_list (get_or "allowed_assets" (PList [PStr "TUSDC"]) data)
    "allowed_assets";
  allowlist ← _need_str_list (get_or "allowlist_recipients" (PList []) data)
    "allowlist_recipients";
  blocklist ← _need_str_list (get_or "blocklist_recipients" (PList []) data)
    "blocklist_recipients";
  mandate_above ← _need_int (get_or "require_mandate_above" (PInt (2 ^ 63 - 1)) data)
    "require_mandate_above";
  kill_switch ← _need_bool (get_or "kill_switch" (PBool false) data) "kill_switch";
  Ok {| sp_name := name; sp_per_tx_cap := per_tx_cap; sp_window_caps := window_caps;
        sp_max_tx_per_window := velocity.1; sp_velocity_window_s := velocity.2;
        sp_allowed_assets := allowed_assets; sp_allowlist_recipients := allowlist;
        sp_blocklist_recipients := blocklist; sp_require_mandate_above := mandate_above;
        sp_risk := risk; sp_kill_switch := kill_switch; sp_raw := value |}.

(** [yaml.safe_load]: a value, or the text of the [YAMLError]. *)
Definition load_policy (safe_load : string → string + pyval) (text : string)
    : result SpendingPolicy :=
  match safe_load text with
  | inl e => Err (PolicyError ("invalid YAML: " +:+ e))
  | inr value => load_data value
  end.

#[global] Arguments policy_hash : simpl never.

(** * Well-formed policies *)

Record policy_wf (p : SpendingPolicy) : Prop := {
  wf_cap : 0 ≤ sp_per_tx_cap p;
  wf_windows : Forall (λ w, 0 < wc_window_s w ∧ 0 ≤ wc_cap w) (sp_window_caps p);
  wf_velocity : 0 ≤ sp_max_tx_per_window p ∧ 0 < sp_velocity_window_s p;
  wf_mandate : 0 ≤ sp_require_mandate_above p;
  wf_risk : 0 ≤ pool_move_threshold_bps (sp_risk p) ∧ 0 ≤ max_slippage_bps (sp_risk p);
}.

(** The mapping that spells a policy out. *)
Definition dump_window (w : WindowCap) : pyval :=
  PDict [(KStr "window_s", PInt (wc_window_s w)); (KStr "cap", PInt (wc_cap w))].

Definition policy_entries (p : SpendingPolicy) : list (pykey * pyval) :=
  [(KStr "name", PStr (sp_name p)); (KStr "per_tx_cap", PInt (sp_per_tx_cap p));
   (KStr "window_caps", PList (map dump_window (sp_window_caps p)));
   (KStr "velocity", PDict [(KStr "max_tx_per_window", PInt (sp_max_tx_per_window p));
                            (KStr "window_s", PInt (sp_velocity_window_s p))]);
   (KStr "allowed_assets", PList (map PStr (sp_allowed_assets p)));
   (KStr "allowlist_recipients", PList (map PStr (sp_allowlist_recipients p)));
   (KStr "blocklist_recipients", PList (map PStr (sp_blocklist_recipients p)));
   (KStr "require_mandate_above", PInt (sp_require_mandate_above p));
   (KStr "risk", PDict [(KStr "dynamic_tightening", PBool (dynamic_tightening (sp_risk p)));
                        (KStr "pool_move_threshold_bps", PInt (pool_move_threshold_bps (sp_risk p)));
                        (KStr "max_slippage_bps", PInt (max_slippage_bps (sp_risk p)))]);
   (KStr "kill_switch", PBool (sp_kill_switch p))].

Definition dump_policy (p : SpendingPolicy) : pyval := PDict (policy_entries p).

(** The same policy with another source. *)
Definition with_raw (raw : pyval) (p : SpendingPolicy) : SpendingPolicy :=
  {| sp_name := sp_name p; sp_per_tx_cap := sp_per_tx_cap p;
     sp_window_caps := sp_window_caps p; sp_max_tx_per_window := sp_max_tx_per_window p;
     sp_velocity_window_s := sp_velocity_window_s p; sp_allowed_assets := sp_allowed_assets p;
     sp_allowlist_recipients := sp_allowlist_recipients p;
     sp_blocklist_recipients := sp_blocklist_recipients p;
     sp_require_mandate_above := sp_require_mandate_above p; sp_risk := sp_risk p;
     sp_kill_switch := sp_kill_switch p; sp_raw := raw |}.

Lemma need_int_Ok v what z : _need_int v what = Ok z ↔ v = PInt z ∧ 0 ≤ z.
Proof.
  destruct v; cbn; try (split; [done|by intros [??]]). rewrite raise_if_bind.
  destruct (Z.ltb_spec z0 0); split; try done; [|by intros [= ->]|];
    intros [[= ->] ?]; [lia|done].
Qed.

Lemma need_positive_Ok v what z : _need_positive_int v what = Ok z ↔ v = PInt z ∧ 0 < z.
Proof.
  unfold _need_positive_int. rewrite bind_Ok. setoid_rewrite need_int_Ok.
  setoid_rewrite raise_if_bind. split.
  - intros (a & [-> Ha] & Hz). destruct (Z.eqb_spec a 0); simplify_eq. split; [done|lia].
  - intros [-> Hz]. exists z. split; [split; [done|lia]|].
    destruct (Z.eqb_spec z 0); [lia|done].
Qed.

Lemma load_windows_wf i l ws :
  load_window_caps i l = Ok ws → Forall (λ w, 0 < wc_window_s w ∧ 0 ≤ wc_cap w) ws.
Proof.
  revert i ws. induction l as [|v l IH]; cbn; intros i ws Hl; [by simplify_eq|].
  ok_inv Hl. simplify_eq. constructor; [|by eapply IH].
  match goal with H : load_window_cap _ _ = _ |- _ => rename H into Hw end.
  unfold load_window_cap in Hw. destruct v; try done. ok_inv Hw. simplify_eq.
  match goal with H : _need_positive_int _ _ = _, H' : _need_int _ _ = _ |- _ =>
    apply need_positive_Ok in H as [_ ?]; apply need_int_Ok in H' as [_ ?] end. done.
Qed.

Lemma load_data_wf value p : load_data value = Ok p → policy_wf p ∧ sp_raw p = value.
Proof.
  unfold load_data, load_velocity, load_risk. intros Hl. ok_invs.
  repeat match goal with
  | H : _need_positive_int _ _ = _ |- _ => apply need_positive_Ok in H as [_ ?]
  | H : _need_int _ _ = _ |- _ => apply need_int_Ok in H as [_ ?]
  | H : load_window_caps _ _ = _ |- _ => apply load_windows_wf in H
  end.
  split; [|done]. by split; cbn.
Qed.

Lemma need_int_nonneg z what : 0 ≤ z → _need_int (PInt z) what = Ok z.
Proof. intros. by apply need_int_Ok. Qed.

Lemma need_positive_pos z what : 0 < z → _need_positive_int (PInt z) what = Ok z.
Proof. intros. by apply need_positive_Ok. Qed.

Lemma load_dump_windows i ws :
  Forall (λ w, 0 < wc_window_s w ∧ 0 ≤ wc_cap w) ws →
  load_window_caps i (map dump_window ws) = Ok ws.
Proof.
  intros Hws. revert i. induction Hws as [|[w c] ws [Hw Hc] Hws IH]; intros i; [done|].
  cbn [map load_window_caps]. set (at_i := "window_caps[" +:+ pretty i +:+ "]").
  change (load_window_cap i (dump_window {| wc_window_s := w; wc_cap := c |})) with
    (window_s ← _need_positive_int (PInt w) (at_i +:+ ".window_s");
     cap ← _need_int (PInt c) (at_i +:+ ".cap");
     Ok {| wc_window_s := window_s; wc_cap := cap |}).
  rewrite need_positive_pos, need_int_nonneg by done. cbn. by rewrite IH.
Qed.

Lemma load_str_list l what : _need_str_list (PList (map PStr l)) what = Ok l.
Proof.
  assert (mapM str_item (map PStr l) = Some l) as Hm.
  { apply mapM_Some. induction l; constructor; auto. }
  unfold _need_str_list. by rewrite Hm.
Qed.

Lemma load_dump p : policy_wf p → load_data (dump_policy p) = Ok (with_raw (dump_policy p) p).
Proof.
  intros [Hcap Hw [Hv1 Hv2] Hm [Hr1 Hr2]]. unfold load_data, dump_policy. cbn [as_mapping].
  set (d := policy_entries p).
  assert (_reject_unknown d _ALLOWED_KEYS "policy" = Ok tt) as Hrej by reflexivity.
  assert (load_velocity d = Ok (sp_max_tx_per_window p, sp_velocity_window_s p)) as Hvel.
  { change (load_velocity d) with
      (max_tx ← _need_int (PInt (sp_max_tx_per_window p)) "velocity.max_tx_per_window";
       vel_win ← _need_positive_int (PInt (sp_velocity_window_s p)) "velocity.window_s";
       Ok (max_tx, vel_win)).
    by rewrite need_int_nonneg, need_positive_pos by done. }
  assert (load_risk d = Ok (sp_risk p)) as Hrisk.
  { change (load_risk d) with
      (threshold ← _need_int (PInt (pool_move_threshold_bps (sp_risk p)))
         "risk.pool_move_threshold_bps";
       slippage ← _need_int (PInt (max_slippage_bps (sp_risk p))) "risk.max_slippage_bps";
       Ok {| dynamic_tightening := dynamic_tightening (sp_risk p);
             pool_move_threshold_bps := threshold; max_slippage_bps := slippage |}).
    rewrite !need_int_nonneg by done. by destruct (sp_risk p). }
  assert (iterate (or_else (get_or "window_caps" (PList []) d) (PList []))
          = Ok (map dump_window (sp_window_caps p))) as Hit.
  { change (get_or "window_caps" (PList []) d) with (PList (map dump_window (sp_window_caps p))).
    by destruct (sp_window_caps p). }
  unfold mbind, result_bind.
  rewrite Hrej, Hvel, Hrisk, Hit, load_dump_windows by done.
  change (get_or "name" _ d) with (PStr (sp_name p)).
  change (get_or "per_tx_cap" _ d) with (PInt (sp_per_tx_cap p)).
  change (get_or "allowed_assets" _ d) with (PList (map PStr (sp_allowed_assets p))).
  change (get_or "allowlist_recipients" _ d) with (PList (map PStr (sp_allowlist_recipients p))).
  change (get_or "blocklist_recipients" _ d) with (PList (map PStr (sp_blocklist_recipients p))).
  change (get_or "require_mandate_above" _ d) with (PInt (sp_require_mandate_above p)).
  change (get_or "kill_switch" _ d) with (PBool (sp_kill_switch p)).
  rewrite !need_int_nonneg, !load_str_list by done. reflexivity.
Qed.

(** the policy loader accepts only well-formed policies and all of them.  What
    [load_policy] returns has no negative amount and no empty window, and its hashed source
    is exactly the parsed mapping; every well-formed policy, spelled out as a mapping, is
    read back as it is. *)
Theorem load_policy_exact (safe_load : string → string + pyval) (text : string) :
  (∀ p, load_policy safe_load text = Ok p → policy_wf p ∧ safe_load text = inr (sp_raw p)) ∧
  (∀ p, policy_wf p → safe_load text = inr (dump_policy p) →
     load_policy safe_load text = Ok (with_raw (dump_policy p) p)).
Proof.
  unfold load_policy. split.
  - intros p. destruct (safe_load text) as [e|value]; [done|]. intros Hl.
    by apply load_data_wf in Hl as [Hwf <-].
  - intros p Hwf ->. by apply load_dump.
Qed.

(** The strict policy of testbed.py (lines 43-55), without its allowlist. *)
Definition strict_policy : SpendingPolicy :=
  let p raw :=
    {| sp_name := "strict"; sp_per_tx_cap := 250000000;
       sp_window_caps := [{| wc_window_s := 3600; wc_cap := 800000000 |};
                          {| wc_window_s := 86400; wc_cap := 1000000000 |}];
       sp_max_tx_per_window := 10; sp_velocity_window_s := 3600;
       sp_allowed_assets := ["TUSDC"; "DRB"]; sp_allowlist_recipients := [];
       sp_blocklist_recipients := []; sp_require_mandate_above := 100000000;
       sp_risk := {| dynamic_tightening := false; pool_move_threshold_bps := 100;
                     max_slippage_bps := 100 |};
       sp_kill_switch := false; sp_raw := raw |} in
  p (dump_policy (p PNone)).

Lemma strict_wf : policy_wf strict_policy.
Proof. split; cbn; repeat constructor; cbn; lia. Qed.

Lemma load_policy_exact_witness :
  let safe_load (_ : string) : string + pyval := inr (dump_policy strict_policy) in
  load_policy safe_load "name: strict" = Ok strict_policy.
Proof.
  intros safe_load. destruct (load_policy_exact safe_load "name: strict") as [_ Hl].
  rewrite (Hl strict_policy strict_wf eq_refl). reflexivity.
Defined.
