(* ===== verification/Guard.v ===== *)
(** The guard in front of the wallet: payment mandates
    (src/agentguard-testbed/src/agentwallet/payments/mandates.py), the policy engine
    (guard/engine.py), the enclave attestor (guard/attestation.py), the reference monitor
    (guard/guard.py), and the x402 payment flow (payments/x402.py).

    [now] is the injected clock's value at the call.  The engine, the chain and the receipts
    a guard hands out are mutable objects shared with its callers: the state of the guard
    holds them, and a [GuardReceipt] is the index of the object in [g_receipts]. *)
From Stdlib Require Import ZArith Lia Ascii String.
From stdpp Require Import base gmap sets list strings pretty.
From S2P Require Import Prelude Bytes Canonical Contracts Ledger SpendPolicy.

Open Scope Z_scope.

Definition str_list (l : list string) : pyval := PList (map PStr l).

(** [bytes.fromhex(s)] *)
Definition bytes_fromhex (s : string) : result bytes :=
  or_raise (fromhex s) (ValueError "non-hexadecimal number found in fromhex() arg").

Section guard.
Context `{!Externals}.

(** * Mandates (payments/mandates.py) *)

Record IntentMandate := {
  im_user : string;
  im_agent : string;
  im_max_total : Z;
  im_allowed_merchants : list string;
  im_expires_at : Z;
  im_nonce : string;
  im_signature_hex : string;
}.

Definition intent_digest (i : IntentMandate) : bytes := canonical (PDict
  [(KStr "user", PStr (im_user i)); (KStr "agent", PStr (im_agent i));
   (KStr "max_total", PInt (im_max_total i));
   (KStr "allowed_merchants", str_list (im_allowed_merchants i));
   (KStr "expires_at", PInt (im_expires_at i)); (KStr "nonce", PStr (im_nonce i))]).

Definition intent_sign (keys : KeyPair) (i : IntentMandate) : IntentMandate :=
  {| im_user := im_user i; im_agent := im_agent i; im_max_total := im_max_total i;
     im_allowed_merchants := im_allowed_merchants i; im_expires_at := im_expires_at i;
     im_nonce := im_nonce i; im_signature_hex := hex (KeyPair_sign keys (intent_digest i)) |}.

Definition intent_hash (i : IntentMandate) : string := sha256_hex (intent_digest i).

Definition intent_verify_signature (i : IntentMandate) (pub : bytes) : result bool :=
  sig ← bytes_fromhex (im_signature_hex i);
  Ok (verify pub (intent_digest i) sig).

Record CartMandate := {
  cm_merchant : string;
  cm_intent_hash : string;
  cm_items : list string;
  cm_total : Z;
  cm_expires_at : Z;
  cm_signature_hex : string;
}.

Definition cart_digest (c : CartMandate) : bytes := canonical (PDict
  [(KStr "merchant", PStr (cm_merchant c)); (KStr "intent_hash", PStr (cm_intent_hash c));
   (KStr "items", str_list (cm_items c)); (KStr "total", PInt (cm_total c));
   (KStr "expires_at", PInt (cm_expires_at c))]).

Definition cart_sign (keys : KeyPair) (c : CartMandate) : CartMandate :=
  {| cm_merchant := cm_merchant c; cm_intent_hash := cm_intent_hash c; cm_items := cm_items c;
     cm_total := cm_total c; cm_expires_at := cm_expires_at c;
     cm_signature_hex := hex (KeyPair_sign keys (cart_digest c)) |}.

Definition cart_verify_signature (c : CartMandate) (pub : bytes) : result bool :=
  sig ← bytes_fromhex (cm_signature_hex c);
  Ok (verify pub (cart_digest c) sig).

(** [check_payment_against_chain]: [(ok, why)]. *)
Definition check_payment_against_chain (now : Z) (intent : IntentMandate) (cart : CartMandate)
    (user_pub merchant_pub : bytes) (agent : option string) (merchant : string)
    (amount already_spent : Z) : result (bool * string) :=
  intent_ok ← intent_verify_signature intent user_pub;
  if negb intent_ok then Ok (false, "bad intent signature") else
  cart_ok ← cart_verify_signature cart merchant_pub;
  if negb cart_ok then Ok (false, "bad cart signature")
  else if bool_decide (cm_intent_hash cart ≠ intent_hash intent)
  then Ok (false, "cart not bound to intent")
  else if (im_expires_at intent <? now) || (cm_expires_at cart <? now)
  then Ok (false, "mandate expired")
  else if bool_decide (Some (im_agent intent) ≠ agent) then Ok (false, "agent mismatch")
  else if bool_decide (cm_merchant cart ≠ merchant) then Ok (false, "merchant mismatch")
  else if negb (Nat.eqb (length (im_allowed_merchants intent)) 0)
          && negb (is_in merchant (im_allowed_merchants intent))
  then Ok (false, "merchant not allowed by intent")
  else if negb (cm_total cart =? amount) then Ok (false, "payment amount != cart total")
  else if im_max_total intent <? already_spent + amount then Ok (false, "intent budget exceeded")
  else Ok (true, "ok").

(** * The policy engine (guard/engine.py) *)

Record Proposal := {
  pr_kind : string;
  pr_amount : Z;
  pr_asset : string;
  pr_to : string;
  pr_token_in : string;
  pr_token_out : string;
  pr_min_out : Z;
  pr_quoted_out : Z;
  pr_purpose : string;
  pr_meta : list (pykey * pyval);
}.

(** [asdict(p)] *)
Definition proposal_dict (p : Proposal) : pyval := PDict
  [(KStr "kind", PStr (pr_kind p)); (KStr "amount", PInt (pr_amount p));
   (KStr "asset", PStr (pr_asset p)); (KStr "to", PStr (pr_to p));
   (KStr "token_in", PStr (pr_token_in p)); (KStr "token_out", PStr (pr_token_out p));
   (KStr "min_out", PInt (pr_min_out p)); (KStr "quoted_out", PInt (pr_quoted_out p));
   (KStr "purpose", PStr (pr_purpose p)); (KStr "meta", PDict (pr_meta p))].

Definition proposal_canonical (p : Proposal) : bytes := canonical (proposal_dict p).

Record Verdict := { v_allow : bool; v_reasons : list string }.

Record SpendRecord := { sr_ts : Z; sr_amount : Z; sr_asset : string; sr_to : string }.

Record PolicyEngine := {
  pe_policy : SpendingPolicy;
  pe_history : list SpendRecord;
  pe_pool_move_bps : Z;
}.

Definition PolicyEngine_init (policy : SpendingPolicy) : PolicyEngine :=
  {| pe_policy := policy; pe_history := []; pe_pool_move_bps := 0 |}.

Definition engine_validate (p : Proposal) : result unit :=
  raise_if (negb (is_in (pr_kind p) ["transfer"; "swap"]))
    (MalformedProposal ("unknown kind '" +:+ pr_kind p +:+ "'"));;
  raise_if (pr_amount p <=? 0) (MalformedProposal "amount must be a positive integer");;
  raise_if (bool_decide (pr_kind p = "transfer") && negb (str_truthy (pr_to p)))
    (MalformedProposal "transfer requires recipient").

Definition engine_record (now : Z) (p : Proposal) (e : PolicyEngine) : PolicyEngine :=
  {| pe_policy := pe_policy e;
     pe_history := pe_history e ++
       [{| sr_ts := now; sr_amount := pr_amount p; sr_asset := pr_asset p; sr_to := pr_to p |}];
     pe_pool_move_bps := pe_pool_move_bps e |}.

Definition sum_amounts (l : list SpendRecord) : Z := foldr (λ r acc, sr_amount r + acc) 0 l.

Definition in_window (now window_s : Z) (l : list SpendRecord) : list SpendRecord :=
  filter (λ r, now - sr_ts r < window_s) l.

Definition _spent_in_window (now : Z) (e : PolicyEngine) (window_s : Z) : Z :=
  sum_amounts (in_window now window_s (pe_history e)).

Definition _count_in_window (now : Z) (e : PolicyEngine) (window_s : Z) : Z :=
  Z.of_nat (length (in_window now window_s (pe_history e))).

Definition spent_under_intent (e : PolicyEngine) : Z := sum_amounts (pe_history e).

(** [mandate_chain], with the two keys of [pubs]. *)
Record MandateChain := {
  mc_intent : IntentMandate;
  mc_cart : CartMandate;
  mc_user_pub : bytes;
  mc_merchant_pub : bytes;
}.

(** [p.meta.get("agent", "")]; a value that is not a string equals no agent. *)
Definition meta_agent (p : Proposal) : option string :=
  str_item (get_or "agent" (PStr "") (pr_meta p)).

Definition window_reasons (now : Z) (e : PolicyEngine) (p : Proposal) : list string :=
  concat (map (λ wc,
    let spent := _spent_in_window now e (wc_window_s wc) in
    error_if (wc_cap wc <? spent + pr_amount p)
      ("window cap exceeded: " +:+ pretty spent +:+ "+" +:+ pretty (pr_amount p) +:+ " > "
       +:+ pretty (wc_cap wc) +:+ " over " +:+ pretty (wc_window_s wc) +:+ "s"))
    (sp_window_caps (pe_policy e))).

Definition recipient_reasons (pol : SpendingPolicy) (p : Proposal) : list string :=
  if bool_decide (pr_kind p = "transfer") then
    error_if (is_in (pr_to p) (sp_blocklist_recipients pol))
      ("recipient " +:+ pr_to p +:+ " blocklisted")
    ++ error_if (negb (Nat.eqb (length (sp_allowlist_recipients pol)) 0)
                 && negb (is_in (pr_to p) (sp_allowlist_recipients pol)))
         ("recipient " +:+ pr_to p +:+ " not on allowlist")
  else [].

Definition mandate_reasons (now : Z) (e : PolicyEngine) (p : Proposal)
    (mandate_chain : option MandateChain) : result (list string) :=
  if bool_decide (pr_kind p = "transfer")
     && (sp_require_mandate_above (pe_policy e) <? pr_amount p) then
    match mandate_chain with
    | None => Ok ["amount " +:+ pretty (pr_amount p) +:+ " requires an AP2 mandate chain"]
    | Some mc =>
        r ← check_payment_against_chain now (mc_intent mc) (mc_cart mc) (mc_user_pub mc)
              (mc_merchant_pub mc) (meta_agent p) (pr_to p) (pr_amount p) (spent_under_intent e);
        Ok (error_if (negb r.1) ("mandate chain invalid: " +:+ r.2))
    end
  else Ok [].

Definition risk_reasons (e : PolicyEngine) (p : Proposal) : list string :=
  let risk := sp_risk (pe_policy e) in
  if bool_decide (pr_kind p = "swap") && dynamic_tightening risk then
    error_if (pool_move_threshold_bps risk <? pe_pool_move_bps e)
      ("pool moved " +:+ pretty (pe_pool_move_bps e) +:+ "bps > threshold "
       +:+ pretty (pool_move_threshold_bps risk) +:+ "bps (possible sandwich)")
    ++ (if negb (pr_quoted_out p =? 0) && negb (pr_min_out p =? 0) then
          let slip_bps := (pr_quoted_out p - pr_min_out p) * 10000 / Z.max (pr_quoted_out p) 1 in
          error_if (max_slippage_bps risk <? slip_bps)
            ("slippage tolerance " +:+ pretty slip_bps +:+ "bps > policy max "
             +:+ pretty (max_slippage_bps risk) +:+ "bps")
        else [])
  else [].

Definition engine_evaluate (now : Z) (e : PolicyEngine) (p : Proposal)
    (mandate_chain : option MandateChain) : result Verdict :=
  match engine_validate p with
  | Err x => Ok {| v_allow := false; v_reasons := ["malformed proposal: " +:+ exn_text x] |}
  | Ok _ =>
      let pol := pe_policy e in
      if sp_kill_switch pol
      then Ok {| v_allow := false; v_reasons := ["kill switch engaged"] |}
      else
        mandate ← mandate_reasons now e p mandate_chain;
        let reasons :=
          error_if (negb (is_in (pr_asset p) (sp_allowed_assets pol)))
            ("asset " +:+ pr_asset p +:+ " not in allowed_assets")
          ++ error_if (negb (sp_per_tx_cap pol =? 0) && (sp_per_tx_cap pol <? pr_amount p))
               ("amount " +:+ pretty (pr_amount p) +:+ " > per-tx cap "
                +:+ pretty (sp_per_tx_cap pol))
          ++ window_reasons now e p
          ++ error_if (negb (sp_max_tx_per_window pol =? 0)
                       && (sp_max_tx_per_window pol
                           <? _count_in_window now e (sp_velocity_window_s pol) + 1))
               "velocity limit exceeded"
          ++ recipient_reasons pol p ++ mandate ++ risk_reasons e p in
        Ok {| v_allow := Nat.eqb (length reasons) 0; v_reasons := reasons |}
  end.

Definition verdict_str (v : Verdict) : string := if v_allow v then "ALLOW" else "DENY".

(** * Attestation (guard/attestation.py) *)

Record GuardAttestation := {
  ga_policy_hash : string;
  ga_proposal_hash : string;
  ga_verdict : string;
  ga_reasons : list string;
  ga_timestamp : Z;
  ga_enclave_pub_hex : string;
  ga_signature_hex : string;
}.

Definition attestation_payload (a : GuardAttestation) : bytes := canonical (PDict
  [(KStr "policy_hash", PStr (ga_policy_hash a)); (KStr "proposal_hash", PStr (ga_proposal_hash a));
   (KStr "verdict", PStr (ga_verdict a)); (KStr "reasons", str_list (ga_reasons a));
   (KStr "timestamp", PInt (ga_timestamp a));
   (KStr "enclave_pub_hex", PStr (ga_enclave_pub_hex a))]).

Record EnclaveAttestor := { ea_keys : KeyPair }.

Definition EnclaveAttestor_init (seed : string) : EnclaveAttestor :=
  {| ea_keys := KeyPair_from_seed ("enclave::" +:+ seed) |}.

Definition attest (now : Z) (s : EnclaveAttestor) (policy_hash : string)
    (proposal_canonical : bytes) (verdict : string) (reasons : list string) : GuardAttestation :=
  let att signature_hex :=
    {| ga_policy_hash := policy_hash; ga_proposal_hash := sha256_hex proposal_canonical;
       ga_verdict := verdict; ga_reasons := reasons; ga_timestamp := now;
       ga_enclave_pub_hex := hex (kp_pub (ea_keys s)); ga_signature_hex := signature_hex |} in
  att (hex (KeyPair_sign (ea_keys s) (attestation_payload (att "")))).

Definition verify_attestation (a : GuardAttestation) (expected_pub : bytes) : result bool :=
  if bool_decide (hex expected_pub ≠ ga_enclave_pub_hex a) then Ok false
  else
    sig ← bytes_fromhex (ga_signature_hex a);
    Ok (verify expected_pub (attestation_payload a) sig).
End guard.

#[global] Arguments proposal_canonical : simpl never.
#[global] Arguments engine_evaluate : simpl never.
#[global] Arguments attestation_payload : simpl never.
#[global] Arguments intent_digest : simpl never.
#[global] Arguments cart_digest : simpl never.
