(* ===== verification/Monitor.v ===== *)
(** The reference monitor (src/agentguard-testbed/src/agentwallet/guard/guard.py), the
    agent's handle on it, the executor agent (agents/executor_agent.py) and the x402 payment
    flow it signs for (payments/x402.py).

    A [GuardReceipt] is mutated when its transaction settles, so the guard's state holds the
    receipts it has handed out and [submit] returns the index of one.  The guard owns its
    signer; the chain is shared, and the other parties act on it between the guard's calls. *)
From Stdlib Require Import ZArith Lia Ascii String.
From stdpp Require Import base gmap sets list strings pretty.
From S2P Require Import Prelude Bytes Canonical Contracts Ledger SpendPolicy Guard.

Open Scope Z_scope.

Section monitor.
Context `{!Externals}.

(** * The audit log *)

Record AuditEntry := {
  ae_seq : Z;
  ae_prev_hash : string;
  ae_proposal : pyval;
  ae_verdict : string;
  ae_attestation_sig : string;
  ae_settled : bool;
}.

Definition entry_hash (e : AuditEntry) : string := sha256_hex (canonical (PDict
  [(KStr "seq", PInt (ae_seq e)); (KStr "prev_hash", PStr (ae_prev_hash e));
   (KStr "proposal", ae_proposal e); (KStr "verdict", PStr (ae_verdict e));
   (KStr "attestation_sig", PStr (ae_attestation_sig e)); (KStr "settled", PBool (ae_settled e))])).

Record GuardReceipt := {
  gr_verdict : Verdict;
  gr_attestation : GuardAttestation;
  gr_settled : bool;
  gr_amount_settled : Z;
}.

(** * The guard *)

Record AgentGuard := {
  g_engine : PolicyEngine;
  g_attestor : EnclaveAttestor;
  g_signer : IsolatedSigner;
  g_chain : option LocalChain;
  g_audit : list AuditEntry;
  g_audit_head : string;
  g_policy_hash : string;
  g_pending : gmap string (Proposal * Verdict * GuardAttestation * nat);
  g_receipts : list GuardReceipt;
}.

Definition AgentGuard_init (engine : PolicyEngine) (attestor : EnclaveAttestor)
    (signer : IsolatedSigner) (chain : option LocalChain) : AgentGuard :=
  {| g_engine := engine; g_attestor := attestor; g_signer := signer; g_chain := chain;
     g_audit := []; g_audit_head := "GENESIS"; g_policy_hash := policy_hash (pe_policy engine);
     g_pending := ∅; g_receipts := [] |}.

Definition g_set_engine (v : PolicyEngine) (g : AgentGuard) : AgentGuard :=
  {| g_engine := v; g_attestor := g_attestor g; g_signer := g_signer g; g_chain := g_chain g;
     g_audit := g_audit g; g_audit_head := g_audit_head g; g_policy_hash := g_policy_hash g;
     g_pending := g_pending g; g_receipts := g_receipts g |}.
Definition g_set_chain (v : option LocalChain) (g : AgentGuard) : AgentGuard :=
  {| g_engine := g_engine g; g_attestor := g_attestor g; g_signer := g_signer g; g_chain := v;
     g_audit := g_audit g; g_audit_head := g_audit_head g; g_policy_hash := g_policy_hash g;
     g_pending := g_pending g; g_receipts := g_receipts g |}.
Definition g_set_audit (v : list AuditEntry) (head : string) (g : AgentGuard) : AgentGuard :=
  {| g_engine := g_engine g; g_attestor := g_attestor g; g_signer := g_signer g;
     g_chain := g_chain g; g_audit := v; g_audit_head := head; g_policy_hash := g_policy_hash g;
     g_pending := g_pending g; g_receipts := g_receipts g |}.
Definition g_set_pending (v : gmap string (Proposal * Verdict * GuardAttestation * nat))
    (g : AgentGuard) : AgentGuard :=
  {| g_engine := g_engine g; g_attestor := g_attestor g; g_signer := g_signer g;
     g_chain := g_chain g; g_audit := g_audit g; g_audit_head := g_audit_head g;
     g_policy_hash := g_policy_hash g; g_pending := v; g_receipts := g_receipts g |}.
Definition g_set_receipts (v : list GuardReceipt) (g : AgentGuard) : AgentGuard :=
  {| g_engine := g_engine g; g_attestor := g_attestor g; g_signer := g_signer g;
     g_chain := g_chain g; g_audit := g_audit g; g_audit_head := g_audit_head g;
     g_policy_hash := g_policy_hash g; g_pending := g_pending g; g_receipts := v |}.

(** [_append_audit]; [json.loads(p.canonical().decode())] has its keys in order. *)
Definition _append_audit (p : Proposal) (verdict : Verdict) (att : GuardAttestation)
    (settled : bool) : M AgentGuard unit :=
  update (λ g,
    let entry :=
      {| ae_seq := Z.of_nat (length (g_audit g));
         ae_prev_hash := match last (g_audit g) with Some e => entry_hash e | None => "GENESIS" end;
         ae_proposal := sort_keys (proposal_dict p); ae_verdict := verdict_str verdict;
         ae_attestation_sig := ga_signature_hex att; ae_settled := settled |} in
    g_set_audit (g_audit g ++ [entry]) (entry_hash entry) g).

Fixpoint chain_head (prev : string) (l : list AuditEntry) : option string :=
  match l with
  | [] => Some prev
  | e :: l => if bool_decide (ae_prev_hash e ≠ prev) then None else chain_head (entry_hash e) l
  end.

Definition verify_audit_chain (g : AgentGuard) : bool :=
  match chain_head "GENESIS" (g_audit g) with
  | None => false
  | Some prev => bool_decide (prev = g_audit_head g)
  end.

Definition _decide (now : Z) (p : Proposal) (mandate_chain : option MandateChain)
    (g : AgentGuard) : result (Verdict * GuardAttestation) :=
  verdict ← engine_evaluate now (g_engine g) p mandate_chain;
  Ok (verdict, attest now (g_attestor g) (g_policy_hash g) (proposal_canonical p)
                 (verdict_str verdict) (v_reasons verdict)).

(** [bool(p.meta.get("private"))] *)
Definition meta_private (p : Proposal) : bool :=
  match dict_get "private" (pr_meta p) with Some v => truthy v | None => false end.

Definition _to_tx (p : Proposal) (decision_hash : string) (c : LocalChain) (s : IsolatedSigner)
    : result Tx :=
  let sender := signer_address s in
  let private := meta_private p in
  let nonce := next_nonce c sender in
  let deadline := lc_clock c + 300 in
  let tx :=
    if bool_decide (pr_kind p = "transfer") then
      {| tx_kind := TRANSFER; tx_sender := sender; tx_to := Some (pr_to p);
         tx_amount := pr_amount p; tx_asset := pr_asset p; tx_amount_in := 0;
         tx_token_in := "TUSDC"; tx_token_out := "DRB"; tx_min_out := 0; tx_private := private;
         tx_submitted_at := 0; tx_nonce := nonce; tx_chain_id := lc_chain_id c;
         tx_deadline := deadline; tx_decision_hash := decision_hash;
         tx_public_key_hex := ""; tx_signature_hex := "" |}
    else
      {| tx_kind := SWAP; tx_sender := sender; tx_to := None; tx_amount := 0; tx_asset := "TUSDC";
         tx_amount_in := pr_amount p; tx_token_in := pr_token_in p;
         tx_token_out := pr_token_out p; tx_min_out := pr_min_out p; tx_private := private;
         tx_submitted_at := 0; tx_nonce := nonce; tx_chain_id := lc_chain_id c;
         tx_deadline := deadline; tx_decision_hash := decision_hash;
         tx_public_key_hex := ""; tx_signature_hex := "" |} in
  authorize_transaction s tx.

(** [self.chain.submit(tx)] *)
Definition g_chain_submit (c : LocalChain) (tx : Tx) : M AgentGuard unit :=
  zoom (λ _, c) (λ c' g, g_set_chain (Some c') g) (chain_submit tx).

Definition guard_submit (now : Z) (p : Proposal) (mandate_chain : option MandateChain)
    (settle : bool) : M AgentGuard nat :=
  g ← self;
  d ← lift (_decide now p mandate_chain g);
  let '(verdict, att) := d in
  let receipt := length (g_receipts g) in
  update (λ g, g_set_receipts (g_receipts g ++
    [{| gr_verdict := verdict; gr_attestation := att; gr_settled := false;
        gr_amount_settled := 0 |}]) g);;
  (match v_allow verdict && settle, g_chain g with
   | true, Some c =>
       tx ← lift (_to_tx p (ga_proposal_hash att) c (g_signer g));
       g_chain_submit c tx;;
       update (λ g, g_set_pending (<[tx_hash tx := (p, verdict, att, receipt)]> (g_pending g)) g)
   | _, _ => mret tt
   end);;
  _append_audit p verdict att false;;
  mret receipt.

Definition settle_receipt_object (amount : Z) (r : GuardReceipt) : GuardReceipt :=
  {| gr_verdict := gr_verdict r; gr_attestation := gr_attestation r; gr_settled := true;
     gr_amount_settled := amount |}.

(** One turn of the loop of [reconcile]. *)
Definition reconcile_one (now : Z) (chain_receipt : Receipt) : M AgentGuard unit :=
  g ← self;
  let key := tx_hash (rc_tx chain_receipt) in
  match g_pending g !! key with
  | None => mret tt
  | Some (proposal, verdict, attestation, receipt) =>
      update (g_set_pending (delete key (g_pending g)));;
      if negb (rc_success chain_receipt) then mret tt
      else
        update (λ g, g_set_engine (engine_record now proposal (g_engine g)) g);;
        update (λ g, g_set_receipts
          (alter (settle_receipt_object (pr_amount proposal)) receipt (g_receipts g)) g);;
        _append_audit proposal verdict attestation true
  end.

Fixpoint reconcile (now : Z) (receipts : list Receipt) : M AgentGuard unit :=
  match receipts with
  | [] => mret tt
  | r :: receipts => reconcile_one now r;; reconcile now receipts
  end.

(** [Testbed.mine] (testbed.py): seal a block and settle the guard's receipts. *)
Definition testbed_mine (now : Z) : M AgentGuard (list Receipt) :=
  g ← self;
  c ← lift (or_raise (g_chain g) AssertionError);
  receipts ← zoom (λ _, c) (λ c' g, g_set_chain (Some c') g) mine_block;
  reconcile now receipts;;
  mret receipts.

(** * x402 (payments/x402.py) *)

Record PaymentRequirements := {
  rq_scheme : string;
  rq_network : string;
  rq_asset : string;
  rq_amount : Z;
  rq_pay_to : string;
  rq_resource : string;
  rq_nonce : string;
  rq_expires_at : Z;
}.

Definition requirements_digest (r : PaymentRequirements) : bytes := canonical (PDict
  [(KStr "scheme", PStr (rq_scheme r)); (KStr "network", PStr (rq_network r));
   (KStr "asset", PStr (rq_asset r)); (KStr "amount", PInt (rq_amount r));
   (KStr "pay_to", PStr (rq_pay_to r)); (KStr "resource", PStr (rq_resource r));
   (KStr "nonce", PStr (rq_nonce r)); (KStr "expires_at", PInt (rq_expires_at r))]).

(** The proposal the guard makes of payment requirements. *)
Definition x402_proposal (req : PaymentRequirements) : Proposal :=
  {| pr_kind := "transfer"; pr_amount := rq_amount req; pr_asset := rq_asset req;
     pr_to := rq_pay_to req; pr_token_in := "TUSDC"; pr_token_out := "DRB"; pr_min_out := 0;
     pr_quoted_out := 0; pr_purpose := "x402:" +:+ rq_resource req;
     pr_meta := [(KStr "agent", PStr "x402-client"); (KStr "nonce", PStr (rq_nonce req))] |}.

Definition sign_for_x402 (now : Z) (digest : bytes) (req : PaymentRequirements)
    : M AgentGuard (option (string * string)) :=
  let p := x402_proposal req in
  g ← self;
  d ← lift (_decide now p None g);
  let '(verdict, att) := d in
  if negb (v_allow verdict) then
    _append_audit p verdict att false;; mret None
  else
    update (λ g, g_set_engine (engine_record now p (g_engine g)) g);;
    _append_audit p verdict att true;;
    mret (Some (signer_sign (g_signer g) digest)).

Record PaymentAuthorization := {
  pa_requirements : PaymentRequirements;
  pa_payer : string;
  pa_payer_pub_hex : string;
  pa_signature_hex : string;
}.

(** [X402Client.create_authorization], with the guard as its signing callback. *)
Definition create_authorization (now : Z) (payer : string) (req : PaymentRequirements)
    : M AgentGuard (option PaymentAuthorization) :=
  signed ← sign_for_x402 now (requirements_digest req) req;
  mret (match signed with
        | None => None
        | Some (pub_hex, sig_hex) =>
            Some {| pa_requirements := req; pa_payer := payer; pa_payer_pub_hex := pub_hex;
                    pa_signature_hex := sig_hex |}
        end).

(** [Facilitator], with the chain it settles on. *)
Record Facilitator := { fa_chain : LocalChain; fa_used_nonces : gset string }.

Definition Facilitator_init (chain : LocalChain) : Facilitator :=
  {| fa_chain := chain; fa_used_nonces := ∅ |}.

Definition facilitator_verify (now : Z) (f : Facilitator) (auth : PaymentAuthorization)
    : result (bool * string) :=
  let req := pa_requirements auth in
  if bool_decide (rq_nonce req ∈ fa_used_nonces f) then Ok (false, "replay: nonce already used")
  else if rq_expires_at req <? now then Ok (false, "expired requirements")
  else if rq_amount req <=? 0 then Ok (false, "non-positive amount")
  else
    raw ← bytes_fromhex (pa_payer_pub_hex auth);
    pub ← or_raise (from_public_bytes raw)
      (ValueError "An Ed25519 public key is 32 bytes long");
    if bool_decide (address_of pub ≠ pa_payer auth) then Ok (false, "pubkey does not match payer")
    else
      sig ← bytes_fromhex (pa_signature_hex auth);
      if negb (verify pub (requirements_digest req) sig) then Ok (false, "bad signature")
      else Ok (true, "ok").

Definition facilitator_settle (now : Z) (auth : PaymentAuthorization)
    : M Facilitator (bool * string) :=
  f ← self;
  r ← lift (facilitator_verify now f auth);
  let '(ok, why) := r in
  if negb ok then mret (false, why)
  else
    let req := pa_requirements auth in
    update (λ f, {| fa_chain := fa_chain f;
                    fa_used_nonces := {[ rq_nonce req ]} ∪ fa_used_nonces f |});;
    zoom fa_chain (λ c f, {| fa_chain := c; fa_used_nonces := fa_used_nonces f |})
      (with_token (rq_asset req) (token_transfer (pa_payer auth) (rq_pay_to req) (rq_amount req)));;
    mret (true, "settled").

(** [ResourceServer.respond_402]: the requirements and the server's next counter. *)
Record ResourceServer := {
  rs_address : string;
  rs_price : Z;
  rs_resource : string;
  rs_evil : bool;
  rs_attacker_address : option string;
  rs_n : Z;
}.

Definition respond_402 (now : Z) : M ResourceServer PaymentRequirements :=
  update (λ s, {| rs_address := rs_address s; rs_price := rs_price s; rs_resource := rs_resource s;
                  rs_evil := rs_evil s; rs_attacker_address := rs_attacker_address s;
                  rs_n := rs_n s + 1 |});;
  s ← self;
  let pay_to :=
    match rs_evil s, rs_attacker_address s with
    | true, Some a => if str_truthy a then a else rs_address s
    | _, _ => rs_address s
    end in
  let amount := if rs_evil s then rs_price s * 10 else rs_price s in
  mret {| rq_scheme := "exact"; rq_network := "local-test"; rq_asset := "TUSDC";
          rq_amount := amount; rq_pay_to := pay_to; rq_resource := rs_resource s;
          rq_nonce := String.substring 0 16
            (sha256_hex (encode (rs_resource s +:+ ":" +:+ pretty (rs_n s))));
          rq_expires_at := now + 300 |}.

(** * Agents *)

(** [p.meta.setdefault("agent", self.agent_address)] *)
Definition setdefault_agent (agent_address : string) (p : Proposal) : Proposal :=
  match dict_get "agent" (pr_meta p) with
  | Some _ => p
  | None =>
      {| pr_kind := pr_kind p; pr_amount := pr_amount p; pr_asset := pr_asset p; pr_to := pr_to p;
         pr_token_in := pr_token_in p; pr_token_out := pr_token_out p;
         pr_min_out := pr_min_out p; pr_quoted_out := pr_quoted_out p;
         pr_purpose := pr_purpose p;
         pr_meta := pr_meta p ++ [(KStr "agent", PStr agent_address)] |}
  end.

(** [GuardClient.submit] *)
Definition client_submit (agent_address : string) (now : Z) (p : Proposal)
    (mandate_chain : option MandateChain) : M AgentGuard nat :=
  guard_submit now (setdefault_agent agent_address p) mandate_chain true.

Record PaymentInstruction := {
  pi_amount : Z;
  pi_to : string;
  pi_asset : string;
  pi_purpose : string;
  pi_encoded_channel : bool;
}.

(** [ExecutorAgent] (agents/executor_agent.py) *)
Record ExecutorAgent := {
  ex_agent_address : string;
  ex_trust_peer_instructions : bool;
  ex_inbound_asset_grants : bool;
  ex_accepts_public_commands : bool;
  ex_privilege_unlocked : bool;
}.

Definition on_inbound_asset (asset : string) (a : ExecutorAgent) : ExecutorAgent :=
  if ex_inbound_asset_grants a && bool_decide (asset = "BANKR_CLUB_NFT") then
    {| ex_agent_address := ex_agent_address a;
       ex_trust_peer_instructions := ex_trust_peer_instructions a;
       ex_inbound_asset_grants := ex_inbound_asset_grants a;
       ex_accepts_public_commands := ex_accepts_public_commands a;
       ex_privilege_unlocked := true |}
  else a.

Definition instruction_proposal (i : PaymentInstruction) : Proposal :=
  {| pr_kind := "transfer"; pr_amount := pi_amount i; pr_asset := pi_asset i; pr_to := pi_to i;
     pr_token_in := "TUSDC"; pr_token_out := "DRB"; pr_min_out := 0; pr_quoted_out := 0;
     pr_purpose := pi_purpose i; pr_meta := [] |}.

Definition executor_execute (now : Z) (a : ExecutorAgent) (instr : PaymentInstruction)
    (source : string) : M AgentGuard (option nat) :=
  if bool_decide (source = "peer") && negb (ex_trust_peer_instructions a) then mret None
  else if bool_decide (source = "public")
          && negb (ex_accepts_public_commands a && ex_privilege_unlocked a) then mret None
  else
    r ← client_submit (ex_agent_address a) now (instruction_proposal instr) None;
    mret (Some r).

Definition executor_swap (now : Z) (a : ExecutorAgent) (amount_in min_out quoted_out : Z)
    (private : bool) (token_in token_out : string) : M AgentGuard nat :=
  client_submit (ex_agent_address a) now
    {| pr_kind := "swap"; pr_amount := amount_in; pr_asset := "TUSDC"; pr_to := "";
       pr_token_in := token_in; pr_token_out := token_out; pr_min_out := min_out;
       pr_quoted_out := quoted_out; pr_purpose := "treasury-rebalance";
       pr_meta := [(KStr "private", PBool private)] |} None.
End monitor.

#[global] Arguments testbed_mine : simpl never.

#[global] Arguments entry_hash : simpl never.
#[global] Arguments guard_submit : simpl never.
#[global] Arguments reconcile_one : simpl never.
#[global] Arguments sign_for_x402 : simpl never.
#[global] Arguments facilitator_settle : simpl never.
