(* ===== verification/MonitorFacts.v ===== *)
(** What the guard guarantees: the engine's verdict is exactly the policy, spending that is
    recorded at once stays within its windows, every transaction of the wallet on the chain
    was permitted and audited (unless its digest was signed in place of an x402 payment's, or
    SHA-256 collides), and x402 payments are signed only when permitted and settled
    only once. *)
From Stdlib Require Import ZArith Lia Ascii String.
From stdpp Require Import base gmap sets list strings pretty.
From S2P Require Import Prelude Bytes Canonical CanonicalFacts Contracts ContractsFacts.
From S2P Require Import Decisions JournalFacts Ledger LedgerFacts SpendPolicy Guard Monitor.

Open Scope Z_scope.

Section facts.
Context `{!Externals}.

(** * The verdict *)

(** The payment lies within the user's signed grant and the merchant's signed cart. *)
Record mandate_covers (now spent : Z) (p : Proposal) (mc : MandateChain) : Prop := {
  mv_intent : intent_verify_signature (mc_intent mc) (mc_user_pub mc) = Ok true;
  mv_cart : cart_verify_signature (mc_cart mc) (mc_merchant_pub mc) = Ok true;
  mv_bound : cm_intent_hash (mc_cart mc) = intent_hash (mc_intent mc);
  mv_live : now ≤ im_expires_at (mc_intent mc) ∧ now ≤ cm_expires_at (mc_cart mc);
  mv_agent : meta_agent p = Some (im_agent (mc_intent mc));
  mv_merchant : cm_merchant (mc_cart mc) = pr_to p;
  mv_allowed : im_allowed_merchants (mc_intent mc) = [] ∨
               pr_to p ∈ im_allowed_merchants (mc_intent mc);
  mv_total : cm_total (mc_cart mc) = pr_amount p;
  mv_budget : spent + pr_amount p ≤ im_max_total (mc_intent mc);
}.

(** The policy, rule by rule. *)
Record permitted (now : Z) (e : PolicyEngine) (p : Proposal) (mc : option MandateChain) : Prop := {
  pm_kind : pr_kind p = "transfer" ∨ pr_kind p = "swap";
  pm_amount : 0 < pr_amount p;
  pm_switch : sp_kill_switch (pe_policy e) = false;
  pm_asset : pr_asset p ∈ sp_allowed_assets (pe_policy e);
  pm_cap : sp_per_tx_cap (pe_policy e) = 0 ∨ pr_amount p ≤ sp_per_tx_cap (pe_policy e);
  pm_windows : Forall (λ wc, _spent_in_window now e (wc_window_s wc) + pr_amount p ≤ wc_cap wc)
                 (sp_window_caps (pe_policy e));
  pm_velocity : sp_max_tx_per_window (pe_policy e) = 0 ∨
                _count_in_window now e (sp_velocity_window_s (pe_policy e)) + 1
                ≤ sp_max_tx_per_window (pe_policy e);
  pm_transfer : pr_kind p = "transfer" →
    pr_to p ≠ "" ∧ (pr_to p ∉ sp_blocklist_recipients (pe_policy e)) ∧
    (sp_allowlist_recipients (pe_policy e) = [] ∨ pr_to p ∈ sp_allowlist_recipients (pe_policy e)) ∧
    (pr_amount p ≤ sp_require_mandate_above (pe_policy e) ∨
     ∃ m, mc = Some m ∧ mandate_covers now (spent_under_intent e) p m);
  pm_swap : pr_kind p = "swap" → dynamic_tightening (sp_risk (pe_policy e)) = true →
    pe_pool_move_bps e ≤ pool_move_threshold_bps (sp_risk (pe_policy e)) ∧
    (pr_quoted_out p = 0 ∨ pr_min_out p = 0 ∨
     (pr_quoted_out p - pr_min_out p) * 10000 / Z.max (pr_quoted_out p) 1
     ≤ max_slippage_bps (sp_risk (pe_policy e)));
}.

(** The signatures of a mandate chain are hexadecimal text. *)
Definition chain_hex (mc : option MandateChain) : Prop :=
  match mc with
  | None => True
  | Some m => is_Some (fromhex (im_signature_hex (mc_intent m))) ∧
              is_Some (fromhex (cm_signature_hex (mc_cart m)))
  end.

Lemma nonempty_length {A} (l : list A) : negb (Nat.eqb (length l) 0) = true ↔ l ≠ [].
Proof. by destruct l. Qed.

Lemma empty_length {A} (l : list A) : Nat.eqb (length l) 0 = true ↔ l = [].
Proof. by destruct l. Qed.

Lemma check_payment_exact now i c up mp agent merchant amount spent ok why :
  check_payment_against_chain now i c up mp agent merchant amount spent = Ok (ok, why) →
  (ok = true ↔
    intent_verify_signature i up = Ok true ∧ cart_verify_signature c mp = Ok true ∧
    cm_intent_hash c = intent_hash i ∧ (now ≤ im_expires_at i ∧ now ≤ cm_expires_at c) ∧
    agent = Some (im_agent i) ∧ cm_merchant c = merchant ∧
    (im_allowed_merchants i = [] ∨ merchant ∈ im_allowed_merchants i) ∧
    cm_total c = amount ∧ spent + amount ≤ im_max_total i).
Proof.
  unfold check_payment_against_chain, mbind, result_bind.
  destruct (intent_verify_signature i up) as [[]|]; cbn [negb]; [|intros [= <- <-]; naive_solver|done].
  destruct (cart_verify_signature c mp) as [[]|]; cbn [negb]; [|intros [= <- <-]; naive_solver|done].
  case_bool_decide; [intros [= <- <-]; naive_solver|].
  destruct ((im_expires_at i <? now) || (cm_expires_at c <? now)) eqn:Hexp; prop_of_bool;
    [intros [= <- <-]; split; [done|]; intros; destruct_and!; lia|].
  case_bool_decide; [intros [= <- <-]; naive_solver|].
  case_bool_decide; [intros [= <- <-]; naive_solver|].
  destruct (negb (Nat.eqb (length (im_allowed_merchants i)) 0)
            && negb (is_in merchant (im_allowed_merchants i))) eqn:Hall.
  { intros [= <- <-]. apply andb_true_iff in Hall as [Hne Hnin].
    apply nonempty_length in Hne. apply negb_true_iff, bool_decide_eq_false in Hnin. naive_solver. }
  destruct (Z.eqb_spec (cm_total c) amount); cbn [negb]; [|intros [= <- <-]; naive_solver].
  destruct (Z.ltb_spec (im_max_total i) (spent + amount)); intros [= <- <-]; split; try done.
  - intros; destruct_and!; lia.
  - intros _. split_and!; try done; try naive_solver lia.
    rewrite andb_false_iff, !negb_false_iff, is_in_true, empty_length in Hall. done.
Qed.

Lemma check_payment_total now i c up mp agent merchant amount spent :
  is_Some (fromhex (im_signature_hex i)) → is_Some (fromhex (cm_signature_hex c)) →
  ∃ r, check_payment_against_chain now i c up mp agent merchant amount spent = Ok r.
Proof.
  intros [isig Hi] [csig Hc]. unfold check_payment_against_chain.
  unfold intent_verify_signature, cart_verify_signature, bytes_fromhex. rewrite Hi, Hc.
  unfold mbind, result_bind. cbn [or_raise]. case_tests; eauto.
Qed.

Lemma mandate_reasons_exact now e p mc l :
  mandate_reasons now e p mc = Ok l →
  (l = [] ↔ (pr_kind p = "transfer" →
     pr_amount p ≤ sp_require_mandate_above (pe_policy e) ∨
     ∃ m, mc = Some m ∧ mandate_covers now (spent_under_intent e) p m)).
Proof.
  unfold mandate_reasons. case_bool_decide as Hkind; cbn [andb];
    [|intros [= <-]; naive_solver].
  destruct (Z.ltb_spec (sp_require_mandate_above (pe_policy e)) (pr_amount p)) as [Hlt|Hle];
    [|intros [= <-]; naive_solver].
  destruct mc as [m|]; last first.
  { intros [= <-]. split; [done|]. intros Hm. destruct (Hm Hkind) as [|(? & ? & ?)]; [lia|done]. }
  intros Hl. ok_inv Hl. injection Hl as <-.
  match goal with H : check_payment_against_chain _ _ _ _ _ _ _ _ _ = Ok ?r |- _ =>
    destruct r as [ok why]; apply check_payment_exact in H as Hok end.
  cbn. rewrite error_if_nil, negb_false_iff, Hok. split.
  - intros Hall _. right. exists m. split; [done|]. by destruct_and!.
  - intros Hall. destruct (Hall Hkind) as [|(m' & [= <-] & [])]; [lia|done].
Qed.

Lemma mandate_reasons_total now e p mc :
  chain_hex mc → ∃ l, mandate_reasons now e p mc = Ok l.
Proof.
  intros Hhex. unfold mandate_reasons. destruct (_ && _); [|eauto].
  destruct mc as [m|]; [|eauto]. destruct Hhex as [Hi Hc].
  destruct (check_payment_total now (mc_intent m) (mc_cart m) (mc_user_pub m) (mc_merchant_pub m)
    (meta_agent p) (pr_to p) (pr_amount p) (spent_under_intent e) Hi Hc) as [r ->]. cbn. eauto.
Qed.

Lemma window_reasons_nil now e p :
  window_reasons now e p = [] ↔
  Forall (λ wc, _spent_in_window now e (wc_window_s wc) + pr_amount p ≤ wc_cap wc)
    (sp_window_caps (pe_policy e)).
Proof.
  unfold window_reasons. induction (sp_window_caps (pe_policy e)) as [|wc l IH]; cbn; [done|].
  rewrite app_nil_iff, error_if_nil, Z.ltb_ge, Forall_cons. by rewrite IH.
Qed.

Lemma recipient_reasons_nil pol p :
  recipient_reasons pol p = [] ↔
  (pr_kind p = "transfer" →
   (pr_to p ∉ sp_blocklist_recipients pol) ∧
   (sp_allowlist_recipients pol = [] ∨ pr_to p ∈ sp_allowlist_recipients pol)).
Proof.
  unfold recipient_reasons. case_bool_decide; [|naive_solver].
  rewrite app_nil_iff, !error_if_nil, andb_false_iff, !negb_false_iff, empty_length, is_in_true.
  unfold is_in. rewrite bool_decide_eq_false. naive_solver.
Qed.

Lemma risk_reasons_nil e p :
  risk_reasons e p = [] ↔
  (pr_kind p = "swap" → dynamic_tightening (sp_risk (pe_policy e)) = true →
   pe_pool_move_bps e ≤ pool_move_threshold_bps (sp_risk (pe_policy e)) ∧
   (pr_quoted_out p = 0 ∨ pr_min_out p = 0 ∨
    (pr_quoted_out p - pr_min_out p) * 10000 / Z.max (pr_quoted_out p) 1
    ≤ max_slippage_bps (sp_risk (pe_policy e)))).
Proof.
  unfold risk_reasons. case_bool_decide; [|naive_solver].
  destruct (dynamic_tightening _); cbn [andb]; [|naive_solver].
  rewrite app_nil_iff, error_if_nil, Z.ltb_ge.
  destruct (Z.eqb_spec (pr_quoted_out p) 0), (Z.eqb_spec (pr_min_out p) 0); cbn [negb andb];
    rewrite ?error_if_nil, ?Z.ltb_ge; naive_solver.
Qed.

Lemma engine_validate_Ok p u :
  engine_validate p = Ok u ↔
  (pr_kind p = "transfer" ∨ pr_kind p = "swap") ∧ 0 < pr_amount p ∧
  (pr_kind p = "transfer" → pr_to p ≠ "").
Proof.
  assert (pr_kind p ∈ ["transfer"; "swap"] ↔ pr_kind p = "transfer" ∨ pr_kind p = "swap") as Hin
    by (rewrite !elem_of_cons, elem_of_nil; naive_solver).
  destruct u. unfold engine_validate, str_truthy, is_in. rewrite !raise_if_bind.
  case_bool_decide as Hk; cbn [negb]; [|naive_solver].
  destruct (Z.leb_spec (pr_amount p) 0); [naive_solver lia|].
  do 2 case_bool_decide; cbn; naive_solver.
Qed.

Lemma evaluate_exact now e p mc v :
  engine_evaluate now e p mc = Ok v →
  (v_allow v = true ↔ permitted now e p mc) ∧ (v_allow v = true ↔ v_reasons v = []).
Proof.
  unfold engine_evaluate. destruct (engine_validate p) as [u|x] eqn:Hv; last first.
  { intros [= <-]. cbn. split; [|done]. split; [done|]. intros [Hk Ha _ _ _ _ _ Ht _].
    enough (engine_validate p = Ok tt) by congruence. apply engine_validate_Ok. naive_solver. }
  apply engine_validate_Ok in Hv as (Hkind & Hpos & Hto).
  destruct (sp_kill_switch (pe_policy e)) eqn:Hks.
  { intros [= <-]. cbn. split; [|done]. split; [done|]. intros []. congruence. }
  intros He. ok_inv He. injection He as <-. cbn [v_allow v_reasons].
  match goal with H : mandate_reasons _ _ _ _ = Ok _ |- _ => apply mandate_reasons_exact in H as Hm end.
  rewrite empty_length. split; [|done].
  rewrite !app_nil_iff, !error_if_nil, window_reasons_nil, recipient_reasons_nil, risk_reasons_nil, Hm.
  rewrite !andb_false_iff, !negb_false_iff, is_in_true, !Z.eqb_eq, !Z.ltb_ge.
  split.
  - intros (Ha & Hc & Hw & Hvel & Hr & Hmand & Hrisk). split; try done. naive_solver.
  - intros [_ _ _ Ha Hc Hw Hvel Ht Hrisk]. naive_solver.
Qed.

Lemma evaluate_total now e p mc : chain_hex mc → ∃ v, engine_evaluate now e p mc = Ok v.
Proof.
  intros Hhex. unfold engine_evaluate. destruct (engine_validate p); [|eauto].
  destruct (sp_kill_switch _); [eauto|].
  destruct (mandate_reasons_total now e p mc Hhex) as [l ->]. cbn. eauto.
Qed.

Lemma bytes_fromhex_Err s x :
  bytes_fromhex s = Err x → fromhex s = None ∧ ∃ why, x = ValueError why.
Proof. unfold bytes_fromhex. destruct (fromhex s); [done|]. intros [= <-]. eauto. Qed.

Lemma evaluate_Err now e p mc x :
  engine_evaluate now e p mc = Err x → mandate_reasons now e p mc = Err x.
Proof.
  unfold engine_evaluate. destruct (engine_validate p); [|done].
  destruct (sp_kill_switch _); [done|]. destruct (mandate_reasons now e p mc); [done|].
  by intros [= <-].
Qed.

(** The one way [evaluate] raises: a signature of the mandate chain it needed to check is
    not hexadecimal. *)
Lemma mandate_reasons_raises now e p mc x :
  mandate_reasons now e p mc = Err x → ∃ why, x = ValueError why.
Proof.
  unfold mandate_reasons. destruct (_ && _); [|done]. destruct mc as [m|]; [|done].
  unfold check_payment_against_chain, intent_verify_signature, cart_verify_signature.
  destruct (bytes_fromhex (im_signature_hex (mc_intent m))) as [isig|x1] eqn:Hi; last first.
  { intros [= <-]. by apply bytes_fromhex_Err in Hi as [_ ?]. }
  destruct (bytes_fromhex (cm_signature_hex (mc_cart m))) as [csig|x2] eqn:Hc; last first.
  { cbn. destruct (negb _); [done|]. intros [= <-]. by apply bytes_fromhex_Err in Hc as [_ ?]. }
  cbn. clear. case_tests; done.
Qed.

(** A payment with such a mandate is not permitted. *)
Lemma mandate_reasons_denied now e p mc x :
  mandate_reasons now e p mc = Err x → ¬ permitted now e p mc.
Proof.
  intros He Hp. unfold mandate_reasons in He. case_bool_decide as Hk; [|done].
  destruct (pm_transfer _ _ _ _ Hp Hk) as (_ & _ & _ & [Hle|(m & -> & Hm)]).
  - by rewrite (proj2 (Z.ltb_ge _ _) Hle) in He.
  - destruct (true && _); [|done]. unfold check_payment_against_chain in He.
    rewrite (mv_intent _ _ _ _ Hm), (mv_cart _ _ _ _ Hm) in He. cbn in He.
    revert He. clear. case_tests; done.
Qed.

(** C34: the engine's verdict is the policy, for every proposal and mandate chain.
    When [evaluate] returns, it allows exactly the proposals every rule of the policy
    permits: a known kind and a positive amount, no kill switch, an allowed asset, the
    per-transaction, window and velocity limits against the recorded history, the
    recipient lists, the mandate above the threshold and the swap risk limits; reasons
    are given exactly when it denies.  It raises in one case only: a [ValueError]
    because a signature of the mandate chain is not hexadecimal text, and then the
    proposal is not permitted; with signatures that are hexadecimal text, or no mandate
    chain, it always returns a verdict. *)
Theorem engine_evaluate_decides now e p mc :
  match engine_evaluate now e p mc with
  | Ok v => (v_allow v = true ↔ permitted now e p mc) ∧ (v_allow v = true ↔ v_reasons v = [])
  | Err x => ¬ permitted now e p mc ∧ ¬ chain_hex mc ∧ ∃ why, x = ValueError why
  end.
Proof.
  destruct (engine_evaluate now e p mc) as [v|x] eqn:He; [by apply evaluate_exact|].
  pose proof (evaluate_Err now e p mc x He) as Hm.
  split_and!; [by eapply mandate_reasons_denied| |by eapply mandate_reasons_raises].
  intros Hhex. destruct (evaluate_total now e p mc Hhex) as [v Hv]. congruence.
Qed.

(** * Spending that is recorded at once *)

Lemma sum_amounts_cons r l : sum_amounts (r :: l) = sr_amount r + sum_amounts l.
Proof. done. Qed.

Lemma spent_mono now now' w l :
  now ≤ now' → Forall (λ r, 0 < sr_amount r) l →
  sum_amounts (in_window now' w l) ≤ sum_amounts (in_window now w l).
Proof.
  intros Hle Hl. unfold in_window. induction Hl as [|r l Hr Hl IH]; [done|].
  rewrite !filter_cons. do 2 case_decide; cbn -[sum_amounts]; rewrite ?sum_amounts_cons; lia.
Qed.

Lemma count_mono now now' w l :
  now ≤ now' → (length (in_window now' w l) ≤ length (in_window now w l))%nat.
Proof.
  intros Hle. unfold in_window. induction l as [|r l IH]; [done|].
  rewrite !filter_cons. do 2 case_decide; cbn; lia.
Qed.

Lemma sum_amounts_app l l' : sum_amounts (l ++ l') = sum_amounts l + sum_amounts l'.
Proof. induction l as [|r l IH]; cbn; [done|]. unfold sum_amounts in *. lia. Qed.

(** From time [T] on, the history is within every window cap and the velocity limit. *)
Record within (T : Z) (e : PolicyEngine) : Prop := {
  wi_positive : Forall (λ r, 0 < sr_amount r) (pe_history e);
  wi_windows : ∀ now, T ≤ now →
    Forall (λ wc, _spent_in_window now e (wc_window_s wc) ≤ wc_cap wc) (sp_window_caps (pe_policy e));
  wi_velocity : ∀ now, T ≤ now → sp_max_tx_per_window (pe_policy e) ≠ 0 →
    _count_in_window now e (sp_velocity_window_s (pe_policy e)) ≤ sp_max_tx_per_window (pe_policy e);
}.

Lemma within_later T T' e : T ≤ T' → within T e → within T' e.
Proof. intros Hle [Hp Hw Hv]. split; [done|..]; intros; [apply Hw|apply Hv]; lia || done. Qed.

Lemma within_init e :
  policy_wf (pe_policy e) → pe_history e = [] → ∀ T, within T e.
Proof.
  intros [_ Hw [Hv _] _ _] Hh T. unfold _spent_in_window, _count_in_window in *.
  split; unfold _spent_in_window, _count_in_window; rewrite Hh; [done| |].
  - intros now _. apply (Forall_impl _ _ _ Hw). cbn. by intros wc [_ ?].
  - intros now _ Hne. done.
Qed.

Lemma within_record now e p mc :
  within now e → permitted now e p mc → within now (engine_record now p e).
Proof.
  intros [Hp Hw Hv] Hperm. destruct Hperm as [_ Ha _ _ _ Hwin Hvel _ _].
  split; cbn [engine_record pe_history pe_policy].
  - apply Forall_app. split; [done|]. by apply Forall_singleton.
  - intros t Ht. apply Forall_forall. intros wc Hwc.
    rewrite Forall_forall in Hwin. specialize (Hwin wc Hwc). unfold _spent_in_window in *.
    cbn [engine_record pe_history]. unfold in_window at 1. rewrite filter_app, sum_amounts_app.
    pose proof (spent_mono now t (wc_window_s wc) (pe_history e) Ht Hp) as Hmono.
    unfold in_window in Hmono. rewrite filter_cons, filter_nil. case_decide; cbn; unfold in_window in *; lia.
  - intros t Ht Hne. unfold _count_in_window in *. cbn [engine_record pe_history].
    unfold in_window at 1. rewrite filter_app, length_app.
    pose proof (count_mono now t (sp_velocity_window_s (pe_policy e)) (pe_history e) Ht) as Hmono.
    unfold in_window in Hmono. rewrite filter_cons, filter_nil.
    case_decide; cbn; unfold in_window in *; lia.
Qed.

(** What [_decide] returns. *)
Lemma decide_Ok now p mc g v att :
  _decide now p mc g = Ok (v, att) →
  engine_evaluate now (g_engine g) p mc = Ok v ∧
  att = attest now (g_attestor g) (g_policy_hash g) (proposal_canonical p) (verdict_str v)
          (v_reasons v).
Proof. unfold _decide. intros Hd. ok_inv Hd. by simplify_eq. Qed.

(** A proposal the engine allowed was permitted. *)
Lemma evaluate_permitted now e p mc v :
  engine_evaluate now e p mc = Ok v → v_allow v = true → permitted now e p mc.
Proof. intros He. by apply evaluate_exact in He as [[Hp _] _]. Qed.

(** * The operations of the guard, branch by branch *)

Definition new_receipt (v : Verdict) (att : GuardAttestation) : GuardReceipt :=
  {| gr_verdict := v; gr_attestation := att; gr_settled := false; gr_amount_settled := 0 |}.

Definition audited (p : Proposal) (v : Verdict) (att : GuardAttestation) (settled : bool)
    (g : AgentGuard) : AgentGuard := fst (_append_audit p v att settled g).

Definition handed_out (v : Verdict) (att : GuardAttestation) (g : AgentGuard) : AgentGuard :=
  g_set_receipts (g_receipts g ++ [new_receipt v att]) g.

(** The states [submit] can leave: undecided, decided but not sent, sent, or refused by
    the chain. *)
Inductive submitted (now : Z) (p : Proposal) (mc : option MandateChain) (settle : bool)
    (g : AgentGuard) : AgentGuard → result nat → Prop :=
  | sub_undecided e :
      _decide now p mc g = Err e → submitted now p mc settle g g (Err e)
  | sub_kept v att :
      _decide now p mc g = Ok (v, att) → v_allow v && settle = false ∨ g_chain g = None →
      submitted now p mc settle g (audited p v att false (handed_out v att g))
        (Ok (length (g_receipts g)))
  | sub_sent v att c tx :
      _decide now p mc g = Ok (v, att) → v_allow v = true → settle = true →
      g_chain g = Some c → _to_tx p (ga_proposal_hash att) c (g_signer g) = Ok tx →
      _verify_authorization c tx = Ok tt →
      submitted now p mc settle g
        (audited p v att false
           (g_set_pending (<[tx_hash tx := (p, v, att, length (g_receipts g))]> (g_pending g))
              (g_set_chain (Some (fst (chain_submit tx c))) (handed_out v att g))))
        (Ok (length (g_receipts g)))
  | sub_refused v att c e :
      _decide now p mc g = Ok (v, att) → v_allow v = true → settle = true → g_chain g = Some c →
      _to_tx p (ga_proposal_hash att) c (g_signer g) = Err e ∨
      (∃ tx, _to_tx p (ga_proposal_hash att) c (g_signer g) = Ok tx ∧
             _verify_authorization c tx = Err e) →
      submitted now p mc settle g (handed_out v att g) (Err e).

Lemma guard_submit_cases now p mc settle g :
  submitted now p mc settle g (fst (guard_submit now p mc settle g))
    (snd (guard_submit now p mc settle g)).
Proof.
  unfold guard_submit, mbind, M_bind, self, lift.
  destruct (_decide now p mc g) as [[v att]|e] eqn:Hd; [|by apply sub_undecided].
  cbn [update]. destruct (v_allow v && settle) eqn:Hallow.
  - apply andb_true_iff in Hallow as [Hv Hs]. destruct (g_chain g) as [c|] eqn:Hc.
    + destruct (_to_tx p _ c (g_signer g)) as [tx|e] eqn:Htx; last first.
      { eapply sub_refused; eauto. }
      unfold g_chain_submit, zoom. rewrite chain_submit_cases.
      destruct (_verify_authorization c tx) as [[]|e] eqn:Ha.
      * cbn. pose proof (sub_sent now p mc settle g v att c tx Hd Hv Hs Hc Htx Ha) as Hsent.
        rewrite chain_submit_cases, Ha in Hsent. exact Hsent.
      * cbn. replace (g_set_chain (Some c) _) with (handed_out v att g)
          by (unfold handed_out; destruct g; cbn in *; by subst).
        eapply sub_refused; eauto.
    + eapply sub_kept; eauto.
  - eapply sub_kept; eauto.
Qed.

(** A property of the guard that each of its elementary updates preserves. *)
Record closed (P : AgentGuard → Prop) : Prop := {
  cl_pending : ∀ g v, P g → P (g_set_pending v g);
  cl_engine : ∀ g e, pe_policy e = pe_policy (g_engine g) → P g → P (g_set_engine e g);
  cl_settle : ∀ g n i,
    P g → P (g_set_receipts (alter (settle_receipt_object n) i (g_receipts g)) g);
  cl_receipt : ∀ g now p v,
    P g → P (handed_out v (attest now (g_attestor g) (g_policy_hash g) (proposal_canonical p)
                             (verdict_str v) (v_reasons v)) g);
  cl_chain : ∀ g v, P g → P (g_set_chain v g);
  cl_audit : ∀ g p v att b, P g → P (audited p v att b g);
}.

Lemma reconcile_keeps P now rs g : closed P → P g → P (fst (reconcile now rs g)).
Proof.
  intros [Hpend Heng Hset _ _ Haud]. revert g. induction rs as [|rc rs IH]; intros g Hg; [done|].
  cbn [reconcile]. unfold mbind at 1, M_bind at 1.
  assert (P (fst (reconcile_one now rc g))) as Hone.
  { unfold reconcile_one, mbind, M_bind, self.
    destruct (g_pending g !! tx_hash (rc_tx rc)) as [[[[p v] att] r]|]; [|done].
    cbn [update]. destruct (negb (rc_success rc)); [cbn; auto|].
    apply (Haud _ p v att true), (Hset (g_set_engine _ _)). auto. }
  destruct (reconcile_one now rc g) as [g' [u|e]]; [by apply IH|done].
Qed.

(** * Runs of the guard *)

(** The guard's own operations, the market observer, and what others do on the chain. *)
Inductive guard_op :=
  | GSubmit (now : Z) (p : Proposal) (mc : option MandateChain) (settle : bool)
  | GX402 (now : Z) (digest : bytes) (req : PaymentRequirements)
  | GMine (now : Z)
  | GObserve (bps : Z)
  | GOther (o : chain_op).

Definition observe (bps : Z) (e : PolicyEngine) : PolicyEngine :=
  {| pe_policy := pe_policy e; pe_history := pe_history e; pe_pool_move_bps := bps |}.

Definition run_gop (o : guard_op) (g : AgentGuard) : AgentGuard :=
  match o with
  | GSubmit now p mc settle => fst (guard_submit now p mc settle g)
  | GX402 now digest req => fst (sign_for_x402 now digest req g)
  | GMine now => fst (testbed_mine now g)
  | GObserve bps => g_set_engine (observe bps (g_engine g)) g
  | GOther o => g_set_chain (run_op o <$> g_chain g) g
  end.

Definition run_gops (os : list guard_op) (g : AgentGuard) : AgentGuard :=
  foldl (λ g o, run_gop o g) g os.

Lemma run_gops_snoc os o g : run_gops (os ++ [o]) g = run_gop o (run_gops os g).
Proof. unfold run_gops. by rewrite foldl_app. Qed.

(** What every operation of the guard preserves. *)
Lemma run_gop_keeps P o g : closed P → P g → P (run_gop o g).
Proof.
  intros Hcl Hg. pose proof Hcl as [Hpend Heng _ Hrec Hch Haud].
  destruct o as [now p mc settle|now digest req|now|bps|o]; cbn [run_gop]; [| | |by auto|by auto].
  - destruct (guard_submit_cases now p mc settle g) as [|v att Hd|v att c tx Hd|v att c e Hd]; [done|..];
      apply decide_Ok in Hd as [_ ->]; auto.
  - unfold sign_for_x402, mbind, M_bind, self, lift.
    destruct (_decide _ _ _ _) as [[v att]|e]; [|done].
    destruct (negb (v_allow v)); [by apply (Haud g (x402_proposal req) v att false)|].
    apply (Haud (g_set_engine _ g) (x402_proposal req) v att true). auto.
  - unfold testbed_mine, mbind, M_bind, self, lift, zoom.
    destruct (g_chain g) as [c|]; [|done]. cbn [or_raise].
    destruct (mine_block c) as [c' [rs|e]]; [|cbn; auto].
    pose proof (reconcile_keeps P now rs (g_set_chain (Some c') g) Hcl (Hch _ _ Hg)) as Hr.
    by destruct (reconcile now rs _) as [? []].
Qed.

Lemma run_gops_keeps P os g : closed P → P g → P (run_gops os g).
Proof.
  intros Hcl. revert g. induction os as [|o os IH]; intros g Hg; [done|].
  change (run_gops (o :: os) g) with (run_gops os (run_gop o g)). apply IH. by apply run_gop_keeps.
Qed.

(** ** The audit log *)

Definition audit_ok (g : AgentGuard) : Prop :=
  chain_head "GENESIS" (g_audit g) = Some (g_audit_head g) ∧
  g_audit_head g = match last (g_audit g) with Some e => entry_hash e | None => "GENESIS" end ∧
  ∀ i e, g_audit g !! i = Some e → ae_seq e = Z.of_nat i.

Lemma chain_head_snoc prev l head e :
  chain_head prev l = Some head → ae_prev_hash e = head →
  chain_head prev (l ++ [e]) = Some (entry_hash e).
Proof.
  revert prev. induction l as [|x l IH]; cbn [chain_head app]; intros prev.
  - intros [= ->] ->. by rewrite bool_decide_false by auto.
  - destruct (bool_decide (ae_prev_hash x ≠ prev)); [done|]. apply IH.
Qed.

Lemma audited_ok p v att b g : audit_ok g → audit_ok (audited p v att b g).
Proof.
  intros (Hch & Hhead & Hseq). unfold audited, _append_audit, update, audit_ok. cbn [fst g_audit g_audit_head g_set_audit].
  split_and!.
  - eapply chain_head_snoc; [done|]. cbn. by rewrite Hhead.
  - by rewrite last_snoc.
  - intros i e Hi. destruct (decide (i < length (g_audit g))%nat) as [Hlt|Hge].
    + rewrite lookup_app_l in Hi by done. by apply Hseq.
    + apply lookup_app_Some in Hi as [Hi|[_ Hi]]; [by apply Hseq|].
      destruct (i - length (g_audit g))%nat eqn:Hd; [|done]. cbn in Hi. simplify_eq. cbn. lia.
Qed.

Lemma closed_audit_ok : closed audit_ok.
Proof. split; try done. intros; by apply audited_ok. Qed.

(** The identity of the guard does not change, and its log only grows. *)
Lemma closed_identity g0 :
  closed (λ g, g_audit g0 `prefix_of` g_audit g ∧ g_signer g = g_signer g0 ∧
               g_attestor g = g_attestor g0 ∧ g_policy_hash g = g_policy_hash g0 ∧
               pe_policy (g_engine g) = pe_policy (g_engine g0)).
Proof.
  split; try done.
  - intros g e He (Ha & Hs & Ht & Hp & Hpol). split_and!; try done. cbn. congruence.
  - intros g p v att b (Ha & Hrest). split; [|done]. etrans; [done|]. by eexists.
Qed.

(** ** Attestations *)

(** Ed25519 public keys are 32 bytes and signatures 64. *)
Class KeyLaw : Prop := {
  ed_public_length : ∀ seed, length (ed_public (_seed_bytes seed)) = 32%nat;
  ed_sign_length : ∀ k m, length (ed_sign k m) = 64%nat;
}.

Lemma bytes_fromhex_hex b : bytes_fromhex (hex b) = Ok b.
Proof. unfold bytes_fromhex. by rewrite fromhex_hex. Qed.

Lemma attest_verifies `{!Ed25519Law} now seed ph pc verdict reasons :
  let s := EnclaveAttestor_init seed in
  verify_attestation (attest now s ph pc verdict reasons) (kp_pub (ea_keys s)) = Ok true.
Proof.
  intros s. unfold verify_attestation, attest. cbn [ga_enclave_pub_hex ga_signature_hex].
  rewrite bool_decide_false by auto. rewrite bytes_fromhex_hex. cbn.
  unfold verify, KeyPair_sign. f_equal. apply ed_verify_sign.
Qed.

(** Every receipt carries a verdict and a valid attestation of it under the guard's policy. *)
Definition receipts_attested (seed : string) (g : AgentGuard) : Prop :=
  g_attestor g = EnclaveAttestor_init seed ∧
  Forall (λ r, verify_attestation (gr_attestation r) (kp_pub (ea_keys (g_attestor g))) = Ok true ∧
               ga_verdict (gr_attestation r) = verdict_str (gr_verdict r) ∧
               ga_policy_hash (gr_attestation r) = g_policy_hash g) (g_receipts g).

Lemma closed_receipts `{!Ed25519Law} seed : closed (receipts_attested seed).
Proof.
  split; try done.
  - intros g n i [Hs Hr]. split; [done|]. cbn. apply Forall_alter; [done|]. by intros r _ Hrc.
  - intros g now p v [Hs Hr]. split; [done|]. cbn. apply Forall_app. split; [done|].
    apply Forall_singleton. cbn. split; [|done]. rewrite Hs. apply attest_verifies.
Qed.

(** The guard's record of its decisions is tamper-evident at every moment.  After any
    sequence of submissions, x402 signatures, blocks and actions of others, the audit chain
    verifies against its head, its entries are numbered in order, it is an extension of
    every earlier log, and every receipt handed out carries an attestation that verifies
    under the enclave key for the policy the guard was built with and the verdict given. *)
Theorem guard_decisions_recorded `{!Ed25519Law} engine seed signer chain os os' :
  let g0 := AgentGuard_init engine (EnclaveAttestor_init seed) signer chain in
  let g := run_gops os g0 in let g' := run_gops os' g in
  verify_audit_chain g = true ∧
  (∀ i e, g_audit g !! i = Some e → ae_seq e = Z.of_nat i) ∧
  g_audit g `prefix_of` g_audit g' ∧
  Forall (λ r,
    verify_attestation (gr_attestation r) (kp_pub (ea_keys (EnclaveAttestor_init seed))) = Ok true ∧
    ga_verdict (gr_attestation r) = verdict_str (gr_verdict r) ∧
    ga_policy_hash (gr_attestation r) = policy_hash (pe_policy engine)) (g_receipts g).
Proof.
  intros g0 g g'.
  destruct (run_gops_keeps audit_ok os g0 closed_audit_ok) as (Hch & _ & Hseq); [done|].
  fold g in Hch, Hseq. split_and!.
  - unfold verify_audit_chain. rewrite Hch. by apply bool_decide_true.
  - done.
  - by destruct (run_gops_keeps _ os' g (closed_identity g) ltac:(done)) as [Hp _].
  - destruct (run_gops_keeps _ os g0 (closed_identity g0) ltac:(done)) as (_ & _ & Hatt & Hph & _).
    destruct (run_gops_keeps _ os g0 (closed_receipts seed)) as [_ Hr]; [by split|].
    fold g in Hatt, Hph, Hr. rewrite Hatt, Hph in Hr. exact Hr.
Qed.

(** ** The wallet's transactions *)

Lemma history_op o c t :
  t ∈ history (run_op o c) →
  t ∈ history c
  ∨ ∃ t0, o = OpSubmit t0 ∧ _verify_authorization c t0 = Ok tt
      ∧ t = set_submitted_at (lc_clock c) t0.
Proof.
  pose proof (quiet_op o c) as Hq. destruct o as [|t0| | |];
    try (destruct (Hq I) as (-> & _); by left); clear Hq; cbn [run_op].
  - rewrite chain_submit_cases. destruct (_verify_authorization c t0) as [[]|] eqn:Ha; [|by left].
    unfold history. cbn.
    rewrite app_assoc, elem_of_app, list_elem_of_singleton. intros [Ht|Ht]; [by left|right]. eauto.
  - destruct (mine_block c) as [c' r] eqn:Hm. apply mine_spec in Hm as (Hmem & _ & _ & _ & _ & Hb & Hrs).
    unfold history. cbn [fst]. rewrite Hmem, Hb, concat_app, fmap_app, app_nil_r, !elem_of_app.
    intros [Ht|Ht]; left; [by left|right]. destruct r as [rs|e]; [|by apply elem_of_nil in Ht].
    destruct (Hrs rs eq_refl) as [<- _]. cbn in Ht. by rewrite app_nil_r in Ht.
Qed.

Lemma reconcile_chain now rs g : g_chain (fst (reconcile now rs g)) = g_chain g.
Proof.
  revert g. induction rs as [|rc rs IH]; intros g; [done|].
  cbn [reconcile]. unfold mbind at 1, M_bind at 1.
  assert (g_chain (fst (reconcile_one now rc g)) = g_chain g) as Hone.
  { unfold reconcile_one, mbind, M_bind, self.
    destruct (g_pending g !! tx_hash (rc_tx rc)) as [[[[p v] att] r]|]; [|done].
    cbn [update]. by destruct (negb (rc_success rc)). }
  destruct (reconcile_one now rc g) as [g' [u|e]]; cbn in Hone; [by rewrite IH|done].
Qed.

(** Everything on the guard's chain. *)
Definition ghistory (g : AgentGuard) : list Tx := from_option history [] (g_chain g).

(** The transaction does exactly what the proposal says. *)
Definition carries (p : Proposal) (t : Tx) : Prop :=
  (pr_kind p = "transfer" ∧ tx_kind t = TRANSFER ∧ tx_to t = Some (pr_to p) ∧
   tx_amount t = pr_amount p ∧ tx_asset t = pr_asset p) ∨
  (pr_kind p = "swap" ∧ tx_kind t = SWAP ∧ tx_amount_in t = pr_amount p ∧
   tx_token_in t = pr_token_in p ∧ tx_token_out t = pr_token_out p ∧ tx_min_out t = pr_min_out p).

Lemma to_tx_carries p dh c s tx :
  (pr_kind p = "transfer" ∨ pr_kind p = "swap") → _to_tx p dh c s = Ok tx →
  carries p tx ∧ tx_decision_hash tx = dh ∧ tx_sender tx = signer_address s.
Proof.
  intros Hkind. unfold _to_tx, authorize_transaction. rewrite raise_if_bind.
  unfold carries. destruct Hkind as [Hk|Hk]; rewrite Hk; eval_tests;
    (case_bool_decide; [done|]); cbn; intros [= <-]; cbn; (split; [|done]); auto 10.
Qed.

(** What one operation can add to the chain. *)
Lemma run_gop_history o g t :
  t ∈ ghistory (run_gop o g) →
  t ∈ ghistory g ∨
  (∃ t0 c, o = GOther (OpSubmit t0) ∧ _verify_authorization c t0 = Ok tt
     ∧ t = set_submitted_at (lc_clock c) t0) ∨
  (∃ now p mc e, o = GSubmit now p mc true ∧ permitted now (g_engine g) p mc ∧ carries p t ∧
     tx_decision_hash t = sha256_hex (proposal_canonical p) ∧
     e ∈ g_audit (run_gop o g) ∧ ae_proposal e = sort_keys (proposal_dict p) ∧
     ae_verdict e = "ALLOW").
Proof.
  destruct o as [now p mc settle|now digest req|now|bps|o]; cbn [run_gop].
  - destruct (guard_submit_cases now p mc settle g) as [|v att Hd _|v att c tx Hd Hv Hs Hc Htx Ha|v att c e Hd];
      try (by left).
    unfold ghistory. cbn [g_chain audited _append_audit update fst g_set_audit g_set_pending g_set_chain from_option].
    rewrite Hc. cbn [from_option]. intros Ht. rewrite chain_submit_cases, Ha in Ht.
    unfold history in Ht. cbn in Ht. rewrite app_assoc, elem_of_app, list_elem_of_singleton in Ht.
    destruct Ht as [Ht| ->]; [by left|]. right; right. apply decide_Ok in Hd as [He Hatt].
    pose proof (evaluate_permitted _ _ _ _ _ He Hv) as Hperm.
    destruct (to_tx_carries p _ c _ tx (pm_kind _ _ _ _ Hperm) Htx) as (Hcar & Hdh & _).
    eexists now, p, mc, _. subst settle. split_and!; try done.
    + cbn. rewrite Hdh, Hatt. done.
    + apply elem_of_app. right. by apply list_elem_of_singleton.
    + done.
    + cbn. unfold verdict_str. by rewrite Hv.
  - unfold sign_for_x402, mbind, M_bind, self, lift.
    destruct (_decide _ _ _ _) as [[v att]|e]; [|by left]. by destruct (negb (v_allow v)); left.
  - unfold testbed_mine, mbind, M_bind, self, lift, zoom, ghistory.
    destruct (g_chain g) as [c|] eqn:Hc; cbn [or_raise fst]; [|by rewrite Hc; left].
    destruct (mine_block c) as [c' [rs|e]] eqn:Hm.
    + pose proof (reconcile_chain now rs (g_set_chain (Some c') g)) as Hr.
      destruct (reconcile now rs _) as [g' [u|e]]; cbn in *; rewrite Hr; cbn; intros Ht; left;
        destruct (history_op OpMine c t) as [Hin|(? & ? & _)]; try done; cbn; by rewrite Hm.
    + cbn. intros Ht. left. destruct (history_op OpMine c t) as [Hin|(? & ? & _)]; try done.
      cbn. by rewrite Hm.
  - by left.
  - unfold ghistory. cbn. destruct (g_chain g) as [c|]; cbn; [|by left]. intros Ht.
    apply history_op in Ht as [Ht|(t0 & -> & Ha & ->)]; [by left|]. right; left. eauto.
Qed.

(** ** What the others can submit *)

(** The digests whose signature by the wallet's key an operation lets out of the guard:
    of the transaction it sends, or the one it signs for x402. *)
Definition released_by (o : guard_op) (g : AgentGuard) : list bytes :=
  match o with
  | GSubmit now p mc settle =>
      match _decide now p mc g, g_chain g with
      | Ok (v, att), Some c =>
          match _to_tx p (ga_proposal_hash att) c (g_signer g) with
          | Ok tx => if v_allow v && settle && is_ok (_verify_authorization c tx)
                     then [tx_digest tx] else []
          | Err _ => []
          end
      | _, _ => []
      end
  | GX402 now digest req =>
      match snd (sign_for_x402 now digest req g) with Ok (Some _) => [digest] | _ => [] end
  | _ => []
  end.

Fixpoint released (os : list guard_op) (g : AgentGuard) : list bytes :=
  match os with [] => [] | o :: os => released_by o g ++ released os (run_gop o g) end.

Lemma released_snoc os o g : released (os ++ [o]) g = released os g ++ released_by o (run_gops os g).
Proof.
  revert g. induction os as [|o' os IH]; intros g; [by cbn; rewrite app_nil_r|].
  cbn [app released]. by rewrite IH, app_assoc.
Qed.

(** Ed25519 signatures are not forged: with a key of the wallet's address, the others
    present a valid signature of a transaction only over a digest whose signature the
    guard let out before. *)
Definition unforged (wallet : string) (os : list guard_op) (g : AgentGuard) : Prop :=
  ∀ os1 t os2 pub sig, os = os1 ++ GOther (OpSubmit t) :: os2 →
    fromhex (tx_public_key_hex t) = Some pub → fromhex (tx_signature_hex t) = Some sig →
    str_lower (address_of pub) = str_lower wallet → verify pub (tx_digest t) sig = true →
    tx_digest t ∈ released os1 g.

Lemma unforged_snoc wallet os o g : unforged wallet (os ++ [o]) g → unforged wallet os g.
Proof.
  intros Hu os1 t os2 pub sig ->. apply (Hu os1 t (os2 ++ [o])). by rewrite <- app_assoc.
Qed.

(** The audit log has an ALLOW entry for the proposal. *)
Definition allowed_in_log (p : Proposal) (g : AgentGuard) : Prop :=
  ∃ e, e ∈ g_audit g ∧ ae_proposal e = sort_keys (proposal_dict p) ∧ ae_verdict e = "ALLOW".

(** [t] carries out a proposal of the run that was permitted when it was submitted. *)
Definition from_submission (os : list guard_op) (g0 : AgentGuard) (t : Tx) : Prop :=
  ∃ os1 now p mc os2, os = os1 ++ GSubmit now p mc true :: os2
    ∧ permitted now (g_engine (run_gops os1 g0)) p mc ∧ carries p t
    ∧ tx_decision_hash t = sha256_hex (proposal_canonical p)
    ∧ allowed_in_log p (run_gops os g0).

(** The digest of [t] was signed as that of a permitted x402 payment, whose own digest it
    is not. *)
Definition from_x402 (os : list guard_op) (g0 : AgentGuard) (t : Tx) : Prop :=
  ∃ os1 now req os2, os = os1 ++ GX402 now (tx_digest t) req :: os2
    ∧ tx_digest t ≠ requirements_digest req
    ∧ permitted now (g_engine (run_gops os1 g0)) (x402_proposal req) None
    ∧ allowed_in_log (x402_proposal req) (run_gops os g0).

(** A SHA-256 collision with [t]. *)
Definition digest_collision (t : Tx) : Prop :=
  ∃ u, tx_digest u = tx_digest t ∧ tx_canonical u ≠ tx_canonical t.

Lemma allowed_in_log_later p o g : allowed_in_log p g → allowed_in_log p (run_gop o g).
Proof.
  intros (e & He & Hrest). exists e. split; [|done].
  destruct (run_gop_keeps _ o g (closed_identity g) ltac:(done)) as [[k Hk] _].
  rewrite Hk. apply elem_of_app. by left.
Qed.

Lemma from_submission_later os o g0 t :
  from_submission os g0 t → from_submission (os ++ [o]) g0 t.
Proof.
  intros (os1 & now & p & mc & os2 & -> & Hp & Hc & Hd & Hl).
  exists os1, now, p, mc, (os2 ++ [o]). split_and!; try done; [by rewrite <- app_assoc|].
  rewrite run_gops_snoc. by apply allowed_in_log_later.
Qed.

Lemma from_x402_later os o g0 t : from_x402 os g0 t → from_x402 (os ++ [o]) g0 t.
Proof.
  intros (os1 & now & req & os2 & -> & Hd & Hp & Hl).
  exists os1, now, req, (os2 ++ [o]). split_and!; try done; [by rewrite <- app_assoc|].
  rewrite run_gops_snoc. by apply allowed_in_log_later.
Qed.

(** The bytes of x402 requirements are no SHA-256 digest: they are too long. *)
Lemma ascii_escape_all_length s : (String.length s ≤ String.length (ascii_escape_all s))%nat.
Proof.
  induction s as [|c s IH]; [done|]. cbn [ascii_escape_all]. rewrite str_length_app.
  assert (1 ≤ String.length (ascii_escape c))%nat
    by (unfold ascii_escape; case_match; [rewrite str_length_app|]; cbn; lia).
  cbn [String.length]. lia.
Qed.

Lemma length_encode s : length (encode s) = String.length s.
Proof. induction s as [|c s IH]; [done|]. cbn. by rewrite IH. Qed.

Lemma requirements_digest_long `{!Sha256Length} req t : tx_digest t ≠ requirements_digest req.
Proof.
  intros Heq. apply (f_equal length) in Heq. unfold tx_digest in Heq.
  rewrite sha256_length in Heq. unfold requirements_digest, canonical in Heq.
  rewrite length_encode in Heq.
  pose proof (ascii_escape_all_length (json_dumps (PDict
    [(KStr "scheme", PStr (rq_scheme req)); (KStr "network", PStr (rq_network req));
     (KStr "asset", PStr (rq_asset req)); (KStr "amount", PInt (rq_amount req));
     (KStr "pay_to", PStr (rq_pay_to req)); (KStr "resource", PStr (rq_resource req));
     (KStr "nonce", PStr (rq_nonce req)); (KStr "expires_at", PInt (rq_expires_at req))]))) as Hl.
  rewrite <- Heq in Hl. revert Hl. clear. unfold json_dumps.
  destruct req as [v1 v2 v3 v4 v5 v6 v7 v8].
  cbn [rq_scheme rq_network rq_asset rq_amount rq_pay_to rq_resource rq_nonce rq_expires_at].
  lazymatch goal with |- context [sort_keys ?d] =>
    let d' := eval vm_compute in (sort_keys d) in change (sort_keys d) with d' end.
  rewrite json_write_dict. cbn [write_entries]. rewrite !str_length_app.
  unfold json_string. rewrite !str_length_app. cbn -[pretty json_escape_all]. lia.
Qed.

(** What the guard let out was for something permitted. *)
Lemma released_by_permitted `{!Sha256Length} o g t :
  tx_digest t ∈ released_by o g →
  (∃ now p mc, o = GSubmit now p mc true ∧ permitted now (g_engine g) p mc
     ∧ allowed_in_log p (run_gop o g)
     ∧ ((carries p t ∧ tx_decision_hash t = sha256_hex (proposal_canonical p))
        ∨ digest_collision t))
  ∨ (∃ now req, o = GX402 now (tx_digest t) req ∧ tx_digest t ≠ requirements_digest req
     ∧ permitted now (g_engine g) (x402_proposal req) None
     ∧ allowed_in_log (x402_proposal req) (run_gop o g)).
Proof.
  destruct o as [now p mc settle|now digest req|now|bps|o]; cbn [released_by run_gop];
    try (by intros ?%elem_of_nil).
  - intros Ht. left. exists now, p, mc.
    destruct (guard_submit_cases now p mc settle g) as [e Hd|v att Hd Hk|v att c tx Hd Hv Hs Hc Htx Ha
      |v att c e Hd Hv Hs Hc Herr]; rewrite Hd in Ht.
    + by apply elem_of_nil in Ht.
    + destruct (g_chain g) as [c|]; [|by apply elem_of_nil in Ht].
      destruct Hk as [Hk|]; [|done]. destruct (_to_tx _ _ _ _); [|by apply elem_of_nil in Ht].
      rewrite Hk in Ht. by apply elem_of_nil in Ht.
    + rewrite Hc, Htx, Hv, Hs, Ha in Ht. cbn in Ht. apply list_elem_of_singleton in Ht.
      apply decide_Ok in Hd as [He Hatt].
      pose proof (evaluate_permitted _ _ _ _ _ He Hv) as Hperm.
      destruct (to_tx_carries p _ c _ tx (pm_kind _ _ _ _ Hperm) Htx) as (Hcar & Hdh & _).
      subst settle. split_and!; try done.
      * eexists. split_and!; [apply elem_of_app; right; by apply list_elem_of_singleton|done|].
        cbn. unfold verdict_str. by rewrite Hv.
      * destruct (decide (tx_canonical tx = tx_canonical t)) as [Hcan|Hne]; [left|right; by exists tx].
        apply tx_canonical_inj in Hcan. destruct_and!. rewrite Hatt in Hdh.
        split; [|by transitivity (tx_decision_hash tx)]. unfold carries in *. intuition congruence.
    + rewrite Hc in Ht. destruct Herr as [Herr|(tx & Htx & Ha)].
      * rewrite Herr in Ht. by apply elem_of_nil in Ht.
      * rewrite Htx, Ha, andb_false_r in Ht. by apply elem_of_nil in Ht.
  - unfold sign_for_x402, mbind, M_bind, self, lift.
    destruct (_decide _ _ _ _) as [[v att]|e] eqn:Hd; [|by intros ?%elem_of_nil].
    apply decide_Ok in Hd as [He _].
    destruct (v_allow v) eqn:Hv; cbn [negb]; [|by intros ?%elem_of_nil].
    cbn [snd mret]. intros Ht. apply list_elem_of_singleton in Ht as <-. right. exists now, req.
    split_and!; [done|apply requirements_digest_long|by eapply evaluate_permitted|].
    eexists. split_and!; [apply elem_of_app; right; by apply list_elem_of_singleton|done|].
    cbn. unfold verdict_str. by rewrite Hv.
Qed.

Lemma released_permitted `{!Sha256Length} os g0 t :
  tx_digest t ∈ released os g0 →
  from_submission os g0 t ∨ from_x402 os g0 t ∨ digest_collision t.
Proof.
  induction os as [|o os IH] using rev_ind; [by intros ?%elem_of_nil|].
  rewrite released_snoc, elem_of_app. intros [Hin|Hin].
  - destruct (IH Hin) as [H1|[H1|H1]]; auto using from_submission_later, from_x402_later.
  - apply released_by_permitted in Hin as [(now & p & mc & -> & Hp & Hl & [[Hc Hd]|Hx])
      |(now & req & -> & Hd & Hp & Hl)].
    + left. exists os, now, p, mc, []. by rewrite run_gops_snoc.
    + by right; right.
    + right; left. exists os, now, req, []. by rewrite run_gops_snoc.
Qed.

(** C4: no transaction leaves the wallet without the policy's permission.  On a chain
    without earlier transactions, whatever agents propose and others do, and if the others
    cannot forge Ed25519 signatures ([unforged]: a signature they present with a key of the
    wallet's address is over a digest the guard let the signature out of before), every
    transaction of the wallet on the chain, pending or sealed, whoever sent it there, goes
    back to a submission of a proposal that the policy permitted against the history
    recorded at that moment; it carries out exactly that proposal, is bound to its hash,
    and the audit log has an ALLOW entry for it.  There are two exceptions: a SHA-256
    collision, and a transaction whose digest a caller had [sign_for_x402] sign, with the
    permission for an x402 payment, in place of the digest of that payment, which the guard
    does not check. *)
Theorem wallet_transactions_permitted `{!Sha256Length} engine attestor signer chain os t :
  let g0 := AgentGuard_init engine attestor signer chain in
  from_option history [] chain = [] → unforged (signer_address signer) os g0 →
  t ∈ ghistory (run_gops os g0) → str_lower (tx_sender t) = str_lower (signer_address signer) →
  from_submission os g0 t ∨ from_x402 os g0 t ∨ digest_collision t.
Proof.
  intros g0 Hempty Hos. revert t. induction os as [|o os IH] using rev_ind; intros t Ht Hs.
  { unfold ghistory in Ht. cbn in Ht. rewrite Hempty in Ht. by apply elem_of_nil in Ht. }
  rewrite run_gops_snoc in Ht. apply run_gop_history in Ht as [Ht|[(t0 & c & -> & Ha & ->)|Hnew]].
  - apply unforged_snoc in Hos. destruct (IH Hos t Ht Hs) as [H1|[H1|H1]];
      auto using from_submission_later, from_x402_later.
  - apply verify_authorization_Ok in Ha as [(pub & sig & Hpub & _ & Hsig & Haddr & Hv & _) _].
    destruct (released_permitted os g0 (set_submitted_at (lc_clock c) t0)) as [H1|[H1|H1]];
      auto using from_submission_later, from_x402_later.
    eapply (Hos os t0 [] pub sig); try done. cbn in Hs.
    destruct Haddr as [->| ->]; rewrite ?str_lower_idem; done.
  - destruct Hnew as (now & p & mc & e & -> & Hperm & Hcar & Hdh & He & Hep & Hev).
    left. exists os, now, p, mc, []. split_and!; try done. rewrite run_gops_snoc. by exists e.
Qed.

(** * x402 *)

(** What signing for x402 does: an exception leaves the guard alone; otherwise the decision
    is audited, and exactly a permitted payment is recorded and signed. *)
Lemma sign_for_x402_Ok now digest req g g' r :
  sign_for_x402 now digest req g = (g', Ok r) →
  (permitted now (g_engine g) (x402_proposal req) None ∧
   r = Some (signer_sign (g_signer g) digest) ∧
   g_engine g' = engine_record now (x402_proposal req) (g_engine g)) ∨
  (¬ permitted now (g_engine g) (x402_proposal req) None ∧ r = None ∧ g_engine g' = g_engine g).
Proof.
  unfold sign_for_x402, mbind, M_bind, self, lift.
  destruct (_decide _ _ _ _) as [[v att]|e] eqn:Hd; [|done]. apply decide_Ok in Hd as [He _].
  apply evaluate_exact in He as [Hp _]. destruct (v_allow v) eqn:Hv; cbn [negb];
    intros [= <- <-]; [left|right]; naive_solver.
Qed.

Lemma sign_for_x402_total now digest req g :
  ∃ g' r, sign_for_x402 now digest req g = (g', Ok r).
Proof.
  unfold sign_for_x402, mbind, M_bind, self, lift, _decide.
  destruct (evaluate_total now (g_engine g) (x402_proposal req) None I) as [v ->].
  cbn. destruct (v_allow v); cbn; eauto.
Qed.

Fixpoint ascending (from : Z) (ts : list Z) : Prop :=
  match ts with [] => True | t :: ts => from ≤ t ∧ ascending t ts end.

Definition x402_calls (calls : list (Z * PaymentRequirements)) : list guard_op :=
  map (λ c, GX402 c.1 (requirements_digest c.2) c.2) calls.

Lemma x402_engine_step now digest req g :
  g_engine (run_gop (GX402 now digest req) g) = g_engine g ∨
  (permitted now (g_engine g) (x402_proposal req) None ∧
   g_engine (run_gop (GX402 now digest req) g)
   = engine_record now (x402_proposal req) (g_engine g)).
Proof.
  cbn [run_gop]. destruct (sign_for_x402_total now digest req g) as (g' & r & Hs). rewrite Hs.
  apply sign_for_x402_Ok in Hs as [(Hp & _ & He)|(_ & _ & He)]; [right|left]; done.
Qed.

Lemma x402_within T calls g :
  within T (g_engine g) → ascending T calls.*1 →
  within (default T (last calls.*1)) (g_engine (run_gops (x402_calls calls) g)).
Proof.
  revert T g. induction calls as [|[now req] calls IH]; intros T g Hw Hasc; [done|].
  destruct Hasc as [Hle Hasc].
  assert (within now (g_engine (run_gop (GX402 now (requirements_digest req) req) g))) as Hstep.
  { apply (within_later T now) in Hw; [|done].
    destruct (x402_engine_step now (requirements_digest req) req g) as [->|[Hp ->]]; [done|].
    by eapply within_record. }
  specialize (IH now _ Hstep Hasc). cbn in *. destruct calls as [|c calls]; [exact IH|].
  destruct c as [now' req']. cbn [fmap list_fmap] in *. rewrite last_cons_cons.
  rewrite last_cons in *. by destruct (last _).
Qed.

(** payments that are recorded when they are signed stay within the policy's windows.
    However many x402 payments are requested, at times that do not go back, at the last of
    them and at every later moment what was signed within any window is within its cap, and
    the number of payments within the velocity window is within its limit. *)
Theorem x402_within_limits engine attestor signer chain T calls now :
  policy_wf (pe_policy engine) → pe_history engine = [] → ascending T calls.*1 →
  default T (last calls.*1) ≤ now →
  let e := g_engine (run_gops (x402_calls calls) (AgentGuard_init engine attestor signer chain)) in
  Forall (λ wc, _spent_in_window now e (wc_window_s wc) ≤ wc_cap wc) (sp_window_caps (pe_policy engine)) ∧
  (sp_max_tx_per_window (pe_policy engine) ≠ 0 →
   _count_in_window now e (sp_velocity_window_s (pe_policy engine))
   ≤ sp_max_tx_per_window (pe_policy engine)).
Proof.
  intros Hwf Hh Hasc Hnow e. set (g0 := AgentGuard_init engine attestor signer chain) in *.
  pose proof (x402_within T calls g0 (within_init _ Hwf Hh T) Hasc) as [_ Hw Hv]. fold e in Hw, Hv.
  destruct (run_gops_keeps _ (x402_calls calls) g0 (closed_identity g0) ltac:(done))
    as (_ & _ & _ & _ & Hpol). fold e in Hpol. cbn in Hpol. rewrite Hpol in *. auto.
Qed.

(** ** The facilitator *)

Lemma facilitator_verify_Ok now f auth why :
  facilitator_verify now f auth = Ok (true, why) →
  let req := pa_requirements auth in
  (rq_nonce req ∉ fa_used_nonces f) ∧ now ≤ rq_expires_at req ∧ 0 < rq_amount req ∧
  ∃ pub sig, fromhex (pa_payer_pub_hex auth) = Some pub ∧ address_of pub = pa_payer auth ∧
    fromhex (pa_signature_hex auth) = Some sig ∧
    verify pub (requirements_digest req) sig = true.
Proof.
  unfold facilitator_verify. set (req := pa_requirements auth). cbv zeta. intros Hv. case_bool_decide as Hn; [done|].
  destruct (Z.ltb_spec (rq_expires_at req) now); [done|].
  destruct (Z.leb_spec (rq_amount req) 0); [done|].
  unfold bytes_fromhex, from_public_bytes in Hv.
  destruct (fromhex (pa_payer_pub_hex auth)) as [raw|]; [|done]. cbn in Hv.
  case_bool_decide as Hlen; [|done]. cbn in Hv. case_bool_decide as Haddr; [done|].
  destruct (fromhex (pa_signature_hex auth)) as [sig|]; [|done]. cbn in Hv.
  destruct (verify raw (requirements_digest req) sig) eqn:Hs; [|done].
  split_and!; try done; try lia. exists raw, sig. split_and!; done.
Qed.

(** The branches of [settle]: refused or raising with nothing changed, raising with the
    nonce used up, or settled. *)
Lemma facilitator_settle_cases now auth f f' r :
  facilitator_settle now auth f = (f', r) →
  let req := pa_requirements auth in
  let used := {[ rq_nonce req ]} ∪ fa_used_nonces f in
  (f' = f ∧ ∀ w, r ≠ Ok (true, w)) ∨
  (∃ e, r = Err e ∧ f' = {| fa_chain := fa_chain f; fa_used_nonces := used |}) ∨
  (∃ k, r = Ok (true, "settled") ∧ (∃ w, facilitator_verify now f auth = Ok (true, w)) ∧
    lc_tokens (fa_chain f) !! rq_asset req = Some k ∧
    f' = {| fa_chain := move_on (rq_asset req) (pa_payer auth) (rq_pay_to req) (rq_amount req) k
                          (fa_chain f);
            fa_used_nonces := used |}).
Proof.
  intros Hs req used. unfold facilitator_settle, mbind, M_bind, self, lift, zoom, update in Hs.
  destruct (facilitator_verify now f auth) as [[ok why]|e] eqn:Hv; last first.
  { injection Hs as <- <-. left. split; [done|]. by intros w [=]. }
  destruct ok; cbn [negb] in Hs; last first.
  { injection Hs as <- <-. left. split; [done|]. by intros w [=]. }
  cbn [fa_chain] in Hs. rewrite chain_transfer_cases in Hs. fold req in Hs.
  right. destruct (lc_tokens (fa_chain f) !! rq_asset req) as [k|] eqn:Hk.
  - destruct (rq_amount req <=? 0); [left; injection Hs as <- <-; by eexists|].
    destruct (token_balance k (pa_payer auth) <? rq_amount req); [left; injection Hs as <- <-; by eexists|].
    right. injection Hs as <- <-. exists k. split_and!; try done. by exists why.
  - left. injection Hs as <- <-. by eexists.
Qed.

(** A facilitator settling payments while others use the chain; the log has each settled
    payment with the chain before and after it. *)
Inductive fac_op := FSettle (now : Z) (auth : PaymentAuthorization) | FOther (o : chain_op).

Definition on_chain (c : LocalChain) (f : Facilitator) : Facilitator :=
  {| fa_chain := c; fa_used_nonces := fa_used_nonces f |}.

Fixpoint run_fac (os : list fac_op) (f : Facilitator)
    : list (Z * PaymentAuthorization * LocalChain * LocalChain) :=
  match os with
  | [] => []
  | FOther o :: os => run_fac os (on_chain (run_op o (fa_chain f)) f)
  | FSettle now auth :: os =>
      let '(f', r) := facilitator_settle now auth f in
      (match r with Ok (true, _) => [(now, auth, fa_chain f, fa_chain f')] | _ => [] end)
      ++ run_fac os f'
  end.

Definition nonce_of (x : Z * PaymentAuthorization * LocalChain * LocalChain) : string :=
  rq_nonce (pa_requirements x.1.1.2).

(** A payment that was settled: signed by the payer's key over the requirements, unexpired,
    and moving exactly its amount from payer to payee. *)
Definition settled_properly (x : Z * PaymentAuthorization * LocalChain * LocalChain) : Prop :=
  let '(now, auth, c, c') := x in
  let req := pa_requirements auth in
  now ≤ rq_expires_at req ∧ 0 < rq_amount req ∧
  (∃ pub sig, fromhex (pa_payer_pub_hex auth) = Some pub ∧ address_of pub = pa_payer auth ∧
     fromhex (pa_signature_hex auth) = Some sig ∧
     verify pub (requirements_digest req) sig = true) ∧
  ∃ k, lc_tokens c !! rq_asset req = Some k ∧
    c' = move_on (rq_asset req) (pa_payer auth) (rq_pay_to req) (rq_amount req) k c.

Lemma run_fac_fresh os f x : x ∈ run_fac os f → nonce_of x ∉ fa_used_nonces f.
Proof.
  revert f. induction os as [|[now auth|o] os IH]; intros f Hx; [by apply elem_of_nil in Hx| |].
  - cbn [run_fac] in Hx. destruct (facilitator_settle now auth f) as [f' r] eqn:Hs.
    apply facilitator_settle_cases in Hs.
    destruct Hs as [[-> Hr]|[(e & -> & ->)|(k & -> & [w Hv] & _ & ->)]].
    + apply IH. destruct r as [[[] w]|]; [by destruct (Hr w)|exact Hx..].
    + specialize (IH _ Hx). cbn in IH. set_solver.
    + cbn in Hx. apply elem_of_cons in Hx as [->|Hx].
      * by apply facilitator_verify_Ok in Hv as [Hv _].
      * specialize (IH _ Hx). cbn in IH. set_solver.
  - exact (IH _ Hx).
Qed.

(** An x402 authorization is settled at most once, and only as signed.  Along any run of
    a facilitator, with others using the chain in between, no nonce is settled twice; every
    settled payment was unexpired, signed over exactly its requirements by the key of the
    payer's address, and moved exactly the required amount from payer to payee, nothing
    else. *)
Theorem x402_settled_once os f :
  NoDup (nonce_of <$> run_fac os f) ∧ Forall settled_properly (run_fac os f).
Proof.
  revert f. induction os as [|[now auth|o] os IH]; intros f; [split; constructor| |apply IH].
  cbn [run_fac]. destruct (facilitator_settle now auth f) as [f' r] eqn:Hs.
  apply facilitator_settle_cases in Hs.
  destruct Hs as [[-> Hr]|[(e & -> & ->)|(k & -> & [w Hv] & Hk & ->)]].
  - destruct r as [[[] w]|]; [by destruct (Hr w)|apply IH..].
  - apply IH.
  - cbn. set (f' := {| fa_chain := _; fa_used_nonces := _ |}). destruct (IH f') as [Hnd Hall].
    apply facilitator_verify_Ok in Hv as (_ & Hexp & Hpos & Hsig). split.
    + constructor; [|done]. intros Hin. apply list_elem_of_fmap in Hin as (x & Hx & Hin).
      apply run_fac_fresh in Hin. apply Hin. rewrite <- Hx. cbn. set_solver.
    + constructor; [|done]. split_and!; try done. by exists k.
Qed.

(** Guard and facilitator fit together.  An x402 request through the guard always
    returns; it yields an authorization exactly when the policy permits the payment, and
    then every facilitator that has not seen the nonce verifies it until it expires. *)
Theorem x402_authorization_accepted `{!Ed25519Law, !KeyLaw} seed now req g :
  g_signer g = IsolatedSigner_init seed →
  ∃ g' r, create_authorization now (signer_address (g_signer g)) req g = (g', Ok r) ∧
    (is_Some r ↔ permitted now (g_engine g) (x402_proposal req) None) ∧
    ∀ auth now' f, r = Some auth → rq_nonce req ∉ fa_used_nonces f → now' ≤ rq_expires_at req →
      facilitator_verify now' f auth = Ok (true, "ok").
Proof.
  intros Hsig. unfold create_authorization.
  destruct (sign_for_x402_total now (requirements_digest req) req g) as (g' & r & Hs).
  unfold mbind, M_bind. rewrite Hs. eexists g', _. split; [done|].
  apply sign_for_x402_Ok in Hs as [(Hp & -> & _)|(Hp & -> & _)]; cbn; last first.
  { split; [|done]. split; [by intros []|done]. }
  split; [split; [done|eauto]|]. intros auth now' f [= <-] Hn Hexp.
  destruct Hp as [_ Hpos _ _ _ _ _ _ _]. cbn in Hpos.
  unfold facilitator_verify. cbn [pa_requirements pa_payer pa_payer_pub_hex pa_signature_hex].
  rewrite bool_decide_false by done. rewrite (proj2 (Z.ltb_ge _ _)) by done.
  rewrite (proj2 (Z.leb_gt _ _)) by done. rewrite !bytes_fromhex_hex. cbn [mbind result_bind].
  unfold from_public_bytes. rewrite Hsig. cbn [sg_keys IsolatedSigner_init signer_address].
  unfold KeyPair_from_seed. cbn [kp_pub kp_address kp_priv KeyPair_sign].
  rewrite bool_decide_true by apply ed_public_length. cbn [or_raise mbind result_bind].
  rewrite bool_decide_false by auto. 
  unfold verify, KeyPair_sign. cbn [kp_priv]. by rewrite ed_verify_sign.
Qed.

(** ** Submitting *)

Lemma hex_truthy b : b ≠ [] → str_truthy (hex b) = true.
Proof. destruct b; [done|]. intros _. by apply bool_decide_true. Qed.

(** The chain accepts what the guard signs. *)
Lemma to_tx_accepted `{!Ed25519Law, !KeyLaw} p dh c seed :
  str_truthy dh = true →
  ∃ tx, _to_tx p dh c (IsolatedSigner_init seed) = Ok tx ∧ _verify_authorization c tx = Ok tt.
Proof.
  intros Hdh. set (s := IsolatedSigner_init seed).
  assert (∃ tx, _to_tx p dh c s = Ok (set_signature (hex (kp_pub (sg_keys s)))
      (hex (KeyPair_sign (sg_keys s) (tx_digest tx))) tx) ∧
    tx_sender tx = signer_address s ∧ tx_chain_id tx = lc_chain_id c ∧
    tx_deadline tx = lc_clock c + 300 ∧ tx_nonce tx = next_nonce c (signer_address s) ∧
    tx_decision_hash tx = dh) as (tx & Htx & Hs & Hid & Hd & Hn & Hh).
  { unfold _to_tx, authorize_transaction. rewrite raise_if_bind.
    set (tx := if bool_decide (pr_kind p = "transfer") then _ else _). exists tx.
    assert (tx_sender tx = signer_address s) as Hs by (unfold tx; by destruct (bool_decide _)).
    rewrite Hs, bool_decide_false by auto. split; [done|].
    unfold tx; destruct (bool_decide _); done. }
  eexists; split; [exact Htx|]. unfold _verify_authorization.
  cbn [tx_public_key_hex tx_signature_hex tx_chain_id tx_deadline tx_nonce tx_decision_hash
       tx_sender set_signature].
  change (tx_digest (set_signature _ _ tx)) with (tx_digest tx).
  pose proof (ed_public_length ("wallet::" +:+ seed)) as Hlen.
  assert (length (kp_pub (sg_keys s)) = 32%nat) as Hpub by exact Hlen.
  pose proof (ed_sign_length (kp_priv (sg_keys s)) (tx_digest tx)) as Hsl.
  rewrite hex_truthy by (by destruct (kp_pub (sg_keys s))).
  rewrite hex_truthy by (unfold KeyPair_sign; by destruct (ed_sign _ _)).
  rewrite Hid, Z.eqb_refl, Hd, (proj2 (Z.ltb_ge (lc_clock c + 300) _)) by lia.
  rewrite Hs, Hn, Z.eqb_refl, Hh, Hdh, !fromhex_hex.
  cbn [negb orb raise_if mbind result_bind option_bind]. unfold from_public_bytes.
  rewrite bool_decide_true by done. cbn.
  rewrite (proj2 (verify_with_address_true _ _ _ _)); [done|]. split; [by right|].
  unfold verify, KeyPair_sign. apply ed_verify_sign.
Qed.

(** Submitting to the guard is total and does what the policy says.  With a mandate chain
    of hex signatures (or none), [submit] always returns a receipt, whose verdict allows
    exactly the permitted proposals; a permitted one enters the mempool as one transaction
    that carries it out and is remembered as pending, a denied one leaves the chain alone. *)
Theorem guard_submit_exact `{!Ed25519Law, !KeyLaw, !Sha256Length} seed now p mc g c :
  g_signer g = IsolatedSigner_init seed → g_chain g = Some c → chain_hex mc →
  ∃ g' i r, guard_submit now p mc true g = (g', Ok i) ∧ g_receipts g' !! i = Some r ∧
    (v_allow (gr_verdict r) = true ↔ permitted now (g_engine g) p mc) ∧
    if v_allow (gr_verdict r) then
      ∃ c' tx, g_chain g' = Some c' ∧ lc_mempool c' = lc_mempool c ++ [tx] ∧ carries p tx ∧
        tx_sender tx = signer_address (g_signer g) ∧
        g_pending g' !! tx_hash tx = Some (p, gr_verdict r, gr_attestation r, i)
    else g_chain g' = Some c.
Proof.
  intros Hsig Hc Hhex. destruct (guard_submit now p mc true g) as [g' r] eqn:Hsub.
  pose proof (guard_submit_cases now p mc true g) as Hcases. rewrite Hsub in Hcases. cbn [fst snd] in Hcases.
  destruct (evaluate_total now (g_engine g) p mc Hhex) as [v0 Hv0].
  assert (∀ v att, (g_receipts g ++ [new_receipt v att]) !! length (g_receipts g)
                   = Some (new_receipt v att)) as Hlook.
  { intros. by rewrite lookup_app_r, Nat.sub_diag. }
  destruct Hcases as [e Hd|v att Hd Hk|v att c0 tx Hd Hv _ Hc0 Htx Ha|v att c0 e Hd Hv _ Hc0 Herr].
  - unfold _decide in Hd. by rewrite Hv0 in Hd.
  - apply decide_Ok in Hd as [He _]. apply evaluate_exact in He as [Hiff _].
    eexists _, _, (new_receipt v att). split; [done|]. split; [apply Hlook|]. split; [done|]. cbn.
    destruct Hk as [Hk|Hk]; [|congruence]. rewrite andb_true_r in Hk. by rewrite Hk.
  - apply decide_Ok in Hd as [He _]. apply evaluate_exact in He as [Hiff _].
    rewrite Hc in Hc0. injection Hc0 as <-.
    eexists _, _, (new_receipt v att). split; [done|]. split; [apply Hlook|]. split; [done|].
    cbn [gr_verdict new_receipt]. rewrite Hv. eexists _, (set_submitted_at (lc_clock c) tx).
    rewrite chain_submit_cases, Ha. split; [done|].
    destruct (to_tx_carries p _ c _ tx (pm_kind _ _ _ _ (proj1 Hiff Hv)) Htx) as (Hcar & _ & Hs).
    split_and!; try done. cbn. apply lookup_insert_eq.
  - exfalso. apply decide_Ok in Hd as [_ Hatt]. rewrite Hc in Hc0. injection Hc0 as <-.
    destruct (to_tx_accepted p (ga_proposal_hash att) c seed) as (tx & Htx & Ha).
    { rewrite Hatt. apply hex_truthy. intros Hnil.
      pose proof (sha256_length (proposal_canonical p)) as Hl. by rewrite Hnil in Hl. }
    rewrite Hsig in Herr. destruct Herr as [Herr|(tx' & Htx' & Ha')]; congruence.
Qed.
End facts.
