(* ===== verification/GuardScenario.v ===== *)
(** A guarded wallet on concrete inputs: the witnesses of the guard's theorems, and a run in
    which submissions that are still pending together exceed the policy's windows. *)
From Stdlib Require Import ZArith Lia Ascii String.
From stdpp Require Import base gmap sets list strings pretty.
From S2P Require Import Prelude Bytes Canonical CanonicalFacts Contracts ContractsFacts.
From S2P Require Import Decisions JournalFacts Ledger LedgerFacts SpendPolicy Guard Monitor.
From S2P Require Import MonitorFacts.

Open Scope Z_scope.

#[local] Existing Instance sized_externals.
#[local] Existing Instance sized_ed25519.

#[local] Instance sized_key_law : KeyLaw.
Proof.
  split; intros; cbn [ed_public ed_sign sized_externals _seed_bytes sha256];
    apply length_to_bytes_be.
Qed.

#[local] Existing Instance sized_sha256_length.

Definition gs_signer : IsolatedSigner := IsolatedSigner_init "run".
Definition gs_attestor : EnclaveAttestor := EnclaveAttestor_init "run".
Definition gs_engine : PolicyEngine := PolicyEngine_init strict_policy.
Definition gs_chain : LocalChain :=
  fst (chain_mint "TUSDC" (signer_address gs_signer) (10000 * MICRO) ex_chain).
Definition gs_guard : AgentGuard := AgentGuard_init gs_engine gs_attestor gs_signer (Some gs_chain).

Definition gs_payment (amount : Z) : Proposal :=
  instruction_proposal {| pi_amount := amount; pi_to := ex_bob; pi_asset := "TUSDC"; pi_purpose := "data";
    pi_encoded_channel := false |}.

Definition gs_now : Z := 1700000000.
Definition gs_pay (amount : Z) : guard_op := GSubmit gs_now (gs_payment amount) None true.

(** The window caps and the velocity limit count only settled spending.  Twelve
    proposals of 100 USDC submitted before a block is sealed are all allowed under the strict
    policy and all settle, although the policy caps an hour at 800 USDC and at ten
    transactions. *)
Theorem pending_submissions_exceed_windows :
  let g := run_gops (replicate 12 (gs_pay (100 * MICRO)) ++ [GMine gs_now]) gs_guard in
  forallb (λ r, v_allow (gr_verdict r) && gr_settled r) (g_receipts g) = true ∧
  length (g_receipts g) = 12%nat ∧
  _spent_in_window gs_now (g_engine g) 3600 = 1200 * MICRO ∧
  sp_window_caps strict_policy !! 0%nat = Some {| wc_window_s := 3600; wc_cap := 800 * MICRO |} ∧
  sp_max_tx_per_window strict_policy = 10.
Proof. vm_compute. auto. Qed.

(** A mandate chain whose intent signature is not hexadecimal text. *)
Definition gs_garbled : MandateChain :=
  {| mc_intent := {| im_user := "user"; im_agent := "agent"; im_max_total := 500 * MICRO;
       im_allowed_merchants := []; im_expires_at := gs_now + 10; im_nonce := "n";
       im_signature_hex := "not hex" |};
     mc_cart := {| cm_merchant := ex_bob; cm_intent_hash := ""; cm_items := [];
       cm_total := 200 * MICRO; cm_expires_at := gs_now + 10; cm_signature_hex := "" |};
     mc_user_pub := []; mc_merchant_pub := [] |}.

Lemma engine_evaluate_decides_witness :
  (∃ v, engine_evaluate gs_now gs_engine (gs_payment (100 * MICRO)) None = Ok v
     ∧ v_allow v = true ∧ permitted gs_now gs_engine (gs_payment (100 * MICRO)) None)
  ∧ (∃ x, engine_evaluate gs_now gs_engine (gs_payment (200 * MICRO)) (Some gs_garbled) = Err x
     ∧ ¬ permitted gs_now gs_engine (gs_payment (200 * MICRO)) (Some gs_garbled)).
Proof.
  split.
  - pose proof (engine_evaluate_decides gs_now gs_engine (gs_payment (100 * MICRO)) None) as Hd.
    destruct (engine_evaluate gs_now gs_engine (gs_payment (100 * MICRO)) None) as [v|x] eqn:Hv.
    + exists v. split; [reflexivity|]. destruct Hd as [Hp Hr].
      assert (match engine_evaluate gs_now gs_engine (gs_payment (100 * MICRO)) None with
              | Ok v => Nat.eqb (length (v_reasons v)) 0 | Err _ => false end = true) as Hc
        by (vm_compute; reflexivity).
      rewrite Hv in Hc. apply empty_length, Hr in Hc. split; [exact Hc|by apply Hp].
    + exfalso. destruct Hd as (_ & Hd & _). exact (Hd I).
  - pose proof (engine_evaluate_decides gs_now gs_engine (gs_payment (200 * MICRO)) (Some gs_garbled))
      as Hd.
    destruct (engine_evaluate gs_now gs_engine (gs_payment (200 * MICRO)) (Some gs_garbled))
      as [v|x] eqn:Hv.
    + exfalso. assert (is_ok (engine_evaluate gs_now gs_engine (gs_payment (200 * MICRO))
        (Some gs_garbled)) = false) as Hc by (vm_compute; reflexivity). by rewrite Hv in Hc.
    + exists x. split; [reflexivity|exact (proj1 Hd)].
Defined.

Lemma guard_decisions_recorded_witness :
  verify_audit_chain (run_gops [gs_pay (100 * MICRO); gs_pay 0; GMine gs_now] gs_guard) = true.
Proof.
  destruct (guard_decisions_recorded gs_engine "run" gs_signer (Some gs_chain)
    [gs_pay (100 * MICRO); gs_pay 0; GMine gs_now] []) as (Hv & _). exact Hv.
Defined.

Definition gs_request (n : Z) : PaymentRequirements :=
  snd (match respond_402 gs_now {| rs_address := ex_bob; rs_price := 90 * MICRO;
         rs_resource := "figures"; rs_evil := false; rs_attacker_address := None; rs_n := n |} with
       | (s, Ok r) => (s, r)
       | (s, Err _) => (s, {| rq_scheme := ""; rq_network := ""; rq_asset := ""; rq_amount := 0;
                             rq_pay_to := ""; rq_resource := ""; rq_nonce := ""; rq_expires_at := 0 |})
       end).

(** A transaction of the wallet that a caller has signed in place of an x402 payment, and
    then submits itself. *)
Definition gs_stolen : Tx :=
  {| tx_kind := TRANSFER; tx_sender := signer_address gs_signer; tx_to := Some "mallory";
     tx_amount := 5000 * MICRO; tx_asset := "TUSDC"; tx_amount_in := 0; tx_token_in := "TUSDC";
     tx_token_out := "DRB"; tx_min_out := 0; tx_private := false; tx_submitted_at := 0;
     tx_nonce := 0; tx_chain_id := lc_chain_id gs_chain; tx_deadline := lc_clock gs_chain + 300;
     tx_decision_hash := "none"; tx_public_key_hex := ""; tx_signature_hex := "" |}.

Definition gs_stolen_signed : Tx :=
  match snd (sign_for_x402 gs_now (tx_digest gs_stolen) (gs_request 0) gs_guard) with
  | Ok (Some (pub, sig)) => set_signature pub sig gs_stolen
  | _ => gs_stolen
  end.

(** One transaction of the wallet, sealed; and the stolen one. *)
Definition gs_ops : list guard_op := [gs_pay (100 * MICRO); GMine gs_now].
Definition gs_attack : list guard_op :=
  [GX402 gs_now (tx_digest gs_stolen) (gs_request 0); GOther (OpSubmit gs_stolen_signed)].

Lemma gs_ops_unforged : unforged (signer_address gs_signer) gs_ops gs_guard.
Proof.
  intros os1 t os2 pub sig Hos. exfalso.
  destruct os1 as [|o1 [|o2 [|o3 os1]]]; discriminate Hos.
Qed.

Lemma gs_attack_unforged : unforged (signer_address gs_signer) gs_attack gs_guard.
Proof.
  intros os1 t os2 pub sig Hos _ _ _ _. unfold gs_attack in Hos.
  destruct os1 as [|o1 [|o2 os1]]; [discriminate Hos| |destruct os1; discriminate Hos].
  apply (f_equal (λ l, (l !! 0%nat, l !! 1%nat))) in Hos. injection Hos as <- <-.
  vm_compute. left.
Qed.

Lemma wallet_transactions_permitted_witness :
  (∃ t, t ∈ ghistory (run_gops gs_ops gs_guard)
     ∧ (from_submission gs_ops gs_guard t ∨ from_x402 gs_ops gs_guard t ∨ digest_collision t))
  ∧ (∃ t, t ∈ ghistory (run_gops gs_attack gs_guard) ∧ tx_to t = Some "mallory"
     ∧ (from_submission gs_attack gs_guard t ∨ from_x402 gs_attack gs_guard t ∨ digest_collision t)).
Proof.
  assert (from_option history [] (Some gs_chain) = []) as Hempty by (vm_compute; reflexivity).
  split.
  - destruct (ghistory (run_gops gs_ops gs_guard)) as [|t l] eqn:Hh.
    { exfalso. assert (length (ghistory (run_gops gs_ops gs_guard)) = 1%nat) as Hl
        by (vm_compute; reflexivity). by rewrite Hh in Hl. }
    assert (t ∈ ghistory (run_gops gs_ops gs_guard)) as Ht by (rewrite Hh; left).
    assert (head (tx_sender <$> ghistory (run_gops gs_ops gs_guard)) = Some (signer_address gs_signer))
      as Hs by (vm_compute; reflexivity).
    rewrite Hh in Hs. injection Hs as Hs. exists t. split; [left|].
    apply (wallet_transactions_permitted gs_engine gs_attestor gs_signer (Some gs_chain) gs_ops t
      Hempty gs_ops_unforged Ht). by rewrite Hs.
  - destruct (ghistory (run_gops gs_attack gs_guard)) as [|t l] eqn:Hh.
    { exfalso. assert (length (ghistory (run_gops gs_attack gs_guard)) = 1%nat) as Hl
        by (vm_compute; reflexivity). by rewrite Hh in Hl. }
    assert (t ∈ ghistory (run_gops gs_attack gs_guard)) as Ht by (rewrite Hh; left).
    assert (head ((λ t, (tx_sender t, tx_to t)) <$> ghistory (run_gops gs_attack gs_guard))
      = Some (signer_address gs_signer, Some "mallory")) as Hs by (vm_compute; reflexivity).
    rewrite Hh in Hs. injection Hs as Hs Hto. exists t. split; [left|split; [exact Hto|]].
    apply (wallet_transactions_permitted gs_engine gs_attestor gs_signer (Some gs_chain) gs_attack t
      Hempty gs_attack_unforged Ht). by rewrite Hs.
Defined.

(** Twelve requests, of which the policy lets eight through. *)
Definition gs_calls : list (Z * PaymentRequirements) :=
  map (λ n, (gs_now + n, gs_request n)) (seqZ 0 12).

Lemma x402_within_limits_witness :
  let e := g_engine (run_gops (x402_calls gs_calls) gs_guard) in
  length (pe_history e) = 8%nat ∧ _spent_in_window (gs_now + 11) e 3600 ≤ 800000000.
Proof.
  destruct (x402_within_limits gs_engine gs_attestor gs_signer (Some gs_chain) gs_now gs_calls
    (gs_now + 11) strict_wf eq_refl) as [Hw _].
  - vm_compute. repeat split; discriminate.
  - vm_compute. discriminate.
  - cbv zeta. split; [vm_compute; reflexivity|].
    change (sp_window_caps (pe_policy gs_engine)) with (sp_window_caps strict_policy) in Hw.
    by apply Forall_cons in Hw as [Hw _].
Defined.

Lemma x402_authorization_accepted_witness :
  ∃ g' auth, create_authorization gs_now (signer_address gs_signer) (gs_request 0) gs_guard
               = (g', Ok (Some auth)) ∧
    facilitator_verify (gs_now + 1) (Facilitator_init gs_chain) auth = Ok (true, "ok").
Proof.
  destruct (x402_authorization_accepted "run" gs_now (gs_request 0) gs_guard eq_refl)
    as (g' & r & Hr & _ & Hv).
  assert (match snd (create_authorization gs_now (signer_address (g_signer gs_guard)) (gs_request 0)
                       gs_guard) with Ok (Some _) => true | _ => false end = true) as Hok
    by (vm_compute; reflexivity).
  rewrite Hr in Hok. cbn [snd] in Hok. destruct r as [auth|]; [|discriminate].
  exists g', auth. split; [exact Hr|]. apply Hv; [done|apply not_elem_of_empty|].
  vm_compute. discriminate.
Defined.

Lemma guard_submit_exact_witness :
  ∃ g' i r, guard_submit gs_now (gs_payment (100 * MICRO)) None true gs_guard = (g', Ok i) ∧
    g_receipts g' !! i = Some r ∧ v_allow (gr_verdict r) = true.
Proof.
  destruct (guard_submit_exact "run" gs_now (gs_payment (100 * MICRO)) None gs_guard gs_chain
    eq_refl eq_refl I) as (g' & i & r & Hs & Hr & _).
  exists g', i, r. split_and!; [done..|].
  assert (match guard_submit gs_now (gs_payment (100 * MICRO)) None true gs_guard with
          | (g', Ok i) => match g_receipts g' !! i with
                          | Some r => v_allow (gr_verdict r) | None => false end
          | _ => false end = true) as Hok by (vm_compute; reflexivity).
  by rewrite Hs, Hr in Hok.
Defined.
