(* ===== verification/Agents.v ===== *)
(** The simulated agents (src/agentguard-testbed/src/agentwallet/agents/base.py and
    language_agent.py) and the encoders of the adversarial tools (tools/adversarial.py): how
    payment instructions are read out of untrusted text, plain, in Morse code or in base64,
    and what the sanitizer removes.

    A text is a string of bytes, the UTF-8 form of a Python string; the character classes of
    the patterns are those of ASCII.  Amounts go through a [float], as in the source. *)
From Stdlib Require Import ZArith Lia Ascii String.
From Stdlib Require Strings.Byte.
From stdpp Require Import base gmap sets list strings pretty.
From S2P Require Import Prelude Bytes Regex Patterns Float64 Canonical Contracts Ledger SpendPolicy Guard Monitor.

Open Scope Z_scope.

(** * Words *)

(** [str.upper] on ASCII text. *)
Definition ascii_upper (c : ascii) : ascii :=
  let n := nat_of_ascii c in
  if (Nat.leb 97 n && Nat.leb n 122)%bool then ascii_of_nat (n - 32) else c.
Fixpoint str_upper (s : string) : string :=
  match s with EmptyString => EmptyString | String c s => String (ascii_upper c) (str_upper s) end.

(** [s.split()] *)
Fixpoint split_words (word : string) (s : string) : list string :=
  match s with
  | EmptyString => if str_truthy word then [word] else []
  | String c s =>
      if re_space c then (if str_truthy word then [word] else []) ++ split_words "" s
      else split_words (word +:+ String c "") s
  end.
Definition split (s : string) : list string := split_words "" s.

(** [s.lstrip()], [s.rstrip()] *)
Fixpoint lstrip (s : string) : string :=
  match s with String c s' => if re_space c then lstrip s' else s | EmptyString => EmptyString end.
Fixpoint rstrip (s : string) : string :=
  match s with
  | EmptyString => EmptyString
  | String c s =>
      let s := rstrip s in
      if bool_decide (s = "") && re_space c then EmptyString else String c s
  end.
Definition strip (s : string) : string := rstrip (lstrip s).

(** [s.split("   ")]: the parts between three spaces. *)
Fixpoint split3 (part : string) (s : string) : list string :=
  match s with
  | String " " (String " " (String " " s)) => part :: split3 "" s
  | String c s => split3 (part +:+ String c "") s
  | EmptyString => [part]
  end.

(** [sep.join(l)] *)
Fixpoint join (sep : string) (l : list string) : string :=
  match l with
  | [] => ""
  | [s] => s
  | s :: l => s +:+ sep +:+ join sep l
  end.

(** * Morse code *)

Definition MORSE_MAP : list (string * string) :=
  [(".-", "A"); ("-...", "B"); ("-.-.", "C"); ("-..", "D"); (".", "E"); ("..-.", "F"); ("--.", "G");
   ("....", "H"); ("..", "I"); (".---", "J"); ("-.-", "K"); (".-..", "L"); ("--", "M"); ("-.", "N");
   ("---", "O"); (".--.", "P"); ("--.-", "Q"); (".-.", "R"); ("...", "S"); ("-", "T"); ("..-", "U");
   ("...-", "V"); (".--", "W"); ("-..-", "X"); ("-.--", "Y"); ("--..", "Z"); ("-----", "0");
   (".----", "1"); ("..---", "2"); ("...--", "3"); ("....-", "4"); (".....", "5"); ("-....", "6");
   ("--...", "7"); ("---..", "8"); ("----.", "9")].

Definition dict_find {V} (k : string) (l : list (string * V)) : option V :=
  snd <$> find (λ e, bool_decide (e.1 = k)) l.

Definition morse_letter (code : string) : string := default "?" (dict_find code MORSE_MAP).

Definition morse_word (w : string) : string := join "" (map morse_letter (split w)).

Definition morse_decode (text : string) : string :=
  join " " (map morse_word (split3 "" (strip text))).

(** [rev] of [morse_encode]: the same table from letters to codes. *)
Definition morse_rev : list (string * string) :=
  [("A", ".-"); ("B", "-..."); ("C", "-.-."); ("D", "-.."); ("E", "."); ("F", "..-."); ("G", "--.");
   ("H", "...."); ("I", ".."); ("J", ".---"); ("K", "-.-"); ("L", ".-.."); ("M", "--"); ("N", "-.");
   ("O", "---"); ("P", ".--."); ("Q", "--.-"); ("R", ".-."); ("S", "..."); ("T", "-"); ("U", "..-");
   ("V", "...-"); ("W", ".--"); ("X", "-..-"); ("Y", "-.--"); ("Z", "--.."); ("0", "-----");
   ("1", ".----"); ("2", "..---"); ("3", "...--"); ("4", "....-"); ("5", "....."); ("6", "-....");
   ("7", "--..."); ("8", "---.."); ("9", "----.")].

(** [" ".join(rev[c] for c in word if c in rev)] *)
Definition morse_codes (word : string) : list string :=
  omap (λ c, dict_find (String c "") morse_rev) (list_ascii_of_string word).
Definition morse_encode (text : string) : string :=
  join "   " (map (λ w, join " " (morse_codes w)) (split (str_upper text))).

(** * Base64 *)

Definition b64_char (v : Z) : ascii :=
  if v <? 26 then ascii_of_nat (Z.to_nat (65 + v))
  else if v <? 52 then ascii_of_nat (Z.to_nat (71 + v))
  else if v <? 62 then ascii_of_nat (Z.to_nat (v - 4))
  else if v =? 62 then "+"%char else "/"%char.

Definition b64_value (c : ascii) : option Z :=
  let n := Z.of_nat (nat_of_ascii c) in
  if (65 <=? n) && (n <=? 90) then Some (n - 65)
  else if (97 <=? n) && (n <=? 122) then Some (n - 71)
  else if (48 <=? n) && (n <=? 57) then Some (n + 4)
  else if n =? 43 then Some 62 else if n =? 47 then Some 63 else None.

Definition code (c : ascii) : Z := Z.of_nat (nat_of_ascii c).
Definition of_code (z : Z) : ascii := ascii_of_nat (Z.to_nat z).

(** [base64.b64encode] *)
Fixpoint b64_groups (fuel : nat) (s : string) : string :=
  match fuel with
  | O => ""
  | S n =>
      match s with
      | EmptyString => ""
      | String a EmptyString =>
          String (b64_char (code a / 4)) (String (b64_char (code a mod 4 * 16)) "==")
      | String a (String b EmptyString) =>
          String (b64_char (code a / 4)) (String (b64_char (code a mod 4 * 16 + code b / 16))
            (String (b64_char (code b mod 16 * 4)) "="))
      | String a (String b (String c s)) =>
          String (b64_char (code a / 4)) (String (b64_char (code a mod 4 * 16 + code b / 16))
            (String (b64_char (code b mod 16 * 4 + code c / 64)) (String (b64_char (code c mod 64))
              (b64_groups n s))))
      end
  end.
Definition b64_encode (text : string) : string := b64_groups (S (String.length text)) text.

(** [binascii.a2b_base64(text, strict_mode=True)]: [quad] data characters of the current
    group are read, [bits] are the bits not yet written. *)
Fixpoint a2b (quad bits pads : Z) (padding_started : bool) (s : string) : option string :=
  match s with
  | EmptyString => if quad =? 0 then Some "" else None
  | String c s =>
      if bool_decide (c = "="%char) then
        if (2 <=? quad) && (4 <=? quad + (pads + 1)) then (if str_truthy s then None else Some "")
        else a2b quad bits (if 2 <=? quad then pads + 1 else pads) true s
      else
        v ← b64_value c;
        if padding_started then None
        else if quad =? 0 then a2b 1 v 0 false s
        else
          let '(byte, quad, bits) :=
            if quad =? 1 then (bits * 4 + v / 16, 2, v mod 16)
            else if quad =? 2 then (bits * 16 + v / 4, 3, v mod 4)
            else (bits * 64 + v, 0, 0) in
          rest ← a2b quad bits 0 false s;
          Some (String (of_code byte) rest)
  end.
Definition b64decode (s : string) : option string :=
  if startswith "=" s then None else a2b 0 0 0 false s.

(** [bytes.decode(errors="strict")]: the bytes are the UTF-8 form of a text. *)
Fixpoint utf8_ok (fuel : nat) (s : list Z) : bool :=
  match fuel with
  | O => true
  | S n =>
      let cont b := (128 <=? b) && (b <? 192) in
      match s with
      | [] => true
      | a :: s =>
          if a <? 128 then utf8_ok n s
          else if a <? 194 then false
          else if a <? 224 then match s with b :: s => cont b && utf8_ok n s | _ => false end
          else if a <? 240 then
            match s with
            | b :: c :: s =>
                ((if a =? 224 then 160 else 128) <=? b) && (b <? (if a =? 237 then 160 else 192))
                && cont c && utf8_ok n s
            | _ => false
            end
          else if a <? 245 then
            match s with
            | b :: c :: d :: s =>
                ((if a =? 240 then 144 else 128) <=? b) && (b <? (if a =? 244 then 144 else 192))
                && cont c && cont d && utf8_ok n s
            | _ => false
            end
          else false
      end
  end.
Definition codes (s : string) : list Z := map code (list_ascii_of_string s).

Definition try_base64_decode (text : string) : option string :=
  s ← b64decode text;
  if utf8_ok (String.length s) (codes s) then Some s else None.

(** * Patterns *)

(** [(transfer|send|pay)\s+(\d+(?:\.\d+)?)\s*(usdc|drb|tokens?)?\s*(?:to|towards)\s+
     (0x[0-9a-fA-F]{6,40}|attacker)], ignoring case *)
Definition hexdigit_char (c : ascii) : bool :=
  code_between 48 57 c || code_between 65 70 c || code_between 97 102 c.
Definition INJECTION_RE : pattern :=
  PCat (PGroup 1 (PAlt (pilit "transfer") (PAlt (pilit "send") (pilit "pay")))) (
  PCat (pmany pspace) (
  PCat (PGroup 2 (PCat (pmany pdigit) (popt (PCat (pchr ".") (pmany pdigit))))) (
  PCat (PStar pspace) (
  PCat (popt (PGroup 3 (PAlt (pilit "usdc") (PAlt (pilit "drb") (PCat (pilit "token") (popt (pilit "s"))))))) (
  PCat (PStar pspace) (
  PCat (PAlt (pilit "to") (pilit "towards")) (
  PCat (pmany pspace)
    (PGroup 4 (PAlt (PCat (pilit "0x") (PCat (ptimes 6 (PChar hexdigit_char)) (pup_to 34 (PChar hexdigit_char))))
                    (pilit "attacker")))))))))).

(** [(?:[.\-]{1,5}(?:\s+|$)){3,}] *)
Definition morse_mark (c : ascii) : bool := bool_decide (c = "."%char) || bool_decide (c = "-"%char).
Definition morse_symbol : pattern :=
  PCat (PCat (PChar morse_mark) (pup_to 4 (PChar morse_mark))) (PAlt (pmany pspace) pend).
Definition MORSE_RE : pattern := PCat (ptimes 3 morse_symbol) (PStar morse_symbol).

(** [\b([A-Za-z0-9+/]{24,}={0,2})(?![A-Za-z0-9+/=])] *)
Definition b64_class (c : ascii) : bool := bool_decide (is_Some (b64_value c)).
Definition B64_RE : pattern :=
  PCat pboundary (PCat
    (PGroup 1 (PCat (PCat (ptimes 24 (PChar b64_class)) (PStar (PChar b64_class))) (pup_to 2 (pchr "="))))
    (pnot_next (λ c, b64_class c || bool_decide (c = "="%char)))).

(** * The sanitizer *)

Record Sanitizer := { san_enabled : bool; san_block_encoded : bool }.

Definition clean (z : Sanitizer) (content : string) : string * bool :=
  if negb (san_enabled z) then (content, true)
  else if bool_decide (is_Some (find_match INJECTION_RE None content))
  then (sub_all INJECTION_RE "[REDACTED]" content, false)
  else if san_block_encoded z then (content, false)
  else (content, true).

(** * Instructions *)

(** [float(text)] of digits with an optional fraction. *)
Fixpoint digits_value (acc : Z) (s : string) : Z :=
  match s with EmptyString => acc | String c s => digits_value (acc * 10 + (code c - 48)) s end.
Fixpoint split_dot (s : string) : string * string :=
  match s with
  | EmptyString => ("", "")
  | String c s =>
      if bool_decide (c = "."%char) then ("", s) else let '(a, b) := split_dot s in (String c a, b)
  end.
Definition float_of_decimal (s : string) : float :=
  let '(whole, frac) := split_dot s in
  round_ratio (digits_value 0 (whole +:+ frac)) (10 ^ Z.of_nat (String.length frac)).

(** [int(float(text) * 1_000_000)] *)
Definition micro_amount (text : string) : result Z :=
  int_of_float (fmul (float_of_decimal text) (round_ratio 1000000 1)).

(** One turn of the loop over the matches. *)
Definition instruction_of (attacker_address purpose : string) (encoded : bool) (m : re_match)
    : result (list PaymentInstruction) :=
  amount ← micro_amount (default "" (rm_group 2 m));
  match rm_group 4 m with
  | None => Ok []
  | Some to =>
      let to := if bool_decide (str_lower to = "attacker") then attacker_address else to in
      Ok [{| pi_amount := amount; pi_to := to; pi_asset := "TUSDC"; pi_purpose := purpose;
             pi_encoded_channel := encoded |}]
  end.

Fixpoint concat_results {A B} (f : A → result (list B)) (l : list A) : result (list B) :=
  match l with
  | [] => Ok []
  | a :: l => x ← f a; rest ← concat_results f l; Ok (x ++ rest)
  end.

Definition instructions_in (attacker_address purpose : string) (encoded : bool) (text : string)
    : result (list PaymentInstruction) :=
  concat_results (instruction_of attacker_address purpose encoded) (finditer INJECTION_RE text).

Definition extract_instructions (content : string) (susceptible : bool) (attacker_address : string)
    : result (list PaymentInstruction) :=
  if negb susceptible then Ok []
  else
    plaintext ← instructions_in attacker_address "injected-plaintext" false content;
    morse ← concat_results (λ m, instructions_in attacker_address "injected-morse" true (morse_decode (rm_text m)))
              (finditer MORSE_RE content);
    b64 ← concat_results (λ m,
        match try_base64_decode (default "" (rm_group 1 m)) with
        | None | Some "" => Ok []
        | Some decoded => instructions_in attacker_address "injected-b64" true decoded
        end) (finditer B64_RE content);
    Ok (plaintext ++ morse ++ b64).

(** * The language agent *)

Record LanguageAgent := {
  la_susceptible : bool;
  la_sanitizer : Sanitizer;
  la_attacker_address : string;
  la_log : list string;
}.

Definition la_append (lines : list string) (a : LanguageAgent) : LanguageAgent :=
  {| la_susceptible := la_susceptible a; la_sanitizer := la_sanitizer a;
     la_attacker_address := la_attacker_address a; la_log := la_log a ++ lines |}.

Definition process_content (content : string) : M LanguageAgent (list PaymentInstruction) :=
  a ← self;
  let '(cleaned, survived) := clean (la_sanitizer a) content in
  instrs ← lift (extract_instructions cleaned (la_susceptible a) (la_attacker_address a));
  update (la_append (map (λ i, "instruction emitted: " +:+ pi_purpose i +:+ " amount="
    +:+ pretty (pi_amount i) +:+ " to=" +:+ pi_to i) instrs));;
  update (la_append (if survived then [] else ["sanitizer redacted plaintext injection"]));;
  mret instrs.
