(* ===== verification/Testbed.v ===== *)
(** The testbed (src/agentguard-testbed/src/agentwallet/testbed.py): the wiring of chain,
    custody, guard and agents for each defense configuration.  [yaml.safe_load] is a
    parameter; what it gives for the policy texts below is [YamlLaw]. *)
From Stdlib Require Import ZArith Lia Ascii String.
From stdpp Require Import base gmap sets list strings pretty.
From S2P Require Import Prelude Bytes Canonical Contracts Tools Ledger SpendPolicy Guard Monitor Agents.

Open Scope Z_scope.

Inductive DefenseMode := UNDEFENDED | MODEL_LEVEL | GUARD_STRICT | GUARD_FULL | GUARD_MEV | CONTRACT_WALLET.

#[export] Instance DefenseMode_eq_dec : EqDecision DefenseMode.
Proof. solve_decision. Defined.

Definition mode_value (m : DefenseMode) : string :=
  match m with
  | UNDEFENDED => "undefended" | MODEL_LEVEL => "model_level" | GUARD_STRICT => "guard_strict"
  | GUARD_FULL => "guard_full" | GUARD_MEV => "guard_mev" | CONTRACT_WALLET => "contract_wallet"
  end.

(** * Policy texts *)

Definition STRICT_POLICY : string := "name: strict
per_tx_cap: 250000000
window_caps:
  - {window_s: 3600, cap: 800000000}
  - {window_s: 86400, cap: 1000000000}
velocity: {max_tx_per_window: 10, window_s: 3600}
allowed_assets: [TUSDC, DRB]
allowlist_recipients: []
blocklist_recipients: []
require_mandate_above: 100000000
risk: {dynamic_tightening: false, pool_move_threshold_bps: 100, max_slippage_bps: 100}
kill_switch: false
".

Definition MEV_AWARE_POLICY : string := "name: mev-aware
per_tx_cap: 5000000000
window_caps:
  - {window_s: 3600, cap: 20000000000}
  - {window_s: 86400, cap: 50000000000}
velocity: {max_tx_per_window: 30, window_s: 3600}
allowed_assets: [TUSDC, DRB]
allowlist_recipients: []
blocklist_recipients: []
require_mandate_above: 100000000
risk: {dynamic_tightening: true, pool_move_threshold_bps: 100, max_slippage_bps: 50}
kill_switch: false
".

(** [UNRESTRICTED] (guard/policy.py) *)
Definition UNRESTRICTED : string := "name: unrestricted
per_tx_cap: 0
window_caps: []
velocity: {max_tx_per_window: 0, window_s: 3600}
allowed_assets: [TUSDC, DRB]
allowlist_recipients: []
blocklist_recipients: []
require_mandate_above: 9223372036854775807
risk: {dynamic_tightening: false, pool_move_threshold_bps: 100000, max_slippage_bps: 100000}
kill_switch: false
".

(** [s.replace(old, new)] for a non-empty [old]; the length of [s] is enough fuel. *)
Fixpoint str_replace (fuel : nat) (old new s : string) : string :=
  match fuel with
  | O => s
  | S n =>
      match s with
      | EmptyString => EmptyString
      | String c rest =>
          if startswith old s
          then new +:+ str_replace n old new (String.substring (String.length old) (String.length s) s)
          else String c (str_replace n old new rest)
      end
  end.
Definition replace_all (old new s : string) : string := str_replace (S (String.length s)) old new s.

Definition dquote : string := String (ascii_of_nat 34) "".
Definition vendor_list (vendors : list string) : string :=
  "[" +:+ join ", " (map (λ a, dquote +:+ a +:+ dquote) vendors) +:+ "]".

Definition with_vendors (vendors : list string) (text : string) : string :=
  replace_all "allowlist_recipients: []" ("allowlist_recipients: " +:+ vendor_list vendors) text.

(** * The testbed *)

Record Testbed := {
  tb_mode : DefenseMode;
  tb_seed : string;
  tb_clock : Z;
  tb_guard : AgentGuard;
  tb_executor : ExecutorAgent;
  tb_language : LanguageAgent;
  tb_tool_sandbox : ToolSandbox;
  tb_attacker_keys : KeyPair;
  tb_vendors : list (string * string);
}.

Definition set_guard (g : AgentGuard) (tb : Testbed) : Testbed :=
  {| tb_mode := tb_mode tb; tb_seed := tb_seed tb; tb_clock := tb_clock tb; tb_guard := g;
     tb_executor := tb_executor tb; tb_language := tb_language tb; tb_tool_sandbox := tb_tool_sandbox tb;
     tb_attacker_keys := tb_attacker_keys tb; tb_vendors := tb_vendors tb |}.
Definition set_executor (e : ExecutorAgent) (tb : Testbed) : Testbed :=
  {| tb_mode := tb_mode tb; tb_seed := tb_seed tb; tb_clock := tb_clock tb; tb_guard := tb_guard tb;
     tb_executor := e; tb_language := tb_language tb; tb_tool_sandbox := tb_tool_sandbox tb;
     tb_attacker_keys := tb_attacker_keys tb; tb_vendors := tb_vendors tb |}.
Definition set_language (a : LanguageAgent) (tb : Testbed) : Testbed :=
  {| tb_mode := tb_mode tb; tb_seed := tb_seed tb; tb_clock := tb_clock tb; tb_guard := tb_guard tb;
     tb_executor := tb_executor tb; tb_language := a; tb_tool_sandbox := tb_tool_sandbox tb;
     tb_attacker_keys := tb_attacker_keys tb; tb_vendors := tb_vendors tb |}.
Definition advance_time (seconds : Z) (tb : Testbed) : Testbed :=
  {| tb_mode := tb_mode tb; tb_seed := tb_seed tb; tb_clock := tb_clock tb + seconds; tb_guard := tb_guard tb;
     tb_executor := tb_executor tb; tb_language := tb_language tb; tb_tool_sandbox := tb_tool_sandbox tb;
     tb_attacker_keys := tb_attacker_keys tb; tb_vendors := tb_vendors tb |}.

Definition attacker (tb : Testbed) : string := kp_address (tb_attacker_keys tb).

Section testbed.
Context `{!Externals}.
Variable safe_load : string → string + pyval.

Definition tb_wallet (tb : Testbed) : string := signer_address (g_signer (tb_guard tb)).

Definition vendors : list (string * string) :=
  [("data-api", kp_address (KeyPair_from_seed "vendor-data-api"));
   ("merchant", kp_address (KeyPair_from_seed "vendor-merchant"));
   ("feed", kp_address (KeyPair_from_seed "vendor-feed"))].

Definition policy_text (mode : DefenseMode) : string :=
  match mode with
  | GUARD_MEV => with_vendors vendors.*2 MEV_AWARE_POLICY
  | GUARD_STRICT | GUARD_FULL => with_vendors vendors.*2 STRICT_POLICY
  | _ => UNRESTRICTED
  end.

(** The chain as [__post_init__] leaves it: the wallet's on-chain rules and the funds. *)
Definition setup_chain (mode : DefenseMode) (wallet attacker : string) : M LocalChain unit :=
  (if bool_decide (mode = CONTRACT_WALLET)
   then deploy_contract_wallet wallet (ContractWalletRules_init (200 * MICRO) (Some []) (Some ["TUSDC"]))
   else mret tt);;
  chain_mint "TUSDC" wallet (10000 * MICRO);;
  chain_mint "TUSDC" attacker (2000 * MICRO);;
  chain_mint "DRB" attacker (5000 * MICRO).

Definition Testbed_init (mode : DefenseMode) (seed : string) (amm_a amm_b tick : Z) : result Testbed :=
  chain ← LocalChain_init amm_a amm_b 31337;
  let signer := IsolatedSigner_init seed in
  policy ← load_policy safe_load (policy_text mode);
  let attacker_keys := KeyPair_from_seed ("attacker::" +:+ seed) in
  let '(chain, done) := setup_chain mode (signer_address signer) (kp_address attacker_keys) chain in
  done;;
  Ok {| tb_mode := mode; tb_seed := seed; tb_clock := tick;
        tb_guard := AgentGuard_init (PolicyEngine_init policy) (EnclaveAttestor_init seed) signer (Some chain);
        tb_executor := {| ex_agent_address := "agent::" +:+ seed; ex_trust_peer_instructions := true;
          ex_inbound_asset_grants := false; ex_accepts_public_commands := false; ex_privilege_unlocked := false |};
        tb_language := {| la_susceptible := true;
          la_sanitizer := {| san_enabled := is_in mode [MODEL_LEVEL; GUARD_FULL]; san_block_encoded := false |};
          la_attacker_address := kp_address attacker_keys; la_log := [] |};
        tb_tool_sandbox := {| _pins := ∅; _dlp_enabled := is_in mode [GUARD_STRICT; GUARD_FULL; GUARD_MEV] |};
        tb_attacker_keys := attacker_keys; tb_vendors := vendors |}.

(** ** Its operations *)

Definition in_guard {A} (m : M AgentGuard A) : M Testbed A := zoom tb_guard set_guard m.
Definition in_language {A} (m : M LanguageAgent A) : M Testbed A := zoom tb_language set_language m.

(** The chain the guard and everybody else share. *)
Definition tb_chain (tb : Testbed) : result LocalChain := or_raise (g_chain (tb_guard tb)) AssertionError.
Definition in_chain {A} (m : M LocalChain A) : M Testbed A :=
  tb ← self;
  c ← lift (tb_chain tb);
  zoom (λ _, c) (λ c' tb, set_guard (g_set_chain (Some c') (tb_guard tb)) tb) m.

Definition balance (addr asset : string) : M Testbed Z :=
  tb ← self; c ← lift (tb_chain tb); lift (chain_balance c asset addr).

Definition tb_mine : M Testbed (list Receipt) :=
  tb ← self; in_guard (testbed_mine (tb_clock tb)).

(** [compromised_submit] *)
Definition compromised_submit (tx : Tx) : M Testbed unit :=
  tb ← self;
  lift (raise_if (bool_decide (tb_mode tb ≠ CONTRACT_WALLET))
    (PermissionError "compromised submission is only modeled in contract-wallet mode"));;
  c ← lift (tb_chain tb);
  signed ← lift (authorize_transaction (g_signer (tb_guard tb))
    {| tx_kind := tx_kind tx; tx_sender := tx_sender tx; tx_to := tx_to tx; tx_amount := tx_amount tx;
       tx_asset := tx_asset tx; tx_amount_in := tx_amount_in tx; tx_token_in := tx_token_in tx;
       tx_token_out := tx_token_out tx; tx_min_out := tx_min_out tx; tx_private := tx_private tx;
       tx_submitted_at := tx_submitted_at tx; tx_nonce := next_nonce c (tb_wallet tb);
       tx_chain_id := lc_chain_id c; tx_deadline := lc_clock c + 300;
       tx_decision_hash := "compromised-host-direct-rpc"; tx_public_key_hex := tx_public_key_hex tx;
       tx_signature_hex := tx_signature_hex tx |});
  in_chain (chain_submit signed).

Definition invoke_tool {S} (tb : Testbed) (server : McpServer S) (name : string) (args : arguments)
    : M S McpToolResultV1 :=
  invoke (tb_tool_sandbox tb) server name args.

(** * What PyYAML reads *)

Definition mev_policy : SpendingPolicy :=
  {| sp_name := "mev-aware"; sp_per_tx_cap := 5000000000;
     sp_window_caps := [{| wc_window_s := 3600; wc_cap := 20000000000 |};
                        {| wc_window_s := 86400; wc_cap := 50000000000 |}];
     sp_max_tx_per_window := 30; sp_velocity_window_s := 3600;
     sp_allowed_assets := ["TUSDC"; "DRB"]; sp_allowlist_recipients := [];
     sp_blocklist_recipients := []; sp_require_mandate_above := 100000000;
     sp_risk := {| dynamic_tightening := true; pool_move_threshold_bps := 100; max_slippage_bps := 50 |};
     sp_kill_switch := false; sp_raw := PNone |}.

Definition unrestricted_policy : SpendingPolicy :=
  {| sp_name := "unrestricted"; sp_per_tx_cap := 0; sp_window_caps := []; sp_max_tx_per_window := 0;
     sp_velocity_window_s := 3600; sp_allowed_assets := ["TUSDC"; "DRB"]; sp_allowlist_recipients := [];
     sp_blocklist_recipients := []; sp_require_mandate_above := 9223372036854775807;
     sp_risk := {| dynamic_tightening := false; pool_move_threshold_bps := 100000; max_slippage_bps := 100000 |};
     sp_kill_switch := false; sp_raw := PNone |}.

Definition allowing (recipients : list string) (p : SpendingPolicy) : SpendingPolicy :=
  {| sp_name := sp_name p; sp_per_tx_cap := sp_per_tx_cap p; sp_window_caps := sp_window_caps p;
     sp_max_tx_per_window := sp_max_tx_per_window p; sp_velocity_window_s := sp_velocity_window_s p;
     sp_allowed_assets := sp_allowed_assets p; sp_allowlist_recipients := recipients;
     sp_blocklist_recipients := sp_blocklist_recipients p;
     sp_require_mandate_above := sp_require_mandate_above p; sp_risk := sp_risk p;
     sp_kill_switch := sp_kill_switch p; sp_raw := sp_raw p |}.

(** The policy a mode's text spells out. *)
Definition mode_policy (mode : DefenseMode) : SpendingPolicy :=
  match mode with
  | GUARD_MEV => allowing vendors.*2 mev_policy
  | GUARD_STRICT | GUARD_FULL => allowing vendors.*2 strict_policy
  | _ => unrestricted_policy
  end.

Definition YamlLaw : Prop := ∀ mode, safe_load (policy_text mode) = inr (dump_policy (mode_policy mode)).
End testbed.
