(* ===== verification/TasksFacts.v ===== *)
(** The guard costs legitimate work nothing: under every policy of the testbed the whole task
    suite completes. *)
From Stdlib Require Import ZArith Lia Ascii String.
From stdpp Require Import base gmap sets list strings pretty.
From S2P Require Import Prelude Bytes Canonical CanonicalFacts Contracts ContractsFacts Decisions JournalFacts.
From S2P Require Import Policy Ledger LedgerFacts SpendPolicy Guard Monitor MonitorFacts Agents Testbed Attacks.
From S2P Require Import ToolsFacts AttacksFacts Tasks.

Open Scope Z_scope.

Section facts.
Context `{!Externals}.

(** * One transaction, one block *)

(** A chain at rest: an empty mempool, no rules on [wallet], the pool solvent with the
    reserves [pool], and at least [bal] USDC in [wallet]. *)
Record resting (wallet : string) (bal : Z) (pool : ConstantProductAMM) (c : LocalChain) : Prop := {
  rs_mempool : lc_mempool c = [];
  rs_hook : lc_rule_hooks c !! wallet = None;
  rs_pool : pool_ok 0 c;
  rs_amm : lc_amm c = pool;
  rs_bal : bal ≤ balance_of c "TUSDC" wallet;
}.

Lemma execute_body_done k t c c1 rc :
  pool_ok k c → fair_tx t → tx_sender t ≠ POOL → lc_rule_hooks c !! tx_sender t = None →
  execute_body t c = (c1, Ok rc) →
  ∃ c' rc', _execute t c = (c', Ok rc') ∧ rc_tx rc' = t ∧ rc_success rc' = true ∧ settles t c c' rc'
    ∧ same_rest c c' ∧ pool_ok k c'.
Proof.
  intros Hp Hfair Hs Hh Hb.
  assert (_execute t c = (c1, Ok rc)) as He.
  { unfold _execute, try_m. unfold mbind at 1, M_bind at 1. unfold run_hook, mbind, M_bind, self, lift.
    rewrite Hh. cbn. fold (execute_body t). by rewrite Hb. }
  pose proof (execute_effect _ _ _ _ He) as (c2 & dn & Heff & Hsame & Hrest & Hrc).
  destruct (execute_body_receipt _ _ _ _ Hb) as [Htx Hok].
  destruct (Hrc rc eq_refl) as (_ & Hdn & _). subst dn.
  exists c1, rc. split_and!; try done; [by eapply effect_settles|apply Hrest..|].
  eapply pool_ok_same; [|exact Hsame]. by eapply pool_ok_effect.
Qed.

Lemma seal_rest wallet bal pool rs c :
  resting wallet bal pool c → resting wallet bal pool (seal_block rs c).
Proof. intros [Hm Hh Hp Ha Hb]. constructor; try done. by eapply pool_ok_same. Qed.

(** A block with one transaction that goes through. *)
Lemma mine_one wallet bal pool bal' pool' t c c1 rc :
  lc_mempool c = [t] → resting wallet bal pool (set_mempool [] c) →
  fair_tx t → tx_sender t = wallet → wallet ≠ POOL →
  execute_body t (set_mempool [] c) = (c1, Ok rc) →
  (∀ c' rc', rc_success rc' = true → settles t (set_mempool [] c) c' rc' →
     lc_amm c' = pool' ∧ bal' ≤ balance_of c' "TUSDC" wallet) →
  ∃ c' rc', mine_block c = (c', Ok [rc']) ∧ rc_tx rc' = t ∧ rc_success rc' = true ∧ resting wallet bal' pool' c'.
Proof.
  intros Hmem Hr Hfair Hs Hw Hb Hset. subst wallet.
  destruct (execute_body_done 0 t (set_mempool [] c) c1 rc) as (c' & rc' & He & Htx & Hok & Hst & Hrest & Hpool);
    [by destruct Hr..|done|].
  destruct (Hset c' rc' Hok Hst) as [Hamm Hbal].
  eexists _, rc'. unfold mine_block, mbind, M_bind, read, update. rewrite Hmem, execute_all_cons, He.
  cbn [execute_all mret M_ret]. split_and!; [reflexivity|done|done|]. apply seal_rest.
  destruct Hrest as (Hmp & _ & _ & _ & _ & Hhooks). destruct Hr as [_ Hh _ _ _].
  constructor; try done. by rewrite Hhooks.
Qed.

Definition plus_usdc (pool : ConstantProductAMM) (size out : Z) : ConstantProductAMM :=
  {| amm_a := amm_a pool + size; amm_b := amm_b pool - out |}.

(** A transfer the wallet can afford. *)
Lemma mine_transfer wallet bal pool t to c :
  lc_mempool c = [t] → resting wallet bal pool (set_mempool [] c) → tx_sender t = wallet → wallet ≠ POOL →
  tx_kind t = TRANSFER → tx_to t = Some to → tx_asset t = "TUSDC" → 0 < tx_amount t ≤ bal →
  ∃ c' rc, mine_block c = (c', Ok [rc]) ∧ rc_tx rc = t ∧ rc_success rc = true
    ∧ resting wallet (bal - tx_amount t) pool c'.
Proof.
  intros Hmem Hr Hs Hw Hk Hto Hasset Hamt. pose proof Hr as [_ _ Hp Hamm Hbal].
  assert (fair_tx t) as Hfair by (unfold fair_tx; rewrite Hk; by left).
  destruct (pool_ok_tokens 0 _ "TUSDC" Hp (or_introl eq_refl)) as [tok Htok].
  unfold balance_of in Hbal. rewrite Htok in Hbal.
  eapply (mine_one wallet bal pool); try done.
  - unfold execute_body. rewrite Hk. unfold execute_transfer, mbind, M_bind, lift. rewrite Hto. cbn [or_raise].
    rewrite chain_transfer_cases, Hasset, Htok. rewrite Hs.
    rewrite (proj2 (Z.leb_gt _ _)), (proj2 (Z.ltb_ge _ _)) by lia. reflexivity.
  - intros c' rc' Hok Hst. unfold settles in Hst. rewrite Hk, Hok in Hst.
    destruct Hst as (to' & _ & _ & Ha' & Hb'). split; [congruence|]. rewrite Hb', Hs, Hasset.
    rewrite bool_decide_true by done. unfold balance_of. rewrite Htok.
    rewrite (bool_decide_true (wallet = wallet)) by done. case_bool_decide; lia.
Qed.

(** A swap at the quoted price. *)
Lemma mine_swap wallet bal pool t out c :
  lc_mempool c = [t] → resting wallet bal pool (set_mempool [] c) → tx_sender t = wallet → wallet ≠ POOL →
  tx_kind t = SWAP → tx_token_in t = "TUSDC" → tx_token_out t = "DRB" → 0 < tx_amount_in t ≤ bal →
  amm_quote pool "TUSDC" (tx_amount_in t) = Ok out → tx_min_out t ≤ out → 0 < out →
  ∃ c' rc, mine_block c = (c', Ok [rc]) ∧ rc_tx rc = t ∧ rc_success rc = true
    ∧ resting wallet (bal - tx_amount_in t) (plus_usdc pool (tx_amount_in t) out) c'.
Proof.
  intros Hmem Hr Hs Hw Hk Hin Hout Hamt Hq Hmin Hpos. pose proof Hr as [_ _ Hp Hamm Hbal].
  assert (fair_tx t) as Hfair by (unfold fair_tx; rewrite Hk; split; [lia|by left]).
  destruct (pool_ok_tokens 0 _ "TUSDC" Hp (or_introl eq_refl)) as [tok Htok].
  destruct (pool_ok_tokens 0 _ "DRB" Hp (or_intror eq_refl)) as [drb Hdrb].
  pose proof Hbal as Hheld. unfold balance_of in Hheld. rewrite Htok in Hheld.
  assert (amm_quote (lc_amm (set_mempool [] c)) (tx_token_in t) (tx_amount_in t) = Ok out) as Hq'
    by (rewrite Hamm, Hin; exact Hq).
  destruct (quote_pool 0 _ t out Hp Hfair Hk Hq') as (_ & _ & Hb & _).
  assert (out ≤ token_balance drb POOL) as Hcover.
  { destruct Hp as [_ Hpb _]. unfold balance_of in Hpb. rewrite Hdrb in Hpb.
    unfold swapped in Hb. rewrite Hin, bool_decide_true in Hb by done. cbn in Hb, Hpb |- *. lia. }
  eapply (mine_one wallet bal pool); try done.
  - unfold execute_body. rewrite Hk. unfold execute_swap, mbind, M_bind, lift, self, zoom.
    rewrite Hin, Hout, Htok, Hdrb. cbn [or_raise]. rewrite Hs, (proj2 (Z.ltb_ge _ _)) by lia. cbn [raise_if].
    unfold amm_swap, mbind, M_bind, lift, self, update. rewrite Hamm, Hq, (proj2 (Z.ltb_ge _ _)) by lia. cbn [raise_if].
    cbn [mret M_ret]. rewrite chain_transfer_cases. cbn [lc_tokens set_amm set_mempool] in Htok, Hdrb |- *. rewrite Htok.
    rewrite (proj2 (Z.leb_gt _ _)), (proj2 (Z.ltb_ge _ _)) by lia.
    rewrite chain_transfer_cases. cbn [lc_tokens move_on set_tokens]. rewrite lookup_insert_ne by done.
    cbn [lc_tokens set_amm set_mempool]. rewrite Hdrb.
    rewrite (proj2 (Z.leb_gt _ _)), (proj2 (Z.ltb_ge _ _)) by lia. reflexivity.
  - intros c' rc' Hok Hst. unfold settles in Hst. rewrite Hk, Hok in Hst.
    destruct Hst as (out' & Hq2 & _ & _ & Ha' & Hb'). rewrite Hq' in Hq2. injection Hq2 as <-. split.
    + rewrite Ha'. unfold swapped, plus_usdc. rewrite Hin, bool_decide_true by done. cbn [lc_amm set_amm].
      by rewrite Hamm.
    + rewrite Hb', Hs, Hin, Hout. eval_tests. rewrite (bool_decide_false (wallet = POOL)), (bool_decide_true (wallet = wallet)) by done. lia.
Qed.

(** * Through the guard *)

Section laws.
Context `{!Ed25519Law, !KeyLaw, !Sha256Length}.

(** What the chain holds after the wallet's transaction was taken. *)
Definition sent (tx : Tx) (c : LocalChain) : LocalChain := fst (chain_submit tx c).

Lemma submit_sent seed now p mc g c :
  g_signer g = IsolatedSigner_init seed → g_chain g = Some c → chain_hex mc → permitted now (g_engine g) p mc →
  ∃ v att tx, v_allow v = true ∧ carries p tx ∧ tx_sender tx = signer_address (g_signer g)
    ∧ _verify_authorization c tx = Ok tt
    ∧ guard_submit now p mc true g
      = (audited p v att false
           (g_set_pending (<[tx_hash tx := (p, v, att, length (g_receipts g))]> (g_pending g))
              (g_set_chain (Some (sent tx c)) (handed_out v att g))), Ok (length (g_receipts g))).
Proof.
  intros Hsig Hc Hhex Hp. destruct (guard_submit now p mc true g) as [g' r] eqn:Hsub.
  pose proof (guard_submit_cases now p mc true g) as Hcases. rewrite Hsub in Hcases. cbn [fst snd] in Hcases.
  destruct (evaluate_total now (g_engine g) p mc Hhex) as [v0 Hv0].
  pose proof (proj2 (proj1 (evaluate_exact _ _ _ _ _ Hv0)) Hp) as Hallow.
  destruct Hcases as [e Hd|v att Hd Hk|v att c0 tx Hd Hv _ Hc0 Htx Ha|v att c0 e Hd Hv _ Hc0 Herr].
  - unfold _decide in Hd. by rewrite Hv0 in Hd.
  - apply decide_Ok in Hd as [He _]. destruct Hk as [Hk|Hk]; [|congruence].
    rewrite Hv0 in He. injection He as <-. by rewrite Hallow in Hk.
  - rewrite Hc in Hc0. injection Hc0 as <-. exists v, att, tx.
    destruct (to_tx_carries p _ c _ tx (pm_kind _ _ _ _ Hp) Htx) as (Hcar & _ & Hs). done.
  - exfalso. apply decide_Ok in Hd as [_ Hatt]. rewrite Hc in Hc0. injection Hc0 as <-.
    destruct (to_tx_accepted p (ga_proposal_hash att) c seed) as (tx & Htx & Ha).
    { rewrite Hatt. apply hex_truthy. intros Hnil.
      pose proof (sha256_length (proposal_canonical p)) as Hl. by rewrite Hnil in Hl. }
    rewrite Hsig in Herr. destruct Herr as [Herr|(tx' & Htx' & Ha')]; congruence.
Qed.

Lemma wallet_not_pool seed : signer_address (IsolatedSigner_init seed) ≠ POOL.
Proof. done. Qed.

(** The guard after a proposal was permitted, executed and recorded. *)
Record settled_to (now : Z) (p : Proposal) (bal : Z) (pool : ConstantProductAMM) (g g2 : AgentGuard) : Prop := {
  st_engine : g_engine g2 = engine_record now p (g_engine g);
  st_signer : g_signer g2 = g_signer g;
  st_chain : ∃ c2, g_chain g2 = Some c2 ∧ resting (signer_address (g_signer g)) bal pool c2;
}.

Lemma submit_settles seed now p mc g c bal pool bal' pool' :
  g_signer g = IsolatedSigner_init seed → g_chain g = Some c → chain_hex mc → permitted now (g_engine g) p mc →
  resting (signer_address (g_signer g)) bal pool c →
  (∀ t c1, carries p t → tx_sender t = signer_address (g_signer g) → lc_mempool c1 = [t] →
     resting (signer_address (g_signer g)) bal pool (set_mempool [] c1) →
     ∃ c' rc, mine_block c1 = (c', Ok [rc]) ∧ rc_tx rc = t ∧ rc_success rc = true
       ∧ resting (signer_address (g_signer g)) bal' pool' c') →
  ∃ g1 g2 i rs r, guard_submit now p mc true g = (g1, Ok i) ∧ testbed_mine now g1 = (g2, Ok rs)
    ∧ g_receipts g2 !! i = Some r ∧ v_allow (gr_verdict r) = true ∧ settled_to now p bal' pool' g g2.
Proof.
  intros Hsig Hc Hhex Hp Hr Hmine.
  destruct (submit_sent seed now p mc g c Hsig Hc Hhex Hp) as (v & att & tx & Hv & Hcar & Hs & Ha & Hsub).
  unfold sent in Hsub. rewrite chain_submit_cases, Ha in Hsub. cbn [fst] in Hsub.
  set (c1 := set_nonces _ _) in Hsub. set (t := set_submitted_at (lc_clock c) tx) in *.
  assert (lc_mempool c1 = [t]) as Hmem by (unfold c1, t; cbn; by rewrite (rs_mempool _ _ _ _ Hr)).
  assert (resting (signer_address (g_signer g)) bal pool (set_mempool [] c1)) as Hr1.
  { destruct Hr as [Hm Hh Hpl Ham Hbl]. constructor; try done. by eapply pool_ok_same. }
  destruct (Hmine t c1) as (c2 & rc & Hm & Htx & Hok & Hr2); try done.
  eexists _, _, _, [rc], _. split; [exact Hsub|]. split.
  { unfold testbed_mine, mbind, M_bind, self, lift, zoom.
    cbn [g_chain audited _append_audit update fst g_set_audit g_set_pending g_set_chain or_raise]. rewrite Hm.
    cbn [reconcile]. unfold reconcile_one, mbind, M_bind, self. rewrite Htx, Hok.
    cbn [g_pending audited _append_audit update fst g_set_audit g_set_pending g_set_chain].
    change (tx_hash t) with (tx_hash tx). rewrite lookup_insert_eq. cbn [negb]. reflexivity. }
  cbn [g_receipts audited _append_audit update fst g_set_audit g_set_pending g_set_chain g_set_engine g_set_receipts handed_out].
  split.
  { rewrite list_lookup_alter, lookup_app_r, Nat.sub_diag by lia.
    by rewrite decide_True. }
  split; [done|]. constructor; [done|done|]. by exists c2.
Qed.

(** * Budgets *)

Definition day : Z := 86400.

(** At [now], at most [s] was spent in [n] payments in the last day, at most [t] ever, and
    nothing is recorded in the future. *)
Record budget (now s n t : Z) (e : PolicyEngine) : Prop := {
  bg_window : ∀ w, w ≤ day → _spent_in_window now e w ≤ s ∧ _count_in_window now e w ≤ n;
  bg_total : sum_amounts (pe_history e) ≤ t;
  bg_past : Forall (λ r, sr_ts r ≤ now ∧ 0 ≤ sr_amount r) (pe_history e);
}.

Lemma in_window_app now w l l' : in_window now w (l ++ l') = in_window now w l ++ in_window now w l'.
Proof. apply filter_app. Qed.

Lemma budget_record now s n t e p :
  0 ≤ pr_amount p → budget now s n t e →
  budget now (s + pr_amount p) (n + 1) (t + pr_amount p) (engine_record now p e).
Proof.
  intros Hp [Hw Ht Hpast]. constructor.
  - intros w Hwd. destruct (Hw w Hwd) as [Hs Hn].
    unfold _spent_in_window, _count_in_window in *. cbn [pe_history engine_record].
    rewrite in_window_app, sum_amounts_app, length_app. unfold in_window at 2 4. rewrite filter_cons.
    destruct (decide _); cbn; lia.
  - cbn [pe_history engine_record]. rewrite sum_amounts_app. cbn. lia.
  - apply Forall_app. split; [done|]. by repeat constructor.
Qed.

(** After more than a day nothing counts any more. *)
Lemma budget_wait now now' s n t e : now + day ≤ now' → budget now s n t e → budget now' 0 0 t e.
Proof.
  intros Hn [_ Ht Hpast]. constructor; [|done|].
  - intros w Hw. unfold _spent_in_window, _count_in_window.
    assert (in_window now' w (pe_history e) = []) as ->; [|cbn; lia].
    unfold in_window, day in *. clear Ht. induction Hpast as [|r l [Hr _] Hl IH]; [done|].
    rewrite filter_cons_False by lia. exact IH.
  - eapply Forall_impl; [exact Hpast|]. cbn. unfold day in *. lia.
Qed.

(** A policy that leaves room for the suite. *)
Record lenient (pol : SpendingPolicy) : Prop := {
  le_switch : sp_kill_switch pol = false;
  le_asset : "TUSDC" ∈ sp_allowed_assets pol;
  le_cap : sp_per_tx_cap pol = 0 ∨ 205000000 ≤ sp_per_tx_cap pol;
  le_windows : Forall (λ wc, wc_window_s wc ≤ day ∧ 800000000 ≤ wc_cap wc) (sp_window_caps pol);
  le_velocity : sp_max_tx_per_window pol = 0 ∨ (sp_velocity_window_s pol ≤ day ∧ 10 ≤ sp_max_tx_per_window pol);
  le_block : sp_blocklist_recipients pol = [];
  le_allow : sp_allowlist_recipients pol = [] ∨ sp_allowlist_recipients pol = vendors.*2;
  le_mandate : 100000000 ≤ sp_require_mandate_above pol;
  le_risk : 0 ≤ pool_move_threshold_bps (sp_risk pol) ∧ 50 ≤ max_slippage_bps (sp_risk pol);
}.

Lemma mode_lenient mode v : lenient (with_raw v (mode_policy mode)).
Proof.
  destruct mode; constructor; cbn; try done; try lia; try (by left); try (by right); try set_solver;
    repeat constructor; cbn; unfold day; lia.
Qed.

(** What leaves room is permitted. *)
Lemma lenient_permits now s n t e p mc :
  lenient (pe_policy e) → budget now s n t e → pe_pool_move_bps e = 0 →
  pr_kind p = "transfer" ∨ pr_kind p = "swap" → pr_asset p = "TUSDC" →
  0 < pr_amount p ≤ 205000000 → s + pr_amount p ≤ 800000000 → n + 1 ≤ 10 →
  (pr_kind p = "transfer" → pr_to p ∈ vendors.*2 ∧
     (pr_amount p ≤ 100000000 ∨ ∃ m, mc = Some m ∧ mandate_covers now (spent_under_intent e) p m)) →
  (pr_kind p = "swap" →
     (pr_quoted_out p - pr_min_out p) * 10000 / Z.max (pr_quoted_out p) 1 ≤ 50) →
  permitted now e p mc.
Proof.
  intros [Hsw Has Hcap Hwin Hvel Hbl Hal Hmand Hrisk] [Hw _ _] Hmove Hk Hasset Hamt Hs Hn Ht Hq.
  constructor; try done; try lia.
  - congruence.
  - eapply Forall_impl; [exact Hwin|]. cbn. intros wc [Hwd Hwc]. destruct (Hw _ Hwd). lia.
  - destruct Hvel as [Hvel|[Hvw Hvel]]; [by left|right]. destruct (Hw _ Hvw). lia.
  - intros Hkt. destruct (Ht Hkt) as [Hto Hm]. split_and!.
    + intros He. rewrite He in Hto. revert Hto. unfold vendors. cbn. rewrite !elem_of_cons, elem_of_nil.
      intros [|[|[|]]]; done.
    + rewrite Hbl. apply not_elem_of_nil.
    + destruct Hal as [-> | ->]; [by left|by right].
    + destruct Hm as [Hm|Hm]; [left; lia|by right].
  - intros Hks _. split; [lia|]. right; right. specialize (Hq Hks). lia.
Qed.

(** * x402 payments *)

Lemma sign_frame now digest req g :
  let g' := fst (sign_for_x402 now digest req g) in g_signer g' = g_signer g ∧ g_chain g' = g_chain g.
Proof.
  unfold sign_for_x402, mbind, M_bind, self, lift.
  destruct (_decide _ _ _ _) as [[v att]|e]; [|done]. by destruct (negb (v_allow v)).
Qed.

Lemma authorize_permitted seed now req g :
  g_signer g = IsolatedSigner_init seed → permitted now (g_engine g) (x402_proposal req) None →
  ∃ g' auth, create_authorization now (signer_address (g_signer g)) req g = (g', Ok (Some auth))
    ∧ pa_requirements auth = req ∧ pa_payer auth = signer_address (g_signer g)
    ∧ g_engine g' = engine_record now (x402_proposal req) (g_engine g)
    ∧ g_signer g' = g_signer g ∧ g_chain g' = g_chain g
    ∧ ∀ f, rq_nonce req ∉ fa_used_nonces f → now ≤ rq_expires_at req →
        facilitator_verify now f auth = Ok (true, "ok").
Proof.
  intros Hsig Hp. destruct (x402_authorization_accepted seed now req g Hsig) as (g' & r & Hc & Hiff & Hver).
  destruct (proj2 Hiff Hp) as [auth ->]. exists g', auth. split; [done|].
  pose proof (sign_frame now (requirements_digest req) req g) as [Hs Hch].
  unfold create_authorization, mbind, M_bind in Hc.
  destruct (sign_for_x402 now (requirements_digest req) req g) as [g1 [r|e]] eqn:Hsign; [|done].
  pose proof (sign_for_x402_Ok _ _ _ _ _ _ Hsign) as [(_ & -> & Heng)|(Hn & _)]; [|done].
  cbn in Hc, Hs, Hch. injection Hc as <- <-. split_and!; try done. intros f Hn He. by apply (Hver _ now f).
Qed.

Lemma settle_paid now auth f bal pool :
  facilitator_verify now f auth = Ok (true, "ok") → resting (pa_payer auth) bal pool (fa_chain f) →
  pa_payer auth ≠ POOL → rq_asset (pa_requirements auth) = "TUSDC" → 0 < rq_amount (pa_requirements auth) ≤ bal →
  ∃ c', facilitator_settle now auth f
      = ({| fa_chain := c'; fa_used_nonces := {[ rq_nonce (pa_requirements auth) ]} ∪ fa_used_nonces f |}, Ok (true, "settled"))
    ∧ resting (pa_payer auth) (bal - rq_amount (pa_requirements auth)) pool c'.
Proof.
  intros Hv [Hm Hh Hp Ha Hb] Hpool Hasset Hamt.
  destruct (pool_ok_tokens 0 _ "TUSDC" Hp (or_introl eq_refl)) as [tok Htok].
  pose proof Hb as Hheld. unfold balance_of in Hheld. rewrite Htok in Hheld.
  eexists. split.
  - unfold facilitator_settle, mbind, M_bind, self, lift, zoom, update. rewrite Hv. cbn [negb fa_chain].
    rewrite chain_transfer_cases, Hasset, Htok.
    rewrite (proj2 (Z.leb_gt _ _)), (proj2 (Z.ltb_ge _ _)) by lia. reflexivity.
  - constructor; try done; [apply pool_ok_move; (done || lia)|].
    rewrite balance_move by done. rewrite !(bool_decide_true ("TUSDC" = "TUSDC")), (bool_decide_true (pa_payer auth = pa_payer auth)) by done.
    case_bool_decide; lia.
Qed.

(** * The tasks *)

(** A testbed in which at most [s] was spent in [n] payments today and [t] in all, with at
    least [bal] USDC left and the reserves [pool]. *)
Record ready (seed : string) (s n t bal : Z) (pool : ConstantProductAMM) (tb : Testbed) : Prop := {
  rd_policy : lenient (pe_policy (g_engine (tb_guard tb)));
  rd_move : pe_pool_move_bps (g_engine (tb_guard tb)) = 0;
  rd_budget : budget (tb_clock tb) s n t (g_engine (tb_guard tb));
  rd_signer : g_signer (tb_guard tb) = IsolatedSigner_init seed;
  rd_chain : ∃ c, g_chain (tb_guard tb) = Some c ∧ resting (tb_wallet tb) bal pool c;
  rd_vendors : tb_vendors tb = vendors;
  rd_seed : tb_seed tb = seed;
  rd_agent : ex_agent_address (tb_executor tb) = "agent::" +:+ seed;
}.

Definition data_server (price k : Z) : ResourceServer :=
  {| rs_address := kp_address (KeyPair_from_seed "vendor-data-api"); rs_price := price;
     rs_resource := "https://api.vendor/data"; rs_evil := false; rs_attacker_address := None; rs_n := k |}.

Definition x402_nonce (k : Z) : string :=
  String.substring 0 16 (sha256_hex (encode ("https://api.vendor/data" +:+ ":" +:+ pretty k))).

Definition data_requirements (now price k : Z) : PaymentRequirements :=
  {| rq_scheme := "exact"; rq_network := "local-test"; rq_asset := "TUSDC"; rq_amount := price;
     rq_pay_to := kp_address (KeyPair_from_seed "vendor-data-api"); rq_resource := "https://api.vendor/data";
     rq_nonce := x402_nonce k; rq_expires_at := now + 300 |}.

Lemma da_request_answer now price k :
  da_request now {| da_server := Some (data_server price k) |}
  = ({| da_server := Some (data_server price (k + 1)) |}, Ok (402, Some (data_requirements now price (k + 1)), None)).
Proof. reflexivity. Qed.

Lemma pay_call n price k used out seed s m t bal pool tb :
  ready seed s m t bal pool tb → 0 < price ≤ 100000000 → price ≤ bal → s + price ≤ 800000000 → m + 1 ≤ 10 →
  x402_nonce (k + 1) ∉ used →
  ∃ tb', ready seed (s + price) (m + 1) (t + price) (bal - price) pool tb'
    ∧ pay_calls (S n) {| da_server := Some (data_server price k) |} used out tb
      = pay_calls n {| da_server := Some (data_server price (k + 1)) |} ({[ x402_nonce (k + 1) ]} ∪ used) (credit price out) tb'.
Proof.
  intros [Hpol Hmove Hbud Hsig (c & Hc & Hr) Hv Hsd Hag] Hprice Hbal Hs Hm Hn.
  set (req := data_requirements (tb_clock tb) price (k + 1)).
  destruct (authorize_permitted seed (tb_clock tb) req (tb_guard tb) Hsig) as (g' & auth & Hcr & Hreq & Hpay & Heng & Hsig' & Hch & Hver).
  { eapply lenient_permits; try done; cbn; try lia; [by left|].
    intros _. split; [unfold vendors; cbn; set_solver|left; lia]. }
  destruct (settle_paid (tb_clock tb) auth {| fa_chain := c; fa_used_nonces := used |} bal pool) as (c' & Hset & Hr').
  { apply Hver; [done|]. cbn. lia. }
  { by rewrite Hpay. }
  { rewrite Hpay, Hsig. apply wallet_not_pool. }
  { by rewrite Hreq. }
  { rewrite Hreq. cbn. lia. }
  rewrite Hreq in Hset, Hr'. rewrite Hpay in Hr'.
  exists (set_guard (g_set_chain (Some c') g') tb). split.
  - constructor; cbn; rewrite ?Heng; try done; [|congruence|].
    + apply (budget_record _ _ _ _ _ (x402_proposal req)); [cbn; lia|done].
    + exists c'. split; [done|]. unfold tb_wallet in *. cbn. rewrite Hsig'. exact Hr'.
  - cbn [pay_calls]. unfold self. unfold mbind at 1, M_bind at 1. rewrite da_request_answer.
    unfold lift, in_guard, zoom, mbind, M_bind. cbn [Z.eqb negb raise_if or_raise]. fold req.
    change (402 =? 402) with true. cbn [negb raise_if].
    unfold tb_wallet. rewrite Hcr. unfold in_facilitator, tb_chain. cbn [tb_guard set_guard]. rewrite Hch, Hc.
    cbn [or_raise]. rewrite Hset. done.
Qed.

(** [n] operations done, for [amount] each. *)
Definition credited (n : nat) (amount : Z) (o : TaskOutcome) : TaskOutcome :=
  {| to_task := to_task o; to_attempted := to_attempted o; to_completed := to_completed o + Z.of_nat n;
     to_spent_micro := to_spent_micro o + Z.of_nat n * amount |}.

Lemma credited_S n amount o : credited n amount (credit amount o) = credited (S n) amount o.
Proof. unfold credited, credit. cbn [to_task to_attempted to_completed to_spent_micro]. f_equal; lia. Qed.

Lemma credited_0 amount o : credited 0 amount o = o.
Proof. destruct o. unfold credited. cbn. f_equal; lia. Qed.

Lemma pay_calls_done n price k used out seed s m t bal pool tb :
  ready seed s m t bal pool tb → 0 < price ≤ 100000000 → Z.of_nat n * price ≤ bal →
  s + Z.of_nat n * price ≤ 800000000 → m + Z.of_nat n ≤ 10 →
  (∀ j, k < j ≤ k + Z.of_nat n → x402_nonce j ∉ used) →
  (∀ i j, k < i ≤ k + Z.of_nat n → k < j ≤ k + Z.of_nat n → x402_nonce i = x402_nonce j → i = j) →
  ∃ tb', pay_calls n {| da_server := Some (data_server price k) |} used out tb = (tb', Ok (credited n price out))
    ∧ ready seed (s + Z.of_nat n * price) (m + Z.of_nat n) (t + Z.of_nat n * price) (bal - Z.of_nat n * price) pool tb'.
Proof.
  revert k used out s m t bal tb. induction n as [|n IH]; intros k used out s m t bal tb Hr Hp Hb Hs Hm Hfresh Hinj.
  { exists tb. rewrite credited_0, !Z.mul_0_l, !Z.add_0_r, Z.sub_0_r. done. }
  destruct (pay_call n price k used out seed s m t bal pool tb) as (tb1 & Hr1 & ->); try done; try lia.
  { apply Hfresh. lia. }
  destruct (IH (k + 1) ({[x402_nonce (k + 1)]} ∪ used) (credit price out) (s + price) (m + 1) (t + price) (bal - price) tb1)
    as (tb' & He & Hr'); try done; try lia.
  - intros j Hj. rewrite elem_of_union, elem_of_singleton. intros [Heq|Hin].
    + apply Hinj in Heq; lia.
    + by apply (Hfresh j); [lia|].
  - intros i j Hi Hj. apply Hinj; lia.
  - exists tb'. rewrite He, credited_S. split; [done|].
    replace (s + Z.of_nat (S n) * price) with (s + price + Z.of_nat n * price) by lia.
    replace (m + Z.of_nat (S n)) with (m + 1 + Z.of_nat n) by lia.
    replace (t + Z.of_nat (S n) * price) with (t + price + Z.of_nat n * price) by lia.
    replace (bal - Z.of_nat (S n) * price) with (bal - price - Z.of_nat n * price) by lia. done.
Qed.

(** A proposal of the executor's client that is settled in the next block. *)
Lemma submit_ready seed s n t bal pool bal' pool' p mc tb :
  ready seed s n t bal pool tb → chain_hex mc → 0 ≤ pr_amount p →
  permitted (tb_clock tb) (g_engine (tb_guard tb)) (setdefault_agent ("agent::" +:+ seed) p) mc →
  pr_amount (setdefault_agent ("agent::" +:+ seed) p) = pr_amount p →
  (∀ t c, carries (setdefault_agent ("agent::" +:+ seed) p) t → tx_sender t = tb_wallet tb → lc_mempool c = [t] →
     resting (tb_wallet tb) bal pool (set_mempool [] c) →
     ∃ c' rc, mine_block c = (c', Ok [rc]) ∧ rc_tx rc = t ∧ rc_success rc = true ∧ resting (tb_wallet tb) bal' pool' c') →
  ∃ g1 i tb2 rs,
    client_submit (ex_agent_address (tb_executor tb)) (tb_clock tb) p mc (tb_guard tb) = (g1, Ok i)
    ∧ tb_mine (set_guard g1 tb) = (tb2, Ok rs) ∧ receipt_allows tb2 i = true
    ∧ tb_clock tb2 = tb_clock tb
    ∧ ready seed (s + pr_amount p) (n + 1) (t + pr_amount p) bal' pool' tb2.
Proof.
  intros [Hpol Hmove Hbud Hsig (c & Hc & Hr) Hv Hsd Hag] Hhex Hp Hperm Hamt Hmine.
  destruct (submit_settles seed (tb_clock tb) (setdefault_agent ("agent::" +:+ seed) p) mc (tb_guard tb) c
    bal pool bal' pool' Hsig Hc Hhex Hperm Hr Hmine) as (g1 & g2 & i & rs & r & Hsub & Hm & Hrec & Hallow & [He Hs (c2 & Hc2 & Hr2)]).
  exists g1, i, (set_guard g2 tb), rs. split_and!.
  - unfold client_submit. by rewrite Hag.
  - unfold tb_mine, in_guard, zoom, self, mbind, M_bind. cbn [tb_guard set_guard tb_clock]. by rewrite Hm.
  - unfold receipt_allows. cbn. by rewrite Hrec.
  - done.
  - constructor; cbn; rewrite ?He; try done; [|congruence|].
    + rewrite <- Hamt. apply budget_record; [lia|done].
    + exists c2. split; [done|]. unfold tb_wallet. cbn. by rewrite Hs.
Qed.

Lemma ready_not_pool seed s n t bal pool tb : ready seed s n t bal pool tb → tb_wallet tb ≠ POOL.
Proof. intros Hr. unfold tb_wallet. rewrite (rd_signer _ _ _ _ _ _ _ Hr). apply wallet_not_pool. Qed.

(** A transfer to a vendor, within the caps or under a mandate. *)
Lemma transfer_ready seed s n t bal pool p mc tb :
  ready seed s n t bal pool tb → pr_kind p = "transfer" → pr_asset p = "TUSDC" → pr_meta p = [] →
  pr_to p ∈ vendors.*2 → 0 < pr_amount p ≤ 205000000 → pr_amount p ≤ bal → s + pr_amount p ≤ 800000000 → n + 1 ≤ 10 →
  chain_hex mc →
  (pr_amount p ≤ 100000000 ∨ ∃ m, mc = Some m ∧
     mandate_covers (tb_clock tb) (spent_under_intent (g_engine (tb_guard tb))) (setdefault_agent ("agent::" +:+ seed) p) m) →
  ∃ g1 i tb2 rs,
    client_submit (ex_agent_address (tb_executor tb)) (tb_clock tb) p mc (tb_guard tb) = (g1, Ok i)
    ∧ tb_mine (set_guard g1 tb) = (tb2, Ok rs) ∧ receipt_allows tb2 i = true
    ∧ tb_clock tb2 = tb_clock tb
    ∧ ready seed (s + pr_amount p) (n + 1) (t + pr_amount p) (bal - pr_amount p) pool tb2.
Proof.
  intros Hr Hk Hasset Hmeta Hto Hamt Hbal Hs Hn Hhex Hmand. pose proof Hr as [Hpol Hmove Hbud _ _ _ _ _].
  assert (setdefault_agent ("agent::" +:+ seed) p = {| pr_kind := pr_kind p; pr_amount := pr_amount p; pr_asset := pr_asset p;
    pr_to := pr_to p; pr_token_in := pr_token_in p; pr_token_out := pr_token_out p; pr_min_out := pr_min_out p;
    pr_quoted_out := pr_quoted_out p; pr_purpose := pr_purpose p; pr_meta := [(KStr "agent", PStr ("agent::" +:+ seed))] |}) as Hdef
    by (unfold setdefault_agent; by rewrite Hmeta).
  eapply (submit_ready seed s n t bal pool); try done; try lia.
  - eapply lenient_permits; try done; rewrite Hdef; cbn; try done; try lia; [by left| |].
    + intros _. split; [done|]. rewrite <- Hdef. done.
    + intros Hsw. congruence.
  - by rewrite Hdef.
  - rewrite Hdef. intros tx c [(_ & Hkt & Hto' & Ha & Has)|(Hsw & _)] Hsend Hmem Hrest; [|cbn in Hsw; congruence].
    cbn in Ha, Has, Hto'. rewrite <- Ha. eapply (mine_transfer _ bal); try done; [by eapply ready_not_pool|congruence|lia].
Qed.

Lemma ready_wait seed s n t bal pool k tb :
  day ≤ k → ready seed s n t bal pool tb → ready seed 0 0 t bal pool (advance_time k tb).
Proof.
  intros Hk [Hpol Hmove Hbud Hsig Hc Hv Hsd Hag]. constructor; try done. cbn.
  eapply budget_wait; [|exact Hbud]. lia.
Qed.

Lemma vendor_feed tb : tb_vendors tb = vendors → vendor "feed" tb = Ok (kp_address (KeyPair_from_seed "vendor-feed")).
Proof. intros Hv. unfold vendor. by rewrite Hv. Qed.

(** Any number of months can be paid, as long as the money lasts. *)
Lemma subscribe_done todo m monthly out seed s n t bal pool tb :
  ready seed s n t bal pool tb → 0 < monthly ≤ 100000000 → Z.of_nat todo * monthly ≤ bal →
  ∃ tb' s' n', subscribe todo m monthly out tb = (tb', Ok (credited todo monthly out))
    ∧ ready seed s' n' (t + Z.of_nat todo * monthly) (bal - Z.of_nat todo * monthly) pool tb'
    ∧ (todo ≠ 0%nat → s' = monthly ∧ n' = 1).
Proof.
  revert m out s n t bal tb. induction todo as [|todo IH]; intros m out s n t bal tb Hr Hm Hb.
  { exists tb, s, n. rewrite credited_0, !Z.mul_0_l, !Z.add_0_r, Z.sub_0_r. done. }
  apply (ready_wait _ _ _ _ _ _ (30 * 86400)) in Hr; [|unfold day; lia].
  set (tb0 := advance_time (30 * 86400) tb) in *.
  set (feed := kp_address (KeyPair_from_seed "vendor-feed")).
  destruct (transfer_ready seed 0 0 t bal pool (subscription feed monthly m) None tb0)
    as (g1 & i & tb2 & rs & Hsub & Hmine & Hallow & _ & Hr2); try done; cbn [pr_amount subscription]; try lia.
  { unfold vendors, feed. cbn. set_solver. }
  cbn [pr_amount subscription] in Hr2.
  destruct (IH (S m) (credit monthly out) (0 + monthly) (0 + 1) (t + monthly) (bal - monthly) tb2)
    as (tb' & s' & n' & He & Hr' & Hsn); try done; try lia.
  exists tb', (match todo with O => monthly | S _ => s' end), (match todo with O => 1 | S _ => n' end). split_and!.
  - cbn [subscribe]. unfold update, self, lift, in_guard, zoom, mbind, M_bind. fold tb0.
    rewrite (vendor_feed tb0) by apply Hr. fold feed. rewrite Hsub, Hmine, Hallow, He. by rewrite credited_S.
  - destruct todo as [|todo].
    + cbn in He. injection He as <-. rewrite Z.mul_1_l.
      replace (0 + monthly) with monthly in Hr2 by lia. exact Hr2.
    + replace (t + Z.of_nat (S (S todo)) * monthly) with (t + monthly + Z.of_nat (S todo) * monthly) by lia.
      replace (bal - Z.of_nat (S (S todo)) * monthly) with (bal - monthly - Z.of_nat (S todo) * monthly) by lia. done.
  - intros _. destruct todo; [done|]. by apply Hsn.
Qed.

(** ** Procurement *)

Lemma signed_intent keys i :
  kp_pub keys = ed_public (kp_priv keys) → intent_verify_signature (intent_sign keys i) (kp_pub keys) = Ok true.
Proof.
  intros Hk. unfold intent_verify_signature. cbn [im_signature_hex intent_sign]. rewrite bytes_fromhex_hex.
  cbn [mbind result_bind]. unfold verify, KeyPair_sign. rewrite Hk.
  change (intent_digest (intent_sign keys i)) with (intent_digest i). by rewrite ed_verify_sign.
Qed.

Lemma signed_cart keys c :
  kp_pub keys = ed_public (kp_priv keys) → cart_verify_signature (cart_sign keys c) (kp_pub keys) = Ok true.
Proof.
  intros Hk. unfold cart_verify_signature. cbn [cm_signature_hex cart_sign]. rewrite bytes_fromhex_hex.
  cbn [mbind result_bind]. unfold verify, KeyPair_sign. rewrite Hk.
  change (cart_digest (cart_sign keys c)) with (cart_digest c). by rewrite ed_verify_sign.
Qed.

Definition merchant_address : string := kp_address (KeyPair_from_seed "vendor-merchant").

Definition procurement_cart (tb : Testbed) : CartMandate :=
  cart_sign (KeyPair_from_seed "vendor-merchant")
    {| cm_merchant := merchant_address; cm_intent_hash := intent_hash (procurement_intent tb merchant_address);
       cm_items := cart_items; cm_total := 205000000; cm_expires_at := tb_clock tb + 3600; cm_signature_hex := "" |}.

Definition procurement : Proposal :=
  {| pr_kind := "transfer"; pr_amount := 205000000; pr_asset := "TUSDC"; pr_to := merchant_address;
     pr_token_in := "TUSDC"; pr_token_out := "DRB"; pr_min_out := 0; pr_quoted_out := 0;
     pr_purpose := "procurement:" +:+ join "," cart_items; pr_meta := [] |}.

Lemma procurement_covered tb spent :
  spent + 205000000 ≤ 300000000 →
  mandate_covers (tb_clock tb) spent (setdefault_agent ("agent::" +:+ tb_seed tb) procurement)
    {| mc_intent := procurement_intent tb merchant_address; mc_cart := procurement_cart tb;
       mc_user_pub := kp_pub (KeyPair_from_seed "user-owner"); mc_merchant_pub := kp_pub (KeyPair_from_seed "vendor-merchant") |}.
Proof.
  intros Hs. constructor; cbn; try done; try lia.
  - by apply signed_intent.
  - by apply signed_cart.
  - right. apply list_elem_of_here.
Qed.

Lemma procurement_done seed s n t bal pool tb :
  ready seed s n t bal pool tb → 205000000 ≤ bal → s + 205000000 ≤ 800000000 → n + 1 ≤ 10 → t + 205000000 ≤ 300000000 →
  ∃ tb', task_budget_procurement tb
      = (tb', Ok {| to_task := "budget-procurement"; to_attempted := 3; to_completed := 3; to_spent_micro := 205000000 |})
    ∧ ready seed (s + 205000000) (n + 1) (t + 205000000) (bal - 205000000) pool tb'.
Proof.
  intros Hr Hb Hs Hn Ht. pose proof Hr as [_ _ Hbud _ _ Hv Hsd _].
  destruct (transfer_ready seed s n t bal pool procurement
    (Some {| mc_intent := procurement_intent tb merchant_address; mc_cart := procurement_cart tb;
             mc_user_pub := kp_pub (KeyPair_from_seed "user-owner");
             mc_merchant_pub := kp_pub (KeyPair_from_seed "vendor-merchant") |}) tb)
    as (g1 & i & tb2 & rs & Hsub & Hmine & Hallow & _ & Hr2); try done; cbn [pr_amount procurement]; try lia.
  - unfold vendors, merchant_address. cbn. set_solver.
  - cbn. unfold is_Some. rewrite !fromhex_hex. eauto.
  - right. eexists. split; [done|]. rewrite <- Hsd. apply procurement_covered.
    unfold spent_under_intent. destruct Hbud as [_ Htot _]. lia.
  - exists tb2. split; [|exact Hr2]. unfold task_budget_procurement, self, lift, in_guard, zoom, mbind, M_bind.
    assert (vendor "merchant" tb = Ok merchant_address) as -> by (unfold vendor; by rewrite Hv).
    change (create_cart (MerchantTool_init merchant_address) cart_items
      (intent_hash (procurement_intent tb merchant_address)) (KeyPair_from_seed "vendor-merchant") (tb_clock tb + 3600))
      with (Ok (procurement_cart tb)).
    cbn [cm_total procurement_cart cart_sign mt_address MerchantTool_init].
    fold procurement. rewrite Hsub, Hmine, Hallow. reflexivity.
Qed.

(** ** Swaps *)

(** Half a percent of tolerance is within fifty basis points once the quote is large. *)
Lemma tolerance_bps q : 10000 ≤ q → (q - q * 9950 / 10000) * 10000 / Z.max q 1 ≤ 50.
Proof.
  intros Hq. rewrite Z.max_l by lia. apply Z.lt_succ_r, Z.div_lt_upper_bound; [lia|].
  pose proof (Z.div_mod (q * 9950) 10000 ltac:(lia)). pose proof (Z.mod_pos_bound (q * 9950) 10000 ltac:(lia)). lia.
Qed.

Lemma rebalance_step k size out q seed s n t bal pool tb :
  ready seed s n t bal pool tb → 0 < size ≤ 205000000 → size ≤ bal → s + size ≤ 800000000 → n + 1 ≤ 10 →
  amm_quote pool "TUSDC" size = Ok q → 10000 ≤ q →
  ∃ tb', rebalance (S k) size out tb = rebalance k size (credit size out) tb'
    ∧ ready seed (s + size) (n + 1) (t + size) (bal - size) (plus_usdc pool size q) tb'.
Proof.
  intros Hr Hsz Hb Hs Hn Hq Hq0. pose proof Hr as [Hpol Hmove Hbud Hsig (c & Hc & Hrest) Hv Hsd Hag].
  set (p := {| pr_kind := "swap"; pr_amount := size; pr_asset := "TUSDC"; pr_to := ""; pr_token_in := "TUSDC";
    pr_token_out := "DRB"; pr_min_out := q * 9950 / 10000; pr_quoted_out := q; pr_purpose := "treasury-rebalance";
    pr_meta := [(KStr "private", PBool false)] |}).
  assert (q * 9950 / 10000 ≤ q) as Hle by (apply Z.div_le_upper_bound; lia).
  destruct (submit_ready seed s n t bal pool (bal - size) (plus_usdc pool size q) p None tb)
    as (g1 & i & tb2 & rs & Hsub & Hmine & Hallow & _ & Hr2); try done; [cbn; lia| | |].
  - eapply lenient_permits; try done; cbn; try lia; [by right|]. intros _. by apply tolerance_bps.
  - intros tx c0 [(Hk & _)|(_ & Hk & Ha & Hin & Hout & Hmin)] Hsend Hmem Hrs; [done|].
    change (tx_amount_in tx = size) in Ha. change (tx_token_in tx = "TUSDC") in Hin.
    change (tx_token_out tx = "DRB") in Hout. change (tx_min_out tx = q * 9950 / 10000) in Hmin. rewrite <- Ha.
    eapply (mine_swap _ bal pool tx q); rewrite ?Ha; try done; try lia. by eapply ready_not_pool.
  - exists tb2. split; [|exact Hr2]. cbn [rebalance]. unfold self, lift, in_guard, zoom, mbind, M_bind, tb_chain.
    rewrite Hc. cbn [or_raise]. rewrite (rs_amm _ _ _ _ Hrest), Hq. unfold executor_swap. fold p.
    rewrite Hsub, Hmine, Hallow. reflexivity.
Qed.

(** ** The suite *)

Lemma mint_resting wallet bal pool asset addr n c :
  0 ≤ n → asset = "TUSDC" ∨ asset = "DRB" → resting wallet bal pool c →
  ∃ c', chain_mint asset addr n c = (c', Ok tt)
    ∧ resting wallet (bal + if bool_decide (asset = "TUSDC" ∧ addr = wallet) then n else 0) pool c'.
Proof.
  intros Hn Hasset [Hm Hh Hp Ha Hb]. destruct (pool_ok_tokens 0 c asset Hp Hasset) as [k Hk].
  pose proof (pool_ok_mint 0 asset addr n c Hn Hp) as Hp'. pose proof (chain_mint_ok asset addr n c k Hk) as Hmint.
  rewrite Hmint in Hp'. eexists. split; [exact Hmint|]. constructor; try done.
  unfold balance_of in *. cbn [lc_tokens set_tokens]. destruct (decide (asset = "TUSDC")) as [->|].
  - rewrite lookup_insert_eq. cbn [token_mint update fst]. rewrite Hk in Hb. rewrite balance_insert.
    repeat case_bool_decide; subst; try lia; naive_solver.
  - rewrite lookup_insert_ne, bool_decide_false by naive_solver. lia.
Qed.

Definition fresh_pool (a b : Z) : ConstantProductAMM := {| amm_a := a; amm_b := b |}.

Lemma init_resting wallet a b c :
  wallet ≠ POOL → 0 < a → LocalChain_init a b 31337 = Ok c → resting wallet 0 (fresh_pool a b) c.
Proof.
  intros Hw Ha Hc. pose proof (init_pool _ _ _ _ Hc) as [[Hpa Hpb Hpr] _].
  unfold LocalChain_init in Hc. apply bind_Ok in Hc as (amm & Hamm & Hc). injection Hc as <-.
  unfold AMM_init in Hamm. apply bind_Ok in Hamm as (u & _ & Hamm). injection Hamm as <-.
  constructor; try done.
  - constructor; try done. unfold product in *. cbn in *. nia.
  - unfold balance_of. cbn [lc_tokens]. rewrite lookup_insert_eq. unfold token_mint, update. cbn [fst].
    change (∅ : gmap string Z) with (tk_balances (TestToken_init "TUSDC")).
    rewrite balance_insert, bool_decide_false by done. done.
Qed.

Variable safe_load : string → string + pyval.
Hypothesis Hyaml : YamlLaw safe_load.

Lemma testbed_ready mode seed a b tick :
  mode ≠ CONTRACT_WALLET → 0 < a → 0 < b →
  ∃ tb, Testbed_init safe_load mode seed a b tick = Ok tb
    ∧ ready seed 0 0 0 (10000 * MICRO) (fresh_pool a b) tb.
Proof.
  intros Hm Ha Hb. unfold Testbed_init. set (wallet := signer_address (IsolatedSigner_init seed)).
  assert (∃ c, LocalChain_init a b 31337 = Ok c) as [c0 Hc0].
  { unfold LocalChain_init, AMM_init. rewrite (proj2 (Z.ltb_lt 0 a) Ha), (proj2 (Z.ltb_lt 0 b) Hb). by eexists. }
  pose proof (init_resting wallet a b c0 (wallet_not_pool seed) Ha Hc0) as Hr0. rewrite Hc0.
  destruct (mint_resting wallet 0 (fresh_pool a b) "TUSDC" wallet (10000 * MICRO) c0) as (c1 & Hm1 & Hr1);
    [by unfold MICRO|by left|done|].
  rewrite bool_decide_true, Z.add_0_l in Hr1 by done. set (x := kp_address (KeyPair_from_seed ("attacker::" +:+ seed))).
  destruct (mint_resting wallet _ (fresh_pool a b) "TUSDC" x (2000 * MICRO) c1 ltac:(by unfold MICRO)
    ltac:(by left) Hr1) as (c2 & Hm2 & Hr2).
  destruct (mint_resting wallet _ (fresh_pool a b) "DRB" x (5000 * MICRO) c2 ltac:(by unfold MICRO)
    ltac:(by right) Hr2) as (c3 & Hm3 & Hr3).
  unfold load_policy. rewrite (Hyaml mode), (load_dump _ (mode_policy_wf mode)). cbn [mbind result_bind].
  assert (setup_chain mode wallet x c0 = (c3, Ok tt)) as Hset.
  { unfold setup_chain, mbind, M_bind. rewrite bool_decide_false by done. unfold mret, M_ret.
    by rewrite Hm1, Hm2, Hm3. }
  rewrite Hset. cbn [mbind result_bind]. eexists. split; [reflexivity|].
  constructor; [apply mode_lenient|done| |done| |done|done|done]; cbn [tb_guard g_engine AgentGuard_init].
  - constructor; [|done|constructor]. intros w _. by split.
  - exists c3. split; [done|]. destruct Hr3 as [Hq1 Hq2 Hq3 Hq4 Hq5]. constructor; try done.
    change (tb_wallet _) with wallet. revert Hq5. unfold MICRO. repeat case_bool_decide; lia.
Qed.

Definition finished (task : string) (n spent : Z) : TaskOutcome :=
  {| to_task := task; to_attempted := n; to_completed := n; to_spent_micro := spent |}.

Lemma rebalance_four out seed s n t bal tb :
  ready seed s n t bal (fresh_pool (1000000 * MICRO) (500000 * MICRO)) tb →
  s ≤ 100000000 → n ≤ 2 → 600 * MICRO ≤ bal →
  ∃ tb', rebalance 4 (150 * MICRO) out tb = (tb', Ok (credited 4 (150 * MICRO) out)).
Proof.
  intros Hr Hs Hn Hb. unfold MICRO in *.
  do 4 (edestruct rebalance_step as (?tb & -> & Hr'); [exact Hr|lia|lia|lia|lia|vm_compute; reflexivity|lia|];
        clear Hr; rename Hr' into Hr; vm_compute plus_usdc in Hr).
  eexists. cbn [rebalance]. unfold mret, M_ret. do 2 f_equal. 
  unfold credited, credit. cbn [to_task to_attempted to_completed to_spent_micro]. f_equal; lia.
Qed.

(** C22: the guard costs legitimate work nothing.  In every mode with a policy of its own,
    whatever the seed and the time, the suite of a fresh testbed runs to its end and reports
    every operation as completed: eight paid and settled API calls, the purchase under a
    mandate chain, three months of subscription and four swaps, for 16, 205, 180 and 600
    USDC; the eight truncated request nonces being distinct. *)
Theorem legitimate_tasks_complete mode seed tick :
  mode ≠ CONTRACT_WALLET →
  (∀ i j, 1 ≤ i ≤ 8 → 1 ≤ j ≤ 8 → x402_nonce i = x402_nonce j → i = j) →
  run_task_suite safe_load mode seed tick
  = Ok [finished "pay-per-call-data" 8 (16 * MICRO); finished "budget-procurement" 3 (205 * MICRO);
        finished "subscription-management" 3 (180 * MICRO); finished "treasury-rebalancing" 4 (600 * MICRO)].
Proof.
  intros Hm Hinj. unfold run_task_suite, outcome.
  destruct (testbed_ready mode seed (1000000 * MICRO) (500000 * MICRO) tick Hm) as (tb & -> & Hr); [done..|].
  cbn [mbind result_bind]. unfold task_suite, mbind, M_bind.
  assert (vendor "data-api" tb = Ok (kp_address (KeyPair_from_seed "vendor-data-api"))) as Hvd
    by (unfold vendor; by rewrite (rd_vendors _ _ _ _ _ _ _ Hr)).
  unfold task_pay_per_call_data at 1, self, lift. unfold mbind, M_bind. rewrite Hvd. fold (data_server (2 * MICRO) 0).
  destruct (pay_calls_done 8 (2 * MICRO) 0 ∅ (started "pay-per-call-data" (Z.of_nat 8)) _ _ _ _ _ _ _ Hr)
    as (tb1 & -> & Hr1); [unfold MICRO; lia..|intros; apply not_elem_of_empty|intros i j ? ?; apply Hinj; lia|].
  destruct (procurement_done _ _ _ _ _ _ _ Hr1) as (tb2 & -> & Hr2); [unfold MICRO; lia..|].
  destruct (subscribe_done 3 0 (60 * MICRO) (started "subscription-management" (Z.of_nat 3)) _ _ _ _ _ _ _ Hr2)
    as (tb3 & s' & n' & Hsub & Hr3 & Hsn); [unfold MICRO; lia..|].
  unfold task_subscription_management. rewrite Hsub. destruct (Hsn ltac:(done)) as [-> ->].
  destruct (rebalance_four (started "treasury-rebalancing" (Z.of_nat 4)) _ _ _ _ _ _ Hr3) as (tb4 & Hreb);
    [unfold MICRO; lia..|].
  unfold task_treasury_rebalancing. rewrite Hreb. reflexivity.
Qed.
End laws.
End facts.

(** * A concrete suite *)

(** Digests whose first eight bytes tell messages apart. *)
Definition spread_externals : Externals := {|
  rfc8785 := None;
  sha256 := λ b, to_bytes_be 8 (mix b) ++ to_bytes_be 24 (mix (b ++ [Byte.x01]));
  keccak := λ b, to_bytes_be 32 (mix (b ++ [Byte.x01]));
  ed_public := λ k, k;
  ed_sign := λ k m, to_bytes_be 64 (mix (k ++ m));
  ed_verify := λ k m s, bool_decide (s = to_bytes_be 64 (mix (k ++ m)));
  iso := λ t, pretty t;
|}.

#[local] Existing Instance spread_externals.

Lemma spread_ed25519 : Ed25519Law.
Proof. intros k m. cbn. by apply bool_decide_true. Qed.

Lemma spread_sha256 : Sha256Length.
Proof. intros b. cbn [sha256 spread_externals]. by rewrite length_app, !length_to_bytes_be. Qed.

Lemma spread_keys : KeyLaw.
Proof.
  split; intros.
  - unfold _seed_bytes. apply spread_sha256.
  - apply length_to_bytes_be.
Qed.

Definition spread_load (t : string) : string + pyval :=
  if String.eqb t (policy_text GUARD_STRICT) then inr (dump_policy (mode_policy GUARD_STRICT))
  else if String.eqb t (policy_text GUARD_MEV) then inr (dump_policy (mode_policy GUARD_MEV))
  else inr (dump_policy (mode_policy UNDEFENDED)).

Lemma spread_yaml : YamlLaw spread_load.
Proof. intros []; by vm_compute. Qed.

Lemma legitimate_tasks_complete_witness :
  ∃ l, run_task_suite spread_load GUARD_STRICT "task:guard_strict" 1700000000 = Ok l
    ∧ map to_completed l = [8; 3; 3; 4].
Proof.
  eexists. split.
  - apply (@legitimate_tasks_complete spread_externals spread_ed25519 spread_keys spread_sha256 spread_load spread_yaml
      GUARD_STRICT "task:guard_strict" 1700000000); [discriminate|].
    intros i j Hi Hj.
    assert (i = 1 ∨ i = 2 ∨ i = 3 ∨ i = 4 ∨ i = 5 ∨ i = 6 ∨ i = 7 ∨ i = 8) as Hi' by lia.
    assert (j = 1 ∨ j = 2 ∨ j = 3 ∨ j = 4 ∨ j = 5 ∨ j = 6 ∨ j = 7 ∨ j = 8) as Hj' by lia.
    clear Hi Hj. repeat destruct Hi' as [->|Hi']; [..|subst i]; repeat destruct Hj' as [->|Hj'];
      try subst j; vm_compute; (discriminate || reflexivity).
  - reflexivity.
Defined.
