(* ===== verification/Experiments.v ===== *)
(** Experiment jobs (src/agentguard-testbed/src/aegisledger/experiment_store.py, the
    experiment part of api.py's [ServiceContainer], and [create_experiment_spec] of
    evaluation.py): the memory store, queueing under a quota, single-claim execution and
    recovery at startup.

    [ExperimentRunner.run], which simulates attacks and writes files, is a parameter: what
    it returns or raises for a specification and an output directory.  Jobs of a store are
    a map; [pending] gives them in an unspecified order (the tasks it starts run
    concurrently). *)
From Stdlib Require Import ZArith Lia Ascii String.
From stdpp Require Import base gmap sets list strings pretty.
From S2P Require Import Prelude Bytes Canonical Contracts.

Open Scope Z_scope.

(** * Requests and specifications *)

Inductive ExperimentScenario :=
  | I_composed_injection
  | II_tool_poisoning
  | III_inbound_asset_permission
  | IV_mev_extraction.

#[export] Instance ExperimentScenario_eq_dec : EqDecision ExperimentScenario.
Proof. solve_decision. Defined.

Definition scenario_value (s : ExperimentScenario) : string :=
  match s with
  | I_composed_injection => "I-composed-injection"
  | II_tool_poisoning => "II-tool-poisoning"
  | III_inbound_asset_permission => "III-inbound-asset-permission"
  | IV_mev_extraction => "IV-mev-extraction"
  end.

Definition all_scenarios : list ExperimentScenario :=
  [I_composed_injection; II_tool_poisoning; III_inbound_asset_permission; IV_mev_extraction].

Record ExperimentRequest := {
  er_seed : string;
  er_scenarios : list ExperimentScenario;
  er_runs_per_scenario : Z;
}.

Definition bad_request : exn := ValidationError "ExperimentRequest".

Definition read_scenario (v : pyval) : result ExperimentScenario :=
  match v with
  | PStr s => or_raise (find (λ c, bool_decide (scenario_value c = s)) all_scenarios) bad_request
  | _ => Err bad_request
  end.

Fixpoint read_scenarios (l : list pyval) : result (list ExperimentScenario) :=
  match l with
  | [] => Ok []
  | v :: l => s ← read_scenario v; r ← read_scenarios l; Ok (s :: r)
  end.

(** [ExperimentRequest.model_validate]: strict types, no further keys.  A [scenarios] value
    that is no array raises the [TypeError] of the validator that runs before the others'
    results are collected. *)
Definition ExperimentRequest_validate (d : list (pykey * pyval)) : result ExperimentRequest :=
  items ← match dict_get "scenarios" d with
    | None => Ok []
    | Some (PList l) => Ok l
    | Some _ => Err (TypeError "scenarios must be an array")
    end;
  scenarios ← read_scenarios items;
  seed ← match dict_get "seed" d with Some (PStr s) => Ok s | _ => Err bad_request end;
  runs ← match dict_get "runs_per_scenario" d with
    | None => Ok 12
    | Some (PInt n) => Ok n
    | Some _ => Err bad_request
    end;
  raise_if (negb (length_between 1 128 seed) || negb ((0 <? runs) && (runs <=? 1000))) bad_request;;
  raise_if (negb (forallb (λ e, match e.1 with
      | KStr k => is_in k ["seed"; "scenarios"; "runs_per_scenario"]
      | KOther _ => false
      end) d)) bad_request;;
  Ok {| er_seed := seed; er_scenarios := scenarios; er_runs_per_scenario := runs |}.

(** [model_dump(mode="json")] *)
Definition ExperimentRequest_dump (r : ExperimentRequest) : list (pykey * pyval) :=
  [(KStr "seed", PStr (er_seed r));
   (KStr "scenarios", PList (map (λ s, PStr (scenario_value s)) (er_scenarios r)));
   (KStr "runs_per_scenario", PInt (er_runs_per_scenario r))].

Record ModelMetadataV1 := {
  mm_provider : string;
  mm_model : string;
  mm_version : string;
  mm_parameters_hash : string;
}.

Definition ModelMetadataV1_validate (m : ModelMetadataV1) : result ModelMetadataV1 :=
  raise_if (negb (length_between 1 128 (mm_provider m) && length_between 1 128 (mm_model m)
                  && length_between 1 128 (mm_version m) && Hex32 (mm_parameters_hash m)))
    (ValidationError "ModelMetadataV1");;
  Ok m.

(** [model_metadata.model_dump(mode="json") if model_metadata is not None else None] *)
Definition metadata_dump (metadata : option ModelMetadataV1) : pyval :=
  match metadata with
  | Some m => PDict [(KStr "provider", PStr (mm_provider m)); (KStr "model", PStr (mm_model m));
                     (KStr "version", PStr (mm_version m));
                     (KStr "parameters_hash", PStr (mm_parameters_hash m))]
  | None => PNone
  end.

Record ExperimentSpecV1 := {
  es_experiment_id : Z;
  es_created_at : Z;
  es_commit_sha : string;
  es_configuration_hash : string;
  es_seed : string;
  es_scenarios : list ExperimentScenario;
  es_runs_per_scenario : Z;
  es_model_metadata : option ModelMetadataV1;
}.

Definition ExperimentSpecV1_validate (s : ExperimentSpecV1) : result ExperimentSpecV1 :=
  raise_if (negb (Nat.eqb (String.length (es_commit_sha s)) 40
                  && str_forallb hex_lower_char (es_commit_sha s)
                  && Hex32 (es_configuration_hash s) && length_between 1 128 (es_seed s)
                  && (0 <? es_runs_per_scenario s) && (es_runs_per_scenario s <=? 10000)))
    (ValidationError "ExperimentSpecV1");;
  Ok s.

(** * Jobs and their store *)

Inductive ExperimentStatus := X_QUEUED | X_RUNNING | X_COMPLETED | X_FAILED.

#[export] Instance ExperimentStatus_eq_dec : EqDecision ExperimentStatus.
Proof. solve_decision. Defined.

Record ExperimentResponseV1 := {
  xp_experiment_id : Z;
  xp_status : ExperimentStatus;
  xp_seed : string;
  xp_configuration_hash : string;
  xp_result_uri : option string;
  xp_summary : option (list (pykey * pyval));
  xp_error : option string;
}.

Record ExperimentJob := {
  job_response : ExperimentResponseV1;
  job_request : list (pykey * pyval);
  job_principal_id : string;
}.

Record MemoryExperimentStore := { _jobs : gmap Z ExperimentJob }.

Definition experiments_init : MemoryExperimentStore := {| _jobs := ∅ |}.

(** [response.model_copy(update={...})] *)
Definition with_result (st : ExperimentStatus) (uri : option string)
    (summary : option (list (pykey * pyval))) (error : option string) (r : ExperimentResponseV1)
    : ExperimentResponseV1 :=
  {| xp_experiment_id := xp_experiment_id r; xp_status := st; xp_seed := xp_seed r;
     xp_configuration_hash := xp_configuration_hash r; xp_result_uri := uri;
     xp_summary := summary; xp_error := error |}.
Definition with_job_status (st : ExperimentStatus) (j : ExperimentJob) : ExperimentJob :=
  let r := job_response j in
  {| job_response := with_result st (xp_result_uri r) (xp_summary r) (xp_error r) r;
     job_request := job_request j; job_principal_id := job_principal_id j |}.

Definition job_status (j : ExperimentJob) : ExperimentStatus := xp_status (job_response j).
Definition job_active (j : ExperimentJob) : bool := is_in (job_status j) [X_QUEUED; X_RUNNING].

Definition put_job (id : Z) (j : ExperimentJob) : M MemoryExperimentStore unit :=
  update (λ s, {| _jobs := <[id := j]> (_jobs s) |}).

Definition experiment_create (j : ExperimentJob) : M MemoryExperimentStore ExperimentJob :=
  s ← self;
  lift (raise_if (bool_decide (is_Some (_jobs s !! xp_experiment_id (job_response j))))
    (ValueError "experiment already exists"));;
  put_job (xp_experiment_id (job_response j)) j;;
  mret j.

Definition experiment_get (id : Z) : M MemoryExperimentStore (option ExperimentJob) :=
  read (λ s, _jobs s !! id).

Definition experiment_claim (id : Z) : M MemoryExperimentStore (option ExperimentJob) :=
  s ← self;
  match _jobs s !! id with
  | None => mret None
  | Some job =>
      if bool_decide (job_status job ≠ X_QUEUED) then mret None
      else
        let claimed := with_job_status X_RUNNING job in
        put_job id claimed;;
        mret (Some claimed)
  end.

Definition experiment_finish (r : ExperimentResponseV1) : M MemoryExperimentStore ExperimentJob :=
  lift (raise_if (negb (is_in (xp_status r) [X_COMPLETED; X_FAILED]))
    (ValueError "finished experiment must be terminal"));;
  s ← self;
  job ← lift (or_raise (_jobs s !! xp_experiment_id r) (KeyError (uuid_str (xp_experiment_id r))));
  let finished := {| job_response := r; job_request := job_request job;
                     job_principal_id := job_principal_id job |} in
  put_job (xp_experiment_id r) finished;;
  mret finished.

Definition experiment_pending : M MemoryExperimentStore (list ExperimentJob) :=
  read (λ s, filter (λ j, job_active j = true) (map_to_list (_jobs s)).*2).

Definition requeue_running : M MemoryExperimentStore Z :=
  s ← self;
  let count := count_values (λ j, bool_decide (job_status j = X_RUNNING)) (_jobs s) in
  update (λ s, {| _jobs := (λ j, if bool_decide (job_status j = X_RUNNING)
                                  then with_job_status X_QUEUED j else j) <$> _jobs s |});;
  mret count.

(** The start of [lifespan]: requeue what was running, and start a task on every job that
    is pending. *)
Definition startup : M MemoryExperimentStore (list Z) :=
  requeue_running;;
  jobs ← experiment_pending;
  mret (map (λ j, xp_experiment_id (job_response j)) jobs).

Definition active_count (principal_id : string) (s : MemoryExperimentStore) : Z :=
  count_values (λ j, bool_decide (job_principal_id j = principal_id) && job_active j) (_jobs s).

(** * The service's experiment operations *)

(** [str(path / name)] of a normalized path. *)
Definition path_join (path name : string) : string :=
  if bool_decide (path = "."%string) then name
  else if bool_decide (path = "/"%string) then path +:+ name
  else path +:+ "/" +:+ name.

(** The settings and the runner: the summary it returns for a run, or what it raises. *)
Record ExperimentConfig := {
  xc_max_active_per_principal : Z;
  xc_commit_sha : string;
  xc_output_root : string;
  xc_runner : ExperimentSpecV1 → string → result (list (pykey * pyval));
}.

Section experiments.
Context `{!Externals}.

Definition configuration_of (seed : string) (runs : Z) (selected : list ExperimentScenario)
    (metadata : option ModelMetadataV1) : pyval :=
  PDict
    [(KStr "schema_version", PStr "aegisledger.experiment_configuration.v1");
     (KStr "seed", PStr seed);
     (KStr "runs_per_scenario", PInt runs);
     (KStr "scenarios", PList (map (λ s, PStr (scenario_value s)) selected));
     (KStr "model_metadata", metadata_dump metadata)].

(** [create_experiment_spec], with the identifier and the time its defaults draw. *)
Definition create_experiment_spec (new_id now : Z) (seed : string) (runs : Z)
    (scenarios : list ExperimentScenario) (commit_sha : string) (metadata : option ModelMetadataV1)
    : result ExperimentSpecV1 :=
  let selected := match scenarios with [] => all_scenarios | _ => scenarios end in
  b ← canonical_json (configuration_of seed runs selected metadata);
  ExperimentSpecV1_validate
    {| es_experiment_id := new_id; es_created_at := now; es_commit_sha := commit_sha;
       es_configuration_hash := "0x" +:+ hex (sha256 b); es_seed := seed; es_scenarios := selected;
       es_runs_per_scenario := runs; es_model_metadata := metadata |}.

(** [spec.model_copy(update={"experiment_id": ...})] *)
Definition with_experiment_id (id : Z) (s : ExperimentSpecV1) : ExperimentSpecV1 :=
  {| es_experiment_id := id; es_created_at := es_created_at s; es_commit_sha := es_commit_sha s;
     es_configuration_hash := es_configuration_hash s; es_seed := es_seed s;
     es_scenarios := es_scenarios s; es_runs_per_scenario := es_runs_per_scenario s;
     es_model_metadata := es_model_metadata s |}.

Definition queue_experiment (cfg : ExperimentConfig) (new_id now : Z) (request : ExperimentRequest)
    (actor : string) : M MemoryExperimentStore ExperimentResponseV1 :=
  active ← read (active_count actor);
  lift (raise_if (xc_max_active_per_principal cfg <=? active)
    (ValueError "principal has reached the active experiment quota"));;
  spec ← lift (create_experiment_spec new_id now (er_seed request) (er_runs_per_scenario request)
                 (er_scenarios request) (xc_commit_sha cfg) None);
  let response := {| xp_experiment_id := es_experiment_id spec; xp_status := X_QUEUED;
    xp_seed := es_seed spec; xp_configuration_hash := es_configuration_hash spec;
    xp_result_uri := None; xp_summary := None; xp_error := None |} in
  job ← experiment_create {| job_response := response; job_request := ExperimentRequest_dump request;
                             job_principal_id := actor |};
  mret (job_response job).

(** The body of the [try] of [run_experiment]: the output directory and the summary. *)
Definition experiment_body (cfg : ExperimentConfig) (new_id now id : Z)
    (request : list (pykey * pyval)) : result (string * list (pykey * pyval)) :=
  request ← ExperimentRequest_validate request;
  spec ← create_experiment_spec new_id now (er_seed request) (er_runs_per_scenario request)
           (er_scenarios request) (xc_commit_sha cfg) None;
  let output := path_join (xc_output_root cfg) (uuid_str id) in
  summary ← xc_runner cfg (with_experiment_id id spec) output;
  Ok (output, summary).

(** What [run_experiment] makes of a claimed job, between its claim and its finish. *)
Definition experiment_outcome (cfg : ExperimentConfig) (new_id now id : Z) (job : ExperimentJob)
    : ExperimentResponseV1 :=
  let queued := job_response job in
  match experiment_body cfg new_id now id (job_request job) with
  | Ok (output, summary) =>
      with_result X_COMPLETED (Some (path_join output "summary.json")) (Some summary)
        (xp_error queued) queued
  | Err e =>
      with_result X_FAILED (xp_result_uri queued) (xp_summary queued) (Some (exn_class e)) queued
  end.

Definition run_experiment (cfg : ExperimentConfig) (new_id now id : Z)
    : M MemoryExperimentStore unit :=
  claimed ← experiment_claim id;
  match claimed with
  | None => mret tt
  | Some job => experiment_finish (experiment_outcome cfg new_id now id job);; mret tt
  end.
End experiments.
