(* ===== verification/ExperimentsFacts.v ===== *)
(** What the experiment queue guarantees: a quota per principal, one worker per running
    experiment, results that are the runner's for exactly the queued configuration, and
    terminal jobs that never change. *)
From Stdlib Require Import ZArith Lia Ascii String.
From Stdlib Require Strings.Byte.
From stdpp Require Import base gmap sets list strings pretty.
From S2P Require Import Prelude Bytes Canonical CanonicalFacts Contracts Experiments.

Open Scope Z_scope.

(** * Requests survive their round trip through the store *)

Definition request_ok (r : ExperimentRequest) : Prop :=
  length_between 1 128 (er_seed r) = true ∧ 0 < er_runs_per_scenario r ≤ 1000.

Lemma request_validate_ok d r : ExperimentRequest_validate d = Ok r → request_ok r.
Proof.
  unfold ExperimentRequest_validate. intros H. ok_inv H. ok_invs. unfold request_ok. cbn.
  prop_of_bool. tauto.
Qed.

Lemma read_scenarios_dump l :
  read_scenarios (map (λ s, PStr (scenario_value s)) l) = Ok l.
Proof.
  induction l as [|s l IH]; [done|]. cbn [map read_scenarios].
  assert (read_scenario (PStr (scenario_value s)) = Ok s) as -> by (by destruct s).
  cbn [mbind result_bind]. by rewrite IH.
Qed.

Lemma request_dump_validate r :
  request_ok r → ExperimentRequest_validate (ExperimentRequest_dump r) = Ok r.
Proof.
  destruct r as [seed l runs]. intros [Hs Hr]. cbn [er_seed er_runs_per_scenario] in *.
  unfold ExperimentRequest_validate, ExperimentRequest_dump. cbn [er_seed er_scenarios er_runs_per_scenario].
  set (items := map _ l). pose proof (read_scenarios_dump l : read_scenarios items = Ok l) as Hl.
  clearbody items. cbn -[length_between read_scenarios Z.leb Z.ltb]. eval_tests.
  cbn -[length_between read_scenarios Z.leb Z.ltb]. rewrite Hl.
  cbn -[length_between Z.leb Z.ltb]. rewrite Hs.
  by rewrite (proj2 (Z.ltb_lt 0 _)), (proj2 (Z.leb_le _ 1000)) by lia.
Qed.

Section queue.
Context `{!Externals} (cfg : ExperimentConfig).

(** The hash of the configuration a request asks for. *)
Definition requested_hash (r : ExperimentRequest) : result string :=
  (λ b, "0x" +:+ hex (sha256 b)) <$>
    canonical_json (configuration_of (er_seed r) (er_runs_per_scenario r)
      match er_scenarios r with [] => all_scenarios | _ => er_scenarios r end None).

Lemma create_spec_Ok new_id now r sha spec :
  create_experiment_spec new_id now (er_seed r) (er_runs_per_scenario r) (er_scenarios r) sha None = Ok spec →
  es_experiment_id spec = new_id ∧ es_seed spec = er_seed r ∧ es_commit_sha spec = sha ∧
  es_runs_per_scenario spec = er_runs_per_scenario r ∧
  requested_hash r = Ok (es_configuration_hash spec).
Proof.
  unfold create_experiment_spec, requested_hash, ExperimentSpecV1_validate. cbv zeta.
  intros (b & Hb & Hs)%bind_Ok. apply bind_Ok in Hs as (? & _ & [= <-]). rewrite Hb. by cbn.
Qed.

(** * Jobs *)

(** The runner returned [summary] for a specification with this job's configuration. *)
Definition ran (j : ExperimentJob) (output : string) (summary : list (pykey * pyval)) : Prop :=
  ∃ spec, xc_runner cfg spec output = Ok summary ∧
    es_experiment_id spec = xp_experiment_id (job_response j) ∧
    es_configuration_hash spec = xp_configuration_hash (job_response j) ∧
    es_seed spec = xp_seed (job_response j) ∧ es_commit_sha spec = xc_commit_sha cfg.

Definition job_result (j : ExperimentJob) : Prop :=
  let r := job_response j in
  match xp_status r with
  | X_QUEUED | X_RUNNING => xp_result_uri r = None ∧ xp_summary r = None ∧ xp_error r = None
  | X_COMPLETED => xp_error r = None ∧ ∃ output summary, ran j output summary ∧
      xp_summary r = Some summary ∧ xp_result_uri r = Some (path_join output "summary.json")
  | X_FAILED => xp_result_uri r = None ∧ xp_summary r = None ∧ is_Some (xp_error r)
  end.

(** A stored job belongs to a valid request and its response to that request. *)
Record job_ok (id : Z) (j : ExperimentJob) : Prop := {
  jo_id : xp_experiment_id (job_response j) = id;
  jo_request : ∃ r, request_ok r ∧ job_request j = ExperimentRequest_dump r ∧
    xp_seed (job_response j) = er_seed r ∧
    requested_hash r = Ok (xp_configuration_hash (job_response j));
  jo_result : job_result j;
}.

Lemma claimed_ok id j : job_ok id j → job_status j = X_QUEUED → job_ok id (with_job_status X_RUNNING j).
Proof.
  intros [Hid Hr Hres] Hst. constructor; [done|done|]. unfold job_result, job_status in *. cbn.
  by rewrite Hst in Hres.
Qed.

Lemma requeued_ok id j : job_ok id j → job_status j = X_RUNNING → job_ok id (with_job_status X_QUEUED j).
Proof.
  intros [Hid Hr Hres] Hst. constructor; [done|done|]. unfold job_result, job_status in *. cbn.
  by rewrite Hst in Hres.
Qed.

(** What a worker makes of its job. *)
Definition finished (new_id now id : Z) (j : ExperimentJob) : ExperimentJob :=
  {| job_response := experiment_outcome cfg new_id now id j; job_request := job_request j;
     job_principal_id := job_principal_id j |}.

Lemma outcome_terminal new_id now id j :
  xp_status (experiment_outcome cfg new_id now id j) ∈ [X_COMPLETED; X_FAILED].
Proof.
  unfold experiment_outcome. destruct (experiment_body _ _ _ _ _) as [[]|]; cbn; set_solver.
Qed.

Lemma outcome_id new_id now id j :
  xp_experiment_id (experiment_outcome cfg new_id now id j) = xp_experiment_id (job_response j).
Proof. unfold experiment_outcome. by destruct (experiment_body _ _ _ _ _) as [[]|]. Qed.

Lemma finished_ok new_id now id j :
  job_ok id j → job_status j = X_RUNNING → job_ok id (finished new_id now id j).
Proof.
  intros [Hid (r & Hr & Hreq & Hseed & Hhash) Hres] Hst.
  unfold job_result, job_status in *. rewrite Hst in Hres. destruct Hres as (Hu & Hsum & Herr).
  constructor; cbn; [by rewrite outcome_id| |].
  - exists r. unfold experiment_outcome. by destruct (experiment_body _ _ _ _ _) as [[]|].
  - unfold job_result, finished, experiment_outcome. cbn.
    destruct (experiment_body _ _ _ _ _) as [[output summary]|e] eqn:Hb; cbn; [|by eauto].
    split; [done|]. exists output, summary. split_and!; try done.
    unfold experiment_body in Hb. rewrite Hreq, request_dump_validate in Hb by done.
    apply bind_Ok in Hb as (r' & [= <-] & Hb). apply bind_Ok in Hb as (spec & Hspec & Hb).
    apply bind_Ok in Hb as (s' & Hrun & [= <- <-]).
    apply create_spec_Ok in Hspec as (_ & Hs & Hsha & _ & Hh). exists (with_experiment_id id spec).
    cbn. split_and!; [done|done| |congruence|done]. congruence.
Qed.

(** * Interleaved workers

    Requests queue jobs; each worker claims a job, runs it and finishes it, with other
    workers and requests in between; a restart drops the workers and requeues what they
    were running. *)
Record xsys := { xs_store : MemoryExperimentStore; xs_workers : list (Z * ExperimentJob) }.

Definition xstart : xsys := {| xs_store := experiments_init; xs_workers := [] |}.

Inductive xstep (x : xsys) : xsys → Prop :=
  | x_queue d request new_id now actor :
      ExperimentRequest_validate d = Ok request →
      xstep x {| xs_store := fst (queue_experiment cfg new_id now request actor (xs_store x));
                 xs_workers := xs_workers x |}
  | x_claim id s r :
      experiment_claim id (xs_store x) = (s, Ok r) →
      xstep x {| xs_store := s;
                 xs_workers := match r with Some j => (id, j) :: xs_workers x | None => xs_workers x end |}
  | x_finish before id j after new_id now :
      xs_workers x = before ++ (id, j) :: after →
      xstep x {| xs_store := fst (experiment_finish (experiment_outcome cfg new_id now id j) (xs_store x));
                 xs_workers := before ++ after |}
  | x_restart :
      xstep x {| xs_store := fst (requeue_running (xs_store x)); xs_workers := [] |}.

Inductive xreach : xsys → Prop :=
  | xr_start : xreach xstart
  | xr_step x y : xreach x → xstep x y → xreach y.

(** Running an experiment to its end is a claim and, if it claimed the job, a finish. *)
Lemma run_experiment_steps x new_id now id :
  ∃ y z, xstep x y ∧ (z = y ∨ xstep y z) ∧ xs_workers z = xs_workers x ∧
    xs_store z = fst (run_experiment cfg new_id now id (xs_store x)).
Proof.
  unfold run_experiment, mbind, M_bind.
  destruct (experiment_claim id (xs_store x)) as [s [[j|]|e]] eqn:Hc.
  - eexists _, _. split; [exact (x_claim x id s (Some j) Hc)|].
    split; [right; exact (x_finish {| xs_store := s; xs_workers := (id, j) :: xs_workers x |}
      [] id j (xs_workers x) new_id now eq_refl)|]. split; [done|]. cbn [xs_store].
    by destruct (experiment_finish _ s) as [s' [k|e]].
  - eexists _, _. split; [exact (x_claim x id s None Hc)|]. split; [by left|]. done.
  - exfalso. revert Hc. unfold experiment_claim, mbind, M_bind, self. cbv beta iota.
    destruct (_jobs _ !! id); [case_bool_decide|]; done.
Qed.

(** ** The effect of each operation on the jobs *)

Lemma claim_effect id s s' r :
  experiment_claim id s = (s', Ok r) →
  match r with
  | None => s' = s
  | Some j' => ∃ j, _jobs s !! id = Some j ∧ job_status j = X_QUEUED ∧
      j' = with_job_status X_RUNNING j ∧ _jobs s' = <[id := j']> (_jobs s)
  end.
Proof.
  unfold experiment_claim, mbind, M_bind, self, put_job, update, mret, M_ret. cbv beta iota.
  destruct (_jobs s !! id) as [j|] eqn:Hj; [|by intros [= <- <-]].
  case_bool_decide as Hq; intros [= <- <-]; [done|]. cbn. exists j. split_and!; try done.
Qed.

Lemma finish_effect r s j :
  xp_status r ∈ [X_COMPLETED; X_FAILED] → _jobs s !! xp_experiment_id r = Some j →
  _jobs (fst (experiment_finish r s))
  = <[xp_experiment_id r := {| job_response := r; job_request := job_request j;
                               job_principal_id := job_principal_id j |}]> (_jobs s).
Proof.
  intros Hst Hj. unfold experiment_finish, mbind, M_bind, self, lift, put_job, update.
  apply is_in_true in Hst as ->. cbn. by rewrite Hj.
Qed.

Lemma queue_effect d request new_id now actor s :
  ExperimentRequest_validate d = Ok request →
  fst (queue_experiment cfg new_id now request actor s) = s ∨
  ∃ j, _jobs s !! new_id = None ∧ job_ok new_id j ∧ job_status j = X_QUEUED ∧
    job_principal_id j = actor ∧ active_count actor s < xc_max_active_per_principal cfg ∧
    _jobs (fst (queue_experiment cfg new_id now request actor s)) = <[new_id := j]> (_jobs s).
Proof.
  intros Hv%request_validate_ok. unfold queue_experiment, mbind, M_bind, read, lift. cbv beta iota.
  destruct (xc_max_active_per_principal cfg <=? active_count actor s) eqn:Hq; cbn [raise_if]; [by left|].
  destruct (create_experiment_spec _ _ _ _ _ _ _) as [spec|e] eqn:Hs; [|by left].
  apply create_spec_Ok in Hs as (Hid & Hseed & _ & _ & Hh).
  unfold experiment_create, mbind, M_bind, self, lift, put_job, update. cbn. rewrite Hid.
  case_bool_decide as Hn; cbn; [by left|]. right. eexists. split_and!; [by apply eq_None_not_Some| | | |by apply Z.leb_gt|reflexivity]; try done.
  constructor; [done| |done]. cbn. exists request. by rewrite Hseed.
Qed.

(** ** Counting active jobs *)

Lemma active_insert p s s' id j :
  _jobs s !! id = None → _jobs s' = <[id := j]> (_jobs s) →
  active_count p s'
  = (if bool_decide (job_principal_id j = p) && job_active j then 1 else 0) + active_count p s.
Proof. intros Hn Hj. unfold active_count, count_values. rewrite Hj, sum_values_insert by done. done. Qed.

Lemma active_update p s s' id j j' :
  _jobs s !! id = Some j → _jobs s' = <[id := j']> (_jobs s) →
  job_principal_id j' = job_principal_id j → (job_active j' = true → job_active j = true) →
  active_count p s' ≤ active_count p s.
Proof.
  intros Hl Hj Hp Ha. unfold active_count, count_values. rewrite Hj, (sum_values_update _ _ _ _ j) by done.
  unfold term. rewrite Hp. destruct (bool_decide _), (job_active j'), (job_active j); cbn; try lia.
Qed.

Lemma requeue_jobs s id :
  _jobs (fst (requeue_running s)) !! id
  = (λ j, if bool_decide (job_status j = X_RUNNING) then with_job_status X_QUEUED j else j)
      <$> _jobs s !! id.
Proof. by rewrite <- lookup_fmap. Qed.

Lemma sum_values_fmap {V} (p q : V → bool) (f : V → V) (m : gmap Z V) :
  (∀ v, p (f v) = q v) → sum_values p (λ _, 1) (f <$> m) = sum_values q (λ _, 1) m.
Proof.
  intros Hpq. induction m as [|k v m Hk IH] using map_ind; [by rewrite fmap_empty|].
  rewrite fmap_insert, !sum_values_insert, IH by (rewrite ?lookup_fmap, ?Hk; done).
  unfold term. by rewrite Hpq.
Qed.

Lemma active_requeue p s : active_count p (fst (requeue_running s)) = active_count p s.
Proof.
  unfold active_count, count_values. apply sum_values_fmap. intros j.
  destruct (bool_decide_reflect (job_status j = X_RUNNING)) as [Hr|]; [|done].
  unfold job_active. by rewrite Hr.
Qed.

(** ** The invariant *)

Record xinv (x : xsys) : Prop := {
  xi_quota : ∀ p, active_count p (xs_store x) ≤ Z.max 0 (xc_max_active_per_principal cfg);
  xi_jobs : ∀ id j, _jobs (xs_store x) !! id = Some j → job_ok id j;
  xi_once : NoDup (xs_workers x).*1;
  xi_held : ∀ id j, (id, j) ∈ xs_workers x → _jobs (xs_store x) !! id = Some j ∧ job_status j = X_RUNNING;
  xi_running : ∀ id j, _jobs (xs_store x) !! id = Some j → job_status j = X_RUNNING →
    id ∈ (xs_workers x).*1;
}.

Lemma xstart_inv : xinv xstart.
Proof.
  constructor; cbn; [|set_solver|constructor|set_solver|set_solver].
  intros p. unfold active_count, count_values, experiments_init. cbn. rewrite sum_values_empty. lia.
Qed.

Lemma queue_inv x d request new_id now actor :
  ExperimentRequest_validate d = Ok request → xinv x →
  xinv {| xs_store := fst (queue_experiment cfg new_id now request actor (xs_store x));
          xs_workers := xs_workers x |}.
Proof.
  intros Hv Hx. destruct (queue_effect d request new_id now actor (xs_store x) Hv)
    as [->|(j & Hn & Hok & Hst & Hp & Hq & Hj)]; [by destruct x|].
  destruct Hx as [Hquota Hjobs Honce Hheld Hrun]. constructor; cbn; [| |done| |].
  - intros p. rewrite (active_insert p _ _ _ _ Hn Hj). specialize (Hquota p).
    destruct (bool_decide_reflect (job_principal_id j = p)) as [Heq|]; cbn; [|lia].
    assert (active_count p (xs_store x) < xc_max_active_per_principal cfg) by (by rewrite <- Heq, Hp).
    destruct (job_active j); lia.
  - intros id j'. rewrite Hj, lookup_insert_Some. intros [[<- <-]|[_ ?]]; auto.
  - intros id j' Hin. destruct (Hheld _ _ Hin) as [Hl ?]. rewrite Hj, lookup_insert_ne; [done|congruence].
  - intros id j'. rewrite Hj, lookup_insert_Some. intros [[<- <-]|[_ ?]]; [congruence|eauto].
Qed.

Lemma claim_inv x id s r :
  experiment_claim id (xs_store x) = (s, Ok r) → xinv x →
  xinv {| xs_store := s;
          xs_workers := match r with Some j => (id, j) :: xs_workers x | None => xs_workers x end |}.
Proof.
  intros Hc%claim_effect Hx. destruct r as [j'|]; [|subst; by destruct x].
  destruct Hc as (j & Hl & Hst & -> & Hj). pose proof Hx as [Hquota Hjobs Honce Hheld Hrun].
  assert (id ∉ (xs_workers x).*1) as Hnew.
  { intros ([i j'] & -> & Hin)%list_elem_of_fmap. destruct (Hheld _ _ Hin) as [Hl' Hr].
    cbn in Hl. congruence. }
  constructor; cbn.
  - intros p. etransitivity; [eapply active_update; [exact Hl|exact Hj|done|]|done].
    intros _. unfold job_active. by rewrite Hst.
  - intros i k. rewrite Hj, lookup_insert_Some. intros [[<- <-]|[_ ?]]; [|auto].
    apply claimed_ok; auto.
  - by constructor.
  - intros i k [[= -> ->]|Hin]%elem_of_cons; [by rewrite Hj, lookup_insert_eq|].
    rewrite Hj, lookup_insert_ne; [by apply Hheld|]. intros <-. destruct Hnew.
    by apply list_elem_of_fmap_2 with (f := fst) in Hin.
  - intros i k. rewrite Hj, lookup_insert_Some, elem_of_cons. intros [[<- <-]|[_ ?]]; eauto.
Qed.

Lemma finish_inv x before id j after new_id now :
  xs_workers x = before ++ (id, j) :: after → xinv x →
  xinv {| xs_store := fst (experiment_finish (experiment_outcome cfg new_id now id j) (xs_store x));
          xs_workers := before ++ after |}.
Proof.
  intros Hw [Hquota Hjobs Honce Hheld Hrun]. rewrite Hw in *.
  destruct (Hheld id j) as [Hl Hst]; [set_solver|]. pose proof (Hjobs _ _ Hl) as Hok.
  pose proof (finish_effect (experiment_outcome cfg new_id now id j) (xs_store x) j
    (outcome_terminal _ _ _ _)) as Hj.
  rewrite outcome_id, (jo_id _ _ Hok) in Hj. specialize (Hj Hl).
  fold (finished new_id now id j) in Hj.
  rewrite fmap_app, fmap_cons in Honce. apply NoDup_app in Honce as (Hn1 & Hd & Hn2).
  apply NoDup_cons in Hn2 as [Hna Hn2]. constructor; cbn.
  - intros p. etransitivity; [eapply active_update; [exact Hl|exact Hj|done|]|done].
    intros _. unfold job_active. by rewrite Hst.
  - intros i k. rewrite Hj, lookup_insert_Some. intros [[<- <-]|[_ ?]]; [|auto]. by apply finished_ok.
  - rewrite fmap_app. apply NoDup_app. set_solver.
  - intros i k Hin. destruct (Hheld i k) as [Hl' ?]; [set_solver|].
    rewrite Hj, lookup_insert_ne; [done|]. intros <-.
    apply (list_elem_of_fmap_2 fst) in Hin. rewrite fmap_app in Hin. set_solver.
  - intros i k. rewrite Hj, lookup_insert_Some. intros [[<- <-]|[Hne Hk]] Hr.
    + pose proof (outcome_terminal new_id now id j) as Ht. unfold job_status in Hr. cbn in Hr.
      rewrite Hr in Ht. set_solver.
    + specialize (Hrun _ _ Hk Hr). rewrite fmap_app in *. set_solver.
Qed.

Lemma restart_inv x :
  xinv x → xinv {| xs_store := fst (requeue_running (xs_store x)); xs_workers := [] |}.
Proof.
  intros [Hquota Hjobs Honce Hheld Hrun]. constructor; cbn [xs_store xs_workers];
    [| |constructor|set_solver|].
  - intros p. by rewrite active_requeue.
  - intros id j. rewrite requeue_jobs. intros (k & Hk & ->)%fmap_Some.
    case_bool_decide; [apply requeued_ok|]; auto.
  - intros id j. rewrite requeue_jobs. intros (k & Hk & ->)%fmap_Some.
    case_bool_decide; [done|]. done.
Qed.

Lemma xstep_inv x y : xinv x → xstep x y → xinv y.
Proof. intros Hx []; eauto using queue_inv, claim_inv, finish_inv, restart_inv. Qed.

Lemma xreach_inv x : xreach x → xinv x.
Proof. induction 1; eauto using xstart_inv, xstep_inv. Qed.

(** A terminal job stays as it is. *)
Lemma xstep_terminal x y id j :
  xinv x → xstep x y → _jobs (xs_store x) !! id = Some j → job_active j = false →
  _jobs (xs_store y) !! id = Some j.
Proof.
  intros Hx [d request new_id now actor Hv|i s r Hc|before i k after new_id now Hw|] Hl Ha;
    cbn [xs_store].
  - destruct (queue_effect d request new_id now actor (xs_store x) Hv)
      as [->|(j' & Hn & _ & _ & _ & _ & ->)]; [done|]. rewrite lookup_insert_ne; [done|congruence].
  - apply claim_effect in Hc. destruct r as [j'|]; [|by subst].
    destruct Hc as (k & Hk & Hst & -> & ->). rewrite lookup_insert_ne; [done|]. intros ->.
    assert (k = j) as -> by congruence. unfold job_active in Ha. by rewrite Hst in Ha.
  - destruct (xi_held _ Hx i k) as [Hk Hst]; [rewrite Hw; set_solver|].
    pose proof (jo_id _ _ (xi_jobs _ Hx _ _ Hk)) as Hid.
    rewrite (finish_effect _ _ k (outcome_terminal _ _ _ _)) by (by rewrite outcome_id, Hid).
    rewrite outcome_id, Hid, lookup_insert_ne; [done|]. intros ->.
    assert (k = j) as -> by congruence. unfold job_active in Ha. by rewrite Hst in Ha.
  - rewrite requeue_jobs, Hl. cbn. case_bool_decide as Hr; [|done].
    unfold job_active in Ha. by rewrite Hr in Ha.
Qed.

(** C40: The experiment queue.  Whatever requests, workers and restarts interleave: no
    principal has more active experiments than the quota allows; an experiment is running
    exactly while one worker, and only one, holds it; every stored job belongs to a valid
    request and carries the seed and configuration hash of that request; a completed one
    has the summary the runner returned for a specification with that identifier, seed,
    configuration hash and commit, and a failed one has an error and no result; and once an
    experiment has ended, no step changes it. *)
Theorem experiments_run_once x y :
  xreach x → xstep x y →
  (∀ p, active_count p (xs_store x) ≤ Z.max 0 (xc_max_active_per_principal cfg)) ∧
  NoDup (xs_workers x).*1 ∧
  (∀ id j, _jobs (xs_store x) !! id = Some j →
    job_ok id j ∧
    (job_status j = X_RUNNING ↔ (id, j) ∈ xs_workers x) ∧
    (job_status j = X_COMPLETED ∨ job_status j = X_FAILED → _jobs (xs_store y) !! id = Some j)).
Proof.
  intros Hx%xreach_inv Hstep. split_and!; [apply Hx..|]. intros id j Hj. split_and!.
  - by apply Hx.
  - split; [|intros Hin; by destruct (xi_held _ Hx _ _ Hin)]. intros Hr.
    apply (xi_running _ Hx _ _ Hj), list_elem_of_fmap in Hr as ([i k] & -> & Hin).
    destruct (xi_held _ Hx _ _ Hin) as [Hk _]. cbn in *. congruence.
  - intros Ht. eapply xstep_terminal; try done. unfold job_active. by destruct Ht as [-> | ->].
Qed.
End queue.

(** A runner that reports the number of scenarios, and a run of one experiment while a
    second one waits. *)
Definition demo_config : ExperimentConfig :=
  {| xc_max_active_per_principal := 2; xc_commit_sha := hex (replicate 20 Byte.xab);
     xc_output_root := "artifacts/experiments";
     xc_runner := λ spec _, Ok [(KStr "scenarios", PInt (Z.of_nat (length (es_scenarios spec))))] |}.
Definition demo_request : ExperimentRequest :=
  {| er_seed := "s1"; er_scenarios := [II_tool_poisoning]; er_runs_per_scenario := 3 |}.

Definition demo_store (id : Z) (s : MemoryExperimentStore) : MemoryExperimentStore :=
  fst (@queue_experiment sized_externals demo_config id 100 demo_request "alice" s).
Definition demo_queued : MemoryExperimentStore := demo_store 2 (demo_store 1 experiments_init).
Definition demo_claimed : ExperimentJob :=
  match snd (experiment_claim 1 demo_queued) with
  | Ok (Some j) => j
  | _ => {| job_response := {| xp_experiment_id := 0; xp_status := X_FAILED; xp_seed := "";
              xp_configuration_hash := ""; xp_result_uri := None; xp_summary := None;
              xp_error := None |}; job_request := []; job_principal_id := "" |}
  end.
Definition demo_running : xsys :=
  {| xs_store := fst (experiment_claim 1 demo_queued); xs_workers := [(1, demo_claimed)] |}.
Definition demo_done : xsys :=
  {| xs_store := fst (experiment_finish
       (@experiment_outcome sized_externals demo_config 7 200 1 demo_claimed) (xs_store demo_running));
     xs_workers := [] |}.

Lemma demo_queue_step id st :
  @xstep sized_externals demo_config {| xs_store := st; xs_workers := [] |}
    {| xs_store := demo_store id st; xs_workers := [] |}.
Proof.
  exact (@x_queue sized_externals demo_config {| xs_store := st; xs_workers := [] |}
    (ExperimentRequest_dump demo_request) demo_request id 100 "alice" ltac:(vm_compute; reflexivity)).
Qed.

Lemma demo_reach : @xreach sized_externals demo_config demo_running.
Proof.
  refine (xr_step _ {| xs_store := demo_queued; xs_workers := [] |} _ _ _).
  - refine (xr_step _ {| xs_store := demo_store 1 experiments_init; xs_workers := [] |} _ _ _).
    + refine (xr_step _ xstart _ (xr_start _) _). apply demo_queue_step.
    + apply demo_queue_step.
  - refine (x_claim _ {| xs_store := demo_queued; xs_workers := [] |} 1 (xs_store demo_running)
      (Some demo_claimed) _).
    vm_compute. reflexivity.
Qed.

(** The running experiment is held by its worker, and finishing it is a step. *)
Lemma experiments_run_once_witness :
  active_count "alice" (xs_store demo_running) ≤ 2 ∧
  (∃ j, _jobs (xs_store demo_running) !! 1 = Some j ∧ (1, j) ∈ xs_workers demo_running) ∧
  (∃ j, _jobs (xs_store demo_done) !! 1 = Some j ∧ job_status j = X_COMPLETED).
Proof.
  destruct (@experiments_run_once sized_externals demo_config demo_running demo_done)
    as (Hq & _ & Hjobs).
  - exact demo_reach.
  - apply (x_finish _ demo_running [] 1 demo_claimed [] 7 200). reflexivity.
  - split; [exact (Hq "alice"%string)|]. split.
    + exists demo_claimed. assert (_jobs (xs_store demo_running) !! 1 = Some demo_claimed) as Hl
        by (vm_compute; reflexivity).
      split; [exact Hl|]. apply (Hjobs _ _ Hl). vm_compute. reflexivity.
    + eexists. split; vm_compute; reflexivity.
Defined.
