(* ===== verification/ExperimentsLive.v ===== *)
(** Every experiment ends: the tasks that requests and startups create run out, and when
    they have, no job is queued or running. *)
From Stdlib Require Import ZArith Lia Ascii String.
From stdpp Require Import base gmap sets list strings pretty.
From S2P Require Import Prelude Bytes Canonical CanonicalFacts Contracts Experiments ExperimentsFacts.

Open Scope Z_scope.

Section live.
Context `{!Externals} (cfg : ExperimentConfig).

(** The store, the tasks that have not claimed their job yet, and the workers that have. *)
Record tasks := {
  tk_store : MemoryExperimentStore;
  tk_ready : list Z;
  tk_workers : list (Z * ExperimentJob);
}.

Definition tasks_start : tasks := {| tk_store := experiments_init; tk_ready := []; tk_workers := [] |}.

(** A task claims its job, or ends there when it cannot; a worker finishes. *)
Inductive task_step (t : tasks) : tasks → Prop :=
  | task_claim before id after s r :
      tk_ready t = before ++ id :: after → experiment_claim id (tk_store t) = (s, Ok r) →
      task_step t {| tk_store := s; tk_ready := before ++ after;
        tk_workers := match r with Some j => (id, j) :: tk_workers t | None => tk_workers t end |}
  | task_finish before id j after new_id now :
      tk_workers t = before ++ (id, j) :: after →
      task_step t {|
        tk_store := fst (experiment_finish (experiment_outcome cfg new_id now id j) (tk_store t));
        tk_ready := tk_ready t; tk_workers := before ++ after |}.

(** What happens besides: a request queues a job and adds its task; a restart drops the
    tasks and starts those of [startup]. *)
Inductive event (t : tasks) : tasks → Prop :=
  | ev_task u : task_step t u → event t u
  | ev_request d request new_id now actor s r :
      ExperimentRequest_validate d = Ok request →
      queue_experiment cfg new_id now request actor (tk_store t) = (s, r) →
      event t {| tk_store := s;
        tk_ready := match r with Ok x => xp_experiment_id x :: tk_ready t | Err _ => tk_ready t end;
        tk_workers := tk_workers t |}
  | ev_restart s ids :
      startup (tk_store t) = (s, Ok ids) →
      event t {| tk_store := s; tk_ready := ids; tk_workers := [] |}.

Inductive task_reach : tasks → Prop :=
  | reach_start : task_reach tasks_start
  | reach_event t u : task_reach t → event t u → task_reach u.

(** [n] steps of the tasks. *)
Inductive task_run : nat → tasks → tasks → Prop :=
  | run_none t : task_run 0 t t
  | run_more n t u v : task_step t u → task_run n u v → task_run (S n) t v.

(** ** Tasks are the workers of the queue *)

Definition as_xsys (t : tasks) : xsys := {| xs_store := tk_store t; xs_workers := tk_workers t |}.

Lemma startup_spec s s' ids :
  startup s = (s', Ok ids) →
  s' = fst (requeue_running s) ∧
  ids = map (λ j, xp_experiment_id (job_response j)) (filter (λ j, job_active j = true) (map_to_list (_jobs s')).*2).
Proof.
  unfold startup, mbind, M_bind. destruct (requeue_running s) as [s1 [n|e]] eqn:Hr; [|done].
  unfold experiment_pending, read, mret, M_ret. by intros [= <- <-].
Qed.

Lemma event_xstep t u : event t u → xstep cfg (as_xsys t) (as_xsys u).
Proof.
  intros [v [before id after s r Hr Hc|before id j after new_id now Hw]|d request new_id now actor s r Hd Hq
    |s ids Hs]; unfold as_xsys; cbn.
  - by apply (x_claim cfg {| xs_store := tk_store t; xs_workers := tk_workers t |}).
  - by apply (x_finish cfg {| xs_store := tk_store t; xs_workers := tk_workers t |}).
  - pose proof (x_queue cfg {| xs_store := tk_store t; xs_workers := tk_workers t |} d request new_id now actor
      Hd) as Hx. cbn in Hx. by rewrite Hq in Hx.
  - apply startup_spec in Hs as [-> _].
    exact (x_restart cfg {| xs_store := tk_store t; xs_workers := tk_workers t |}).
Qed.

Lemma task_reach_inv t : task_reach t → xinv cfg (as_xsys t).
Proof.
  induction 1 as [|t u _ IH He]; [apply xstart_inv|]. by eapply xstep_inv, event_xstep.
Qed.

(** ** Every queued job has its task *)

Definition covered (t : tasks) : Prop :=
  ∀ id j, _jobs (tk_store t) !! id = Some j → job_status j = X_QUEUED → id ∈ tk_ready t.

Lemma claim_none id s s' j :
  experiment_claim id s = (s', Ok None) → _jobs s !! id = Some j → job_status j ≠ X_QUEUED.
Proof.
  unfold experiment_claim, mbind, M_bind, self, put_job, update. cbv beta iota. intros Hc Hj. rewrite Hj in Hc.
  by case_bool_decide.
Qed.

(** A request adds no job without its task. *)
Lemma queue_ready new_id now request actor s s' r id j :
  queue_experiment cfg new_id now request actor s = (s', r) → _jobs s' !! id = Some j →
  _jobs s !! id = Some j ∨ ∃ x, r = Ok x ∧ xp_experiment_id x = id.
Proof.
  unfold queue_experiment, mbind, M_bind, read, lift. cbv beta iota.
  destruct (xc_max_active_per_principal cfg <=? active_count actor s); cbn [raise_if];
    [intros [= <- <-]; auto|].
  destruct (create_experiment_spec _ _ _ _ _ _ _) as [spec|e]; [|intros [= <- <-]; auto].
  unfold experiment_create, mbind, M_bind, self, lift, put_job, update. cbn.
  case_bool_decide as Hn; cbn; intros [= <- <-]; [auto|]. cbn. rewrite lookup_insert_Some.
  intros [[<- <-]|[_ ?]]; [right; by eexists|by left].
Qed.

Lemma covered_claim t before i after s r :
  covered t → tk_ready t = before ++ i :: after → experiment_claim i (tk_store t) = (s, Ok r) →
  ∀ id j, _jobs s !! id = Some j → job_status j = X_QUEUED → id ∈ before ++ after.
Proof.
  intros Hcov Hr Hc id j Hj Hst. pose proof (claim_effect _ _ _ _ Hc) as He.
  assert (id ≠ i ∧ _jobs (tk_store t) !! id = Some j) as [Hne Hj'].
  { destruct r as [j'|].
    - destruct He as (k & Hk & Hks & -> & Hs). rewrite Hs in Hj.
      apply lookup_insert_Some in Hj as [[<- <-]|[? ?]]; done.
    - subst s. split; [|done]. intros ->. by apply (claim_none _ _ _ _ Hc Hj). }
  specialize (Hcov _ _ Hj' Hst). rewrite Hr in Hcov. set_solver.
Qed.

Lemma covered_finish t before i k after new_id now :
  xinv cfg (as_xsys t) → covered t → tk_workers t = before ++ (i, k) :: after →
  ∀ id j, _jobs (fst (experiment_finish (experiment_outcome cfg new_id now i k) (tk_store t))) !! id = Some j →
    job_status j = X_QUEUED → id ∈ tk_ready t.
Proof.
  intros Hx Hcov Hw id j Hj Hst. destruct (xi_held _ _ Hx i k) as [Hk _]; [cbn; rewrite Hw; set_solver|].
  cbn in Hk. pose proof (jo_id _ _ _ (xi_jobs _ _ Hx _ _ Hk)) as Hid.
  rewrite (finish_effect _ _ k (outcome_terminal _ _ _ _ _)) in Hj by (by rewrite outcome_id, Hid).
  apply lookup_insert_Some in Hj as [[_ <-]|[_ Hj]]; [|by eapply Hcov].
  pose proof (outcome_terminal cfg new_id now i k) as Ht. unfold job_status in Hst. cbn in Hst.
  rewrite Hst in Ht. set_solver.
Qed.

Lemma covered_startup t s ids :
  xinv cfg (as_xsys t) → startup (tk_store t) = (s, Ok ids) →
  ∀ id j, _jobs s !! id = Some j → job_status j = X_QUEUED → id ∈ ids.
Proof.
  intros Hx [-> ->]%startup_spec id j Hj Hst.
  pose proof (jo_id _ _ _ (xi_jobs _ _ (restart_inv _ _ Hx) id j Hj)) as Hid. apply list_elem_of_fmap.
  exists j. split; [done|]. apply list_elem_of_filter. split; [unfold job_active; by rewrite Hst|].
  apply list_elem_of_fmap. exists (id, j). split; [done|]. by apply elem_of_map_to_list.
Qed.

Lemma event_covered t u : xinv cfg (as_xsys t) → covered t → event t u → covered u.
Proof.
  intros Hx Hcov [v [before i after s r Hr Hc|before i k after new_id now Hw]
    |d request new_id now actor s r Hd Hq|s ids Hs] id j; cbn [tk_store tk_ready].
  - by eapply covered_claim.
  - by eapply covered_finish.
  - intros Hj Hst. destruct (queue_ready _ _ _ _ _ _ _ _ _ Hq Hj) as [Hj'|(x & -> & <-)]; [|by left].
    destruct r; [right|]; by eapply Hcov.
  - by eapply covered_startup.
Qed.

Lemma task_reach_covered t : task_reach t → covered t.
Proof.
  induction 1 as [|t u Ht IH He]; [by intros id j|]. by eapply event_covered; [apply task_reach_inv| |].
Qed.

Lemma task_run_reach n t u : task_reach t → task_run n t u → task_reach u.
Proof. intros Ht Hr. induction Hr as [|n t u v Hs _ IH]; [done|]. apply IH. econstructor; [done|by constructor]. Qed.

(** ** Tasks run out *)

Definition work (t : tasks) : nat := 2 * length (tk_ready t) + length (tk_workers t).

Lemma task_step_work t u : task_step t u → (work u < work t)%nat.
Proof.
  intros [before id after s r Hr _|before id j after new_id now Hw]; unfold work; cbn [tk_ready tk_workers].
  - rewrite Hr, !length_app. destruct r; cbn; lia.
  - rewrite Hw, !length_app. cbn. lia.
Qed.

Lemma task_run_work n t u : task_run n t u → (n + work u ≤ work t)%nat.
Proof. induction 1 as [|n t u v Hs _ IH]; [lia|]. apply task_step_work in Hs. lia. Qed.

(** While tasks remain, one can move. *)
Lemma task_progress t : (0 < work t)%nat → ∃ u, task_step t u.
Proof.
  intros Hw. destruct (tk_ready t) as [|id ready] eqn:Hr.
  - destruct (tk_workers t) as [|[id j] workers] eqn:Hk; [unfold work in Hw; rewrite Hr, Hk in Hw; cbn in Hw; lia|].
    eexists. by apply (task_finish t [] id j workers 0 0).
  - destruct (experiment_claim id (tk_store t)) as [s r] eqn:Hc.
    assert (∃ o, r = Ok o) as [o ->].
    { revert Hc. unfold experiment_claim, mbind, M_bind, self. cbv beta iota.
      destruct (_jobs _ !! id); [case_bool_decide|]; intros [= _ <-]; eauto. }
    eexists. by apply (task_claim t [] id ready s o).
Qed.

(** With no task left, no job is active. *)
Lemma no_work_done t id j :
  task_reach t → work t = 0%nat → _jobs (tk_store t) !! id = Some j → job_active j = false.
Proof.
  intros Ht Hw Hj. unfold work in Hw. assert (tk_ready t = [] ∧ tk_workers t = []) as [Hr Hk].
  { destruct (tk_ready t), (tk_workers t); cbn in Hw; (done || lia). }
  apply not_true_is_false. unfold job_active. rewrite is_in_true. intros Hin.
  assert (job_status j = X_QUEUED ∨ job_status j = X_RUNNING) as [Hst|Hst] by set_solver.
  - pose proof (task_reach_covered t Ht id j Hj Hst) as Hc. rewrite Hr in Hc. by apply elem_of_nil in Hc.
  - pose proof (xi_running _ _ (task_reach_inv t Ht) id j Hj Hst) as Hc. cbn in Hc. rewrite Hk in Hc.
    by apply elem_of_nil in Hc.
Qed.

Lemma task_run_exists t : ∃ n u, task_run n t u ∧ work u = 0%nat.
Proof.
  remember (work t) as w eqn:Hw. revert t Hw. induction w as [w IH] using lt_wf_ind. intros t ->.
  destruct (decide (work t = 0%nat)) as [Hz|Hz]; [by exists 0%nat, t; split; [constructor|]|].
  destruct (task_progress t) as [u Hu]; [lia|].
  destruct (IH (work u) (task_step_work _ _ Hu) u eq_refl) as (n & v & Hr & Hv).
  exists (S n), v. split; [by econstructor|done].
Qed.

(** Jobs are kept. *)
Lemma task_step_keeps t u id :
  xinv cfg (as_xsys t) → task_step t u → is_Some (_jobs (tk_store t) !! id) → is_Some (_jobs (tk_store u) !! id).
Proof.
  intros Hx [before i after s r Hr Hc|before i k after new_id now Hw] Hs; cbn [tk_store].
  - apply claim_effect in Hc. destruct r as [j|]; [|by subst]. destruct Hc as (k & _ & _ & _ & ->).
    apply lookup_insert_is_Some'. by right.
  - destruct (xi_held _ _ Hx i k) as [Hk _]; [cbn; rewrite Hw; set_solver|].
    cbn in Hk. pose proof (jo_id _ _ _ (xi_jobs _ _ Hx _ _ Hk)) as Hid.
    rewrite (finish_effect _ _ k (outcome_terminal _ _ _ _ _)) by (by rewrite outcome_id, Hid).
    apply lookup_insert_is_Some'. by right.
Qed.

Lemma task_run_keeps n t u id :
  task_reach t → task_run n t u → is_Some (_jobs (tk_store t) !! id) → is_Some (_jobs (tk_store u) !! id).
Proof.
  intros Ht Hr. induction Hr as [|n t u v Hs _ IH]; [done|]. intros Hid. apply IH.
  - econstructor; [done|by constructor].
  - eapply task_step_keeps; [by apply task_reach_inv|done..].
Qed.

(** C24: every experiment ends.  Whatever requests, task steps and restarts came before: the
    tasks that are left can always move until none is left, and they take at most two steps
    each, in whatever order they are scheduled; when none can move, every experiment in the
    store is COMPLETED or FAILED, those a restart found half-way included, so an experiment
    that was accepted is neither lost nor left waiting. *)
Theorem experiments_all_end t :
  task_reach t →
  (∀ n u, task_run n t u → (n ≤ 2 * length (tk_ready t) + length (tk_workers t))%nat)
  ∧ (∀ n u, task_run n t u → ~ (∃ v, task_step u v) →
       ∀ id j, _jobs (tk_store t) !! id = Some j →
         ∃ j', _jobs (tk_store u) !! id = Some j' ∧ job_active j' = false)
  ∧ ∃ n u, task_run n t u ∧ ~ (∃ v, task_step u v).
Proof.
  intros Ht. split_and!.
  - intros n u Hr%task_run_work. unfold work in Hr. lia.
  - intros n u Hr Hstuck id j Hj. destruct (task_run_keeps n t u id Ht Hr) as [j' Hj']; [by eexists|].
    exists j'. split; [done|]. apply (no_work_done u id); [by eapply task_run_reach| |done].
    destruct (work u) eqn:Hw; [done|]. destruct Hstuck. apply task_progress. lia.
  - destruct (task_run_exists t) as (n & u & Hr & Hw). exists n, u. split; [done|].
    intros [v Hv%task_step_work]. lia.
Qed.
End live.

(** * Witness *)

(** Two experiments queued, the first one claimed, then a restart. *)
Definition demo_tasks : tasks :=
  {| tk_store := fst (startup (xs_store demo_running));
     tk_ready := match snd (startup (xs_store demo_running)) with Ok ids => ids | Err _ => [] end;
     tk_workers := [] |}.

Lemma demo_request_event id st ready rest :
  match snd (@queue_experiment sized_externals demo_config id 100 demo_request "alice" st) with
  | Ok x => xp_experiment_id x :: ready
  | Err _ => ready
  end = rest →
  @event sized_externals demo_config {| tk_store := st; tk_ready := ready; tk_workers := [] |}
    {| tk_store := demo_store id st; tk_ready := rest; tk_workers := [] |}.
Proof.
  intros <-. exact (@ev_request sized_externals demo_config
    {| tk_store := st; tk_ready := ready; tk_workers := [] |} (ExperimentRequest_dump demo_request) demo_request
    id 100 "alice" _ _ ltac:(vm_compute; reflexivity) (surjective_pairing _)).
Qed.

Lemma demo_tasks_reach : @task_reach sized_externals demo_config demo_tasks.
Proof.
  apply (reach_event _ {| tk_store := xs_store demo_running; tk_ready := [2]; tk_workers := [(1, demo_claimed)] |}).
  - apply (reach_event _ {| tk_store := demo_queued; tk_ready := [2; 1]; tk_workers := [] |}).
    + apply (reach_event _ {| tk_store := demo_store 1 experiments_init; tk_ready := [1]; tk_workers := [] |}).
      * apply (reach_event _ tasks_start); [constructor|]. apply demo_request_event. vm_compute. reflexivity.
      * apply demo_request_event. vm_compute. reflexivity.
    + constructor. apply (task_claim _ {| tk_store := demo_queued; tk_ready := [2; 1]; tk_workers := [] |}
        [2] 1 [] (xs_store demo_running) (Some demo_claimed)); vm_compute; reflexivity.
  - apply (ev_restart _ {| tk_store := xs_store demo_running; tk_ready := [2];
                           tk_workers := [(1, demo_claimed)] |}). vm_compute. reflexivity.
Qed.

Lemma experiments_all_end_witness :
  length (tk_ready demo_tasks) = 2%nat
  ∧ ∃ n u, @task_run sized_externals demo_config n demo_tasks u
      ∧ ∃ j, _jobs (tk_store u) !! 1 = Some j ∧ job_active j = false.
Proof.
  split; [vm_compute; reflexivity|].
  destruct (@experiments_all_end sized_externals demo_config demo_tasks demo_tasks_reach)
    as (_ & Hend & n & u & Hr & Hs).
  exists n, u. split; [exact Hr|]. destruct (_jobs (tk_store demo_tasks) !! 1) as [j|] eqn:Hj.
  - exact (Hend n u Hr Hs 1 j Hj).
  - exfalso. vm_compute in Hj. discriminate Hj.
Defined.
