(* ===== verification/Access.v ===== *)
(** Principals and service credentials (src/agentguard-testbed/src/aegisledger/auth.py and
    service_accounts.py): roles and permissions, the memory credential store, issuing,
    authenticating and revoking bearer tokens, and the routing of tokens between service
    accounts and OIDC.

    Validating a JWT against the issuer's keys (PyJWT) is a parameter: the claims of a
    token, or what the library raises.  The random key and secret of a token and the clock
    are arguments. *)
From Stdlib Require Import ZArith Lia Ascii String.
From stdpp Require Import base gmap sets list strings pretty.
From S2P Require Import Prelude Bytes Canonical Contracts Artifacts Attestations.

Open Scope Z_scope.

(** * Principals (auth.py) *)

Inductive Role := VIEWER | RESEARCHER | POLICY_ADMIN | AUDITOR.
Inductive Permission := PROPOSALS_READ | PROPOSALS_WRITE | POLICIES_SIMULATE | ATTESTATIONS_VERIFY.
Inductive PrincipalKind := HUMAN | SERVICE.

#[export] Instance Role_eq_dec : EqDecision Role.
Proof. solve_decision. Defined.
#[export] Instance Permission_eq_dec : EqDecision Permission.
Proof. solve_decision. Defined.
#[export] Instance PrincipalKind_eq_dec : EqDecision PrincipalKind.
Proof. solve_decision. Defined.

(** Sets of roles and permissions are lists; only membership matters. *)
Record Principal := {
  pn_subject : string;
  pn_roles : list Role;
  pn_permissions : list Permission;
  pn_kind : PrincipalKind;
  pn_organization_id : string;
  pn_environment_id : string;
}.

(** [text.partition(sep)] for a one-character separator. *)
Fixpoint partition (sep : ascii) (text : string) : string * bool * string :=
  match text with
  | EmptyString => (EmptyString, false, EmptyString)
  | String c text =>
      if bool_decide (c = sep) then (EmptyString, true, text)
      else let '(head, found, rest) := partition sep text in (String c head, found, rest)
  end.

Definition role_value (r : Role) : string :=
  match r with
  | VIEWER => "viewer"
  | RESEARCHER => "researcher"
  | POLICY_ADMIN => "policy_admin"
  | AUDITOR => "auditor"
  end.
Definition all_roles : list Role := [VIEWER; RESEARCHER; POLICY_ADMIN; AUDITOR].

(** ** [OIDCAuthenticator] *)

Record OIDCAuthenticator := {
  oidc_issuer : string;
  oidc_organization_id : string;
  oidc_environment_id : string;
}.

(** [issuer.rstrip("/")] *)
Fixpoint rstrip_slash (s : string) : string :=
  match s with
  | EmptyString => EmptyString
  | String c s =>
      match rstrip_slash s with
      | EmptyString => if bool_decide (c = "/"%char) then EmptyString else String c EmptyString
      | r => String c r
      end
  end.

Definition OIDCAuthenticator_init (issuer organization_id environment_id : string)
    : result OIDCAuthenticator :=
  raise_if (negb (startswith "https://" issuer) && negb (startswith "http://localhost" issuer))
    (RuntimeError "OIDC issuer must use HTTPS outside localhost");;
  Ok {| oidc_issuer := rstrip_slash issuer; oidc_organization_id := organization_id;
        oidc_environment_id := environment_id |}.

(** Hashable values: what a set may hold. *)
Definition hashable (v : pyval) : bool :=
  match v with PList _ | PDict _ => false | _ => true end.

(** [set(value)], as the strings it holds: the elements of a list, the characters of a
    string, the keys of a dict. *)
Definition set_of (value : pyval) : result (list string) :=
  match value with
  | PList l =>
      raise_if (negb (forallb hashable l)) (TypeError "unhashable type");;
      Ok (omap (λ v, match v with PStr s => Some s | _ => None end) l)
  | PStr s => Ok (map (λ c, String c EmptyString) (list_ascii_of_string s))
  | PDict d => Ok (omap (λ e, match e.1 with KStr s => Some s | KOther _ => None end) d)
  | _ => Err (TypeError "object is not iterable")
  end.

(** [OIDCAuthenticator.__call__] on the authorization header; [decode] is the JWT library:
    the claims of a token it accepts for this issuer and audience. *)
Definition oidc_call (self : OIDCAuthenticator) (decode : string → result (list (pykey * pyval)))
    (authorization : string) : result Principal :=
  let '(scheme, _, token) := partition " " authorization in
  raise_if (bool_decide (str_lower scheme ≠ "bearer") || bool_decide (token = ""%string))
    (AuthenticationError "bearer token required");;
  claims ← try_except (λ _, true) (decode token)
    (λ _, Err (AuthenticationError "invalid bearer token"));
  raw_roles ← set_of (default (PList []) (dict_get "roles" claims));
  realm ← match dict_get "realm_access" claims with
    | None => Ok []
    | Some (PDict d) => Ok d
    | Some _ => Err (AttributeError "object has no attribute 'get'")
    end;
  realm_roles ← set_of (default (PList []) (dict_get "roles" realm));
  let roles := filter (λ r, is_in (role_value r) (raw_roles ++ realm_roles) = true) all_roles in
  subject ← match dict_get "sub" claims with
    | None => Err (KeyError "sub")
    | Some (PStr s) => Ok s
    | Some _ => Err (ValidationError "Principal")
    end;
  raise_if (negb (length_between 1 256 subject)
            || negb (length_between 1 128 (oidc_organization_id self))
            || negb (length_between 1 128 (oidc_environment_id self)))
    (ValidationError "Principal");;
  Ok {| pn_subject := subject; pn_roles := roles; pn_permissions := []; pn_kind := HUMAN;
        pn_organization_id := oidc_organization_id self;
        pn_environment_id := oidc_environment_id self |}.

(** * Service accounts (service_accounts.py) *)

Definition _TOKEN_PREFIX : string := "agsa".

Record ServiceAccountRecord := {
  sa_credential_id : Z;
  sa_key_id : Z;
  sa_name : string;
  sa_subject : string;
  sa_organization_id : string;
  sa_environment_id : string;
  sa_permissions : list Permission;
  sa_token_digest : string;
  sa_created_at : Z;
  sa_expires_at : option Z;
  sa_revoked_at : option Z;
  sa_last_used_at : option Z;
}.

Record IssuedServiceAccount := {
  is_credential_id : Z;
  is_key_id : Z;
  is_name : string;
  is_subject : string;
  is_organization_id : string;
  is_environment_id : string;
  is_permissions : list Permission;
  is_token : string;
  is_expires_at : option Z;
}.

(** [replace(record, revoked_at=..., last_used_at=...)] *)
Definition set_usage (revoked_at last_used_at : option Z) (r : ServiceAccountRecord)
    : ServiceAccountRecord :=
  {| sa_credential_id := sa_credential_id r; sa_key_id := sa_key_id r; sa_name := sa_name r;
     sa_subject := sa_subject r; sa_organization_id := sa_organization_id r;
     sa_environment_id := sa_environment_id r; sa_permissions := sa_permissions r;
     sa_token_digest := sa_token_digest r; sa_created_at := sa_created_at r;
     sa_expires_at := sa_expires_at r; sa_revoked_at := revoked_at;
     sa_last_used_at := last_used_at |}.

(** [MemoryServiceAccountStore]: its dict by key identifier, in insertion order. *)
Record MemoryServiceAccountStore := { ms_records : list (Z * ServiceAccountRecord) }.

Definition accounts_init : MemoryServiceAccountStore := {| ms_records := [] |}.

Definition find_key (key_id : Z) (l : list (Z * ServiceAccountRecord))
    : option ServiceAccountRecord :=
  snd <$> find (λ e, bool_decide (e.1 = key_id)) l.

Definition account_create (r : ServiceAccountRecord) : M MemoryServiceAccountStore unit :=
  s ← self;
  lift (raise_if (bool_decide (is_Some (find_key (sa_key_id r) (ms_records s))))
    (ValueError "service credential key already exists"));;
  update (λ s, {| ms_records := ms_records s ++ [(sa_key_id r, r)] |}).

Definition get_by_key_id (key_id : Z) : M MemoryServiceAccountStore (option ServiceAccountRecord) :=
  read (λ s, find_key key_id (ms_records s)).

Definition _find_credential (credential_id : Z) (l : list (Z * ServiceAccountRecord))
    : result (Z * ServiceAccountRecord) :=
  or_raise (find (λ e, bool_decide (sa_credential_id e.2 = credential_id)) l)
    (KeyError ("unknown service credential " +:+ uuid_str credential_id)).

(** [self._records[key_id] = record] for a key that is present. *)
Definition put_key (key_id : Z) (r : ServiceAccountRecord) (l : list (Z * ServiceAccountRecord))
    : list (Z * ServiceAccountRecord) :=
  map (λ e, if bool_decide (e.1 = key_id) then (key_id, r) else e) l.

Definition account_revoke (credential_id revoked_at : Z) : M MemoryServiceAccountStore unit :=
  s ← self;
  e ← lift (_find_credential credential_id (ms_records s));
  update (λ s, {| ms_records :=
    put_key e.1 (set_usage (Some revoked_at) (sa_last_used_at e.2) e.2) (ms_records s) |}).

Definition account_mark_used (credential_id used_at : Z) : M MemoryServiceAccountStore unit :=
  s ← self;
  e ← lift (_find_credential credential_id (ms_records s));
  update (λ s, {| ms_records :=
    put_key e.1 (set_usage (sa_revoked_at e.2) (Some used_at) e.2) (ms_records s) |}).

(** ** Tokens *)

Definition alnum (c : ascii) : bool :=
  char_between "A" "Z" c || char_between "a" "z" c || char_between "0" "9" c.

(** [_SECRET_PATTERN.fullmatch] *)
Definition secret_pattern (s : string) : bool :=
  Nat.eqb (String.length s) 43
  && str_forallb (λ c, alnum c || bool_decide (c = "_"%char) || bool_decide (c = "-"%char)) s.

(** [_IDENTIFIER_PATTERN.fullmatch] *)
Definition identifier_pattern (s : string) : bool :=
  match s with
  | EmptyString => false
  | String c s =>
      alnum c && str_forallb (λ c, alnum c || is_in c ["."; "_"; ":"; "@"; "/"; "-"]%char) s
  end.

Definition _parse_key_id (token : string) : result Z :=
  let '(prefix, separator, remainder) := partition "_" token in
  let '(key_text, second_separator, secret) := partition "_" remainder in
  raise_if (bool_decide (prefix ≠ _TOKEN_PREFIX) || negb separator || negb second_separator
            || negb (Nat.eqb (String.length key_text) 32) || negb (secret_pattern secret))
    (ValueError "malformed service credential");;
  uuid_parse key_text.

Definition _validated_identifier (value field : string) (maximum : nat) : result string :=
  raise_if (negb (length_between 1 maximum value) || negb (identifier_pattern value))
    (ValueError ("invalid " +:+ field));;
  Ok value.

Definition _as_utc (value : datetime) : result Z :=
  match dt_offset value with
  | None => Err (ValueError "service credential timestamps must include a UTC offset")
  | Some offset => Ok (dt_wall value - offset)
  end.

(** [key_id.hex] *)
Definition uuid_hex (u : Z) : string := hex (to_bytes_be 16 u).

Definition token_of (key_id : Z) (secret : string) : string :=
  _TOKEN_PREFIX +:+ "_" +:+ uuid_hex key_id +:+ "_" +:+ secret.

(** The deployment a manager serves. *)
Record ServiceAccountManager := { sm_organization_id : string; sm_environment_id : string }.

Definition ServiceAccountManager_init (organization_id environment_id : string)
    : result ServiceAccountManager :=
  o ← _validated_identifier organization_id "organization_id" 128;
  e ← _validated_identifier environment_id "environment_id" 128;
  Ok {| sm_organization_id := o; sm_environment_id := e |}.

Section tokens.
Context `{!Externals}.

Definition _token_digest (token : string) : string := hex (sha256 (encode token)).

(** [issue], with the clock, the two identifiers and the secret it draws. *)
Definition account_issue (mgr : ServiceAccountManager) (now credential_id key_id : Z)
    (secret name subject : string) (permissions : list Permission) (expires_at : option datetime)
    : M MemoryServiceAccountStore IssuedServiceAccount :=
  name ← lift (_validated_identifier name "name" 128);
  subject ← lift (_validated_identifier subject "subject" 256);
  lift (raise_if (Nat.eqb (length permissions) 0)
    (ValueError "service credential requires at least one permission"));;
  expires ← lift (match expires_at with
    | None => Ok None
    | Some e =>
        t ← _as_utc e;
        raise_if (t <=? now) (ValueError "service credential expiry must be in the future");;
        Ok (Some t)
    end);
  let token := token_of key_id secret in
  account_create
    {| sa_credential_id := credential_id; sa_key_id := key_id; sa_name := name;
       sa_subject := subject; sa_organization_id := sm_organization_id mgr;
       sa_environment_id := sm_environment_id mgr; sa_permissions := permissions;
       sa_token_digest := _token_digest token; sa_created_at := now; sa_expires_at := expires;
       sa_revoked_at := None; sa_last_used_at := None |};;
  mret {| is_credential_id := credential_id; is_key_id := key_id; is_name := name;
          is_subject := subject; is_organization_id := sm_organization_id mgr;
          is_environment_id := sm_environment_id mgr; is_permissions := permissions;
          is_token := token; is_expires_at := expires |}.

(** The body of the [try] of [authenticate]: the record, if everything matches. *)
Definition account_lookup (mgr : ServiceAccountManager) (now : Z) (token : string)
    (s : MemoryServiceAccountStore) : result ServiceAccountRecord :=
  key_id ← _parse_key_id token;
  record ← or_raise (find_key key_id (ms_records s)) (ValueError "");
  let scope_matches :=
    bool_decide (sa_organization_id record = sm_organization_id mgr)
    && bool_decide (sa_environment_id record = sm_environment_id mgr) in
  let digest_matches := bool_decide (sa_token_digest record = _token_digest token) in
  let active :=
    bool_decide (sa_revoked_at record = None)
    && match sa_expires_at record with None => true | Some e => now <? e end in
  raise_if (negb scope_matches || negb digest_matches || negb active) (ValueError "");;
  Ok record.

Definition account_authenticate (mgr : ServiceAccountManager) (now : Z) (token : string)
    : M MemoryServiceAccountStore Principal :=
  s ← self;
  record ← lift (try_except catches_TypeError_ValueError (account_lookup mgr now token s)
    (λ _, Err (AuthenticationError "invalid service credential")));
  account_mark_used (sa_credential_id record) now;;
  mret {| pn_subject := sa_subject record; pn_roles := []; pn_permissions := sa_permissions record;
          pn_kind := SERVICE; pn_organization_id := sa_organization_id record;
          pn_environment_id := sa_environment_id record |}.

Definition manager_revoke (now credential_id : Z) : M MemoryServiceAccountStore unit :=
  account_revoke credential_id now.

(** [CompositeAuthenticator.__call__] on the authorization header. *)
Definition composite_authenticate (oidc : string → result Principal) (mgr : ServiceAccountManager)
    (now : Z) (authorization : string) : M MemoryServiceAccountStore Principal :=
  let '(scheme, _, token) := partition " " authorization in
  if bool_decide (str_lower scheme = "bearer") && startswith (_TOKEN_PREFIX +:+ "_") token
  then account_authenticate mgr now token
  else lift (oidc authorization).
End tokens.

#[global] Arguments _parse_key_id : simpl never.
#[global] Arguments account_issue : simpl never.
#[global] Arguments account_authenticate : simpl never.
#[global] Arguments token_of : simpl never.
