(* ===== verification/AccessFacts.v ===== *)
(** What service credentials guarantee: the token an account was issued with authenticates
    as exactly that account while it is neither revoked nor expired, and no other token
    does. *)
From Stdlib Require Import ZArith Lia Ascii String.
From stdpp Require Import base gmap sets list strings pretty.
From S2P Require Import Prelude Bytes Canonical CanonicalFacts Contracts ContractsFacts.
From S2P Require Import Artifacts Attestations JournalFacts Access.

Open Scope Z_scope.

(** * Reading a key identifier back *)

Lemma remove_all_hex fuel d p s :
  hex_lower_char d = false → str_forallb hex_lower_char s = true →
  remove_all fuel (String d p) s = s.
Proof.
  intros Hd. revert s. induction fuel as [|fuel IH]; intros s Hs; [done|]. cbn [remove_all].
  destruct s as [|c s]; [done|]. cbn [str_forallb] in Hs. apply andb_true_iff in Hs as [Hc Hs].
  replace (startswith (String d p) (String c s)) with false.
  { cbn [andb]. by rewrite IH. }
  unfold startswith. cbn. destruct (ascii_dec d c) as [->|]; [congruence|done].
Qed.

Lemma string_of_list s : string_of_list_ascii (list_ascii_of_string s) = s.
Proof. apply string_of_list_ascii_of_string. Qed.

Lemma forallb_list p s : str_forallb p s = forallb p (list_ascii_of_string s).
Proof. induction s; cbn; congruence. Qed.

Lemma forallb_rev {A} (p : A → bool) l : forallb p (rev l) = forallb p l.
Proof. induction l; cbn; [done|]. rewrite forallb_app, IHl. cbn. by rewrite andb_true_r, andb_comm. Qed.

(** Hexadecimal digits are none of the characters the readers treat specially. *)
Lemma hex_char_plain c :
  hex_lower_char c = true →
  py_space c = false ∧ c ≠ "-"%char ∧ c ≠ "+"%char ∧ c ≠ "{"%char ∧ c ≠ "}"%char ∧
  c ≠ "x"%char ∧ c ≠ "X"%char ∧ c ≠ "_"%char.
Proof. destruct c as [[] [] [] [] [] [] [] []]; vm_compute; intros; try discriminate; by split_and!. Qed.

Lemma strip_braces_hex l : forallb hex_lower_char l = true → strip_braces l = l.
Proof.
  destruct l as [|c l]; [done|]. cbn. intros [Hc _]%andb_true_iff.
  apply hex_char_plain in Hc as (_ & _ & _ & H1 & H2 & _). rewrite bool_decide_false; [done|]. tauto.
Qed.

Lemma skip_spaces_hex l : forallb hex_lower_char l = true → skip_spaces l = l.
Proof.
  destruct l as [|c l]; [done|]. cbn. intros [Hc _]%andb_true_iff.
  by apply hex_char_plain in Hc as (-> & _).
Qed.

Lemma int16_digits_hex acc b :
  int16_digits acc true (list_ascii_of_string (hex b))
  = Some (acc * 256 ^ Z.of_nat (length b) + from_bytes_be b).
Proof.
  revert acc. induction b as [|x b IH]; intros acc; [cbn; f_equal; lia|].
  cbn [hex list_ascii_of_string int16_digits]. pose proof (bz_range x).
  rewrite !hex_value_digit by (pose proof (Z.mod_pos_bound (bz x) 16);
    pose proof (Z.div_mod (bz x) 16); lia).
  rewrite IH. f_equal. rewrite from_bytes_be_cons. cbn [length].
  rewrite Nat2Z.inj_succ, Z.pow_succ_r by lia. pose proof (Z.div_mod (bz x) 16). nia.
Qed.

Lemma int16_hex b : b ≠ [] → int16 (hex b) = Some (from_bytes_be b).
Proof.
  intros Hb. unfold int16. pose proof (hex_lower_chars b) as Hall. rewrite forallb_list in Hall.
  rewrite (skip_spaces_hex _ Hall), skip_spaces_hex, rev_involutive by (by rewrite forallb_rev).
  destruct b as [|x b]; [done|].
  assert (∀ acc, int16_digits acc false (list_ascii_of_string (hex (x :: b)))
    = int16_digits acc true (list_ascii_of_string (hex (x :: b)))) as Hsep.
  { intros acc. cbn [hex list_ascii_of_string int16_digits].
    destruct (hex_value (hex_digit (bz x / 16))) eqn:Hx; [done|]. pose proof (bz_range x).
    rewrite hex_value_digit in Hx; [done|]. split; [apply Z.div_pos|apply Z.div_lt_upper_bound]; lia. }
  assert (int16_digits 0 false (list_ascii_of_string (hex (x :: b))) = Some (from_bytes_be (x :: b))) as Hd.
  { rewrite Hsep, int16_digits_hex. f_equal. }
  revert Hall Hd. cbn [hex list_ascii_of_string forallb].
  set (c := hex_digit (bz x / 16)). set (d := hex_digit (bz x mod 16)).
  set (l := list_ascii_of_string (hex b)). clearbody c d l. intros Hall Hd.
  rewrite !andb_true_iff in Hall. destruct Hall as (Hc & Hd' & _).
  apply hex_char_plain in Hc as (_ & Hm & Hp & _ & _ & _ & _ & _).
  apply hex_char_plain in Hd' as (_ & _ & _ & _ & _ & Hx & HX & _).
  assert (int16_unsigned (c :: d :: l) = Some (from_bytes_be (x :: b))) as Hu.
  { unfold int16_unsigned. rewrite bool_decide_false by tauto.
    destruct c as [[] [] [] [] [] [] [] []]; exact Hd. }
  destruct c as [[] [] [] [] [] [] [] []]; try exact Hu; congruence.
Qed.

Lemma uuid_parse_hex k : uuid_range k → uuid_parse (uuid_hex k) = Ok k.
Proof.
  intros Hk. unfold uuid_parse, uuid_hex. pose proof (hex_lower_chars (to_bytes_be 16 k)) as Hall.
  unfold str_remove. rewrite !(remove_all_hex _ _ _ (hex _)) by done. cbv zeta.
  pose proof Hall as Hl. rewrite forallb_list in Hl.
  rewrite (strip_braces_hex _ Hl), strip_braces_hex, rev_involutive, string_of_list
    by (by rewrite forallb_rev).
  rewrite remove_all_hex by done. rewrite hex_length, length_to_bytes_be. cbn [Nat.eqb Nat.mul Nat.add negb raise_if].
  rewrite int16_hex.
  - rewrite from_to_bytes_be by exact Hk. cbn. unfold uuid_range in Hk.
    rewrite (proj2 (Z.leb_le 0 k)), (proj2 (Z.ltb_lt k (2 ^ 128))) by lia. done.
  - intros Hnil. pose proof (length_to_bytes_be 16 k) as Hlen. by rewrite Hnil in Hlen.
Qed.

(** * Reading a token *)

Lemma partition_first sep p s t :
  p sep = false → str_forallb p s = true →
  partition sep (s +:+ String sep t) = (s, true, t).
Proof.
  intros Hsep. induction s as [|c s IH]; cbn [partition String.append str_forallb]; intros Hs.
  - unfold String.append. cbn [partition]. by rewrite bool_decide_true.
  - change (String c s +:+ String sep t) with (String c (s +:+ String sep t)). cbn [partition str_forallb] in *.
    apply andb_true_iff in Hs as [Hc Hs]. rewrite bool_decide_false by congruence. by rewrite IH.
Qed.

Lemma parse_key_id_token k secret :
  uuid_range k → secret_pattern secret = true → _parse_key_id (token_of k secret) = Ok k.
Proof.
  intros Hk Hs. unfold _parse_key_id, token_of.
  change (partition "_" (_TOKEN_PREFIX +:+ "_" +:+ uuid_hex k +:+ "_" +:+ secret))
    with (_TOKEN_PREFIX, true, uuid_hex k +:+ String "_" secret). cbv beta iota.
  rewrite (partition_first "_" hex_lower_char) by (done || apply hex_lower_chars). cbv beta iota.
  assert (String.length (uuid_hex k) = 32%nat) as Hl
    by (unfold uuid_hex; by rewrite hex_length, length_to_bytes_be).
  rewrite Hs, Hl. cbn -[uuid_parse]. by apply uuid_parse_hex.
Qed.

(** * Runs of a credential store

    Several managers (deployments) may share one store.  Beside the store, a run keeps the
    accounts it issued, newest last, and the credentials it revoked. *)

Inductive acc_op :=
  | AIssue (mgr : ServiceAccountManager) (now credential_id key_id : Z)
      (secret name subject : string) (permissions : list Permission) (expires : option datetime)
  | AAuthenticate (mgr : ServiceAccountManager) (now : Z) (token : string)
  | ARevoke (now credential_id : Z).

Record acc_run := {
  ar_store : MemoryServiceAccountStore;
  ar_issued : list IssuedServiceAccount;
  ar_revoked : gset Z;
}.

Definition acc_start : acc_run :=
  {| ar_store := accounts_init; ar_issued := []; ar_revoked := ∅ |}.

(** What [uuid7] and [secrets.token_urlsafe(32)] return. *)
Definition drawn (op : acc_op) : bool :=
  match op with
  | AIssue _ _ _ key_id secret _ _ _ _ => bool_decide (uuid_range key_id) && secret_pattern secret
  | _ => true
  end.
Definition drawn_id (op : acc_op) : option Z :=
  match op with AIssue _ _ cid _ _ _ _ _ _ => Some cid | _ => None end.

Section runs.
Context `{!Externals}.

Definition acc_step (st : acc_run) (op : acc_op) : acc_run :=
  match op with
  | AIssue mgr now cid key_id secret name subject permissions expires =>
      let '(s, r) :=
        account_issue mgr now cid key_id secret name subject permissions expires (ar_store st) in
      {| ar_store := s;
         ar_issued := ar_issued st ++ match r with Ok i => [i] | Err _ => [] end;
         ar_revoked := ar_revoked st |}
  | AAuthenticate mgr now token =>
      {| ar_store := (account_authenticate mgr now token (ar_store st)).1;
         ar_issued := ar_issued st; ar_revoked := ar_revoked st |}
  | ARevoke now cid =>
      let '(s, r) := manager_revoke now cid (ar_store st) in
      {| ar_store := s; ar_issued := ar_issued st;
         ar_revoked := if is_ok r then {[cid]} ∪ ar_revoked st else ar_revoked st |}
  end.

(** The principal an account stands for, and whether a deployment accepts it now. *)
Definition principal_of (i : IssuedServiceAccount) : Principal :=
  {| pn_subject := is_subject i; pn_roles := []; pn_permissions := is_permissions i;
     pn_kind := SERVICE; pn_organization_id := is_organization_id i;
     pn_environment_id := is_environment_id i |}.

Definition account_live (mgr : ServiceAccountManager) (now : Z) (revoked : gset Z)
    (i : IssuedServiceAccount) : bool :=
  bool_decide (is_organization_id i = sm_organization_id mgr)
  && bool_decide (is_environment_id i = sm_environment_id mgr)
  && bool_decide (is_credential_id i ∉ revoked)
  && match is_expires_at i with None => true | Some e => now <? e end.

(** A stored record is that of an issued account. *)
Record stored_as (revoked : gset Z) (e : Z * ServiceAccountRecord) (i : IssuedServiceAccount)
    : Prop := {
  st_key : e.1 = is_key_id i;
  st_id : sa_credential_id e.2 = is_credential_id i;
  st_subject : sa_subject e.2 = is_subject i;
  st_org : sa_organization_id e.2 = is_organization_id i;
  st_env : sa_environment_id e.2 = is_environment_id i;
  st_permissions : sa_permissions e.2 = is_permissions i;
  st_digest : sa_token_digest e.2 = _token_digest (is_token i);
  st_expires : sa_expires_at e.2 = is_expires_at i;
  st_revoked : sa_revoked_at e.2 = None ↔ is_credential_id i ∉ revoked;
  st_token : _parse_key_id (is_token i) = Ok (is_key_id i);
}.

Record acc_inv (st : acc_run) : Prop := {
  ai_stored : Forall2 (stored_as (ar_revoked st)) (ms_records (ar_store st)) (ar_issued st);
  ai_keys : NoDup (is_key_id <$> ar_issued st);
  ai_ids : NoDup (is_credential_id <$> ar_issued st);
  ai_revoked : ∀ c, c ∈ ar_revoked st → c ∈ is_credential_id <$> ar_issued st;
}.

(** ** Lookups agree with the issued accounts *)

Lemma NoDup_fmap_same {A B} (f : A → B) l x y :
  NoDup (f <$> l) → x ∈ l → y ∈ l → f x = f y → x = y.
Proof.
  induction l as [|z l IH]; [by rewrite elem_of_nil|].
  rewrite fmap_cons, NoDup_cons, !elem_of_cons. intros [Hz Hl] [->|Hx] [->|Hy] Heq; try done.
  - destruct Hz. rewrite Heq. by apply list_elem_of_fmap_2.
  - destruct Hz. rewrite <- Heq. by apply list_elem_of_fmap_2.
  - by apply IH.
Qed.

Section find.
Context {A B : Type} (R : A → B → Prop) (f : A → Z) (g : B → Z).
Context (Hfg : ∀ a b, R a b → f a = g b).

Lemma Forall2_find_Some l l' k a :
  Forall2 R l l' → find (λ a, bool_decide (f a = k)) l = Some a →
  ∃ b, b ∈ l' ∧ R a b ∧ g b = k.
Proof.
  induction 1 as [|x y l l' Hxy _ IH]; [done|]. cbn [find].
  destruct (bool_decide_reflect (f x = k)) as [Hk|Hk].
  - intros [= <-]. exists y. rewrite <- (Hfg _ _ Hxy). by split; [left|].
  - intros (b & ? & ?)%IH. exists b. by split; [right|].
Qed.

Lemma Forall2_find_elem l l' b :
  NoDup (g <$> l') → Forall2 R l l' → b ∈ l' →
  ∃ a, find (λ a, bool_decide (f a = g b)) l = Some a ∧ R a b.
Proof.
  intros Hnd Hall. induction Hall as [|x y l l' Hxy Hall IH]; [by rewrite elem_of_nil|].
  rewrite fmap_cons, NoDup_cons in Hnd. destruct Hnd as [Hy Hnd]. cbn [find].
  rewrite elem_of_cons, (Hfg _ _ Hxy). intros [->|Hb].
  - rewrite bool_decide_true by done. eauto.
  - rewrite bool_decide_false; [by apply IH|]. intros Heq. destruct Hy. rewrite Heq.
    by apply list_elem_of_fmap_2.
Qed.
End find.

Lemma stored_find_key R l I k r :
  Forall2 (stored_as R) l I → find_key k l = Some r → ∃ i, i ∈ I ∧ stored_as R (k, r) i.
Proof.
  unfold find_key. intros Hall. destruct (find _ l) as [e|] eqn:Hf; [|done]. intros [= <-].
  pose proof (find_some _ _ Hf) as [_ Hk%bool_decide_eq_true].
  destruct (Forall2_find_Some (stored_as R) fst is_key_id (st_key R) _ _ _ _ Hall Hf)
    as (i & Hi & Hs & _).
  exists i. split; [done|]. destruct e; cbn in *; by subst.
Qed.

Lemma stored_find_key_elem st i :
  acc_inv st → i ∈ ar_issued st →
  ∃ r, find_key (is_key_id i) (ms_records (ar_store st)) = Some r ∧
       stored_as (ar_revoked st) (is_key_id i, r) i.
Proof.
  intros [Hall Hk _ _] Hi. unfold find_key.
  destruct (Forall2_find_elem (stored_as (ar_revoked st)) fst is_key_id (st_key _) _ _ _ Hk Hall Hi)
    as ([k r] & Hf & Hs).
  rewrite Hf. exists r. split; [done|]. by rewrite <- (st_key _ _ _ Hs).
Qed.

Lemma stored_find_credential R l I c e :
  Forall2 (stored_as R) l I → _find_credential c l = Ok e →
  ∃ i, i ∈ I ∧ stored_as R e i ∧ is_credential_id i = c.
Proof.
  intros Hall Hf%or_raise_Ok.
  exact (Forall2_find_Some _ _ _ (st_id R) _ _ _ _ Hall Hf).
Qed.

Lemma stored_find_credential_elem st i :
  acc_inv st → i ∈ ar_issued st →
  ∃ e, _find_credential (is_credential_id i) (ms_records (ar_store st)) = Ok e ∧
       stored_as (ar_revoked st) e i.
Proof.
  intros [Hall _ Hc _] Hi. unfold _find_credential.
  destruct (Forall2_find_elem (stored_as (ar_revoked st)) (λ e, sa_credential_id e.2) is_credential_id (st_id _) _ _ _ Hc Hall Hi)
    as (e & Hf & Hs).
  rewrite Hf. by exists e.
Qed.

(** ** Updates keep the correspondence *)

Lemma put_key_stored R R' k r l I :
  Forall2 (stored_as R) l I →
  (∀ e i, i ∈ I → stored_as R e i →
    stored_as R' (if bool_decide (e.1 = k) then (k, r) else e) i) →
  Forall2 (stored_as R') (put_key k r l) I.
Proof.
  intros Hall Hstep. unfold put_key. induction Hall as [|e i l I Hei Hall IH]; cbn [map]; constructor.
  - apply Hstep; [left|done].
  - apply IH. intros e' i' Hi'. apply Hstep. by right.
Qed.

Lemma set_usage_stored R R' e i revoked used :
  stored_as R e i → (revoked = None ↔ is_credential_id i ∉ R') →
  stored_as R' (e.1, set_usage revoked used e.2) i.
Proof. intros [] ?. by constructor. Qed.

Lemma stored_weaken R R' e i :
  stored_as R e i → (is_credential_id i ∈ R' ↔ is_credential_id i ∈ R) → stored_as R' e i.
Proof. intros [] ?. constructor; try done. tauto. Qed.

(** Replacing the record of one account. *)
Lemma put_usage_inv st e i c R' revoked used :
  acc_inv st → i ∈ ar_issued st → stored_as (ar_revoked st) e i → is_credential_id i = c →
  (revoked = None ↔ c ∉ R') → (∀ c', c' ≠ c → c' ∈ R' ↔ c' ∈ ar_revoked st) →
  acc_inv {| ar_store := {| ms_records :=
      put_key e.1 (set_usage revoked used e.2) (ms_records (ar_store st)) |};
    ar_issued := ar_issued st; ar_revoked := R' |}.
Proof.
  intros Hinv Hi Hei <- Hrev Hoth. pose proof Hinv as [Hall Hk Hc Hsub]. constructor; cbn; try done.
  - eapply put_key_stored; [exact Hall|]. intros e' i' Hi' Hs.
    destruct (bool_decide_reflect (e'.1 = e.1)) as [Heq|Hne].
    + rewrite (st_key _ _ _ Hs), (st_key _ _ _ Hei) in Heq.
      apply (NoDup_fmap_same _ _ _ _ Hk Hi' Hi) in Heq as ->.
      by eapply set_usage_stored.
    + eapply stored_weaken; [done|]. apply Hoth. intros Heq. destruct Hne.
      apply (NoDup_fmap_same _ _ _ _ Hc Hi' Hi) in Heq as ->.
      by rewrite (st_key _ _ _ Hs), (st_key _ _ _ Hei).
  - intros c' Hc'. destruct (decide (c' = is_credential_id i)) as [->|Hne].
    + by apply list_elem_of_fmap_2.
    + by apply Hsub, Hoth.
Qed.

(** ** Every operation keeps the correspondence *)

Lemma authenticate_inv st mgr now token :
  acc_inv st → acc_inv (acc_step st (AAuthenticate mgr now token)).
Proof.
  intros Hinv. cbn [acc_step]. unfold account_authenticate, lift, account_mark_used, mbind, M_bind, self.
  cbv beta iota.
  destruct (try_except _ _ _) as [r|e] eqn:Hr; [|by destruct st].
  destruct (_find_credential _ _) as [e|e] eqn:He; [|by destruct st]. cbn [update mret M_ret fst].
  destruct (stored_find_credential _ _ _ _ _ (ai_stored _ Hinv) He) as (i & Hi & Hs & Hc).
  eapply put_usage_inv; eauto. rewrite (st_revoked _ _ _ Hs). by rewrite Hc.
Qed.

Lemma revoke_inv st now c : acc_inv st → acc_inv (acc_step st (ARevoke now c)).
Proof.
  intros Hinv. cbn [acc_step]. unfold manager_revoke, account_revoke, lift, mbind, M_bind, self.
  cbv beta iota.
  destruct (_find_credential _ _) as [e|e] eqn:He; [|by destruct st]. cbn [update is_ok].
  destruct (stored_find_credential _ _ _ _ _ (ai_stored _ Hinv) He) as (i & Hi & Hs & Hc).
  eapply put_usage_inv; eauto; [set_solver|set_solver].
Qed.

Lemma key_free k l e u :
  raise_if (bool_decide (is_Some (find_key k l))) e = Ok u → find_key k l = None.
Proof. intros Hn%raise_if_Ok%bool_decide_eq_false. by apply eq_None_not_Some. Qed.

(** What a successful [issue] returns and stores. *)
Lemma account_issue_Ok mgr now cid k secret name subject perms exp s s' i :
  account_issue mgr now cid k secret name subject perms exp s = (s', Ok i) →
  find_key k (ms_records s) = None ∧ is_key_id i = k ∧ is_credential_id i = cid ∧
  is_token i = token_of k secret ∧
  ∃ r, ms_records s' = ms_records s ++ [(k, r)] ∧ sa_revoked_at r = None ∧
    sa_credential_id r = cid ∧ sa_subject r = is_subject i ∧
    sa_organization_id r = is_organization_id i ∧ sa_environment_id r = is_environment_id i ∧
    sa_permissions r = is_permissions i ∧ sa_expires_at r = is_expires_at i ∧
    sa_token_digest r = _token_digest (is_token i).
Proof.
  unfold account_issue, account_create, lift, mbind, M_bind, self, update, mret, M_ret. intros Hok.
  repeat case_match; simplify_eq; cbn;
    (split_and!; [by eapply key_free|done..|]; eexists; by split_and!).
Qed.

Lemma account_issue_Err mgr now cid k secret name subject perms exp s s' e :
  account_issue mgr now cid k secret name subject perms exp s = (s', Err e) → s' = s.
Proof.
  unfold account_issue, account_create, lift, mbind, M_bind, self, update, mret, M_ret. intros Hok.
  repeat case_match; by simplify_eq.
Qed.

Lemma find_key_None R l I k :
  Forall2 (stored_as R) l I → find_key k l = None → k ∉ is_key_id <$> I.
Proof.
  unfold find_key. induction 1 as [|e i l I Hei Hall IH]; cbn [find]; [set_solver|].
  destruct (bool_decide_reflect (e.1 = k)) as [|Hne]; [done|]. intros Hf%IH.
  rewrite fmap_cons, not_elem_of_cons, <- (st_key _ _ _ Hei). by split; [congruence|].
Qed.

Lemma issue_inv st op :
  acc_inv st → drawn op = true → (∀ c, drawn_id op = Some c → c ∉ is_credential_id <$> ar_issued st) →
  is_Some (drawn_id op) → acc_inv (acc_step st op).
Proof.
  destruct op as [mgr now cid k secret name subject perms exp| |]; [|by intros ??? []..].
  cbn [drawn drawn_id acc_step]. intros Hinv [Hk%bool_decide_eq_true Hs]%andb_true_iff Hfresh _.
  destruct (account_issue _ _ _ _ _ _ _ _ _ _) as [s' [i|e]] eqn:He.
  2: { apply account_issue_Err in He as ->. rewrite app_nil_r. by destruct st. }
  apply account_issue_Ok in He as (Hf & Hki & Hci & Ht & r & Hms & Hrev & Hcr & ? & ? & ? & ? & ? & ?).
  specialize (Hfresh _ eq_refl). pose proof Hinv as [Hall Hkeys Hids Hsub].
  pose proof (find_key_None _ _ _ _ Hall Hf) as Hnk. constructor; cbn.
  - rewrite Hms. apply Forall2_app; [done|]. constructor; [|constructor].
    constructor; cbn; try done; try congruence.
    + rewrite Hci. split; [intros _ Hin%Hsub; by destruct Hfresh|done].
    + rewrite Ht, Hki. by apply parse_key_id_token.
  - rewrite fmap_app. apply NoDup_app. split_and!; [done| |apply NoDup_singleton]. set_solver.
  - rewrite fmap_app. apply NoDup_app. split_and!; [done| |apply NoDup_singleton]. set_solver.
  - intros c Hc%Hsub. rewrite fmap_app. set_solver.
Qed.

Definition acc_runs (ops : list acc_op) : acc_run := fold_left acc_step ops acc_start.

Lemma acc_step_ids st op c :
  c ∈ is_credential_id <$> ar_issued (acc_step st op) →
  c ∈ is_credential_id <$> ar_issued st ∨ drawn_id op = Some c.
Proof.
  destruct op as [mgr now cid k secret name subject perms exp| |now cid]; cbn [acc_step drawn_id].
  - destruct (account_issue _ _ _ _ _ _ _ _ _ _) as [s' [i|e]] eqn:He; cbn.
    + apply account_issue_Ok in He as (_ & _ & <- & _). rewrite fmap_app. set_solver.
    + rewrite app_nil_r. auto.
  - auto.
  - destruct (manager_revoke _ _ _). auto.
Qed.

Lemma acc_fold_inv ops st :
  acc_inv st → Forall (λ op, drawn op = true) ops → NoDup (omap drawn_id ops) →
  (∀ c, c ∈ omap drawn_id ops → c ∉ is_credential_id <$> ar_issued st) →
  acc_inv (fold_left acc_step ops st).
Proof.
  revert st. induction ops as [|op ops IH]; intros st Hinv Hd Hnd Hfresh; [done|].
  apply Forall_cons in Hd as [Hop Hd]. cbn [fold_left].
  assert (acc_inv (acc_step st op) ∧ NoDup (omap drawn_id ops) ∧
    ∀ c, c ∈ omap drawn_id ops → c ∈ omap drawn_id (op :: ops) ∧ drawn_id op ≠ Some c) as (H1 & H2 & H3).
  { cbn [omap list_omap] in *. destruct op; cbn [drawn_id] in *.
    - apply NoDup_cons in Hnd as [Hnin Hnd]. split_and!; [|done|].
      + apply issue_inv; [done|done| |by eexists]. cbn. intros c [= <-]. apply Hfresh. left.
      + intros c Hc. split; [by right|]. intros [= ->]. done.
    - split_and!; [by apply authenticate_inv|done|done].
    - split_and!; [by apply revoke_inv|done|done]. }
  apply IH; try done. intros c Hc [Hin|Hin]%acc_step_ids; destruct (H3 c Hc); [|done].
  by apply (Hfresh c).
Qed.

Lemma acc_runs_inv ops :
  Forall (λ op, drawn op = true) ops → NoDup (omap drawn_id ops) → acc_inv (acc_runs ops).
Proof.
  intros Hd Hnd. apply acc_fold_inv; try done; [|set_solver].
  constructor; cbn; [constructor|constructor|constructor|set_solver].
Qed.

(** ** Authentication *)

Lemma parse_key_id_raises token : raises catches_TypeError_ValueError (_parse_key_id token).
Proof.
  unfold _parse_key_id. destruct (partition _ token) as [[p b] rest].
  destruct (partition _ rest) as [[k b'] secret]. apply raises_guard; [done|]. intros _.
  unfold uuid_parse. cbv zeta. apply raises_guard; [done|]. intros _.
  apply raises_bind; [by destruct (int16 _)|]. intros a _. by apply raises_guard.
Qed.

Lemma account_lookup_raises mgr now token s :
  raises catches_TypeError_ValueError (account_lookup mgr now token s).
Proof.
  unfold account_lookup. apply raises_bind; [apply parse_key_id_raises|]. intros k _.
  apply raises_bind; [by destruct (find_key _ _)|]. intros r _. by apply raises_guard.
Qed.

Lemma account_lookup_issued st mgr now i :
  acc_inv st → i ∈ ar_issued st →
  ∃ r, stored_as (ar_revoked st) (is_key_id i, r) i ∧
    account_lookup mgr now (is_token i) (ar_store st)
    = if account_live mgr now (ar_revoked st) i then Ok r else Err (ValueError "").
Proof.
  intros Hinv Hi. destruct (stored_find_key_elem _ _ Hinv Hi) as (r & Hf & Hs).
  exists r. split; [done|]. unfold account_lookup. rewrite (st_token _ _ _ Hs).
  unfold mbind at 1, result_bind at 1. rewrite Hf. cbn [or_raise].
  unfold mbind at 1, result_bind at 1. cbv zeta. rewrite raise_if_bind.
  pose proof Hs as [_ _ _ Ho He _ Hd Hx Hr _]. cbn [snd] in *. rewrite Ho, He, Hd, Hx.
  rewrite (bool_decide_true (_token_digest _ = _)) by done. rewrite (bool_decide_ext _ _ Hr).
  unfold account_live.
  repeat match goal with |- context [bool_decide ?P] => destruct (bool_decide P) end; cbn; try done.
  by destruct (is_expires_at i) as [e|]; [destruct (now <? e)|].
Qed.

Lemma account_lookup_Ok st mgr now token r :
  acc_inv st → account_lookup mgr now token (ar_store st) = Ok r →
  ∃ i, i ∈ ar_issued st ∧ stored_as (ar_revoked st) (is_key_id i, r) i ∧
    _token_digest token = _token_digest (is_token i) ∧
    account_live mgr now (ar_revoked st) i = true.
Proof.
  intros Hinv Hl. unfold account_lookup in Hl.
  apply bind_Ok in Hl as (k & Hk & Hl). apply bind_Ok in Hl as (r' & Hf%or_raise_Ok & Hl).
  rewrite raise_if_bind in Hl. case_match eqn:Hg; [done|]. simplify_eq.
  destruct (stored_find_key _ _ _ _ _ (ai_stored _ Hinv) Hf) as (i & Hi & Hs).
  exists i. split; [done|]. pose proof Hs as [Hki _ _ Ho He _ Hd Hx Hr _]. cbn [fst snd] in *.
  rewrite <- Hki. split; [done|]. rewrite Ho, He, Hd, Hx, (bool_decide_ext _ _ Hr) in Hg.
  rewrite !orb_false_iff, !negb_false_iff in Hg. destruct Hg as [[Hsc Hdg%bool_decide_eq_true] Hact].
  split; [done|]. unfold account_live. rewrite <- andb_assoc. by rewrite Hsc.
Qed.

(** An authentication answers as its lookup does. *)
Lemma authenticate_lookup st mgr now token :
  acc_inv st →
  (account_authenticate mgr now token (ar_store st)).2
  = match account_lookup mgr now token (ar_store st) with
    | Ok r => Ok {| pn_subject := sa_subject r; pn_roles := []; pn_permissions := sa_permissions r;
                    pn_kind := SERVICE; pn_organization_id := sa_organization_id r;
                    pn_environment_id := sa_environment_id r |}
    | Err _ => Err (AuthenticationError "invalid service credential")
    end.
Proof.
  intros Hinv. pose proof (account_lookup_raises mgr now token (ar_store st)) as Hra.
  unfold account_authenticate, account_mark_used, lift, mbind, M_bind, self. cbv beta iota.
  destruct (account_lookup _ _ _ _) as [r|e] eqn:Hl; cbn [try_except raises] in *.
  2: by rewrite Hra.
  destruct (account_lookup_Ok _ _ _ _ _ Hinv Hl) as (i & Hi & Hs & _).
  destruct (stored_find_credential_elem _ _ Hinv Hi) as (e & He & _).
  pose proof (st_id _ _ _ Hs) as Hid. cbn [snd] in Hid. rewrite Hid, He. done.
Qed.

Lemma principal_stored R k r i :
  stored_as R (k, r) i →
  {| pn_subject := sa_subject r; pn_roles := []; pn_permissions := sa_permissions r;
     pn_kind := SERVICE; pn_organization_id := sa_organization_id r;
     pn_environment_id := sa_environment_id r |} = principal_of i.
Proof. intros []. unfold principal_of. cbn in *. by f_equal. Qed.

(** C27: Service credentials are exact.  Take any history of issuing, authenticating and
    revoking on one credential store, by any number of deployments, with fresh credential
    identifiers and keys and secrets of the drawn form.  The token of an issued account then
    authenticates, in a deployment and at a time, exactly as that account with its
    permissions if the deployment issued it and it is neither revoked nor expired, and is
    refused otherwise; and whatever token authenticates has the SHA-256 digest of the token
    of such a live account and stands for it.  Nothing but a principal or an
    [AuthenticationError] ever comes out. *)
Theorem service_credentials_exact ops mgr now :
  Forall (λ op, drawn op = true) ops → NoDup (omap drawn_id ops) →
  let st := acc_runs ops in
  (∀ i, i ∈ ar_issued st →
    (account_authenticate mgr now (is_token i) (ar_store st)).2
    = if account_live mgr now (ar_revoked st) i then Ok (principal_of i)
      else Err (AuthenticationError "invalid service credential")) ∧
  (∀ token,
    match (account_authenticate mgr now token (ar_store st)).2 with
    | Ok p => ∃ i, i ∈ ar_issued st ∧ account_live mgr now (ar_revoked st) i = true ∧
                   _token_digest token = _token_digest (is_token i) ∧ p = principal_of i
    | Err e => e = AuthenticationError "invalid service credential"
    end).
Proof.
  intros Hd Hnd st. pose proof (acc_runs_inv ops Hd Hnd) as Hinv. fold st in Hinv. split.
  - intros i Hi. rewrite (authenticate_lookup _ _ _ _ Hinv).
    destruct (account_lookup_issued _ mgr now _ Hinv Hi) as (r & Hs & ->).
    destruct (account_live _ _ _ _); [|done]. f_equal. by eapply principal_stored.
  - intros token. rewrite (authenticate_lookup _ _ _ _ Hinv).
    destruct (account_lookup _ _ _ _) as [r|e] eqn:Hl; [|done].
    destruct (account_lookup_Ok _ _ _ _ _ Hinv Hl) as (i & Hi & Hs & Hdg & Hlive).
    exists i. split_and!; try done. by eapply principal_stored.
Qed.
End runs.

(** Two accounts of one deployment, the second revoked. *)
Definition demo_mgr : ServiceAccountManager :=
  {| sm_organization_id := "acme"; sm_environment_id := "prod" |}.
Definition demo_secret : string := "0123456789abcdefghijklmnopqrstuvwxyzABCD_-E".
Definition demo_ops : list acc_op :=
  [ AIssue demo_mgr 100 1 17 demo_secret "reader" "agent-1" [PROPOSALS_READ] None;
    AIssue demo_mgr 100 2 18 demo_secret "writer" "agent-2" [PROPOSALS_WRITE]
      (Some {| dt_wall := 7400; dt_offset := Some 7200 |});
    AAuthenticate demo_mgr 150 (token_of 18 demo_secret);
    ARevoke 160 2 ].

Definition demo_issued (credential_id key_id : Z) (name subject : string)
    (permissions : list Permission) (expires : option Z) : IssuedServiceAccount :=
  {| is_credential_id := credential_id; is_key_id := key_id; is_name := name;
     is_subject := subject; is_organization_id := "acme"; is_environment_id := "prod";
     is_permissions := permissions; is_token := token_of key_id demo_secret;
     is_expires_at := expires |}.
Definition demo_reader := demo_issued 1 17 "reader" "agent-1" [PROPOSALS_READ] None.
Definition demo_writer := demo_issued 2 18 "writer" "agent-2" [PROPOSALS_WRITE] (Some 200).

(** The remaining account authenticates and the revoked one does not. *)
Lemma service_credentials_exact_witness :
  (@account_authenticate sized_externals demo_mgr 170 (is_token demo_reader)
    (ar_store (@acc_runs sized_externals demo_ops))).2
  = Ok {| pn_subject := "agent-1"; pn_roles := []; pn_permissions := [PROPOSALS_READ];
          pn_kind := SERVICE; pn_organization_id := "acme"; pn_environment_id := "prod" |} ∧
  (@account_authenticate sized_externals demo_mgr 170 (is_token demo_writer)
    (ar_store (@acc_runs sized_externals demo_ops))).2
  = Err (AuthenticationError "invalid service credential").
Proof.
  destruct (@service_credentials_exact sized_externals demo_ops demo_mgr 170) as [H _].
  - repeat (constructor; [vm_compute; reflexivity|]). constructor.
  - vm_compute. repeat constructor; set_solver.
  - assert (ar_issued (@acc_runs sized_externals demo_ops) = [demo_reader; demo_writer]) as Hi
      by (vm_compute; reflexivity).
    rewrite Hi in H. split.
    + exact (H demo_reader ltac:(left)).
    + exact (H demo_writer ltac:(right; left)).
Defined.
