(* ===== verification/Startup.v ===== *)
(** How the application is configured and put together
    (src/agentguard-testbed/src/aegisledger/settings.py, main.py and the constructors of
    chain.py, signer_client.py and auth.py), and the operator commands of cli.py that change
    credentials.  Reading environment variables and files, URL and address parsing and the
    gRPC channel are arguments; [PolicyStore] is the protocol of policies.py with its two
    implementations. *)
From Stdlib Require Import ZArith Lia Ascii String.
From stdpp Require Import base gmap sets list strings pretty.
From S2P Require Import Prelude Bytes Float64 Canonical Contracts Policy Postgres Decisions Agents Artifacts Settlements Access.

Open Scope Z_scope.

(** * Settings *)

Inductive Environment := DEVELOPMENT | TEST | PRODUCTION.
Inductive StateBackend := MEMORY | POSTGRES.

#[export] Instance Environment_eq_dec : EqDecision Environment.
Proof. solve_decision. Defined.
#[export] Instance StateBackend_eq_dec : EqDecision StateBackend.
Proof. solve_decision. Defined.

Record Settings := {
  environment : Environment;
  organization_id : string;
  deployment_environment_id : string;
  state_backend : StateBackend;
  database_url : option string;
  service_account_auth_enabled : bool;
  policy_signing_seed : string;
  policy_decision_lifetime_seconds : Z;
  bootstrap_development_policy : bool;
  development_policy_path : string;
  allowed_build_measurements : list string;
  experiment_output_root : string;
  experiment_max_active_per_principal : Z;
  rate_limit_requests : Z;
  rate_limit_window_seconds : Z;
  request_max_bytes : Z;
  commit_sha : string;
  log_level : string;
  signer_target : option string;
  signer_ca_path : option string;
  signer_client_certificate_path : option string;
  signer_client_private_key_path : option string;
  signer_timeout_seconds : float;
  rpc_url : option string;
  rpc_chain_id : Z;
  rpc_authorization_header : option string;
  rpc_timeout_seconds : float;
  finality_confirmations : Z;
  eip712_domain_separator : string;
  api_port : Z;
}.

(** [Field(gt=0, le=hi)] of a float and of an integer. *)
Definition float_between (hi : Z) (x : float) : bool :=
  flt (round_ratio 0 1) x && fle x (round_ratio hi 1).
Definition int_between (hi x : Z) : bool := (0 <? x) && (x <=? hi).

(** [value.split(",")] *)
Fixpoint split_comma (part s : string) : list string :=
  match s with
  | EmptyString => [part]
  | String c s => if bool_decide (c = ","%char) then part :: split_comma "" s
                  else split_comma (part +:+ String c "") s
  end.
Definition parse_measurements (value : string) : list string :=
  filter (λ item, item ≠ "") (map strip (split_comma "" value)).

Definition log_levels : list string := ["DEBUG"; "INFO"; "WARNING"; "ERROR"; "CRITICAL"].
Definition normalize_log_level (value : string) : result string :=
  let normalized := str_upper value in
  raise_if (negb (is_in normalized log_levels)) (ValueError "unsupported log level");;
  Ok normalized.

(** [not text] and [text is None] of an optional string. *)
Definition absent (v : option string) : bool := match v with Some s => negb (str_truthy s) | None => true end.
Definition is_none (v : option string) : bool := match v with Some _ => false | None => true end.

Definition durable_production_state (s : Settings) : result unit :=
  raise_if (bool_decide (state_backend s = POSTGRES) && absent (database_url s))
    (ValueError "postgres state requires AEGIS_DATABASE_URL");;
  raise_if (service_account_auth_enabled s && bool_decide (state_backend s ≠ POSTGRES))
    (ValueError "service account authentication requires postgres state");;
  (if bool_decide (environment s = PRODUCTION) then
     raise_if (bool_decide (state_backend s ≠ POSTGRES)) (ValueError "production requires postgres state");;
     raise_if (bootstrap_development_policy s)
       (ValueError "development policy bootstrap is forbidden in production");;
     raise_if (absent (rpc_url s)) (ValueError "production requires AEGIS_RPC_URL");;
     raise_if (absent (signer_target s)) (ValueError "production requires AEGIS_SIGNER_TARGET")
   else Ok tt);;
  let signer_tls := [signer_ca_path s; signer_client_certificate_path s; signer_client_private_key_path s] in
  raise_if (negb (absent (signer_target s)) && existsb is_none signer_tls)
    (ValueError "configured signer requires CA, client certificate, and private key");;
  raise_if (absent (signer_target s) && existsb (λ v, negb (is_none v)) signer_tls)
    (ValueError "signer TLS paths require AEGIS_SIGNER_TARGET").

Definition settings_fields (s : Settings) : bool :=
  length_between 1 128 (organization_id s) && identifier_pattern (organization_id s)
  && length_between 1 128 (deployment_environment_id s) && identifier_pattern (deployment_environment_id s)
  && int_between 300 (policy_decision_lifetime_seconds s) && int_between 32 (experiment_max_active_per_principal s)
  && int_between 100000 (rate_limit_requests s) && int_between 3600 (rate_limit_window_seconds s)
  && int_between 10000000 (request_max_bytes s)
  && (Nat.eqb (String.length (commit_sha s)) 40 && str_forallb hex_lower_char (commit_sha s))
  && float_between 30 (signer_timeout_seconds s) && (0 <? rpc_chain_id s) && float_between 60 (rpc_timeout_seconds s)
  && int_between 1000 (finality_confirmations s) && Hex32 (eip712_domain_separator s) && int_between 65535 (api_port s).

Definition with_log_level (level : string) (s : Settings) : Settings :=
  {| environment := environment s; organization_id := organization_id s;
     deployment_environment_id := deployment_environment_id s; state_backend := state_backend s;
     database_url := database_url s; service_account_auth_enabled := service_account_auth_enabled s;
     policy_signing_seed := policy_signing_seed s;
     policy_decision_lifetime_seconds := policy_decision_lifetime_seconds s;
     bootstrap_development_policy := bootstrap_development_policy s;
     development_policy_path := development_policy_path s;
     allowed_build_measurements := allowed_build_measurements s;
     experiment_output_root := experiment_output_root s;
     experiment_max_active_per_principal := experiment_max_active_per_principal s;
     rate_limit_requests := rate_limit_requests s; rate_limit_window_seconds := rate_limit_window_seconds s;
     request_max_bytes := request_max_bytes s; commit_sha := commit_sha s; log_level := level;
     signer_target := signer_target s; signer_ca_path := signer_ca_path s;
     signer_client_certificate_path := signer_client_certificate_path s;
     signer_client_private_key_path := signer_client_private_key_path s;
     signer_timeout_seconds := signer_timeout_seconds s; rpc_url := rpc_url s; rpc_chain_id := rpc_chain_id s;
     rpc_authorization_header := rpc_authorization_header s; rpc_timeout_seconds := rpc_timeout_seconds s;
     finality_confirmations := finality_confirmations s; eip712_domain_separator := eip712_domain_separator s;
     api_port := api_port s |}.

(** The fields are typed and the measurements split; what remains is checked here. *)
Definition Settings_validate (s : Settings) : result Settings :=
  raise_if (negb (settings_fields s)) (ValidationError "Settings");;
  level ← try_except catches_ValueError (normalize_log_level (log_level s)) (invalid "Settings");
  let s := with_log_level level s in
  try_except catches_ValueError (durable_production_state s) (invalid "Settings");;
  Ok s.

(** * The adapters' constructors *)

(** What [urlparse] finds, and [ip_address(hostname).is_loopback] ([None]: no address). *)
Record UrlParts := { url_scheme : string; url_hostname : string; url_credentials : bool }.

Section adapters.
Variable urlparse : string → result UrlParts.
Variable is_loopback : string → option bool.
Variable read_file : string → result bytes.

(** [JsonRpcChainBackend._validate_url] *)
Definition _validate_url (raw_url : string) (allow_insecure_http : bool) : result unit :=
  parsed ← urlparse raw_url;
  raise_if (url_credentials parsed) (ValueError "RPC credentials must use an authorization header");;
  raise_if (negb (str_truthy (url_hostname parsed))) (ValueError "RPC URL must include a host");;
  let local := bool_decide (url_hostname parsed = "localhost") || default false (is_loopback (url_hostname parsed)) in
  raise_if (bool_decide (url_scheme parsed ≠ "https")
            && negb (bool_decide (url_scheme parsed = "http") && (local || allow_insecure_http)))
    (ValueError "remote RPC endpoints must use HTTPS").

Record RpcBackend := {
  rb_url : string;
  rb_chain : JsonRpcChainBackend;
  rb_finality : Z;
  rb_authorization : option string;
}.

Definition JsonRpcChainBackend_init (url : string) (expected_chain_id : Z) (authorization_header : option string)
    (finality : Z) (allow_insecure_http : bool) : result RpcBackend :=
  _validate_url url allow_insecure_http;;
  raise_if (expected_chain_id <=? 0) (ValueError "expected chain ID must be positive");;
  raise_if (finality <? 1) (ValueError "finality confirmations must be positive");;
  Ok {| rb_url := url; rb_chain := {| jb_chain_id := expected_chain_id; jb_network_verified := false |};
        rb_finality := finality; rb_authorization := if absent authorization_header then None else authorization_header |}.

(** [_http_rpc], after the HTTP client: what the decoded body answers. *)
Definition rpc_body (body : pyval) : result pyval :=
  match body with
  | PDict d =>
      raise_if (negb (match dict_get "jsonrpc" d with Some (PStr v) => bool_decide (v = "2.0") | _ => false end))
        (RuntimeError "RPC returned a malformed response");;
      raise_if (match dict_get "error" d with Some PNone | None => false | Some _ => true end)
        (RuntimeError "RPC request failed");;
      or_raise (dict_get "result" d) (RuntimeError "RPC response omitted result")
  | _ => Err (RuntimeError "RPC returned a malformed response")
  end.

Definition is_final (b : RpcBackend) (r : EvmReceipt) : bool := rb_finality b <=? er_confirmations r.

(** [GrpcSignerClient]: where it connects and with which credentials. *)
Record GrpcSignerClient := {
  gc_target : string;
  gc_root : bytes;
  gc_key : bytes;
  gc_certificate : bytes;
}.

Fixpoint contains_text (sub s : string) : bool :=
  startswith sub s || match s with EmptyString => false | String _ s => contains_text sub s end.

Definition GrpcSignerClient_init (target : string) (root_ca client_certificate client_private_key : option string)
    (timeout : float) : result GrpcSignerClient :=
  raise_if (fle timeout (round_ratio 0 1)) (ValueError "signer timeout must be positive");;
  raise_if (negb (str_truthy target) || contains_text "://" target)
    (ValueError "signer target must use host:port form");;
  match root_ca, client_certificate, client_private_key with
  | Some ca, Some cert, Some key =>
      ca ← read_file ca;
      key ← read_file key;
      cert ← read_file cert;
      Ok {| gc_target := target; gc_root := ca; gc_key := key; gc_certificate := cert |}
  | _, _, _ => Err (ValueError "signer mTLS CA, certificate, and private key are required")
  end.

Record SignerIdentity := { si_identity : string; si_public_key : string; si_measurement : string }.

(** [identity]; [None] is a failed call. *)
Definition signer_identity_of (response : option SignerIdentity) : result SignerIdentity :=
  r ← or_raise response (SignerClientError "isolated signer identity request failed");
  let id := str_lower (si_identity r) in
  let key := str_lower (si_public_key r) in
  raise_if (negb (startswith "0x" id) || negb (Nat.eqb (String.length id) 42) || negb (startswith "0x04" key)
            || negb (Nat.eqb (String.length key) 132) || negb (str_truthy (si_measurement r)))
    (SignerClientError "isolated signer returned an invalid identity");;
  Ok {| si_identity := id; si_public_key := key; si_measurement := si_measurement r |}.

(** * Policy stores *)

(** [PolicyStore], with the identifiers and times an operation draws. *)
Class PolicyStore (S : Type) := {
  ps_create : Z → Z → PolicyV1 → string → M S PolicyVersion;
  ps_approve : Z → string → M S PolicyVersion;
  ps_activate : Z → Z → string → M S PolicyVersion;
  ps_active : M S PolicyVersion;
}.

Context `{!Externals}.

#[export] Instance registry_store : PolicyStore PolicyRegistry :=
  {| ps_create := registry_create; ps_approve := registry_approve; ps_activate := registry_activate;
     ps_active := registry_active |}.
#[export] Instance postgres_store : PolicyStore PgPolicies :=
  {| ps_create := pg_policy_create; ps_approve := pg_policy_approve; ps_activate := pg_policy_activate;
     ps_active := pg_policy_active |}.

(** [policies] is one or the other. *)
Definition on_either {A B R} (f : M A R) (g : M B R) : M (A + B) R := λ s,
  match s with
  | inl a => let (a, r) := f a in (inl a, r)
  | inr b => let (b, r) := g b in (inr b, r)
  end.
#[export] Instance either_store {A B} `{!PolicyStore A, !PolicyStore B} : PolicyStore (A + B) :=
  {| ps_create id now policy by_ := on_either (ps_create id now policy by_) (ps_create id now policy by_);
     ps_approve id admin := on_either (ps_approve id admin) (ps_approve id admin);
     ps_activate now id by_ := on_either (ps_activate now id by_) (ps_activate now id by_);
     ps_active := on_either ps_active ps_active |}.

(** * [build_services] *)

Record boot_draws := { bd_version : Z; bd_created_at : Z; bd_activated_at : Z }.

(** The development policy, approved by two administrators and activated; [document] is
    the validated content of the file. *)
Definition create_development_policy {S} `{!PolicyStore S} (d : boot_draws) (document : result PolicyV1) : M S unit :=
  policy ← lift document;
  version ← ps_create (bd_version d) (bd_created_at d) policy "development-bootstrap";
  ps_approve (version_id version) "development-admin-a";;
  ps_approve (version_id version) "development-admin-b";;
  ps_activate (bd_activated_at d) (version_id version) "development-admin-a";;
  mret tt.

(** It is created when no policy is active. *)
Definition bootstrap {S} `{!PolicyStore S} (d : boot_draws) (document : result PolicyV1) : M S unit :=
  try_m catches_LookupError (ps_active;; mret tt) (λ _, create_development_policy d document).

(** What the service container is given, but for the stores. *)
Record Services := {
  sv_durable : bool;
  sv_decisions : DecisionIssuer;
  sv_signer : option GrpcSignerClient;
  sv_chain_backends : gmap Z RpcBackend;
  sv_settlement_reconciler : option SettlementReconciler;
  sv_eip712_domain_separator : string;
  sv_allowed_build_measurements : list string;
  sv_experiment_max_active : Z;
  sv_rate_limit : Z * Z;
  sv_request_max_bytes : Z;
  sv_commit_sha : string;
}.

Definition assert_some {A} (v : option A) : result unit := raise_if (bool_decide (¬ is_Some v)) AssertionError.

(** The signer client and the backends. *)
Definition build_signer (s : Settings) : result (option GrpcSignerClient) :=
  match signer_target s with
  | None => Ok None
  | Some target =>
      assert_some (signer_ca_path s);;
      assert_some (signer_client_certificate_path s);;
      assert_some (signer_client_private_key_path s);;
      client ← GrpcSignerClient_init target (signer_ca_path s) (signer_client_certificate_path s)
                 (signer_client_private_key_path s) (signer_timeout_seconds s);
      Ok (Some client)
  end.

Definition build_backends (s : Settings) : result (gmap Z RpcBackend) :=
  match rpc_url s with
  | None => Ok ∅
  | Some url =>
      backend ← JsonRpcChainBackend_init url (rpc_chain_id s) (rpc_authorization_header s)
                  (finality_confirmations s) (bool_decide (environment s ≠ PRODUCTION));
      Ok {[ rpc_chain_id s := backend ]}
  end.

(** [receipt] is what a backend's [receipt] answers. *)
Definition build_reconciler (receipt : RpcBackend → string → receipt_answer) (backends : gmap Z RpcBackend)
    (finality : Z) : result (option SettlementReconciler) :=
  if bool_decide (backends = ∅) then Ok None
  else
    Some <$> reconciler_init (prod_map id (λ b, jb_chain_id (rb_chain b)) <$> map_to_list backends)
               (λ chain, receipt <$> backends !! chain) finality.

(** Everything after the stores are opened. *)
Definition wire_services {S} `{!PolicyStore S} (receipt : RpcBackend → string → receipt_answer)
    (s : Settings) (d : boot_draws) (read_policy : string → result PolicyV1) : M S Services :=
  (if bootstrap_development_policy s then bootstrap d (read_policy (development_policy_path s)) else mret tt);;
  signer ← lift (build_signer s);
  backends ← lift (build_backends s);
  reconciler ← lift (build_reconciler receipt backends (finality_confirmations s));
  mret {| sv_durable := bool_decide (state_backend s = POSTGRES);
          sv_decisions := DecisionIssuer_from_seed (policy_signing_seed s) (policy_decision_lifetime_seconds s);
          sv_signer := signer; sv_chain_backends := backends;
          sv_settlement_reconciler := reconciler;
          sv_eip712_domain_separator := eip712_domain_separator s;
          sv_allowed_build_measurements := allowed_build_measurements s;
          sv_experiment_max_active := experiment_max_active_per_principal s;
          sv_rate_limit := (rate_limit_requests s, rate_limit_window_seconds s);
          sv_request_max_bytes := request_max_bytes s; sv_commit_sha := commit_sha s |}.

(** The policy store of the backend: the database's, or an empty registry.  The other
    stores are opened beside it and used only later. *)
Definition open_policies (s : Settings) (db : PgPolicies) : result (PolicyRegistry + PgPolicies) :=
  if bool_decide (state_backend s = POSTGRES) then assert_some (database_url s);; Ok (inr db)
  else Ok (inl registry_init).

Definition build_services (receipt : RpcBackend → string → receipt_answer) (s : Settings) (d : boot_draws)
    (read_policy : string → result PolicyV1) (db : PgPolicies)
    : result ((PolicyRegistry + PgPolicies) * result Services) :=
  policies ← open_policies s db;
  Ok (wire_services receipt s d read_policy policies).

(** * Authentication *)

(** [OIDCAuthenticator.from_environment], from the three variables. *)
Definition from_environment (issuer audience jwks_url : option string) (organization environment_id : string)
    : result OIDCAuthenticator :=
  let missing := map fst (filter (λ e, absent e.2 = true)
    [("issuer", issuer); ("audience", audience); ("jwks_url", jwks_url)]) in
  raise_if (negb (bool_decide (missing = [])))
    (RuntimeError ("missing OIDC configuration: " +:+ join ", " missing));;
  issuer ← or_raise issuer AssertionError;
  OIDCAuthenticator_init issuer organization environment_id.

(** [build_authenticator]: OIDC alone, or with service credentials. *)
Definition build_authenticator (s : Settings) (issuer audience jwks_url : option string)
    : result (OIDCAuthenticator * option ServiceAccountManager) :=
  oidc ← from_environment issuer audience jwks_url (organization_id s) (deployment_environment_id s);
  if negb (service_account_auth_enabled s) then Ok (oidc, None)
  else
    raise_if (is_none (database_url s)) (ValueError "service account authentication requires a database URL");;
    accounts ← ServiceAccountManager_init (organization_id s) (deployment_environment_id s);
    Ok (oidc, Some accounts).

(** * Operator commands *)

Definition permission_value (p : Permission) : string :=
  match p with
  | PROPOSALS_READ => "proposals:read"
  | PROPOSALS_WRITE => "proposals:write"
  | POLICIES_SIMULATE => "policies:simulate"
  | ATTESTATIONS_VERIFY => "attestations:verify"
  end.
(** In the order of their values. *)
Definition sorted_permissions : list Permission :=
  [ATTESTATIONS_VERIFY; POLICIES_SIMULATE; PROPOSALS_READ; PROPOSALS_WRITE].
(** [Permission(value)] *)
Definition Permission_of (value : string) : result Permission :=
  or_raise (List.find (λ p, bool_decide (permission_value p = value)) sorted_permissions)
    (ValueError (value +:+ " is not a valid Permission")).

(** [issue_service_credential] over the memory store, with what [issue] draws. *)
Definition issue_service_credential (mgr : ServiceAccountManager) (now credential_id key_id : Z)
    (secret name subject : string) (permission_values : list string) (expires_in_days : Z)
    : M MemoryServiceAccountStore pyval :=
  lift (raise_if (negb ((1 <=? expires_in_days) && (expires_in_days <=? 365)))
    (ValueError "service credential lifetime must be between 1 and 365 days"));;
  permissions ← lift (validate_all Permission_of permission_values);
  issued ← account_issue mgr now credential_id key_id secret name subject permissions
    (Some {| dt_wall := now + expires_in_days * seconds 86400; dt_offset := Some 0 |});
  mret (PDict
    [(KStr "credential_id", PStr (uuid_str (is_credential_id issued)));
     (KStr "name", PStr (is_name issued));
     (KStr "subject", PStr (is_subject issued));
     (KStr "organization_id", PStr (is_organization_id issued));
     (KStr "environment_id", PStr (is_environment_id issued));
     (KStr "permissions",
      PList (map (PStr ∘ permission_value) (filter (λ p, p ∈ is_permissions issued) sorted_permissions)));
     (KStr "expires_at", match is_expires_at issued with Some t => PStr (isoformat t) | None => PNone end);
     (KStr "token", PStr (is_token issued))]).

Definition revoke_service_credential (credential_id now : Z) : M MemoryServiceAccountStore pyval :=
  account_revoke credential_id now;;
  mret (PDict [(KStr "credential_id", PStr (uuid_str credential_id)); (KStr "revoked", PBool true)]).

(** [_service_account_manager_from_environment], from its three variables. *)
Definition _service_account_manager_from_environment (database organization environment_id : option string)
    : result ServiceAccountManager :=
  raise_if (absent database) (RuntimeError "AEGIS_DATABASE_URL is required for service-account operations");;
  ServiceAccountManager_init (default "local" organization) (default "development" environment_id).

(** [_alembic_url] *)
Definition _alembic_url (url : string) : string :=
  if startswith "postgresql://" url
  then "postgresql+psycopg://" +:+ String.substring 13 (String.length url) url else url.

(** [migrate]: the address it upgrades. *)
Definition migrate (database : option string) : result string :=
  raise_if (absent database) (RuntimeError "AEGIS_DATABASE_URL is required for migrations");;
  Ok (_alembic_url (default "" database)).

End adapters.
