(* ===== verification/StartupFacts.v ===== *)
(** What starting the application guarantees: accepted production settings start only a
    durable service with an authenticated signer and a safe endpoint, and the development
    policy is bootstrapped through the interface of the policy store. *)
From Stdlib Require Import ZArith Lia Ascii String.
From stdpp Require Import base gmap sets list strings pretty.
From S2P Require Import Prelude Bytes Float64 Canonical CanonicalFacts Contracts ContractsFacts Policy PolicyFacts.
From S2P Require Import Postgres PostgresFacts PostgresPolicyFacts Decisions JournalFacts Agents Artifacts Settlements Access Startup.

Open Scope Z_scope.

(** * What validation leaves *)

Lemma absent_false v : absent v = false ↔ ∃ t, v = Some t ∧ t ≠ "".
Proof.
  destruct v as [t|]; cbn; [|naive_solver]. rewrite negb_false_iff. unfold str_truthy.
  rewrite bool_decide_eq_true. naive_solver.
Qed.

Record accepted (s : Settings) : Prop := {
  ac_fields : settings_fields s = true;
  ac_database : state_backend s = POSTGRES → absent (database_url s) = false;
  ac_accounts : service_account_auth_enabled s = true → state_backend s = POSTGRES;
  ac_production : environment s = PRODUCTION →
    state_backend s = POSTGRES ∧ bootstrap_development_policy s = false ∧ absent (rpc_url s) = false
    ∧ absent (signer_target s) = false;
  ac_tls : absent (signer_target s) = false → is_Some (signer_ca_path s)
    ∧ is_Some (signer_client_certificate_path s) ∧ is_Some (signer_client_private_key_path s);
  ac_no_tls : absent (signer_target s) = true →
    signer_ca_path s = None ∧ signer_client_certificate_path s = None ∧ signer_client_private_key_path s = None;
}.

Lemma durable_accepted s :
  settings_fields s = true → durable_production_state s = Ok tt → accepted s.
Proof.
  intros Hf. unfold durable_production_state. intros Hd. rewrite !raise_if_bind in Hd.
  destruct (bool_decide (state_backend s = POSTGRES) && absent (database_url s)) eqn:H1; [done|].
  destruct (service_account_auth_enabled s && bool_decide (state_backend s ≠ POSTGRES)) eqn:H2; [done|].
  apply bind_Ok in Hd as ([] & Hp & Hd). cbv zeta in Hd.
  destruct (negb (absent (signer_target s)) && existsb is_none _) eqn:H3; [done|].
  destruct (absent (signer_target s) && existsb _ _) eqn:H4; [done|].
  apply andb_false_iff in H1, H2, H3, H4.
  constructor; [done|..].
  - intros Hb. destruct H1 as [H1|]; [|done]. by rewrite bool_decide_true in H1.
  - intros Ha. destruct H2 as [H2|H2]; [congruence|]. apply bool_decide_eq_false in H2. destruct (state_backend s); naive_solver.
  - intros He. rewrite bool_decide_true in Hp by done.
    destruct (bool_decide (state_backend s ≠ POSTGRES)) eqn:Hb; [done|]. apply bool_decide_eq_false in Hb.
    destruct (bootstrap_development_policy s); [done|]. destruct (absent (rpc_url s)); [done|].
    destruct (absent (signer_target s)); [done|]. split_and!; try done. destruct (state_backend s); naive_solver.
  - intros Ha. destruct H3 as [H3|H3]; [by rewrite Ha in H3|].
    destruct (signer_ca_path s), (signer_client_certificate_path s), (signer_client_private_key_path s); done.
  - intros Ha. destruct H4 as [H4|H4]; [by rewrite Ha in H4|].
    destruct (signer_ca_path s), (signer_client_certificate_path s), (signer_client_private_key_path s); done.
Qed.

Lemma Settings_validate_accepted raw s :
  Settings_validate raw = Ok s → accepted s ∧ s = with_log_level (str_upper (log_level raw)) raw
    ∧ str_upper (log_level raw) ∈ log_levels.
Proof.
  unfold Settings_validate. rewrite raise_if_bind. intros Hv.
  destruct (settings_fields raw) eqn:Hf; [|done]. cbn [negb] in Hv.
  apply bind_Ok in Hv as (level & Hl & Hv). apply try_except_Ok in Hl; [|done].
  unfold normalize_log_level in Hl. rewrite raise_if_bind in Hl.
  destruct (is_in (str_upper (log_level raw)) log_levels) eqn:Hin; [|done]. injection Hl as <-.
  apply bind_Ok in Hv as ([] & Hd & Hv). apply try_except_Ok in Hd; [|done]. injection Hv as <-.
  split; [|split; [done|by apply is_in_true]]. by apply durable_accepted.
Qed.

(** * The protocol of policy stores *)

(** What a store promises its clients: seen as a registry, every operation answers as the
    registry's does and leaves the store seen as the registry it leaves.  A store may refuse
    a second version of a policy it holds already ([ps_taken], by its hash): [create] then
    raises and leaves the store as it was. *)
Class PolicyStoreLaw `{!Externals} (S : Type) `{!PolicyStore S} := {
  ps_view : PolicyRegistry → S → Prop;
  ps_taken : string → S → bool;
  ps_view_inv r s : ps_view r s → registry_inv r;
  ps_create_law id now policy h by_ r s : ps_view r s → _versions r !! id = None →
    PolicyV1_validate policy = Ok policy → policy_hash policy = Ok h → ps_taken h s = false →
    ps_view (fst (registry_create id now policy by_ r)) (fst (ps_create id now policy by_ s))
    ∧ snd (ps_create id now policy by_ s) = snd (registry_create id now policy by_ r);
  ps_taken_law id now policy h by_ r s : ps_view r s → _versions r !! id = None →
    policy_hash policy = Ok h → ps_taken h s = true →
    ∃ e, ps_create id now policy by_ s = (s, Err e);
  ps_approve_law id admin r s : ps_view r s →
    ps_view (fst (registry_approve id admin r)) (fst (ps_approve id admin s))
    ∧ snd (ps_approve id admin s) = snd (registry_approve id admin r);
  ps_activate_law now id by_ r s : ps_view r s →
    ps_view (fst (registry_activate now id by_ r)) (fst (ps_activate now id by_ s))
    ∧ snd (ps_activate now id by_ s) = snd (registry_activate now id by_ r);
  ps_active_law r s : ps_view r s → ps_active s = (s, snd (registry_active r));
}.

Section stores.
Context `{!Externals}.

Lemma registry_active_same r : fst (registry_active r) = r.
Proof. unfold registry_active, read, lift, mbind, M_bind. cbn. by destruct (_active_id r). Qed.

#[export] Instance registry_store_law : PolicyStoreLaw PolicyRegistry.
Proof.
  refine {| ps_view r s := registry_inv r ∧ s = r; ps_taken _ _ := false |};
    cbn; [by intros ?? []|intros * [Hi ->] Hf _ _ _|done|intros * [Hi ->]..].
  - split; [|done]. split; [|done]. by apply (registry_step_inv (OpCreate id now policy by_)).
  - split; [|done]. split; [|done]. by apply (registry_step_inv (OpApprove id admin)).
  - split; [|done]. split; [|done]. by apply (registry_step_inv (OpActivate now id by_)).
  - by rewrite (surjective_pairing (registry_active r)), registry_active_same.
Defined.

Lemma required_version_same id db : fst (required_version id db) = db.
Proof.
  unfold required_version, pg_version, lift, self, mbind, M_bind. cbn.
  destruct (t_policy_versions db !! id) as [row|]; [|done]. by destruct (PolicyV1_validate _).
Qed.

Lemma pg_policy_active_same db : fst (pg_policy_active db) = db.
Proof.
  unfold pg_policy_active, lift, self, mbind, M_bind. cbn.
  destruct (select_row _ _) as [[id row]|]; [|done]. cbn. apply required_version_same.
Qed.

Lemma pol_fresh r s id : pol_sim r s → _versions r !! id = None → t_policy_versions s !! id = None.
Proof. intros Hs Hf. pose proof (pol_rows _ _ Hs id) as Ho. rewrite Hf in Ho. by inversion Ho. Qed.

Lemma policy_hash_fits `{!Sha256Length} policy h : policy_hash policy = Ok h → char_n 66 h = true.
Proof.
  unfold policy_hash. intros (b & _ & ->)%fmap_Ok. unfold char_n, sha256_hex.
  rewrite str_length_app, hex_length, sha256_length. done.
Qed.

(** The hashes of the table are unique. *)
#[export] Instance postgres_store_law `{!Sha256Length} : PolicyStoreLaw PgPolicies.
Proof.
  refine {| ps_view r s := registry_inv r ∧ pol_sim r s;
            ps_taken h s := exists_row (λ r, bool_decide (vr_policy_hash r = h)) (t_policy_versions s) |};
    cbn [ps_create ps_approve ps_activate ps_active postgres_store];
    [by intros ?? []|intros * [Hi Hs] Hf Hval Hh Hnew|intros * [_ Hs] Hf Hh Htaken|intros * [Hi Hs]..].
  - destruct (create_sim id now policy by_ r s Hs Hf) as [? ?].
    { split; [done|]. intros h' Hh'. rewrite Hh in Hh'. injection Hh' as <-.
      split; [by eapply policy_hash_fits|]. intros k row Hk.
      rewrite exists_row_false in Hnew. specialize (Hnew k row Hk).
      by apply bool_decide_eq_false in Hnew. }
    split; [|done]. split; [|done]. by apply (registry_step_inv (OpCreate id now policy by_)).
  - exists (UniqueViolation "policy_versions_policy_hash_key").
    unfold pg_policy_create, transaction, lift, self, mbind, M_bind.
    rewrite Hh, (policy_hash_fits policy h Hh), (pol_fresh r s id Hs Hf), Htaken. done.
  - destruct (approve_sim id admin r s Hs). split; [|done]. split; [|done].
    by apply (registry_step_inv (OpApprove id admin)).
  - destruct (activate_sim now id by_ r s Hi Hs). split; [|done]. split; [|done].
    by apply (registry_step_inv (OpActivate now id by_)).
  - rewrite (surjective_pairing (pg_policy_active s)), pg_policy_active_same. f_equal. symmetry.
    by apply pg_policy_active_sim.
Defined.

#[export] Instance either_store_law A B `{!PolicyStore A, !PolicyStore B, !PolicyStoreLaw A, !PolicyStoreLaw B} :
  PolicyStoreLaw (A + B).
Proof.
  refine {| ps_view r s := match s with inl a => ps_view r a | inr b => ps_view r b end;
            ps_taken h s := match s with inl a => ps_taken h a | inr b => ps_taken h b end |};
    cbn [ps_create ps_approve ps_activate ps_active either_store]; unfold on_either.
  - intros r [a|b]; apply ps_view_inv.
  - intros id now policy h by_ r [a|b] Hv Hf Hp Hh Ht;
      [pose proof (ps_create_law id now policy h by_ r a Hv Hf Hp Hh Ht)
      |pose proof (ps_create_law id now policy h by_ r b Hv Hf Hp Hh Ht)];
      by destruct (ps_create _ _ _ _ _).
  - intros id now policy h by_ r [a|b] Hv Hf Hh Ht;
      [destruct (ps_taken_law id now policy h by_ r a Hv Hf Hh Ht) as [e ->]
      |destruct (ps_taken_law id now policy h by_ r b Hv Hf Hh Ht) as [e ->]]; by exists e.
  - intros id admin r [a|b] Hv; [pose proof (ps_approve_law id admin r a Hv)
      |pose proof (ps_approve_law id admin r b Hv)]; by destruct (ps_approve _ _ _).
  - intros now id by_ r [a|b] Hv; [pose proof (ps_activate_law now id by_ r a Hv)
      |pose proof (ps_activate_law now id by_ r b Hv)]; by destruct (ps_activate _ _ _ _).
  - intros r [a|b] Hv; by rewrite (ps_active_law _ _ Hv).
Defined.
End stores.

(** * Bootstrapping *)

Section bootstrapping.
Context `{!Externals} {S : Type} `{!PolicyStore S, !PolicyStoreLaw S}.

(** A computation of the store simulates one of the registry. *)
Definition simulates {A} (n : M S A) (m : M PolicyRegistry A) (s : S) (r : PolicyRegistry) : Prop :=
  ps_view (fst (m r)) (fst (n s)) ∧ snd (n s) = snd (m r).

Lemma simulates_bind {A B} (n : M S A) m (g : A → M S B) f s r :
  simulates n m s r →
  (∀ a s' r', n s = (s', Ok a) → m r = (r', Ok a) → ps_view r' s' → simulates (g a) (f a) s' r') →
  simulates (n ≫= g) (m ≫= f) s r.
Proof.
  unfold simulates, mbind, M_bind. intros [Hv He] Hk.
  destruct (n s) as [s' x], (m r) as [r' y]. cbn in Hv, He. subst x. destruct y as [a|e]; [|done]. by apply Hk.
Qed.

Lemma create_development_simulates d policy h s r :
  ps_view r s → _versions r !! bd_version d = None → PolicyV1_validate policy = Ok policy →
  policy_hash policy = Ok h → ps_taken h s = false →
  simulates (create_development_policy d (Ok policy)) (create_development_policy d (Ok policy)) s r.
Proof.
  intros Hv Hf Hp Hh Ht. unfold create_development_policy.
  apply (simulates_bind (lift _) (lift _)); [by split|]. intros p s' r' [= <- <-] [= <-] _.
  apply simulates_bind; [by eapply ps_create_law|intros v s1 r1 _ _ Hv1].
  apply simulates_bind; [by apply ps_approve_law|intros _ s2 r2 _ _ Hv2].
  apply simulates_bind; [by apply ps_approve_law|intros _ s3 r3 _ _ Hv3].
  apply simulates_bind; [by apply ps_activate_law|intros _ s4 r4 _ _ Hv4]. by split.
Qed.

Lemma bootstrap_view d document s r :
  ps_view r s →
  bootstrap d document s =
  if decide (is_Some (_active_id r)) then (s, Ok tt) else create_development_policy d document s.
Proof.
  intros Hv. pose proof (ps_view_inv r s Hv) as Hi. unfold bootstrap, try_m, mbind at 1, M_bind.
  rewrite (ps_active_law r s Hv). unfold registry_active, read, lift, mbind, M_bind.
  destruct (_active_id r) as [id|] eqn:Hid; [|done].
  destruct (inv_active r Hi id Hid) as (v & Hl & _). cbn. by rewrite Hl.
Qed.

(** The version the bootstrap leaves active. *)
Definition bootstrapped (d : boot_draws) (policy : PolicyV1) (h : string) : PolicyVersion :=
  {| version_id := bd_version d; v_policy := policy; v_policy_hash := h; v_status := ACTIVE;
     created_by := "development-bootstrap"; v_created_at := bd_created_at d;
     approvals := {[ "development-admin-a"; "development-admin-b" ]};
     activated_at := Some (bd_activated_at d); activated_by := Some "development-admin-a" |}.

Lemma approve_step id a r v :
  registry_inv r → _versions r !! id = Some v → is_in (v_status v) [ACTIVE; RETIRED] = false →
  ∃ r', registry_approve id a r = (r', Ok (approve_version a v)) ∧ registry_inv r'
    ∧ _versions r' !! id = Some (approve_version a v).
Proof.
  intros Hi Hv Hst. pose proof (registry_step_inv (OpApprove id a) r Hi I) as Hi'. cbn [registry_run] in Hi'.
  rewrite registry_approve_spec, Hv, Hst in Hi' |- *. eexists. split; [done|]. split; [done|]. apply lookup_insert_eq.
Qed.

(** Two approvals by different administrators, then the activation. *)
Lemma create_development_registry d policy h r :
  registry_inv r → policy_hash policy = Ok h → _versions r !! bd_version d = None →
  ∃ r', create_development_policy d (Ok policy) r = (r', Ok tt) ∧ _active_id r' = Some (bd_version d)
    ∧ _versions r' !! bd_version d = Some (bootstrapped d policy h).
Proof.
  intros Hi Hh Hn. unfold create_development_policy, lift, mbind, M_bind.
  cbn [ps_create ps_approve ps_activate registry_store].
  pose proof (registry_step_inv (OpCreate (bd_version d) (bd_created_at d) policy "development-bootstrap") r Hi Hn)
    as Hi1. cbn [registry_run] in Hi1.
  rewrite registry_create_spec, Hh in Hi1 |- *. cbv zeta in Hi1 |- *. cbn [version_id fst] in Hi1 |- *.
  edestruct (approve_step (bd_version d) "development-admin-a") as (r2 & -> & Hi2 & Hv2);
    [exact Hi1|apply lookup_insert_eq|done|].
  edestruct (approve_step (bd_version d) "development-admin-b") as (r3 & -> & Hi3 & Hv3);
    [exact Hi2|exact Hv2|done|].
  rewrite registry_activate_spec, Hv3 by done. set (v := approve_version _ _).
  assert (approvals v = {[ "development-admin-a"; "development-admin-b" ]}) as Happ by reflexivity.
  rewrite Happ, bool_decide_false by (by apply Nat.nlt_ge; vm_compute; lia).
  eexists. split; [done|]. split; [done|]. cbn [_versions]. by rewrite lookup_insert_eq.
Qed.

Lemma create_development_taken d policy h s r :
  ps_view r s → _versions r !! bd_version d = None → policy_hash policy = Ok h →
  ps_taken h s = true → ∃ e, create_development_policy d (Ok policy) s = (s, Err e).
Proof.
  intros Hv Hf Hh Ht. unfold create_development_policy, lift, mbind, M_bind.
  destruct (ps_taken_law (bd_version d) (bd_created_at d) policy h "development-bootstrap" r s Hv Hf Hh Ht)
    as [e ->]. by exists e.
Qed.

End bootstrapping.

(** * Wiring *)

Section wiring.
Context `{!Externals}.
Variable urlparse : string → result UrlParts.
Variable is_loopback : string → option bool.
Variable read_file : string → result bytes.
Variable receipt : RpcBackend → string → receipt_answer.

(** An endpoint the service may talk to. *)
Definition safe_endpoint (url : string) : Prop :=
  ∃ parts, urlparse url = Ok parts ∧ url_credentials parts = false ∧ url_hostname parts ≠ ""
  ∧ (url_scheme parts = "https"
     ∨ url_scheme parts = "http" ∧ (url_hostname parts = "localhost" ∨ is_loopback (url_hostname parts) = Some true)).

Lemma validate_url_safe url : _validate_url urlparse is_loopback url false = Ok tt → safe_endpoint url.
Proof.
  unfold _validate_url. intros (parts & Hp & Hv)%bind_Ok. exists parts. rewrite !raise_if_bind in Hv.
  destruct (url_credentials parts); [done|]. unfold str_truthy in Hv.
  case_bool_decide as Hh; [|done]. cbn [negb] in Hv. apply raise_if_Ok in Hv. split_and!; [done..|].
  destruct (decide (url_scheme parts = "https")) as [|Hs]; [by left|right].
  rewrite (bool_decide_true (_ ≠ _)) in Hv by done. cbn [andb] in Hv.
  apply negb_false_iff, andb_true_iff in Hv as [Hs'%bool_decide_eq_true Hl]. split; [done|].
  rewrite orb_false_r in Hl. apply orb_true_iff in Hl as [Hl%bool_decide_eq_true|Hl]; [by left|right].
  by destruct (is_loopback _) as [[]|].
Qed.

Lemma JsonRpcChainBackend_init_Ok url chain auth finality insecure b :
  JsonRpcChainBackend_init urlparse is_loopback url chain auth finality insecure = Ok b →
  _validate_url urlparse is_loopback url insecure = Ok tt
  ∧ rb_url b = url ∧ jb_chain_id (rb_chain b) = chain ∧ rb_finality b = finality ∧ 1 ≤ finality.
Proof.
  unfold JsonRpcChainBackend_init. intros ([] & Hu & Hb)%bind_Ok. rewrite !raise_if_bind in Hb.
  destruct (chain <=? 0) eqn:Hc; [done|]. destruct (finality <? 1) eqn:Hf; [done|].
  injection Hb as <-. prop_of_bool. done.
Qed.

(** The assertions on the paths never fire for a target that is not empty; for an empty one
    they do. *)
Lemma build_signer_eq s :
  accepted s →
  build_signer read_file s =
  match signer_target s with
  | None => Ok None
  | Some "" => Err AssertionError
  | Some target => Some <$> GrpcSignerClient_init read_file target (signer_ca_path s)
                     (signer_client_certificate_path s) (signer_client_private_key_path s) (signer_timeout_seconds s)
  end.
Proof.
  intros Hs. unfold build_signer, assert_some.
  destruct (signer_target s) as [t|] eqn:Ht; [|done]. rewrite !raise_if_bind. destruct t as [|c t].
  - destruct (ac_no_tls s Hs) as (-> & _ & _); [by rewrite Ht|].
    by rewrite bool_decide_true by (by intros []).
  - destruct (ac_tls s Hs) as (Hca & Hce & Hk); [by rewrite Ht|].
    rewrite !bool_decide_false by auto. by destruct (GrpcSignerClient_init _ _ _ _ _ _).
Qed.

Lemma GrpcSignerClient_init_Ok target ca cert key timeout c :
  GrpcSignerClient_init read_file target ca cert key timeout = Ok c →
  gc_target c = target ∧ target ≠ "" ∧ contains_text "://" target = false
  ∧ ca ≫= (λ p, Some (read_file p)) = Some (Ok (gc_root c))
  ∧ cert ≫= (λ p, Some (read_file p)) = Some (Ok (gc_certificate c))
  ∧ key ≫= (λ p, Some (read_file p)) = Some (Ok (gc_key c)).
Proof.
  unfold GrpcSignerClient_init. rewrite !raise_if_bind. intros Hc.
  destruct (fle _ _); [done|]. unfold str_truthy in Hc. case_bool_decide as Hn; [|done].
  destruct (contains_text _ _) eqn:Ht; [done|]. cbn in Hc. destruct ca as [ca|], cert as [cert|], key as [key|]; try done.
  apply bind_Ok in Hc as (a & Ha & Hc). apply bind_Ok in Hc as (k & Hk & Hc). apply bind_Ok in Hc as (e & He & Hc).
  injection Hc as <-. cbn. by rewrite Ha, Hk, He.
Qed.

(** The backends and the reconciler of a service with an endpoint. *)
Lemma build_backends_Ok s url m :
  rpc_url s = Some url → build_backends urlparse is_loopback s = Ok m →
  ∃ b, m = {[ rpc_chain_id s := b ]} ∧ rb_url b = url ∧ jb_chain_id (rb_chain b) = rpc_chain_id s
    ∧ rb_finality b = finality_confirmations s ∧ 1 ≤ rb_finality b
    ∧ (environment s = PRODUCTION → safe_endpoint url)
    ∧ build_reconciler receipt m (finality_confirmations s) =
        Ok (Some {| rc_backends := λ chain, receipt <$> m !! chain; rc_finality := rb_finality b |}).
Proof.
  intros Hu. unfold build_backends. rewrite Hu. intros (b & Hb & [= <-])%bind_Ok. exists b.
  apply JsonRpcChainBackend_init_Ok in Hb as (Hv & Hurl & Hc & Hf & Hpos). rewrite Hf. split_and!; try done.
  - intros He. rewrite bool_decide_false in Hv by naive_solver. by apply validate_url_safe.
  - unfold build_reconciler. rewrite bool_decide_false by apply map_non_empty_singleton.
    rewrite map_to_list_singleton. unfold reconciler_init. rewrite !raise_if_bind. cbn [fmap list_fmap map].
    rewrite (proj2 (Z.ltb_ge _ _)) by done. cbn. by rewrite Hc, Z.eqb_refl.
Qed.

Lemma accepted_lifetime s : accepted s → 1 ≤ policy_decision_lifetime_seconds s ≤ 300.
Proof.
  intros Hs. pose proof (ac_fields s Hs) as Hf. unfold settings_fields, int_between in Hf.
  repeat (apply andb_true_iff in Hf as [Hf ?]). prop_of_bool. lia.
Qed.

(** What a service that started in production is made of. *)
Record hardened (s : Settings) (svc : Services) (c : GrpcSignerClient) (b : RpcBackend) : Prop := {
  hd_durable : sv_durable svc = true;
  hd_signer : sv_signer svc = Some c;
  hd_target : signer_target s = Some (gc_target c) ∧ gc_target c ≠ "" ∧ contains_text "://" (gc_target c) = false;
  hd_mtls : ∃ ca cert key, read_file ca = Ok (gc_root c) ∧ read_file cert = Ok (gc_certificate c)
    ∧ read_file key = Ok (gc_key c);
  hd_backend : sv_chain_backends svc = {[ rpc_chain_id s := b ]} ∧ jb_chain_id (rb_chain b) = rpc_chain_id s;
  hd_endpoint : rpc_url s = Some (rb_url b) ∧ safe_endpoint (rb_url b);
  hd_reconciler : ∃ rc, sv_settlement_reconciler svc = Some rc ∧ rc_finality rc = rb_finality b
    ∧ 1 ≤ rc_finality rc ∧ rc_backends rc (rpc_chain_id s) = Some (receipt b);
}.

Lemma wire_production {T} `{!PolicyStore T} s d read_policy (st : T) :
  accepted s → environment s = PRODUCTION →
  fst (wire_services urlparse is_loopback read_file receipt s d read_policy st) = st
  ∧ ∀ svc, snd (wire_services urlparse is_loopback read_file receipt s d read_policy st) = Ok svc →
      ∃ c b, hardened s svc c b.
Proof.
  intros Hs He. destruct (ac_production s Hs He) as (Hpg & Hboot & Hrpc & Htarget).
  apply absent_false in Hrpc as (url & Hurl & _). pose proof Htarget as Htarget'.
  apply absent_false in Htarget' as (target & Ht & Hne).
  unfold wire_services, lift, mbind, M_bind. rewrite Hboot. cbn [mret M_ret].
  rewrite (build_signer_eq s Hs), Ht. destruct target as [|x target]; [done|].
  destruct (GrpcSignerClient_init _ _ _ _ _ _) as [c|] eqn:Hc; [|done]. cbn [fmap result_fmap].
  destruct (build_backends urlparse is_loopback s) as [m|] eqn:Hm; [|done].
  destruct (build_backends_Ok s url m Hurl Hm) as (b & Hb & Hbu & Hbc & Hbf & Hpos & Hsafe & Hrec).
  rewrite Hrec. cbn. split; [done|]. intros svc [= <-]. exists c, b.
  apply GrpcSignerClient_init_Ok in Hc as (Hct & Hcn & Hcs & Hca & Hce & Hk).
  destruct (ac_tls s Hs Htarget) as ([ca Eca] & [ce Ece] & [k Ek]). rewrite Eca, Ece, Ek in *.
  injection Hca as Hca. injection Hce as Hce. injection Hk as Hk. constructor; cbn; try done.
  - by rewrite bool_decide_true.
  - by rewrite Hct.
  - by exists ca, ce, k.
  - rewrite Hbu. auto.
  - eexists. split; [done|]. split_and!; [done..|]. cbn. subst m. by rewrite lookup_singleton_eq.
Qed.

Lemma build_services_opens s d read_policy db :
  accepted s →
  build_services urlparse is_loopback read_file receipt s d read_policy db =
  Ok (wire_services urlparse is_loopback read_file receipt s d read_policy
        (if bool_decide (state_backend s = POSTGRES) then inr db else inl registry_init)).
Proof.
  intros Hs. unfold build_services, open_policies. case_bool_decide as Hp; [|done].
  destruct (proj1 (absent_false _) (ac_database s Hs Hp)) as (url & -> & _). done.
Qed.

Lemma wire_decisions {T} `{!PolicyStore T} s d read_policy (st : T) svc :
  snd (wire_services urlparse is_loopback read_file receipt s d read_policy st) = Ok svc →
  lifetime_seconds (sv_decisions svc) = policy_decision_lifetime_seconds s.
Proof.
  unfold wire_services. set (boot := if bootstrap_development_policy s then _ else _).
  unfold lift, mbind, M_bind. destruct (boot st) as [st' [[]|]]; [|done].
  destruct (build_signer _ _); [|done]. destruct (build_backends _ _ _); [|done].
  destruct (build_reconciler _ _ _); [|done]. by intros [= <-].
Qed.

(** C29: starting with accepted settings.  The wiring reaches the services without an assertion
    but for an empty signer target, on which it raises.  In production it leaves the policies of
    the database as they are and, if it starts at all, the service is durable, signs through a
    client that authenticates both ways with the three files at a target that is no URL, and
    talks to one endpoint: that of its chain, without credentials in the address, over HTTPS or
    on the local host, watched by a reconciler with the endpoint's positive finality.  Decisions
    live one to 300 seconds, and service credentials are accepted only with a database. *)
Theorem startup_fails_closed raw s d read_policy db :
  Settings_validate raw = Ok s →
  ∃ policies started,
    build_services urlparse is_loopback read_file receipt s d read_policy db = Ok (policies, started)
  ∧ build_signer read_file s =
      match signer_target s with
      | None => Ok None
      | Some "" => Err AssertionError
      | Some target => Some <$> GrpcSignerClient_init read_file target (signer_ca_path s)
                         (signer_client_certificate_path s) (signer_client_private_key_path s) (signer_timeout_seconds s)
      end
  ∧ (environment s = PRODUCTION →
      policies = inr db ∧ (∃ url, database_url s = Some url ∧ url ≠ "")
      ∧ ∀ svc, started = Ok svc → ∃ c b, hardened s svc c b)
  ∧ (∀ svc, started = Ok svc → 1 ≤ lifetime_seconds (sv_decisions svc) ≤ 300)
  ∧ (service_account_auth_enabled s = true → absent (database_url s) = false).
Proof.
  intros (Hs & _ & _)%Settings_validate_accepted. rewrite (build_services_opens s d read_policy db Hs).
  eexists _, _. split; [f_equal; apply surjective_pairing|]. split_and!.
  - by apply build_signer_eq.
  - intros He. destruct (ac_production s Hs He) as (Hpg & _).
    destruct (proj1 (absent_false _) (ac_database s Hs Hpg)) as (url & Hu & Hn).
    destruct (wire_production s d read_policy
      (if bool_decide (state_backend s = POSTGRES) then inr db else inl registry_init) Hs He) as [-> Hsvc].
    rewrite bool_decide_true by done. split_and!; eauto.
    by rewrite bool_decide_true in Hsvc by done.
  - intros svc Hsvc. rewrite (wire_decisions s d read_policy _ svc Hsvc). by apply accepted_lifetime.
  - intros Ha. apply (ac_database s Hs), (ac_accounts s Hs Ha).
Qed.
End wiring.

(** * Witnesses *)

Definition production_settings : Settings :=
  {| environment := PRODUCTION; organization_id := "treasury"; deployment_environment_id := "eu-1";
     state_backend := POSTGRES; database_url := Some "postgresql://db/aegis";
     service_account_auth_enabled := true; policy_signing_seed := "seed";
     policy_decision_lifetime_seconds := 30; bootstrap_development_policy := false;
     development_policy_path := "configs/policy.dev.json"; allowed_build_measurements := ["m1"];
     experiment_output_root := "artifacts/experiments"; experiment_max_active_per_principal := 2;
     rate_limit_requests := 120; rate_limit_window_seconds := 60; request_max_bytes := 1000000;
     commit_sha := "0123456789012345678901234567890123456789"; log_level := "info";
     signer_target := Some "signer:7443"; signer_ca_path := Some "ca.pem";
     signer_client_certificate_path := Some "client.pem"; signer_client_private_key_path := Some "client.key";
     signer_timeout_seconds := round_ratio 5 1; rpc_url := Some "https://rpc.example"; rpc_chain_id := 1;
     rpc_authorization_header := None; rpc_timeout_seconds := round_ratio 10 1; finality_confirmations := 12;
     eip712_domain_separator := "0x" +:+ hex (replicate 32 Byte.x00); api_port := 8000 |}.

Definition sample_urlparse (url : string) : result UrlParts :=
  Ok (if startswith "https://" url
      then {| url_scheme := "https"; url_hostname := "rpc.example"; url_credentials := false |}
      else {| url_scheme := "http"; url_hostname := "rpc.example"; url_credentials := false |}).
Definition sample_start : result ((PolicyRegistry + PgPolicies) * result Services) :=
  @build_services sample_urlparse (λ _, None) (λ path, Ok (encode path)) sized_externals
    (λ _ _, NoReceipt) (with_log_level "INFO" production_settings)
    {| bd_version := 1; bd_created_at := 0; bd_activated_at := 0 |}
    (λ _, Ok sample_policy) pg_policies_init.

(** A production service starts. *)
Lemma startup_fails_closed_witness :
  ∃ svc c b, sample_start = Ok (inr pg_policies_init, Ok svc)
    ∧ hardened sample_urlparse (λ _, None) (λ path, Ok (encode path)) (λ _ _, NoReceipt)
        (with_log_level "INFO" production_settings) svc c b ∧ gc_target c = "signer:7443".
Proof.
  destruct (@startup_fails_closed sized_externals sample_urlparse (λ _, None) (λ path, Ok (encode path))
    (λ _ _, NoReceipt) production_settings (with_log_level "INFO" production_settings)
    {| bd_version := 1; bd_created_at := 0; bd_activated_at := 0 |}
    (λ _, Ok sample_policy) pg_policies_init) as (policies & started & Hb & _ & Hp & _); [vm_compute; reflexivity|].
  destruct (Hp eq_refl) as (-> & _ & Hs).
  unfold sample_start. rewrite Hb. destruct started as [svc|e].
  - destruct (Hs svc eq_refl) as (c & b & Hh). exists svc, c, b. split_and!; [done..|].
    destruct (hd_target _ _ _ _ _ _ _ _ Hh) as ([= Ht] & _). by symmetry.
  - vm_compute in Hb. discriminate Hb.
Defined.

(** PostgreSQL is bootstrapped from nothing; after a start that was interrupted between the
    creation and the activation, the next start raises. *)
Definition boot_1 : boot_draws := {| bd_version := 1; bd_created_at := 0; bd_activated_at := 0 |}.
Definition boot_2 : boot_draws := {| bd_version := 2; bd_created_at := 5; bd_activated_at := 5 |}.
Definition interrupted : PgPolicies :=
  fst (@pg_policy_create sized_externals 1 0 sample_policy "development-bootstrap" pg_policies_init).

Lemma sample_policy_hash : ∃ h, @policy_hash sized_externals sample_policy = Ok h.
Proof. eexists. vm_compute. reflexivity. Qed.

Lemma interrupted_view :
  @ps_view sized_externals PgPolicies _ (@postgres_store_law sized_externals sized_sha256_length)
    (fst (@registry_create sized_externals 1 0 sample_policy "development-bootstrap" registry_init))
    interrupted.
Proof.
  destruct sample_policy_hash as [h Hh].
  apply (@ps_create_law sized_externals PgPolicies _
    (@postgres_store_law sized_externals sized_sha256_length) 1 0 sample_policy h "development-bootstrap").
  - split; [apply registry_init_inv|apply pol_sim_init].
  - reflexivity.
  - vm_compute. reflexivity.
  - exact Hh.
  - reflexivity.
Qed.

