(* ===== verification/Evaluation.v ===== *)
(** The experiment runner (src/agentguard-testbed/src/aegisledger/evaluation.py) with the rows
    it reports (attacks/base.py, eval/harness.py): the statistics in binary64, the raw runs and
    the summary, and the publication of a result directory.

    A file holds a JSON value, rows of them, or other text; a value written is read back with
    its keys sorted.  The result directories and the temporary ones beside them are the entries
    of one directory; a temporary name starts with a dot and so is never that of a result.
    Readings of the clock, the suffix [mkdtemp] draws, a failing file operation and pydantic's
    reading of a manifest are arguments. *)
From Stdlib Require Import ZArith Lia Ascii String.
From stdpp Require Import base gmap sets list strings pretty sorting.
From S2P Require Import Prelude Bytes Float64 Canonical Contracts Agents Testbed Attacks Tasks Experiments.

Open Scope Z_scope.

(** * Statistics *)

Definition float_literal (digits scale : Z) : float := round_ratio digits (10 ^ scale).

(** The default of [z] *)
Definition wilson_z : float := float_literal 1959963984540054 15.

(** [max(0.0, x)] and [min(1.0, x)]: the first unless the second beats it. *)
Definition fmax (x y : float) : float := if flt x y then y else x.
Definition fmin (x y : float) : float := if flt y x then y else x.
Definition fzero : float := round_ratio 0 1.
Definition fone : float := round_ratio 1 1.

Definition wilson_interval (successes trials : Z) (z : float) : result (float * float) :=
  if trials =? 0 then Ok (fzero, fone)
  else
    proportion ← int_div successes trials;
    n ← float_of_int trials;
    n2 ← float_of_int (2 * trials);
    nn4 ← float_of_int (4 * trials * trials);
    zz_n ← fdiv (fmul z z) n;
    zz_2n ← fdiv (fmul z z) n2;
    zz_4nn ← fdiv (fmul z z) nn4;
    let denominator := fadd fone zz_n in
    center ← fdiv (fadd proportion zz_2n) denominator;
    variance ← fdiv (fmul proportion (fsub fone proportion)) n;
    root ← fsqrt (fadd variance zz_4nn);
    margin ← fdiv (fmul z root) denominator;
    Ok (fmax fzero (fsub center margin), fmin fone (fadd center margin)).

Definition fle_rel (x y : float) : Prop := fle x y = true.
#[export] Instance fle_rel_dec : RelDecision fle_rel.
Proof. intros x y. unfold fle_rel. apply _. Defined.
(** [sorted(values)] of floats that are numbers. *)
Definition fsorted (values : list float) : list float := merge_sort fle_rel values.

(** [math.ceil(x)] *)
Definition fceil (x : float) : result Z :=
  match x with
  | Fin m e => Ok (- ((- f_num m e) / f_den e))
  | Nan => Err (ValueError "cannot convert float NaN to integer")
  | Inf _ => Err (OverflowError "cannot convert float infinity to integer")
  end.

Definition _percentile (values : list float) (percentile : float) : result float :=
  let ordered := fsorted values in
  n ← float_of_int (Z.of_nat (length ordered));
  rank ← fceil (fmul percentile n);
  or_raise (ordered !! Z.to_nat (Z.max 0 (rank - 1))) (IndexError "list index out of range").

(** [statistics.median] *)
Definition median (values : list float) : result float :=
  let ordered := fsorted values in
  let n := length ordered in
  raise_if (Nat.eqb n 0) (ValueError "no median for empty data");;
  if Nat.odd n then or_raise (ordered !! (n / 2)%nat) (IndexError "list index out of range")
  else
    low ← or_raise (ordered !! (n / 2 - 1)%nat) (IndexError "list index out of range");
    high ← or_raise (ordered !! (n / 2)%nat) (IndexError "list index out of range");
    fdiv (fadd low high) (round_ratio 2 1).

(** * Rows *)

(** [AttackResult.row] *)
Definition attack_row (r : AttackResult) : result (list (pykey * pyval)) :=
  success ← success_rate r;
  loss ← avg_loss_usdc r;
  detection ← detection_rate r;
  Ok [(KStr "attack", PStr (at_name r)); (KStr "defense", PStr (at_defense r)); (KStr "runs", PInt (at_n_runs r));
      (KStr "success_rate", PFloat (fround 3 success)); (KStr "avg_loss_usdc", PFloat (fround 2 loss));
      (KStr "detection_rate", PFloat (fround 3 detection))].

(** A row of [run_utility_matrix] *)
Definition utility_row (e : string * TaskOutcome) : result (list (pykey * pyval)) :=
  u ← utility e.2;
  spent ← int_div (to_spent_micro e.2) 1000000;
  Ok [(KStr "mode", PStr e.1); (KStr "task", PStr (to_task e.2)); (KStr "utility", PFloat (fround 3 u));
      (KStr "completed", PInt (to_completed e.2)); (KStr "attempted", PInt (to_attempted e.2));
      (KStr "spent_usdc", PFloat (fround 2 spent))].

Fixpoint rows_of {A B} (f : A → result B) (l : list A) : result (list B) :=
  match l with
  | [] => Ok []
  | x :: l => y ← f x; ys ← rows_of f l; Ok (y :: ys)
  end.

Section runner.
Context `{!Externals}.
Variable safe_load : string → string + pyval.

(** [run_attack_matrix] *)
Definition run_attack_matrix (n_runs : nat) : M Z (list (list (pykey * pyval))) :=
  results ← run_attack_results safe_load n_runs "evaluation" [];
  lift (rows_of attack_row results).

Definition run_row (spec : ExperimentSpecV1) (r : AttackResult) (index : nat) (o : RunOutcome) : pyval :=
  PDict
    [(KStr "schema_version", PStr "aegisledger.raw_run.v1");
     (KStr "experiment_id", PStr (uuid_str (es_experiment_id spec)));
     (KStr "attack", PStr (at_name r));
     (KStr "defense", PStr (at_defense r));
     (KStr "run_index", PInt (Z.of_nat index));
     (KStr "run_seed", PStr (es_seed spec +:+ ":" +:+ at_name r +:+ ":" +:+ at_defense r +:+ ":" +:+ pretty index));
     (KStr "attempted", PBool (ro_attempted o));
     (KStr "succeeded", PBool (ro_succeeded o));
     (KStr "detected", PBool (ro_detected o));
     (KStr "loss_base_units", PInt (ro_loss_micro o));
     (KStr "attacker_gain_base_units", PInt (ro_attacker_gain_micro o));
     (KStr "notes", PStr (ro_notes o))].

Definition raw_runs_of (spec : ExperimentSpecV1) (results : list AttackResult) : list pyval :=
  concat (map (λ r, imap (run_row spec r) (at_outcomes r)) results).

Definition pair_of (e : float * float) : pyval := PList [PFloat (fround 4 e.1); PFloat (fround 4 e.2)].

Definition metrics_of (r : AttackResult) : result pyval :=
  let n := Z.of_nat (length (at_outcomes r)) in
  success ← wilson_interval (Z.of_nat (length (List.filter ro_succeeded (at_outcomes r)))) n wilson_z;
  detection ← wilson_interval (Z.of_nat (length (List.filter ro_detected (at_outcomes r)))) n wilson_z;
  row ← attack_row r;
  Ok (PDict (row ++
    [(KStr "success_rate_ci95", pair_of success); (KStr "detection_rate_ci95", pair_of detection);
     (KStr "total_loss_base_units", PInt (total_loss_micro r))])).

(** The clock: when the evaluation started and ended, and around each signature, in
    nanoseconds; and what [platform] answers. *)
Record Measurements := {
  ms_started : Z;
  ms_ended : Z;
  ms_signing : list (Z * Z);
  ms_python : string;
  ms_platform : string;
}.

Definition _measure_signing_overhead (samples : list (Z * Z)) : result (list float) :=
  rows_of (λ s, int_div (s.2 - s.1) 1000000) samples.

Definition sum_of (f : TaskOutcome → Z) (rows : list (string * TaskOutcome)) : Z :=
  foldr (λ e acc, f e.2 + acc) 0 rows.

Definition performance_of (m : Measurements) (runs : Z) : result pyval :=
  elapsed ← int_div (ms_ended m - ms_started m) 1000000000;
  samples ← _measure_signing_overhead (ms_signing m);
  n ← float_of_int runs;
  throughput ← fdiv n (fmax elapsed (float_literal 1 9));
  p50 ← median samples;
  p95 ← _percentile samples (float_literal 95 2);
  Ok (PDict
    [(KStr "evaluation_duration_ms", PFloat (fround 3 (fmul elapsed (round_ratio 1000 1))));
     (KStr "throughput_runs_per_second", PFloat (fround 3 throughput));
     (KStr "local_signing_p50_ms", PFloat (fround 4 p50));
     (KStr "local_signing_p95_ms", PFloat (fround 4 p95))]).

Definition summary_of (spec : ExperimentSpecV1) (m : Measurements) (results : list AttackResult)
    (utility_outcomes : list (string * TaskOutcome)) (raw_runs : list pyval) : result pyval :=
  attack_metrics ← rows_of metrics_of results;
  utility_rows ← rows_of utility_row utility_outcomes;
  let attempted := sum_of to_attempted utility_outcomes in
  let completed := sum_of to_completed utility_outcomes in
  false_positive_rate ← int_div (attempted - completed) (Z.max attempted 1);
  done ← int_div completed (Z.max attempted 1);
  performance ← performance_of m (Z.of_nat (length raw_runs));
  Ok (PDict
    [(KStr "schema_version", PStr "aegisledger.experiment_summary.v1");
     (KStr "experiment_id", PStr (uuid_str (es_experiment_id spec)));
     (KStr "commit_sha", PStr (es_commit_sha spec));
     (KStr "configuration_hash", PStr (es_configuration_hash spec));
     (KStr "seed", PStr (es_seed spec));
     (KStr "model_metadata", metadata_dump (es_model_metadata spec));
     (KStr "attack_metrics", PList attack_metrics);
     (KStr "utility_metrics", PList (map PDict utility_rows));
     (KStr "false_positive_rate", PFloat (fround 4 false_positive_rate));
     (KStr "availability_cost", PFloat (fround 4 (fsub fone done)));
     (KStr "raw_run_count", PInt (Z.of_nat (length raw_runs)));
     (KStr "performance", performance);
     (KStr "runtime", PDict [(KStr "python", PStr (ms_python m)); (KStr "platform", PStr (ms_platform m))])]).

(** What [run] computes before it touches a file: the summary and the raw runs. *)
Definition evaluate (spec : ExperimentSpecV1) (m : Measurements) : M Z (pyval * list pyval) :=
  results ← run_attack_results safe_load (Z.to_nat (es_runs_per_scenario spec)) (es_seed spec)
              (map scenario_value (es_scenarios spec));
  utility_outcomes ← run_utility_matrix safe_load (es_seed spec);
  let raw_runs := raw_runs_of spec results in
  summary ← lift (summary_of spec m results utility_outcomes raw_runs);
  mret (summary, raw_runs).
End runner.

(** * Files *)

Inductive file :=
  | Json (v : pyval)
  | JsonLines (rows : list pyval)
  | Text (text : string).
Abbreviation directory := (gmap string file).

Inductive path := Result (name : string) | Temporary (name suffix : string).

#[export] Instance path_eq_dec : EqDecision path.
Proof. solve_decision. Defined.
#[export] Instance path_countable : Countable path.
Proof.
  refine (inj_countable' (λ p, match p with Result n => inl n | Temporary n s => inr (n, s) end)
    (λ x, match x with inl n => Result n | inr (n, s) => Temporary n s end) _); by intros [].
Defined.

Abbreviation files := (gmap path directory).

(** [json.loads(text)]: one row, with its line end, is a document too. *)
Definition loads (f : file) : result pyval :=
  match f with
  | Json v | JsonLines [v] => Ok v
  | _ => Err (ValueError "Expecting value")
  end.

(** [json.loads] of every line: an indented document that is not empty spans several, of which
    the first is none. *)
Definition loads_lines (f : file) : result (list pyval) :=
  match f with
  | JsonLines rows => Ok rows
  | Json (PDict (_ :: _)) | Json (PList (_ :: _)) => Err (ValueError "Expecting value")
  | Json v => Ok [v]
  | Text text => if bool_decide (text = "") then Ok [] else Err (ValueError "Expecting value")
  end.

(** [tempfile.mkdtemp], whose suffix is not in use. *)
Definition mkdtemp (name suffix : string) : M files path :=
  let p := Temporary name suffix in
  s ← self;
  lift (raise_if (bool_decide (is_Some (s !! p))) (FileExistsError "No usable temporary directory name found"));;
  update (<[p := ∅]>);;
  mret p.

(** A write; one that fails may leave a part. *)
Definition write_file (p : path) (name : string) (content : file) (fault : option string) : M files unit :=
  s ← self;
  d ← lift (or_raise (s !! p) (OSError "No such file or directory"));
  match fault with
  | None => update (<[p := <[name := content]> d]>)
  | Some part => update (<[p := <[name := Text part]> d]>);; raise (OSError "No space left on device")
  end.

(** [temporary.replace(output_directory)]: a directory that is not empty is not replaced. *)
Definition replace_directory (src dst : path) : M files unit :=
  s ← self;
  d ← lift (or_raise (s !! src) (OSError "No such file or directory"));
  lift (raise_if (match s !! dst with Some old => negb (bool_decide (old = ∅)) | None => false end)
    (OSError "Directory not empty"));;
  update (λ s, <[dst := d]> (delete src s)).

Definition rmtree (p : path) : files → files := delete p.

(** * Publishing *)

(** [spec.model_dump(mode="json")] *)
Definition spec_dump `{!Externals} (s : ExperimentSpecV1) : pyval :=
  PDict
    [(KStr "schema_version", PStr "aegisledger.experiment.v1");
     (KStr "experiment_id", PStr (uuid_str (es_experiment_id s)));
     (KStr "created_at", PStr (iso (es_created_at s)));
     (KStr "commit_sha", PStr (es_commit_sha s));
     (KStr "configuration_hash", PStr (es_configuration_hash s));
     (KStr "seed", PStr (es_seed s));
     (KStr "scenarios", PList (map (λ c, PStr (scenario_value c)) (es_scenarios s)));
     (KStr "runs_per_scenario", PInt (es_runs_per_scenario s));
     (KStr "model_metadata", metadata_dump (es_model_metadata s))].

(** [_write_json] *)
Definition _write_json (p : path) (name : string) (v : pyval) (fault : option string) : M files unit :=
  write_file p name (Json (sort_keys v)) fault.

Record ExperimentArtifacts := {
  ea_spec : ExperimentSpecV1;
  ea_summary : pyval;
  ea_raw_runs : list pyval;
}.

(** The file operations of a publication, in order, and which of them fails, how. *)
Record faults := { ft_manifest : option string; ft_summary : option string; ft_raw : option string }.

Section publishing.
Context `{!Externals}.

Definition write_results (p : path) (a : ExperimentArtifacts) (ft : faults) : M files unit :=
  _write_json p "manifest.json" (spec_dump (ea_spec a)) (ft_manifest ft);;
  _write_json p "summary.json" (ea_summary a) (ft_summary ft);;
  write_file p "raw_runs.jsonl" (JsonLines (map sort_keys (ea_raw_runs a))) (ft_raw ft).

Definition publish (name suffix : string) (a : ExperimentArtifacts) (ft : faults) : M files unit :=
  temporary ← mkdtemp name suffix;
  try_m (λ _, true)
    (write_results temporary a ft;; replace_directory temporary (Result name))
    (λ e, update (rmtree temporary);; raise e).

(** [value == n] of a JSON value and an integer. *)
Definition equals_int (v : pyval) (n : Z) : bool :=
  match v with
  | PInt z => z =? n
  | PBool b => Z.b2z b =? n
  | PFloat (Fin m e) => f_num m e =? n * f_den e
  | _ => false
  end.
Definition equals_str (v : pyval) (t : string) : bool :=
  match v with PStr s => bool_decide (s = t) | _ => false end.

(** [summary.get(key)] *)
Definition value_get (v : pyval) (key : string) : result pyval :=
  match v with
  | PDict d => Ok (default PNone (dict_get key d))
  | _ => Err (AttributeError "object has no attribute 'get'")
  end.

(** [model_validate_json] of a manifest. *)
Variable read_spec : pyval → result ExperimentSpecV1.

Definition _load_existing (spec : ExperimentSpecV1) (d : directory) : result ExperimentArtifacts :=
  match d !! "manifest.json", d !! "summary.json", d !! "raw_runs.jsonl" with
  | Some manifest, Some summary, Some raw =>
      manifest ← try_except catches_ValueError (loads manifest) (invalid "ExperimentSpecV1");
      manifest ← read_spec manifest;
      raise_if (negb (es_experiment_id manifest =? es_experiment_id spec)
                || bool_decide (es_configuration_hash manifest ≠ es_configuration_hash spec)
                || bool_decide (es_commit_sha manifest ≠ es_commit_sha spec))
        (RuntimeError "existing experiment output belongs to a different run");;
      summary ← loads summary;
      hash ← value_get summary "configuration_hash";
      raise_if (negb (equals_str hash (es_configuration_hash spec)))
        (RuntimeError "existing experiment summary binding mismatch");;
      raw_runs ← loads_lines raw;
      count ← value_get summary "raw_run_count";
      raise_if (negb (equals_int count (Z.of_nat (length raw_runs))))
        (RuntimeError "existing experiment raw-run count mismatch");;
      Ok {| ea_spec := spec; ea_summary := summary; ea_raw_runs := raw_runs |}
  | _, _, _ => Err (RuntimeError "existing experiment output is incomplete")
  end.

(** [ExperimentRunner.run] over the files and the ticks of the testbeds. *)
Definition experiment_run (safe_load : string → string + pyval) (spec : ExperimentSpecV1) (name suffix : string)
    (m : Measurements) (ft : faults) : M (files * Z) ExperimentArtifacts :=
  s ← self;
  match fst s !! Result name with
  | Some d => lift (_load_existing spec d)
  | None =>
      e ← zoom snd (λ t s, (fst s, t)) (evaluate safe_load spec m);
      let a := {| ea_spec := spec; ea_summary := e.1; ea_raw_runs := e.2 |} in
      zoom fst (λ f s, (f, snd s)) (publish name suffix a ft);;
      mret a
  end.

(** [_current_commit]: the variable, or what [git rev-parse HEAD] prints ([None]: no git). *)
Definition _current_commit (configured : option string) (git : option (result string)) : result string :=
  match configured with
  | Some (String _ _ as c) => Ok (str_lower c)
  | _ =>
      r ← or_raise git (RuntimeError "git is required when AEGISLEDGER_COMMIT_SHA is not set");
      stdout ← r;
      Ok (str_lower (Agents.strip stdout))
  end.

(** [main], from the arguments and the values [create_experiment_spec] draws. *)
Definition evaluation_main (safe_load : string → string + pyval) (new_id now : Z) (seed : string) (runs : Z)
    (scenarios : list ExperimentScenario) (configured : option string) (git : option (result string))
    (suffix : string) (m : Measurements) (ft : faults) : M (files * Z) string :=
  commit ← lift (_current_commit configured git);
  spec ← lift (create_experiment_spec new_id now seed runs scenarios commit None);
  let name := uuid_str (es_experiment_id spec) in
  experiment_run safe_load spec name suffix m ft;;
  mret name.
End publishing.
