(* ===== verification/EvaluationFacts.v ===== *)
(** What the experiment runner publishes: under any interleaving of runs, failures and crashes
    a result directory is complete, is the result of one run, never changes and is read back. *)
From Stdlib Require Import ZArith Lia Ascii String.
From stdpp Require Import base gmap sets list strings pretty sorting.
From S2P Require Import Prelude Bytes Float64 Canonical CanonicalFacts Contracts ContractsFacts.
From S2P Require Import Agents Testbed Attacks Tasks TasksFacts Experiments Evaluation.

Open Scope Z_scope.

Section facts.
Context `{!Externals}.
Variable read_spec : pyval → result ExperimentSpecV1.

(** * Reading a publication back *)

(** The directory a run publishes. *)
Definition published (a : ExperimentArtifacts) : directory :=
  {[ "manifest.json" := Json (sort_keys (spec_dump (ea_spec a)));
     "summary.json" := Json (sort_keys (ea_summary a));
     "raw_runs.jsonl" := JsonLines (map sort_keys (ea_raw_runs a)) ]}.

(** What [evaluate] computes for a specification. *)
Definition evaluated (a : ExperimentArtifacts) : Prop :=
  ∃ safe_load m t t', evaluate safe_load (ea_spec a) m t = (t', Ok (ea_summary a, ea_raw_runs a)).

(** Two specifications of the same run. *)
Definition same_run (s s' : ExperimentSpecV1) : Prop :=
  es_experiment_id s = es_experiment_id s' ∧ es_configuration_hash s = es_configuration_hash s'
  ∧ es_commit_sha s = es_commit_sha s'.

Lemma summary_binds spec m results outcomes raw v :
  summary_of spec m results outcomes raw = Ok v →
  value_get (sort_keys v) "configuration_hash" = Ok (PStr (es_configuration_hash spec))
  ∧ value_get (sort_keys v) "raw_run_count" = Ok (PInt (Z.of_nat (length raw))).
Proof.
  unfold summary_of. intros (metrics & _ & Hv)%bind_Ok. apply bind_Ok in Hv as (rows & _ & Hv).
  cbv zeta in Hv. apply bind_Ok in Hv as (fp & _ & Hv). apply bind_Ok in Hv as (dn & _ & Hv).
  apply bind_Ok in Hv as (perf & _ & Hv). injection Hv as <-. split; reflexivity.
Qed.

Lemma evaluated_binds a :
  evaluated a →
  value_get (sort_keys (ea_summary a)) "configuration_hash" = Ok (PStr (es_configuration_hash (ea_spec a)))
  ∧ value_get (sort_keys (ea_summary a)) "raw_run_count" = Ok (PInt (Z.of_nat (length (ea_raw_runs a)))).
Proof.
  intros (safe_load & m & t & t' & He). unfold evaluate, lift, mbind, M_bind in He.
  destruct (run_attack_results _ _ _ _ t) as [t1 [results|]]; [|done].
  destruct (run_utility_matrix _ _ t1) as [t2 [outcomes|]]; [|done].
  destruct (summary_of _ _ _ _ _) as [v|] eqn:Hs; [|done]. apply summary_binds in Hs.
  injection He as _ <- <-. exact Hs.
Qed.

(** Any specification of the same run reads the publication back; any other is refused. *)
Lemma load_published spec a :
  evaluated a → read_spec (sort_keys (spec_dump (ea_spec a))) = Ok (ea_spec a) →
  (same_run (ea_spec a) spec →
     _load_existing read_spec spec (published a)
     = Ok {| ea_spec := spec; ea_summary := sort_keys (ea_summary a); ea_raw_runs := map sort_keys (ea_raw_runs a) |})
  ∧ (¬ same_run (ea_spec a) spec →
     _load_existing read_spec spec (published a)
     = Err (RuntimeError "existing experiment output belongs to a different run")).
Proof.
  intros Hev Hread. destruct (evaluated_binds a Hev) as [Hh Hc].
  assert (published a !! "manifest.json" = Some (Json (sort_keys (spec_dump (ea_spec a))))
    ∧ published a !! "summary.json" = Some (Json (sort_keys (ea_summary a)))
    ∧ published a !! "raw_runs.jsonl" = Some (JsonLines (map sort_keys (ea_raw_runs a)))) as (Hm & Hs & Hr) by done.
  unfold _load_existing. rewrite Hm, Hs, Hr. cbn [loads try_except loads_lines mbind result_bind].
  rewrite Hread. cbn [mbind result_bind]. rewrite raise_if_bind.
  set (b := negb _ || _ || _).
  assert (b = false ↔ same_run (ea_spec a) spec) as Hb.
  { unfold b, same_run. rewrite !orb_false_iff, negb_false_iff, !bool_decide_eq_false, Z.eqb_eq.
    split; [intros [[? ?%dec_stable] ?%dec_stable]; auto|naive_solver]. }
  split; intros Hsame.
  - rewrite (proj2 Hb Hsame). rewrite Hh. cbn [mbind result_bind]. rewrite raise_if_bind.
    destruct Hsame as (_ & Hhash & _). unfold equals_str. rewrite Hhash, bool_decide_true by done. cbn [negb].
    rewrite Hc. cbn [mbind result_bind]. rewrite raise_if_bind. unfold equals_int.
    rewrite length_map, Z.eqb_refl. done.
  - destruct b; [done|]. exfalso. by apply Hsame, Hb.
Qed.

(** * Runs side by side *)

(** The files of a run that has written [k] of them. *)
Definition written (a : ExperimentArtifacts) (k : nat) : directory :=
  list_to_map (reverse (take k
    [("manifest.json", Json (sort_keys (spec_dump (ea_spec a)))); ("summary.json", Json (sort_keys (ea_summary a)));
     ("raw_runs.jsonl", JsonLines (map sort_keys (ea_raw_runs a)))])).

(** The next write of a run that has done [k]. *)
Definition next_write (p : path) (a : ExperimentArtifacts) (k : nat) (fault : option string) : option (M files unit) :=
  match k with
  | 0%nat => Some (_write_json p "manifest.json" (spec_dump (ea_spec a)) fault)
  | 1%nat => Some (_write_json p "summary.json" (ea_summary a) fault)
  | 2%nat => Some (write_file p "raw_runs.jsonl" (JsonLines (map sort_keys (ea_raw_runs a))) fault)
  | _ => None
  end.

(** Where a run is: it found no result and has evaluated; it writes its temporary directory;
    it is about to remove it. *)
Inductive stage :=
  | Evaluated (name : string) (a : ExperimentArtifacts)
  | Writing (name suffix : string) (a : ExperimentArtifacts) (k : nat)
  | Failing (name suffix : string).

Record world := { wd_files : files; wd_runs : gmap Z stage }.

Variable specs : list ExperimentSpecV1.

(** One step of one run: the check and the evaluation, each file operation (which may fail),
    and, at any time, a crash, after which nothing of the run happens any more. *)
Inductive world_step : world → world → Prop :=
  | step_begin w i name a : wd_runs w !! i = None → wd_files w !! Result name = None →
      ea_spec a ∈ specs → evaluated a →
      world_step w {| wd_files := wd_files w; wd_runs := <[i := Evaluated name a]> (wd_runs w) |}
  | step_mkdtemp w i name suffix a fs p : wd_runs w !! i = Some (Evaluated name a) →
      mkdtemp name suffix (wd_files w) = (fs, Ok p) →
      world_step w {| wd_files := fs; wd_runs := <[i := Writing name suffix a 0]> (wd_runs w) |}
  | step_write w i name suffix a k op fs : wd_runs w !! i = Some (Writing name suffix a k) →
      next_write (Temporary name suffix) a k None = Some op → op (wd_files w) = (fs, Ok tt) →
      world_step w {| wd_files := fs; wd_runs := <[i := Writing name suffix a (S k)]> (wd_runs w) |}
  | step_write_fails w i name suffix a k fault op fs e : wd_runs w !! i = Some (Writing name suffix a k) →
      next_write (Temporary name suffix) a k fault = Some op → op (wd_files w) = (fs, Err e) →
      world_step w {| wd_files := fs; wd_runs := <[i := Failing name suffix]> (wd_runs w) |}
  | step_replace w i name suffix a fs : wd_runs w !! i = Some (Writing name suffix a 3) →
      replace_directory (Temporary name suffix) (Result name) (wd_files w) = (fs, Ok tt) →
      world_step w {| wd_files := fs; wd_runs := delete i (wd_runs w) |}
  | step_replace_fails w i name suffix a fs e : wd_runs w !! i = Some (Writing name suffix a 3) →
      replace_directory (Temporary name suffix) (Result name) (wd_files w) = (fs, Err e) →
      world_step w {| wd_files := fs; wd_runs := <[i := Failing name suffix]> (wd_runs w) |}
  | step_cleanup w i name suffix : wd_runs w !! i = Some (Failing name suffix) →
      world_step w {| wd_files := rmtree (Temporary name suffix) (wd_files w); wd_runs := delete i (wd_runs w) |}
  | step_crash w i : world_step w {| wd_files := wd_files w; wd_runs := delete i (wd_runs w) |}.

Inductive world_reach : world → Prop :=
  | world_init : world_reach {| wd_files := ∅; wd_runs := ∅ |}
  | world_next w w' : world_reach w → world_step w w' → world_reach w'.

(** The temporary directory a stage owns. *)
Definition owns (s : stage) : option path :=
  match s with
  | Evaluated _ _ => None
  | Writing name suffix _ _ | Failing name suffix => Some (Temporary name suffix)
  end.

Definition stage_ok (fs : files) (s : stage) : Prop :=
  match s with
  | Evaluated _ a => ea_spec a ∈ specs ∧ evaluated a
  | Writing name suffix a k => ea_spec a ∈ specs ∧ evaluated a ∧ (k ≤ 3)%nat
      ∧ fs !! Temporary name suffix = Some (written a k)
  | Failing name suffix => is_Some (fs !! Temporary name suffix)
  end.

Record world_ok (w : world) : Prop := {
  wo_results : ∀ name d, wd_files w !! Result name = Some d →
    ∃ a, ea_spec a ∈ specs ∧ evaluated a ∧ d = published a;
  wo_stages : ∀ i s, wd_runs w !! i = Some s → stage_ok (wd_files w) s;
  wo_owned : ∀ i j s s' p, wd_runs w !! i = Some s → wd_runs w !! j = Some s' →
    owns s = Some p → owns s' = Some p → i = j;
}.

Lemma written_all a : written a 3 = published a.
Proof. reflexivity. Qed.

Lemma published_nonempty a : published a ≠ ∅.
Proof. intros He. apply (f_equal (lookup "manifest.json")) in He. discriminate He. Qed.

(** ** What the operations do *)

Lemma mkdtemp_Ok name suffix fs fs' p :
  mkdtemp name suffix fs = (fs', Ok p) →
  fs !! Temporary name suffix = None ∧ fs' = <[Temporary name suffix := ∅]> fs.
Proof.
  unfold mkdtemp, self, lift, update, mbind, M_bind. cbn. case_bool_decide as Hs; [done|].
  cbn. intros [= <- _]. split; [by apply eq_None_not_Some|done].
Qed.

Lemma next_write_Ok p a k op fs fs' :
  next_write p a k None = Some op → fs !! p = Some (written a k) → op fs = (fs', Ok tt) →
  (S k ≤ 3)%nat ∧ fs' = <[p := written a (S k)]> fs.
Proof.
  intros Hop Hp. destruct k as [|[|[|k]]]; [..|done]; injection Hop as <-;
    unfold _write_json, write_file, self, lift, update, mbind, M_bind; rewrite Hp; intros [= <-]; (split; [lia|done]).
Qed.

Lemma next_write_Err p a k fault op fs fs' d e :
  next_write p a k fault = Some op → fs !! p = Some d → op fs = (fs', Err e) → ∃ d', fs' = <[p := d']> fs.
Proof.
  intros Hop Hp. destruct k as [|[|[|k]]]; [..|done]; injection Hop as <-;
    unfold _write_json, write_file, self, lift, update, raise, mbind, M_bind; rewrite Hp; cbn;
    (destruct fault as [part|]; [intros [= <- _]; by eexists|done]).
Qed.

Lemma replace_Ok src dst fs fs' d :
  fs !! src = Some d → replace_directory src dst fs = (fs', Ok tt) →
  (∀ old, fs !! dst = Some old → old = ∅) ∧ fs' = <[dst := d]> (delete src fs).
Proof.
  intros Hp. unfold replace_directory, self, lift, update, mbind, M_bind. rewrite Hp. cbn.
  destruct (fs !! dst) as [old|]; [destruct (bool_decide (old = ∅)) eqn:Ho|]; cbn; [|done|]; intros [= <-];
    [apply bool_decide_eq_true in Ho|]; naive_solver.
Qed.

Lemma replace_Err src dst fs fs' e : replace_directory src dst fs = (fs', Err e) → fs' = fs.
Proof.
  unfold replace_directory, self, lift, update, mbind, M_bind. destruct (fs !! src); cbn; [|by intros [= <- _]].
  destruct (match fs !! dst with Some _ => _ | None => _ end); cbn; [by intros [= <- _]|done].
Qed.

(** ** The invariant *)

Lemma stage_owned fs s p : stage_ok fs s → owns s = Some p → is_Some (fs !! p).
Proof. destruct s; cbn; [done|intros (_ & _ & _ & Hp)|intros Hp]; intros [= <-]; eauto. Qed.

Lemma stage_frame fs fs' s :
  (∀ p, owns s = Some p → fs' !! p = fs !! p) → stage_ok fs s → stage_ok fs' s.
Proof. destruct s; cbn; intros Hf; [done|..]; by rewrite (Hf _ eq_refl). Qed.

(** A run [i] changes its own temporary directory [p], and perhaps a result. *)
Lemma world_ok_change w i fs runs p :
  world_ok w →
  (∀ n s, Temporary n s ≠ p → fs !! Temporary n s = wd_files w !! Temporary n s) →
  (∀ name d, fs !! Result name = Some d → ∃ a, ea_spec a ∈ specs ∧ evaluated a ∧ d = published a) →
  (∀ j s, wd_runs w !! j = Some s → owns s = Some p → j = i) →
  (∀ j, j ≠ i → runs !! j = wd_runs w !! j) →
  (∀ s, runs !! i = Some s → stage_ok fs s ∧ (∀ q, owns s = Some q → q = p)) →
  world_ok {| wd_files := fs; wd_runs := runs |}.
Proof.
  intros [_ Hst Hown] Htmp Hres Hp Hruns Hi. constructor; cbn; [done|..].
  - intros j s Hj. destruct (decide (j = i)) as [->|Hne]; [by apply Hi|]. rewrite Hruns in Hj by done.
    apply (stage_frame (wd_files w)); [|by eapply Hst]. intros q Hq.
    assert (q ≠ p) by (intros ->; apply Hne; by eapply Hp).
    destruct s; cbn in Hq; [done|..]; injection Hq as <-; by apply Htmp.
  - intros j j' s s' q Hj Hj' Hq Hq'.
    destruct (decide (j = i)) as [->|Hne], (decide (j' = i)) as [->|Hne']; [done|..].
    + rewrite Hruns in Hj' by done. rewrite (proj2 (Hi s Hj) q Hq) in Hq'. symmetry. by eapply Hp.
    + rewrite Hruns in Hj by done. rewrite (proj2 (Hi s' Hj') q Hq') in Hq. by eapply Hp.
    + rewrite Hruns in Hj, Hj' by done. by eapply Hown.
Qed.

(** A run writes in its own temporary directory. *)
Lemma world_ok_own w i s p d s' :
  world_ok w → wd_runs w !! i = Some s → owns s = Some p → (∃ n x, p = Temporary n x) →
  stage_ok (<[p := d]> (wd_files w)) s' → owns s' = Some p →
  world_ok {| wd_files := <[p := d]> (wd_files w); wd_runs := <[i := s']> (wd_runs w) |}.
Proof.
  intros Hok Hi Ho (n & x & Hp) Hs' Ho'. apply (world_ok_change w i _ _ p Hok).
  - intros m y Hne. by rewrite lookup_insert_ne.
  - intros m y. rewrite lookup_insert_ne by (by rewrite Hp). apply (wo_results w Hok).
  - intros j t Hj Ht. by eapply (wo_owned w Hok).
  - intros j Hj. by rewrite lookup_insert_ne.
  - intros t. rewrite lookup_insert_eq. intros [= <-]. split; [done|congruence].
Qed.

(** A run ends, its temporary directory gone or renamed to a result. *)
Lemma world_ok_end w i s p fs :
  world_ok w → wd_runs w !! i = Some s → owns s = Some p →
  (∀ n x, Temporary n x ≠ p → fs !! Temporary n x = wd_files w !! Temporary n x) →
  (∀ name d, fs !! Result name = Some d → ∃ a, ea_spec a ∈ specs ∧ evaluated a ∧ d = published a) →
  world_ok {| wd_files := fs; wd_runs := delete i (wd_runs w) |}.
Proof.
  intros Hok Hi Ho Hfs Hres. apply (world_ok_change w i _ _ p Hok); [done|done|..].
  - intros j t Hj Ht. by eapply (wo_owned w Hok).
  - intros j Hj. by rewrite lookup_delete_ne.
  - intros t. by rewrite lookup_delete_eq.
Qed.

Lemma step_ok w w' : world_ok w → world_step w w' → world_ok w'.
Proof.
  intros Hok Hstep. pose proof Hok as [Hres Hst Hown]. destruct Hstep as
    [w i name a Hi Hn Hspec Hev|w i name suffix a fs p Hi Hop|w i name suffix a k op fs Hi Hop Hw
    |w i name suffix a k fault op fs e Hi Hop Hw|w i name suffix a fs Hi Hr|w i name suffix a fs e Hi Hr
    |w i name suffix Hi|w i].
  - apply (world_ok_change w i _ _ (Result name) Hok); try done.
    + intros j [] _; done.
    + intros j Hj. by rewrite lookup_insert_ne.
    + intros s. rewrite lookup_insert_eq. intros [= <-]. by split.
  - apply mkdtemp_Ok in Hop as [Hfree ->]. destruct (Hst i _ Hi) as [Hspec Hev].
    apply (world_ok_change w i _ _ (Temporary name suffix) Hok).
    + intros n s Hne. by rewrite lookup_insert_ne.
    + intros n d. by rewrite lookup_insert_ne; [apply Hres|].
    + intros j s Hj Ho. destruct (stage_owned _ _ _ (Hst j s Hj) Ho). congruence.
    + intros j Hj. by rewrite lookup_insert_ne.
    + intros s. rewrite lookup_insert_eq. intros [= <-]. cbn. rewrite lookup_insert_eq.
      split; [split_and!; [done|done|lia|done]|naive_solver].
  - destruct (Hst i _ Hi) as (Hspec & Hev & Hk & Hd).
    destruct (next_write_Ok _ _ _ _ _ _ Hop Hd Hw) as [Hk' ->].
    eapply world_ok_own; [done|done|done|by eexists _, _| |done].
    cbn. rewrite lookup_insert_eq. by split_and!.
  - destruct (Hst i _ Hi) as (Hspec & Hev & Hk & Hd).
    destruct (next_write_Err _ _ _ _ _ _ _ _ _ Hop Hd Hw) as [d' ->].
    eapply world_ok_own; [done|done|done|by eexists _, _| |done]. cbn. rewrite lookup_insert_eq. by eexists.
  - destruct (Hst i _ Hi) as (Hspec & Hev & Hk & Hd). destruct (replace_Ok _ _ _ _ _ Hd Hr) as [_ ->].
    eapply world_ok_end; [done|done|done|..].
    + intros n x Hne. rewrite lookup_insert_ne by done. by rewrite lookup_delete_ne.
    + intros n d. destruct (decide (n = name)) as [->|Hne].
      * rewrite lookup_insert_eq. intros [= <-]. exists a. by rewrite written_all.
      * rewrite lookup_insert_ne by congruence. rewrite lookup_delete_ne by done. apply Hres.
  - destruct (Hst i _ Hi) as (Hspec & Hev & Hk & Hd). apply replace_Err in Hr as ->.
    rewrite <- (insert_id _ _ _ Hd). eapply world_ok_own; [done|done|done|by eexists _, _| |done].
    cbn. rewrite lookup_insert_eq. by eexists.
  - eapply world_ok_end; [done|done|done|..].
    + intros n x Hne. unfold rmtree. by rewrite lookup_delete_ne.
    + intros n d. unfold rmtree. rewrite lookup_delete_ne by done. apply Hres.
  - constructor; cbn; [done|..].
    + intros j s [_ Hj]%lookup_delete_Some. by eapply Hst.
    + intros j j' s s' p [_ Hj]%lookup_delete_Some [_ Hj']%lookup_delete_Some. by eapply Hown.
Qed.

Lemma reach_ok w : world_reach w → world_ok w.
Proof.
  induction 1 as [|w w' Hr IH Hs]; [|by eapply step_ok].
  constructor; cbn; intros *; by rewrite lookup_empty.
Qed.

(** A result is never replaced. *)
Lemma step_keeps w w' name d :
  world_ok w → world_step w w' → wd_files w !! Result name = Some d → wd_files w' !! Result name = Some d.
Proof.
  intros Hok Hstep Hd. pose proof Hok as [Hres Hst _]. destruct Hstep as
    [w i nm a Hi Hn Hspec Hev|w i nm suffix a fs p Hi Hop|w i nm suffix a k op fs Hi Hop Hw
    |w i nm suffix a k fault op fs e Hi Hop Hw|w i nm suffix a fs Hi Hr|w i nm suffix a fs e Hi Hr
    |w i nm suffix Hi|w i]; cbn; try done.
  - apply mkdtemp_Ok in Hop as [_ ->]. by rewrite lookup_insert_ne.
  - destruct (Hst i _ Hi) as (_ & _ & _ & Ht). destruct (next_write_Ok _ _ _ _ _ _ Hop Ht Hw) as [_ ->].
    by rewrite lookup_insert_ne.
  - destruct (Hst i _ Hi) as (_ & _ & _ & Ht). destruct (next_write_Err _ _ _ _ _ _ _ _ _ Hop Ht Hw) as [d' ->].
    by rewrite lookup_insert_ne.
  - destruct (Hst i _ Hi) as (_ & _ & _ & Ht). destruct (replace_Ok _ _ _ _ _ Ht Hr) as [Hempty ->].
    destruct (decide (nm = name)) as [->|Hne].
    + destruct (Hres name d Hd) as (b & _ & _ & ->). by destruct (published_nonempty b (Hempty _ Hd)).
    + rewrite lookup_insert_ne by congruence. by rewrite lookup_delete_ne.
  - by apply replace_Err in Hr as ->.
  - unfold rmtree. by rewrite lookup_delete_ne.
Qed.
(** * A run by itself *)

Definition no_fault : faults := {| ft_manifest := None; ft_summary := None; ft_raw := None |}.

Lemma write_at p n c fault d s :
  s !! p = Some d →
  write_file p n c fault s =
  (<[p := <[n := match fault with None => c | Some part => Text part end]> d]> s,
   match fault with None => Ok tt | Some _ => Err (OSError "No space left on device") end).
Proof.
  intros Hp. unfold write_file, self, lift, update, raise, mbind, M_bind. rewrite Hp. by destruct fault.
Qed.

(** The writes into a temporary directory end with the three files or with the error. *)
Lemma write_results_spec p a ft s :
  s !! p = Some ∅ →
  ∃ d, write_results p a ft s =
    (<[p := d]> s,
     match ft_manifest ft, ft_summary ft, ft_raw ft with
     | None, None, None => Ok tt
     | _, _, _ => Err (OSError "No space left on device")
     end) ∧ (ft = no_fault → d = published a).
Proof.
  intros Hp. unfold write_results, _write_json, mbind, M_bind. rewrite (write_at _ _ _ _ ∅) by done.
  destruct ft as [[|] [|] [|]]; cbn [ft_manifest ft_summary ft_raw];
    try (by eexists; (split; [reflexivity|discriminate]));
    repeat (erewrite write_at by (apply lookup_insert_eq)); rewrite ?insert_insert_eq;
    eexists; (split; [reflexivity|]); [discriminate..|reflexivity].
Qed.

Lemma publish_spec name suffix a ft fs :
  fs !! Temporary name suffix = None → fs !! Result name = None →
  publish name suffix a ft fs =
  match ft_manifest ft, ft_summary ft, ft_raw ft with
  | None, None, None => (<[Result name := published a]> fs, Ok tt)
  | _, _, _ => (fs, Err (OSError "No space left on device"))
  end.
Proof.
  intros Ht Hr. unfold publish, mkdtemp, try_m, self, lift, update, mbind, M_bind.
  rewrite bool_decide_false by (rewrite Ht; by intros []). cbn [raise_if]. unfold mret, M_ret.
  destruct (write_results_spec (Temporary name suffix) a ft (<[Temporary name suffix:=∅]> fs)) as (d & -> & Hd);
    [apply lookup_insert_eq|]. rewrite insert_insert_eq. unfold rmtree, raise.
  destruct ft as [[|] [|] [|]]; cbn [ft_manifest ft_summary ft_raw];
    try (by rewrite delete_insert_id by done).
  rewrite (Hd eq_refl). unfold replace_directory, self, lift, update, mbind, M_bind.
  rewrite lookup_insert_eq, lookup_insert_ne, Hr by done. cbn [or_raise raise_if].
  by rewrite delete_insert_id by done.
Qed.
(** C23: results are published atomically.  Whatever runs of the specifications interleave, fail
    while writing or crash: a result directory holds the three files of one completed
    evaluation, is read back as its summary and raw runs (keys sorted) by every specification
    of the same identifier, configuration and commit and refused to any other, and no later
    step changes it.  A run by itself publishes what it computed, or raises and leaves the
    files as they were. *)
Theorem experiment_results_atomic w :
  (∀ spec, spec ∈ specs → read_spec (sort_keys (spec_dump spec)) = Ok spec) → world_reach w →
  (∀ name d, wd_files w !! Result name = Some d →
    (∃ a, ea_spec a ∈ specs ∧ evaluated a ∧
      ∀ spec, _load_existing read_spec spec d =
        if decide (same_run (ea_spec a) spec)
        then Ok {| ea_spec := spec; ea_summary := sort_keys (ea_summary a); ea_raw_runs := map sort_keys (ea_raw_runs a) |}
        else Err (RuntimeError "existing experiment output belongs to a different run"))
    ∧ ∀ w', world_step w w' → wd_files w' !! Result name = Some d)
  ∧ (∀ safe_load spec name suffix m ft t t' summary raw,
      let a := {| ea_spec := spec; ea_summary := summary; ea_raw_runs := raw |} in
      wd_files w !! Result name = None → wd_files w !! Temporary name suffix = None →
      evaluate safe_load spec m t = (t', Ok (summary, raw)) →
      let '((fs, t''), r) := experiment_run read_spec safe_load spec name suffix m ft (wd_files w, t) in
      t'' = t' ∧ match r with
        | Ok b => b = a ∧ fs = <[Result name := published a]> (wd_files w)
        | Err _ => fs = wd_files w
        end).
Proof.
  intros Hread Hreach. pose proof (reach_ok w Hreach) as Hok. split.
  - intros name d Hd. split; [|intros w' Hs; by eapply step_keeps].
    destruct (wo_results w Hok name d Hd) as (a & Hspec & Hev & ->). exists a. split_and!; [done..|].
    intros spec. destruct (load_published spec a Hev (Hread _ Hspec)) as [Hsame Hother].
    case_decide; auto.
  - intros safe_load spec name suffix m ft t t' summary raw a Hr Ht He.
    unfold experiment_run, self, mbind, M_bind. cbn [fst snd]. rewrite Hr. unfold zoom. cbn [fst snd]. rewrite He.
    cbn [fst snd]. fold a. rewrite (publish_spec name suffix a ft (wd_files w) Ht Hr).
    destruct ft as [[|] [|] [|]]; cbn; by split.
Qed.
End facts.

(** * Witness *)

Definition sample_metadata : ModelMetadataV1 :=
  {| mm_provider := "local"; mm_model := "deterministic"; mm_version := "1";
     mm_parameters_hash := "0x0000000000000000000000000000000000000000000000000000000000000001" |}.

Example sample_metadata_valid : ModelMetadataV1_validate sample_metadata = Ok sample_metadata.
Proof. reflexivity. Qed.

Definition sample_spec : ExperimentSpecV1 :=
  {| es_experiment_id := 1; es_created_at := 0; es_commit_sha := "0123456789012345678901234567890123456789";
     es_configuration_hash := "0x00"; es_seed := "s"; es_scenarios := [II_tool_poisoning]; es_runs_per_scenario := 1;
     es_model_metadata := Some sample_metadata |}.
Definition sample_measurements : Measurements :=
  {| ms_started := 0; ms_ended := 5000000; ms_signing := [(0, 31000); (0, 29000)]; ms_python := "3.12";
     ms_platform := "linux" |}.
Definition sample_read (v : pyval) : result ExperimentSpecV1 :=
  match v with
  | PDict d => match dict_get "experiment_id" d with
               | Some (PStr "00000000-0000-0000-0000-000000000001") => Ok sample_spec
               | _ => Err (ValidationError "ExperimentSpecV1")
               end
  | _ => Err (ValidationError "ExperimentSpecV1")
  end.

Tactic Notation "advance" ident(R) uconstr(step) :=
  let R' := fresh in
  eassert (world_reach _ _) as R' by (eapply world_next; [exact R|eapply step; (eassumption || reflexivity)]);
  clear R; rename R' into R.

(** Two runs begin; one publishes, the other crashes; the result is read back. *)
Lemma experiment_results_atomic_witness :
  let e := spread_externals in
  ∃ w d a, @world_reach e [sample_spec] w ∧ wd_files w !! Result "exp" = Some d
    ∧ @_load_existing sample_read sample_spec d = Ok a ∧ ea_spec a = sample_spec.
Proof.
  intros e.
  destruct (@evaluate e spread_load sample_spec sample_measurements 1700000000) as [t' r] eqn:He.
  assert (match r with Ok x => length x.2 = 5%nat | Err _ => False end) as Hlen.
  { replace r with (snd (@evaluate e spread_load sample_spec sample_measurements 1700000000)) by (by rewrite He).
    vm_compute. reflexivity. }
  destruct r as [[summary raw]|]; [|destruct Hlen].
  set (a := {| ea_spec := sample_spec; ea_summary := summary; ea_raw_runs := raw |}).
  assert (@evaluated e a) as Hev by (by exists spread_load, sample_measurements, 1700000000, t').
  assert (∀ spec, spec ∈ [sample_spec] → sample_read (sort_keys (@spec_dump e spec)) = Ok spec) as Hread.
  { intros spec ->%list_elem_of_singleton. vm_compute. reflexivity. }
  assert (sample_spec ∈ [sample_spec]) as Hin by (apply list_elem_of_singleton; done).
  pose proof (@world_init e [sample_spec]) as R.
  advance R (step_begin _ _ 1 "exp" a). advance R (step_begin _ _ 2 "exp" a).
  advance R (step_mkdtemp _ _ 1 "exp" "x" a). advance R (step_write _ _ 1 "exp" "x" a 0).
  advance R (step_write _ _ 1 "exp" "x" a 1). advance R (step_write _ _ 1 "exp" "x" a 2).
  advance R (step_replace _ _ 1 "exp" "x" a). advance R (step_crash [sample_spec] _ 2).
  destruct (@experiment_results_atomic e sample_read [sample_spec] _ Hread R) as [Hres _].
  destruct (Hres "exp" (published a) eq_refl) as [(b & Hb & _ & Hload) _].
  apply list_elem_of_singleton in Hb. specialize (Hload sample_spec). rewrite Hb in Hload.
  rewrite (decide_True _ _ (conj eq_refl (conj eq_refl eq_refl) : same_run sample_spec sample_spec)) in Hload.
  eexists _, (published a), _. split; [exact R|]. split; [reflexivity|]. split; [exact Hload|reflexivity].
Defined.
