(* ===== verification/PostgresStores.v ===== *)
(** The other PostgreSQL stores: experiments (experiment_store.py), rate limits
    (rate_limit.py), the audit journal (audit.py), service credentials (service_accounts.py),
    decisions and signed executions (artifact_store.py), attestations (attestation_store.py)
    and settlements (reconciler.py), all under src/agentguard-testbed/src/aegisledger/.

    As in Postgres: a table is a map from its primary key, a method is one transaction that
    runs as if alone (the row and advisory locks it takes see to that, or it is a single
    statement), [now] is the time of the transaction, and a [jsonb] document is read back
    as it was written, up to the order of its keys. *)
From Stdlib Require Import ZArith Lia Ascii String.
From stdpp Require Import base gmap sets list strings pretty sorting.
From S2P Require Import Prelude Bytes Canonical Contracts Policy State Postgres Signing Journal.
From S2P Require Import RateLimit Artifacts Attestations Settlements Experiments Access.

Open Scope Z_scope.

(** [integer] *)
Definition int4 (n : Z) : bool := (- 2 ^ 31 <=? n) && (n <? 2 ^ 31).

(** * [PostgresExperimentStore] *)

Record experiments_row := {
  xw_principal_id : string;
  xw_request : list (pykey * pyval);
  xw_status : ExperimentStatus;
  xw_seed : string;
  xw_configuration_hash : string;
  xw_result_uri : option string;
  xw_summary : option (list (pykey * pyval));
  xw_error : option string;
  xw_created_at : Z;
}.

Abbreviation PgExperiments := (gmap Z experiments_row).

(** [_job] *)
Definition job_of (id : Z) (r : experiments_row) : ExperimentJob :=
  {| job_response := {| xp_experiment_id := id; xp_status := xw_status r; xp_seed := xw_seed r;
       xp_configuration_hash := xw_configuration_hash r; xp_result_uri := xw_result_uri r;
       xp_summary := xw_summary r; xp_error := xw_error r |};
     job_request := xw_request r; job_principal_id := xw_principal_id r |}.

Definition pg_experiment_create (now : Z) (j : ExperimentJob) : M PgExperiments ExperimentJob :=
  let r := job_response j in
  t ← self;
  lift (raise_if (negb (char_n 66 (xp_configuration_hash r))) (DatabaseError "value out of range"));;
  lift (raise_if (bool_decide (is_Some (t !! xp_experiment_id r))) (UniqueViolation "experiments_pkey"));;
  update (insert (xp_experiment_id r)
    {| xw_principal_id := job_principal_id j; xw_request := job_request j; xw_status := xp_status r;
       xw_seed := xp_seed r; xw_configuration_hash := xp_configuration_hash r; xw_result_uri := None;
       xw_summary := None; xw_error := None; xw_created_at := now |});;
  mret j.

Definition pg_experiment_get (id : Z) : M PgExperiments (option ExperimentJob) :=
  read (λ t, job_of id <$> t !! id).

(** [UPDATE experiments SET ... WHERE id=%s AND status=... RETURNING ...] *)
Definition update_experiment (id : Z) (st : ExperimentStatus) (f : experiments_row → experiments_row)
    : M PgExperiments (option ExperimentJob) :=
  t ← self;
  match t !! id with
  | None => mret None
  | Some row =>
      if bool_decide (xw_status row = st) then
        update (insert id (f row));;
        mret (Some (job_of id (f row)))
      else mret None
  end.

Definition with_xw (st : ExperimentStatus) (uri : option string) (summary : option (list (pykey * pyval)))
    (error : option string) (r : experiments_row) : experiments_row :=
  {| xw_principal_id := xw_principal_id r; xw_request := xw_request r; xw_status := st;
     xw_seed := xw_seed r; xw_configuration_hash := xw_configuration_hash r; xw_result_uri := uri;
     xw_summary := summary; xw_error := error; xw_created_at := xw_created_at r |}.
Definition with_xw_status (st : ExperimentStatus) (r : experiments_row) : experiments_row :=
  with_xw st (xw_result_uri r) (xw_summary r) (xw_error r) r.

Definition pg_experiment_claim (id : Z) : M PgExperiments (option ExperimentJob) :=
  update_experiment id X_QUEUED (with_xw_status X_RUNNING).

Definition pg_experiment_finish (r : ExperimentResponseV1) : M PgExperiments ExperimentJob :=
  lift (raise_if (negb (is_in (xp_status r) [X_COMPLETED; X_FAILED]))
    (ValueError "finished experiment must be terminal"));;
  row ← update_experiment (xp_experiment_id r) X_RUNNING
          (with_xw (xp_status r) (xp_result_uri r) (xp_summary r) (xp_error r));
  lift (or_raise row (ValueError "experiment is not running")).

(** [ORDER BY created_at] *)
Definition xw_by_created (a b : Z * experiments_row) : Prop := xw_created_at a.2 ≤ xw_created_at b.2.
#[export] Instance xw_by_created_dec : RelDecision xw_by_created.
Proof. intros a b. unfold xw_by_created. apply _. Defined.

Definition pg_experiment_pending : M PgExperiments (list ExperimentJob) :=
  read (λ t, map (λ e, job_of e.1 e.2)
    (merge_sort xw_by_created (filter (λ e, is_in (xw_status e.2) [X_QUEUED; X_RUNNING] = true)
                                 (map_to_list t)))).

Definition pg_requeue_running : M PgExperiments Z :=
  t ← self;
  update (fmap (λ r, if bool_decide (xw_status r = X_RUNNING) then with_xw_status X_QUEUED r else r));;
  mret (count_values (λ r, bool_decide (xw_status r = X_RUNNING)) t).

Definition pg_active_count (principal_id : string) (t : PgExperiments) : Z :=
  count_values (λ r, bool_decide (xw_principal_id r = principal_id)
                     && is_in (xw_status r) [X_QUEUED; X_RUNNING]) t.

(** [queue_experiment] and [run_experiment] on this store. *)
Section experiments.
Context `{!Externals}.

Definition pg_queue_experiment (cfg : ExperimentConfig) (new_id now : Z) (request : ExperimentRequest)
    (actor : string) : M PgExperiments ExperimentResponseV1 :=
  active ← read (pg_active_count actor);
  lift (raise_if (xc_max_active_per_principal cfg <=? active)
    (ValueError "principal has reached the active experiment quota"));;
  spec ← lift (create_experiment_spec new_id now (er_seed request) (er_runs_per_scenario request)
                 (er_scenarios request) (xc_commit_sha cfg) None);
  let response := {| xp_experiment_id := es_experiment_id spec; xp_status := X_QUEUED;
    xp_seed := es_seed spec; xp_configuration_hash := es_configuration_hash spec;
    xp_result_uri := None; xp_summary := None; xp_error := None |} in
  job ← pg_experiment_create now {| job_response := response; job_request := ExperimentRequest_dump request;
                                    job_principal_id := actor |};
  mret (job_response job).

Definition pg_run_experiment (cfg : ExperimentConfig) (new_id now id : Z) : M PgExperiments unit :=
  claimed ← pg_experiment_claim id;
  match claimed with
  | None => mret tt
  | Some job => pg_experiment_finish (experiment_outcome cfg new_id now id job);; mret tt
  end.
End experiments.

(** * [PostgresRateLimiter] *)

Record rate_limit_row := { rw_started_at : Z; rw_count : Z }.

Abbreviation PgRateLimits := (gmap string rate_limit_row).

(** [consume], with the time of the transaction and the clock it reads after the lock. *)
Definition pg_rate_consume (tx_now clock : Z) (subject : string) (limit window_seconds : Z)
    : M PgRateLimits bool :=
  lift (rate_validate limit window_seconds);;
  transaction (
    update (λ t, match t !! subject with
                 | Some _ => t
                 | None => <[subject := {| rw_started_at := tx_now; rw_count := 0 |}]> t
                 end);;
    t ← self;
    row ← lift (or_raise (t !! subject) AssertionError);
    let reset := rw_started_at row <=? clock - seconds window_seconds in
    let count := if reset then 0 else rw_count row in
    if limit <=? count then mret false
    else if reset then
      update (insert subject {| rw_started_at := tx_now; rw_count := 1 |});; mret true
    else
      lift (raise_if (negb (int4 (rw_count row + 1))) (DatabaseError "value out of range"));;
      update (insert subject {| rw_started_at := rw_started_at row; rw_count := rw_count row + 1 |});;
      mret true).

(** * [PostgresAuditJournal] *)

(** The table [audit_events] by [sequence]; its other columns are the event's fields. *)
Abbreviation PgAudit := (gmap Z AuditEventV1).

(** [ORDER BY sequence] *)
Definition by_sequence (a b : Z * AuditEventV1) : Prop := a.1 ≤ b.1.
#[export] Instance by_sequence_dec : RelDecision by_sequence.
Proof. intros a b. unfold by_sequence. apply _. Defined.

Definition pg_events (t : PgAudit) : list AuditEventV1 := (merge_sort by_sequence (map_to_list t)).*2.

(** [events]: [_event] builds the event from its row again. *)
Definition pg_journal_events : M PgAudit (list AuditEventV1) :=
  t ← self;
  lift (validate_all AuditEventV1_validate (pg_events t)).

Section journal.
Context `{!Externals}.

Definition pg_journal_append (new_id now : Z) (event_type actor : string) (payload : list (pykey * pyval))
    (aggregate_id : option Z) : M PgAudit AuditEventV1 :=
  transaction (
    t ← self;
    let previous := last (pg_events t) in
    let sequence := match previous with Some e => ae_sequence e + 1 | None => 1 end in
    let previous_hash := match previous with Some e => ae_event_hash e | None => GENESIS_HASH end in
    placeholder ← lift (AuditEventV1_validate
      {| ae_schema_version := "aegisledger.audit_event.v1"; ae_sequence := sequence;
         ae_event_id := new_id; ae_event_type := event_type; ae_aggregate_id := aggregate_id;
         ae_occurred_at := now; ae_actor := actor; ae_payload := payload;
         ae_previous_hash := previous_hash; ae_event_hash := GENESIS_HASH |});
    body ← lift (_event_payload placeholder);
    let event := with_event_hash (_hash_payload body) placeholder in
    lift (canonical_json (PDict payload));;
    lift (raise_if (negb (bigint sequence && char_n 66 (ae_event_hash event)))
      (DatabaseError "value out of range"));;
    lift (raise_if (bool_decide (is_Some (t !! sequence))) (UniqueViolation "audit_events_pkey"));;
    lift (raise_if (exists_row (λ e, bool_decide (ae_event_id e = new_id)) t)
      (UniqueViolation "audit_events_event_id_key"));;
    lift (raise_if (exists_row (λ e, bool_decide (ae_event_hash e = ae_event_hash event)) t)
      (UniqueViolation "audit_events_event_hash_key"));;
    update (insert sequence event);;
    mret event).
End journal.

(** * [PostgresServiceAccountStore] *)

(** The table [service_account_credentials] by [credential_id]; the columns are the fields
    of the record. *)
Abbreviation PgAccounts := (gmap Z ServiceAccountRecord).

Definition account_row_ok (r : ServiceAccountRecord) : bool :=
  length_between 1 128 (sa_name r) && length_between 1 256 (sa_subject r)
  && length_between 1 128 (sa_organization_id r) && length_between 1 128 (sa_environment_id r)
  && negb (bool_decide (sa_permissions r = [])) && Nat.eqb (String.length (sa_token_digest r)) 64
  && str_forallb hex_lower_char (sa_token_digest r)
  && match sa_expires_at r with Some e => sa_created_at r <? e | None => true end.

(** [INSERT]: [revoked_at] and [last_used_at] are not among its columns. *)
Definition pg_account_create (r : ServiceAccountRecord) : M PgAccounts unit :=
  t ← self;
  lift (raise_if (negb (account_row_ok r)) (DatabaseError "check constraint violated"));;
  lift (raise_if (bool_decide (is_Some (t !! sa_credential_id r)))
    (UniqueViolation "service_account_credentials_pkey"));;
  lift (raise_if (exists_row (λ x, bool_decide (sa_key_id x = sa_key_id r)) t)
    (UniqueViolation "service_account_credentials_key_id_key"));;
  update (insert (sa_credential_id r) (set_usage None None r)).

Definition pg_get_by_key_id (key_id : Z) : M PgAccounts (option ServiceAccountRecord) :=
  read (λ t, snd <$> select_row (λ _ r, bool_decide (sa_key_id r = key_id)) t).

(** [UPDATE ... WHERE credential_id=%s RETURNING credential_id] *)
Definition update_account (credential_id : Z) (f : ServiceAccountRecord → ServiceAccountRecord)
    : M PgAccounts unit :=
  t ← self;
  r ← lift (or_raise (t !! credential_id)
              (KeyError ("unknown service credential " +:+ uuid_str credential_id)));
  update (insert credential_id (f r)).

Definition pg_account_revoke (credential_id revoked_at : Z) : M PgAccounts unit :=
  update_account credential_id (λ r,
    set_usage (Some (default revoked_at (sa_revoked_at r))) (sa_last_used_at r) r).

Definition pg_account_mark_used (credential_id used_at : Z) : M PgAccounts unit :=
  update_account credential_id (λ r, set_usage (sa_revoked_at r) (Some used_at) r).

(** * Decisions, executions, attestations and settlements *)

Record decisions_row := {
  dw_proposal_id : Z;
  dw_policy_version_id : Z;
  dw_reservation_id : option Z;
  dw_decision_nonce : Z;
  dw_token : DecisionTokenV1;
}.

Record transactions_row := {
  tw_proposal_id : Z;
  tw_decision_id : Z;
  tw_wallet : string;
  tw_chain_id : Z;
  tw_wallet_nonce : Z;
  tw_eip712_hash : string;
  tw_eip1559_hash : string;
  tw_signed_transaction : StoredExecutionV1;
  tw_submitted_at : option Z;
}.

Record settlements_row := {
  sw_transaction_id : Z;
  sw_block_hash : string;
  sw_block_number : Z;
  sw_success : bool;
  sw_confirmations : Z;
  sw_canonical : bool;
  sw_observed_at : Z;
}.

Record attestations_row := {
  aw_decision_id : Z;
  aw_transaction_id : Z;
  aw_evidence : CompleteAttestationV1;
}.

(** The tables, with those they refer to. *)
Record PgArtifacts := {
  a_state : PgState;
  a_policies : PgPolicies;
  t_decisions : gmap Z decisions_row;
  t_transactions : gmap Z transactions_row;
  t_settlements : gmap Z settlements_row;
  t_attestations : gmap Z attestations_row;
}.

Definition set_decisions f (s : PgArtifacts) : PgArtifacts :=
  {| a_state := a_state s; a_policies := a_policies s; t_decisions := f (t_decisions s);
     t_transactions := t_transactions s; t_settlements := t_settlements s;
     t_attestations := t_attestations s |}.
Definition set_transactions f (s : PgArtifacts) : PgArtifacts :=
  {| a_state := a_state s; a_policies := a_policies s; t_decisions := t_decisions s;
     t_transactions := f (t_transactions s); t_settlements := t_settlements s;
     t_attestations := t_attestations s |}.
Definition set_settlements f (s : PgArtifacts) : PgArtifacts :=
  {| a_state := a_state s; a_policies := a_policies s; t_decisions := t_decisions s;
     t_transactions := t_transactions s; t_settlements := f (t_settlements s);
     t_attestations := t_attestations s |}.
Definition set_attestations f (s : PgArtifacts) : PgArtifacts :=
  {| a_state := a_state s; a_policies := a_policies s; t_decisions := t_decisions s;
     t_transactions := t_transactions s; t_settlements := t_settlements s;
     t_attestations := f (t_attestations s) |}.

(** A foreign key. *)
Definition refers {V} (k : Z) (t : gmap Z V) : bool := bool_decide (is_Some (t !! k)).

(** ** [PostgresAuthorizationArtifactStore] *)

Definition pg_get_decision (pid : Z) : M PgArtifacts (option DecisionTokenV1) :=
  db ← self;
  match select_row (λ _ r, bool_decide (dw_proposal_id r = pid)) (t_decisions db) with
  | None => mret None
  | Some (_, row) => d ← lift (DecisionTokenV1_validate (dw_token row)); mret (Some d)
  end.

(** [INSERT INTO decisions ... ON CONFLICT (proposal_id) DO NOTHING RETURNING id] *)
Definition insert_decision (pid : Z) (d : DecisionTokenV1) : M PgArtifacts bool :=
  db ← self;
  lift (raise_if (negb (bigint (state_version d))) (DatabaseError "value out of range"));;
  lift (raise_if (negb (eqb (bool_decide (verdict d = ALLOW)) (bool_decide (is_Some (d_reservation_id d)))))
    (DatabaseError "check constraint violated"));;
  if exists_row (λ r, bool_decide (dw_proposal_id r = pid)) (t_decisions db) then mret false
  else
    lift (raise_if (refers (decision_id d) (t_decisions db)) (UniqueViolation "decisions_pkey"));;
    lift (raise_if (exists_row (λ r, bool_decide (dw_decision_nonce r = decision_nonce d)) (t_decisions db))
      (UniqueViolation "decisions_decision_nonce_key"));;
    lift (raise_if (negb (refers pid (t_proposals (a_state db))
                          && refers (policy_version_id d) (t_policy_versions (a_policies db))
                          && match d_reservation_id d with
                             | Some rid => refers rid (t_reservations (a_state db))
                             | None => true
                             end))
      (DatabaseError "foreign key violated"));;
    update (set_decisions (insert (decision_id d)
      {| dw_proposal_id := pid; dw_policy_version_id := policy_version_id d;
         dw_reservation_id := d_reservation_id d; dw_decision_nonce := decision_nonce d;
         dw_token := d |}));;
    mret true.

Definition pg_put_decision (pid : Z) (d : DecisionTokenV1) : M PgArtifacts (DecisionTokenV1 * bool) :=
  transaction (
    inserted ← insert_decision pid d;
    found ← pg_get_decision pid;
    stored ← lift (or_raise found AssertionError);
    mret (stored, inserted)).

Definition pg_get_execution (pid : Z) : M PgArtifacts (option StoredExecutionV1) :=
  db ← self;
  match select_row (λ _ r, bool_decide (tw_proposal_id r = pid)) (t_transactions db) with
  | None => mret None
  | Some (_, row) =>
      e ← lift (StoredExecutionV1_validate (tw_signed_transaction row));
      mret (Some (match tw_submitted_at row, se_submitted_at e with
                  | Some at_, None => with_submitted_at at_ e
                  | _, _ => e
                  end))
  end.

(** [INSERT INTO transactions ... ON CONFLICT (proposal_id) DO NOTHING RETURNING id] *)
Definition insert_transaction (e : StoredExecutionV1) : M PgArtifacts bool :=
  let q := se_authorization e in
  let row := {| tw_proposal_id := se_proposal_id e; tw_decision_id := decision_id (q_decision q);
    tw_wallet := wallet (q_proposal q); tw_chain_id := q_chain_id q; tw_wallet_nonce := q_wallet_nonce q;
    tw_eip712_hash := q_eip712_hash q; tw_eip1559_hash := se_signing_hash e;
    tw_signed_transaction := e; tw_submitted_at := None |} in
  db ← self;
  lift (raise_if (negb (char_n 42 (tw_wallet row) && bigint (tw_chain_id row) && numeric78 (tw_wallet_nonce row)
                        && char_n 66 (tw_eip712_hash row) && char_n 66 (tw_eip1559_hash row)))
    (DatabaseError "value out of range"));;
  if exists_row (λ r, bool_decide (tw_proposal_id r = tw_proposal_id row)) (t_transactions db) then mret false
  else
    lift (raise_if (refers (se_transaction_id e) (t_transactions db)
        || exists_row (λ r, bool_decide (tw_decision_id r = tw_decision_id row)
             || bool_decide (tw_eip712_hash r = tw_eip712_hash row)
             || bool_decide (tw_eip1559_hash r = tw_eip1559_hash row)
             || bool_decide ((tw_wallet r, tw_chain_id r, tw_wallet_nonce r)
                             = (tw_wallet row, tw_chain_id row, tw_wallet_nonce row))) (t_transactions db))
      (UniqueViolation "transactions"));;
    lift (raise_if (negb (refers (tw_proposal_id row) (t_proposals (a_state db))
                          && refers (tw_decision_id row) (t_decisions db)))
      (DatabaseError "foreign key violated"));;
    update (set_transactions (insert (se_transaction_id e) row));;
    mret true.

Definition pg_put_execution (e : StoredExecutionV1) : M PgArtifacts (StoredExecutionV1 * bool) :=
  transaction (
    inserted ← insert_transaction e;
    found ← pg_get_execution (se_proposal_id e);
    stored ← lift (or_raise found AssertionError);
    mret (stored, inserted)).

Definition submit_row (at_ : Z) (r : transactions_row) : transactions_row :=
  {| tw_proposal_id := tw_proposal_id r; tw_decision_id := tw_decision_id r; tw_wallet := tw_wallet r;
     tw_chain_id := tw_chain_id r; tw_wallet_nonce := tw_wallet_nonce r;
     tw_eip712_hash := tw_eip712_hash r; tw_eip1559_hash := tw_eip1559_hash r;
     tw_signed_transaction := tw_signed_transaction r;
     tw_submitted_at := Some (default at_ (tw_submitted_at r)) |}.

Definition pg_mark_submitted (pid at_ : Z) : M PgArtifacts StoredExecutionV1 :=
  transaction (
    update (set_transactions (fmap (λ r,
      if bool_decide (tw_proposal_id r = pid) then submit_row at_ r else r)));;
    found ← pg_get_execution pid;
    lift (or_raise found (KeyError ("unknown execution for proposal " +:+ uuid_str pid)))).

(** ** [PostgresAttestationStore] *)

Definition pg_attestation_get (pid : Z) : M PgArtifacts (option CompleteAttestationV1) :=
  db ← self;
  match select_row (λ _ a, match t_decisions db !! aw_decision_id a with
                           | Some d => bool_decide (dw_proposal_id d = pid)
                           | None => false
                           end) (t_attestations db) with
  | None => mret None
  | Some (_, row) => a ← lift (CompleteAttestationV1_validate (aw_evidence row)); mret (Some a)
  end.

(** [SELECT d.id,t.id FROM decisions d JOIN transactions t ON t.decision_id=d.id] *)
Definition durable_binding (db : PgArtifacts) (pid : Z) : option (Z * Z) :=
  e ← select_row (λ _ t, match t_decisions db !! tw_decision_id t with
                         | Some d => bool_decide (dw_proposal_id d = pid)
                         | None => false
                         end) (t_transactions db);
  Some (tw_decision_id e.2, e.1).

Definition pg_attestation_put `{!EvidenceExternals} (new_id pid : Z) (a : CompleteAttestationV1)
    : M PgArtifacts (CompleteAttestationV1 * bool) :=
  lift (raise_if (negb (proposal_id (ca_proposal a) =? pid))
    (ValueError "attestation proposal binding mismatch"));;
  transaction (
    db ← self;
    '(did, tid) ← lift (or_raise (durable_binding db pid)
                          (ValueError "attestation requires a durable signed transaction"));
    lift (raise_if (negb (did =? decision_id (ca_decision a)))
      (ValueError "attestation decision binding mismatch"));;
    lift (fromisoformat (ee_expires_at (ca_enclave_evidence a)));;
    inserted ← (if exists_row (λ r, bool_decide (aw_decision_id r = did)) (t_attestations db) then mret false
                else
                  lift (raise_if (refers new_id (t_attestations db)) (UniqueViolation "attestations_pkey"));;
                  update (set_attestations (insert new_id
                    {| aw_decision_id := did; aw_transaction_id := tid; aw_evidence := a |}));;
                  mret true);
    found ← pg_attestation_get pid;
    stored ← lift (or_raise found AssertionError);
    mret (stored, inserted)).

(** ** [PostgresSettlementStore] *)

Definition pg_settlement_register (h : string) (pid chain : Z) : M PgArtifacts unit :=
  db ← self;
  e ← lift (or_raise (select_row (λ _ r, bool_decide (tw_proposal_id r = pid)
                                         && bool_decide (is_Some (tw_submitted_at r))) (t_transactions db))
              (ValueError "submitted transaction is not durable"));
  lift (raise_if (negb (tw_chain_id e.2 =? chain)
                  || negb (bool_decide (str_lower (se_transaction_hash (tw_signed_transaction e.2))
                                        = str_lower h)))
    (ValueError "durable transaction binding mismatch")).

(** The canonical rows of a transaction, the latest observation first. *)
Definition by_observed (a b : Z * settlements_row) : Prop := sw_observed_at b.2 ≤ sw_observed_at a.2.
#[export] Instance by_observed_dec : RelDecision by_observed.
Proof. intros a b. unfold by_observed. apply _. Defined.

Definition canonical_row (db : PgArtifacts) (tid : Z) : option settlements_row :=
  snd <$> head (merge_sort by_observed
    (filter (λ e, (sw_transaction_id e.2 =? tid) && sw_canonical e.2 = true) (map_to_list (t_settlements db)))).

Definition orphaned (db : PgArtifacts) (tid : Z) : Z :=
  count_values (λ r, (sw_transaction_id r =? tid) && negb (sw_canonical r)) (t_settlements db).

Definition tracked_of (db : PgArtifacts) (e : Z * transactions_row) : TrackedTransaction :=
  let s := canonical_row db e.1 in
  {| tt_transaction_hash := str_lower (se_transaction_hash (tw_signed_transaction e.2));
     tt_proposal_id := tw_proposal_id e.2; tt_chain_id := tw_chain_id e.2; tt_status := "PENDING";
     tt_block_hash := sw_block_hash <$> s; tt_block_number := None; tt_success := None;
     tt_confirmations := from_option sw_confirmations 0 s; tt_reorg_count := orphaned db e.1;
     tt_observed_at := None |}.

Definition in_flight (db : PgArtifacts) (e : Z * transactions_row) : bool :=
  bool_decide (is_Some (tw_submitted_at e.2))
  && match t_proposals (a_state db) !! tw_proposal_id e.2 with
     | Some p => bool_decide (pp_state p = SUBMITTED)
     | None => false
     end.

Definition pg_settlement_pending : M PgArtifacts (list TrackedTransaction) :=
  read (λ db, map (tracked_of db) (filter (λ e, in_flight db e = true) (map_to_list (t_transactions db)))).

(** [WHERE signed_transaction->>'transaction_hash'=%s] *)
Definition transaction_of (h : string) (db : PgArtifacts) : option (Z * transactions_row) :=
  select_row (λ _ r, bool_decide (se_transaction_hash (tw_signed_transaction r) = h)) (t_transactions db).

Definition orphan_row (tid : Z) (block_hash : string) (r : settlements_row) : settlements_row :=
  if (sw_transaction_id r =? tid) && sw_canonical r && negb (bool_decide (sw_block_hash r = block_hash))
  then {| sw_transaction_id := sw_transaction_id r; sw_block_hash := sw_block_hash r;
          sw_block_number := sw_block_number r; sw_success := sw_success r;
          sw_confirmations := sw_confirmations r; sw_canonical := false;
          sw_observed_at := sw_observed_at r |}
  else r.

(** [INSERT INTO settlements ... ON CONFLICT (transaction_id,block_hash) DO UPDATE] *)
Definition upsert_settlement (new_id : Z) (row : settlements_row) (t : gmap Z settlements_row)
    : result (gmap Z settlements_row) :=
  match select_row (λ _ r, (sw_transaction_id r =? sw_transaction_id row)
                           && bool_decide (sw_block_hash r = sw_block_hash row)) t with
  | Some (k, r) => Ok (<[k := {| sw_transaction_id := sw_transaction_id r; sw_block_hash := sw_block_hash r;
                             sw_block_number := sw_block_number r; sw_success := sw_success row;
                             sw_confirmations := sw_confirmations row; sw_canonical := true;
                             sw_observed_at := sw_observed_at row |}]> t)
  | None =>
      raise_if (refers new_id t) (UniqueViolation "settlements_pkey");;
      Ok (<[new_id := row]> t)
  end.

Definition pg_settlement_observe (new_id now : Z) (h block_hash : string) (block_number : Z)
    (success : bool) (confirmations : Z) : M PgArtifacts unit :=
  transaction (
    db ← self;
    e ← lift (or_raise (transaction_of h db) (KeyError ("unknown transaction " +:+ h)));
    update (set_settlements (fmap (orphan_row e.1 block_hash)));;
    lift (raise_if (negb (char_n 66 block_hash && bigint block_number && int4 confirmations))
      (DatabaseError "value out of range"));;
    db ← self;
    t ← lift (upsert_settlement new_id
      {| sw_transaction_id := e.1; sw_block_hash := block_hash; sw_block_number := block_number;
         sw_success := success; sw_confirmations := confirmations; sw_canonical := true;
         sw_observed_at := now |} (t_settlements db));
    update (set_settlements (λ _, t))).

Definition pg_settlement_complete (h status : string) : M PgArtifacts unit :=
  lift (raise_if (negb (is_in status ["SETTLED"; "REVERTED"])) (ValueError "invalid terminal settlement status"));;
  db ← self;
  lift (raise_if (negb (bool_decide (is_Some (select_row (λ _ r,
      bool_decide (se_transaction_hash (tw_signed_transaction r) = h)
      && match t_proposals (a_state db) !! tw_proposal_id r with
         | Some p => bool_decide (state_value (pp_state p) = status)
         | None => false
         end) (t_transactions db)))))
    (RuntimeError "lifecycle transition was not durably committed")).

Definition pg_settlement_observation (h : string) : M PgArtifacts (option SettlementObservation) :=
  read (λ db,
    e ← transaction_of h db;
    s ← canonical_row db e.1;
    Some {| so_transaction_hash := str_lower h; so_block_hash := str_lower (sw_block_hash s);
            so_block_number := sw_block_number s; so_chain_id := tw_chain_id e.2;
            so_success := sw_success s; so_confirmations := sw_confirmations s;
            so_observed_at := sw_observed_at s |}).
