(* ===== verification/PostgresStoresFacts.v ===== *)
(** The other PostgreSQL stores do what their memory counterparts do: experiments, rate
    limits, the audit journal, executions. *)
From Stdlib Require Import ZArith Lia Ascii String.
From stdpp Require Import base gmap sets list strings pretty sorting.
From S2P Require Import Prelude Bytes Canonical CanonicalFacts Contracts Policy State Postgres PostgresFacts.
From S2P Require Import Signing Journal RateLimit Artifacts Attestations Settlements Experiments ExperimentsFacts.
From S2P Require Import Access PostgresStores.

Open Scope Z_scope.

(** * Experiments *)

Definition jobs_sim (s : MemoryExperimentStore) (t : PgExperiments) : Prop :=
  ∀ id, _jobs s !! id = job_of id <$> t !! id.

Lemma jobs_sim_init : jobs_sim experiments_init ∅.
Proof. intros id. cbn. by rewrite !lookup_empty. Qed.

Lemma jobs_sim_insert s t id j row :
  jobs_sim s t → j = job_of id row → jobs_sim {| _jobs := <[id := j]> (_jobs s) |} (<[id := row]> t).
Proof.
  intros Hs -> k. cbn. destruct (decide (k = id)) as [->|Hne].
  - by rewrite !lookup_insert_eq.
  - by rewrite !lookup_insert_ne by done.
Qed.

(** Counting over the two stores. *)
Lemma jobs_count s t (p : ExperimentJob → bool) (q : experiments_row → bool) :
  jobs_sim s t → (∀ id row, p (job_of id row) = q row) →
  count_values p (_jobs s) = count_values q t.
Proof.
  intros Hs Hpq. apply sum_values_sim. intros id. rewrite (Hs id).
  destruct (t !! id) as [row|]; cbn; constructor. unfold term. by rewrite Hpq.
Qed.

Lemma claim_sim id s t :
  jobs_sim s t →
  jobs_sim (fst (experiment_claim id s)) (fst (pg_experiment_claim id t))
  ∧ snd (experiment_claim id s) = snd (pg_experiment_claim id t).
Proof.
  intros Hs. unfold experiment_claim, pg_experiment_claim, update_experiment, self, put_job, update, mbind, M_bind.
  rewrite (Hs id). destruct (t !! id) as [row|] eqn:Hrow; cbn; [|done].
  unfold job_status. cbn. destruct (decide (xw_status row = X_QUEUED)) as [Hq|Hq].
  - rewrite bool_decide_false, bool_decide_true by tauto. cbn. split; [|done]. by apply jobs_sim_insert.
  - rewrite bool_decide_true, bool_decide_false by done. done.
Qed.

Lemma finish_sim r s t row :
  jobs_sim s t → t !! xp_experiment_id r = Some row → xw_status row = X_RUNNING →
  xp_seed r = xw_seed row → xp_configuration_hash r = xw_configuration_hash row →
  jobs_sim (fst (experiment_finish r s)) (fst (pg_experiment_finish r t))
  ∧ snd (experiment_finish r s) = snd (pg_experiment_finish r t).
Proof.
  intros Hs Hrow Hst Hseed Hh. unfold experiment_finish, pg_experiment_finish, update_experiment, self, lift,
    put_job, update, mbind, M_bind.
  destruct (is_in (xp_status r) _) eqn:Hterm; [|done]. cbn [negb raise_if].
  rewrite (Hs (xp_experiment_id r)), Hrow, (bool_decide_true (xw_status row = X_RUNNING)) by done. cbn.
  assert ({| job_response := r; job_request := xw_request row; job_principal_id := xw_principal_id row |}
    = job_of (xp_experiment_id r) (with_xw (xp_status r) (xp_result_uri r) (xp_summary r) (xp_error r) row)) as ->.
  { unfold job_of, with_xw. cbn. rewrite <- Hseed, <- Hh. by destruct r. }
  split; [|done]. by apply jobs_sim_insert.
Qed.

Lemma requeue_sim s t :
  jobs_sim s t →
  jobs_sim (fst (requeue_running s)) (fst (pg_requeue_running t))
  ∧ snd (requeue_running s) = snd (pg_requeue_running t).
Proof.
  intros Hs. split.
  - intros id. rewrite requeue_jobs, (Hs id). unfold pg_requeue_running, self, update, mbind, M_bind.
    cbn [fst mret M_ret]. rewrite lookup_fmap.
    destruct (t !! id) as [row|]; cbn; [|done]. unfold job_status. cbn. by case_bool_decide.
  - unfold requeue_running, pg_requeue_running, self, update, mbind, M_bind, mret, M_ret. cbn [snd]. f_equal.
    by apply jobs_count.
Qed.

Lemma active_count_sim p s t : jobs_sim s t → active_count p s = pg_active_count p t.
Proof. intros Hs. by apply jobs_count. Qed.

Lemma jobs_list s t :
  jobs_sim s t → map_to_list (_jobs s) ≡ₚ map (λ e, (e.1, job_of e.1 e.2)) (map_to_list t).
Proof.
  intros Hs. apply NoDup_Permutation.
  - apply NoDup_map_to_list.
  - apply (NoDup_fmap_1 fst). rewrite <- list_fmap_compose. apply NoDup_fst_map_to_list.
  - intros [id j]. rewrite elem_of_map_to_list, list_elem_of_fmap, (Hs id). split.
    + intros (row & Hrow & ->)%fmap_Some. exists (id, row). split; [done|]. by apply elem_of_map_to_list.
    + intros ([k row] & [= -> ->] & Hin%elem_of_map_to_list). by rewrite Hin.
Qed.

Lemma filter_map_perm {A B} (f : A → B) (p : B → bool) (q : A → bool) l :
  (∀ a, p (f a) = q a) → filter (λ b, p b = true) (map f l) = map f (filter (λ a, q a = true) l).
Proof.
  intros Hpq. induction l as [|a l IH]; [done|]. cbn [map]. rewrite !filter_cons, IH.
  rewrite (Hpq a). by case_decide.
Qed.

Lemma pending_sim s t :
  jobs_sim s t →
  ∃ l l', snd (experiment_pending s) = Ok l ∧ snd (pg_experiment_pending t) = Ok l' ∧ l ≡ₚ l'.
Proof.
  intros Hs. unfold experiment_pending, pg_experiment_pending, read. cbn [snd]. eexists _, _.
  split_and!; [done|done|]. rewrite (merge_sort_Permutation xw_by_created), (jobs_list s t Hs).
  rewrite <- list_fmap_compose. by erewrite <- filter_map_perm.
Qed.

Lemma Hex32_fits h : Hex32 h = true → char_n 66 h = true.
Proof.
  unfold Hex32, prefixed_exactly, char_n. rewrite !andb_true_iff, Nat.eqb_eq. intros [[_ ->] _]. done.
Qed.

Section queue.
Context `{!Externals} (cfg : ExperimentConfig).

Lemma queue_sim new_id now request actor s t :
  jobs_sim s t → t !! new_id = None →
  jobs_sim (fst (queue_experiment cfg new_id now request actor s))
           (fst (pg_queue_experiment cfg new_id now request actor t))
  ∧ snd (queue_experiment cfg new_id now request actor s)
    = snd (pg_queue_experiment cfg new_id now request actor t).
Proof.
  intros Hs Hn. unfold queue_experiment, pg_queue_experiment, read, lift, mbind, M_bind.
  rewrite (active_count_sim actor s t Hs).
  destruct (xc_max_active_per_principal cfg <=? pg_active_count actor t); [done|]. cbn [raise_if].
  destruct (create_experiment_spec _ _ _ _ _ _ _) as [spec|e] eqn:Hspec; [|done].
  pose proof (create_spec_Ok _ _ _ _ _ Hspec) as (Hid & _).
  assert (char_n 66 (es_configuration_hash spec) = true) as Hfit.
  { unfold create_experiment_spec, ExperimentSpecV1_validate in Hspec. ok_inv Hspec.
    injection Hspec as <-. ok_invs. prop_of_bool. destruct_and!. by apply Hex32_fits. }
  unfold experiment_create, pg_experiment_create, put_job, update, self, lift, mbind, M_bind.
  cbn [job_response xp_experiment_id xp_configuration_hash]. rewrite Hid, Hfit. cbn [negb raise_if].
  rewrite (Hs new_id), Hn. cbn [fmap option_fmap option_map]. rewrite bool_decide_false by (by intros []).
  cbn. split; [|done]. apply jobs_sim_insert; [done|]. unfold job_of. cbn. by rewrite <- Hid.
Qed.

Lemma outcome_keeps new_id now id j :
  xp_seed (experiment_outcome cfg new_id now id j) = xp_seed (job_response j)
  ∧ xp_configuration_hash (experiment_outcome cfg new_id now id j) = xp_configuration_hash (job_response j).
Proof. unfold experiment_outcome. by destruct (experiment_body _ _ _ _ _) as [[]|]. Qed.

(** A worker's finish, in both stores. *)
Lemma worker_finish_sim x t id j new_id now :
  xinv cfg x → jobs_sim (xs_store x) t → (id, j) ∈ xs_workers x →
  let r := experiment_outcome cfg new_id now id j in
  jobs_sim (fst (experiment_finish r (xs_store x))) (fst (pg_experiment_finish r t))
  ∧ snd (experiment_finish r (xs_store x)) = snd (pg_experiment_finish r t).
Proof.
  intros Hx Hs Hin r. destruct (xi_held _ _ Hx _ _ Hin) as [Hj Hst].
  pose proof (jo_id _ _ _ (xi_jobs _ _ Hx _ _ Hj)) as Hid. rewrite (Hs id) in Hj.
  apply fmap_Some in Hj as (row & Hrow & ->). destruct (outcome_keeps new_id now id (job_of id row)) as [H1 H2].
  apply (finish_sim r _ _ row); [done| |done|done|done]. unfold r. by rewrite outcome_id.
Qed.

(** The two stores under the same requests, workers and restarts. *)
Inductive xboth : xsys → PgExperiments → Prop :=
  | xb_start : xboth xstart ∅
  | xb_queue x t d request new_id now actor :
      xboth x t → ExperimentRequest_validate d = Ok request → t !! new_id = None →
      xboth {| xs_store := fst (queue_experiment cfg new_id now request actor (xs_store x));
               xs_workers := xs_workers x |}
            (fst (pg_queue_experiment cfg new_id now request actor t))
  | xb_claim x t id s r :
      xboth x t → experiment_claim id (xs_store x) = (s, Ok r) →
      xboth {| xs_store := s;
               xs_workers := match r with Some j => (id, j) :: xs_workers x | None => xs_workers x end |}
            (fst (pg_experiment_claim id t))
  | xb_finish x t before id j after new_id now :
      xboth x t → xs_workers x = before ++ (id, j) :: after →
      xboth {| xs_store := fst (experiment_finish (experiment_outcome cfg new_id now id j) (xs_store x));
               xs_workers := before ++ after |}
            (fst (pg_experiment_finish (experiment_outcome cfg new_id now id j) t))
  | xb_restart x t :
      xboth x t →
      xboth {| xs_store := fst (requeue_running (xs_store x)); xs_workers := [] |} (fst (pg_requeue_running t)).

Lemma xboth_sim x t : xboth x t → xinv cfg x ∧ jobs_sim (xs_store x) t.
Proof.
  induction 1 as [|x t d request new_id now actor _ [Hx Hs] Hd Hn|x t id s r _ [Hx Hs] Hc
    |x t before id j after new_id now _ [Hx Hs] Hw|x t _ [Hx Hs]]; cbn [xs_store].
  - split; [apply xstart_inv|apply jobs_sim_init].
  - split; [by eapply queue_inv|by apply queue_sim].
  - split; [by eapply claim_inv|]. destruct (claim_sim id _ _ Hs) as [Hsim _]. by rewrite Hc in Hsim.
  - split; [by eapply finish_inv|]. apply worker_finish_sim; [done|done|]. rewrite Hw. set_solver.
  - split; [by apply restart_inv|by apply requeue_sim].
Qed.

(** C17: the PostgreSQL experiment store runs the queue like the memory store.  Under the same
    requests, workers and restarts, in any interleaving, the two hold the same jobs: every
    lookup, count of active jobs, claim, requeue and queueing of a new experiment gives the
    same answer, the pending jobs are the same up to order, and a worker's result is stored
    as the same job.  A job that is not running cannot be finished in the database. *)
Theorem postgres_experiments_equivalence x t :
  xboth x t →
  (∀ id, snd (experiment_get id (xs_store x)) = snd (pg_experiment_get id t))
  ∧ (∀ p, active_count p (xs_store x) = pg_active_count p t)
  ∧ (∃ l l', snd (experiment_pending (xs_store x)) = Ok l ∧ snd (pg_experiment_pending t) = Ok l' ∧ l ≡ₚ l')
  ∧ (∀ id, snd (experiment_claim id (xs_store x)) = snd (pg_experiment_claim id t))
  ∧ snd (requeue_running (xs_store x)) = snd (pg_requeue_running t)
  ∧ (∀ new_id now request actor, t !! new_id = None →
       snd (queue_experiment cfg new_id now request actor (xs_store x))
       = snd (pg_queue_experiment cfg new_id now request actor t))
  ∧ (∀ id j new_id now, (id, j) ∈ xs_workers x →
       snd (experiment_finish (experiment_outcome cfg new_id now id j) (xs_store x))
       = snd (pg_experiment_finish (experiment_outcome cfg new_id now id j) t))
  ∧ (∀ r, (∀ j, _jobs (xs_store x) !! xp_experiment_id r = Some j → job_status j ≠ X_RUNNING) →
       fst (pg_experiment_finish r t) = t).
Proof.
  intros Hb. destruct (xboth_sim _ _ Hb) as [Hx Hs]. split_and!.
  - intros id. unfold experiment_get, pg_experiment_get, read. cbn. by rewrite (Hs id).
  - intros p. by apply active_count_sim.
  - by apply pending_sim.
  - intros id. by apply claim_sim.
  - by apply requeue_sim.
  - intros. by apply queue_sim.
  - intros. by apply worker_finish_sim.
  - intros r Hr. rewrite (Hs (xp_experiment_id r)) in Hr. unfold pg_experiment_finish, update_experiment, lift,
      self, mbind, M_bind. destruct (is_in _ _); [|done]. cbn [negb raise_if].
    destruct (t !! xp_experiment_id r) as [row|]; [|done]. specialize (Hr _ eq_refl).
    by rewrite bool_decide_false.
Qed.
End queue.

(** Two requests are queued and the first is claimed. *)
Definition demo_table (id : Z) (t : PgExperiments) : PgExperiments :=
  fst (@pg_queue_experiment sized_externals demo_config id 100 demo_request "alice" t).
Definition demo_pg_running : PgExperiments := fst (pg_experiment_claim 1 (demo_table 2 (demo_table 1 ∅))).

Lemma demo_queue_both id s t :
  @xboth sized_externals demo_config {| xs_store := s; xs_workers := [] |} t → t !! id = None →
  @xboth sized_externals demo_config {| xs_store := demo_store id s; xs_workers := [] |} (demo_table id t).
Proof.
  intros Hb Hn. exact (@xb_queue sized_externals demo_config {| xs_store := s; xs_workers := [] |} t
    (ExperimentRequest_dump demo_request) demo_request id 100 "alice" Hb ltac:(vm_compute; reflexivity) Hn).
Qed.

Lemma demo_both : @xboth sized_externals demo_config demo_running demo_pg_running.
Proof.
  refine (@xb_claim sized_externals demo_config {| xs_store := demo_queued; xs_workers := [] |} _ 1
    (xs_store demo_running) (Some demo_claimed) _ ltac:(vm_compute; reflexivity)).
  apply demo_queue_both; [|vm_compute; reflexivity].
  apply demo_queue_both; [constructor|reflexivity].
Qed.

Lemma postgres_experiments_equivalence_witness :
  pg_active_count "alice" demo_pg_running = 2
  ∧ active_count "alice" (xs_store demo_running) = pg_active_count "alice" demo_pg_running
  ∧ snd (experiment_claim 2 (xs_store demo_running)) = snd (pg_experiment_claim 2 demo_pg_running).
Proof.
  destruct (@postgres_experiments_equivalence sized_externals demo_config demo_running demo_pg_running demo_both)
    as (_ & Hcount & _ & Hclaim & _).
  split; [vm_compute; reflexivity|]. split; [apply Hcount|apply Hclaim].
Defined.
