(* ===== verification/PostgresSettlementsFacts.v ===== *)
(** The settlement tables and the memory settlement store see the same observations, also
    through reorganisations of the chain; they differ in how they count those. *)
From Stdlib Require Import ZArith Lia Ascii String.
From stdpp Require Import base gmap sets list strings pretty sorting.
From S2P Require Import Prelude Bytes Canonical Contracts ContractsFacts State Postgres PostgresFacts Signing.
From S2P Require Import SigningFacts Artifacts Attestations Settlements SettlementsFacts PostgresStores.

Open Scope Z_scope.

(** * The table [settlements] *)

Abbreviation settlements := (gmap Z settlements_row).

Definition canonical_of (tid : Z) (r : settlements_row) : bool := (sw_transaction_id r =? tid) && sw_canonical r.
Definition orphan_of (tid : Z) (r : settlements_row) : bool := (sw_transaction_id r =? tid) && negb (sw_canonical r).

(** [UNIQUE (transaction_id, block_hash)], and one canonical block per transaction. *)
Record settlements_ok (t : settlements) : Prop := {
  so_block_once : ∀ k k' r r', t !! k = Some r → t !! k' = Some r' →
    sw_transaction_id r = sw_transaction_id r' → sw_block_hash r = sw_block_hash r' → k = k';
  so_one_canonical : ∀ k k' r r' tid, t !! k = Some r → t !! k' = Some r' →
    canonical_of tid r = true → canonical_of tid r' = true → k = k';
}.

(** The canonical row, by key. *)
Definition the_canonical (tid : Z) (t : settlements) : option (Z * settlements_row) :=
  select_row (λ _, canonical_of tid) t.

Lemma the_canonical_Some tid t k r :
  settlements_ok t → the_canonical tid t = Some (k, r) ↔ t !! k = Some r ∧ canonical_of tid r = true.
Proof.
  intros Ht. split; [intros Hs; by apply select_row_Some in Hs|]. intros [Hk Hc]. apply select_row_unique; [done..|].
  intros k' r' Hk' Hc'. by eapply so_one_canonical.
Qed.

(** What [ORDER BY observed_at DESC] sorts. *)
Lemma sorted_canonical_in db tid k r :
  (k, r) ∈ merge_sort by_observed (filter (λ e : Z * settlements_row,
      (sw_transaction_id e.2 =? tid) && sw_canonical e.2 = true) (map_to_list (t_settlements db)))
  ↔ t_settlements db !! k = Some r ∧ canonical_of tid r = true.
Proof.
  rewrite (merge_sort_Permutation by_observed), list_elem_of_filter, elem_of_map_to_list. cbn. tauto.
Qed.

(** [ORDER BY observed_at DESC LIMIT 1] has one row to choose from. *)
Lemma canonical_row_unique db tid :
  settlements_ok (t_settlements db) → canonical_row db tid = snd <$> the_canonical tid (t_settlements db).
Proof.
  intros Ht. unfold canonical_row. pose proof (sorted_canonical_in db tid) as Hin.
  destruct (the_canonical tid _) as [[k r]|] eqn:Hc.
  - apply the_canonical_Some in Hc as [Hk Hr]; [|done].
    pose proof (proj2 (Hin k r) (conj Hk Hr)) as Hl. destruct (merge_sort _ _) as [|[k' r'] l].
    { by apply elem_of_nil in Hl. }
    destruct (proj1 (Hin k' r') ltac:(left)) as [Hk' Hr'].
    pose proof (so_one_canonical _ Ht _ _ _ _ tid Hk' Hk Hr' Hr) as ->. cbn. congruence.
  - destruct (merge_sort _ _) as [|[k' r'] l]; [done|]. exfalso.
    destruct (proj1 (Hin k' r') ltac:(left)) as [Hk' Hr'].
    unfold the_canonical in Hc. rewrite select_row_None in Hc. specialize (Hc _ _ Hk'). congruence.
Qed.

(** * Orphaning the other blocks *)

Lemma orphan_row_other tid tid' bh r :
  tid' ≠ tid → canonical_of tid' (orphan_row tid bh r) = canonical_of tid' r
             ∧ orphan_of tid' (orphan_row tid bh r) = orphan_of tid' r.
Proof.
  intros Hne. unfold orphan_row, canonical_of, orphan_of.
  destruct (sw_transaction_id r =? tid) eqn:Ht; [|done]. prop_of_bool. cbn [andb].
  destruct (sw_canonical r && negb (bool_decide (sw_block_hash r = bh))); [|done]. cbn.
  rewrite !(proj2 (Z.eqb_neq (sw_transaction_id r) tid')) by lia. done.
Qed.

Lemma orphan_row_fields tid bh r :
  sw_transaction_id (orphan_row tid bh r) = sw_transaction_id r
  ∧ sw_block_hash (orphan_row tid bh r) = sw_block_hash r
  ∧ (sw_canonical (orphan_row tid bh r) = true → sw_canonical r = true
       ∧ (sw_transaction_id r = tid → sw_block_hash r = bh)).
Proof.
  unfold orphan_row. destruct (sw_transaction_id r =? tid) eqn:Ht; prop_of_bool; cbn [andb].
  - destruct (sw_canonical r) eqn:Hc; cbn [andb]; [|by rewrite Hc].
    case_bool_decide; cbn; [by rewrite Hc|done].
  - split_and!; done.
Qed.

Lemma orphan_row_number tid bh r : sw_block_number (orphan_row tid bh r) = sw_block_number r.
Proof. unfold orphan_row. by destruct (_ && _). Qed.

(** The update touches at most the canonical row. *)
Lemma orphan_table tid bh t :
  settlements_ok t →
  orphan_row tid bh <$> t
  = match the_canonical tid t with
    | Some (k, r) => <[k := orphan_row tid bh r]> t
    | None => t
    end.
Proof.
  intros Ht. apply map_eq. intros j. rewrite lookup_fmap.
  assert (∀ r, canonical_of tid r = false → orphan_row tid bh r = r) as Hid.
  { intros r Hr. unfold orphan_row. unfold canonical_of in Hr. by rewrite Hr. }
  destruct (the_canonical tid t) as [[k r]|] eqn:Hc.
  - apply the_canonical_Some in Hc as [Hk Hr]; [|done]. destruct (decide (j = k)) as [->|Hne].
    + by rewrite lookup_insert_eq, Hk.
    + rewrite lookup_insert_ne by done. destruct (t !! j) as [r'|] eqn:Hj; [|done]. cbn. f_equal. apply Hid.
      apply not_true_is_false. intros Hr'. apply Hne. by eapply so_one_canonical.
  - unfold the_canonical in Hc. rewrite select_row_None in Hc. destruct (t !! j) as [r'|] eqn:Hj; [|done].
    cbn. f_equal. apply Hid. by eapply Hc.
Qed.

Lemma orphan_ok tid bh t : settlements_ok t → settlements_ok (orphan_row tid bh <$> t).
Proof.
  intros [H1 H2].
  assert (∀ k r, (orphan_row tid bh <$> t) !! k = Some r → ∃ x, t !! k = Some x ∧ r = orphan_row tid bh x) as Hf.
  { intros k r. rewrite lookup_fmap. intros (x & -> & ->)%fmap_Some. by exists x. }
  constructor.
  - intros k k' r r' (x & Hk & ->)%Hf (x' & Hk' & ->)%Hf.
    destruct (orphan_row_fields tid bh x) as (-> & -> & _), (orphan_row_fields tid bh x') as (-> & -> & _).
    by apply H1.
  - intros k k' r r' tid' (x & Hk & ->)%Hf (x' & Hk' & ->)%Hf. unfold canonical_of.
    destruct (orphan_row_fields tid bh x) as (-> & _ & Hc), (orphan_row_fields tid bh x') as (-> & _ & Hc').
    rewrite !andb_true_iff. intros [??] [??].
    apply (H2 k k' x x' tid'); [done|done|..]; unfold canonical_of; apply andb_true_iff; naive_solver.
Qed.

(** * One observation *)

Section observation.
Variables (tid new_id : Z) (bh : string) (number : Z) (success : bool) (confirmations now : Z).
Variable t : settlements.
Hypothesis Ht : settlements_ok t.
Hypothesis Hnew : t !! new_id = None.

Definition observed_row : settlements_row :=
  {| sw_transaction_id := tid; sw_block_hash := bh; sw_block_number := number; sw_success := success;
     sw_confirmations := confirmations; sw_canonical := true; sw_observed_at := now |}.

(** The row of this block, if it was seen before. *)
Definition seen_before : option (Z * settlements_row) :=
  select_row (λ _ r, (sw_transaction_id r =? tid) && bool_decide (sw_block_hash r = bh)) (orphan_row tid bh <$> t).

Definition observed_key : Z := from_option fst new_id seen_before.
Definition observed_value : settlements_row :=
  {| sw_transaction_id := tid; sw_block_hash := bh;
     sw_block_number := from_option (λ e, sw_block_number e.2) number seen_before; sw_success := success;
     sw_confirmations := confirmations; sw_canonical := true; sw_observed_at := now |}.

Lemma upsert_spec :
  upsert_settlement new_id observed_row (orphan_row tid bh <$> t)
  = Ok (<[observed_key := observed_value]> (orphan_row tid bh <$> t)).
Proof.
  unfold upsert_settlement, observed_key, observed_value. cbn [sw_transaction_id sw_block_hash observed_row].
  fold seen_before. destruct seen_before as [[k r]|] eqn:Hs.
  - apply select_row_Some in Hs as [_ Hp]. prop_of_bool. destruct_and!. prop_of_bool. cbn. subst. done.
  - unfold refers. rewrite lookup_fmap, Hnew. done.
Qed.

Local Abbreviation u := (orphan_row tid bh <$> t).
Definition observed_table : settlements := <[observed_key := observed_value]> u.

Lemma observed_key_at k r :
  u !! k = Some r → sw_transaction_id r = tid → sw_block_hash r = bh → k = observed_key.
Proof.
  intros Hk Hr Hb. unfold observed_key. destruct seen_before as [[k' r']|] eqn:Hs; cbn.
  - apply select_row_Some in Hs as [Hk' Hp]. prop_of_bool. destruct Hp as [Hp1 Hp2]. prop_of_bool.
    apply (so_block_once _ (orphan_ok tid bh t Ht) k k' r r'); congruence.
  - unfold seen_before in Hs. rewrite select_row_None in Hs. specialize (Hs _ _ Hk).
    rewrite Hr, Hb, Z.eqb_refl, bool_decide_true in Hs by done. done.
Qed.

Lemma at_observed_key r : u !! observed_key = Some r → sw_transaction_id r = tid ∧ sw_block_hash r = bh.
Proof.
  unfold observed_key. destruct seen_before as [[k' r']|] eqn:Hs; cbn.
  - apply select_row_Some in Hs as [Hk' Hp]. prop_of_bool. destruct Hp. prop_of_bool. intros. by simplify_eq.
  - by rewrite lookup_fmap, Hnew.
Qed.

Lemma orphaned_canonical k r : u !! k = Some r → canonical_of tid r = true → k = observed_key.
Proof.
  intros Hk Hc. rewrite lookup_fmap in Hk. apply fmap_Some in Hk as (x & Hx & Hr).
  destruct (orphan_row_fields tid bh x) as (H1 & H2 & H3). rewrite <- Hr in *.
  unfold canonical_of in Hc. apply andb_true_iff in Hc as [Hc1 Hc2]. prop_of_bool.
  apply (observed_key_at k r); [by rewrite lookup_fmap, Hx, Hr|done|].
  rewrite H2. apply H3; congruence.
Qed.

Lemma observed_lookup k r :
  observed_table !! k = Some r → (k = observed_key ∧ r = observed_value) ∨ (k ≠ observed_key ∧ u !! k = Some r).
Proof. unfold observed_table. intros [[-> ->]|[Hne Hk]]%lookup_insert_Some; [by left|by right]. Qed.

Lemma observed_value_of tid' : canonical_of tid' observed_value = true → tid' = tid.
Proof. unfold canonical_of. cbn. rewrite andb_true_r. intros. by prop_of_bool. Qed.

Lemma observed_ok : settlements_ok observed_table.
Proof.
  destruct (orphan_ok tid bh t Ht) as [H1 H2]. constructor.
  - intros k k' r r' [[-> ->]|[_ Hk]]%observed_lookup [[-> ->]|[_ Hk']]%observed_lookup Hr Hb; [done|..].
    + symmetry. by apply (observed_key_at k' r').
    + by apply (observed_key_at k r).
    + by eapply H1.
  - intros k k' r r' tid' [[-> ->]|[_ Hk]]%observed_lookup [[-> ->]|[_ Hk']]%observed_lookup Hr Hr'; [done|..].
    + apply observed_value_of in Hr as ->. symmetry. by eapply orphaned_canonical.
    + apply observed_value_of in Hr' as ->. by eapply orphaned_canonical.
    + by eapply H2.
Qed.

Lemma observed_canonical : the_canonical tid observed_table = Some (observed_key, observed_value).
Proof.
  apply the_canonical_Some; [apply observed_ok|]. unfold observed_table. rewrite lookup_insert_eq.
  split; [done|]. unfold canonical_of. cbn. by rewrite Z.eqb_refl.
Qed.

(** The other transactions are left alone. *)
Lemma observed_lookup_other k r :
  sw_transaction_id r ≠ tid → observed_table !! k = Some r ↔ t !! k = Some r.
Proof.
  intros Hne. assert (∀ x, sw_transaction_id x ≠ tid → orphan_row tid bh x = x) as Hid.
  { intros x Hx. unfold orphan_row. by rewrite (proj2 (Z.eqb_neq _ _) Hx). }
  split.
  - intros [[-> ->]|[_ Hk]]%observed_lookup; [done|]. rewrite lookup_fmap in Hk.
    apply fmap_Some in Hk as (x & Hx & ->). destruct (orphan_row_fields tid bh x) as (Hx' & _).
    rewrite Hx' in Hne. by rewrite Hid.
  - intros Hk. assert (u !! k = Some r) as Hu by (by rewrite lookup_fmap, Hk; cbn; rewrite Hid).
    unfold observed_table. rewrite lookup_insert_ne; [done|]. intros <-.
    by destruct (at_observed_key r Hu).
Qed.

Lemma the_canonical_other tid' :
  tid' ≠ tid → the_canonical tid' observed_table = the_canonical tid' t.
Proof.
  intros Hne. apply option_eq. intros [k r]. rewrite !the_canonical_Some by (done || apply observed_ok).
  assert (canonical_of tid' r = true → sw_transaction_id r ≠ tid) as Hr.
  { unfold canonical_of. rewrite andb_true_iff. intros [H1 _]. prop_of_bool. congruence. }
  split; intros [Hk Hc]; (split; [|done]); [by apply observed_lookup_other in Hk; auto|].
  apply observed_lookup_other; auto.
Qed.

(** * Counting the orphaned blocks *)

Lemma observed_count tid' :
  count_values (orphan_of tid') observed_table
  = count_values (orphan_of tid') u - from_option (term (orphan_of tid') (λ _, 1)) 0 (u !! observed_key).
Proof.
  assert (term (orphan_of tid') (λ _, 1) observed_value = 0) as Hz.
  { unfold term, orphan_of. cbn. by rewrite andb_false_r. }
  unfold count_values, observed_table. destruct (u !! observed_key) as [r|] eqn:Hk; cbn.
  - rewrite (sum_values_update _ _ _ _ _ _ Hk). lia.
  - rewrite (sum_values_insert _ _ _ _ _ Hk). lia.
Qed.

Lemma orphaned_other tid' :
  tid' ≠ tid → count_values (orphan_of tid') observed_table = count_values (orphan_of tid') t.
Proof.
  intros Hne. rewrite observed_count. transitivity (count_values (orphan_of tid') u).
  - destruct (u !! observed_key) as [r|] eqn:Hk; cbn; [|lia].
    destruct (at_observed_key r Hk) as [Hr _]. unfold term, orphan_of. rewrite Hr.
    rewrite (proj2 (Z.eqb_neq tid tid')) by congruence. cbn. lia.
  - apply sum_values_sim. intros k. rewrite lookup_fmap. destruct (t !! k) as [r|]; constructor.
    unfold term. by destruct (orphan_row_other tid tid' bh r Hne) as [_ ->].
Qed.

Lemma orphaned_this :
  count_values (orphan_of tid) observed_table
  ≤ count_values (orphan_of tid) t
    + match the_canonical tid t with
      | Some (_, r) => if bool_decide (sw_block_hash r = bh) then 0 else 1
      | None => 0
      end.
Proof.
  assert (∀ r, 0 ≤ term (orphan_of tid) (λ _, 1) r ≤ 1) as Hterm.
  { intros r. unfold term. by destruct (orphan_of tid r). }
  rewrite observed_count.
  assert (0 ≤ from_option (term (orphan_of tid) (λ _, 1)) 0 (u !! observed_key)) as Hpos.
  { destruct (u !! observed_key); [apply Hterm|done]. }
  enough (count_values (orphan_of tid) u ≤ count_values (orphan_of tid) t
    + match the_canonical tid t with
      | Some (_, r) => if bool_decide (sw_block_hash r = bh) then 0 else 1
      | None => 0
      end) by lia.
  rewrite (orphan_table tid bh t Ht).
  destruct (the_canonical tid t) as [[k r]|] eqn:Hc; [|lia].
  apply the_canonical_Some in Hc as [Hk Hr]; [|done]. unfold count_values.
  rewrite (sum_values_update _ _ _ _ _ _ Hk). pose proof (Hterm r). pose proof (Hterm (orphan_row tid bh r)).
  case_bool_decide as Hb; [|lia]. enough (orphan_row tid bh r = r) as -> by lia.
  unfold orphan_row. rewrite bool_decide_true by done. by rewrite andb_false_r.
Qed.
End observation.

(** * The table [transactions] *)

Definition row_hash (r : transactions_row) : string := se_transaction_hash (tw_signed_transaction r).

(** A transaction is stored once, under a hash in lower case ([Hex32]). *)
Record transactions_ok (t : gmap Z transactions_row) : Prop := {
  to_hash_once : ∀ k k' r r', t !! k = Some r → t !! k' = Some r' → row_hash r = row_hash r' → k = k';
  to_lower : ∀ k r, t !! k = Some r → str_lower (row_hash r) = row_hash r;
}.

Lemma transaction_of_at db tid r :
  transactions_ok (t_transactions db) → t_transactions db !! tid = Some r →
  transaction_of (row_hash r) db = Some (tid, r).
Proof.
  intros Ht Hr. apply select_row_unique; [done|by apply bool_decide_true|].
  intros k' r' Hk' He. prop_of_bool. by eapply to_hash_once.
Qed.

(** * Both stores *)

(** What the memory store and the canonical row say of a transaction. *)
Definition agree (t : TrackedTransaction) (c : option settlements_row) : Prop :=
  match c with
  | None => tt_block_hash t = None ∧ tt_confirmations t = 0
  | Some r => tt_block_hash t = Some (sw_block_hash r) ∧ tt_block_number t = Some (sw_block_number r)
              ∧ tt_success t = Some (sw_success r) ∧ tt_confirmations t = sw_confirmations r
              ∧ tt_observed_at t = Some (sw_observed_at r)
  end.

Section both.
(** The number of a block, which its hash fixes. *)
Variable number : string → Z.

(** The two stores under the same calls: other transactions of the database may come in
    between, which add transactions or mark them as submitted. *)
Inductive settled_both : MemorySettlementStore → PgArtifacts → Prop :=
  | sb_start db : t_settlements db = ∅ → transactions_ok (t_transactions db) → settled_both settlements_init db
  | sb_others s db db' :
      settled_both s db → t_settlements db' = t_settlements db → transactions_ok (t_transactions db') →
      (∀ tid r, t_transactions db !! tid = Some r → ∃ r', t_transactions db' !! tid = Some r'
         ∧ row_hash r' = row_hash r ∧ tw_chain_id r' = tw_chain_id r) →
      settled_both s db'
  | sb_register s db h pid chain :
      settled_both s db → str_lower h = h → snd (pg_settlement_register h pid chain db) = Ok tt →
      settled_both (fst (settlement_register h pid chain s)) db
  | sb_observe s db t new_id now h bh success confirmations :
      settled_both s db → find_tx h (ms_transactions s) = Some t →
      str_lower bh = bh → char_n 66 bh = true → bigint (number bh) = true → int4 confirmations = true →
      t_settlements db !! new_id = None →
      settled_both (fst (settlement_observe now h bh (number bh) success confirmations s))
                   (fst (pg_settlement_observe new_id now h bh (number bh) success confirmations db))
  | sb_complete s db h status :
      settled_both s db → settled_both (fst (settlement_complete h status s)) db.

Record tx_sim (t : TrackedTransaction) (db : PgArtifacts) (tid : Z) (x : transactions_row) : Prop := {
  xs_row : t_transactions db !! tid = Some x;
  xs_hash : row_hash x = tt_transaction_hash t;
  xs_chain : tw_chain_id x = tt_chain_id t;
  xs_agree : agree t (snd <$> the_canonical tid (t_settlements db));
  xs_reorgs : count_values (orphan_of tid) (t_settlements db) ≤ tt_reorg_count t;
}.

Record settle_sim (s : MemorySettlementStore) (db : PgArtifacts) : Prop := {
  ss_transactions : transactions_ok (t_transactions db);
  ss_settlements : settlements_ok (t_settlements db);
  ss_rows : ∀ k r, t_settlements db !! k = Some r →
    sw_block_number r = number (sw_block_hash r) ∧ str_lower (sw_block_hash r) = sw_block_hash r
    ∧ ∃ x, t_transactions db !! sw_transaction_id r = Some x
           ∧ is_Some (find_tx (row_hash x) (ms_transactions s));
  ss_tracked : ∀ h t, find_tx h (ms_transactions s) = Some t →
    tt_transaction_hash t = h ∧ ∃ tid x, tx_sim t db tid x;
}.

Lemma settle_sim_start db :
  t_settlements db = ∅ → transactions_ok (t_transactions db) → settle_sim settlements_init db.
Proof.
  intros He Ht. constructor; rewrite ?He; [done| | |done].
  - constructor; intros *; by rewrite lookup_empty.
  - intros *. by rewrite lookup_empty.
Qed.

Lemma settle_sim_others s db db' :
  settle_sim s db → t_settlements db' = t_settlements db → transactions_ok (t_transactions db') →
  (∀ tid r, t_transactions db !! tid = Some r → ∃ r', t_transactions db' !! tid = Some r'
     ∧ row_hash r' = row_hash r ∧ tw_chain_id r' = tw_chain_id r) →
  settle_sim s db'.
Proof.
  intros [H1 H2 H3 H4] He Ht Hkeep. constructor; [done|by rewrite He|..].
  - intros k r. rewrite He. intros Hr. destruct (H3 _ _ Hr) as (? & ? & x & Hx & Hf). split_and!; [done..|].
    destruct (Hkeep _ _ Hx) as (x' & Hx' & Heq & _). exists x'. by rewrite Heq.
  - intros h t Hf. destruct (H4 _ _ Hf) as (? & tid & x & [Hx ? ? ? ?]). split; [done|].
    destruct (Hkeep _ _ Hx) as (x' & Hx' & Hh & Hc). exists tid, x'. constructor; rewrite ?He; congruence.
Qed.
Lemma settle_sim_register s db h pid chain :
  settle_sim s db → str_lower h = h → snd (pg_settlement_register h pid chain db) = Ok tt →
  settle_sim (fst (settlement_register h pid chain s)) db.
Proof.
  intros [H1 H2 H3 H4] Hh. unfold pg_settlement_register, settlement_register, self, lift, update, mbind, M_bind.
  destruct (select_row _ _) as [[tid x]|] eqn:Hs; [|done]. apply select_row_Some in Hs as [Hx _]. cbn [or_raise snd].
  destruct (negb _ || negb _) eqn:Hb; [done|]. intros _. apply orb_false_iff in Hb as [Hc He].
  apply negb_false_iff in Hc, He. prop_of_bool.
  change (str_lower (row_hash x) = str_lower h) in He. rewrite Hh, (to_lower _ H1 _ _ Hx) in He.
  destruct (find_tx h (ms_transactions s)) as [t|] eqn:Hf.
  { by destruct (_ && _). }
  destruct (bool_decide (is_Some (ms_proposals s !! pid))); [done|]. cbn [raise_if fst].
  assert (∀ k r, t_settlements db !! k = Some r → sw_transaction_id r ≠ tid) as Hnone.
  { intros k r Hr <-. destruct (H3 _ _ Hr) as (_ & _ & x' & Hx' & Hf'). simplify_eq.
    rewrite Hf in Hf'. by destruct Hf'. }
  constructor; [done|done|..].
  - intros k r Hr. destruct (H3 _ _ Hr) as (? & ? & x' & Hx' & [u Hu]). split_and!; [done..|].
    exists x'. split; [done|]. cbn. rewrite find_app, Hu. by eexists.
  - intros h' t'. cbn. rewrite find_app. destruct (find_tx h' (ms_transactions s)) as [u|] eqn:Hu.
    { intros [= ->]. by apply H4. }
    cbn. case_bool_decide as Hhh; [|done]. intros [= <-]. split; [done|]. exists tid, x.
    assert (the_canonical tid (t_settlements db) = None) as Hno.
    { apply select_row_None. intros k r Hr. unfold canonical_of. by rewrite (proj2 (Z.eqb_neq _ _) (Hnone _ _ Hr)). }
    constructor; [done|done|done|by rewrite Hno|].
    unfold count_values. rewrite sum_values_zero; [done|]. intros k r Hr. unfold orphan_of.
    by rewrite (proj2 (Z.eqb_neq _ _) (Hnone _ _ Hr)).
Qed.

Lemma settle_sim_complete s db h status :
  settle_sim s db → settle_sim (fst (settlement_complete h status s)) db.
Proof.
  intros [H1 H2 H3 H4]. unfold settlement_complete, self, lift, update, mbind, M_bind.
  destruct (negb _); [done|]. cbn [raise_if]. destruct (find_tx h _) as [t|] eqn:Hf; [|done]. cbn [or_raise fst].
  constructor; [done|done|..].
  - intros k r Hr. destruct (H3 _ _ Hr) as (? & ? & x & Hx & Hu). split_and!; [done..|]. exists x. split; [done|].
    cbn. rewrite find_alter. case_decide as Hd; [|done]. rewrite <- Hd. by apply fmap_is_Some.
  - intros h' t'. cbn. rewrite find_alter. case_decide as Hd; [|by apply H4]. rewrite Hf. intros [= <-]. subst h'.
    destruct (H4 _ _ Hf) as (Hh & tid & x & [? ? ? Ha ?]). split; [done|]. by exists tid, x.
Qed.
(** An observation of a tracked transaction, in both stores. *)
Lemma settle_observe_pg db tid x new_id now bh n success confirmations :
  transactions_ok (t_transactions db) → t_transactions db !! tid = Some x →
  char_n 66 bh = true → bigint n = true → int4 confirmations = true → t_settlements db !! new_id = None →
  pg_settlement_observe new_id now (row_hash x) bh n success confirmations db
  = (set_settlements (λ _, observed_table tid new_id bh n success confirmations now (t_settlements db)) db, Ok tt).
Proof.
  intros Ht Hx Hb Hn Hc Hnew.
  unfold pg_settlement_observe, transaction, self, lift, update, mbind, M_bind.
  rewrite (transaction_of_at db tid x Ht Hx). cbn [or_raise fst]. rewrite Hb, Hn, Hc. cbn [andb negb raise_if].
  change (t_settlements (set_settlements ?f db)) with (f (t_settlements db)).
  pose proof (upsert_spec tid new_id bh n success confirmations now (t_settlements db) Hnew) as Hu.
  unfold observed_row in Hu. rewrite Hu. done.
Qed.

Lemma observed_table_rows s db t tid new_id now bh success confirmations k r x :
  settle_sim s db → str_lower bh = bh → t_settlements db !! new_id = None → t_transactions db !! tid = Some x →
  find_tx (row_hash x) (ms_transactions s) = Some t →
  observed_table tid new_id bh (number bh) success confirmations now (t_settlements db) !! k = Some r →
  sw_block_number r = number (sw_block_hash r) ∧ str_lower (sw_block_hash r) = sw_block_hash r
  ∧ ∃ x, t_transactions db !! sw_transaction_id r = Some x
         ∧ is_Some (find_tx (row_hash x) (ms_transactions s)).
Proof.
  intros [H1 H2 H3 H4] Hl Hnew Hx Hf.
  assert (∀ k y, (orphan_row tid bh <$> t_settlements db) !! k = Some y →
    sw_block_number y = number (sw_block_hash y) ∧ str_lower (sw_block_hash y) = sw_block_hash y
    ∧ ∃ x, t_transactions db !! sw_transaction_id y = Some x
           ∧ is_Some (find_tx (row_hash x) (ms_transactions s))) as Hu.
  { intros j y. rewrite lookup_fmap. intros (y' & Hy & ->)%fmap_Some.
    destruct (orphan_row_fields tid bh y') as (-> & -> & _). rewrite orphan_row_number. by apply (H3 j). }
  intros [[-> ->]|[_ Hk]]%observed_lookup; [|by eapply Hu]. cbn. split_and!; [|done|by exists x].
  destruct (seen_before _ _ _) as [[k' r']|] eqn:Hs; [|done]. cbn.
  apply select_row_Some in Hs as [Hk' Hp]. prop_of_bool. destruct Hp as [_ Hp]. prop_of_bool.
  destruct (Hu _ _ Hk') as [-> _]. by rewrite Hp.
Qed.

Lemma settle_sim_observe s db t new_id now h bh success confirmations :
  settle_sim s db → find_tx h (ms_transactions s) = Some t →
  str_lower bh = bh → char_n 66 bh = true → bigint (number bh) = true → int4 confirmations = true →
  t_settlements db !! new_id = None →
  settle_sim (fst (settlement_observe now h bh (number bh) success confirmations s))
             (fst (pg_settlement_observe new_id now h bh (number bh) success confirmations db)).
Proof.
  intros [H1 H2 H3 H4] Hf Hl Hb Hn Hc Hnew. destruct (H4 _ _ Hf) as (Hh & tid & x & [Hx Hxh Hchain Ha Hr]).
  assert (h = row_hash x) as -> by congruence.
  rewrite (settle_observe_pg db tid x) by done.
  unfold settlement_observe, self, lift, update, mbind, M_bind. rewrite Hf. cbn [or_raise fst].
  constructor; cbn [t_transactions t_settlements set_settlements ms_transactions]; [done|by apply observed_ok|..].
  - intros k r Hk. eapply observed_table_rows in Hk as (? & ? & y & Hy & Hu); [|done..]. split_and!; [done..|].
    exists y. split; [done|]. rewrite find_alter. case_decide as Hd; [|done]. by rewrite Hf.
  - intros h' t'. rewrite find_alter. case_decide as Hd.
    + rewrite Hf. intros [= <-]. split; [cbn; congruence|]. exists tid, x.
      constructor; [done|done|done|..]; cbn [t_settlements set_settlements].
      * rewrite observed_canonical by done.
        destruct (observed_table_rows s db t tid new_id now bh success confirmations
          _ _ x (Build_settle_sim _ _ H1 H2 H3 H4) Hl Hnew Hx Hf (lookup_insert_eq _ _ _)) as [Hnb _].
        unfold agree. cbn [fmap option_fmap option_map snd]. rewrite Hnb. done.
      * pose proof (orphaned_this tid new_id bh (number bh) success confirmations now _ H2) as Ho.
        cbn [tt_reorg_count observed].
        destruct (the_canonical tid (t_settlements db)) as [[k r]|]; cbn in Ha.
        -- destruct Ha as (-> & _). case_bool_decide; lia.
        -- destruct Ha as [-> _]. lia.
    + intros Hf'. destruct (H4 _ _ Hf') as (Hh' & tid' & x' & [Hx' Hxh' ? Ha' Hr']). split; [done|].
      assert (tid' ≠ tid) by (intros ->; congruence). exists tid', x'.
      constructor; cbn [t_settlements set_settlements]; [done..| |].
      * by rewrite the_canonical_other.
      * by rewrite orphaned_other.
Qed.
Lemma settled_both_sim s db : settled_both s db → settle_sim s db.
Proof.
  induction 1 as [| | |s db t new_id now h bh success confirmations|]; [by apply settle_sim_start|..].
  - by eapply settle_sim_others.
  - by apply settle_sim_register.
  - by eapply settle_sim_observe.
  - by apply settle_sim_complete.
Qed.

Lemma sim_observation s db h t :
  settle_sim s db → find_tx h (ms_transactions s) = Some t →
  snd (pg_settlement_observation h db) = snd (settlement_observation h s).
Proof.
  intros [H1 H2 H3 H4] Hf. destruct (H4 _ _ Hf) as (Hh & tid & x & [Hx Hxh Hchain Ha _]).
  assert (h = row_hash x) as -> by congruence.
  unfold pg_settlement_observation, settlement_observation, read. cbn [snd].
  rewrite (transaction_of_at db tid x H1 Hx), Hf. cbn [mbind option_bind fst snd].
  rewrite (canonical_row_unique db tid H2).
  destruct (the_canonical tid (t_settlements db)) as [[k r]|] eqn:Hc; cbn [fmap option_fmap option_map snd] in Ha |- *.
  - destruct Ha as (-> & -> & -> & -> & ->). cbn. apply the_canonical_Some in Hc as [Hk _]; [|done].
    destruct (H3 _ _ Hk) as (_ & -> & _). rewrite (to_lower _ H1 _ _ Hx), Hchain, Hh. done.
  - by destruct Ha as [-> _].
Qed.

(** C18: the settlement tables answer like the memory settlement store.  After the same
    registrations, observations and completions, with other transactions of the database in
    between and through any reorganisation of the chain, a transaction both follow has the
    same observation in both (block, height, outcome, confirmations, time), and each pending
    row the reconciler reads shows the block and confirmations the memory store holds; a
    transaction has at most one canonical block; an observation of a transaction that is
    followed never fails in the database.  The number of reorganisations the database reports
    is at most the number the memory store counts: a block that becomes canonical again is no
    longer counted. *)
Theorem postgres_settlements_equivalence s db :
  settled_both s db →
  (∀ h t, find_tx h (ms_transactions s) = Some t →
     snd (pg_settlement_observation h db) = snd (settlement_observation h s)
     ∧ ∀ new_id now bh n success confirmations,
         char_n 66 bh = true → bigint n = true → int4 confirmations = true →
         t_settlements db !! new_id = None →
         snd (pg_settlement_observe new_id now h bh n success confirmations db) = Ok tt)
  ∧ (∀ l u t, snd (pg_settlement_pending db) = Ok l → u ∈ l →
       find_tx (tt_transaction_hash u) (ms_transactions s) = Some t →
       tt_block_hash u = tt_block_hash t ∧ tt_confirmations u = tt_confirmations t
       ∧ tt_chain_id u = tt_chain_id t ∧ tt_reorg_count u ≤ tt_reorg_count t)
  ∧ (∀ k k' r r', t_settlements db !! k = Some r → t_settlements db !! k' = Some r' →
       sw_transaction_id r = sw_transaction_id r' → sw_canonical r = true → sw_canonical r' = true → k = k').
Proof.
  intros Hs%settled_both_sim. pose proof Hs as [H1 H2 H3 H4]. split_and!.
  - intros h t Hf. split; [by eapply sim_observation|]. intros.
    destruct (H4 _ _ Hf) as (Hh & tid & x & [Hx Hxh _ _ _]). assert (h = row_hash x) as -> by congruence.
    by rewrite (settle_observe_pg db tid x).
  - intros l u t [= <-] Hu Hf. apply list_elem_of_fmap in Hu as ([tid x] & -> & Hin).
    apply list_elem_of_filter in Hin as [_ Hx%elem_of_map_to_list]. cbn in Hf |- *.
    change (se_transaction_hash (tw_signed_transaction x)) with (row_hash x) in Hf.
    rewrite (to_lower _ H1 _ _ Hx) in Hf. destruct (H4 _ _ Hf) as (Hh & tid' & x' & [Hx' Hxh Hchain Ha Hr]).
    assert (tid' = tid) as -> by (eapply to_hash_once; [done..|congruence]).
    rewrite (canonical_row_unique db tid H2). simplify_eq. split_and!; [..|done|done].
    + destruct (the_canonical _ _) as [[??]|]; cbn in *; by destruct Ha.
    + destruct (the_canonical _ _) as [[??]|]; cbn in *; by destruct_and!.
  - intros k k' r r' Hk Hk' He Hc Hc'. apply (so_one_canonical _ H2 k k' r r' (sw_transaction_id r)); [done..| |];
      unfold canonical_of; by rewrite ?Hc, ?Hc', <- ?He, Z.eqb_refl.
Qed.
End both.

(** * A reorganisation and back *)

Definition demo_hash : string := "0x" +:+ hex (replicate 32 Byte.xaa).
Definition block_a : string := "0x" +:+ hex (replicate 32 Byte.x0a).
Definition block_b : string := "0x" +:+ hex (replicate 32 Byte.x0b).
Definition demo_number (bh : string) : Z := if bool_decide (bh = block_a) then 10 else 11.

Definition demo_execution : StoredExecutionV1 :=
  {| se_transaction_id := 1; se_proposal_id := proposal_id sample_proposal;
     se_authorization := ex_transfer_request; se_signing_hash := block_a; se_transaction_hash := demo_hash;
     se_raw_transaction := "0x02"; se_signer_identity := wallet sample_proposal; se_signature := "0x";
     se_enclave_evidence := []; se_signed_at := 0; se_submitted_at := None |}.

(** The payment has been sent and its transaction stored. *)
Definition demo_db : PgArtifacts :=
  {| a_state := {| t_proposals := {[ proposal_id sample_proposal :=
       {| pp_principal_id := "agent-1"; pp_idempotency_key := "k"; pp_wallet := wallet sample_proposal;
          pp_chain_id := 31337; pp_asset := "NATIVE:31337"; pp_amount := 250; pp_proposal_hash := block_a;
          pp_body := sample_proposal; pp_state := SUBMITTED; pp_state_version := 4; pp_reason_codes := [];
          pp_deadline := 0; pp_created_at := 0; pp_updated_at := 0 |} ]};
       t_reservations := ∅; t_decision_nonce_uses := ∅; t_wallet_nonce_uses := ∅ |};
     a_policies := pg_policies_init; t_decisions := ∅;
     t_transactions := {[ 1 := {| tw_proposal_id := proposal_id sample_proposal; tw_decision_id := 2;
       tw_wallet := wallet sample_proposal; tw_chain_id := 31337; tw_wallet_nonce := 0;
       tw_eip712_hash := block_a; tw_eip1559_hash := block_a; tw_signed_transaction := demo_execution;
       tw_submitted_at := Some 5 |} ]};
     t_settlements := ∅; t_attestations := ∅ |}.

Definition demo_followed : MemorySettlementStore :=
  fst (settlement_register demo_hash (proposal_id sample_proposal) 31337 settlements_init).

(** Block A, then block B in its place, then A again. *)
Definition demo_mem (blocks : list string) : MemorySettlementStore :=
  foldl (λ s bh, fst (settlement_observe 7 demo_hash bh (demo_number bh) true 1 s)) demo_followed blocks.
Definition demo_observe (db : PgArtifacts) (new_id : Z) (bh : string) : PgArtifacts :=
  fst (pg_settlement_observe new_id 7 demo_hash bh (demo_number bh) true 1 db).
Definition demo_settled : PgArtifacts :=
  demo_observe (demo_observe (demo_observe demo_db 100 block_a) 101 block_b) 102 block_a.

Lemma demo_settled_both : settled_both demo_number (demo_mem [block_a; block_b; block_a]) demo_settled.
Proof.
  cbv [demo_mem foldl demo_settled demo_observe].
  repeat (eapply sb_observe; [|vm_compute; reflexivity..]).
  apply sb_register; [|vm_compute; reflexivity..]. constructor; [reflexivity|].
  constructor; intros *; cbn [t_transactions demo_db]; rewrite !lookup_singleton_Some.
  - by intros [<- _] [<- _].
  - intros [_ <-]. vm_compute. reflexivity.
Qed.

(** The memory store counts two reorganisations, the database one. *)
Lemma postgres_settlements_equivalence_witness :
  (∃ t, find_tx demo_hash (ms_transactions (demo_mem [block_a; block_b; block_a])) = Some t
     ∧ tt_reorg_count t = 2)
  ∧ orphaned demo_settled 1 = 1
  ∧ snd (pg_settlement_observation demo_hash demo_settled)
    = snd (settlement_observation demo_hash (demo_mem [block_a; block_b; block_a])).
Proof.
  destruct (postgres_settlements_equivalence demo_number _ _ demo_settled_both) as (Hobs & _).
  assert (∃ t, find_tx demo_hash (ms_transactions (demo_mem [block_a; block_b; block_a])) = Some t
     ∧ tt_reorg_count t = 2) as Hm by (eexists; split; vm_compute; reflexivity).
  split; [exact Hm|]. split; [vm_compute; reflexivity|].
  destruct Hm as (t & Ht & _). exact (proj1 (Hobs _ _ Ht)).
Defined.
