(* ===== verification/Api.v ===== *)
(** The HTTP API (src/agentguard-testbed/src/aegisledger/api.py): who may call what.

    The request-body limit, authentication and rate limiting of every request, the role and
    permission check of every endpoint, and the endpoints themselves with the exceptions
    they translate.  A request carries its authorization header and a body that has passed
    its schema (the framework's parsing, 422 otherwise).  The clock, the identifiers an
    endpoint draws and PyJWT are arguments.  The endpoints run one after the other: the
    ones on the event loop are not interleaved, [execute] holds a lock. *)
From Stdlib Require Import ZArith Lia Ascii String.
From stdpp Require Import base gmap sets list strings pretty sorting.
From S2P Require Import Prelude Bytes Canonical Contracts Policy State Decisions Signing Journal.
From S2P Require Import RateLimit Artifacts Attestations Settlements Service Experiments Access.

Open Scope Z_scope.

(** * The request-body limit *)

Inductive Message :=
  | HttpRequest (body : bytes) (more_body : bool)
  | HttpDisconnect
  | OtherMessage.

(** [int(content_length)] of a header value: decimal digits, single underscores between
    them, a sign and surrounding white space. *)
Fixpoint int10_digits (acc : Z) (sep : bool) (l : list ascii) : option Z :=
  match l with
  | [] => if sep then Some acc else None
  | c :: l =>
      if char_between "0" "9" c
      then int10_digits (acc * 10 + (Z.of_nat (nat_of_ascii c) - 48)) true l
      else if bool_decide (c = "_"%char) && sep then int10_digits acc false l else None
  end.

Definition int10 (s : string) : option Z :=
  match rev (skip_spaces (rev (skip_spaces (list_ascii_of_string s)))) with
  | "-"%char :: l => Z.opp <$> int10_digits 0 false l
  | "+"%char :: l => int10_digits 0 false l
  | l => int10_digits 0 false l
  end.

(** [dict(headers).get(name)]: the last of several headers of one name. *)
Definition header (name : string) (headers : list (string * string)) : option string :=
  snd <$> find (λ h, bool_decide (h.1 = name)) (rev headers).

Inductive limit_outcome :=
  | Reject (status : Z) (code : string)
  | Forward (messages : list Message).

(** The loop over [receive]: [None] while the client has not sent enough. *)
Fixpoint read_body (max_bytes total : Z) (seen incoming : list Message) : option limit_outcome :=
  match incoming with
  | [] => None
  | m :: incoming =>
      let seen := seen ++ [m] in
      match m with
      | HttpDisconnect => Some (Forward seen)
      | OtherMessage => read_body max_bytes total seen incoming
      | HttpRequest body more_body =>
          let total := total + Z.of_nat (length body) in
          if max_bytes <? total then Some (Reject 413 "PAYLOAD_TOO_LARGE")
          else if negb more_body then Some (Forward seen)
          else read_body max_bytes total seen incoming
      end
  end.

(** [RequestBodyLimitMiddleware.__call__] for an HTTP scope. *)
Definition body_limit (max_bytes : Z) (headers : list (string * string)) (incoming : list Message)
    : option limit_outcome :=
  match header "content-length" headers with
  | None => read_body max_bytes 0 [] incoming
  | Some text =>
      match int10 text with
      | None => Some (Reject 400 "INVALID_CONTENT_LENGTH")
      | Some declared =>
          if declared <? 0 then Some (Reject 400 "INVALID_CONTENT_LENGTH")
          else if max_bytes <? declared then Some (Reject 413 "PAYLOAD_TOO_LARGE")
          else read_body max_bytes 0 [] incoming
      end
  end.

(** [replay]: the n-th message the application receives. *)
Definition replay (messages : list Message) (n : nat) : Message :=
  default (HttpRequest [] false) (messages !! n).

(** * Responses *)

Record ProposalStatusResponse := {
  ps_proposal_id : Z;
  ps_state : LifecycleState;
  ps_state_version : Z;
  ps_reason_codes : list string;
  ps_reservation_id : option Z;
}.

Definition _status_response (r : ProposalRecord) : ProposalStatusResponse :=
  {| ps_proposal_id := proposal_id (rec_proposal r); ps_state := rec_state r;
     ps_state_version := rec_state_version r; ps_reason_codes := rec_reason_codes r;
     ps_reservation_id := rec_reservation_id r |}.

Record PolicyVersionResponse := {
  pv_version_id : Z;
  pv_policy_hash : string;
  pv_status : PolicyStatus;
  pv_approvals : list string;
}.

Definition _policy_response (v : PolicyVersion) : PolicyVersionResponse :=
  {| pv_version_id := version_id v; pv_policy_hash := v_policy_hash v; pv_status := v_status v;
     pv_approvals := merge_sort String.le (elements (approvals v)) |}.

Record PolicySimulationResponse := {
  sim_verdict : string;
  sim_reason_codes : list string;
  sim_policy_hash : string;
}.

Record AttestationVerificationResponse := {
  avr_valid : bool;
  avr_signer_identity : string;
  avr_errors : list string;
}.

Inductive ApiResponse :=
  | RSubmission (r : SubmissionResponse)
  | RStatus (r : ProposalStatusResponse)
  | RExecution (r : ExecutionResponse)
  | RPolicy (r : PolicyVersionResponse)
  | RSimulation (r : PolicySimulationResponse)
  | RVerification (r : AttestationVerificationResponse)
  | RAttestation (a : CompleteAttestationV1)
  | RExperiment (r : ExperimentResponseV1)
  | REvents (events : list AuditEventV1).

(** * The application *)

Record ApiState := {
  ap_service : ServiceState;
  ap_experiments : MemoryExperimentStore;
  ap_limiter : MemoryRateLimiter;
  ap_accounts : MemoryServiceAccountStore;
}.

Record ApiConfig := {
  ac_service : ServiceConfig;
  ac_experiments : ExperimentConfig;
  ac_manager : ServiceAccountManager;
  ac_oidc : OIDCAuthenticator;
  ac_decode : Z → string → result (list (pykey * pyval));
  ac_rate_limit_requests : Z;
  ac_rate_limit_window_seconds : Z;
}.

Definition in_service {A} (m : M ServiceState A) : M ApiState A :=
  zoom ap_service (λ x s, {| ap_service := x; ap_experiments := ap_experiments s;
    ap_limiter := ap_limiter s; ap_accounts := ap_accounts s |}) m.
Definition in_experiments {A} (m : M MemoryExperimentStore A) : M ApiState A :=
  zoom ap_experiments (λ x s, {| ap_service := ap_service s; ap_experiments := x;
    ap_limiter := ap_limiter s; ap_accounts := ap_accounts s |}) m.
Definition in_limiter {A} (m : M MemoryRateLimiter A) : M ApiState A :=
  zoom ap_limiter (λ x s, {| ap_service := ap_service s; ap_experiments := ap_experiments s;
    ap_limiter := x; ap_accounts := ap_accounts s |}) m.
Definition in_accounts {A} (m : M MemoryServiceAccountStore A) : M ApiState A :=
  zoom ap_accounts (λ x s, {| ap_service := ap_service s; ap_experiments := ap_experiments s;
    ap_limiter := ap_limiter s; ap_accounts := x |}) m.

(** [try: m except C1 as exc: raise E1 ... except Cn as exc: raise En] *)
Fixpoint translate (clauses : list ((exn → bool) * (exn → exn))) (e : exn) : exn :=
  match clauses with
  | [] => e
  | (catches, raised) :: clauses => if catches e then raised e else translate clauses e
  end.
Definition translating {S A} (clauses : list ((exn → bool) * (exn → exn))) (m : M S A) : M S A :=
  try_m (λ _, true) m (λ e, raise (translate clauses e)).

Definition is_signer_client_error (e : exn) : bool :=
  match e with SignerClientError _ => true | _ => false end.

(** ** Access *)

Definition rate_subject (p : Principal) : string :=
  pn_organization_id p +:+ ":" +:+ pn_environment_id p +:+ ":" +:+ pn_subject p.

(** [bool(a.intersection(b))] *)
Definition overlap {A} `{EqDecision A} (a b : list A) : bool := existsb (λ x, is_in x b) a.

Definition forbidden : exn := ApiError 403 "FORBIDDEN" "credential does not permit this operation".

Definition require_access (roles : list Role) (permissions : list Permission) (p : Principal)
    : result Principal :=
  raise_if (negb (overlap (pn_roles p) roles) && negb (overlap (pn_permissions p) permissions))
    forbidden;;
  Ok p.

Definition enforce_read_scope (record : ProposalRecord) (p : Principal) : result unit :=
  raise_if (bool_decide (principal_id (rec_proposal record) ≠ pn_subject p)
            && negb (overlap (pn_roles p) [VIEWER; POLICY_ADMIN; AUDITOR]))
    (ApiError 403 "FORBIDDEN" "proposal belongs to another principal").

(** A request after routing: the endpoint, its path and body, and what it draws. *)
Inductive Endpoint :=
  | SubmitProposal (d : submit_draws) (proposal : ProposalV1)
  | ProposalStatus (pid : Z)
  | ExecuteProposal (d : execute_draws) (pid : Z) (request : ExecutionRequest)
  | CreatePolicy (new_id now event_id event_at : Z) (policy : PolicyV1)
  | ApprovePolicy (vid : Z)
  | ActivatePolicy (now event_id event_at : Z) (vid : Z)
  | SimulatePolicy (static_now now : Z) (policy : PolicyV1) (proposal : ProposalV1)
  | VerifyAttestation (now : Z) (decision : option DecisionTokenV1)
      (attestation : option CompleteAttestationV1)
  | ProposalAttestation (d : attest_draws) (pid : Z)
  | ExecuteExperiment (new_id now : Z) (request : ExperimentRequest)
  | ExperimentResult (id : Z)
  | AuditStream.

(** The roles and permissions each endpoint's [Depends] asks for. *)
Definition endpoint_roles (e : Endpoint) : list Role :=
  match e with
  | SubmitProposal _ _ | ExecuteProposal _ _ _ | ExecuteExperiment _ _ _ => [RESEARCHER]
  | ProposalStatus _ => [VIEWER; RESEARCHER; POLICY_ADMIN; AUDITOR]
  | CreatePolicy _ _ _ _ _ | ApprovePolicy _ | ActivatePolicy _ _ _ _ => [POLICY_ADMIN]
  | SimulatePolicy _ _ _ _ => [RESEARCHER; POLICY_ADMIN]
  | VerifyAttestation _ _ _ => [AUDITOR; RESEARCHER]
  | ProposalAttestation _ _ | ExperimentResult _ => [VIEWER; RESEARCHER; AUDITOR]
  | AuditStream => [AUDITOR]
  end.
Definition endpoint_permissions (e : Endpoint) : list Permission :=
  match e with
  | SubmitProposal _ _ | ExecuteProposal _ _ _ => [PROPOSALS_WRITE]
  | ProposalStatus _ | ProposalAttestation _ _ => [PROPOSALS_READ; PROPOSALS_WRITE]
  | SimulatePolicy _ _ _ _ => [POLICIES_SIMULATE]
  | VerifyAttestation _ _ _ => [ATTESTATIONS_VERIFY]
  | _ => []
  end.

Section api.
Context `{!Externals} `{!EvidenceExternals}.

Definition current_principal (cfg : ApiConfig) (now : Z) (authorization : string)
    : M ApiState Principal :=
  principal ← in_accounts (composite_authenticate (oidc_call (ac_oidc cfg) (ac_decode cfg now))
                             (ac_manager cfg) now authorization);
  allowed ← in_limiter (rate_consume now (rate_subject principal) (ac_rate_limit_requests cfg)
                          (ac_rate_limit_window_seconds cfg));
  lift (raise_if (negb allowed) (ApiError 429 "RATE_LIMITED" "principal request rate exceeded"));;
  mret principal.

(** ** Endpoints *)

Definition submit_proposal (cfg : ApiConfig) (d : submit_draws) (proposal : ProposalV1)
    (p : Principal) : M ApiState ApiResponse :=
  lift (raise_if (negb (bool_decide (principal_id proposal = pn_subject p)))
    (ApiError 403 "PRINCIPAL_MISMATCH" "proposal principal must match authenticated subject"));;
  r ← translating [(catches_LookupError,
        λ _, ApiError 503 "NO_ACTIVE_POLICY" "no active policy is available")]
      (in_service (submit (ac_service cfg) d proposal (pn_subject p)));
  mret (RSubmission r).

Definition proposal_status (pid : Z) (p : Principal) : M ApiState ApiResponse :=
  found ← in_service (in_state (store_get pid));
  record ← lift (or_raise found (ApiError 404 "PROPOSAL_NOT_FOUND" "proposal does not exist"));
  lift (enforce_read_scope record p);;
  mret (RStatus (_status_response record)).

Definition execute_proposal (cfg : ApiConfig) (d : execute_draws) (pid : Z)
    (request : ExecutionRequest) (p : Principal) : M ApiState ApiResponse :=
  r ← translating
      [(catches_KeyError, λ _, ApiError 404 "PROPOSAL_NOT_FOUND" "proposal does not exist");
       (catches_PermissionError, λ _, ApiError 403 "FORBIDDEN" "proposal belongs to another principal");
       (is_signer_client_error, λ _, ApiError 503 "SIGNER_UNAVAILABLE" "isolated signing failed");
       (catches_ValueError, λ e, ApiError 409 "EXECUTION_CONFLICT" (exn_text e));
       (catches_RuntimeError, λ e, ApiError 503 "EXECUTION_UNAVAILABLE" (exn_text e))]
      (in_service (execute (ac_service cfg) d pid request (pn_subject p)));
  mret (RExecution r).

Definition version_event (event_id event_at : Z) (event_type actor : string) (v : PolicyVersion)
    : M ApiState AuditEventV1 :=
  in_service (in_audit (journal_append event_id event_at event_type actor
    [(KStr "version_id", PStr (uuid_str (version_id v))); (KStr "policy_hash", PStr (v_policy_hash v))]
    (Some (version_id v)))).

Definition create_policy (new_id now event_id event_at : Z) (policy : PolicyV1) (p : Principal)
    : M ApiState ApiResponse :=
  v ← in_service (in_policies (registry_create new_id now policy (pn_subject p)));
  version_event event_id event_at "POLICY_VERSION_CREATED" (pn_subject p) v;;
  mret (RPolicy (_policy_response v)).

Definition policy_not_found : exn :=
  ApiError 404 "POLICY_NOT_FOUND" "policy version does not exist".

Definition approve_policy (vid : Z) (p : Principal) : M ApiState ApiResponse :=
  v ← translating [(catches_KeyError, λ _, policy_not_found)]
      (in_service (in_policies (registry_approve vid (pn_subject p))));
  mret (RPolicy (_policy_response v)).

Definition activate_policy (now event_id event_at : Z) (vid : Z) (p : Principal)
    : M ApiState ApiResponse :=
  v ← translating [(catches_PermissionError, λ e, ApiError 409 "APPROVALS_REQUIRED" (exn_text e));
                   (catches_KeyError, λ _, policy_not_found)]
      (in_service (in_policies (registry_activate now vid (pn_subject p))));
  version_event event_id event_at "POLICY_VERSION_ACTIVATED" (pn_subject p) v;;
  mret (RPolicy (_policy_response v)).

Definition simulate_policy (static_now now : Z) (policy : PolicyV1) (proposal : ProposalV1)
    : M ApiState ApiResponse :=
  reasons ← in_service (in_state (simulate static_now now proposal policy));
  h ← lift (policy_hash policy);
  mret (RSimulation {| sim_verdict := match reasons with [] => "ALLOW" | _ => "DENY" end;
                       sim_reason_codes := reasons; sim_policy_hash := h |}).

(** The validator [exactly_one_artifact] and the endpoint. *)
Definition verify_attestation_request (cfg : ApiConfig) (now : Z) (decision : option DecisionTokenV1)
    (attestation : option CompleteAttestationV1) : M ApiState ApiResponse :=
  lift (raise_if (Bool.eqb (bool_decide (decision = None)) (match attestation with None => true | _ => false end))
    (ApiError 422 "VALIDATION_ERROR" "request validation failed"));;
  match attestation with
  | Some a =>
      report ← lift (verify_complete_attestation a
        (kp_pub (issuer_keys (cfg_decisions (ac_service cfg))))
        (cfg_allowed_build_measurements (ac_service cfg)));
      mret (RVerification {| avr_valid := av_valid report;
        avr_signer_identity := signer_identity (ca_signed_transaction a);
        avr_errors := av_errors report |})
  | None =>
      token ← lift (or_raise decision AssertionError);
      valid ← lift (verify_decision_token token
        (kp_pub (issuer_keys (cfg_decisions (ac_service cfg)))) now);
      mret (RVerification {| avr_valid := valid; avr_signer_identity := policy_signer token;
        avr_errors := if (valid : bool) then []
                      else ["policy decision signature is invalid or expired"] |})
  end.

Definition proposal_attestation (cfg : ApiConfig) (d : attest_draws) (pid : Z) (p : Principal)
    : M ApiState ApiResponse :=
  found ← in_service (in_state (store_get pid));
  record ← lift (or_raise found (ApiError 404 "PROPOSAL_NOT_FOUND" "proposal does not exist"));
  lift (enforce_read_scope record p);;
  a ← translating
      [(catches_ValueError, λ e, ApiError 409 "ATTESTATION_NOT_READY" (exn_text e));
       (catches_RuntimeError, λ e, ApiError 503 "ATTESTATION_UNAVAILABLE" (exn_text e))]
      (in_service (complete_attestation (ac_service cfg) d pid (pn_subject p)));
  mret (RAttestation a).

(** The task that runs the experiment after the response is a step of its own. *)
Definition execute_experiment (cfg : ApiConfig) (new_id now : Z) (request : ExperimentRequest)
    (p : Principal) : M ApiState ApiResponse :=
  r ← translating [(catches_ValueError, λ e, ApiError 429 "EXPERIMENT_QUOTA_EXCEEDED" (exn_text e))]
      (in_experiments (queue_experiment (ac_experiments cfg) new_id now request (pn_subject p)));
  mret (RExperiment r).

Definition experiment_result (id : Z) (p : Principal) : M ApiState ApiResponse :=
  found ← in_experiments (experiment_get id);
  job ← lift (or_raise found (ApiError 404 "EXPERIMENT_NOT_FOUND" "experiment does not exist"));
  lift (raise_if (bool_decide (job_principal_id job ≠ pn_subject p)
                  && negb (overlap (pn_roles p) [VIEWER; AUDITOR]))
    (ApiError 403 "FORBIDDEN" "experiment belongs to another principal"));;
  mret (RExperiment (job_response job)).

(** The events the stream sends, in order; their text is the serializer's. *)
Definition audit_stream : M ApiState ApiResponse :=
  events ← in_service (in_audit (read j_events));
  mret (REvents events).

Definition endpoint (cfg : ApiConfig) (e : Endpoint) (p : Principal) : M ApiState ApiResponse :=
  match e with
  | SubmitProposal d proposal => submit_proposal cfg d proposal p
  | ProposalStatus pid => proposal_status pid p
  | ExecuteProposal d pid request => execute_proposal cfg d pid request p
  | CreatePolicy new_id now event_id event_at policy => create_policy new_id now event_id event_at policy p
  | ApprovePolicy vid => approve_policy vid p
  | ActivatePolicy now event_id event_at vid => activate_policy now event_id event_at vid p
  | SimulatePolicy static_now now policy proposal => simulate_policy static_now now policy proposal
  | VerifyAttestation now decision attestation => verify_attestation_request cfg now decision attestation
  | ProposalAttestation d pid => proposal_attestation cfg d pid p
  | ExecuteExperiment new_id now request => execute_experiment cfg new_id now request p
  | ExperimentResult id => experiment_result id p
  | AuditStream => audit_stream
  end.

Record ApiCall := { call_now : Z; call_authorization : string; call_endpoint : Endpoint }.

(** A request: authenticate, count, authorize, handle. *)
Definition handle (cfg : ApiConfig) (c : ApiCall) : M ApiState ApiResponse :=
  principal ← current_principal cfg (call_now c) (call_authorization c);
  principal ← lift (require_access (endpoint_roles (call_endpoint c))
                      (endpoint_permissions (call_endpoint c)) principal);
  endpoint cfg (call_endpoint c) principal.
End api.

(** The status of the response: the exception handlers, and 500 for what none catches. *)
Definition success_status (e : Endpoint) : Z :=
  match e with
  | SubmitProposal _ _ | ExecuteProposal _ _ _ | ExecuteExperiment _ _ _ => 202
  | CreatePolicy _ _ _ _ _ => 201
  | _ => 200
  end.
Definition http_status (e : Endpoint) (r : result ApiResponse) : Z :=
  match r with
  | Ok _ => success_status e
  | Err (ApiError status _ _) => status
  | Err (AuthenticationError _) => 401
  | Err _ => 500
  end.

(** The body of the answer to an error: [api_error_handler], [authentication_error_handler]. *)
Definition error_body (e : exn) : option pyval :=
  let body code message :=
    PDict [(KStr "error", PDict [(KStr "code", PStr code); (KStr "message", PStr message)])] in
  match e with
  | ApiError _ code message => Some (body code message)
  | AuthenticationError _ => Some (body "UNAUTHENTICATED" "authentication required")
  | _ => None
  end.

(** [GET /health/live] and [GET /health/ready]: the checks of the memory stores return, and
    [identity] is what asking the signer gives, if there is one. *)
Definition liveness : Z * pyval := (200, PDict [(KStr "status", PStr "ok")]).
Definition readiness (identity : option (result unit)) (st : ApiState) : Z * pyval :=
  match (snd (registry_active (sc_policies (ap_service st)));; default (Ok tt) identity) with
  | Ok _ => (200, PDict [(KStr "status", PStr "ready")])
  | Err e => (503, PDict [(KStr "status", PStr "not_ready"); (KStr "reason", PStr (exn_class e))])
  end.
