(* ===== verification/ApiFacts.v ===== *)
(** What the API guarantees: the body limit, who may do and see what, and that policies and
    signatures go back to authenticated principals with the right roles. *)
From Stdlib Require Import ZArith Lia Ascii String.
From stdpp Require Import base gmap sets list strings pretty sorting.
From S2P Require Import Prelude Bytes Canonical CanonicalFacts Contracts Policy PolicyFacts State.
From S2P Require Import Decisions Signing Journal RateLimit Artifacts Attestations Settlements.
From S2P Require Import Service ServiceFacts Experiments Access Api.

Open Scope Z_scope.

(** * The body limit *)

Definition body_size (m : Message) : Z :=
  match m with HttpRequest body _ => Z.of_nat (length body) | _ => 0 end.
Definition body_total (l : list Message) : Z := foldr (λ m acc, body_size m + acc) 0 l.
(** The message after which the loop stops reading. *)
Definition final (m : Message) : bool :=
  match m with HttpDisconnect => true | HttpRequest _ more => negb more | OtherMessage => false end.

Lemma body_total_nonneg l : 0 ≤ body_total l.
Proof.
  induction l as [|m l IH]; [done|].
  change (body_total (m :: l)) with (body_size m + body_total l). destruct m; cbn [body_size]; lia.
Qed.

Lemma read_body_exact max total seen before last rest :
  Forall (λ m, final m = false) before → final last = true → 0 ≤ total ≤ max →
  read_body max total seen (before ++ last :: rest)
  = Some (if max <? total + body_total (before ++ [last]) then Reject 413 "PAYLOAD_TOO_LARGE"
          else Forward (seen ++ before ++ [last])).
Proof.
  intros Hb Hl. revert total seen. induction Hb as [|m before Hm Hb IH]; intros total seen Ht.
  - cbn [app read_body body_total foldr]. destruct last as [body more| |]; cbn in Hl |- *; [|by rewrite (proj2 (Z.ltb_ge _ _)) by lia|done].
    destruct more; [done|]. rewrite Z.add_0_r. by destruct (_ <? _).
  - pose proof (body_total_nonneg (before ++ [last])) as Hn.
    rewrite <- !app_comm_cons. cbn [read_body].
    change (body_total (m :: before ++ [last])) with (body_size m + body_total (before ++ [last])).
    destruct m as [body more| |]; cbn [body_size final] in *; [|done|].
    + destruct more; [|done]. cbn [negb]. destruct (Z.ltb_spec max (total + Z.of_nat (length body))).
      * by rewrite (proj2 (Z.ltb_lt _ _)) by lia.
      * rewrite IH by lia. rewrite <- Z.add_assoc, <- app_assoc. done.
    + rewrite IH by lia. by rewrite <- app_assoc.
Qed.

(** The middleware forwards exactly the messages of the request, up to and including the
    last one, when the declared and the received length are within the limit, and rejects
    the request otherwise. *)
Theorem body_limit_exact max headers before last rest :
  0 ≤ max → Forall (λ m, final m = false) before → final last = true →
  body_limit max headers (before ++ last :: rest)
  = Some match int10 <$> header "content-length" headers with
    | Some None => Reject 400 "INVALID_CONTENT_LENGTH"
    | declared =>
        let n := default 0 (mjoin declared) in
        if n <? 0 then Reject 400 "INVALID_CONTENT_LENGTH"
        else if max <? Z.max n (body_total (before ++ [last])) then Reject 413 "PAYLOAD_TOO_LARGE"
        else Forward (before ++ [last])
    end.
Proof.
  intros Hmax Hb Hl. unfold body_limit. pose proof (body_total_nonneg (before ++ [last])).
  pose proof (read_body_exact max 0 [] before last rest Hb Hl) as Hr. cbn [app] in Hr.
  rewrite Z.add_0_l in Hr.
  destruct (header _ headers) as [text|].
  - change (int10 <$> Some text) with (Some (int10 text)). destruct (int10 text) as [n|]; [|done]. cbn -[Z.max body_total Z.ltb].
    destruct (Z.ltb_spec n 0); [done|]. destruct (Z.ltb_spec max n).
    + by rewrite (proj2 (Z.ltb_lt _ _)) by lia.
    + rewrite Hr by lia. do 2 f_equal. destruct (Z.ltb_spec max (body_total (before ++ [last]))).
      * by rewrite (proj2 (Z.ltb_lt _ _)) by lia.
      * by rewrite (proj2 (Z.ltb_ge _ _)) by lia.
  - cbn -[Z.max body_total]. rewrite Hr by lia. by rewrite Z.max_r by lia.
Qed.

(** * Frames: what a method leaves as it is *)

Definition frames {S A} (R : relation S) (m : M S A) : Prop := ∀ s, R s (fst (m s)).

Section frames.
Context {S : Type} (R : relation S) `{!PreOrder R}.

Lemma frames_bind {A B} (m : M S A) (f : A → M S B) :
  frames R m → (∀ a, frames R (f a)) → frames R (m ≫= f).
Proof.
  intros Hm Hf s. specialize (Hm s). unfold mbind, M_bind.
  destruct (m s) as [s' [a|e]]; cbn in *; [|done]. etransitivity; [done|apply Hf].
Qed.
Lemma frames_lift {A} (r : result A) : frames R (lift r).
Proof. intros s. cbn. reflexivity. Qed.
Lemma frames_ret {A} (a : A) : frames R (mret a).
Proof. intros s. cbn. reflexivity. Qed.
Lemma frames_zoom {T A} (get : S → T) set (m : M T A) :
  (∀ t s, R s (set t s)) → frames R (zoom get set m).
Proof. intros Hs s. unfold zoom. destruct (m (get s)) as [t r]. cbn. auto. Qed.
Lemma frames_translating {A} clauses (m : M S A) : frames R m → frames R (translating clauses m).
Proof.
  intros Hm s. specialize (Hm s). unfold translating, try_m.
  by destruct (m s) as [s' [a|e]].
Qed.
End frames.

(** Take a method apart; [auto with aegis] closes its statements. *)
Ltac frame :=
  repeat first
    [ progress auto with aegis
    | apply frames_bind; [apply _| |intros ?]
    | apply frames_lift; apply _
    | apply frames_ret; apply _
    | case_match ].

(** * Access control *)

(** What admitting a request changes, at most: the last use of one credential and the
    rate counter of one subject.  Everything else is as it was. *)
Record accounted (now : Z) (s t : ApiState) : Prop := {
  bk_service : ap_service t = ap_service s;
  bk_experiments : ap_experiments t = ap_experiments s;
  bk_accounts : ap_accounts t = ap_accounts s
    ∨ ∃ id, ap_accounts t = fst (account_mark_used id now (ap_accounts s));
  bk_limiter : ∃ subject, ∀ other, other ≠ subject →
    rl_windows (ap_limiter t) !! other = rl_windows (ap_limiter s) !! other;
}.

(** A read of the service, and of the experiments. *)
Lemma in_service_read {A} (m : M ServiceState A) st :
  fst (m (ap_service st)) = ap_service st → fst (in_service m st) = st.
Proof. unfold in_service, zoom. destruct (m _) as [x r]. cbn. intros ->. by destruct st. Qed.

Lemma in_state_fst {A} (f : MemoryStateStore → A) s : in_state (read f) s = (s, Ok (f (sc_state s))).
Proof. unfold in_state, zoom. cbn. by destruct s. Qed.
Lemma in_audit_fst {A} (f : AuditJournal → A) s : in_audit (read f) s = (s, Ok (f (sc_audit s))).
Proof. unfold in_audit, zoom. cbn. by destruct s. Qed.
Lemma service_state_read {A} (f : MemoryStateStore → A) st :
  in_service (in_state (read f)) st = (st, Ok (f (sc_state (ap_service st)))).
Proof. unfold in_service, zoom. rewrite in_state_fst. by destruct st. Qed.
Lemma service_audit_read {A} (f : AuditJournal → A) st :
  in_service (in_audit (read f)) st = (st, Ok (f (sc_audit (ap_service st)))).
Proof. unfold in_service, zoom. rewrite in_audit_fst. by destruct st. Qed.
Lemma experiments_read {A} (f : MemoryExperimentStore → A) st :
  in_experiments (read f) st = (st, Ok (f (ap_experiments st))).
Proof. unfold in_experiments, zoom. cbn. by destruct st. Qed.

Definition records (st : ApiState) : gmap Z ProposalRecord := _records (sc_state (ap_service st)).

(** The role or permission an endpoint asks for. *)
Definition has_right (e : Endpoint) (p : Principal) : bool :=
  overlap (pn_roles p) (endpoint_roles e) || overlap (pn_permissions p) (endpoint_permissions e).

(** Whose object a request is about: one may submit and execute one's own proposals, and
    see one's own proposals and experiments unless one's role sees all of them. *)
Definition object_access (st : ApiState) (e : Endpoint) (p : Principal) : bool :=
  match e with
  | SubmitProposal _ proposal => bool_decide (principal_id proposal = pn_subject p)
  | ExecuteProposal _ pid _ =>
      match records st !! pid with
      | Some r => bool_decide (principal_id (rec_proposal r) = pn_subject p)
      | None => false
      end
  | ProposalStatus pid | ProposalAttestation _ pid =>
      match records st !! pid with
      | Some r => bool_decide (principal_id (rec_proposal r) = pn_subject p)
                  || overlap (pn_roles p) [VIEWER; POLICY_ADMIN; AUDITOR]
      | None => false
      end
  | ExperimentResult id =>
      match _jobs (ap_experiments st) !! id with
      | Some j => bool_decide (job_principal_id j = pn_subject p)
                  || overlap (pn_roles p) [VIEWER; AUDITOR]
      | None => false
      end
  | _ => true
  end.

Definition may (st : ApiState) (e : Endpoint) (p : Principal) : bool :=
  has_right e p && object_access st e p.

(** The endpoints that only read: all but those that submit, execute, govern policies and
    queue experiments, and but the attestation endpoint, a GET that stores the attestation
    of the proposal and logs it when it is read for the first time. *)
Definition read_only (e : Endpoint) : bool :=
  match e with
  | ProposalStatus _ | SimulatePolicy _ _ _ _ | VerifyAttestation _ _ _ | ExperimentResult _
  | AuditStream => true
  | _ => false
  end.

Section access.
Context `{!Externals} `{!EvidenceExternals}.

Lemma rate_consume_others now subject limit window r other :
  other ≠ subject →
  rl_windows (fst (rate_consume now subject limit window r)) !! other = rl_windows r !! other.
Proof.
  intros Hne. unfold rate_consume, mbind, M_bind, lift, read.
  destruct (rate_validate limit window); [|done].
  destruct (default _ _) as [start count]. destruct (if _ <=? _ then _ else _) as [start' count'].
  destruct (limit <=? count'); [done|]. cbn. by rewrite lookup_insert_ne.
Qed.

Lemma composite_authenticate_accounts oidc mgr now auth r :
  fst (composite_authenticate oidc mgr now auth r) = r
  ∨ ∃ id, fst (composite_authenticate oidc mgr now auth r) = fst (account_mark_used id now r).
Proof.
  unfold composite_authenticate. case_match; case_match. case_match; [|by left].
  unfold account_authenticate, mbind, M_bind, self, lift.
  destruct (try_except _ _ _) as [record|]; [|by left]. right. exists (sa_credential_id record).
  by destruct (account_mark_used _ _ _) as [r' [[]|]].
Qed.

Lemma current_principal_accounted cfg now auth st :
  accounted now st (fst (current_principal cfg now auth st)).
Proof.
  unfold current_principal, mbind, M_bind, in_accounts, in_limiter, zoom.
  set (m := composite_authenticate _ _ _ _).
  assert (fst (m (ap_accounts st)) = ap_accounts st
    ∨ ∃ id, fst (m (ap_accounts st)) = fst (account_mark_used id now (ap_accounts st))) as Hacc
    by apply composite_authenticate_accounts.
  destruct (m (ap_accounts st)) as [r [p|x]]; cbn [fst] in Hacc; [|constructor; try done; by exists ""].
  cbn [ap_limiter].
  pose proof (rate_consume_others now (rate_subject p) (ac_rate_limit_requests cfg)
    (ac_rate_limit_window_seconds cfg) (ap_limiter st)) as Hlim.
  destruct (rate_consume _ _ _ _ _) as [w [allowed|x]]; cbn [fst] in Hlim; cbn.
  - destruct allowed; cbn; constructor; try done; by exists (rate_subject p).
  - constructor; try done. by exists (rate_subject p).
Qed.

Lemma handle_unfold cfg c st :
  handle cfg c st =
  match current_principal cfg (call_now c) (call_authorization c) st with
  | (s, Err x) => (s, Err x)
  | (s, Ok p) =>
      if has_right (call_endpoint c) p then endpoint cfg (call_endpoint c) p s
      else (s, Err forbidden)
  end.
Proof.
  unfold handle, mbind, M_bind. destruct (current_principal _ _ _ _) as [s [p|x]]; [|done].
  unfold lift, require_access, has_right. rewrite <- negb_orb.
  by destruct (overlap _ _ || overlap _ _).
Qed.

(** What a refused request looks like: nothing changed. *)
Definition refused (e : Endpoint) (st : ApiState) (x : ApiState * result ApiResponse) : Prop :=
  x.1 = st ∧ is_ok x.2 = false ∧ http_status e x.2 ∈ [403; 404].

Lemma proposal_scope_refused e pid st (k : ProposalRecord → M ApiState ApiResponse) p :
  (∀ r, records st !! pid = Some r →
     bool_decide (principal_id (rec_proposal r) = pn_subject p)
     || overlap (pn_roles p) [VIEWER; POLICY_ADMIN; AUDITOR] = false) →
  refused e st ((found ← in_service (in_state (store_get pid));
    record ← lift (or_raise found (ApiError 404 "PROPOSAL_NOT_FOUND" "proposal does not exist"));
    lift (enforce_read_scope record p);; k record) st).
Proof.
  intros Hno. unfold mbind, M_bind, store_get. rewrite service_state_read.
  fold (records st). unfold lift. destruct (records st !! pid) as [r|]; cbn [or_raise].
  - specialize (Hno r eq_refl). apply orb_false_iff in Hno as [H1 H2].
    unfold enforce_read_scope. rewrite bool_decide_not, H1, H2. cbn.
    split; [done|]. split; [done|]. cbn. set_solver.
  - split; [done|]. split; [done|]. cbn. set_solver.
Qed.

Lemma execute_refused cfg d pid request actor st :
  (∀ r, _records (sc_state st) !! pid = Some r → principal_id (rec_proposal r) ≠ actor) →
  execute cfg d pid request actor st
  = (st, Err (match _records (sc_state st) !! pid with
              | Some _ => PermissionError "proposal belongs to another principal"
              | None => KeyError "proposal does not exist"
              end)).
Proof.
  intros Hno. unfold execute, mbind, M_bind, store_get, lift. rewrite in_state_fst.
  destruct (_records _ !! pid) as [r|]; cbn [or_raise]; [|done].
  rewrite bool_decide_false by (by apply Hno). done.
Qed.

Lemma endpoint_refused cfg e p st :
  object_access st e p = false → refused e st (endpoint cfg e p st).
Proof.
  destruct e as [d pr|pid|d pid request| | | | | |d pid| |id|]; cbn [object_access endpoint];
    intros Hno; try discriminate Hno.
  - unfold submit_proposal, mbind, M_bind, lift. rewrite Hno. cbn.
    split; [done|]. split; [done|]. cbn. set_solver.
  - apply proposal_scope_refused. intros r Hr. by rewrite Hr in Hno.
  - assert (∀ r, records st !! pid = Some r → principal_id (rec_proposal r) ≠ pn_subject p) as Hn.
    { intros r Hr. rewrite Hr in Hno. by apply bool_decide_eq_false in Hno. }
    unfold execute_proposal, mbind, M_bind, translating, try_m, in_service, zoom, raise.
    rewrite (execute_refused _ _ _ _ _ _ Hn).
    destruct (_records _ !! pid); cbn; (split; [by destruct st|]; split; [done|]; cbn; set_solver).
  - apply proposal_scope_refused. intros r Hr. by rewrite Hr in Hno.
  - unfold experiment_result, experiment_get, mbind, M_bind, lift. rewrite experiments_read.
    destruct (_jobs _ !! id) as [j|]; cbn [or_raise].
    + apply orb_false_iff in Hno as [H1 H2]. rewrite bool_decide_not, H1, H2. cbn.
      split; [done|]. split; [done|]. cbn. set_solver.
    + split; [done|]. split; [done|]. cbn. set_solver.
Qed.

Lemma endpoint_read_only cfg e p st : read_only e = true → fst (endpoint cfg e p st) = st.
Proof.
  destruct e; cbn [read_only endpoint]; intros Hr; try discriminate Hr.
  - unfold proposal_status, store_get, mbind, M_bind. rewrite service_state_read. unfold lift.
    destruct (or_raise _ _); [|done]. by destruct (enforce_read_scope _ _).
  - unfold simulate_policy, simulate, mbind, M_bind. rewrite service_state_read. unfold lift.
    by destruct (policy_hash _).
  - unfold verify_attestation_request, mbind, M_bind, lift. repeat (case_match; try done).
  - unfold experiment_result, experiment_get, mbind, M_bind. rewrite experiments_read. unfold lift.
    destruct (or_raise _ _); [|done]. by destruct (raise_if _ _).
  - unfold audit_stream, mbind, M_bind. by rewrite service_audit_read.
Qed.

(** ** The attestation endpoint *)

(** What reading the attestation of [pid] may change: its first attestation is stored, and
    the journal is extended. *)
Record attests (pid : Z) (s t : ServiceState) : Prop := {
  at_policies : sc_policies t = sc_policies s;
  at_state : sc_state t = sc_state s;
  at_artifacts : sc_artifacts t = sc_artifacts s;
  at_settlements : sc_settlements t = sc_settlements s;
  at_calls : sc_calls t = sc_calls s;
  at_others : ∀ k a, k ≠ pid ∨ ats_items (sc_attestations s) !! k = Some a →
    ats_items (sc_attestations t) !! k = ats_items (sc_attestations s) !! k;
  at_events : j_events (sc_audit s) `prefix_of` j_events (sc_audit t);
}.

#[local] Instance attests_preorder pid : PreOrder (attests pid).
Proof.
  split; [intros s; by constructor|].
  intros a b c [A1 A2 A3 A4 A5 A6 A7] [B1 B2 B3 B4 B5 B6 B7]. constructor; try congruence; [|by etrans].
  intros k x Hk. rewrite <- (A6 k x Hk). apply (B6 k x). destruct Hk as [|Hk]; [by left|right].
  rewrite (A6 k x); auto.
Qed.

(** A read of one component. *)
Lemma attests_read {A T} pid (get : ServiceState → T) set (f : T → A) :
  (∀ s, set (get s) s = s) → frames (attests pid) (zoom get set (read f)).
Proof. intros Hset s. unfold zoom. cbn. rewrite Hset. reflexivity. Qed.

Lemma attests_put pid a : frames (attests pid) (in_attestations (attestation_put pid a)).
Proof.
  intros s. unfold in_attestations, zoom, attestation_put, mbind, M_bind, self, lift, update.
  destruct (ats_items (sc_attestations s) !! pid) eqn:Hp; cbn; [by destruct s|].
  destruct (raise_if _ _); [|by destruct s]. constructor; try done. cbn.
  intros k x Hk. rewrite lookup_insert_ne; [done|]. intros <-. destruct Hk; congruence.
Qed.

Lemma journal_append_extends new_id now ty actor payload agg j :
  j_events j `prefix_of` j_events (fst (journal_append new_id now ty actor payload agg j)).
Proof.
  unfold journal_append, read, lift, mbind, M_bind.
  destruct (AuditEventV1_validate _); [|done]. destruct (_event_payload _); [|done].
  destruct (AuditEventV1_validate _); [|done]. by eexists.
Qed.

Lemma attests_append pid new_id now ty actor payload agg :
  frames (attests pid) (in_audit (journal_append new_id now ty actor payload agg)).
Proof.
  intros s. unfold in_audit, zoom.
  pose proof (journal_append_extends new_id now ty actor payload agg (sc_audit s)) as Hj.
  destruct (journal_append _ _ _ _ _ _ _) as [j r]. by constructor.
Qed.

Lemma complete_attestation_attests cfg d pid actor :
  frames (attests pid) (complete_attestation cfg d pid actor).
Proof.
  unfold complete_attestation, attestation_get, store_get, get_execution, get_decision,
    settlement_observation.
  repeat first
    [ apply attests_put | apply attests_append
    | apply attests_read; by intros []
    | apply frames_bind; [apply _| |intros ?]
    | apply frames_lift; apply _ | apply frames_ret; apply _ | case_match ].
Qed.

(** Reading an attestation, seen from the application. *)
Definition only_attests (pid : Z) (s t : ApiState) : Prop :=
  attests pid (ap_service s) (ap_service t) ∧ ap_experiments t = ap_experiments s
  ∧ ap_limiter t = ap_limiter s ∧ ap_accounts t = ap_accounts s.

Lemma proposal_attestation_only cfg d pid p st :
  only_attests pid st (fst (proposal_attestation cfg d pid p st)).
Proof.
  assert (only_attests pid st st) as Hrefl by (by split; [reflexivity|]).
  unfold proposal_attestation, store_get. unfold mbind, M_bind. rewrite service_state_read. unfold lift.
  destruct (or_raise _ _); [|done]. destruct (enforce_read_scope _ _); [|done].
  unfold translating, try_m, in_service, zoom, raise.
  pose proof (complete_attestation_attests (ac_service cfg) d pid (pn_subject p) (ap_service st)) as Ha.
  by destruct (complete_attestation _ _ _ _ _) as [s1 [a1|e1]].
Qed.

(** C8: Access control of the API, for every request in every state.  Authenticating the
    caller and counting the request changes at most the last use of one credential and the
    rate counter of one subject ([accounted]).  A request whose principal is not
    authenticated or over its rate is answered with that error and changes nothing more;
    one whose principal lacks the endpoint's roles and permissions, or is not the owner of
    the proposal or experiment it names (nor, for reading, has a role that sees all of
    them), is answered 403 or 404 and changes nothing more.  The endpoints of [read_only]
    (status, simulation, offline verification, experiment results, the audit stream) change
    nothing more either; the attestation endpoint stores at most the first attestation of
    that proposal and extends the journal.  And whoever may see a proposal gets its status. *)
Theorem api_access_control cfg c st :
  let e := call_endpoint c in
  let s := fst (current_principal cfg (call_now c) (call_authorization c) st) in
  accounted (call_now c) st s
  ∧ match snd (current_principal cfg (call_now c) (call_authorization c) st) with
    | Err x => handle cfg c st = (s, Err x)
    | Ok p =>
        (may st e p = false → refused e s (handle cfg c st))
        ∧ (read_only e = true → fst (handle cfg c st) = s)
        ∧ (∀ d pid, e = ProposalAttestation d pid → only_attests pid s (fst (handle cfg c st)))
        ∧ (∀ pid, e = ProposalStatus pid → may st e p = true →
            ∃ r, records st !! pid = Some r ∧ snd (handle cfg c st) = Ok (RStatus (_status_response r)))
    end.
Proof.
  intros e s0. pose proof (current_principal_accounted cfg (call_now c) (call_authorization c) st) as Hs.
  split; [done|]. unfold s0. clear s0. rewrite handle_unfold. fold e.
  destruct (current_principal _ _ _ st) as [s [p|x]]; cbn [fst snd] in *; [|done].
  assert (object_access s e p = object_access st e p) as Hobj.
  { destruct Hs as [H1 H2 _ _]. unfold object_access, records. by rewrite H1, H2. }
  assert (records s = records st) as Hrec by (unfold records; by destruct Hs as [-> _ _ _]).
  split_and!.
  - unfold may. destruct (has_right e p); cbn [andb].
    + intros Hno. rewrite <- Hobj in Hno. by apply endpoint_refused.
    + intros _. split; [done|]. split; [done|]. cbn. set_solver.
  - intros Hr. destruct (has_right e p); [|done]. by apply endpoint_read_only.
  - intros d pid ->. destruct (has_right _ p); [apply proposal_attestation_only|].
    by split; [reflexivity|].
  - intros pid -> [Hright Hacc]%andb_true_iff. rewrite Hright. cbn [object_access endpoint] in *.
    destruct (records st !! pid) as [r|] eqn:Hr; [|done]. exists r. split; [done|].
    unfold proposal_status, store_get, mbind, M_bind. rewrite service_state_read. unfold lift.
    fold (records s). rewrite Hrec, Hr. cbn [or_raise]. unfold enforce_read_scope.
    apply orb_true_iff in Hacc. rewrite bool_decide_not.
    by destruct Hacc as [-> | ->]; [|rewrite andb_false_r].
Qed.
End access.

(** * Governance *)

(** A relation between service states, on the application's. *)
Definition over (R : relation ServiceState) (s t : ApiState) : Prop := R (ap_service s) (ap_service t).
#[export] Instance over_preorder (R : relation ServiceState) `{!PreOrder R} : PreOrder (over R).
Proof. split; [intros s; unfold over; reflexivity|]. intros a b c H1 H2. unfold over in *. by etransitivity. Qed.

Section over.
Context (R : relation ServiceState) `{!PreOrder R}.

Lemma over_service {A} (m : M ServiceState A) : frames R m → frames (over R) (in_service m).
Proof.
  intros Hm st. specialize (Hm (ap_service st)). unfold in_service, zoom, over.
  by destruct (m (ap_service st)).
Qed.
Lemma over_experiments {A} (m : M MemoryExperimentStore A) : frames (over R) (in_experiments m).
Proof. apply frames_zoom. intros t s. unfold over. cbn. reflexivity. Qed.
End over.

(** ** The three frames: invariant, policies, calls *)

Definition keeps_inv (s t : ServiceState) : Prop := svc_inv s → svc_inv t.
#[export] Instance keeps_inv_preorder : PreOrder keeps_inv.
Proof. split; [intros s; exact (λ H, H)|]. intros a b c H1 H2 H. exact (H2 (H1 H)). Qed.

Definition same_policies (s t : ServiceState) : Prop := sc_policies t = sc_policies s.
#[export] Instance same_policies_preorder : PreOrder same_policies.
Proof. split; [done|]. intros a b c H1 H2. unfold same_policies in *. congruence. Qed.

(** Every new call satisfies [P]. *)
Definition new_calls (P : external_call → Prop) (s t : ServiceState) : Prop :=
  ∀ c, c ∈ sc_calls t → c ∈ sc_calls s ∨ P c.
#[export] Instance new_calls_preorder P : PreOrder (new_calls P).
Proof. split; [by left|]. intros a b c H1 H2 x [Hx|]%H2; auto. Qed.

Lemma keeps_inv_quiet {A} (m : M ServiceState A) : quiet m → frames keeps_inv m.
Proof. intros Hm st Hi. by apply quiet_inv. Qed.
Lemma new_calls_zoom {T A} P (get : ServiceState → T) set (m : M T A) :
  (∀ t s, sc_calls (set t s) = sc_calls s) → frames (new_calls P) (zoom get set m).
Proof. intros Hs. apply frames_zoom. intros t s c. rewrite Hs. auto. Qed.

Section services.
Context `{!Externals} `{!EvidenceExternals}.

Lemma policies_zoom {T A} (get : ServiceState → T) set (m : M T A) :
  (∀ t s, sc_policies (set t s) = sc_policies s) → frames same_policies (zoom get set m).
Proof. intros Hs. by apply frames_zoom. Qed.

Lemma active_frame R `{!PreOrder R} : frames R (in_policies registry_active).
Proof.
  intros st. unfold in_policies, zoom, registry_active, mbind, M_bind, read, lift. cbn.
  destruct (_active_id _); cbn; destruct st; reflexivity.
Qed.

Lemma submit_policies cfg d pr actor : frames same_policies (submit cfg d pr actor).
Proof.
  unfold submit. apply frames_bind; [apply _|apply active_frame; apply _|intros ?].
  repeat first [apply policies_zoom; done | apply frames_bind; [apply _| |intros ?]
    | apply frames_lift; apply _ | apply frames_ret; apply _ | case_match].
Qed.

Lemma submit_calls P cfg d pr actor : frames (new_calls P) (submit cfg d pr actor).
Proof.
  unfold submit. apply frames_bind; [apply _|apply active_frame; apply _|intros ?].
  repeat first [apply new_calls_zoom; done | apply frames_bind; [apply _| |intros ?]
    | apply frames_lift; apply _ | apply frames_ret; apply _ | case_match].
Qed.

(** The calls an execution makes. *)
Definition by_execution (pid : Z) (actor : string) (c : external_call) : Prop :=
  match c with CSign pid' actor' _ => pid' = pid ∧ actor' = actor | CSubmit pid' _ => pid' = pid end.

Lemma call_frame P c : P c → frames (new_calls P) (call c).
Proof. intros Hc s x. cbn. rewrite elem_of_app, list_elem_of_singleton. intros [?| ->]; auto. Qed.
Lemma call_policies c : frames same_policies (call c).
Proof. done. Qed.

Lemma execute_calls cfg d pid request actor :
  frames (new_calls (by_execution pid actor)) (execute cfg d pid request actor).
Proof.
  unfold execute, sign_new, submit_new, submit_again, current_record.
  repeat first [apply new_calls_zoom; done | apply call_frame; done
    | apply frames_bind; [apply _| |intros ?]
    | apply frames_lift; apply _ | apply frames_ret; apply _ | case_match].
Qed.

Lemma execute_policies cfg d pid request actor : frames same_policies (execute cfg d pid request actor).
Proof.
  unfold execute, sign_new, submit_new, submit_again, current_record.
  repeat first [apply policies_zoom; done | apply call_policies
    | apply frames_bind; [apply _| |intros ?]
    | apply frames_lift; apply _ | apply frames_ret; apply _ | case_match].
Qed.

Lemma attestation_policies cfg d pid actor : frames same_policies (complete_attestation cfg d pid actor).
Proof.
  unfold complete_attestation.
  repeat first [apply policies_zoom; done | apply frames_bind; [apply _| |intros ?]
    | apply frames_lift; apply _ | apply frames_ret; apply _ | case_match].
Qed.

Lemma attestation_calls P cfg d pid actor : frames (new_calls P) (complete_attestation cfg d pid actor).
Proof. intros st c. destruct (attestation_quiet cfg d pid actor st) as (_ & -> & _). auto. Qed.

(** ** What an endpoint does to each *)

(** Take an endpoint apart down to its service methods. *)
Ltac endpoint_frame :=
  repeat lazymatch goal with
  | |- frames _ (in_experiments _) => apply over_experiments; apply _
  | |- frames _ (translating _ _) => apply frames_translating
  | |- frames (over _) (in_service _) => apply over_service
  | |- frames _ (_ ≫= _) => apply frames_bind; [apply _| |intros ?]
  | |- frames _ (lift _) => apply frames_lift; apply _
  | |- frames _ (mret _) => apply frames_ret; apply _
  | |- frames _ (match _ with _ => _ end) => case_match
  end.

Lemma read_frame {A} R `{!PreOrder R} (f : MemoryStateStore → A) : frames R (in_state (read f)).
Proof. intros s. rewrite in_state_fst. cbn. reflexivity. Qed.
Lemma audit_read_frame {A} R `{!PreOrder R} (f : AuditJournal → A) : frames R (in_audit (read f)).
Proof. intros s. rewrite in_audit_fst. cbn. reflexivity. Qed.

Lemma endpoint_inv cfg e p : frames (over keeps_inv) (endpoint cfg e p).
Proof.
  destruct e; cbn [endpoint];
    unfold submit_proposal, proposal_status, execute_proposal, create_policy, approve_policy,
      activate_policy, simulate_policy, verify_attestation_request, proposal_attestation,
      execute_experiment, experiment_result, audit_stream, version_event, simulate, store_get;
    endpoint_frame;
    try (apply read_frame; apply _); try (apply audit_read_frame; apply _);
    try solve [apply keeps_inv_quiet; auto using quiet_policies, quiet_audit, attestation_quiet].
  - intros st Hi. by apply submit_ensures.
  - intros st Hi. by apply execute_ensures.
Qed.

Lemma endpoint_calls cfg e p :
  frames (over (new_calls (λ c, ∃ d pid request,
    e = ExecuteProposal d pid request ∧ by_execution pid (pn_subject p) c))) (endpoint cfg e p).
Proof.
  destruct e; cbn [endpoint];
    unfold submit_proposal, proposal_status, execute_proposal, create_policy, approve_policy,
      activate_policy, simulate_policy, verify_attestation_request, proposal_attestation,
      execute_experiment, experiment_result, audit_stream, version_event, simulate, store_get;
    endpoint_frame;
    try (apply read_frame; apply _); try (apply audit_read_frame; apply _);
    try (apply new_calls_zoom; done); try apply submit_calls; try apply attestation_calls.
  intros st c Hc. destruct (execute_calls _ _ _ _ _ st c Hc); [by left|right; eauto 6].
Qed.

(** The registry operation of an endpoint, if it has one. *)
Definition endpoint_op (e : Endpoint) (p : Principal) : option registry_op :=
  match e with
  | CreatePolicy new_id now _ _ policy => Some (OpCreate new_id now policy (pn_subject p))
  | ApprovePolicy vid => Some (OpApprove vid (pn_subject p))
  | ActivatePolicy now _ _ vid => Some (OpActivate now vid (pn_subject p))
  | _ => None
  end.

Lemma endpoint_same_policies cfg e p :
  endpoint_op e p = None → frames (over same_policies) (endpoint cfg e p).
Proof.
  destruct e; cbn [endpoint endpoint_op]; intros Hop; try discriminate Hop;
    unfold submit_proposal, proposal_status, execute_proposal,
      simulate_policy, verify_attestation_request, proposal_attestation,
      execute_experiment, experiment_result, audit_stream, simulate, store_get;
    endpoint_frame;
    try (apply read_frame; apply _); try (apply audit_read_frame; apply _);
    try apply submit_policies; try apply execute_policies; try apply attestation_policies.
Qed.

(** A registry operation, then statements that leave the registry alone. *)
Lemma registry_then {A B} clauses (m : M PolicyRegistry A) (k : A → M ApiState B) st :
  (∀ a, frames (over same_policies) (k a)) →
  sc_policies (ap_service (fst ((translating clauses (in_service (in_policies m)) ≫= k) st)))
  = fst (m (sc_policies (ap_service st))).
Proof.
  intros Hk. unfold mbind, M_bind, translating, try_m, in_service, in_policies, zoom, raise.
  destruct (m _) as [r [a|x]]; cbn; [|done]. by rewrite (Hk a _).
Qed.

Lemma translating_nil {S A B} (m : M S A) (k : A → M S B) s :
  (m ≫= k) s = (translating [] m ≫= k) s.
Proof. unfold mbind, M_bind, translating, try_m. by destruct (m s) as [s' [a|e]]. Qed.

Lemma version_event_policies event_id event_at t actor v :
  frames (over same_policies) (version_event event_id event_at t actor v).
Proof. apply over_service. by apply policies_zoom. Qed.

Lemma endpoint_policies cfg e p st op :
  endpoint_op e p = Some op →
  sc_policies (ap_service (fst (endpoint cfg e p st)))
  = fst (registry_run op (sc_policies (ap_service st))).
Proof.
  destruct e; intros Hop; try discriminate Hop; injection Hop as <-; cbn [endpoint registry_run].
  - unfold create_policy. rewrite translating_nil. apply registry_then. intros v.
    apply frames_bind; [apply _|apply version_event_policies|intros ?; apply frames_ret; apply _].
  - unfold approve_policy. apply registry_then. intros v. apply frames_ret. apply _.
  - unfold activate_policy. apply registry_then. intros v.
    apply frames_bind; [apply _|apply version_event_policies|intros ?; apply frames_ret; apply _].
Qed.

(** ** Runs of the application

    Requests in any order, and between them the reconciler and anything that leaves the
    service's data alone (credentials issued or revoked by an operator, experiments run,
    the passing of time); with the authenticated requests so far, the latest first. *)
Definition api_start (now : Z) : ApiState :=
  {| ap_service := service_init now; ap_experiments := experiments_init;
     ap_limiter := limiter_init; ap_accounts := accounts_init |}.

(** [uuid7] does not draw the identifier of an existing version. *)
Definition call_fresh (c : ApiCall) (st : ApiState) : Prop :=
  match call_endpoint c with
  | CreatePolicy new_id _ _ _ _ => _versions (sc_policies (ap_service st)) !! new_id = None
  | _ => True
  end.

Definition authenticated (cfg : ApiConfig) (c : ApiCall) (st : ApiState) : list (Principal * Endpoint) :=
  match snd (current_principal cfg (call_now c) (call_authorization c) st) with
  | Ok p => [(p, call_endpoint c)]
  | Err _ => []
  end.

Inductive api_reach (cfg : ApiConfig) : list (Principal * Endpoint) → ApiState → Prop :=
  | areach_start now : api_reach cfg [] (api_start now)
  | areach_call h st c : api_reach cfg h st → call_fresh c st →
      api_reach cfg (authenticated cfg c st ++ h) (fst (handle cfg c st))
  | areach_poll h st rc now : api_reach cfg h st →
      api_reach cfg h (fst (in_service (service_poll rc now) st))
  | areach_other h st st' : api_reach cfg h st → ap_service st' = ap_service st → api_reach cfg h st'.

(** Only OIDC principals have roles. *)
Lemma roles_human cfg now auth st p :
  snd (current_principal cfg now auth st) = Ok p → pn_roles p ≠ [] → pn_kind p = HUMAN.
Proof.
  intros Hp Hr. destruct (current_principal cfg now auth st) as [s r] eqn:Hcur. cbn in Hp. subst r.
  unfold current_principal in Hcur. apply M_bind_Ok in Hcur as (s1 & p1 & Hc & Hcur).
  unfold in_accounts in Hc. apply zoom_Ok in Hc as (t & Hc & _). m_invs. subst.
  unfold composite_authenticate in Hc. destruct (partition " " auth) as [[scheme b] token] eqn:Hpart.
  case_match.
  - unfold account_authenticate in Hc. m_invs. by destruct Hr.
  - apply lift_Ok in Hc as [_ Ho]. unfold oidc_call in Ho. rewrite Hpart in Ho. ok_invs. done.
Qed.

(** What the history says of policies and signer calls. *)
Record api_inv (h : list (Principal * Endpoint)) (st : ApiState) : Prop := {
  api_svc : svc_inv (ap_service st);
  api_policies : ∃ ops, registry_reach ops (sc_policies (ap_service st)) ∧
    ∀ vid a, OpApprove vid a ∈ ops → ∃ p, (p, ApprovePolicy vid) ∈ h ∧ pn_subject p = a ∧
      POLICY_ADMIN ∈ pn_roles p ∧ pn_kind p = HUMAN;
  api_calls : ∀ pid actor q, CSign pid actor q ∈ sc_calls (ap_service st) →
    ∃ p d request, (p, ExecuteProposal d pid request) ∈ h ∧ pn_subject p = actor ∧
      has_right (ExecuteProposal d pid request) p = true;
}.

Lemma overlap_singleton {A} `{EqDecision A} (l : list A) x : overlap l [x] = true ↔ x ∈ l.
Proof.
  unfold overlap. rewrite existsb_exists. split.
  - intros (y & Hy & Hx%is_in_true). apply list_elem_of_singleton in Hx as ->. by apply list_elem_of_In.
  - intros Hx%list_elem_of_In. exists x. split; [done|]. apply is_in_true. by left.
Qed.

Lemma overlap_nil {A} `{EqDecision A} (l : list A) : overlap l [] = false.
Proof. unfold overlap. induction l; [done|]. cbn. by rewrite IHl. Qed.

Lemma approve_admin vid p : has_right (ApprovePolicy vid) p = true → POLICY_ADMIN ∈ pn_roles p.
Proof.
  unfold has_right. cbn [endpoint_roles endpoint_permissions]. rewrite overlap_nil, orb_false_r.
  apply overlap_singleton.
Qed.

(** A larger history says as much. *)
Lemma api_inv_weaken h h' st st' :
  api_inv h st → ap_service st' = ap_service st → (∀ x, x ∈ h → x ∈ h') → api_inv h' st'.
Proof.
  intros [Hs (ops & Hr & Ha) Hc] Heq Hin. constructor; rewrite Heq; [done| |].
  - exists ops. split; [done|]. intros vid a (p & ? & ?)%Ha. exists p. auto.
  - intros pid actor q (p & d & req & ? & ?)%Hc. exists p, d, req. auto.
Qed.

Lemma api_call_inv cfg h st c :
  api_inv h st → call_fresh c st → api_inv (authenticated cfg c st ++ h) (fst (handle cfg c st)).
Proof.
  intros Hinv Hfresh. rewrite handle_unfold. unfold authenticated.
  pose proof (current_principal_accounted cfg (call_now c) (call_authorization c) st) as [Hs _ _ _].
  destruct (current_principal _ _ _ st) as [s [p|x]] eqn:Hcur; cbn [fst snd] in *.
  2: { by eapply api_inv_weaken. }
  destruct (has_right _ p) eqn:Hright; [|eapply api_inv_weaken; [done..|set_solver]].
  destruct Hinv as [Hsvc (ops & Hreach & Happ) Hcalls]. set (e := call_endpoint c) in *.
  rewrite <- Hs in Hsvc, Hreach, Hcalls. constructor.
  - by apply endpoint_inv.
  - destruct (endpoint_op e p) as [op|] eqn:Hop.
    + rewrite (endpoint_policies cfg e p s op Hop). exists (op :: ops). split.
      { constructor; [done|]. unfold call_fresh in Hfresh. fold e in Hfresh. rewrite <- Hs in Hfresh.
        by destruct e; simplify_eq/=. }
      intros vid a [<-|Hin]%elem_of_cons.
      * destruct e; simplify_eq/=. exists p. split_and!; [set_solver|done| |].
        { by eapply approve_admin. }
        { eapply roles_human; [by rewrite Hcur|]. apply approve_admin in Hright as Hin. intros Hnil. rewrite Hnil in Hin. by apply elem_of_nil in Hin. }
      * destruct (Happ _ _ Hin) as (p' & ? & ?). exists p'. set_solver.
    + rewrite (endpoint_same_policies cfg e p Hop s). exists ops. split; [done|].
      intros vid a (p' & ? & ?)%Happ. exists p'. set_solver.
  - intros pid actor q [Hin|(d & pid' & req & He & Hby)]%(endpoint_calls cfg e p s).
    + destruct (Hcalls _ _ _ Hin) as (p' & d & req & ? & ?). exists p', d, req. set_solver.
    + destruct Hby as [-> ->]. exists p, d, req. rewrite <- He. set_solver.
Qed.

Lemma api_reach_inv cfg h st : api_reach cfg h st → api_inv h st.
Proof.
  induction 1 as [now|h st c _ IH Hf|h st rc now _ IH|h st st' _ IH Heq].
  - constructor.
    + by apply service_reach_inv, vreach_init.
    + exists []. split; [constructor|set_solver].
    + cbn. set_solver.
  - by apply api_call_inv.
  - destruct IH as [Hs Hp Hc].
    pose proof (poll_quiet rc now (ap_service st)) as (Ha & Hcalls & _).
    assert (sc_policies (fst (service_poll rc now (ap_service st))) = sc_policies (ap_service st)) as Hpol
      by (unfold service_poll, zoom; by destruct (poll_once rc now _)).
    pose proof (quiet_inv _ _ (poll_quiet rc now) Hs) as Hsvc.
    constructor; unfold in_service, zoom; destruct (service_poll rc now _) as [x r]; cbn in *; [done| |];
      by rewrite ?Hpol, ?Hcalls.
  - by eapply api_inv_weaken.
Qed.

(** C7: Governance through the API.  Whatever requests reach the application, with
    whatever credentials: the policy proposals are decided with was approved, as that very
    version, in two authenticated requests of two different people who had the
    administrator role (never by a service credential), and its hash is that of its
    document; and every request that ever went to the isolated signer was made in an
    authenticated request by the principal the proposal belongs to, who had the researcher
    role or the write permission, with the decision stored for the proposal. *)
Theorem api_governance cfg h st :
  api_reach cfg h st →
  (∀ v, snd (registry_active (sc_policies (ap_service st))) = Ok v →
    policy_hash (v_policy v) = Ok (v_policy_hash v) ∧
    ∃ p1 p2, pn_subject p1 ≠ pn_subject p2 ∧
      (p1, ApprovePolicy (version_id v)) ∈ h ∧ (p2, ApprovePolicy (version_id v)) ∈ h ∧
      POLICY_ADMIN ∈ pn_roles p1 ∧ POLICY_ADMIN ∈ pn_roles p2 ∧
      pn_kind p1 = HUMAN ∧ pn_kind p2 = HUMAN) ∧
  (∀ pid actor q, CSign pid actor q ∈ sc_calls (ap_service st) →
    proposal_id (q_proposal q) = pid ∧ principal_id (q_proposal q) = actor ∧
    as_decisions (sc_artifacts (ap_service st)) !! pid = Some (q_decision q) ∧
    ∃ p d request, (p, ExecuteProposal d pid request) ∈ h ∧ pn_subject p = actor ∧
      (RESEARCHER ∈ pn_roles p ∨ PROPOSALS_WRITE ∈ pn_permissions p)).
Proof.
  intros [Hsvc (ops & Hreach & Happ) Hcalls]%api_reach_inv. split.
  - intros v Hv. destruct (active_approvers _ _ _ Hreach Hv) as (_ & Hl & a & b & Hab & Ha & Hb).
    split; [by apply (registry_reach_history _ _ _ _ Hreach Hl)|].
    destruct (Happ _ _ Ha) as (p1 & ? & <- & ? & ?). destruct (Happ _ _ Hb) as (p2 & ? & <- & ? & ?).
    exists p1, p2. by split_and!.
  - intros pid actor q Hin. destruct Hsvc as [_ [_ _ Hsign]].
    destruct (Hsign _ _ _ Hin) as (Hd & Hp & Hpid).
    destruct (Hcalls _ _ _ Hin) as (p & d & req & Hh & Hs & Hright).
    split_and!; try done. exists p, d, req. split_and!; try done.
    unfold has_right in Hright. cbn [endpoint_roles endpoint_permissions] in Hright.
    apply orb_true_iff in Hright as [?%overlap_singleton|?%overlap_singleton]; auto.
Qed.
End services.

(** The service is ready exactly with a policy in force and a signer, if any, that answers; either
    way the state of the service is only read. *)
Lemma readiness_exact identity st :
  fst (readiness identity st) = 200 ↔
  (∃ v, snd (registry_active (sc_policies (ap_service st))) = Ok v) ∧ ∀ r, identity = Some r → r = Ok tt.
Proof.
  unfold readiness. destruct (snd (registry_active _)) as [v|e]; cbn; [|naive_solver].
  destruct identity as [[[]|e]|]; cbn; naive_solver.
Qed.
