(* ===== verification/ApiScenario.v ===== *)
(** A run of the application through its API: two administrators put a policy in force,
    and an agent with a service credential submits a proposal and executes it. *)
From Stdlib Require Import ZArith Lia Ascii String.
From stdpp Require Import base gmap sets list strings pretty.
From S2P Require Import Prelude Bytes Canonical CanonicalFacts Contracts ContractsFacts Policy.
From S2P Require Import PolicyFacts State StateFacts Decisions Signing Journal RateLimit Artifacts.
From S2P Require Import Attestations Settlements Service ServiceFacts Scenario Experiments.
From S2P Require Import ExperimentsFacts Access AccessFacts Api ApiFacts.

Open Scope Z_scope.

#[local] Existing Instance sized_externals.
#[local] Existing Instance run_evidence.

(** The JWT library of the run: a token is its subject, with the roles it is given. *)
Definition claims_of (subject : string) (roles : list string) : list (pykey * pyval) :=
  [(KStr "sub", PStr subject); (KStr "roles", PList (PStr <$> roles))].
Definition web_decode (_ : Z) (token : string) : result (list (pykey * pyval)) :=
  if is_in token ["alice"; "bob"]%string then Ok (claims_of token ["policy_admin"])
  else Err (RuntimeError "invalid token").

Definition web_config : ApiConfig :=
  {| ac_service := run_config; ac_experiments := demo_config; ac_manager := demo_mgr;
     ac_oidc := {| oidc_issuer := "https://issuer"; oidc_organization_id := "acme";
                   oidc_environment_id := "prod" |};
     ac_decode := web_decode; ac_rate_limit_requests := 120; ac_rate_limit_window_seconds := 60 |}.

Definition agent_token : string := token_of 17 demo_secret.

Definition web_calls : list ApiCall :=
  [ {| call_now := 10; call_authorization := "Bearer alice";
       call_endpoint := CreatePolicy 1 0 61 10 sample_policy |};
    {| call_now := 20; call_authorization := "Bearer alice"; call_endpoint := ApprovePolicy 1 |};
    {| call_now := 25; call_authorization := "Bearer " +:+ agent_token; call_endpoint := ApprovePolicy 1 |};
    {| call_now := 30; call_authorization := "bearer bob"; call_endpoint := ApprovePolicy 1 |};
    {| call_now := 40; call_authorization := "Bearer bob"; call_endpoint := ActivatePolicy 5 62 40 1 |};
    {| call_now := seconds 1000; call_authorization := "Bearer " +:+ agent_token;
       call_endpoint := SubmitProposal run_submit sample_proposal |};
    {| call_now := seconds 1006; call_authorization := "Bearer " +:+ agent_token;
       call_endpoint := ExecuteProposal (run_execute (seconds 1006)) run_pid run_request |} ].

(** The application after an operator issued the agent's credential. *)
Definition web_start : ApiState :=
  {| ap_service := service_init 0; ap_experiments := experiments_init; ap_limiter := limiter_init;
     ap_accounts := fst (account_issue demo_mgr 5 1 17 demo_secret "agent" "agent-1"
                           [PROPOSALS_WRITE] None accounts_init) |}.

Definition web_step (x : list (Principal * Endpoint) * ApiState) (c : ApiCall)
    : list (Principal * Endpoint) * ApiState :=
  (authenticated web_config c x.2 ++ x.1, fst (handle web_config c x.2)).
Definition web_run (l : list ApiCall) : list (Principal * Endpoint) * ApiState :=
  fold_left web_step l ([], web_start).

(** The statuses of the responses. *)
Fixpoint web_statuses (st : ApiState) (l : list ApiCall) : list Z :=
  match l with
  | [] => []
  | c :: l =>
      let '(st', r) := handle web_config c st in
      http_status (call_endpoint c) r :: web_statuses st' l
  end.

(** The agent's attempt to approve the policy is refused; everything else succeeds. *)
Example web_responses : web_statuses web_start web_calls = [201; 200; 403; 200; 200; 202; 202].
Proof. vm_compute. reflexivity. Qed.

Definition fresh_here (c : ApiCall) (st : ApiState) : bool :=
  match call_endpoint c with
  | CreatePolicy new_id _ _ _ _ =>
      match _versions (sc_policies (ap_service st)) !! new_id with None => true | Some _ => false end
  | _ => true
  end.
Fixpoint all_fresh (st : ApiState) (l : list ApiCall) : bool :=
  match l with
  | [] => true
  | c :: l => fresh_here c st && all_fresh (fst (handle web_config c st)) l
  end.

Lemma fold_reach l h st :
  api_reach web_config h st → all_fresh st l = true →
  api_reach web_config (fold_left web_step l (h, st)).1 (fold_left web_step l (h, st)).2.
Proof.
  revert h st. induction l as [|c l IH]; intros h st Hr Hf; [done|]. cbn [all_fresh fold_left] in *.
  apply andb_true_iff in Hf as [Hc Hf]. apply IH; [|done]. apply areach_call; [done|].
  unfold call_fresh. unfold fresh_here in Hc. destruct (call_endpoint c); try done.
  by destruct (_versions _ !! _).
Qed.

Lemma web_reach : api_reach web_config (web_run web_calls).1 (web_run web_calls).2.
Proof.
  apply fold_reach.
  - apply (areach_other _ [] (api_start 0)); [apply areach_start|reflexivity].
  - vm_compute. reflexivity.
Qed.

Definition signed_by (calls : list external_call) : list (Z * string) :=
  omap (λ c, match c with CSign pid actor _ => Some (pid, actor) | _ => None end) calls.

Lemma signed_by_elem calls pid actor :
  (pid, actor) ∈ signed_by calls → ∃ q, CSign pid actor q ∈ calls.
Proof.
  unfold signed_by. rewrite list_elem_of_omap. intros ([p a q|] & Hin & Heq); simplify_eq. eauto.
Qed.

(** The policy in force has two approvers, and the agent made the one signing request. *)
Lemma api_governance_witness :
  (∃ v p1 p2, snd (registry_active (sc_policies (ap_service (web_run web_calls).2))) = Ok v ∧
    pn_subject p1 ≠ pn_subject p2 ∧ (p1, ApprovePolicy (version_id v)) ∈ (web_run web_calls).1 ∧
    (p2, ApprovePolicy (version_id v)) ∈ (web_run web_calls).1) ∧
  (∃ p d request, (p, ExecuteProposal d run_pid request) ∈ (web_run web_calls).1 ∧
    pn_subject p = "agent-1"%string).
Proof.
  destruct (api_governance web_config _ _ web_reach) as [Hpol Hsign]. split.
  - assert (is_ok (snd (registry_active (sc_policies (ap_service (web_run web_calls).2)))) = true) as Hok
      by (vm_compute; reflexivity).
    destruct (is_ok_inv _ Hok) as [v Hv]. destruct (Hpol v Hv) as (_ & p1 & p2 & Hne & H1 & H2 & _).
    exists v, p1, p2. split; [exact Hv|]. split; [exact Hne|]. split; [exact H1|exact H2].
  - assert (signed_by (sc_calls (ap_service (web_run web_calls).2)) = [(run_pid, "agent-1"%string)]) as Hs
      by (vm_compute; reflexivity).
    destruct (signed_by_elem (sc_calls (ap_service (web_run web_calls).2)) run_pid "agent-1") as [q Hq].
    { rewrite Hs. left. }
    destruct (Hsign _ _ _ Hq) as (_ & _ & _ & p & d & request & Hin & Hsub & _).
    exists p, d, request. split; [exact Hin|exact Hsub].
Defined.
