(* ===== verification/ReleaseEvidence.v ===== *)
(** The manifest of release evidence (src/agentguard-testbed/scripts/release_evidence.py): the
    inventory of files it is built from, and its validation against a checkout.

    An absolute path is the list of its components; there are no symbolic links, so [resolve] only
    removes the [..] components.  Names and paths are within the limits of the system.  Whether
    [datetime.fromisoformat] reads a text as an aware time is an argument. *)
From Stdlib Require Import ZArith Lia Ascii String.
From stdpp Require Import base gmap sets list strings pretty sorting.
From S2P Require Import Prelude Bytes Canonical Json Contracts Eip1559 Tools Retention.

Open Scope Z_scope.

Record Tree := { tr_files : gmap (list string) bytes; tr_directories : gset (list string) }.

(** * Paths *)

(** [PurePosixPath(value).parts], without the root. *)
Definition pure_parts (value : string) : list string := filter (λ c, c ≠ "" ∧ c ≠ ".") (split_slash "" value).
Definition is_absolute (value : string) : bool :=
  match value with String c _ => bool_decide (c = "/"%char) | EmptyString => false end.

Definition _is_repository_relative (value : string) : bool :=
  negb (is_absolute value) && negb (is_in ".." (pure_parts value)) && negb (is_in value [""; "."]).
Definition _is_repository_relative_root (value : string) : bool :=
  negb (is_absolute value) && negb (is_in ".." (pure_parts value)) && str_truthy value.

(** [path.resolve()] *)
Definition resolve_step (acc : list string) (c : string) : list string :=
  if bool_decide (c = "..") then removelast acc else acc ++ [c].
Definition resolve_path (path : list string) : list string := foldl resolve_step [] path.

(** [str(path)], and [as_posix()] of a relative path. *)
Definition path_text (path : list string) : string := "/" +:+ String.concat "/" path.
Definition as_posix (path : list string) : string :=
  match path with [] => "." | _ => String.concat "/" path end.

Definition is_relative_to (path root : list string) : bool := bool_decide (root `prefix_of` path).
Definition relative_to (path root : list string) : list string := drop (length root) path.

(** The order of paths: component by component. *)
Fixpoint path_leb (p q : list string) : bool :=
  match p, q with
  | [], _ => true
  | _ :: _, [] => false
  | c :: p, d :: q => if bool_decide (c = d) then path_leb p q else String.leb c d
  end.
Definition path_le (p q : list string) : Prop := path_leb p q = true.
#[export] Instance path_le_dec : RelDecision path_le.
Proof. intros p q. unfold path_le. apply _. Defined.

(** The order of [key=lambda path: path.relative_to(root).as_posix()]. *)
Definition posix_le (root p q : list string) : Prop :=
  String.leb (as_posix (relative_to p root)) (as_posix (relative_to q root)) = true.
#[export] Instance posix_le_dec root : RelDecision (posix_le root).
Proof. intros p q. unfold posix_le. apply _. Defined.

Definition has_nul (s : string) : bool := negb (str_forallb (λ c, negb (bool_decide (c = zero))) s).

(** [value.replace(old, new)] for an [old] that is not empty; [skip] characters are of the last
    occurrence. *)
Fixpoint replace_text (old new : string) (skip : nat) (s : string) : string :=
  match s, skip with
  | EmptyString, _ => EmptyString
  | String _ s', S k => replace_text old new k s'
  | String c s', O =>
      match strip_prefix old s with
      | Some _ => new +:+ replace_text old new (pred (String.length old)) s'
      | None => String c (replace_text old new 0 s')
      end
  end.

Definition sha_text (width : nat) (s : string) : bool :=
  Nat.eqb (String.length s) width && str_forallb hex_lower_char s.

Section evidence.
Context `{!Externals}.

(** [_sha256]: the blocks are hashed in turn. *)
Definition _sha256 (content : bytes) : string := hex (sha256 content).

(** * Building *)

(** [sorted(path.resolve() for path in resolved.rglob("*") if path.is_file())] *)
Definition files_below (t : Tree) (d : list string) : list (list string) :=
  merge_sort path_le (filter (λ p, d `prefix_of` p ∧ p ≠ d) ((map_to_list (tr_files t)).*1)).

Fixpoint add_candidates (t : Tree) (root artifact_root : list string) (candidates files : list (list string))
    : result (list (list string)) :=
  match candidates with
  | [] => Ok files
  | c :: candidates =>
      raise_if (negb (is_relative_to c root)) (ValueError ("artifact is outside repository root: " +:+ path_text c));;
      raise_if (negb (is_relative_to c artifact_root))
        (ValueError ("artifact is outside artifact_root: " +:+ path_text c));;
      raise_if (bool_decide (tr_files t !! c = None)) (ValueError ("artifact is not a regular file: " +:+ path_text c));;
      raise_if (is_in c files) (ValueError ("duplicate artifact: " +:+ path_text c));;
      add_candidates t root artifact_root candidates (files ++ [c])
  end.

Fixpoint expand_each (t : Tree) (root artifact_root : list string) (artifact_paths files : list (list string))
    : result (list (list string)) :=
  match artifact_paths with
  | [] => Ok files
  | supplied :: artifact_paths =>
      let resolved := resolve_path supplied in
      raise_if (negb (is_relative_to resolved root))
        (ValueError ("artifact is outside repository root: " +:+ path_text supplied));;
      raise_if (negb (is_relative_to resolved artifact_root))
        (ValueError ("artifact is outside artifact_root: " +:+ path_text supplied));;
      let candidates :=
        if bool_decide (resolved ∈ tr_directories t) then files_below t resolved else [resolved] in
      raise_if (bool_decide (candidates = [])) (ValueError ("artifact path contains no files: " +:+ path_text supplied));;
      files ← add_candidates t root artifact_root candidates files;
      expand_each t root artifact_root artifact_paths files
  end.

Definition _expand_artifacts (t : Tree) (root artifact_root : list string) (artifact_paths : list (list string))
    : result (list (list string)) :=
  raise_if (bool_decide (artifact_paths = [])) (ValueError "at least one artifact path is required");;
  files ← expand_each t root artifact_root artifact_paths [];
  Ok (merge_sort (posix_le root) files).

Definition artifact_entry (t : Tree) (artifact_root path : list string) : result pyval :=
  content ← or_raise (tr_files t !! path) (OSError "No such file or directory");
  Ok (PDict
    [(KStr "path", PStr (as_posix (relative_to path artifact_root)));
     (KStr "sha256", PStr (_sha256 content));
     (KStr "size_bytes", PInt (zlen content))]).

Definition _relative_root (root artifact_root : list string) : string := as_posix (relative_to artifact_root root).

Definition build_manifest (t : Tree) (repository_root : list string) (artifact_paths : list (list string))
    (artifact_root : option (list string)) (candidate_commit : string) (generated_at : datetime) : result pydict :=
  raise_if (negb (sha_text 40 candidate_commit))
    (ValueError "candidate_commit must be a lowercase 40-character Git SHA");;
  offset ← or_raise (dt_offset generated_at) (ValueError "generated_at must include a timezone");
  let root := resolve_path repository_root in
  let artifact_root := resolve_path (default root artifact_root) in
  raise_if (negb (is_relative_to artifact_root root)) (ValueError "artifact_root must be inside repository root");;
  files ← _expand_artifacts t root artifact_root artifact_paths;
  artifacts ← mapM (artifact_entry t artifact_root) files;
  Ok [(KStr "schema_version", PStr "aegisledger.release_evidence.v1");
      (KStr "candidate_commit", PStr candidate_commit);
      (KStr "generated_at", PStr (replace_text "+00:00" "Z" 0 (isoformat (dt_wall generated_at - offset))));
      (KStr "artifact_root", PStr (_relative_root root artifact_root));
      (KStr "artifacts", PList artifacts)].

(** * Validating *)

(** [errors.append(message)] under a condition. *)
Definition note (condition : bool) (message : string) : list string := if condition then [message] else [].

(** The body of the loop, from [expected_sha] on. *)
Definition check_artifact (t : Tree) (evidence_root : list string) (raw_path : string) (item : pydict)
    : result (list string) :=
  let expected_sha :=
    match dict_get "sha256" item with Some (PStr s) => if sha_text 64 s then Some s else None | _ => None end in
  let expected_size :=
    match dict_get "size_bytes" item with Some (PInt n) => if n <? 0 then None else Some n | _ => None end in
  raise_if (has_nul raw_path) (ValueError "embedded null byte");;
  let candidate := resolve_path (evidence_root ++ pure_parts raw_path) in
  Ok (note (bool_decide (expected_sha = None)) (raw_path +:+ " sha256 must be 64 lowercase hexadecimal characters")
      ++ note (bool_decide (expected_size = None)) (raw_path +:+ " size_bytes must be a non-negative integer")
      ++ (if negb (is_relative_to candidate evidence_root) then [raw_path +:+ " resolves outside artifact root"]
          else match tr_files t !! candidate with
               | None => ["artifact is missing: " +:+ raw_path]
               | Some content =>
                   note (match expected_size with Some n => negb (zlen content =? n) | None => false end)
                     (raw_path +:+ " size does not match manifest")
                   ++ note (match expected_sha with Some s => bool_decide (_sha256 content ≠ s) | None => false end)
                     (raw_path +:+ " sha256 does not match manifest")
               end)).

Fixpoint check_artifacts (t : Tree) (evidence_root : list string) (index : Z) (seen : list string)
    (artifacts : list pyval) : result (list string) :=
  match artifacts with
  | [] => Ok []
  | item :: artifacts =>
      let label := "artifact " +:+ pretty index in
      match item with
      | PDict item =>
          match dict_get "path" item with
          | Some (PStr raw_path) =>
              if _is_repository_relative raw_path then
                errors ← check_artifact t evidence_root raw_path item;
                rest ← check_artifacts t evidence_root (index + 1) (raw_path :: seen) artifacts;
                Ok (note (is_in raw_path seen) ("duplicate artifact path: " +:+ raw_path) ++ errors ++ rest)
              else
                rest ← check_artifacts t evidence_root (index + 1) seen artifacts;
                Ok ((label +:+ " path must be repository-relative") :: rest)
          | _ =>
              rest ← check_artifacts t evidence_root (index + 1) seen artifacts;
              Ok ((label +:+ " path must be repository-relative") :: rest)
          end
      | _ =>
          rest ← check_artifacts t evidence_root (index + 1) seen artifacts;
          Ok ((label +:+ " must be an object") :: rest)
      end
  end.

(** [datetime.fromisoformat] gives an aware time. *)
Variable aware : string → bool.
Definition _is_timezone_aware_datetime (value : string) : bool := aware (replace_text "Z" "+00:00" 0 value).

(** The root the artifacts are looked up in, and the errors of finding it. *)
Definition evidence_root_of (manifest : pydict) (root : list string) (artifact_root : option (list string))
    : result (list string * list string) :=
  match dict_get "artifact_root" manifest with
  | Some (PStr recorded) =>
      if _is_repository_relative_root recorded then
        match artifact_root with
        | None =>
            raise_if (has_nul recorded) (ValueError "embedded null byte");;
            let evidence_root := resolve_path (root ++ pure_parts recorded) in
            Ok (evidence_root, note (negb (is_relative_to evidence_root root))
              "artifact_root resolves outside repository root")
        | Some path => Ok (resolve_path path, [])
        end
      else Ok (root, ["artifact_root must be repository-relative"])
  | _ => Ok (root, ["artifact_root must be repository-relative"])
  end.

Definition commit_errors (manifest : pydict) (expected_commit : string) : list string :=
  match dict_get "candidate_commit" manifest with
  | Some (PStr c) =>
      if sha_text 40 c then
        note (bool_decide (c ≠ expected_commit))
          ("candidate_commit " +:+ c +:+ " does not match expected commit " +:+ expected_commit)
      else ["candidate_commit must be a lowercase 40-character Git SHA"]
  | _ => ["candidate_commit must be a lowercase 40-character Git SHA"]
  end.

Definition validate_manifest (t : Tree) (manifest : pydict) (repository_root : list string)
    (expected_commit : string) (artifact_root : option (list string)) : result (list string) :=
  let errors :=
    note (match dict_get "schema_version" manifest with
          | Some (PStr v) => bool_decide (v ≠ "aegisledger.release_evidence.v1")
          | _ => true
          end) "schema_version must be aegisledger.release_evidence.v1"
    ++ commit_errors manifest expected_commit
    ++ note (match dict_get "generated_at" manifest with
             | Some (PStr g) => negb (_is_timezone_aware_datetime g)
             | _ => true
             end) "generated_at must be a timezone-aware ISO 8601 timestamp" in
  r ← evidence_root_of manifest (resolve_path repository_root) artifact_root;
  match dict_get "artifacts" manifest with
  | Some (PList ((_ :: _) as artifacts)) =>
      rest ← check_artifacts t r.1 1 [] artifacts;
      Ok (errors ++ r.2 ++ rest)
  | _ => Ok (errors ++ r.2 ++ ["artifacts must be a non-empty array"])
  end.
End evidence.
