(* ===== verification/ReleaseEvidenceFacts.v ===== *)
(** What the evidence manifest promises: it validates exactly as long as every file it was built
    from is still there with its size and digest. *)
From Stdlib Require Import ZArith Lia Ascii String.
From stdpp Require Import base gmap sets list strings pretty sorting.
From S2P Require Import Prelude Bytes Canonical CanonicalFacts Json JsonFacts Contracts ContractsFacts Eip1559 Tools.
From S2P Require Import JournalFacts Retention ReleaseEvidence.

Open Scope Z_scope.

(** * Names and texts *)

Definition name_char (a : ascii) : bool := negb (bool_decide (a = "/"%char)) && negb (bool_decide (a = zero)).
(** A component of a resolved path. *)
Definition name_ok (c : string) : Prop := c ≠ "" ∧ c ≠ "." ∧ c ≠ ".." ∧ str_forallb name_char c = true.

Lemma split_slash_run part c r :
  str_forallb name_char c = true →
  split_slash part (c +:+ r) = match r with
    | EmptyString => [part +:+ c]
    | String a r' => if bool_decide (a = "/"%char) then (part +:+ c) :: split_slash "" r'
                     else split_slash (part +:+ c) r
    end.
Proof.
  revert part. induction c as [|a c IH]; intros part Hc.
  - change ("" +:+ r) with r. rewrite str_app_nil. destruct r as [|a r]; [done|]. cbn [split_slash]. by case_bool_decide.
  - cbn in Hc. prop_of_bool. destruct Hc as [Ha Hc]. unfold name_char in Ha. prop_of_bool. destruct Ha as [Ha _].
    change (String a c +:+ r) with (String a (c +:+ r)). cbn [split_slash]. rewrite bool_decide_false by done.
    rewrite (IH _ Hc). by rewrite !str_app_assoc.
Qed.

Lemma concat_cons c d l : String.concat "/" (c :: d :: l) = c +:+ String "/" (String.concat "/" (d :: l)).
Proof. reflexivity. Qed.

Lemma split_concat l :
  l ≠ [] → Forall (λ c, str_forallb name_char c = true) l → split_slash "" (String.concat "/" l) = l.
Proof.
  induction l as [|c l IH]; [done|]. intros _ [Hc Hl]%Forall_cons. destruct l as [|d l].
  - change (String.concat "/" [c]) with c. rewrite <- (str_app_nil c) at 1. by rewrite split_slash_run.
  - rewrite concat_cons, split_slash_run by done. rewrite bool_decide_true by done.
    change ("" +:+ c) with c. by rewrite IH.
Qed.

Lemma name_ok_chars l : Forall name_ok l → Forall (λ c, str_forallb name_char c = true) l.
Proof. intros Hl. eapply Forall_impl; [done|]. by intros c (_ & _ & _ & ?). Qed.

Lemma pure_parts_posix l : Forall name_ok l → pure_parts (as_posix l) = l.
Proof.
  intros Hl. destruct l as [|c l]; [done|]. unfold pure_parts, as_posix.
  rewrite split_concat by (done || by apply name_ok_chars). induction Hl as [|d k (? & ? & _) _ IH]; [done|].
  by rewrite filter_cons_True, IH.
Qed.

Lemma concat_head c l a s : c = String a s → ∃ s', String.concat "/" (c :: l) = String a s'.
Proof. intros ->. destruct l; [by exists s|]. rewrite concat_cons. by eexists. Qed.

Lemma concat_chars p l :
  p "/"%char = true → Forall (λ c, str_forallb p c = true) l → str_forallb p (String.concat "/" l) = true.
Proof.
  intros Hp. induction l as [|c l IH]; [done|]. intros [Hc Hl]%Forall_cons. destruct l as [|d l]; [done|].
  rewrite concat_cons, str_forallb_app, Hc. cbn [str_forallb andb]. by rewrite Hp, IH.
Qed.

Lemma posix_relative l :
  Forall name_ok l →
  _is_repository_relative_root (as_posix l) = true ∧ has_nul (as_posix l) = false
  ∧ (l ≠ [] → _is_repository_relative (as_posix l) = true).
Proof.
  intros Hl. assert (is_in ".." (pure_parts (as_posix l)) = false) as Hdots.
  { rewrite pure_parts_posix by done. apply bool_decide_eq_false. intros Hin.
    rewrite Forall_forall in Hl. by destruct (Hl _ Hin) as (_ & _ & ? & _). }
  assert (has_nul (as_posix l) = false) as Hnul.
  { unfold has_nul. destruct l as [|c l]; [done|]. cbn [as_posix]. rewrite concat_chars; [done|done|].
    eapply Forall_impl; [by apply name_ok_chars|]. intros d Hd. eapply str_forallb_impl; [|exact Hd].
    intros a Ha. unfold name_char in Ha. by apply andb_true_iff in Ha as []. }
  unfold _is_repository_relative_root, _is_repository_relative. rewrite Hdots.
  destruct l as [|c l]; [done|]. pose proof (pure_parts_posix _ Hl) as Hparts. cbn [as_posix] in *.
  apply Forall_cons in Hl as [(Hne & Hdot & _ & Hc) _]. destruct c as [|a c]; [done|].
  destruct (concat_head (String a c) l a c eq_refl) as [s Hs]. rewrite Hs in *.
  apply andb_true_iff in Hc as [Ha _]. apply andb_true_iff in Ha as [Ha _]. apply negb_true_iff, bool_decide_eq_false in Ha.
  cbn [is_absolute]. rewrite bool_decide_false by done. split; [reflexivity|split; [done|]]. intros _. cbn.
  apply negb_true_iff, bool_decide_eq_false. intros [?|[Hd|?%elem_of_nil]%elem_of_cons]%elem_of_cons; try done.
  rewrite Hd in Hparts. by vm_compute in Hparts.
Qed.

(** * Times *)

Definition time_char (c : ascii) : bool := negb (bool_decide (c = "+"%char)) && negb (bool_decide (c = "Z"%char)).

Lemma replace_time body :
  str_forallb time_char body = true →
  replace_text "Z" "+00:00" 0 (replace_text "+00:00" "Z" 0 (body +:+ "+00:00")) = body +:+ "+00:00".
Proof.
  intros Hb. assert (replace_text "+00:00" "Z" 0 (body +:+ "+00:00") = body +:+ "Z") as ->.
  - induction body as [|c b IH]; [done|]. cbn in Hb. prop_of_bool. destruct Hb as [Hc Hb].
    unfold time_char in Hc. prop_of_bool. destruct Hc as [Hc _].
    change (String c b +:+ "+00:00") with (String c (b +:+ "+00:00")). cbn [replace_text strip_prefix].
    rewrite bool_decide_false by congruence. by rewrite IH.
  - induction body as [|c b IH]; [done|]. cbn in Hb. prop_of_bool. destruct Hb as [Hc Hb].
    unfold time_char in Hc. prop_of_bool. destruct Hc as [_ Hc].
    change (String c b +:+ "Z") with (String c (b +:+ "Z")). cbn [replace_text strip_prefix].
    rewrite bool_decide_false by congruence. by rewrite IH.
Qed.

Lemma padded_time width n : str_forallb time_char (padded width n) = true.
Proof.
  unfold padded. rewrite str_forallb_app. apply andb_true_iff. split.
  - induction (width - _)%nat; [done|]. cbn. done.
  - eapply str_forallb_impl; [|apply pretty_Z_numeric]. intros [[] [] [] [] [] [] [] []]; done.
Qed.

Lemma isoformat_text t : ∃ body, str_forallb time_char body = true ∧ isoformat t = body +:+ "+00:00".
Proof.
  unfold isoformat. destruct (civil _) as [[y m] d]. eexists. split; [|rewrite <- !str_app_assoc; reflexivity].
  rewrite !str_forallb_app, !padded_time. destruct (_ =? 0); [done|]. by rewrite str_forallb_app, padded_time.
Qed.

(** * Resolved paths *)

Lemma resolve_app p q : Forall (λ c, c ≠ "..") q → resolve_path (p ++ q) = resolve_path p ++ q.
Proof.
  unfold resolve_path. rewrite foldl_app. intros Hq. generalize (foldl resolve_step [] p) as acc.
  induction Hq as [|c q Hc _ IH]; intros acc; cbn [foldl]; [by rewrite app_nil_r|].
  unfold resolve_step at 2. rewrite bool_decide_false by done. by rewrite IH, <- app_assoc.
Qed.

Lemma resolve_no_dots p : Forall (λ c, c ≠ "..") (resolve_path p).
Proof.
  unfold resolve_path. generalize (Forall_nil_2 (λ c : string, c ≠ "..")). generalize (@nil string) as acc.
  induction p as [|c p IH]; intros acc Hacc; [done|]. apply IH. unfold resolve_step.
  case_bool_decide as Hc; [|by apply Forall_app_2; [|constructor]].
  destruct acc as [|x l _] using rev_ind; [done|]. rewrite removelast_last. by apply Forall_app in Hacc as [].
Qed.

Lemma resolve_idemp p : resolve_path (resolve_path p) = resolve_path p.
Proof. apply (resolve_app [] (resolve_path p)), resolve_no_dots. Qed.

Lemma name_ok_no_dots l : Forall name_ok l → Forall (λ c, c ≠ "..") l.
Proof. intros Hl. eapply Forall_impl; [done|]. by intros c (_ & _ & ? & _). Qed.

Lemma prefix_relative p root : root `prefix_of` p → p = root ++ relative_to p root.
Proof. intros [q ->]. unfold relative_to. by rewrite drop_app_length. Qed.

(** * The files a manifest is built from *)

(** Every file has proper names and lies in directories, which are no files. *)
Definition tree_ok (t : Tree) : Prop :=
  (∀ p b, tr_files t !! p = Some b → Forall name_ok p ∧ ∀ q, q `prefix_of` p → q ≠ p → q ∈ tr_directories t)
  ∧ ∀ d, d ∈ tr_directories t → tr_files t !! d = None.

(** A file that is one of the supplied paths or below one. *)
Definition covered (t : Tree) (supplied : list (list string)) (p : list string) : Prop :=
  is_Some (tr_files t !! p) ∧ ∃ s, s ∈ supplied ∧ resolve_path s `prefix_of` p.

Section facts.
Context `{!Externals}.

Lemma files_below_elem t d p : p ∈ files_below t d ↔ is_Some (tr_files t !! p) ∧ d `prefix_of` p ∧ p ≠ d.
Proof.
  unfold files_below. rewrite merge_sort_Permutation, list_elem_of_filter, list_elem_of_fmap.
  split; [intros [? [[q b] [-> Hb]]]|intros [[b Hb] ?]].
  - apply elem_of_map_to_list in Hb. eauto.
  - split; [done|]. exists (p, b). by rewrite elem_of_map_to_list.
Qed.

Lemma add_candidates_Ok t root ar candidates files files' :
  add_candidates t root ar candidates files = Ok files' → NoDup files →
  files' = files ++ candidates ∧ NoDup files'
  ∧ Forall (λ p, root `prefix_of` p ∧ ar `prefix_of` p ∧ is_Some (tr_files t !! p)) candidates.
Proof.
  revert files. induction candidates as [|c candidates IH]; intros files; cbn [add_candidates].
  { intros [= <-] ?. by rewrite app_nil_r. }
  intros Hadd Hn. ok_inv Hadd. ok_invs. unfold is_relative_to, is_in in *. prop_of_bool.
  apply IH in Hadd as (-> & Hn' & Hf).
  - rewrite <- app_assoc in *. split; [done|]. split; [done|]. constructor; [|done].
    by rewrite not_eq_None_Some in *.
  - apply NoDup_app. split; [done|]. split; [|apply NoDup_singleton]. set_solver.
Qed.

Lemma candidates_covered t s p :
  tree_ok t →
  p ∈ (if bool_decide (resolve_path s ∈ tr_directories t) then files_below t (resolve_path s) else [resolve_path s]) →
  is_Some (tr_files t !! p) → resolve_path s `prefix_of` p.
Proof. intros _. case_bool_decide; [rewrite files_below_elem; naive_solver|]. intros ->%list_elem_of_singleton. done. Qed.

Lemma covered_candidates t s p :
  tree_ok t → is_Some (tr_files t !! p) → resolve_path s `prefix_of` p →
  p ∈ (if bool_decide (resolve_path s ∈ tr_directories t) then files_below t (resolve_path s) else [resolve_path s]).
Proof.
  intros [Hfiles Hdirs] [b Hb] Hs. case_bool_decide as Hd.
  - apply files_below_elem. split_and!; [by eexists|done|]. intros ->. rewrite (Hdirs _ Hd) in Hb. done.
  - apply list_elem_of_singleton. destruct (decide (resolve_path s = p)) as [|Hne]; [done|].
    exfalso. apply Hd. by eapply Hfiles.
Qed.

Lemma expand_each_Ok t root ar supplied files files' :
  tree_ok t → expand_each t root ar supplied files = Ok files' → NoDup files →
  NoDup files' ∧ ∃ new, files' = files ++ new ∧ (supplied ≠ [] → new ≠ [])
  ∧ Forall (λ p, root `prefix_of` p ∧ ar `prefix_of` p) new ∧ ∀ p, p ∈ new ↔ covered t supplied p.
Proof.
  intros Ht. revert files. induction supplied as [|s supplied IH]; intros files; cbn [expand_each].
  { intros [= <-] Hn. split; [done|]. exists []. rewrite app_nil_r. split_and!; [done|done|done|].
    intros p. unfold covered. set_solver. }
  cbv zeta. intros Hrest Hn. ok_inv Hrest. ok_invs.
  match goal with H : add_candidates _ _ _ ?l _ = _ |- _ => rename H into Hadd; set (candidates := l) in * end.
  match goal with H : bool_decide (candidates = []) = false |- _ => apply bool_decide_eq_false in H; rename H into Hne end.
  apply add_candidates_Ok in Hadd as (-> & Hn1 & Hf); [|done].
  destruct (IH _ Hrest Hn1) as [Hn' (new & -> & _ & Hnew & Hcov)]. split; [done|]. exists (candidates ++ new).
  rewrite app_assoc. split_and!; [done|by destruct candidates|apply Forall_app_2; [|done]; eapply Forall_impl; [done|naive_solver]|].
  intros p. rewrite elem_of_app, Hcov. unfold covered. rewrite Forall_forall in Hf. split.
  - intros [Hp|(Hb & s' & Hs' & Hp)]; [|by eauto using list_elem_of_further]. destruct (Hf _ Hp) as (_ & _ & Hb).
    split; [done|]. exists s. split; [by left|]. by eapply candidates_covered.
  - intros (Hb & s' & [->|Hs']%elem_of_cons & Hp); [left; by apply covered_candidates|eauto].
Qed.

Lemma mapM_Ok {A B} (f : A → result B) l k : mapM f l = Ok k ↔ Forall2 (λ x y, f x = Ok y) l k.
Proof.
  split.
  - revert k. induction l as [|x l IH]; intros k; [intros [= <-]; constructor|]. cbn.
    destruct (f x) as [y|] eqn:Hy; [|done]. cbn. destruct (mapM f l) as [k'|]; [|done]. intros [= <-]. constructor; auto.
  - induction 1 as [|x y l k Hx _ IH]; [done|]. cbn. rewrite Hx. cbn. by rewrite IH.
Qed.

(** * Validation of what was built *)

(** A file of [t] that [t'] has with the same size and digest. *)
Definition intact (t t' : Tree) (p : list string) : Prop :=
  ∃ b b', tr_files t !! p = Some b ∧ tr_files t' !! p = Some b' ∧ zlen b' = zlen b ∧ sha256 b' = sha256 b.

Lemma note_nil c m : note c m = [] ↔ c = false.
Proof. by destruct c. Qed.

Context `{!Sha256Length}.

Lemma sha_text_digest b : sha_text 64 (_sha256 b) = true.
Proof.
  unfold sha_text, _sha256. rewrite hex_length, sha256_length, hex_lower_chars. done.
Qed.

Lemma check_entry t' ar rel b item :
  Forall (λ c, c ≠ "..") ar → Forall name_ok rel → rel ≠ [] →
  item = [(KStr "path", PStr (as_posix rel)); (KStr "sha256", PStr (_sha256 b)); (KStr "size_bytes", PInt (zlen b))] →
  ∃ errs, check_artifact t' ar (as_posix rel) item = Ok errs
    ∧ (errs = [] ↔ ∃ b', tr_files t' !! (ar ++ rel) = Some b' ∧ zlen b' = zlen b ∧ sha256 b' = sha256 b).
Proof.
  intros Har Hrel Hne ->. destruct (posix_relative rel Hrel) as (_ & Hnul & _).
  unfold check_artifact. change (dict_get "sha256" _) with (Some (PStr (_sha256 b))).
  change (dict_get "size_bytes" _) with (Some (PInt (zlen b))). cbv beta iota zeta. rewrite sha_text_digest, Hnul, pure_parts_posix by done. cbn [raise_if mbind result_bind].
  assert (resolve_path (ar ++ rel) = ar ++ rel) as ->.
  { apply (resolve_app [] (ar ++ rel)), Forall_app_2; [done|by apply name_ok_no_dots]. }
  assert ((zlen b <? 0) = false) as -> by (apply Z.ltb_ge; unfold zlen; lia).
  unfold is_relative_to. rewrite (bool_decide_true (ar `prefix_of` _)) by by apply prefix_app_r.
  eexists. split; [reflexivity|]. rewrite !(bool_decide_false (Some _ = None)) by done. cbn [negb note app]. destruct (tr_files t' !! (ar ++ rel)) as [b'|]; [|naive_solver].
  rewrite app_nil_iff, !note_nil. prop_of_bool. unfold _sha256. split.
  - intros [Hz Hs]. exists b'. split_and!; [done|done|]. apply hex_inj. by apply dec_stable.
  - intros (b'' & [= <-] & Hz & Hs). split; [done|]. rewrite Hs. tauto.
Qed.

Lemma check_entries t t' ar files items index seen :
  Forall (λ c, c ≠ "..") ar → Forall2 (λ p item, artifact_entry t ar p = Ok item) files items →
  Forall (λ p, ar `prefix_of` p ∧ p ≠ ar ∧ Forall name_ok p) files → NoDup files →
  Forall (λ p, as_posix (relative_to p ar) ∉ seen) files →
  ∃ errs, check_artifacts t' ar index seen items = Ok errs ∧ (errs = [] ↔ Forall (intact t t') files).
Proof.
  intros Har Hitems. revert index seen. induction Hitems as [|p item files items Hitem Hitems IH]; intros index seen.
  { intros. exists []. by rewrite Forall_nil. }
  intros [(Hpre & Hne & Hnames) Hfiles]%Forall_cons [Hp Hnd]%NoDup_cons [Hseen Hunseen]%Forall_cons.
  pose proof (prefix_relative _ _ Hpre) as Hrel. set (rel := relative_to p ar) in *.
  rewrite Hrel in Hnames. apply Forall_app in Hnames as [_ Hnames].
  assert (rel ≠ []) as Hrelne by (intros Hr; rewrite Hr, app_nil_r in Hrel; done).
  unfold artifact_entry in Hitem. fold rel in Hitem. destruct (tr_files t !! p) as [b|] eqn:Hb; [|done].
  cbn [or_raise mbind result_bind] in Hitem. injection Hitem as <-.
  destruct (check_entry t' ar rel b _ Har Hnames Hrelne eq_refl) as (errs & Herrs & Hnil).
  destruct (IH (index + 1) (as_posix rel :: seen)) as (rest & Hrest & Hall); [done|done| |].
  { rewrite Forall_forall in Hunseen, Hfiles |- *. intros q Hq. destruct (Hfiles _ Hq) as (Hpq & _ & Hnq).
    apply not_elem_of_cons. split; [|by apply Hunseen]. intros Heq.
    pose proof (prefix_relative _ _ Hpq) as Hrq. rewrite Hrq in Hnq. apply Forall_app in Hnq as [_ Hnq].
    apply (f_equal pure_parts) in Heq. rewrite !pure_parts_posix in Heq by done. apply Hp. congruence. }
  cbn [check_artifacts]. change (dict_get "path" _) with (Some (PStr (as_posix rel))). cbv beta iota.
  rewrite (proj2 (proj2 (posix_relative rel Hnames)) Hrelne), Herrs, Hrest. cbn [mbind result_bind].
  eexists. split; [reflexivity|]. unfold is_in. rewrite bool_decide_false by done. cbn [note app].
  rewrite app_nil_iff, Hnil, Hall, Forall_cons, Hrel. unfold intact. rewrite <- Hrel, Hb. naive_solver.
Qed.
End facts.

Section exact.
Context `{!Externals} `{!Sha256Length} (aware : string → bool).

(** What a built manifest records. *)
Lemma build_manifest_Ok t root supplied ar commit gen m :
  tree_ok t → build_manifest t root supplied ar commit gen = Ok m →
  let root' := resolve_path root in
  let ar' := resolve_path (default root' ar) in
  sha_text 40 commit = true ∧ root' `prefix_of` ar' ∧ ∃ files items time,
    files ≠ [] ∧ NoDup files ∧ Forall (λ p, ar' `prefix_of` p) files ∧ (∀ p, p ∈ files ↔ covered t supplied p)
    ∧ Forall2 (λ p item, artifact_entry t ar' p = Ok item) files items
    ∧ m = [(KStr "schema_version", PStr "aegisledger.release_evidence.v1"); (KStr "candidate_commit", PStr commit);
           (KStr "generated_at", PStr (replace_text "+00:00" "Z" 0 (isoformat time)));
           (KStr "artifact_root", PStr (as_posix (relative_to ar' root'))); (KStr "artifacts", PList items)].
Proof.
  intros Ht Hb root' ar'. unfold build_manifest, _relative_root in Hb. fold root' ar' in Hb. ok_inv Hb.
  injection Hb as <-. unfold _expand_artifacts in *. ok_invs.
  unfold is_relative_to in *. prop_of_bool. split; [done|]. split; [done|].
  match goal with H : expand_each _ _ _ _ _ = _ |- _ => rename H into He end.
  match goal with H : mapM _ _ = _ |- _ => apply mapM_Ok in H; rename H into Hm end.
  apply expand_each_Ok in He as (Hn & new & Hnew & Hne & Hpre & Hcov); [|done|constructor]. cbn in Hnew. subst new.
  eexists _, _, _. split_and!; [| | | |exact Hm|reflexivity].
  - intros Hnil. apply Hne; [done|]. apply Permutation_nil_r. rewrite <- Hnil. symmetry. apply merge_sort_Permutation.
  - by rewrite merge_sort_Permutation.
  - rewrite merge_sort_Permutation. eapply Forall_impl; [done|]. naive_solver.
  - intros p. by rewrite merge_sort_Permutation.
Qed.

(** C38: release evidence is exact.  A manifest built over a checkout lists the files among and
    below the given paths.  Validated later against any state of the files, it is accepted exactly
    for the commit it was built for, and as long as each of those files is still there with the
    same size and the same digest; a missing, a changed or a truncated one is reported.  The
    validation of such a manifest never raises. *)
Theorem release_evidence_exact t t' root supplied ar commit gen m :
  (∀ time, aware (isoformat time) = true) → tree_ok t →
  tr_files t !! resolve_path (default (resolve_path root) ar) = None →
  build_manifest t root supplied ar commit gen = Ok m →
  ∀ expected, is_ok (validate_manifest aware t' m root expected None) = true
    ∧ (validate_manifest aware t' m root expected None = Ok [] ↔
       expected = commit ∧ ∀ p, covered t supplied p → intact t t' p).
Proof.
  intros Haware Ht Hfile Hb expected. apply build_manifest_Ok in Hb; [|done]. cbv zeta in Hb.
  set (root' := resolve_path root) in *. set (ar' := resolve_path (default root' ar)) in *.
  destruct Hb as (Hcommit & Hroot & files & items & time & Hne & Hnd & Hpre & Hcov & Hitems & ->).
  assert (Forall (λ p, ar' `prefix_of` p ∧ p ≠ ar' ∧ Forall name_ok p) files) as Hfiles.
  { rewrite Forall_forall in Hpre |- *. intros p Hp. destruct (proj1 (Hcov p) Hp) as [[b Hpb] _].
    split; [by apply Hpre|]. split; [congruence|]. by eapply (proj1 Ht). }
  assert (Forall name_ok (relative_to ar' root')) as Hrel.
  { destruct files as [|p files]; [done|]. apply Forall_cons in Hfiles as [([q ->] & _ & Hn) _].
    apply Forall_app in Hn as [Hn _]. rewrite (prefix_relative _ _ Hroot) in Hn. by apply Forall_app in Hn as []. }
  destruct (check_entries t t' ar' files items 1 []) as (errs & Herrs & Hall); try done.
  { apply resolve_no_dots. }
  { apply Forall_true. intros p. apply not_elem_of_nil. }
  destruct (isoformat_text time) as (body & Hbody & Hiso).
  unfold validate_manifest, commit_errors, evidence_root_of, _is_timezone_aware_datetime. fold root'.
  change (dict_get "schema_version" _) with (Some (PStr "aegisledger.release_evidence.v1")).
  change (dict_get "candidate_commit" _) with (Some (PStr commit)).
  change (dict_get "generated_at" _) with (Some (PStr (replace_text "+00:00" "Z" 0 (isoformat time)))).
  change (dict_get "artifact_root" _) with (Some (PStr (as_posix (relative_to ar' root')))).
  change (dict_get "artifacts" _) with (Some (PList items)). cbv beta iota.
  destruct (posix_relative _ Hrel) as (-> & -> & _). rewrite Hcommit, Hiso, replace_time, <- Hiso, Haware by done.
  rewrite pure_parts_posix by done. cbn [raise_if mbind result_bind negb note app].
  rewrite resolve_app by by apply name_ok_no_dots.
  assert (resolve_path root' ++ relative_to ar' root' = ar') as ->
    by (unfold root' at 1; rewrite resolve_idemp; symmetry; by apply prefix_relative).
  unfold is_relative_to.
  rewrite (bool_decide_true (root' `prefix_of` ar')) by done. cbn [fst snd negb note app].
  destruct items as [|item items]; [inversion Hitems; congruence|]. rewrite Herrs. cbn [mbind result_bind is_ok].
  rewrite (bool_decide_false (_ ≠ _)) at 1 by tauto. cbn [note app]. split; [done|].
  assert (Forall (intact t t') files ↔ ∀ p, covered t supplied p → intact t t' p) as Hiff.
  { rewrite Forall_forall. split; intros Hin p Hp; apply Hin; by apply Hcov. }
  rewrite <- Hiff, <- Hall. unfold note. case_bool_decide; naive_solver.
Qed.
End exact.

(** * A checkout *)

(** A reader of times that accepts the ones in UTC. *)
Fixpoint ends_utc (s : string) : bool :=
  bool_decide (s = "+00:00") || match s with String _ s => ends_utc s | EmptyString => false end.

Lemma ends_utc_isoformat time : ends_utc (isoformat time) = true.
Proof.
  destruct (isoformat_text time) as (body & _ & ->). induction body as [|c body IH]; [done|].
  change (String c body +:+ "+00:00") with (String c (body +:+ "+00:00")). cbn [ends_utc]. rewrite IH. apply orb_true_r.
Qed.

Definition checkout (report : bytes) : Tree := {|
  tr_files := <[["repo"; "out"; "report.json"] := report]> (<[["repo"; "out"; "logs"; "a.txt"] := [Byte.x02]]>
              (<[["repo"; "README"] := [Byte.x03]]> ∅));
  tr_directories := {[ []; ["repo"]; ["repo"; "out"]; ["repo"; "out"; "logs"] ]} |}.

Lemma checkout_ok report : tree_ok (checkout report).
Proof.
  split.
  - intros p b Hp. cbn [checkout tr_files tr_directories] in *.
    rewrite !lookup_insert_Some, lookup_empty in Hp.
    destruct Hp as [[<- _]|[_ [[<- _]|[_ [[<- _]|[_ ?]]]]]]; [..|done];
      (split; [repeat constructor; done|]; intros q [k Hk] Hq;
       destruct q as [|? [|? [|? [|? [|? ?]]]]]; simplify_eq/=; try done; set_solver).
  - intros d Hd. cbn [checkout tr_files tr_directories] in *.
    rewrite !elem_of_union, !elem_of_singleton in Hd. by destruct Hd as [[[->| ->]| ->]| ->].
Qed.

Definition sample_commit : string := "0123456789abcdef0123456789abcdef01234567".

Lemma release_evidence_exact_witness :
  ∃ m, @build_manifest sized_externals (checkout [Byte.x01]) ["repo"] [["repo"; "out"]] (Some ["repo"; "out"])
    sample_commit {| dt_wall := 0; dt_offset := Some 0 |} = Ok m
  ∧ @validate_manifest sized_externals ends_utc (checkout [Byte.x01]) m ["repo"] sample_commit None = Ok []
  ∧ @validate_manifest sized_externals ends_utc (checkout [Byte.x04]) m ["repo"] sample_commit None ≠ Ok [].
Proof.
  assert (is_ok (@build_manifest sized_externals (checkout [Byte.x01]) ["repo"] [["repo"; "out"]]
    (Some ["repo"; "out"]) sample_commit {| dt_wall := 0; dt_offset := Some 0 |}) = true) as Hok
    by (vm_compute; reflexivity).
  destruct (build_manifest _ _ _ _ _ _) as [m|] eqn:Hm; [|discriminate Hok]. exists m. split; [reflexivity|].
  pose proof (λ t', proj2 (@release_evidence_exact sized_externals sized_sha256_length ends_utc (checkout [Byte.x01]) t'
    ["repo"] [["repo"; "out"]] (Some ["repo"; "out"]) sample_commit {| dt_wall := 0; dt_offset := Some 0 |} m
    ends_utc_isoformat (checkout_ok _) eq_refl Hm sample_commit)) as Hexact.
  split.
  - apply Hexact. split; [reflexivity|]. intros p [[b Hb] _]. exists b, b. exact (conj Hb (conj Hb (conj eq_refl eq_refl))).
  - intros Hv. apply Hexact in Hv as [_ Hv].
    destruct (Hv ["repo"; "out"; "report.json"]) as (b & b' & Hb & Hb' & _ & Hsha).
    { split; [exists [Byte.x01]; vm_compute; reflexivity|].
      exists ["repo"; "out"]. split; [left|exists ["report.json"]]; reflexivity. }
    vm_compute in Hb, Hb'. injection Hb as <-. injection Hb' as <-. vm_compute in Hsha. discriminate Hsha.
Defined.
