(* ===== verification/ReleaseGates.v ===== *)
(** The release gates (src/agentguard-testbed/scripts): the mutation score
    (check_mutation_score.py), the assurance scorecard (check_assurance_scorecard.py) and the
    provenance inventory (check_provenance_inventory.py), with the exit codes of their commands.

    A check returns the errors it appended.  The Standard Library's [urlparse],
    [date.fromisoformat] (a day number), [fnmatchcase] and [repr] of a value that is no string,
    the state of the files an evidence path leads to, and git are arguments. *)
From Stdlib Require Import ZArith Lia Ascii String.
From stdpp Require Import base gmap sets list strings pretty.
From S2P Require Import Prelude Bytes Float64 Canonical Json Contracts Policy Tools Agents Evaluation.
From S2P Require Import Retention ReleaseEvidence.

Open Scope Z_scope.

(** [isinstance(v, str) and v.strip()] *)
Definition nonblank (v : option pyval) : bool :=
  match v with Some (PStr s) => str_truthy (Agents.strip s) | _ => false end.

(** [v in strings], of a set: what cannot be hashed raises. *)
Definition in_set (v : pyval) (l : list string) : result bool :=
  match v with
  | PStr s => Ok (is_in s l)
  | PList _ | PDict _ => Err (TypeError "unhashable type")
  | _ => Ok false
  end.

Definition is_text (v : pyval) (s : string) : bool := match v with PStr t => bool_decide (t = s) | _ => false end.

Definition SHA40 (s : string) : bool := sha_text 40 s.

(** The lines a command prints and its exit code. *)
Definition command_report (messages : list string) (passed : bool) (line : string) : list string * Z :=
  (map (λ m, "ERROR: " +:+ m) messages ++ (if passed then [line] else []), if passed then 0 else 1).

(** * Mutation score *)

Definition UNRESOLVED_FIELDS : list string :=
  ["no_tests"; "skipped"; "suspicious"; "timeout"; "check_was_interrupted_by_user"; "segfault"].

Definition _nonnegative_integer (stats : pydict) (field : string) : result Z :=
  match dict_get field stats with
  | Some (PInt n) => if n <? 0 then Err (ValueError ("Mutation report field " +:+ repr_str field +:+ " must be a non-negative integer."))
                     else Ok n
  | _ => Err (ValueError ("Mutation report field " +:+ repr_str field +:+ " must be a non-negative integer."))
  end.

Definition mutation_evaluate (stats : pydict) (minimum_score : float) : result (bool * string) :=
  raise_if (negb (fle fzero minimum_score && fle minimum_score (round_ratio 100 1)))
    (ValueError "Minimum mutation score must be between 0 and 100.");;
  killed ← _nonnegative_integer stats "killed";
  survived ← _nonnegative_integer stats "survived";
  unresolved ← mapM (_nonnegative_integer stats) UNRESOLVED_FIELDS;
  let assessed := killed + survived in
  if assessed =? 0 then Ok (false, "Mutation report contains no assessed mutants.")
  else if negb (foldr Z.add 0 unresolved =? 0) then
    let details := join ", "
      (map (λ e : string * Z, e.1 +:+ "=" +:+ pretty e.2) (filter (λ e : string * Z, e.2 ≠ 0) (zip UNRESOLVED_FIELDS unresolved))) in
    Ok (false, "Mutation run has unresolved results: " +:+ details +:+ ".")
  else
    score ← int_div (killed * 100) assessed;
    Ok (fle minimum_score score,
        "Mutation score " +:+ format_fixed 2 score +:+ "% (" +:+ pretty killed +:+ " killed / " +:+ pretty assessed
        +:+ " assessed); minimum " +:+ format_fixed 2 minimum_score +:+ "%.").

Definition mutation_main (stats : pyval) (minimum_score : float) : result (list string * Z) :=
  match stats with
  | PDict stats =>
      '(passed, message) ← mutation_evaluate stats minimum_score;
      Ok ([message], if (passed : bool) then 0 else 1)
  | _ => Err (ValueError "Mutation report must be a JSON object.")
  end.

(** Where an evidence path leads. *)
Inductive place := Present | Missing | Escapes.

Section gates.
Variables (scheme : string → result string) (locate : string → result place) (fromisoformat : string → option Z)
  (repr : pyval → string).

Definition value_repr (v : pyval) : string := match v with PStr s => repr_str s | _ => repr v end.
(** A value in an f-string. *)
Definition value_text (v : pyval) : string := match v with PStr s => s | _ => repr v end.

Definition _validate_evidence_uri (uri label : string) : result (list string) :=
  s ← scheme uri;
  if str_truthy s then Ok []
  else
    p ← locate uri;
    Ok match p with
       | Escapes => [label +:+ " path escapes repository root: " +:+ uri]
       | Missing => [label +:+ " path does not exist: " +:+ uri]
       | Present => []
       end.

Definition uri_errors (v : option pyval) (label : string) : result (list string) :=
  match v with
  | Some (PStr uri) =>
      if str_truthy (Agents.strip uri) then _validate_evidence_uri uri label
      else Ok [label +:+ " uri must be a non-empty string"]
  | _ => Ok [label +:+ " uri must be a non-empty string"]
  end.

(** [errors] of every element of a list, numbered from one. *)
Fixpoint each_numbered {A} (f : Z → A → result (list string)) (index : Z) (l : list A) : result (list string) :=
  match l with
  | [] => Ok []
  | x :: l => errors ← f index x; rest ← each_numbered f (index + 1) l; Ok (errors ++ rest)
  end.

(** * The assurance scorecard *)

Definition TRACKS : list (string * string) :=
  [("research", "RES"); ("public_release", "PUB"); ("production_custody", "PRO")].
Definition scorecard_statuses : list string := ["pending"; "in_progress"; "blocked"; "passed"; "failed"; "expired"].

Definition _parse_date (v : option pyval) (label : string) : option Z * list string :=
  match v with
  | Some (PStr s) =>
      match fromisoformat s with
      | Some d => (Some d, [])
      | None => (None, [label +:+ " must use YYYY-MM-DD"])
      end
  | _ => (None, [label +:+ " must use YYYY-MM-DD"])
  end.

Definition verified_errors (item : pydict) (label item_label : string) (today : Z) : list string :=
  if has_key "verified_at" item then
    let '(verified_at, errors) := _parse_date (dict_get "verified_at" item) (item_label +:+ " verified_at") in
    errors ++ note (match verified_at with Some d => today <? d | None => false end)
      (item_label +:+ " verified_at cannot be in the future")
  else [label +:+ " passed evidence requires verified_at"].

(** The body of the loop over the evidence of a gate. *)
Definition evidence_errors (label : string) (status : pyval) (today index : Z) (item : pyval) : result (list string) :=
  match item with
  | PDict item =>
      let item_label := label +:+ " evidence " +:+ pretty index in
      errors ← uri_errors (dict_get "uri" item) item_label;
      Ok (errors
          ++ note (negb (nonblank (dict_get "label" item))) (item_label +:+ " label must be a non-empty string")
          ++ note (match dict_get "immutable" item with Some (PBool _) => false | _ => true end)
               (item_label +:+ " immutable must be boolean")
          ++ (if is_text status "passed" then verified_errors item label item_label today else []))
  | _ => Ok [label +:+ " evidence " +:+ pretty index +:+ " must be an object"]
  end.

Definition _validate_gate (gate : pydict) (label : string) (today : Z) : result (list string) :=
  let status := default PNone (dict_get "status" gate) in
  known ← in_set status scorecard_statuses;
  let '(review_by, review_errors) := _parse_date (dict_get "review_by" gate) (label +:+ " review_by") in
  let errors :=
    note (negb (nonblank (dict_get "title" gate))) (label +:+ " title must be a non-empty string")
    ++ note (negb (nonblank (dict_get "owner" gate))) (label +:+ " owner must be a non-empty string")
    ++ note (negb known) (label +:+ " status " +:+ value_repr status +:+ " is unsupported")
    ++ note (is_text status "blocked" && negb (nonblank (dict_get "blocked_by" gate)))
         (label +:+ " blocked status requires blocked_by")
    ++ review_errors
    ++ note (match review_by with Some d => d <? today | None => false end && negb (is_text status "expired"))
         (label +:+ " review is overdue; set status to expired or update evidence") in
  match dict_get "evidence" gate with
  | Some (PList ((_ :: _) as evidence)) =>
      rest ← each_numbered (evidence_errors label status today) 1 evidence;
      Ok (errors ++ rest)
  | _ => Ok (errors ++ [label +:+ " must reference at least one evidence item"])
  end.

(** [re.fullmatch(rf"{prefix}-\d{{2}}", gate_id)] *)
Definition gate_id_ok (prefix gate_id : string) : bool :=
  match strip_prefix (prefix +:+ "-") gate_id with
  | Some (String a (String b EmptyString)) => is_digit a && is_digit b
  | _ => false
  end.

(** The gates of a track, with the identifiers seen so far. *)
Fixpoint gates_errors (track_name prefix : string) (today index : Z) (seen : list string) (gates : list pyval)
    : result (list string * list string) :=
  match gates with
  | [] => Ok (seen, [])
  | PDict gate :: gates =>
      let gate_id := match dict_get "id" gate with Some (PStr s) => Some s | _ => None end in
      let named := match gate_id with Some s => str_truthy s | None => false end in
      let label := if named then default "" gate_id else track_name +:+ "[" +:+ pretty index +:+ "]" in
      let id_errors :=
        note (negb (match gate_id with Some s => gate_id_ok prefix s | None => false end))
          (label +:+ " id must match " +:+ prefix +:+ "-NN")
        ++ note (named && is_in label seen) ("duplicate gate id " +:+ label) in
      errors ← _validate_gate gate label today;
      r ← gates_errors track_name prefix today (index + 1) (if named then label :: seen else seen) gates;
      Ok (r.1, id_errors ++ errors ++ r.2)
  | _ :: gates =>
      r ← gates_errors track_name prefix today (index + 1) seen gates;
      Ok (r.1, (track_name +:+ " gate " +:+ pretty index +:+ " must be an object") :: r.2)
  end.

(** [v == 10.0] *)
Definition is_ten (v : option pyval) : bool :=
  match v with
  | Some (PInt n) => n =? 10
  | Some (PFloat x) => fle x (round_ratio 10 1) && fle (round_ratio 10 1) x
  | _ => false
  end.

Fixpoint tracks_errors (tracks : pydict) (today : Z) (seen : list string) (names : list (string * string))
    : result (list string) :=
  match names with
  | [] => Ok []
  | (track_name, prefix) :: names =>
      match dict_get track_name tracks with
      | Some (PDict track) =>
          let errors := note (negb (is_ten (dict_get "target_score" track))) (track_name +:+ " target_score must be 10.0") in
          match dict_get "gates" track with
          | Some (PList ((_ :: _) as gates)) =>
              r ← gates_errors track_name prefix today 1 seen gates;
              rest ← tracks_errors tracks today r.1 names;
              Ok (errors ++ r.2 ++ rest)
          | _ =>
              rest ← tracks_errors tracks today seen names;
              Ok (errors ++ [track_name +:+ " must contain at least one gate"] ++ rest)
          end
      | _ => tracks_errors tracks today seen names
      end
  end.

Definition commit_or_null (v : pyval) : bool :=
  match v with PNone => true | PStr c => SHA40 c | _ => false end.

Definition validate_scorecard (scorecard : pydict) (today : Z) : result (list string) :=
  let errors :=
    note (negb (is_text (default PNone (dict_get "schema_version" scorecard)) "aegisledger.assurance_scorecard.v1"))
      "schema_version must be aegisledger.assurance_scorecard.v1"
    ++ note (negb (commit_or_null (default PNone (dict_get "candidate_commit" scorecard))))
      "candidate_commit must be null or a lowercase 40-character Git SHA" in
  match dict_get "tracks" scorecard with
  | Some (PDict tracks) =>
      let missing := filter (λ n, has_key n tracks = false) (sorted_set String.leb TRACKS.*1) in
      let extra := sorted_set String.leb (filter (λ k, k ∉ TRACKS.*1) (map key_text tracks.*1)) in
      rest ← tracks_errors tracks today [] TRACKS;
      Ok (errors
          ++ note (bool_decide (missing ≠ [])) ("missing assurance tracks: " +:+ join ", " missing)
          ++ note (bool_decide (extra ≠ [])) ("unsupported assurance tracks: " +:+ join ", " extra)
          ++ rest)
  | _ => Ok (errors ++ ["tracks must be an object"])
  end.

(** The reasons of the gates that have not passed. *)
Fixpoint gate_reasons (gates : list pyval) : result (list string) :=
  match gates with
  | [] => Ok []
  | gate :: gates =>
      status ← subscript gate "status";
      id ← if is_text status "passed" then Ok PNone else subscript gate "id";
      rest ← gate_reasons gates;
      Ok (note (negb (is_text status "passed")) (value_text id +:+ " is " +:+ value_text status) ++ rest)
  end.

Definition track_readiness (scorecard : pydict) (track_name : string) (today : Z) (expected_commit : option string)
    : result (bool * list string) :=
  if negb (is_in track_name TRACKS.*1) then Ok (false, ["unknown assurance track: " +:+ track_name])
  else
    errors ← validate_scorecard scorecard today;
    if bool_decide (errors ≠ []) then Ok (false, errors)
    else
      tracks ← subscript (PDict scorecard) "tracks";
      track ← subscript tracks track_name;
      gates ← subscript track "gates";
      gates ← match gates with PList l => Ok l | _ => Err (TypeError "not iterable") end;
      reasons ← gate_reasons gates;
      if bool_decide (reasons ≠ []) then Ok (false, reasons)
      else
        match dict_get "candidate_commit" scorecard with
        | Some (PStr candidate) =>
            match expected_commit with
            | Some expected =>
                if bool_decide (candidate ≠ expected)
                then Ok (false, ["candidate_commit does not match checked-out commit: " +:+ expected])
                else Ok (true, [])
            | None => Ok (true, [])
            end
        | _ => Ok (false, ["candidate_commit is required before a track can be ready"])
        end.

(** [git_commit], from what [git rev-parse HEAD] prints ([None]: no git). *)
Definition git_commit (git : option (result string)) : result string :=
  r ← or_raise git (RuntimeError "git is required to bind readiness to the checked-out commit");
  stdout ← r;
  let commit := Agents.strip stdout in
  raise_if (negb (SHA40 commit)) (RuntimeError "git rev-parse HEAD did not return a full lowercase commit SHA");;
  Ok commit.

Definition scorecard_main (value : pyval) (require_track : option string) (today : Z) (git : option (result string))
    : result (list string * Z) :=
  match value with
  | PDict scorecard =>
      match require_track with
      | Some track =>
          commit ← git_commit git;
          r ← track_readiness scorecard track today (Some commit);
          Ok (command_report r.2 r.1 ("Assurance scorecard is valid and " +:+ track +:+ " is ready."))
      | None =>
          messages ← validate_scorecard scorecard today;
          Ok (command_report messages (bool_decide (messages = [])) "Assurance scorecard is valid.")
      end
  | _ => Err (ValueError "assurance scorecard must be a JSON object")
  end.

(** * The provenance inventory *)

Definition ORIGINS : list string := ["repository_authored"; "third_party"; "generated"; "external_reference"].
Definition inventory_statuses : list string := ["verified"; "owner_confirmation_required"; "excluded"].

Definition _entry_label (entry : pydict) (fallback : string) : string :=
  match dict_get "id" entry with Some (PStr s) => if str_truthy s then s else fallback | _ => fallback end.

Definition _validate_date (v : option pyval) (label : string) : list string :=
  match v with
  | Some (PStr s) => note (bool_decide (fromisoformat s = None)) (label +:+ " must use YYYY-MM-DD")
  | _ => []
  end.

Definition material_errors (entry_id : string) (index : Z) (item : pyval) : result (list string) :=
  let item_label := entry_id +:+ " evidence " +:+ pretty index in
  match item with
  | PDict item =>
      errors ← uri_errors (dict_get "uri" item) item_label;
      Ok (note (negb (nonblank (dict_get "label" item))) (item_label +:+ " label must be a non-empty string") ++ errors)
  | _ => Ok [item_label +:+ " must be an object"]
  end.

(** [isinstance(source_uri, str) and urlparse(source_uri).scheme] *)
Definition has_scheme (v : option pyval) : result bool :=
  match v with Some (PStr uri) => s ← scheme uri; Ok (str_truthy s) | _ => Ok false end.

(** [_validate_entry_common], without [seen_ids.add]. *)
Definition _validate_entry_common (entry : pydict) (entry_id : string) (seen : list string) : result (list string) :=
  let origin := default PNone (dict_get "origin" entry) in
  let status := default PNone (dict_get "status" entry) in
  known_origin ← in_set origin ORIGINS;
  known_status ← in_set status inventory_statuses;
  sourced ← if is_text origin "third_party" && is_text status "verified"
            then has_scheme (dict_get "source_uri" entry) else Ok true;
  let errors :=
    note (is_in entry_id seen) ("duplicate provenance id " +:+ entry_id)
    ++ concat (map (λ field, note (negb (nonblank (dict_get field entry)))
                               (entry_id +:+ " " +:+ field +:+ " must be a non-empty string"))
                   ["title"; "copyright_holder"; "license"])
    ++ note (negb known_origin) (entry_id +:+ " origin " +:+ value_repr origin +:+ " is unsupported")
    ++ note (negb known_status) (entry_id +:+ " status " +:+ value_repr status +:+ " is unsupported")
    ++ note (is_text status "excluded" && negb (nonblank (dict_get "exclusion_reason" entry)))
         (entry_id +:+ " excluded status requires exclusion_reason")
    ++ note (negb sourced) (entry_id +:+ " verified third-party material requires source_uri") in
  match dict_get "evidence" entry with
  | Some (PList ((_ :: _) as evidence)) =>
      rest ← each_numbered (material_errors entry_id) 1 evidence;
      Ok (errors ++ rest)
  | _ => Ok (errors ++ [entry_id +:+ " evidence must be a non-empty array"])
  end.

(** [re.fullmatch(r"<prefix>-\d{3}", entry_id)] *)
Definition entry_id_ok (prefix entry_id : string) : bool :=
  match strip_prefix prefix entry_id with
  | Some (String a (String b (String c EmptyString))) => is_digit a && is_digit b && is_digit c
  | _ => false
  end.

(** The patterns of an entry that can be used, and the errors of the others. *)
Fixpoint read_patterns (entry_id : string) (patterns : list pyval) : list (string * string) * list string :=
  match patterns with
  | [] => ([], [])
  | pattern :: patterns =>
      let '(read, errors) := read_patterns entry_id patterns in
      match pattern with
      | PStr p =>
          if negb (str_truthy p) then (read, (entry_id +:+ " patterns must contain non-empty strings") :: errors)
          else if negb (_is_repository_relative p)
          then (read, (entry_id +:+ " pattern must be repository-relative: " +:+ p) :: errors)
          else ((entry_id, p) :: read, errors)
      | _ => (read, (entry_id +:+ " patterns must contain non-empty strings") :: errors)
      end
  end.

Definition entry_patterns (entry_id : string) (v : option pyval) : list (string * string) * list string :=
  match v with
  | Some (PList ((_ :: _) as patterns)) => read_patterns entry_id patterns
  | _ => ([], [entry_id +:+ " patterns must be a non-empty array"])
  end.

(** The current entries: the identifiers seen, the patterns and the errors. *)
Fixpoint current_errors (index : Z) (seen : list string) (entries : list pyval)
    : result (list string * list (string * string) * list string) :=
  match entries with
  | [] => Ok (seen, [], [])
  | PDict entry :: entries =>
      let entry_id := _entry_label entry ("current[" +:+ pretty index +:+ "]") in
      errors ← _validate_entry_common entry entry_id seen;
      let '(patterns, pattern_errors) := entry_patterns entry_id (dict_get "patterns" entry) in
      '(seen, more, rest) ← current_errors (index + 1) (entry_id :: seen) entries;
      Ok (seen, patterns ++ more,
          errors ++ note (negb (entry_id_ok "SRC-" entry_id)) (entry_id +:+ " id must match SRC-NNN")
          ++ pattern_errors ++ rest)
  | _ :: entries =>
      '(seen, patterns, rest) ← current_errors (index + 1) seen entries;
      Ok (seen, patterns, ("current entry " +:+ pretty index +:+ " must be an object") :: rest)
  end.

Section inventory.
Variables (fnmatchcase : string → string → bool) (history_object_exists : option (string → string → bool)).

Definition history_path_errors (entry_id : string) (entry : pydict) : list string :=
  let path := match dict_get "path" entry with
              | Some (PStr p) => if _is_repository_relative p then Some p else None
              | _ => None
              end in
  let commit := match dict_get "introduced_commit" entry with
                | Some (PStr c) => if SHA40 c then Some c else None
                | _ => None
                end in
  note (bool_decide (path = None)) (entry_id +:+ " path must be repository-relative")
  ++ note (bool_decide (commit = None)) (entry_id +:+ " introduced_commit must be a lowercase 40-character Git SHA")
  ++ match history_object_exists, path, commit with
     | Some exists_, Some path, Some commit =>
         note (negb (exists_ commit path))
           (entry_id +:+ " historical object is not present: " +:+ commit +:+ ":" +:+ path)
     | _, _, _ => []
     end.

Fixpoint history_errors (index : Z) (seen : list string) (entries : list pyval) : result (list string) :=
  match entries with
  | [] => Ok []
  | PDict entry :: entries =>
      let entry_id := _entry_label entry ("history[" +:+ pretty index +:+ "]") in
      errors ← _validate_entry_common entry entry_id seen;
      rest ← history_errors (index + 1) (entry_id :: seen) entries;
      Ok (errors ++ note (negb (entry_id_ok "HIST-" entry_id)) (entry_id +:+ " id must match HIST-NNN")
          ++ history_path_errors entry_id entry ++ rest)
  | _ :: entries =>
      rest ← history_errors (index + 1) seen entries;
      Ok (("history entry " +:+ pretty index +:+ " must be an object") :: rest)
  end.

(** [PurePosixPath(file).as_posix()] *)
Definition normalized_file (file : string) : string :=
  if is_absolute file then path_text (pure_parts file) else as_posix (pure_parts file).

Definition matching_entries (patterns : list (string * string)) (file : string) : list string :=
  sorted_set String.leb (map fst (filter (λ e, fnmatchcase (normalized_file file) e.2 = true) patterns)).

Definition coverage_errors (patterns : list (string * string)) (file : string) : list string :=
  match matching_entries patterns file with
  | [] => ["tracked file is missing provenance coverage: " +:+ normalized_file file]
  | [_] => []
  | entries => ["tracked file has ambiguous provenance coverage: " +:+ normalized_file file +:+ " (" +:+ join ", " entries +:+ ")"]
  end.

Definition entries_of (v : option pyval) : option (list pyval) := match v with Some (PList l) => Some l | _ => None end.

Definition validate_inventory (inventory : pydict) (tracked_files : list string) : result (list string) :=
  let current := default [] (entries_of (dict_get "current_entries" inventory)) in
  let history := entries_of (dict_get "history_entries" inventory) in
  let errors :=
    note (negb (is_text (default PNone (dict_get "schema_version" inventory)) "aegisledger.provenance.v1"))
      "schema_version must be aegisledger.provenance.v1"
    ++ note (negb (nonblank (dict_get "owner" inventory))) "owner must be a non-empty string"
    ++ note (negb (nonblank (dict_get "last_reviewed" inventory))) "last_reviewed must be a non-empty string"
    ++ _validate_date (dict_get "last_reviewed" inventory) "last_reviewed"
    ++ note (bool_decide (current = [])) "current_entries must be a non-empty array"
    ++ note (bool_decide (history = None)) "history_entries must be an array" in
  '(seen, patterns, current_rest) ← current_errors 1 [] current;
  history_rest ← history_errors 1 seen (default [] history);
  Ok (errors ++ current_rest ++ history_rest ++ concat (map (coverage_errors patterns) tracked_files)).

(** The entries that wait for their owner. *)
Fixpoint clearance_reasons (entries : list pyval) : result (list string) :=
  match entries with
  | [] => Ok []
  | entry :: entries =>
      status ← subscript entry "status";
      id ← if is_text status "owner_confirmation_required" then subscript entry "id" else Ok PNone;
      rest ← clearance_reasons entries;
      Ok (note (is_text status "owner_confirmation_required") (value_text id +:+ " requires owner confirmation") ++ rest)
  end.

Definition release_readiness (inventory : pydict) (tracked_files : list string) : result (bool * list string) :=
  errors ← validate_inventory inventory tracked_files;
  if bool_decide (errors ≠ []) then Ok (false, errors)
  else
    current ← subscript (PDict inventory) "current_entries";
    history ← subscript (PDict inventory) "history_entries";
    match current, history with
    | PList current, PList history =>
        reasons ← clearance_reasons (current ++ history);
        Ok (bool_decide (reasons = []), reasons)
    | _, _ => Err (TypeError "Value after * must be an iterable")
    end.

Definition provenance_main (value : pyval) (tracked_files : list string) (require_release_ready : bool)
    : result (list string * Z) :=
  match value with
  | PDict inventory =>
      if require_release_ready then
        r ← release_readiness inventory tracked_files;
        Ok (command_report r.2 r.1 "Provenance inventory is valid and release-cleared.")
      else
        messages ← validate_inventory inventory tracked_files;
        Ok (command_report messages (bool_decide (messages = [])) "Provenance inventory is valid.")
  | _ => Err (ValueError "provenance inventory must be a JSON object")
  end.
End inventory.
End gates.
