(* ===== verification/ReleaseGatesFacts.v ===== *)
(** What a release gate that opens has checked. *)
From Stdlib Require Import ZArith Lia Ascii String.
From stdpp Require Import base gmap sets list strings pretty.
From S2P Require Import Prelude Bytes Float64 Canonical CanonicalFacts Json Contracts Policy Tools Agents Evaluation.
From S2P Require Import Retention ReleaseEvidence ReleaseEvidenceFacts ReleaseGates.

Open Scope Z_scope.

(** Take apart a check that appended nothing. *)
Ltac no_errors :=
  repeat match goal with
  | H : Ok _ = Ok _ |- _ => injection H as H
  | H : [] = _ ++ _ |- _ => symmetry in H
  | H : _ ++ _ = [] |- _ => apply app_nil in H as [? ?]
  | H : _ :: _ = [] |- _ => discriminate H
  | H : note _ _ = [] |- _ => apply note_nil in H
  | H : negb _ = false |- _ => apply negb_false_iff in H
  end.

Lemma is_text_true v s : is_text v s = true ↔ v = PStr s.
Proof. destruct v; cbn; try done. rewrite bool_decide_eq_true. naive_solver. Qed.

Lemma in_set_true v l : in_set v l = Ok true → ∃ s, v = PStr s ∧ s ∈ l.
Proof. destruct v as [| | |s| | | |]; cbn; try done. intros [= Hs]. exists s. by apply bool_decide_eq_true in Hs. Qed.

Lemma each_numbered_nil {A} (f : Z → A → result (list string)) index l :
  each_numbered f index l = Ok [] → Forall (λ x, ∃ i, f i x = Ok []) l.
Proof.
  revert index. induction l as [|x l IH]; intros index H; [constructor|]. cbn in H. ok_inv H. no_errors.
  subst. constructor; eauto.
Qed.

Section gates.
Variables (scheme : string → result string) (locate : string → result place) (fromisoformat : string → option Z)
  (repr : pyval → string).

(** A reference to evidence that leads somewhere: a URI with a scheme, or a path to something in
    the repository. *)
Definition reachable (v : option pyval) : Prop :=
  ∃ uri, v = Some (PStr uri) ∧ str_truthy (Agents.strip uri) = true
  ∧ ((∃ s, scheme uri = Ok s ∧ s ≠ "") ∨ (scheme uri = Ok "" ∧ locate uri = Ok Present)).

Lemma uri_errors_nil v label : uri_errors scheme locate v label = Ok [] → reachable v.
Proof.
  unfold uri_errors, _validate_evidence_uri. destruct v as [[| | |uri| | | |]|]; try done.
  destruct (str_truthy (Agents.strip uri)) eqn:Hu; [|done]. intros H. exists uri. split_and!; [done|done|].
  ok_inv H. destruct (str_truthy _) eqn:Hs in H.
  - apply bool_decide_eq_true in Hs. eauto.
  - apply bool_decide_eq_false, dec_stable in Hs. subst. right. split; [done|]. ok_inv H. by destruct x.
Qed.

(** * The scorecard *)

(** An item of evidence of a passed gate. *)
Definition verified_evidence (today : Z) (item : pyval) : Prop :=
  ∃ e, item = PDict e ∧ reachable (dict_get "uri" e) ∧ nonblank (dict_get "label" e) = true
  ∧ (∃ b, dict_get "immutable" e = Some (PBool b))
  ∧ ∃ s d, dict_get "verified_at" e = Some (PStr s) ∧ fromisoformat s = Some d ∧ d ≤ today.

(** A gate that has passed: owned, with a review still to come and evidence verified by now. *)
Definition gate_passed (prefix : string) (today : Z) (gate : pyval) (id : string) : Prop :=
  ∃ g, gate = PDict g ∧ dict_get "id" g = Some (PStr id) ∧ gate_id_ok prefix id = true
  ∧ nonblank (dict_get "title" g) = true ∧ nonblank (dict_get "owner" g) = true
  ∧ dict_get "status" g = Some (PStr "passed")
  ∧ (∃ s d, dict_get "review_by" g = Some (PStr s) ∧ fromisoformat s = Some d ∧ today ≤ d)
  ∧ ∃ evidence, dict_get "evidence" g = Some (PList evidence) ∧ evidence ≠ [] ∧ Forall (verified_evidence today) evidence.

Lemma parse_date_nil v label d errors :
  _parse_date fromisoformat v label = (d, errors) → errors = [] →
  ∃ s day, v = Some (PStr s) ∧ fromisoformat s = Some day ∧ d = Some day.
Proof.
  unfold _parse_date. destruct v as [[| | |s| | | |]|]; try (by intros [= <- <-]).
  destruct (fromisoformat s) as [day|] eqn:Hs; intros [= <- <-]; [|done]. eauto.
Qed.

Lemma evidence_errors_nil label today index item :
  evidence_errors scheme locate fromisoformat label (PStr "passed") today index item = Ok [] →
  verified_evidence today item.
Proof.
  destruct item as [| | | | | |e|]; try done. cbn [evidence_errors]. cbv zeta. intros H. ok_inv H.
  change (is_text (PStr "passed") "passed") with true in H. cbv iota in H. no_errors. subst.
  exists e. split_and!; [done|by eapply uri_errors_nil|done|by destruct (dict_get "immutable" e) as [[]|]; eauto|].
  unfold verified_errors in *. destruct (has_key "verified_at" e); [|done].
  destruct (_parse_date _ _ _) as [d errors] eqn:Hd. no_errors.
  destruct (parse_date_nil _ _ _ _ Hd) as (s & day & -> & Hs & ->); [done|]. exists s, day.
  split_and!; [done|done|]. by apply Z.ltb_ge.
Qed.

Lemma validate_gate_passed gate label today :
  _validate_gate scheme locate fromisoformat repr gate label today = Ok [] →
  dict_get "status" gate = Some (PStr "passed") →
  nonblank (dict_get "title" gate) = true ∧ nonblank (dict_get "owner" gate) = true
  ∧ (∃ s d, dict_get "review_by" gate = Some (PStr s) ∧ fromisoformat s = Some d ∧ today ≤ d)
  ∧ ∃ evidence, dict_get "evidence" gate = Some (PList evidence) ∧ evidence ≠ [] ∧ Forall (verified_evidence today) evidence.
Proof.
  intros H Hs. unfold _validate_gate in H. rewrite Hs in H. cbn [default] in H. cbv zeta in H. ok_inv H.
  destruct (_parse_date _ _ _) as [d review_errors] eqn:Hd.
  change (is_text (PStr "passed") "expired") with false in H. rewrite andb_true_r in H.
  destruct (dict_get "evidence" gate) as [[| | | | |[|e evidence]| |]|]; try (no_errors; done).
  ok_inv H. no_errors. subst. destruct (parse_date_nil _ _ _ _ Hd eq_refl) as (s & day & Hr & Hs' & ->).
  split; [done|]. split; [done|]. split; [exists s, day; split_and!; [done|done|by apply Z.ltb_ge]|].
  exists (e :: evidence). split_and!; [done|done|]. eapply Forall_impl; [by eapply each_numbered_nil|].
  intros item [i Hi]. by eapply evidence_errors_nil.
Qed.

(** A gate without errors. *)
Definition valid_gate (prefix : string) (today : Z) (gate : pyval) (id : string) : Prop :=
  ∃ g label, gate = PDict g ∧ dict_get "id" g = Some (PStr id) ∧ gate_id_ok prefix id = true
  ∧ _validate_gate scheme locate fromisoformat repr g label today = Ok [].

Lemma gate_id_truthy prefix id : gate_id_ok prefix id = true → str_truthy id = true.
Proof. destruct id; [|done]. unfold gate_id_ok. by destruct prefix. Qed.

Lemma gates_errors_nil name prefix today index seen gates seen' :
  gates_errors scheme locate fromisoformat repr name prefix today index seen gates = Ok (seen', []) → NoDup seen →
  NoDup seen' ∧ ∃ ids, Forall2 (valid_gate prefix today) gates ids ∧ seen' = reverse ids ++ seen.
Proof.
  revert index seen. induction gates as [|gate gates IH]; intros index seen.
  { intros [= <-] Hn. split; [done|]. by exists []. }
  destruct gate as [| | | | | |g|]; cbn [gates_errors]; intros H Hn; try (ok_inv H; no_errors; done).
  cbv zeta in H. ok_inv H. destruct x0 as [seen1 errors]. cbn [fst snd] in *.
  injection H as <- H. no_errors. subst.
  destruct (dict_get "id" g) as [[| | |id| | | |]|] eqn:Hid; try done.
  match goal with Hg : gate_id_ok _ id = true |- _ => pose proof (gate_id_truthy _ _ Hg) as Ht; rewrite Ht in * end.
  cbn [default andb] in *. unfold is_in in *. prop_of_bool.
  match goal with Hr : gates_errors _ _ _ _ _ _ _ _ _ _ = _ |- _ => apply IH in Hr as (Hn' & ids & Hids & ->) end;
    [|by constructor]. split; [done|]. exists (id :: ids). split; [|by rewrite reverse_cons, <- app_assoc].
  constructor; [|done]. by exists g, id.
Qed.

Lemma tracks_errors_nil tracks today seen names :
  tracks_errors scheme locate fromisoformat repr tracks today seen names = Ok [] → NoDup seen →
  Forall (λ n, ∀ track, dict_get n.1 tracks = Some (PDict track) →
    is_ten (dict_get "target_score" track) = true ∧ ∃ gates ids, dict_get "gates" track = Some (PList gates)
    ∧ gates ≠ [] ∧ NoDup ids ∧ Forall2 (valid_gate n.2 today) gates ids) names.
Proof.
  revert seen. induction names as [|[name prefix] names IH]; intros seen H Hn; [constructor|]. cbn [tracks_errors] in H.
  destruct (dict_get name tracks) as [[| | | | | |track|]|] eqn:Ht;
    try (constructor; [cbn; rewrite Ht; done|by eapply IH]).
  cbv zeta in H. destruct (dict_get "gates" track) as [[| | | | |[|gate gates]| |]|] eqn:Hg; try (ok_inv H; no_errors; done).
  ok_inv H. destruct x as [seen1 errors]. cbn [fst snd] in *. no_errors. subst.
  match goal with Hr : gates_errors _ _ _ _ _ _ _ _ _ _ = _ |- _ =>
    apply gates_errors_nil in Hr as (Hn1 & ids & Hids & ->); [|done] end.
  constructor; [|by eapply IH]. cbn [fst snd]. rewrite Ht. intros ? [= <-]. split; [done|].
  exists (gate :: gates), ids. split_and!; [done|done| |done].
  apply NoDup_app in Hn1 as [Hn1 _]. by rewrite reverse_Permutation in Hn1.
Qed.

Lemma gate_reasons_nil gates :
  gate_reasons repr gates = Ok [] → Forall (λ gate, ∃ g, gate = PDict g ∧ dict_get "status" g = Some (PStr "passed")) gates.
Proof.
  induction gates as [|gate gates IH]; intros H; [constructor|]. cbn [gate_reasons] in H. ok_inv H. no_errors. subst.
  constructor; [|auto]. destruct gate as [| | | | | |g|]; try done. exists g. split; [done|]. cbn [subscript] in *.
  match goal with Hs : is_text _ _ = true |- _ => apply is_text_true in Hs; subst end. by ok_invs.
Qed.

Lemma gate_passed_valid prefix today gate id :
  valid_gate prefix today gate id → (∃ g, gate = PDict g ∧ dict_get "status" g = Some (PStr "passed")) →
  gate_passed prefix today gate id.
Proof.
  intros (g & label & -> & Hid & Hok & Hv) (g' & [= <-] & Hs). exists g.
  destruct (validate_gate_passed _ _ _ Hv Hs) as (? & ? & ? & ?). done.
Qed.

(** A track that is declared ready has been earned.  When [track_readiness] answers that a
    track is ready there is nothing to report, the scorecard names a full commit, the one that is
    checked out when one is asked for, and the track has at least one gate and every gate of it
    has its own identifier, a title and an owner, the status passed, a review date that has not
    gone by, and evidence, every item of which is labelled, leads somewhere and was verified on a
    day that is not in the future. *)
Theorem ready_track_earned scorecard name today expected messages :
  track_readiness scheme locate fromisoformat repr scorecard name today expected = Ok (true, messages) →
  messages = [] ∧ ∃ prefix tracks track gates ids commit,
    (name, prefix) ∈ TRACKS ∧ dict_get "tracks" scorecard = Some (PDict tracks)
    ∧ dict_get name tracks = Some (PDict track) ∧ is_ten (dict_get "target_score" track) = true
    ∧ dict_get "gates" track = Some (PList gates) ∧ gates ≠ [] ∧ NoDup ids
    ∧ Forall2 (gate_passed prefix today) gates ids
    ∧ dict_get "candidate_commit" scorecard = Some (PStr commit) ∧ SHA40 commit = true
    ∧ ∀ e, expected = Some e → e = commit.
Proof.
  unfold track_readiness. destruct (is_in name TRACKS.*1) eqn:Hname; [|done]. cbn [negb]. intros H.
  destruct (validate_scorecard scheme locate fromisoformat repr scorecard today) as [errors|] eqn:Hv; [|done].
  cbn [mbind result_bind] in H. case_bool_decide as He; [done|]. subst errors.
  ok_inv H. case_bool_decide as Hr; [done|]. subst.
  destruct (dict_get "candidate_commit" scorecard) as [[| | |commit| | | |]|] eqn:Hc; try done.
  assert (messages = [] ∧ ∀ e, expected = Some e → e = commit) as [-> Hexp].
  { destruct expected as [e|]; [|by injection H as <-]. case_bool_decide as Hne; [done|].
    injection H as <-. split; [done|]. naive_solver. }
  split; [done|]. clear H. unfold validate_scorecard in Hv. rewrite Hc in Hv. cbn [default commit_or_null] in Hv. cbv zeta in Hv.
  cbn [subscript] in *. ok_invs.
  destruct (dict_get "tracks" scorecard) as [[| | | | | |tracks|]|] eqn:Ht; simplify_eq;
    try (no_errors; done). ok_inv Hv. no_errors. subst. prop_of_bool.
  match goal with Hs : subscript (PDict tracks) name = _ |- _ => cbn [subscript] in Hs; apply or_raise_Ok in Hs as Htrack end.
  match goal with Hs : subscript ?x "gates" = _ |- _ => destruct x as [| | | | | |track|]; try done;
    cbn [subscript] in Hs; apply or_raise_Ok in Hs as Hgates end.
  match goal with Hs : match ?x with PList _ => _ | _ => _ end = Ok _ |- _ => destruct x; simplify_eq end.
  match goal with Hs : gate_reasons _ _ = _ |- _ => apply gate_reasons_nil in Hs as Hpassed end.
  match goal with Hs : tracks_errors _ _ _ _ _ _ _ _ = _ |- _ => apply tracks_errors_nil in Hs as Htracks; [|constructor] end.
  apply bool_decide_eq_true, list_elem_of_fmap in Hname as ([? prefix] & -> & Hin). rewrite Forall_forall in Htracks.
  destruct (Htracks _ Hin track Htrack) as (Hten & gates & ids & Hgates' & Hne & Hn & Hids). simplify_eq.
  eexists prefix, tracks, track, _, ids, commit. split_and!; [done|done|done|done|exact Hgates|done|done| |done..].
  clear -Hids Hpassed. induction Hids; [constructor|]. apply Forall_cons in Hpassed as [Hp Hpassed].
  constructor; [by apply gate_passed_valid|auto].
Qed.

(** A track that is no object is passed over without an error, so a scorecard with none at all
    validates; only the readiness of such a track raises. *)
Lemma scalar_tracks_validate today :
  let scorecard := [(KStr "schema_version", PStr "aegisledger.assurance_scorecard.v1");
    (KStr "tracks", PDict [(KStr "research", PInt 5); (KStr "public_release", PNone); (KStr "production_custody", PList [])])] in
  validate_scorecard scheme locate fromisoformat repr scorecard today = Ok []
  ∧ track_readiness scheme locate fromisoformat repr scorecard "research" today None
    = Err (TypeError "indices must be integers or slices").
Proof. done. Qed.

(** * The inventory *)

Definition material_evidence (item : pyval) : Prop :=
  ∃ e, item = PDict e ∧ reachable (dict_get "uri" e) ∧ nonblank (dict_get "label" e) = true.

(** An entry that may be distributed, or is kept out of the distribution. *)
Definition entry_cleared (prefix : string) (entry : pyval) (id : string) : Prop :=
  ∃ e, entry = PDict e ∧ dict_get "id" e = Some (PStr id) ∧ entry_id_ok prefix id = true
  ∧ Forall (λ field, nonblank (dict_get field e) = true) ["title"; "copyright_holder"; "license"]
  ∧ (∃ origin, dict_get "origin" e = Some (PStr origin) ∧ origin ∈ ORIGINS
      ∧ (origin = "third_party" → dict_get "status" e = Some (PStr "verified") →
         has_scheme scheme (dict_get "source_uri" e) = Ok true))
  ∧ (dict_get "status" e = Some (PStr "verified")
     ∨ dict_get "status" e = Some (PStr "excluded") ∧ nonblank (dict_get "exclusion_reason" e) = true)
  ∧ ∃ evidence, dict_get "evidence" e = Some (PList evidence) ∧ evidence ≠ [] ∧ Forall material_evidence evidence.

(** The same before the status is known. *)
Definition entry_valid (e : pydict) (id : string) (seen : list string) : Prop :=
  _validate_entry_common scheme locate repr e id seen = Ok [].

Lemma default_PStr v s : default PNone v = PStr s → v = Some (PStr s).
Proof. destruct v; naive_solver. Qed.

Lemma entry_valid_cleared prefix e id seen :
  entry_valid e id seen → dict_get "id" e = Some (PStr id) → entry_id_ok prefix id = true →
  is_text (default PNone (dict_get "status" e)) "owner_confirmation_required" = false →
  (id ∉ seen) ∧ entry_cleared prefix (PDict e) id.
Proof.
  intros H Hid Hok Hstatus. unfold entry_valid, _validate_entry_common in H. cbv zeta in H. ok_inv H.
  destruct (dict_get "evidence" e) as [[| | | | |[|item items]| |]|] eqn:He; try (no_errors; done).
  ok_inv H. no_errors. subst.
  repeat match goal with Hs : in_set _ _ = Ok true |- _ => apply in_set_true in Hs as (? & Hs & ?); apply default_PStr in Hs end.
  unfold is_in in *. prop_of_bool. split; [done|]. exists e. split_and!; try done.
  - by repeat constructor.
  - eexists. split_and!; [done|done|]. intros -> Hv. rewrite Hv in *.
    match goal with Ho : dict_get "origin" e = _ |- _ => rewrite Ho in * end. done.
  - match goal with Hs : dict_get "status" e = Some (PStr ?s), Hin : ?s ∈ inventory_statuses |- _ =>
      rewrite Hs in *; apply elem_of_cons in Hin as [->|Hin]; [by left|]; right;
      apply elem_of_cons in Hin as [->|Hin]; [done|]; apply list_elem_of_singleton in Hin as -> end.
    split; [done|]. naive_solver.
  - exists (item :: items). split_and!; [done|done|]. eapply Forall_impl; [by eapply each_numbered_nil|].
    intros v [i Hi]. destruct v as [| | | | | |ev|]; try done. cbn [material_errors] in Hi. cbv zeta in Hi.
    ok_inv Hi. no_errors. subst. exists ev. split_and!; [done|by eapply uri_errors_nil|done].
Qed.

(** The label of an entry is its identifier if it looks like one. *)
Lemma entry_label_id prefix e fallback :
  entry_id_ok prefix fallback = false → entry_id_ok prefix (_entry_label e fallback) = true →
  dict_get "id" e = Some (PStr (_entry_label e fallback)).
Proof.
  unfold _entry_label. intros Hf. destruct (dict_get "id" e) as [[| | |s| | | |]|]; try congruence.
  destruct (str_truthy s); congruence.
Qed.

Definition entry_without_errors (prefix : string) (entry : pyval) (id : string) : Prop :=
  ∃ e seen, entry = PDict e ∧ dict_get "id" e = Some (PStr id) ∧ entry_id_ok prefix id = true ∧ entry_valid e id seen.

(** The entries with a pattern, as the code collects them. *)
Definition has_pattern (entries : list pyval) (id p : string) : Prop :=
  ∃ e l, PDict e ∈ entries ∧ dict_get "id" e = Some (PStr id) ∧ dict_get "patterns" e = Some (PList l) ∧ PStr p ∈ l.

Lemma read_patterns_nil id l read errors :
  read_patterns id l = (read, errors) → errors = [] → ∀ id' p, (id', p) ∈ read ↔ id' = id ∧ PStr p ∈ l.
Proof.
  revert read errors. induction l as [|v l IH]; intros read errors; cbn [read_patterns].
  { intros [= <- <-] _ id' p. set_solver. }
  destruct (read_patterns id l) as [read' errors'] eqn:Hl. specialize (IH _ _ eq_refl).
  destruct v as [| | |q| | | |]; try (by intros [= <- <-]). destruct (negb (str_truthy q)); [by intros [= <- <-]|].
  destruct (negb _); [by intros [= <- <-]|]. intros [= <- <-] ->. specialize (IH eq_refl). intros id' p.
  rewrite !elem_of_cons, IH. naive_solver.
Qed.

Lemma entry_valid_new e id seen : entry_valid e id seen → id ∉ seen.
Proof.
  intros H. unfold entry_valid, _validate_entry_common in H. cbv zeta in H. ok_inv H.
  destruct (dict_get "evidence" e) as [[| | | | |[|item items]| |]|]; try ok_inv H; no_errors; try done.
  unfold is_in in *. by prop_of_bool.
Qed.

Lemma current_errors_nil index seen entries seen' patterns :
  current_errors scheme locate repr index seen entries = Ok (seen', patterns, []) → NoDup seen →
  NoDup seen' ∧ ∃ ids, Forall2 (entry_without_errors "SRC-") entries ids ∧ seen' = reverse ids ++ seen
  ∧ ∀ id p, (id, p) ∈ patterns ↔ has_pattern entries id p.
Proof.
  revert index seen patterns. induction entries as [|entry entries IH]; intros index seen patterns.
  { intros [= <- <-] Hn. split; [done|]. exists []. split_and!; [constructor|done|]. unfold has_pattern. set_solver. }
  destruct entry as [| | | |f| |e|]; cbn [current_errors]; intros H Hn;
    try (ok_inv H; destruct x as [[? ?] ?]; discriminate H).
  cbv zeta in H. set (id := _entry_label e _) in *. ok_inv H.
  destruct (entry_patterns id _) as [read pattern_errors] eqn:Hp. ok_inv H. destruct x0 as [[seen1 more] rest].
  injection H as <- <- H. no_errors. subst.
  match goal with Hv : _validate_entry_common _ _ _ _ _ _ = _ |- _ => pose proof (entry_valid_new _ _ _ Hv) as Hnew; rename Hv into Hvalid end.
  match goal with Hg : entry_id_ok _ id = true |- _ => pose proof (entry_label_id _ e _ (eq_refl : entry_id_ok "SRC-" ("current[" +:+ _) = false) Hg) as Hid end.
  match goal with Hr : current_errors _ _ _ _ _ _ = _ |- _ => apply IH in Hr as (Hn' & ids & Hids & -> & Hpat) end;
    [|by constructor]. split; [done|]. exists (id :: ids).
  split_and!; [constructor; [by exists e, seen|done]|by rewrite reverse_cons, <- app_assoc|].
  intros id' p. rewrite elem_of_app, Hpat. unfold entry_patterns in Hp.
  destruct (dict_get "patterns" e) as [[| | | | |[|v l]| |]|] eqn:He; try done.
  rewrite (read_patterns_nil _ _ _ _ Hp eq_refl). unfold has_pattern. split.
  - intros [[-> Hl]|(e' & l' & Hin & Hr)]; [exists e, (v :: l); split_and!; [by left|done..]|].
    exists e', l'. split; [by right|done].
  - intros (e' & l' & [[= ->]|Hin]%elem_of_cons & Hi & Hl & Hv); [left|right; by exists e', l'].
    rewrite Hid in Hi. rewrite He in Hl. by simplify_eq.
Qed.

Section inventory.
Variables (fnmatchcase : string → string → bool) (history_object_exists : option (string → string → bool)).

(** A historical object that is named, and found where it can be looked up. *)
Definition history_found (entry : pyval) : Prop :=
  ∃ e path commit, entry = PDict e ∧ dict_get "path" e = Some (PStr path) ∧ _is_repository_relative path = true
  ∧ dict_get "introduced_commit" e = Some (PStr commit) ∧ SHA40 commit = true
  ∧ ∀ exists_, history_object_exists = Some exists_ → exists_ commit path = true.

Lemma history_path_nil id e : history_path_errors history_object_exists id e = [] → history_found (PDict e).
Proof.
  unfold history_path_errors. cbv zeta.
  destruct (dict_get "path" e) as [[| | |path| | | |]|] eqn:Hpath; try done.
  destruct (_is_repository_relative path) eqn:Hrel; [|done].
  destruct (dict_get "introduced_commit" e) as [[| | |commit| | | |]|] eqn:Hcommit; try (intros; no_errors; done).
  destruct (SHA40 commit) eqn:Hsha; [|intros; no_errors; done]. intros H. no_errors.
  exists e, path, commit. split_and!; [done..|]. intros exists_ ->. cbv iota in *. by no_errors.
Qed.

Lemma history_errors_nil index seen entries :
  history_errors scheme locate repr history_object_exists index seen entries = Ok [] → NoDup seen →
  ∃ ids, Forall2 (entry_without_errors "HIST-") entries ids ∧ NoDup (reverse ids ++ seen) ∧ Forall history_found entries.
Proof.
  revert index seen. induction entries as [|entry entries IH]; intros index seen.
  { intros _ Hn. exists []. split_and!; [constructor|done|constructor]. }
  destruct entry as [| | | | | |e|]; cbn [history_errors]; intros H Hn; try (ok_inv H; discriminate H).
  cbv zeta in H. set (id := _entry_label e _) in *. ok_inv H. no_errors. subst.
  match goal with Hv : _validate_entry_common _ _ _ _ _ _ = _ |- _ => pose proof (entry_valid_new _ _ _ Hv) as Hnew; rename Hv into Hvalid end.
  match goal with Hg : entry_id_ok _ id = true |- _ => pose proof (entry_label_id _ e _ (eq_refl : entry_id_ok "HIST-" ("history[" +:+ _) = false) Hg) as Hid end.
  match goal with Hr : history_errors _ _ _ _ _ _ _ = _ |- _ => apply IH in Hr as (ids & Hids & Hn' & Hfound) end;
    [|by constructor]. exists (id :: ids). rewrite reverse_cons, <- app_assoc.
  split_and!; [constructor; [by exists e, seen|done]|done|constructor; [by eapply history_path_nil|done]].
Qed.

Lemma clearance_reasons_nil entries :
  clearance_reasons repr entries = Ok [] →
  Forall (λ entry, ∃ e, entry = PDict e
    ∧ is_text (default PNone (dict_get "status" e)) "owner_confirmation_required" = false) entries.
Proof.
  induction entries as [|entry entries IH]; intros H; [constructor|]. cbn [clearance_reasons] in H. ok_inv H. no_errors.
  subst. constructor; [|auto]. destruct entry as [| | | | | |e|]; try done. exists e. split; [done|]. cbn [subscript] in *.
  ok_invs. match goal with Hs : dict_get "status" e = _ |- _ => by rewrite Hs end.
Qed.

Lemma cleared_all prefix entries ids :
  Forall2 (entry_without_errors prefix) entries ids → clearance_reasons repr entries = Ok [] →
  Forall2 (entry_cleared prefix) entries ids.
Proof.
  intros Hv Hc%clearance_reasons_nil. induction Hv as [|entry id entries ids Hentry _ IH]; [constructor|].
  apply Forall_cons in Hc as [(e & -> & Hs) Hc]. constructor; [|auto].
  destruct Hentry as (? & seen & [= <-] & Hid & Hok & Hvalid). by eapply entry_valid_cleared.
Qed.

Lemma clearance_app l k :
  clearance_reasons repr (l ++ k) = Ok [] → clearance_reasons repr l = Ok [] ∧ clearance_reasons repr k = Ok [].
Proof.
  induction l as [|entry l IH]; [done|]. cbn [app clearance_reasons]. intros H. ok_inv H. no_errors. subst.
  match goal with Hr : clearance_reasons _ (l ++ k) = _ |- _ => destruct (IH Hr) as [-> ->] end.
  split; [|done].
  repeat match goal with Hx : ?m = Ok ?x |- context [?m] => rewrite Hx; cbn [mbind result_bind] end.
  match goal with Hx : is_text _ _ = false |- _ => rewrite Hx end. done.
Qed.

(** The file falls under a pattern of the entry with this identifier. *)
Definition attributed (entries : list pyval) (file id : string) : Prop :=
  ∃ p, has_pattern entries id p ∧ fnmatchcase (normalized_file file) p = true.

Lemma coverage_nil entries patterns file :
  (∀ id p, (id, p) ∈ patterns ↔ has_pattern entries id p) → coverage_errors fnmatchcase patterns file = [] →
  ∃ id, ∀ id', attributed entries file id' ↔ id' = id.
Proof.
  intros Hpat. unfold coverage_errors.
  assert (∀ id, id ∈ matching_entries fnmatchcase patterns file ↔ attributed entries file id) as Hm.
  { intros id. unfold matching_entries, attributed. rewrite elem_of_sorted_set, list_elem_of_fmap.
    setoid_rewrite list_elem_of_filter. setoid_rewrite <- Hpat. split; [intros ([id' p] & -> & ? & ?)|]; naive_solver. }
  destruct (matching_entries _ _ _) as [|id [|]]; try done. intros _. exists id. intros id'.
  by rewrite <- Hm, list_elem_of_singleton.
Qed.

(** A release that is cleared is accounted for.  When [release_readiness] clears a release
    there is nothing to report; the identifiers of all entries are distinct; every current and
    historical entry has a title, a holder of the rights, a licence, a known origin and evidence
    that leads somewhere, and is verified (third-party material with the address of its source) or
    excluded for a stated reason, so none waits for its owner; every historical object is in the
    history; and every tracked file falls under the patterns of exactly one entry. *)
Theorem cleared_release_accounted inventory files messages :
  release_readiness scheme locate fromisoformat repr fnmatchcase history_object_exists inventory files
    = Ok (true, messages) →
  messages = [] ∧ ∃ current history ids hids,
    dict_get "current_entries" inventory = Some (PList current) ∧ current ≠ []
    ∧ dict_get "history_entries" inventory = Some (PList history) ∧ NoDup (ids ++ hids)
    ∧ Forall2 (entry_cleared "SRC-") current ids ∧ Forall2 (entry_cleared "HIST-") history hids
    ∧ Forall history_found history
    ∧ ∀ file, file ∈ files → ∃ id, ∀ id', attributed current file id' ↔ id' = id.
Proof.
  unfold release_readiness. intros H. ok_inv H. case_bool_decide as He; [done|]. subst. ok_inv H.
  cbn [subscript] in *. ok_invs.
  match goal with Hc : dict_get "current_entries" _ = Some ?x, Hh : dict_get "history_entries" _ = Some ?y |- _ =>
    rename Hc into Hcur, Hh into Hhist; destruct x as [| | | | |current| |]; try done;
    destruct y as [| | | | |history| |]; try done end.
  ok_inv H. injection H as Hr ->. apply bool_decide_eq_true in Hr as ->. split; [done|].
  match goal with Hv : validate_inventory _ _ _ _ _ _ _ _ = _ |- _ => unfold validate_inventory in Hv;
    rewrite Hcur, Hhist in Hv; cbn [entries_of default] in Hv; cbv zeta in Hv; ok_inv Hv; rename Hv into Hv1 end.
  destruct x as [[seen patterns] rest]. ok_inv Hv1. no_errors. subst. prop_of_bool.
  match goal with Hc : current_errors _ _ _ _ _ _ = _ |- _ =>
    apply current_errors_nil in Hc as (Hn & ids & Hids & -> & Hpat); [|constructor] end.
  match goal with Hc : history_errors _ _ _ _ _ _ _ = _ |- _ =>
    apply history_errors_nil in Hc as (hids & Hhids & Hn' & Hfound); [|done] end.
  match goal with Hc : clearance_reasons _ _ = _ |- _ => apply clearance_app in Hc as [Hc1 Hc2] end.
  exists current, history, ids, hids. split_and!; [done|done|done| |by apply cleared_all|by apply cleared_all|done|].
  - rewrite app_nil_r, !reverse_Permutation, Permutation_app_comm in Hn'. done.
  - intros file Hf. apply (coverage_nil _ patterns); [done|].
    match goal with Hc : concat _ = [] |- _ => eapply concat_nil_Forall, Forall_forall in Hc end; [done|].
    by apply list_elem_of_fmap_2.
Qed.
End inventory.
End gates.

(** * The mutation score *)

(** A report that passes is complete, and its score reaches the minimum. *)
Lemma mutation_passed stats minimum message :
  mutation_evaluate stats minimum = Ok (true, message) →
  ∃ killed survived score, dict_get "killed" stats = Some (PInt killed) ∧ dict_get "survived" stats = Some (PInt survived)
  ∧ 0 ≤ killed ∧ 0 ≤ survived ∧ killed + survived ≠ 0
  ∧ Forall (λ f, dict_get f stats = Some (PInt 0)) UNRESOLVED_FIELDS
  ∧ int_div (killed * 100) (killed + survived) = Ok score ∧ fle minimum score = true.
Proof.
  assert (∀ f n, _nonnegative_integer stats f = Ok n → dict_get f stats = Some (PInt n) ∧ 0 ≤ n) as Hint.
  { intros f n. unfold _nonnegative_integer. destruct (dict_get f stats) as [[| |z| | | | |]|]; try done.
    destruct (z <? 0) eqn:Hz; [done|]. intros [= <-]. split; [done|]. by apply Z.ltb_ge. }
  intros H. unfold mutation_evaluate in H. ok_inv H. cbv zeta in H.
  destruct (_ =? 0) eqn:Ha in H; [done|]. destruct (negb _) eqn:Hu in H; [done|]. ok_inv H. injection H as Hle _.
  repeat match goal with Hk : _nonnegative_integer _ _ = _ |- _ => apply Hint in Hk as [? ?] end.
  prop_of_bool. do 3 eexists. split_and!; try done.
  match type of Hu with foldr _ _ ?l = _ => match goal with Hm : _ = Ok l |- _ =>
    change (mapM (_nonnegative_integer stats) UNRESOLVED_FIELDS = Ok l) in Hm;
    apply mapM_Ok in Hm; revert Hm Hu; generalize l; clear -Hint end end.
  intros l Hl Hsum. assert (Forall (λ z, 0 ≤ z) l) as Hpos.
  { clear Hsum. induction Hl as [|f n k l Hf _ IH]; constructor; [by apply Hint in Hf as []|done]. }
  induction Hl as [|f n k l Hf _ IH]; [constructor|]. apply Forall_cons in Hpos as [Hn Hpos]. cbn in Hsum.
  assert (0 ≤ foldr Z.add 0 l) by (clear -Hpos; induction Hpos; cbn; lia). apply Hint in Hf as [Hf _].
  constructor; [by replace 0 with n by lia|apply IH; [lia|done]].
Qed.

(** * A release *)

(** An address has a scheme, anything else is a file that is there. *)
Definition sample_scheme (uri : string) : result string := Ok (if startswith "https://" uri then "https" else "").
Definition sample_locate (uri : string) : result place := Ok Present.
Definition sample_date (s : string) : option Z := if bool_decide (s = "2026-01-01") then Some 20454 else None.
Definition sample_repr (v : pyval) : string := "?".

Definition sample_evidence : pyval := PList [PDict
  [(KStr "uri", PStr "docs/evidence.md"); (KStr "label", PStr "evidence"); (KStr "immutable", PBool true);
   (KStr "verified_at", PStr "2026-01-01")]].
Definition sample_track (id status : string) : pyval := PDict
  [(KStr "target_score", PInt 10);
   (KStr "gates", PList [PDict
     [(KStr "id", PStr id); (KStr "title", PStr "gate"); (KStr "owner", PStr "owner"); (KStr "status", PStr status);
      (KStr "review_by", PStr "2026-01-01"); (KStr "evidence", sample_evidence)]])].
Definition sample_scorecard : pydict :=
  [(KStr "schema_version", PStr "aegisledger.assurance_scorecard.v1"); (KStr "candidate_commit", PStr sample_commit);
   (KStr "tracks", PDict
     [(KStr "research", sample_track "RES-01" "passed"); (KStr "public_release", sample_track "PUB-01" "pending");
      (KStr "production_custody", sample_track "PRO-01" "in_progress")])].

Lemma ready_track_earned_witness :
  ∃ prefix tracks track gates ids commit,
    ("research", prefix) ∈ TRACKS ∧ dict_get "tracks" sample_scorecard = Some (PDict tracks)
    ∧ dict_get "research" tracks = Some (PDict track) ∧ is_ten (dict_get "target_score" track) = true
    ∧ dict_get "gates" track = Some (PList gates) ∧ gates ≠ [] ∧ NoDup ids
    ∧ Forall2 (gate_passed sample_scheme sample_locate sample_date prefix 20454) gates ids
    ∧ dict_get "candidate_commit" sample_scorecard = Some (PStr commit) ∧ SHA40 commit = true
    ∧ ∀ e, Some sample_commit = Some e → e = commit.
Proof.
  refine (proj2 (ready_track_earned sample_scheme sample_locate sample_date sample_repr sample_scorecard "research" 20454
    (Some sample_commit) [] _)).
  vm_compute. reflexivity.
Defined.

Definition sample_entry (id : string) (more : pydict) : pyval := PDict
  ([(KStr "id", PStr id); (KStr "title", PStr "material"); (KStr "copyright_holder", PStr "holder");
    (KStr "license", PStr "MIT"); (KStr "origin", PStr "repository_authored"); (KStr "status", PStr "verified");
    (KStr "evidence", sample_evidence)] ++ more).
Definition sample_inventory : pydict :=
  [(KStr "schema_version", PStr "aegisledger.provenance.v1"); (KStr "owner", PStr "owner");
   (KStr "last_reviewed", PStr "2026-01-01");
   (KStr "current_entries", PList [sample_entry "SRC-001" [(KStr "patterns", PList [PStr "src/a.py"])];
                                   sample_entry "SRC-002" [(KStr "patterns", PList [PStr "README.md"; PStr "LICENSE"])]]);
   (KStr "history_entries", PList [sample_entry "HIST-001"
     [(KStr "path", PStr "old.bin"); (KStr "introduced_commit", PStr sample_commit)]])].
(** Patterns without wildcards. *)
Definition sample_match (file pattern : string) : bool := bool_decide (file = pattern).

Lemma cleared_release_accounted_witness :
  ∃ current history ids hids,
    dict_get "current_entries" sample_inventory = Some (PList current) ∧ current ≠ []
    ∧ dict_get "history_entries" sample_inventory = Some (PList history) ∧ NoDup (ids ++ hids)
    ∧ Forall2 (entry_cleared sample_scheme sample_locate "SRC-") current ids
    ∧ Forall2 (entry_cleared sample_scheme sample_locate "HIST-") history hids
    ∧ Forall (history_found (Some (λ _ path, bool_decide (path = "old.bin")))) history
    ∧ ∀ file, file ∈ ["src/a.py"; "LICENSE"] → ∃ id, ∀ id', attributed sample_match current file id' ↔ id' = id.
Proof.
  refine (proj2 (cleared_release_accounted sample_scheme sample_locate sample_date sample_repr sample_match
    (Some (λ _ path, bool_decide (path = "old.bin"))) sample_inventory ["src/a.py"; "LICENSE"] [] _)).
  vm_compute. reflexivity.
Defined.
